(* ===== verification/_CoqProject ===== *)
-Q . S2P
Prelude.v
PyStr.v
PyRe.v
OptionDefs.v
Effects.v
Fail.v
Text.v
PyGetopt.v
Host.v
Input.v
Process.v
Commands.v
CheckInput.v
Login.v
Snmp.v
Metadata.v
MetadataSpec.v
CheckSpec.v
CheckedSpec.v
Action.v
ActionSpec.v
Power.v
PowerSpec.v
TextFacts.v
TextSpec.v
InputSpec.v
ProcessSpec.v
Verify.v
Scsi.v
ScsiMain.v
Mpath.v
ScsiSpec.v
Sbd.v
Ping.v
WatchSpec.v
Ipmilan.v
WordsSpec.v
Globals.v
PduSnmp.v
EatonSnmp.v
SnmpAgents.v
PduSpec.v
Console.v
ConsoleAgents.v
HostAgents.v
MenuAgents.v
TableAgents.v
CommandAgents.v
OutletAgents.v
MoonshotSpec.v
TypeSpec.v
Json.v
JsonSpec.v
Http.v
WebAgents.v
ServiceAgents.v
IbmAgents.v
RequestsAgents.v
WebSpec.v
AgentsSpec.v
Judgments.v
LocalAgents.v
Sessions.v
Ibmz.v
Dummy.v
Nutanix.v
ServicesSpec.v
Aws.v
VpcNet.v
VpcSpec.v
VpcRestoreSpec.v
Gce.v
Nova.v
Azure.v
Zvm.v
CloudAgents.v
Xen.v
XmlAgents.v
CloudSpec.v
