(* ===== verification/Prelude.v ===== *)
(** * Verification of fence-agents

    The repository holds a Python library, [lib/fencing.py.py], and some eighty programs,
    the fence agents under [agents/], that cut a node of a cluster off its power or its
    storage. A cluster manager calls an agent with an action (on, off, reboot, status,
    monitor, list, ...) and acts on its exit status: an agent that reports success for a
    node that still runs corrupts data. This development models the library and the
    agents named below as executable functions, and proves what a cluster relies on.

    ** The shape of the model

    A run works on a state [st D] (Effects.v): the dictionary [options], which all
    functions share and change, the global [all_opt], what was printed, logged and waited
    for (the trace), the clock, and the device and host [D]. Functions are values of the
    monad [M D A]: they return, raise one of the exceptions of Python that the code
    distinguishes ([exn], [SystemExit] with its status among them), or run out of fuel.
    The source's names are kept; where two agents share a name, the agent's name comes
    first ([mpath_set_status], [shelly_get_power_status]).

    What is not Python of the repository is a class over [D], and every theorem about such
    code holds for every instance: [Host] (files, processes and their durations), Host.v;
    [Terminal] (pexpect), Login.v; [Pycurl], Http.v; [Requests] and [HttpClient],
    RequestsAgents.v; [TokenFiles], IbmAgents.v; [Sessions] (requests with sessions and
    certificates), Sessions.v; [Serial], LocalAgents.v; [Recorder], Dummy.v; [Ec2] (boto3),
    Aws.v; [Gce] (googleapiclient), Gce.v; [Nova] (novaclient, keystone), Nova.v; [Azure]
    (its packages), Azure.v; [Smapi] (sockets of z/VM), Zvm.v; [Openstack], [Aliyun],
    [Kube], [Ovh], CloudAgents.v; [Xmlrpc], Xen.v; [XmlParser], [Vcloud], [Vim] (suds),
    [Wsman] and [Floats], XmlAgents.v. The standard library of Python is defined where the
    source uses it: str and int (PyStr.v), re (PyRe.v), getopt (PyGetopt.v), shlex
    (Process.v), textwrap (Text.v), json (Json.v), base64 (RequestsAgents.v), hashlib
    (Verify.v). Globals of an agent's module are a component of its [D] (Globals.v). Texts
    are their bytes in UTF-8.

    ** The library

    - OptionDefs.v: [all_opt] and [DEPENDENCY_OPT] as loaded; Fail.v: [fail], [fail_usage]
      and the exit codes.
    - Input.v: [process_input] with its two parsers; CheckInput.v: [check_input] with
      defaults, [_validate_input], TLS, passwords and verbosity.
    - Text.v, Metadata.v: [_join_wrap], [usage], [metadata], [show_docs].
    - Action.v: [fence_action], the loops over plugs, the waiting, lists and monitor. The
      callbacks of an agent are arguments.
    - Process.v, Commands.v: [run_delay], [run_command], [run_commands].
    - Login.v: [fspawn], [fence_login], [fence_logout], [frun].
    - Snmp.v: the class [FencingSnmp] of [lib/fencing_snmp.py.py].

    A program is [process_input], [check_input], [show_docs], [run_delay], its own set-up,
    [fence_action] with its callbacks, [sys.exit]; the definitions [fence_..._main] are
    these compositions, and the records of Console.v those of the agents on a session.

    ** The agents

    - Storage: Scsi.v and ScsiMain.v (fence_scsi with its watchdog check), Mpath.v, Sbd.v.
      Network: Ping.v (fence_heuristics_ping).
    - SNMP: PduSnmp.v (apc_snmp, ipdu), EatonSnmp.v, SnmpAgents.v (ifmib, emerson,
      intelmodular, cisco_mds), OutletAgents.v (ibmblade).
    - Telnet and ssh: ConsoleAgents.v (alom, ilo_mp, ilo_ssh, drac, rsa, rsb,
      ilo_moonshot, cyberpower_ssh, brocade), HostAgents.v (virsh, ldom, bladecenter,
      hpblade, sanbox2, netio, raritan), MenuAgents.v (apc, hds_cb, vbox, drac5),
      TableAgents.v (lpar, wti, cdu, eaton_ssh), OutletAgents.v (raritan_px3).
    - Programs and lines: Ipmilan.v, CommandAgents.v (vmware, amt), LocalAgents.v (powerman,
      lindypdu, crosslink, ironic, rcd_serial), Dummy.v, Zvm.v (zvmip).
    - HTTP: WebAgents.v (shelly_gen2, vmware_rest, hetzner_cloud), ServiceAgents.v (pve,
      docker, cisco_ucs, rhevm), IbmAgents.v (ibm_powervs, ibm_vpc), RequestsAgents.v
      (redfish, ecloud, skalar, eps), Sessions.v (ovm), Ibmz.v, Nutanix.v (nutanix_ahv).
    - Client libraries of clouds: Aws.v (aws, and what aws_vpc_net shares with it), VpcNet.v
      (aws_vpc_net), Gce.v, Nova.v (compute, evacuate), Azure.v ([lib/azure_fence.py.py] and
      azure_arm), CloudAgents.v (openstack, aliyun, kubevirt, ovh), Xen.v
      ([lib/XenAPI.py.py] and xenapi). Json.v: dictionaries with keys of any type, and the
      texts of Python values.
    - XML: XmlAgents.v (vmware_soap, vmware_vcloud, amt_ws, ilo).

    ** What is proved

    - The action. ActionSpec.v, for arbitrary callbacks: off and reboot are confirmed by a
      last round of status reads before they succeed; queries never change power; errors
      of the session become status 1; the waiting ends after as many polls as the timeout
      says. Power.v and PowerSpec.v: the interface [Obedient] of an agent and its device,
      and the refinement of [fence_action]: it carries the request out ([requested_states]:
      exactly the requested plugs are in the requested state), but for "on" of plugs of
      which some are on and some off ([mixed]), which it leaves as they are.
    - From the command to the device. The interface is discharged for one plug of
      fence_apc_snmp, which first finds out what its device is, and of fence_ipdu over a
      server of SNMP objects (PduSpec.v), for fence_ilo_moonshot over a command line
      (MoonshotSpec.v) and for fence_shelly_gen2 over a service of JSON (WebSpec.v); each
      has a theorem like that of [fence_action]. There also: the listing of
      fence_hetzner_cloud has the machines of all pages.
    - Agents on services. VpcSpec.v and VpcRestoreSpec.v: what fence_aws_vpc_net takes off
      the interfaces of an instance it can put back from the tags alone, against the class
      [Ec2Account] of accounts that keep what they are told, and the tags stay small.
      CloudSpec.v: against the class [AzureNetwork], blocking a machine and unblocking it
      restores its network, which counts as off only when it is cut off; against the class
      [NovaFences], fence_compute ends with success only for a fenced host. ServicesSpec.v:
      fence_ibmz confirms its power by a completed job, and its waits end; the exceptions of
      the layers of fence_nutanix_ahv do not escape; the recorder of fence_dummy believes
      only the response to the request it has placed, and its wait ends.
    - The options. InputSpec.v: the command line and the standard input mean the same;
      CheckSpec.v, CheckedSpec.v: what [check_input] guarantees; TypeSpec.v:
      options keep the types of their definitions; MetadataSpec.v, TextSpec.v: the
      documentation does not depend on the order of sets and its texts are not corrupted.
    - Commands. ProcessSpec.v: delays, timeouts, termination. WordsSpec.v: what is put on a
      command line arrives as the same words, and passwords are not logged. ScsiSpec.v,
      JsonSpec.v, TextFacts.v: round trips.
    - Storage and heuristics. ScsiSpec.v: fencing is verified on every device by
      fence_scsi and fence_mpath, and fence_scsi never fences its own node; when the
      watchdog check of fence_scsi says no. WatchSpec.v: the verdict of
      fence_heuristics_ping from its options, and what fence_sbd makes of the timeouts.
    - AgentsSpec.v: behaviour at the edges of single agents.

    TextFacts.v, Verify.v hold lemmas that several files share. Proofs about
    runs go by the equations of the monad ([bind_Ret] and its inversions, Effects.v), by
    the judgment [total] (Power.v), by frame conditions on the options ([keeps], Effects.v),
    by what a run may raise or by triples ([only] and [triple], Judgments.v).

    ** Fuel and bounds

    Loops of the source whose end depends on a device take fuel: the waiting of
    [fence_action] ([wait_terminates]: as many polls as the timeout), [run_commands]
    ([run_commands_terminates]), the pages of fence_hetzner_cloud
    ([hetzner_list_complete]: pages and one), the jobs of fence_ibmz ([ibmz_power_ends]: one
    round more than the seconds of the timeout, computed in the model), the tasks of
    fence_nutanix_ahv (rounds from the timeout), JSON ([json_loads_total]: twice the length of
    the text), the recorder of fence_dummy ([recorder_ends]: intervals in the timeout and
    two) and decimal numbers. The jobs of fence_ovm, the operations and pages of fence_gce
    and the waits of fence_compute have no bound in the code, and take fuel alone, as does
    reading an answer of fence_zvmip, which has as many rounds as the server sends pieces;
    the names in it take one round per byte at most. Loops over screens go by recursion over
    their lines. Integers of Python are unbounded; MD5 and SHA-256 use words of 32 bits
    with their wrap-around written out. Time is in microseconds, and timeouts are whole
    seconds: a timeout such as 0.5 is an error in this model.

    ** Parameters and omissions

    Parameters: the iteration order of sets, the text of a float, the directory of
    temporary files, why a program cannot be started, and regular expressions that the
    source builds from names with special characters or takes from a setting. A request takes
    no time on the clock of the model; an error in a text of JSON is a ValueError, whose
    subclass it is; keys of JSON objects are shown as texts. The order of [str(options)] in log messages is that of the map.
    Not modelled: [atexit_handler] and the syslog handler; the text of a traceback; the
    transport of XenAPI over Unix sockets, which no agent uses; [agents/autodetect], an
    experiment on a copy of an old library; the developer tool check_used_options; and the
    C programs fence_virt, fence_kdump and fence_zvm. *)

From stdpp Require Export base tactics list strings gmap.
From Stdlib Require Export Ascii.
From Stdlib Require Export ZArith Lia.

#[global] Set Default Goal Selector "!".

Declare Scope fence_scope.
Delimit Scope fence_scope with fence.

(** Hint database of the development: lemmas that close the common side goals. *)
Create HintDb fence discriminated.

(** ** Tactics *)

(** Splits every boolean conjunction and disjunction equation in the context. *)
Ltac bool_hyps :=
  repeat match goal with
  | H : andb _ _ = true |- _ => apply andb_true_iff in H as [? ?]
  | H : orb _ _ = false |- _ => apply orb_false_iff in H as [? ?]
  | H : negb _ = true |- _ => apply negb_true_iff in H
  | H : negb _ = false |- _ => apply negb_false_iff in H
  | H : bool_decide _ = true |- _ => apply bool_decide_eq_true in H
  | H : bool_decide _ = false |- _ => apply bool_decide_eq_false in H
  end.

(** Proves a decidable closed proposition, such as membership in a literal list, by
    evaluating its decision procedure. *)
Ltac closed_dec := apply (bool_decide_unpack _); vm_compute; exact I.

(** ** Lists of option names

    The source treats [device_opt] as a Python list: membership is [count(x) != 0]
    or [x in l], removal is [list.remove]. *)

Definition py_count (x : string) (l : list string) : nat :=
  length (filter (.= x) l).

Definition py_in (x : string) (l : list string) : bool :=
  bool_decide (x ∈ l).

(** [list.remove(x)] drops the first occurrence; [None] is its ValueError. *)
Fixpoint py_remove (x : string) (l : list string) : option (list string) :=
  match l with
  | [] => None
  | y :: l' => if decide (y = x) then Some l' else (y ::.) <$> py_remove x l'
  end.

(** [list(set(l))] up to order: duplicates dropped. *)
Definition py_dedup (l : list string) : list string := remove_dups l.

Lemma py_count_pos x l : 0 < py_count x l ↔ x ∈ l.
Proof.
  unfold py_count. split.
  - intros H. destruct (filter (.= x) l) as [|y k] eqn:E; simpl in H; [lia|].
    assert (y ∈ filter (.= x) l) as Hy by (rewrite E; left).
    apply list_elem_of_filter in Hy as [-> ?]. done.
  - intros H. assert (x ∈ filter (.= x) l) as Hx by (apply list_elem_of_filter; done).
    destruct (filter (.= x) l); [by apply not_elem_of_nil in Hx|simpl; lia].
Qed.

Lemma py_count_zero x l : py_count x l = 0 ↔ x ∉ l.
Proof. rewrite <- py_count_pos. lia. Qed.

Lemma py_in_true x l : py_in x l = true ↔ x ∈ l.
Proof. apply bool_decide_eq_true. Qed.

Lemma py_in_false x l : py_in x l = false ↔ x ∉ l.
Proof. apply bool_decide_eq_false. Qed.

Lemma py_count_app x l k : py_count x (l ++ k) = py_count x l + py_count x k.
Proof. unfold py_count. by rewrite filter_app, length_app. Qed.

#[export] Hint Resolve py_in_true py_in_false : fence.
