(* ===== verification/PyStr.v ===== *)
(** * Python's [str] and [int]: the operations the library uses *)

From S2P Require Import Prelude.

Local Open Scope string_scope.

(** ** Characters

    Text is ASCII: a character is an [ascii]; those above 127 are opaque, they are
    neither white space nor cased. *)

Definition code (c : ascii) : N := N_of_ascii c.

(** [str.isspace] and the regular expressions' [\s] on ASCII. *)
Definition is_space (c : ascii) : bool :=
  let n := code c in
  ((9 <=? n) && (n <=? 13) || (28 <=? n) && (n <=? 32))%N.

Definition is_digit (c : ascii) : bool :=
  let n := code c in ((48 <=? n) && (n <=? 57))%N.

Definition is_upper (c : ascii) : bool :=
  let n := code c in ((65 <=? n) && (n <=? 90))%N.

Definition is_lower (c : ascii) : bool :=
  let n := code c in ((97 <=? n) && (n <=? 122))%N.

Definition char_lower (c : ascii) : ascii :=
  if is_upper c then ascii_of_N (code c + 32) else c.

Definition char_upper (c : ascii) : ascii :=
  if is_lower c then ascii_of_N (code c - 32) else c.

Definition NL : ascii := "010"%char.
Definition TAB : ascii := "009"%char.
Definition CR : ascii := "013"%char.
Definition DQ : ascii := "034"%char.
Definition BS : ascii := "092"%char.
Definition str1 (c : ascii) : string := String c "".
Definition nl : string := str1 NL.
Definition tab : string := str1 TAB.
Definition dq : string := str1 DQ.

(** ** Strings *)

Fixpoint smap (f : ascii → ascii) (s : string) : string :=
  match s with
  | "" => ""
  | String c s' => String (f c) (smap f s')
  end.

Definition lower : string → string := smap char_lower.
Definition upper : string → string := smap char_upper.

Fixpoint lstrip_by (p : ascii → bool) (s : string) : string :=
  match s with
  | "" => ""
  | String c s' => if p c then lstrip_by p s' else s
  end.

Fixpoint rstrip_by (p : ascii → bool) (s : string) : string :=
  match s with
  | "" => ""
  | String c s' =>
      let r := rstrip_by p s' in
      if p c && bool_decide (r = "") then "" else String c r
  end.

Definition lstrip := lstrip_by is_space.
Definition rstrip := rstrip_by is_space.
Definition strip (s : string) : string := lstrip (rstrip s).
Definition lstrip_char (d : ascii) := lstrip_by (λ c, bool_decide (c = d)).
Definition rstrip_char (d : ascii) := rstrip_by (λ c, bool_decide (c = d)).

Definition startswith (pre s : string) : bool := String.prefix pre s.

Definition endswith (suf s : string) : bool :=
  let n := String.length s in
  let m := String.length suf in
  Nat.leb m n && bool_decide (String.substring (n - m) m s = suf).

(** [s[:-1]] *)
Fixpoint drop_last (s : string) : string :=
  match s with
  | "" => ""
  | String c "" => ""
  | String c s' => String c (drop_last s')
  end.

(** [sub in s] *)
Fixpoint contains (sub s : string) : bool :=
  String.prefix sub s ||
  match s with
  | "" => false
  | String _ s' => contains sub s'
  end.

(** [s.split(sep)] for a non-empty separator; [skip] characters of the current
    occurrence of the separator are still to be passed over. *)
Fixpoint split_go (sep s : string) (skip : nat) : list string :=
  match s with
  | "" => [""]
  | String c s' =>
      match skip with
      | S k => split_go sep s' k
      | O =>
          if String.prefix sep s then "" :: split_go sep s' (String.length sep - 1)
          else
            match split_go sep s' 0 with
            | h :: t => String c h :: t
            | [] => [String c ""]
            end
      end
  end.

(** [None] is the ValueError of an empty separator. *)
Definition split (sep s : string) : option (list string) :=
  if decide (sep = "") then None else Some (split_go sep s 0).

(** [s.split(d, 1)] for a single character: [None] when [d] does not occur. *)
Fixpoint split1 (d : ascii) (s : string) : option (string * string) :=
  match s with
  | "" => None
  | String c s' =>
      if decide (c = d) then Some ("", s')
      else match split1 d s' with
           | Some (a, b) => Some (String c a, b)
           | None => None
           end
  end.

(** [s.split()]: maximal runs of non-space characters; the words of a text, and the
    beginning of the word that reaches up to its front. *)
Fixpoint ws_go (s : string) : list string * string :=
  match s with
  | "" => ([], "")
  | String c s' =>
      let '(ws, cur) := ws_go s' in
      if is_space c then (if decide (cur = "") then ws else cur :: ws, "")
      else (ws, String c cur)
  end.

Definition split_ws (s : string) : list string :=
  let '(ws, cur) := ws_go s in if decide (cur = "") then ws else cur :: ws.

(** [s.replace(old, new)] for a non-empty [old]. *)
Fixpoint replace_go (old new s : string) (skip : nat) : string :=
  match s with
  | "" => ""
  | String c s' =>
      match skip with
      | S k => replace_go old new s' k
      | O =>
          if String.prefix old s
          then new +:+ replace_go old new s' (String.length old - 1)
          else String c (replace_go old new s' 0)
      end
  end.

Definition replace (old new s : string) : string := replace_go old new s 0.

(** [s.splitlines()] on ASCII text. *)
Definition is_linebreak (c : ascii) : bool :=
  let n := code c in ((10 <=? n) && (n <=? 13) || (28 <=? n) && (n <=? 30))%N.

Fixpoint splitlines_go (s : string) (after_cr : bool) : list string :=
  match s with
  | "" => [""]
  | String c s' =>
      if after_cr && bool_decide (c = NL) then splitlines_go s' false
      else
        let ls := splitlines_go s' (bool_decide (c = CR)) in
        if is_linebreak c then "" :: ls
        else match ls with
             | h :: t => String c h :: t
             | [] => [String c ""]
             end
  end.

Definition drop_trailing_empty (ls : list string) : list string :=
  match last ls with
  | Some "" => take (length ls - 1) ls
  | _ => ls
  end.

Definition splitlines (s : string) : list string :=
  drop_trailing_empty (splitlines_go s false).

Fixpoint repeat_str (s : string) (n : nat) : string :=
  match n with
  | O => ""
  | S k => s +:+ repeat_str s k
  end.

(** [sep.join(l)] *)
Fixpoint join (sep : string) (l : list string) : string :=
  match l with
  | [] => ""
  | [x] => x
  | x :: l' => x +:+ sep +:+ join sep l'
  end.

Fixpoint count_char (d : ascii) (s : string) : nat :=
  match s with
  | "" => 0
  | String c s' => (if decide (c = d) then 1 else 0) + count_char d s'
  end.

(** ** Decimal integers: [str(n)] and [int(s)] *)

Definition digit_char (n : Z) : ascii := ascii_of_N (48 + Z.to_N n).

(** Decimal digits of a non-negative number, most significant first. [fuel] bounds
    the number of digits: [Z.log2 n + 1] is enough. *)
Fixpoint digits_go (fuel : nat) (n : Z) (acc : string) : string :=
  match fuel with
  | O => acc
  | S k =>
      let acc' := String (digit_char (n mod 10)) acc in
      if (n <? 10)%Z then acc' else digits_go k (n / 10) acc'
  end.

Definition str_of_Z (n : Z) : string :=
  let digits m := digits_go (S (Z.to_nat (Z.log2 m))) m "" in
  if (n <? 0)%Z then "-" +:+ digits (- n)%Z else digits n.

Definition digit_val (base : Z) (c : ascii) : option Z :=
  let v :=
    if is_digit c then Z.of_N (code c - 48)
    else if is_lower c then Z.of_N (code c - 87)
    else if is_upper c then Z.of_N (code c - 55)
    else 99%Z in
  if (v <? base)%Z then Some v else None.

(** Digits with single underscores between them, as [int()] accepts them;
    [under] says that an underscore may come now, i.e. the last character was a digit. *)
Fixpoint digits_val (base : Z) (s : string) (acc : Z) (under : bool) : option Z :=
  match s with
  | "" => if under then Some acc else None
  | String c s' =>
      if bool_decide (c = "_"%char)
      then if under then digits_val base s' acc false else None
      else match digit_val base c with
           | Some v => digits_val base s' (acc * base + v)%Z true
           | None => None
           end
  end.

Definition with_sign (f : string → option Z) (s : string) : option Z :=
  match s with
  | String "-"%char s' => Z.opp <$> f s'
  | String "+"%char s' => f s'
  | _ => f s
  end.

(** [int(s)]; [None] is its ValueError. *)
Definition int_of_str (s : string) : option Z :=
  with_sign (λ t, digits_val 10 t 0 false) (strip s).

(** [int(s, 16)]: an optional [0x] and one underscore may come before the digits. *)
Definition hex_of_str (s : string) : option Z :=
  with_sign
    (λ t, match t with
          | String "0"%char (String "x"%char (String "_"%char t'))
          | String "0"%char (String "X"%char (String "_"%char t'))
          | String "0"%char (String "x"%char t')
          | String "0"%char (String "X"%char t') => digits_val 16 t' 0 false
          | _ => digits_val 16 t 0 false
          end) (strip s).

(** [repr(s)] *)
Definition repr_char (quote c : ascii) : string :=
  let hex n := if (n <? 10)%N then ascii_of_N (48 + n) else ascii_of_N (87 + n) in
  if decide (c = quote) then String BS (str1 c)
  else if decide (c = BS) then String BS (str1 BS)
  else if decide (c = TAB) then String BS "t"
  else if decide (c = NL) then String BS "n"
  else if decide (c = CR) then String BS "r"
  else if ((code c <? 32) || (code c =? 127))%N
  then String BS (String "x" (String (hex (code c / 16)%N) (str1 (hex (code c mod 16)%N))))
  else str1 c.

Definition py_repr (s : string) : string :=
  let quote := if contains "'" s && negb (contains dq s) then DQ else "'"%char in
  str1 quote +:+ join "" (map (repr_char quote) (String.list_ascii_of_string s)) +:+ str1 quote.

(** ** Facts *)

Lemma char_upper_idem c : char_upper (char_upper c) = char_upper c.
Proof. by destruct c as [[] [] [] [] [] [] [] []]. Qed.

Lemma upper_idem s : upper (upper s) = upper s.
Proof.
  unfold upper. induction s as [|c s IH]; [done|]. cbn. by rewrite char_upper_idem, IH.
Qed.
