(* ===== verification/PyRe.v ===== *)
(** * Python's [re] module: a backtracking matcher

    The agents parse the output of their tools with regular expressions; the patterns
    are translated constructor by constructor into [re] and run by [rmatch], which
    explores alternatives in the order of CPython's engine (leftmost alternative first,
    greedy or lazy repetition as written), so the captured groups are the same. *)

From S2P Require Import Prelude PyStr.

Local Open Scope string_scope.

Inductive re :=
| Eps                                (* the empty pattern *)
| Chr (p : ascii → bool)             (* one character of a class *)
| Seq (r1 r2 : re)
| Alt (r1 r2 : re)                   (* r1|r2 *)
| Star (greedy : bool) (r : re)      (* r* or r*? *)
| Group (n : nat) (r : re)           (* (r), the n-th group *)
| Bos                                (* ^ *)
| Bol                                (* ^ under re.MULTILINE *)
| Eos                                (* $ *)
| Eol                                (* $ under re.MULTILINE *)
| NotAhead (r : re).                 (* (?!r) *)

(** Captured groups, the latest capture of a group first. *)
Definition groups := list (nat * string).

Fixpoint group_lookup (n : nat) (g : groups) : option string :=
  match g with
  | [] => None
  | (m, s) :: g' => if decide (m = n) then Some s else group_lookup n g'
  end.

(** The text between two positions, given as the text that remains after each. *)
Definition text_between (s rest : string) : string :=
  String.substring 0 (String.length s - String.length rest) s.

(** Repetition: [once] matches the repeated pattern. An iteration must consume text, so
    [S (length s)] iterations are enough. *)
Fixpoint star_loop {B} (greedy : bool)
    (once : option ascii → string → groups → (option ascii → string → groups → option B) → option B)
    (k : option ascii → string → groups → option B)
    (n : nat) (prev : option ascii) (s : string) (g : groups) : option B :=
  match n with
  | O => k prev s g
  | S n' =>
      let more :=
        once prev s g (λ prev' s' g',
          if Nat.ltb (String.length s') (String.length s)
          then star_loop greedy once k n' prev' s' g' else None) in
      if greedy
      then match more with Some b => Some b | None => k prev s g end
      else match k prev s g with Some b => Some b | None => more end
  end.

(** [rmatch r prev s g k] matches [r] at the front of [s], [prev] being the character
    before it, and hands what remains to the continuation [k]. *)
Fixpoint rmatch {B} (r : re) (prev : option ascii) (s : string) (g : groups)
    (k : option ascii → string → groups → option B) {struct r} : option B :=
  match r with
  | Eps => k prev s g
  | Chr p =>
      match s with
      | String c s' => if p c then k (Some c) s' g else None
      | "" => None
      end
  | Seq r1 r2 =>
      rmatch r1 prev s g (λ prev' s' g', rmatch r2 prev' s' g' k)
  | Alt r1 r2 =>
      match rmatch r1 prev s g k with
      | Some b => Some b
      | None => rmatch r2 prev s g k
      end
  | Star greedy r1 =>
      star_loop greedy (rmatch r1) k (S (String.length s)) prev s g
  | Group n r1 =>
      rmatch r1 prev s g (λ prev' s' g', k prev' s' ((n, text_between s s') :: g'))
  | Bos => match prev with None => k prev s g | Some _ => None end
  | Bol =>
      match prev with
      | None => k prev s g
      | Some c => if decide (c = NL) then k prev s g else None
      end
  | Eos =>
      match s with
      | "" => k prev s g
      | String c "" => if decide (c = NL) then k prev s g else None
      | _ => None
      end
  | Eol =>
      match s with
      | "" => k prev s g
      | String c _ => if decide (c = NL) then k prev s g else None
      end
  | NotAhead r1 =>
      match rmatch r1 prev s g (λ _ _ g', Some g') with
      | Some _ => None
      | None => k prev s g
      end
  end.

(** ** Derived patterns *)

Definition Opt (r : re) : re := Alt r Eps.
Definition Many (r : re) : re := Star true r.
Definition ManyLazy (r : re) : re := Star false r.
Definition Plus (r : re) : re := Seq r (Star true r).

Definition Any : re := Chr (λ c, bool_decide (c ≠ NL)).       (* . *)
Definition AnyS : re := Chr (λ _, true).                      (* . under re.S *)
Definition Space : re := Chr is_space.                        (* \s *)
Definition NonSpace : re := Chr (λ c, negb (is_space c)).     (* \S *)
Definition Digit : re := Chr is_digit.                        (* \d *)

Definition same_char (c : ascii) : re := Chr (λ d, bool_decide (d = c)).
Definition same_char_i (c : ascii) : re :=
  Chr (λ d, bool_decide (char_lower d = char_lower c)).

(** Literal text, and literal text under [re.IGNORECASE]. *)
Fixpoint Lit (s : string) : re :=
  match s with
  | "" => Eps
  | String c "" => same_char c
  | String c s' => Seq (same_char c) (Lit s')
  end.

Fixpoint LitI (s : string) : re :=
  match s with
  | "" => Eps
  | String c "" => same_char_i c
  | String c s' => Seq (same_char_i c) (LitI s')
  end.

Fixpoint Seqs (rs : list re) : re :=
  match rs with
  | [] => Eps
  | [r] => r
  | r :: rs' => Seq r (Seqs rs')
  end.

(** ** The module's functions *)

Record rematch := Match {
  m_before : string;        (* the text before the match *)
  m_text : string;          (* group(0) *)
  m_groups : groups;
  m_last : option ascii;    (* the character before [m_rest] *)
  m_rest : string           (* the text after the match *)
}.

Definition m_group (n : nat) (m : rematch) : string := default "" (group_lookup n (m_groups m)).

Definition match_at (r : re) (must_advance : bool) (prev : option ascii) (s : string)
    : option (option ascii * string * groups) :=
  rmatch r prev s [] (λ prev' s' g,
    if must_advance && Nat.eqb (String.length s') (String.length s) then None
    else Some (prev', s', g)).

(** The leftmost match at or after a position; an empty match is refused at the
    position itself when [must_advance]. *)
Fixpoint search_from (r : re) (must_advance : bool) (prev : option ascii) (s : string)
    : option rematch :=
  match match_at r must_advance prev s with
  | Some (last, rest, g) => Some (Match "" (text_between s rest) g last rest)
  | None =>
      match s with
      | "" => None
      | String c s' =>
          match search_from r false (Some c) s' with
          | Some m => Some (Match (String c (m_before m)) (m_text m) (m_groups m)
                              (m_last m) (m_rest m))
          | None => None
          end
      end
  end.

(** [re.search] and [re.match] *)
Definition search (r : re) (s : string) : option rematch := search_from r false None s.

Definition re_match (r : re) (s : string) : option rematch :=
  match match_at r false None s with
  | Some (last, rest, g) => Some (Match "" (text_between s rest) g last rest)
  | None => None
  end.

(** Successive matches. A match is followed by a search that may not return the empty
    match at the same place, so [2 * length s + 2] steps are enough. *)
Fixpoint finditer_go (fuel : nat) (r : re) (must_advance : bool) (prev : option ascii)
    (s : string) : list rematch * string :=
  match fuel with
  | O => ([], s)
  | S n =>
      match search_from r must_advance prev s with
      | None => ([], s)
      | Some m =>
          let '(ms, tail) := finditer_go n r (bool_decide (m_text m = "")) (m_last m) (m_rest m) in
          (m :: ms, tail)
      end
  end.

Definition finditer (r : re) (s : string) : list rematch * string :=
  finditer_go (2 * String.length s + 2) r false None s.

(** [re.findall] of a pattern with two groups. *)
Definition findall2 (r : re) (s : string) : list (string * string) :=
  map (λ m, (m_group 1 m, m_group 2 m)) (fst (finditer r s)).

(** [re.sub(r, repl, s)] *)
Definition sub (r : re) (repl : rematch → string) (s : string) : string :=
  let '(ms, tail) := finditer r s in
  foldr (λ m acc, m_before m +:+ repl m +:+ acc) tail ms.

(** [re.split(r, s)] for a pattern without groups. *)
Definition re_split (r : re) (s : string) : list string :=
  let '(ms, tail) := finditer r s in map m_before ms ++ [tail].

(** ** Patterns that contain text from the options

    Characters that mean themselves and the dot are translated. A pattern whose text has
    any other special character is left to [compile], Python's [re.compile], which is
    given the whole pattern and whether [re.MULTILINE] is set ([None]: [re.error]). *)
Definition special_chars : list ascii :=
  ["^"; "$"; "*"; "+"; "?"; "{"; "}"; "["; "]"; "\"; "|"; "("; ")"]%char.

Fixpoint simple_pattern (s : string) : option re :=
  match s with
  | "" => Some Eps
  | String c s' =>
      if bool_decide (c ∈ special_chars) then None
      else
        match simple_pattern s' with
        | Some r => Some (Seq (if decide (c = "."%char) then Any else same_char c) r)
        | None => None
        end
  end.

Definition interpolated (compile : bool → string → option re) (multiline : bool)
    (text : string) (around : re → re) (pattern : string) : option re :=
  match simple_pattern text with
  | Some r => Some (around r)
  | None => compile multiline pattern
  end.
