(* ===== verification/OptionDefs.v ===== *)
(** * Option definitions: [all_opt] and [DEPENDENCY_OPT]

    The library keeps one global dictionary [all_opt] from option keys to their
    definitions; agents add entries to it and the library rewrites some of its fields
    ([_update_metadata], [_set_default_values]). Here an entry is a record, built from
    the fields in the order the source writes them, and the dictionary is a finite map
    that the state of a run carries. *)

From S2P Require Import Prelude PyStr.

Local Open Scope string_scope.

(** ** Values of the [options] dictionary *)

Inductive pyval :=
| VNone
| VStr (s : string)
| VInt (n : Z)
| VList (l : list string).

#[export] Instance pyval_eq_dec : EqDecision pyval.
Proof. solve_decision. Defined.

(** ** Definitions of options

    A field is [None] when the dictionary literal does not have the key. *)

Record optdef := OptDef {
  od_getopt : string;
  od_longopt : option string;
  od_help : string;
  od_required : option string;
  od_shortdesc : option string;
  od_default : option pyval;
  od_choices : option (list string);
  od_type : option string;
  od_order : Z
}.

Inductive field :=
| Getopt (s : string)
| Longopt (s : string)
| Help (s : string)
| Required (s : string)
| Shortdesc (s : string)
| Default (v : pyval)
| Choices (l : list string)
| Type_ (s : string)
| Order (n : Z)
| Longdesc (s : string).   (* set by one agent, read by nothing *)

Definition set_field (d : optdef) (f : field) : optdef :=
  let '(OptDef g l h r sd df ch ty o) := d in
  match f with
  | Getopt s => OptDef s l h r sd df ch ty o
  | Longopt s => OptDef g (Some s) h r sd df ch ty o
  | Help s => OptDef g l s r sd df ch ty o
  | Required s => OptDef g l h (Some s) sd df ch ty o
  | Shortdesc s => OptDef g l h r (Some s) df ch ty o
  | Default v => OptDef g l h r sd (Some v) ch ty o
  | Choices c => OptDef g l h r sd df (Some c) ty o
  | Type_ s => OptDef g l h r sd df ch (Some s) o
  | Order n => OptDef g l h r sd df ch ty n
  | Longdesc _ => d
  end.

(** A dictionary literal. *)
Definition opt (fs : list field) : optdef :=
  foldl set_field (OptDef "" None "" None None None None None 0) fs.

(** [all_opt], lines 37 to 148 of [lib/fencing.py.py]. *)
Definition all_opt_1 : list (string * optdef) := [
  ("help", opt [Getopt "h";
     Longopt "help";
     Help "-h, --help                     Display this help and exit";
     Required "0";
     Shortdesc "Display help and exit";
     Order 55]);
  ("version", opt [Getopt "V";
     Longopt "version";
     Help "-V, --version                  Display version information and exit";
     Required "0";
     Shortdesc "Display version information and exit";
     Order 54]);
  ("verbose", opt [Getopt "v";
     Longopt "verbose";
     Help "-v, --verbose                  Verbose mode. Multiple -v flags can be stacked on the command line (e.g., -vvv) to increase verbosity.";
     Required "0";
     Order 51]);
  ("verbose_level", opt [Getopt ":";
     Longopt "verbose-level";
     Type_ "integer";
     Help "--verbose-level                Level of debugging detail in output. Defaults to the number of --verbose flags specified on the command line, or to 1 if verbose=1 in a stonith device configuration (i.e., on stdin).";
     Required "0";
     Order 52]);
  ("debug", opt [Getopt "D:";
     Longopt "debug-file";
     Help "-D, --debug-file=[debugfile]   Debugging to output file";
     Required "0";
     Shortdesc "Write debug information to given file";
     Order 53]);
  ("delay", opt [Getopt ":";
     Longopt "delay";
     Type_ "second";
     Help "--delay=[seconds]              Wait X seconds before fencing is started";
     Required "0";
     Default (VStr "0");
     Order 200]);
  ("agent", opt [Getopt "";
     Help "";
     Order 1]);
  ("web", opt [Getopt "";
     Help "";
     Order 1]);
  ("force_on", opt [Getopt "";
     Help "";
     Order 1]);
  ("action", opt [Getopt "o:";
     Longopt "action";
     Help "-o, --action=[action]          Action: status, reboot (default), off or on";
     Required "1";
     Shortdesc "Fencing action";
     Default (VStr "reboot");
     Order 1]);
  ("fabric_fencing", opt [Getopt "";
     Help "";
     Order 1]);
  ("ipaddr", opt [Getopt "a:";
     Longopt "ip";
     Help "-a, --ip=[ip]                  IP address or hostname of fencing device";
     Required "1";
     Order 1]);
  ("ipport", opt [Getopt "u:";
     Longopt "ipport";
     Type_ "integer";
     Help "-u, --ipport=[port]            TCP/UDP port to use for connection";
     Required "0";
     Shortdesc "TCP/UDP port to use for connection with device";
     Order 1]);
  ("login", opt [Getopt "l:";
     Longopt "username";
     Help "-l, --username=[name]          Login name";
     Required "0";
     Order 1]);
  ("no_login", opt [Getopt "";
     Help "";
     Order 1]);
  ("no_password", opt [Getopt "";
     Help "";
     Order 1]);
  ("no_port", opt [Getopt "";
     Help "";
     Order 1]);
  ("no_status", opt [Getopt "";
     Help "";
     Order 1]);
  ("no_on", opt [Getopt "";
     Help "";
     Order 1])
].

(** [all_opt], lines 149 to 261 of [lib/fencing.py.py]. *)
Definition all_opt_2 : list (string * optdef) := [
  ("no_off", opt [Getopt "";
     Help "";
     Order 1]);
  ("telnet", opt [Getopt "";
     Help "";
     Order 1]);
  ("diag", opt [Getopt "";
     Help "";
     Order 1]);
  ("passwd", opt [Getopt "p:";
     Longopt "password";
     Help "-p, --password=[password]      Login password or passphrase";
     Required "0";
     Order 1]);
  ("passwd_script", opt [Getopt "S:";
     Longopt "password-script";
     Help "-S, --password-script=[script] Script to run to retrieve password";
     Required "0";
     Order 1]);
  ("identity_file", opt [Getopt "k:";
     Longopt "identity-file";
     Help "-k, --identity-file=[filename] Identity file (private key) for SSH";
     Required "0";
     Order 1]);
  ("cmd_prompt", opt [Getopt "c:";
     Longopt "command-prompt";
     Help "-c, --command-prompt=[prompt]  Force Python regex for command prompt";
     Required "0";
     Order 1]);
  ("secure", opt [Getopt "x";
     Longopt "ssh";
     Help "-x, --ssh                      Use SSH connection";
     Required "0";
     Order 1]);
  ("ssh_options", opt [Getopt ":";
     Longopt "ssh-options";
     Help "--ssh-options=[options]        SSH options to use";
     Required "0";
     Order 1]);
  ("ssl", opt [Getopt "z";
     Longopt "ssl";
     Help "-z, --ssl                      Use SSL connection with verifying certificate";
     Required "0";
     Order 1]);
  ("ssl_insecure", opt [Getopt "";
     Longopt "ssl-insecure";
     Help "--ssl-insecure                 Use SSL connection without verifying certificate";
     Required "0";
     Order 1]);
  ("ssl_secure", opt [Getopt "";
     Longopt "ssl-secure";
     Help "--ssl-secure                   Use SSL connection with verifying certificate";
     Required "0";
     Order 1]);
  ("notls", opt [Getopt "t";
     Longopt "notls";
     Help "-t, --notls                    Disable TLS negotiation and force SSL3.0. This should only be used for devices that do not support TLS1.0 and up.";
     Required "0";
     Order 1]);
  ("tls1.0", opt [Getopt "";
     Longopt "tls1.0";
     Help "--tls1.0                       Disable TLS negotiation and force TLS1.0. This should only be used for devices that do not support TLS1.1 and up.";
     Required "0";
     Order 1]);
  ("port", opt [Getopt "n:";
     Longopt "plug";
     Help "-n, --plug=[id]                Physical plug number on device, UUID or identification of machine";
     Required "1";
     Order 1]);
  ("switch", opt [Getopt "s:";
     Longopt "switch";
     Help "-s, --switch=[id]              Physical switch number on device";
     Required "0";
     Order 1]);
  ("exec", opt [Getopt "e:";
     Longopt "exec";
     Help "-e, --exec=[command]           Command to execute";
     Required "0";
     Order 1]);
  ("vmware_type", opt [Getopt "d:";
     Longopt "vmware_type";
     Help "-d, --vmware_type=[type]       Type of VMware to connect";
     Required "0";
     Order 1]);
  ("vmware_datacenter", opt [Getopt "s:";
     Longopt "vmware-datacenter";
     Help "-s, --vmware-datacenter=[dc]   VMWare datacenter filter";
     Required "0";
     Order 2])
].

(** [all_opt], lines 262 to 376 of [lib/fencing.py.py]. *)
Definition all_opt_3 : list (string * optdef) := [
  ("snmp_version", opt [Getopt "d:";
     Longopt "snmp-version";
     Help "-d, --snmp-version=[version]   Specifies SNMP version to use (1|2c|3)";
     Required "0";
     Shortdesc "Specifies SNMP version to use";
     Choices ["1"; "2c"; "3"];
     Order 1]);
  ("community", opt [Getopt "c:";
     Longopt "community";
     Help "-c, --community=[community]    Set the community string";
     Required "0";
     Order 1]);
  ("snmp_auth_prot", opt [Getopt "b:";
     Longopt "snmp-auth-prot";
     Help "-b, --snmp-auth-prot=[prot]    Set authentication protocol (MD5|SHA)";
     Required "0";
     Shortdesc "Set authentication protocol";
     Choices ["MD5"; "SHA"];
     Order 1]);
  ("snmp_sec_level", opt [Getopt "E:";
     Longopt "snmp-sec-level";
     Help "-E, --snmp-sec-level=[level]   Set security level (noAuthNoPriv|authNoPriv|authPriv)";
     Required "0";
     Shortdesc "Set security level";
     Choices ["noAuthNoPriv"; "authNoPriv"; "authPriv"];
     Order 1]);
  ("snmp_priv_prot", opt [Getopt "B:";
     Longopt "snmp-priv-prot";
     Help "-B, --snmp-priv-prot=[prot]    Set privacy protocol (DES|AES)";
     Required "0";
     Shortdesc "Set privacy protocol";
     Choices ["DES"; "AES"];
     Order 1]);
  ("snmp_priv_passwd", opt [Getopt "P:";
     Longopt "snmp-priv-passwd";
     Help "-P, --snmp-priv-passwd=[pass]  Set privacy protocol password";
     Required "0";
     Order 1]);
  ("snmp_priv_passwd_script", opt [Getopt "R:";
     Longopt "snmp-priv-passwd-script";
     Help "-R, --snmp-priv-passwd-script  Script to run to retrieve privacy password";
     Required "0";
     Order 1]);
  ("inet4_only", opt [Getopt "4";
     Longopt "inet4-only";
     Help "-4, --inet4-only               Forces agent to use IPv4 addresses only";
     Required "0";
     Order 1]);
  ("inet6_only", opt [Getopt "6";
     Longopt "inet6-only";
     Help "-6, --inet6-only               Forces agent to use IPv6 addresses only";
     Required "0";
     Order 1]);
  ("plug_separator", opt [Getopt ":";
     Longopt "plug-separator";
     Help "--plug-separator=[char]        Separator for plug parameter when specifying more than 1 plug";
     Default (VStr ",");
     Required "0";
     Order 100]);
  ("separator", opt [Getopt "C:";
     Longopt "separator";
     Help "-C, --separator=[char]         Separator for CSV created by 'list' operation";
     Default (VStr ",");
     Required "0";
     Order 100]);
  ("login_timeout", opt [Getopt ":";
     Longopt "login-timeout";
     Type_ "second";
     Help "--login-timeout=[seconds]      Wait X seconds for cmd prompt after login";
     Default (VStr "5");
     Required "0";
     Order 200]);
  ("shell_timeout", opt [Getopt ":";
     Longopt "shell-timeout";
     Type_ "second";
     Help "--shell-timeout=[seconds]      Wait X seconds for cmd prompt after issuing command";
     Default (VStr "3");
     Required "0";
     Order 200]);
  ("power_timeout", opt [Getopt ":";
     Longopt "power-timeout";
     Type_ "second";
     Help "--power-timeout=[seconds]      Test X seconds for status change after ON/OFF";
     Default (VStr "20");
     Required "0";
     Order 200]);
  ("disable_timeout", opt [Getopt ":";
     Longopt "disable-timeout";
     Help "--disable-timeout=[true/false]     Disable timeout (true/false) (default: true when run from Pacemaker 2.0+)";
     Required "0";
     Order 200]);
  ("power_wait", opt [Getopt ":";
     Longopt "power-wait";
     Type_ "second";
     Help "--power-wait=[seconds]         Wait X seconds after issuing ON/OFF";
     Default (VStr "0");
     Required "0";
     Order 200])
].

(** [all_opt], lines 377 to 488 of [lib/fencing.py.py]. *)
Definition all_opt_4 : list (string * optdef) := [
  ("stonith_status_sleep", opt [Getopt ":";
     Longopt "stonith-status-sleep";
     Type_ "second";
     Help "--stonith-status-sleep=[seconds]   Sleep X seconds between status calls during a STONITH action";
     Default (VStr "1");
     Required "0";
     Order 200]);
  ("missing_as_off", opt [Getopt "";
     Longopt "missing-as-off";
     Help "--missing-as-off               Missing port returns OFF instead of failure";
     Required "0";
     Order 200]);
  ("retry_on", opt [Getopt ":";
     Longopt "retry-on";
     Type_ "integer";
     Help "--retry-on=[attempts]          Count of attempts to retry power on";
     Default (VStr "1");
     Required "0";
     Order 201]);
  ("session_url", opt [Getopt "s:";
     Longopt "session-url";
     Help "-s, --session-url              URL to connect to XenServer on";
     Required "1";
     Order 1]);
  ("sudo", opt [Getopt "";
     Longopt "use-sudo";
     Help "--use-sudo                     Use sudo (without password) when calling 3rd party software";
     Required "0";
     Order 205]);
  ("method", opt [Getopt "m:";
     Longopt "method";
     Help "-m, --method=[method]          Method to fence (onoff|cycle) (Default: onoff)";
     Required "0";
     Shortdesc "Method to fence";
     Default (VStr "onoff");
     Choices ["onoff"; "cycle"];
     Order 1]);
  ("telnet_path", opt [Getopt ":";
     Longopt "telnet-path";
     Help "--telnet-path=[path]           Path to telnet binary";
     Required "0";
     Default (VStr "@TELNET_PATH@");
     Order 300]);
  ("ssh_path", opt [Getopt ":";
     Longopt "ssh-path";
     Help "--ssh-path=[path]              Path to ssh binary";
     Required "0";
     Default (VStr "@SSH_PATH@");
     Order 300]);
  ("gnutlscli_path", opt [Getopt ":";
     Longopt "gnutlscli-path";
     Help "--gnutlscli-path=[path]        Path to gnutls-cli binary";
     Required "0";
     Default (VStr "@GNUTLSCLI_PATH@");
     Order 300]);
  ("sudo_path", opt [Getopt ":";
     Longopt "sudo-path";
     Help "--sudo-path=[path]             Path to sudo binary";
     Required "0";
     Default (VStr "@SUDO_PATH@");
     Order 300]);
  ("snmpwalk_path", opt [Getopt ":";
     Longopt "snmpwalk-path";
     Help "--snmpwalk-path=[path]         Path to snmpwalk binary";
     Required "0";
     Default (VStr "@SNMPWALK_PATH@");
     Order 300]);
  ("snmpset_path", opt [Getopt ":";
     Longopt "snmpset-path";
     Help "--snmpset-path=[path]          Path to snmpset binary";
     Required "0";
     Default (VStr "@SNMPSET_PATH@");
     Order 300]);
  ("snmpget_path", opt [Getopt ":";
     Longopt "snmpget-path";
     Help "--snmpget-path=[path]          Path to snmpget binary";
     Required "0";
     Default (VStr "@SNMPGET_PATH@");
     Order 300]);
  ("snmp", opt [Getopt "";
     Help "";
     Order 1]);
  ("port_as_ip", opt [Getopt "";
     Longopt "port-as-ip";
     Help ("--port-as-ip                   Make " +:+ dq +:+ "port/plug" +:+ dq +:+ " to be an alias to IP address");
     Required "0";
     Order 200]);
  ("on_target", opt [Getopt "";
     Help "";
     Order 1]);
  ("quiet", opt [Getopt "q";
     Longopt "quiet";
     Help "-q, --quiet                    Disable logging to stderr. Does not affect --verbose or --debug-file or logging to syslog.";
     Required "0";
     Order 50])
].

Definition all_opt_entries : list (string * optdef) :=
  all_opt_1 ++ all_opt_2 ++ all_opt_3 ++ all_opt_4.
(** The table as it is when the module is loaded. *)
Definition all_opt : gmap string optdef := list_to_map all_opt_entries.

(** Assignments to fields of existing entries: [all_opt[key][field] = value]. A
    missing key is a KeyError in the source; every assignment names an existing one. *)
Definition opt_update (key : string) (f : field) (m : gmap string optdef) : gmap string optdef :=
  alter (λ d, set_field d f) key m.

(** Options that are added when the key is present; ["default"] is always added. *)
Definition DEPENDENCY_OPT_list : list (string * list string) := [
  ("default", ["help"; "debug"; "verbose"; "verbose_level"; "version"; "action"; "agent";
     "power_timeout"; "shell_timeout"; "login_timeout"; "disable_timeout"; "power_wait";
     "stonith_status_sleep"; "retry_on"; "delay"; "plug_separator"; "quiet"]);
  ("passwd", ["passwd_script"]);
  ("sudo", ["sudo_path"]);
  ("secure", ["identity_file"; "ssh_options"; "ssh_path"; "inet4_only"; "inet6_only"]);
  ("telnet", ["telnet_path"]);
  ("ipaddr", ["ipport"]);
  ("port", ["separator"]);
  ("ssl", ["ssl_secure"; "ssl_insecure"; "gnutlscli_path"]);
  ("snmp", ["snmp_auth_prot"; "snmp_sec_level"; "snmp_priv_prot"; "snmp_priv_passwd";
     "snmp_priv_passwd_script"; "community"; "snmpset_path"; "snmpget_path"; "snmpwalk_path"])
].

Definition DEPENDENCY_OPT : gmap string (list string) := list_to_map DEPENDENCY_OPT_list.

(** ["--" + all_opt[k]["longopt"]] *)
Definition long_name (d : optdef) : option string :=
  (λ l, "--" +:+ l) <$> od_longopt d.
