(* ===== verification/Effects.v ===== *)
(** * Effects: exceptions, the mutable state of a run, and the monad of the model

    A run of an agent mutates the [options] dictionary that every function receives by
    reference, the global [all_opt], what it printed and logged, the clock, and the
    device and host it talks to. A computation is a function from that state to an
    outcome and a new state; exceptions keep the state reached when they were raised. *)

From S2P Require Import Prelude PyStr OptionDefs.

Local Open Scope string_scope.

(** ** Exceptions *)

Inductive exn :=
| SystemExit (code : Z)
| KeyError (key : string)
| ValueError (msg : string)
| TypeError (msg : string)
| IndexError
| AttributeError (msg : string)
| OSError (msg : string)
| PexpectEOF (msg : string)
| PexpectTIMEOUT (msg : string)
| PexpectError (msg : string)     (* pexpect.ExceptionPexpect itself *)
| PycurlError (msg : string)
| SocketTimeout (msg : string)
| CustomError (cls msg : string)  (* a class that the agent itself declares *)
| OtherError (msg : string).      (* any other subclass of Exception *)

#[export] Instance exn_eq_dec : EqDecision exn.
Proof. solve_decision. Defined.

(** Caught by [except Exception]: [SystemExit] is not a subclass of [Exception]. *)
Definition is_Exception (e : exn) : bool :=
  match e with SystemExit _ => false | _ => true end.

(** [str(e)] *)
Definition exn_str (e : exn) : string :=
  match e with
  | SystemExit c => str_of_Z c
  | KeyError k => "'" +:+ k +:+ "'"
  | IndexError => "list index out of range"
  | ValueError m | TypeError m | AttributeError m | OSError m | PexpectEOF m
  | PexpectTIMEOUT m | PexpectError m | PycurlError m | SocketTimeout m | OtherError m
  | CustomError _ m => m
  end.

(** [OutOfFuel] is the end of a bounded unrolling of a loop, not a Python outcome. *)
Inductive outcome (A : Type) :=
| Ret (a : A)
| Raise (e : exn)
| OutOfFuel.
Arguments Ret {_} _.
Arguments Raise {_} _.
Arguments OutOfFuel {_}.

(** ** State *)

Inductive level := DEBUG | INFO | WARNING | ERROR.

(** Observable effects, in order. *)
Inductive event :=
| EvPrint (line : string)
| EvLog (l : level) (msg : string)
| EvSleep (microseconds : Z)
| EvLogging (what : string)            (* configuration of the logging module *)
| EvPutenv (name value : string)   (* environment of child processes *)
| EvReboot.                         (* the reboot system call *)

Record st (D : Type) := St {
  s_opts : gmap string pyval;
  s_allopt : gmap string optdef;
  s_trace : list event;
  s_clock : Z;                       (* time.time(), in microseconds *)
  s_dev : D                          (* device, host and everything outside *)
}.
Arguments St {_} _ _ _ _ _.
Arguments s_opts {_} _.
Arguments s_allopt {_} _.
Arguments s_trace {_} _.
Arguments s_clock {_} _.
Arguments s_dev {_} _.

Definition set_opts {D} (o : gmap string pyval) (s : st D) : st D :=
  St o (s_allopt s) (s_trace s) (s_clock s) (s_dev s).
Definition set_allopt {D} (m : gmap string optdef) (s : st D) : st D :=
  St (s_opts s) m (s_trace s) (s_clock s) (s_dev s).
Definition add_event {D} (e : event) (s : st D) : st D :=
  St (s_opts s) (s_allopt s) (s_trace s ++ [e]) (s_clock s) (s_dev s).
Definition set_clock {D} (t : Z) (s : st D) : st D :=
  St (s_opts s) (s_allopt s) (s_trace s) t (s_dev s).
Definition set_dev {D} (d : D) (s : st D) : st D :=
  St (s_opts s) (s_allopt s) (s_trace s) (s_clock s) d.

(** ** The monad *)

Definition M (D A : Type) : Type := st D → outcome A * st D.

#[export] Instance M_ret D : MRet (M D) := λ A a s, (Ret a, s).

#[export] Instance M_bind D : MBind (M D) := λ A B f m s,
  match m s with
  | (Ret a, s') => f a s'
  | (Raise e, s') => (Raise e, s')
  | (OutOfFuel, s') => (OutOfFuel, s')
  end.

Definition raise {D A} (e : exn) : M D A := λ s, (Raise e, s).
Definition out_of_fuel {D A} : M D A := λ s, (OutOfFuel, s).

(** [try: m  except ...: handler]; the handler is [None] on exceptions it lets pass. *)
Definition try_except {D A} (m : M D A) (handler : exn → option (M D A)) : M D A := λ s,
  match m s with
  | (Raise e, s') =>
      match handler e with
      | Some h => h s'
      | None => (Raise e, s')
      end
  | r => r
  end.

Definition mwhen {D} (b : bool) (m : M D unit) : M D unit := if b then m else mret tt.

Fixpoint mfor {D A} (l : list A) (f : A → M D unit) : M D unit :=
  match l with
  | [] => mret tt
  | x :: l' => f x ;; mfor l' f
  end.

(** A loop that threads an accumulator. *)
Fixpoint mfold {D A B} (f : B → A → M D B) (b : B) (l : list A) : M D B :=
  match l with
  | [] => mret b
  | x :: l' => b' ← f b x; mfold f b' l'
  end.

(** ** Primitive operations *)

Definition get_st {D} : M D (st D) := λ s, (Ret s, s).
Definition modify {D} (f : st D → st D) : M D unit := λ s, (Ret tt, f s).

Definition py_print {D} (line : string) : M D unit := modify (add_event (EvPrint line)).
Definition log {D} (l : level) (msg : string) : M D unit := modify (add_event (EvLog l msg)).

Definition logging_setup {D} (what : string) : M D unit := modify (add_event (EvLogging what)).
Definition putenv {D} (name value : string) : M D unit := modify (add_event (EvPutenv name value)).

(** [time.sleep] of a number of microseconds; negative is a ValueError. *)
Definition sleep_us {D} (t : Z) : M D unit :=
  if (t <? 0)%Z then raise (ValueError "sleep length must be non-negative")
  else modify (λ s, set_clock (s_clock s + t)%Z (add_event (EvSleep t) s)).

Definition USEC : Z := 1000000.
Definition sleep {D} (seconds : Z) : M D unit := sleep_us (seconds * USEC)%Z.
Definition time {D} : M D Z := λ s, (Ret (s_clock s), s).

Definition sys_exit {D A} (code : Z) : M D A := raise (SystemExit code).

(** The [options] dictionary. *)
Definition opt_find {D} (k : string) : M D (option pyval) := λ s, (Ret (s_opts s !! k), s).

Definition opt_get {D} (k : string) : M D pyval := λ s,
  match s_opts s !! k with
  | Some v => (Ret v, s)
  | None => (Raise (KeyError k), s)
  end.

Definition opt_has {D} (k : string) : M D bool := λ s,
  (Ret (bool_decide (is_Some (s_opts s !! k))), s).

Definition opt_set {D} (k : string) (v : pyval) : M D unit :=
  modify (λ s, set_opts (<[k := v]> (s_opts s)) s).

Definition opt_del {D} (k : string) : M D unit := λ s,
  match s_opts s !! k with
  | Some _ => (Ret tt, set_opts (delete k (s_opts s)) s)
  | None => (Raise (KeyError k), s)
  end.

(** Values used as strings, lists and numbers. *)
Definition as_str {D} (v : pyval) : M D string :=
  match v with
  | VStr s => mret s
  | _ => raise (AttributeError "not a str")
  end.

Definition as_list {D} (v : pyval) : M D (list string) :=
  match v with
  | VList l => mret l
  | _ => raise (AttributeError "not a list")
  end.

(** [int(v)] *)
Definition py_int (v : pyval) : Z + exn :=
  match v with
  | VInt n => inl n
  | VStr s =>
      match int_of_str s with
      | Some n => inl n
      | None => inr (ValueError ("invalid literal for int() with base 10: '" +:+ s +:+ "'"))
      end
  | _ => inr (TypeError "int() argument must be a string or a number")
  end.

Definition as_int {D} (v : pyval) : M D Z :=
  match py_int v with
  | inl n => mret n
  | inr e => raise e
  end.

Definition opt_str {D} (k : string) : M D string := v ← opt_get k; as_str v.
Definition opt_int {D} (k : string) : M D Z := v ← opt_get k; as_int v.
Definition opt_list {D} (k : string) : M D (list string) := v ← opt_get k; as_list v.

(** [options["device_opt"].count(k)] and [k in options["device_opt"]] *)
Definition device_opt_count {D} (k : string) : M D nat :=
  l ← opt_list "device_opt"; mret (py_count k l).
Definition device_opt_in {D} (k : string) : M D bool :=
  l ← opt_list "device_opt"; mret (py_in k l).

(** ** Reasoning about computations *)

Section Laws.
Context {D : Type}.
Implicit Types s : st D.

(** From the evaluated outcome of a run to the run. *)
Lemma run_outcome {A} (m : M D A) s o : (m s).1 = o → m s = (o, (m s).2).
Proof. intros <-. apply surjective_pairing. Qed.

Lemma bind_Ret {A B} (m : M D A) (f : A → M D B) s a s1 :
  m s = (Ret a, s1) → (m ≫= f) s = f a s1.
Proof. intros H. unfold mbind, M_bind. by rewrite H. Qed.

Lemma bind_Raise {A B} (m : M D A) (f : A → M D B) s e s1 :
  m s = (Raise e, s1) → (m ≫= f) s = (Raise e, s1).
Proof. intros H. unfold mbind, M_bind. by rewrite H. Qed.

Lemma bind_Fuel {A B} (m : M D A) (f : A → M D B) s s1 :
  m s = (OutOfFuel, s1) → (m ≫= f) s = (OutOfFuel, s1).
Proof. intros H. unfold mbind, M_bind. by rewrite H. Qed.

Lemma bind_Ret_inv {A B} (m : M D A) (f : A → M D B) s b s' :
  (m ≫= f) s = (Ret b, s') → ∃ a s1, m s = (Ret a, s1) ∧ f a s1 = (Ret b, s').
Proof. unfold mbind, M_bind. destruct (m s) as [[a| |] s1]; naive_solver. Qed.

Lemma opt_get_eq k v s : s_opts s !! k = Some v → opt_get k s = (Ret v, s).
Proof. intros H. unfold opt_get. by rewrite H. Qed.

Lemma opt_str_eq k x s : s_opts s !! k = Some (VStr x) → opt_str k s = (Ret x, s).
Proof. intros H. unfold opt_str. by rewrite (bind_Ret _ _ _ _ _ (opt_get_eq _ _ _ H)). Qed.

Lemma opt_list_eq k x s : s_opts s !! k = Some (VList x) → opt_list k s = (Ret x, s).
Proof. intros H. unfold opt_list. by rewrite (bind_Ret _ _ _ _ _ (opt_get_eq _ _ _ H)). Qed.

Lemma opt_int_eq k v n s :
  s_opts s !! k = Some v → py_int v = inl n → opt_int k s = (Ret n, s).
Proof.
  intros H Hn. unfold opt_int. rewrite (bind_Ret _ _ _ _ _ (opt_get_eq _ _ _ H)).
  unfold as_int. by rewrite Hn.
Qed.

Lemma device_opt_in_eq k l s :
  s_opts s !! "device_opt" = Some (VList l) → device_opt_in k s = (Ret (py_in k l), s).
Proof.
  intros H. unfold device_opt_in. by rewrite (bind_Ret _ _ _ _ _ (opt_list_eq _ _ _ H)).
Qed.

Lemma device_opt_count_eq k l s :
  s_opts s !! "device_opt" = Some (VList l) → device_opt_count k s = (Ret (py_count k l), s).
Proof.
  intros H. unfold device_opt_count. by rewrite (bind_Ret _ _ _ _ _ (opt_list_eq _ _ _ H)).
Qed.

Lemma sleep_eq t s :
  (0 ≤ t)%Z →
  sleep t s = (Ret tt, set_clock (s_clock s + t * USEC)%Z (add_event (EvSleep (t * USEC)) s)).
Proof.
  intros Ht. unfold sleep, sleep_us. destruct (t * USEC <? 0)%Z eqn:E; [unfold USEC in E; lia|done].
Qed.

Lemma bind_no_fuel {A B} (m : M D A) (f : A → M D B) s :
  (m s).1 ≠ OutOfFuel → (∀ a s1, m s = (Ret a, s1) → (f a s1).1 ≠ OutOfFuel) →
  ((m ≫= f) s).1 ≠ OutOfFuel.
Proof.
  intros Hm Hf. unfold mbind, M_bind. destruct (m s) as [[a|e|] s1]; [by apply Hf|done|done].
Qed.

Lemma mret_no_fuel {A} (a : A) s : (mret (M := M D) a s).1 ≠ OutOfFuel.
Proof. by unfold mret, M_ret. Qed.

Lemma opt_get_no_fuel k s : (opt_get k s).1 ≠ OutOfFuel.
Proof. unfold opt_get. by destruct (s_opts s !! k). Qed.

Lemma opt_int_no_fuel k s : (opt_int k s).1 ≠ OutOfFuel.
Proof.
  apply bind_no_fuel; [apply opt_get_no_fuel|]. intros v s1 _. unfold as_int.
  by destruct (py_int v).
Qed.

Lemma opt_str_no_fuel k s : (opt_str k s).1 ≠ OutOfFuel.
Proof.
  apply bind_no_fuel; [apply opt_get_no_fuel|]. intros v s1 _. by destruct v.
Qed.

Lemma sleep_no_fuel t s : (sleep t s).1 ≠ OutOfFuel.
Proof. unfold sleep, sleep_us. by case_match. Qed.

Lemma mfold_no_fuel {A B} (f : B → A → M D B) b l s :
  (∀ b x s1, (f b x s1).1 ≠ OutOfFuel) → (mfold f b l s).1 ≠ OutOfFuel.
Proof.
  intros Hf. revert b s. induction l as [|x l IH]; intros b s; [done|].
  apply bind_no_fuel; auto.
Qed.

Lemma bind_ext {A B} (m : M D A) (f g : A → M D B) s :
  (∀ a s1, m s = (Ret a, s1) → f a s1 = g a s1) → (m ≫= f) s = (m ≫= g) s.
Proof. intros H. unfold mbind, M_bind. destruct (m s) as [[a|e|] s1]; auto. Qed.

Lemma bind_ext_l {A B} (m m' : M D A) (f : A → M D B) s : m s = m' s → (m ≫= f) s = (m' ≫= f) s.
Proof. intros H. unfold mbind, M_bind. by rewrite H. Qed.

Lemma bind_assoc {A B C} (m : M D A) (f : A → M D B) (g : B → M D C) s :
  ((m ≫= f) ≫= g) s = (m ≫= (λ a, f a ≫= g)) s.
Proof. unfold mbind, M_bind. by destruct (m s) as [[]]. Qed.

Lemma mret_eq {A} (a : A) s : mret (M := M D) a s = (Ret a, s).
Proof. done. Qed.

Lemma mwhen_Ret_inv b (m : M D unit) s u s' :
  mwhen b m s = (Ret u, s') → b = true ∧ m s = (Ret u, s') ∨ b = false ∧ s' = s.
Proof. destruct b; cbn; [by left|]. intros H. injection H. auto. Qed.

Lemma try_Ret_inv {A} (m : M D A) h s a s' :
  try_except m h s = (Ret a, s') →
  m s = (Ret a, s') ∨
  ∃ e s1 k, m s = (Raise e, s1) ∧ h e = Some k ∧ k s1 = (Ret a, s').
Proof.
  unfold try_except. destruct (m s) as [[x|e|] s1] eqn:E; intros H; [by left| |done].
  right. destruct (h e) as [k|] eqn:Hk; [|done]. eauto 10.
Qed.

Lemma mfor_cons_Ret_inv {A} (f : A → M D unit) x l s u s' :
  mfor (x :: l) f s = (Ret u, s') →
  ∃ u1 s1, f x s = (Ret u1, s1) ∧ mfor l f s1 = (Ret u, s').
Proof. apply bind_Ret_inv. Qed.

Lemma mfold_cons_Ret_inv {A B} (f : B → A → M D B) b x l s r s' :
  mfold f b (x :: l) s = (Ret r, s') →
  ∃ b1 s1, f b x s = (Ret b1, s1) ∧ mfold f b1 l s1 = (Ret r, s').
Proof. apply bind_Ret_inv. Qed.

Lemma opt_get_Ret_inv k s v s' :
  opt_get k s = (Ret v, s') → s_opts s !! k = Some v ∧ s' = s.
Proof. unfold opt_get. destruct (s_opts s !! k); naive_solver. Qed.

Lemma as_str_Ret_inv v s x s' : as_str v s = (Ret x, s') → v = VStr x ∧ s' = s.
Proof. unfold as_str; destruct v; cbv [mret M_ret raise]; naive_solver. Qed.

Lemma as_list_Ret_inv v s x s' : as_list v s = (Ret x, s') → v = VList x ∧ s' = s.
Proof. unfold as_list; destruct v; cbv [mret M_ret raise]; naive_solver. Qed.

Lemma as_int_Ret_inv v s x s' : as_int v s = (Ret x, s') → py_int v = inl x ∧ s' = s.
Proof. unfold as_int. destruct (py_int v); cbv [mret M_ret raise]; naive_solver. Qed.

Lemma opt_str_Ret_inv k s x s' :
  opt_str k s = (Ret x, s') → s_opts s !! k = Some (VStr x) ∧ s' = s.
Proof.
  intros (v & s1 & [Hv ->]%opt_get_Ret_inv & [-> ->]%as_str_Ret_inv)%bind_Ret_inv. done.
Qed.

Lemma opt_list_Ret_inv k s x s' :
  opt_list k s = (Ret x, s') → s_opts s !! k = Some (VList x) ∧ s' = s.
Proof.
  intros (v & s1 & [Hv ->]%opt_get_Ret_inv & [-> ->]%as_list_Ret_inv)%bind_Ret_inv. done.
Qed.

Lemma opt_int_Ret_inv k s x s' :
  opt_int k s = (Ret x, s') → (∃ v, s_opts s !! k = Some v ∧ py_int v = inl x) ∧ s' = s.
Proof.
  intros (v & s1 & [Hv ->]%opt_get_Ret_inv & [? ->]%as_int_Ret_inv)%bind_Ret_inv. eauto.
Qed.

Lemma device_opt_count_Ret_inv k s n s' :
  device_opt_count k s = (Ret n, s') →
  (∃ l, s_opts s !! "device_opt" = Some (VList l) ∧ n = py_count k l) ∧ s' = s.
Proof.
  intros (l & s1 & [Hl ->]%opt_list_Ret_inv & H)%bind_Ret_inv.
  rewrite mret_eq in H. naive_solver.
Qed.

Lemma device_opt_in_Ret_inv k s b s' :
  device_opt_in k s = (Ret b, s') →
  (∃ l, s_opts s !! "device_opt" = Some (VList l) ∧ b = py_in k l) ∧ s' = s.
Proof.
  intros (l & s1 & [Hl ->]%opt_list_Ret_inv & H)%bind_Ret_inv.
  rewrite mret_eq in H. naive_solver.
Qed.

Lemma sleep_us_Ret_inv t s x s' :
  sleep_us t s = (Ret x, s') →
  (0 ≤ t)%Z ∧ s' = set_clock (s_clock s + t)%Z (add_event (EvSleep t) s).
Proof.
  unfold sleep_us. destruct (t <? 0)%Z eqn:Ht; [done|]. cbn. intros [= <- <-].
  split; [lia|done].
Qed.
End Laws.

(** [pair_inv H] uses an equation of results, replacing the later name by the earlier. *)
Ltac use_eq H :=
  lazymatch type of H with
  | ?l = ?r => first [is_var r; subst r | is_var l; subst l | idtac]
  end.

Ltac pair_inv H :=
  first
    [ discriminate H
    | injection H; clear H;
      repeat lazymatch goal with
      | |- _ = _ → _ => let E := fresh "E" in intros E; use_eq E
      end ].

(** [minv H] takes apart a successful run [H : m s = (Ret a, s')]: every bind gives the
    intermediate state, every primitive its effect. *)
Ltac minv H :=
  lazymatch type of H with
  | mbind _ _ _ = (Ret _, _) =>
      let a := fresh "a" in let s1 := fresh "s" in let H1 := fresh "Hm" in
      apply bind_Ret_inv in H as (a & s1 & H1 & H); minv H1; minv H
  | mret _ _ = _ => rewrite mret_eq in H; pair_inv H
  | opt_find _ _ = _ => cbv [opt_find] in H; pair_inv H
  | opt_has _ _ = _ => cbv [opt_has] in H; pair_inv H
  | opt_set _ _ _ = _ => cbv [opt_set modify] in H; pair_inv H
  | modify _ _ = _ => cbv [modify] in H; pair_inv H
  | py_print _ _ = _ => cbv [py_print modify] in H; pair_inv H
  | log _ _ _ = _ => cbv [log modify] in H; pair_inv H
  | raise _ _ = _ => discriminate H
  | sys_exit _ _ = _ => discriminate H
  | out_of_fuel _ = _ => discriminate H
  | opt_get _ _ = _ => apply opt_get_Ret_inv in H as [H ?]; minv_st
  | opt_str _ _ = _ => apply opt_str_Ret_inv in H as [H ?]; minv_st
  | opt_int _ _ = _ => apply opt_int_Ret_inv in H as [H ?]; minv_st
  | opt_list _ _ = _ => apply opt_list_Ret_inv in H as [H ?]; minv_st
  | as_str _ _ = _ => apply as_str_Ret_inv in H as [H ?]; use_eq H; minv_st
  | as_int _ _ = _ => apply as_int_Ret_inv in H as [H ?]; minv_st
  | as_list _ _ = _ => apply as_list_Ret_inv in H as [H ?]; use_eq H; minv_st
  | device_opt_count _ _ = _ => apply device_opt_count_Ret_inv in H as [H ?]; minv_st
  | device_opt_in _ _ = _ => apply device_opt_in_Ret_inv in H as [H ?]; minv_st
  | _ => idtac
  end
with minv_st :=
  match goal with
  | H : @eq (st _) ?s' ?s |- _ => first [is_var s'; subst s' | is_var s; subst s]
  end.

(** ** What a computation leaves alone

    [keeps R m]: whatever the outcome of [m], the states before and after are related
    by [R]. For a preorder [R] the property is compositional. *)

Definition keeps {D A} (R : relation (st D)) (m : M D A) : Prop :=
  ∀ s, R s (m s).2.

Section Keeps.
Context {D : Type} (R : relation (st D)) `{!PreOrder R}.

Lemma keeps_mret {A} (a : A) : keeps R (mret (M := M D) a).
Proof. intros s. by cbn. Qed.

Lemma keeps_raise {A} e : keeps R (raise (A := A) e).
Proof. intros s. by cbn. Qed.

Lemma keeps_fuel {A} : keeps R (out_of_fuel (A := A)).
Proof. intros s. by cbn. Qed.

Lemma keeps_bind {A B} (m : M D A) (f : A → M D B) :
  keeps R m → (∀ a, keeps R (f a)) → keeps R (m ≫= f).
Proof.
  intros Hm Hf s. specialize (Hm s). unfold mbind, M_bind.
  destruct (m s) as [[a|e|] s1]; cbn in *; [|done|done].
  etrans; [done|apply Hf].
Qed.

Lemma keeps_when b m : keeps R m → keeps R (mwhen b m).
Proof. destruct b; [done|]. intros _. apply keeps_mret. Qed.

Lemma keeps_mfor {A} (l : list A) f : (∀ x, keeps R (f x)) → keeps R (mfor l f).
Proof.
  intros Hf. induction l as [|x l IH]; cbn; [apply keeps_mret|].
  apply keeps_bind; auto.
Qed.

Lemma keeps_mfold {A B} (f : B → A → M D B) b l :
  (∀ b x, keeps R (f b x)) → keeps R (mfold f b l).
Proof.
  intros Hf. revert b. induction l as [|x l IH]; intros b; cbn; [apply keeps_mret|].
  apply keeps_bind; auto.
Qed.

Lemma keeps_try {A} (m : M D A) h :
  keeps R m → (∀ e k, h e = Some k → keeps R k) → keeps R (try_except m h).
Proof.
  intros Hm Hh s. specialize (Hm s). unfold try_except.
  destruct (m s) as [[a|e|] s1]; cbn in *; [done| |done].
  destruct (h e) as [k|] eqn:Hk; [|done]. etrans; [done|by eapply Hh].
Qed.

Lemma keeps_read {A} (m : M D A) : (∀ s, (m s).2 = s) → keeps R m.
Proof. intros Hm s. by rewrite Hm. Qed.
End Keeps.

(** The option [k] is left as it is. *)
Definition same_key {D} (k : string) (s s' : st D) : Prop := s_opts s' !! k = s_opts s !! k.

#[export] Instance same_key_preorder {D} k : PreOrder (@same_key D k).
Proof. unfold same_key. split; [done|]. intros ???. congruence. Qed.

Section SameKey.
Context {D : Type} (k : string).

Lemma opt_set_same_key k' v : k ≠ k' → keeps (@same_key D k) (opt_set k' v).
Proof. intros Hk s. by apply lookup_insert_ne. Qed.

Lemma opt_del_same_key k' : k ≠ k' → keeps (@same_key D k) (opt_del k').
Proof.
  intros Hk s. unfold opt_del. destruct (s_opts s !! k'); [|done]. by apply lookup_delete_ne.
Qed.

(** Messages, and everything else that leaves the options alone. *)
Lemma modify_same_key f : (∀ s, s_opts (f s) = s_opts s) → keeps (@same_key D k) (modify f).
Proof. intros Hf s. unfold same_key. cbn. by rewrite Hf. Qed.

Lemma log_same_key l m : keeps (@same_key D k) (log l m).
Proof. by apply modify_same_key. Qed.
Lemma print_same_key m : keeps (@same_key D k) (py_print m).
Proof. by apply modify_same_key. Qed.
Lemma logging_setup_same_key w : keeps (@same_key D k) (logging_setup w).
Proof. by apply modify_same_key. Qed.
Lemma putenv_same_key x y : keeps (@same_key D k) (putenv x y).
Proof. by apply modify_same_key. Qed.
Lemma sleep_us_same_key t : keeps (@same_key D k) (sleep_us t).
Proof. intros s. unfold sleep_us. by case_match. Qed.
Lemma sleep_same_key t : keeps (@same_key D k) (sleep t).
Proof. apply sleep_us_same_key. Qed.
Lemma sys_exit_same_key {A} c : keeps (@same_key D k) (sys_exit (A := A) c).
Proof. by intros s. Qed.
End SameKey.

#[export] Hint Resolve log_same_key print_same_key logging_setup_same_key putenv_same_key
  sleep_us_same_key sleep_same_key sys_exit_same_key : fence.

(** No time goes by. *)
Definition same_clock {D} (s s' : st D) : Prop := s_clock s' = s_clock s.

#[export] Instance same_clock_preorder {D} : PreOrder (@same_clock D).
Proof. unfold same_clock. split; [done|]. intros ???. congruence. Qed.

Lemma log_same_clock {D} l m : keeps (@same_clock D) (log l m).
Proof. by intros s. Qed.

#[export] Hint Resolve log_same_clock : fence.

(** Computations that only look at the state. *)
Section Reads.
Context {D : Type}.

Lemma opt_find_reads k (s : st D) : (opt_find k s).2 = s.
Proof. done. Qed.
Lemma opt_has_reads k (s : st D) : (opt_has k s).2 = s.
Proof. done. Qed.
Lemma time_reads (s : st D) : (time s).2 = s.
Proof. done. Qed.
Lemma opt_get_reads k (s : st D) : (opt_get k s).2 = s.
Proof. unfold opt_get. by destruct (s_opts s !! k). Qed.
Lemma as_str_reads v (s : st D) : (as_str v s).2 = s.
Proof. by destruct v. Qed.
Lemma as_list_reads v (s : st D) : (as_list v s).2 = s.
Proof. by destruct v. Qed.
Lemma as_int_reads v (s : st D) : (as_int v s).2 = s.
Proof. unfold as_int. by destruct (py_int v). Qed.

Lemma bind_reads {A B} (m : M D A) (f : A → M D B) :
  (∀ s, (m s).2 = s) → (∀ a s, (f a s).2 = s) → ∀ s, ((m ≫= f) s).2 = s.
Proof.
  intros Hm Hf s. specialize (Hm s). unfold mbind, M_bind.
  destruct (m s) as [[a|e|] s1]; cbn in *; subst; auto.
Qed.

Lemma opt_str_reads k (s : st D) : (opt_str k s).2 = s.
Proof. apply bind_reads; auto using opt_get_reads, as_str_reads. Qed.
Lemma opt_int_reads k (s : st D) : (opt_int k s).2 = s.
Proof. apply bind_reads; auto using opt_get_reads, as_int_reads. Qed.
Lemma opt_list_reads k (s : st D) : (opt_list k s).2 = s.
Proof. apply bind_reads; auto using opt_get_reads, as_list_reads. Qed.
Lemma device_opt_count_reads k (s : st D) : (device_opt_count k s).2 = s.
Proof. apply bind_reads; auto using opt_list_reads. Qed.
Lemma device_opt_in_reads k (s : st D) : (device_opt_in k s).2 = s.
Proof. apply bind_reads; auto using opt_list_reads. Qed.
End Reads.

#[export] Hint Resolve opt_find_reads opt_has_reads time_reads opt_get_reads as_str_reads
  as_list_reads as_int_reads opt_str_reads opt_int_reads opt_list_reads
  device_opt_count_reads device_opt_in_reads : fence.

(** One syntax-directed step towards [keeps R m]. *)
Ltac keeps_step :=
  lazymatch goal with
  | |- ∀ _, _ => intros ?
  | |- keeps _ (mbind _ _) => apply keeps_bind; [exact _| |]
  | |- keeps _ (mret _) => apply keeps_mret; exact _
  | |- keeps _ (raise _) => apply keeps_raise; exact _
  | |- keeps _ out_of_fuel => apply keeps_fuel; exact _
  | |- keeps _ (mwhen _ _) => apply keeps_when; [exact _|]
  | |- keeps _ (mfor _ _) => apply keeps_mfor; [exact _|]
  | |- keeps _ (mfold _ _ _) => apply keeps_mfold; [exact _|]
  | |- keeps _ (match ?x with _ => _ end) => destruct x
  | |- keeps _ _ =>
      first [ assumption
            | apply keeps_read; [exact _|solve [auto with fence nocore]]
            | solve [auto with fence nocore] ]
  end.

(** Closes [keeps R m] down to the steps that change the state and that no hint covers. *)
Ltac keeps_tac := repeat keeps_step.
