(* ===== verification/Fail.v ===== *)
(** * Exit codes and the two ways the library gives up: [fail] and [fail_usage] *)

From S2P Require Import Prelude PyStr OptionDefs Effects.

Local Open Scope string_scope.
Local Open Scope Z_scope.

Definition EC_OK : Z := 0.
Definition EC_GENERIC_ERROR : Z := 1.
Definition EC_BAD_ARGS : Z := 2.
Definition EC_LOGIN_DENIED : Z := 3.
Definition EC_CONNECTION_LOST : Z := 4.
Definition EC_TIMED_OUT : Z := 5.
Definition EC_WAITING_ON : Z := 6.
Definition EC_WAITING_OFF : Z := 7.
Definition EC_STATUS : Z := 8.
Definition EC_STATUS_HMC : Z := 9.
Definition EC_PASSWORD_MISSING : Z := 10.
Definition EC_INVALID_PRIVILEGES : Z := 11.
Definition EC_FETCH_VM_UUID : Z := 12.

(** [fail_usage(message, stop)] *)
Definition fail_usage {D} (message : string) (stop : bool) : M D unit :=
  mwhen (bool_decide (message ≠ "")) (log ERROR (message +:+ nl)) ;;
  mwhen stop (log ERROR ("Please use '-h' for usage" +:+ nl) ;; sys_exit EC_GENERIC_ERROR).

(** The message table of [fail]. *)
Definition fail_message (error_code : Z) : option string :=
  if error_code =? EC_GENERIC_ERROR then Some "Failed: Generic error"
  else if error_code =? EC_LOGIN_DENIED then Some "Unable to connect/login to fencing device"
  else if error_code =? EC_CONNECTION_LOST then Some "Connection lost"
  else if error_code =? EC_TIMED_OUT then Some "Connection timed out"
  else if error_code =? EC_WAITING_ON then Some "Failed: Timed out waiting to power ON"
  else if error_code =? EC_WAITING_OFF then Some "Failed: Timed out waiting to power OFF"
  else if error_code =? EC_STATUS then
    Some "Failed: Unable to obtain correct plug status or plug is not available"
  else if error_code =? EC_STATUS_HMC then
    Some ("Failed: Either unable to obtain correct plug status, " +:+
          "partition is not available or incorrect HMC version used")
  else if error_code =? EC_PASSWORD_MISSING then Some "Failed: You have to set login password"
  else if error_code =? EC_INVALID_PRIVILEGES then
    Some "Failed: The user does not have the correct privileges to do the requested action."
  else if error_code =? EC_FETCH_VM_UUID then
    Some "Failed: Can not find VM UUID by its VM name given in the <plug> parameter."
  else None.

(** [fail(error_code, stop)]: a code without a message is a KeyError. *)
Definition fail {D} (error_code : Z) (stop : bool) : M D unit :=
  match fail_message error_code with
  | None => raise (KeyError (str_of_Z error_code))
  | Some message =>
      log ERROR ((message +:+ nl) +:+ nl) ;;
      mwhen stop (sys_exit EC_GENERIC_ERROR)
  end.

Section Facts.
Context {D : Type}.
Implicit Types s : st D.

Lemma fail_not_Ret code s x s' : fail code true s = (Ret x, s') → False.
Proof.
  unfold fail. destruct (fail_message code); [|done].
  intros H. by minv H.
Qed.

Lemma fail_usage_stop_not_Ret msg s x s' : fail_usage msg true s = (Ret x, s') → False.
Proof.
  unfold fail_usage. intros H. by minv H.
Qed.

(** Whatever the error code, a stopping [fail] leaves by exit status 1. *)
Lemma fail_exits code s :
  is_Some (fail_message code) →
  (fail code true s).1 = Raise (SystemExit EC_GENERIC_ERROR).
Proof. intros [m Hm]. unfold fail. by rewrite Hm. Qed.

Lemma fail_usage_exits msg s :
  (fail_usage msg true s).1 = Raise (SystemExit EC_GENERIC_ERROR).
Proof. unfold fail_usage, mwhen. by case_bool_decide. Qed.

Lemma fail_raises code s : ∃ e s', fail code true s = (Raise e, s').
Proof. unfold fail. destruct (fail_message code); cbn; eauto. Qed.

Lemma fail_usage_same_key k msg stop : keeps (@same_key D k) (fail_usage msg stop).
Proof. unfold fail_usage. keeps_tac. Qed.

Lemma fail_same_key k code stop : keeps (@same_key D k) (fail code stop).
Proof. unfold fail. keeps_tac. Qed.
End Facts.

#[export] Hint Resolve fail_usage_same_key fail_same_key : fence.

#[export] Hint Resolve fail_not_Ret fail_usage_stop_not_Ret : fence.
