(* ===== verification/Text.v ===== *)
(** * Text: joining words, wrapping help texts, XML entities

    [_join2], [_join_wrap] and [_encode_html_entities] of [lib/fencing.py.py], and the
    part of Python's [textwrap] that [_join_wrap] configures. *)

From S2P Require Import Prelude PyStr.

Local Open Scope string_scope.

(** [_join2(words, normal_separator, last_separator)] *)
Definition join2 (normal_separator last_separator : string) (words : list string) : string :=
  match last words with
  | Some w =>
      if Nat.leb (length words) 1 then join "" words
      else join last_separator [join normal_separator (take (length words - 1) words); w]
  | None => ""
  end.

(** ** [textwrap.TextWrapper]

    [break_on_hyphens] and [break_long_words] are off, the other switches have their
    default values. *)

(** [text.expandtabs(8)], [col] being the column reached. *)
Fixpoint expandtabs (s : string) (col : nat) : string :=
  match s with
  | "" => ""
  | String c s' =>
      if decide (c = TAB) then
        let n := 8 - Nat.modulo col 8 in
        repeat_str " " n +:+ expandtabs s' (col + n)
      else if bool_decide (c = NL) || bool_decide (c = CR) then String c (expandtabs s' 0)
      else String c (expandtabs s' (S col))
  end.

(** The white space of the wrapper: tab to carriage return, and space. *)
Definition is_wrap_space (c : ascii) : bool :=
  let n := code c in ((9 <=? n) && (n <=? 13) || (n =? 32))%N.

Definition munge_whitespace (text : string) : string :=
  smap (λ c, if is_wrap_space c then " "%char else c) (expandtabs text 0).

(** Maximal runs of spaces and of other characters. *)
Fixpoint split_chunks (s : string) : list string :=
  match s with
  | "" => []
  | String c s' =>
      match split_chunks s' with
      | String d w :: ws =>
          if Bool.eqb (is_wrap_space c) (is_wrap_space d)
          then String c (String d w) :: ws
          else str1 c :: String d w :: ws
      | ws => str1 c :: ws
      end
  end.

Definition is_blank (s : string) : bool := bool_decide (strip s = "").

(** The inner loop of [_wrap_chunks]: chunks that still fit on the line. *)
Fixpoint take_fitting (width cur_len : nat) (chunks : list string)
    : list string * list string :=
  match chunks with
  | [] => ([], [])
  | c :: cs =>
      if Nat.leb (cur_len + String.length c) width then
        let '(line, rest) := take_fitting width (cur_len + String.length c) cs in
        (c :: line, rest)
      else ([], chunks)
  end.

(** A chunk that is wider than the line gets a line of its own. *)
Definition handle_long_word (width : nat) (line rest : list string)
    : list string * list string :=
  match line, rest with
  | [], c :: cs => if Nat.ltb width (String.length c) then ([c], cs) else (line, rest)
  | _, _ => (line, rest)
  end.

Definition drop_trailing_blank (line : list string) : list string :=
  match last line with
  | Some c => if is_blank c then take (length line - 1) line else line
  | None => line
  end.

(** [_wrap_chunks]; every two iterations consume a chunk, so [2 * length chunks] bounds
    their number. [first] says that no line has been produced yet. *)
Fixpoint wrap_chunks (fuel width : nat) (initial_indent subsequent_indent : string)
    (first : bool) (chunks : list string) : list string :=
  match fuel with
  | O => []
  | S fuel' =>
      match chunks with
      | [] => []
      | c :: cs =>
          let indent := if first then initial_indent else subsequent_indent in
          let w := width - String.length indent in
          let chunks1 := if is_blank c && negb first then cs else chunks in
          let '(line, rest) := take_fitting w 0 chunks1 in
          let '(line, rest) := handle_long_word w line rest in
          match drop_trailing_blank line with
          | [] => wrap_chunks fuel' width initial_indent subsequent_indent first rest
          | line' =>
              (indent +:+ join "" line') ::
              wrap_chunks fuel' width initial_indent subsequent_indent false rest
          end
      end
  end.

Definition wrap (width : nat) (initial_indent subsequent_indent text : string) : list string :=
  let chunks := split_chunks (munge_whitespace text) in
  wrap_chunks (2 * length chunks) width initial_indent subsequent_indent true chunks.

(** [_join_wrap(words, normal_separator, last_separator, first_indent)] *)
Definition join_wrap (normal_separator last_separator : string) (first_indent : nat)
    (words : list string) : string :=
  let x := join2 normal_separator last_separator words in
  let lines := wrap 85 (repeat_str " " first_indent) (repeat_str " " 40) x in
  rstrip_char NL (lstrip (join "" (map (λ l, l +:+ nl) lines))).

(** ** [_encode_html_entities] *)

Definition encode_html_entities (text : string) : string :=
  replace "'" "&apos;"
    (replace ">" "&gt;"
      (replace "<" "&lt;"
        (replace dq "&quot;"
          (replace "&" "&amp;" text)))).
