(* ===== verification/PyGetopt.v ===== *)
(** * Python's [getopt.gnu_getopt] *)

From S2P Require Import Prelude PyStr.

Local Open Scope string_scope.

(** A parsed option: its name with its dashes, and its argument. The error is the
    message of [GetoptError]. *)
Definition getopt_result (A : Type) : Type := A + string.

(** [long_has_args(opt, longopts)]: does the option take an argument, and its full name. *)
Definition long_has_args (o : string) (longopts : list string) : getopt_result (bool * string) :=
  let possibilities := filter (λ l, Is_true (startswith o l)) longopts in
  match possibilities with
  | [] => inr ("option --" +:+ o +:+ " not recognized")
  | unique_match :: more =>
      if bool_decide (o ∈ possibilities) then inl (false, o)
      else if bool_decide (o +:+ "=" ∈ possibilities) then inl (true, o)
      else if bool_decide (more = []) then
        if endswith "=" unique_match then inl (true, drop_last unique_match)
        else inl (false, unique_match)
      else inr ("option --" +:+ o +:+ " not a unique prefix")
  end.

(** [do_longs]: the new option and the arguments that remain. *)
Definition do_longs (o : string) (longopts : list string) (args : list string)
    : getopt_result ((string * string) * list string) :=
  let '(o, optarg) :=
    match split1 "="%char o with
    | Some (a, b) => (a, Some b)
    | None => (o, None)
    end in
  match long_has_args o longopts with
  | inr e => inr e
  | inl (true, name) =>
      match optarg, args with
      | Some v, _ => inl (("--" +:+ name, v), args)
      | None, v :: args' => inl (("--" +:+ name, v), args')
      | None, [] => inr ("option --" +:+ name +:+ " requires argument")
      end
  | inl (false, name) =>
      match optarg with
      | Some _ => inr ("option --" +:+ name +:+ " must not have an argument")
      | None => inl (("--" +:+ name, ""), args)
      end
  end.

(** [short_has_arg(opt, shortopts)] *)
Fixpoint short_has_arg (o : ascii) (shortopts : string) : getopt_result bool :=
  match shortopts with
  | "" => inr ("option -" +:+ str1 o +:+ " not recognized")
  | String c rest =>
      if bool_decide (o = c) && negb (bool_decide (c = ":"%char))
      then inl (startswith ":" rest)
      else short_has_arg o rest
  end.

(** [do_shorts]: a cluster of short options; the last may take the rest of the cluster,
    or the next argument, as its value. *)
Fixpoint do_shorts (optstring shortopts : string) (args : list string)
    : getopt_result (list (string * string) * list string) :=
  match optstring with
  | "" => inl ([], args)
  | String o rest =>
      match short_has_arg o shortopts with
      | inr e => inr e
      | inl true =>
          if bool_decide (rest = "") then
            match args with
            | [] => inr ("option -" +:+ str1 o +:+ " requires argument")
            | v :: args' => inl ([("-" +:+ str1 o, v)], args')
            end
          else inl ([("-" +:+ str1 o, rest)], args)
      | inl false =>
          match do_shorts rest shortopts args with
          | inr e => inr e
          | inl (opts, args') => inl (("-" +:+ str1 o, "") :: opts, args')
          end
      end
  end.

(** [gnu_getopt(args, shortopts, longopts)]; [posixly_correct] is the environment's
    POSIXLY_CORRECT. Every step consumes an argument: [length args] steps are enough. *)
Fixpoint gnu_getopt_go (fuel : nat) (all_options_first : bool) (args : list string)
    (shortopts : string) (longopts : list string)
    : getopt_result (list (string * string) * list string) :=
  match fuel with
  | O => inl ([], args)
  | S fuel' =>
      match args with
      | [] => inl ([], [])
      | a :: args' =>
          if bool_decide (a = "--") then inl ([], args')
          else if startswith "--" a then
            match do_longs (String.substring 2 (String.length a) a) longopts args' with
            | inr e => inr e
            | inl (o, args'') =>
                match gnu_getopt_go fuel' all_options_first args'' shortopts longopts with
                | inr e => inr e
                | inl (opts, prog) => inl (o :: opts, prog)
                end
            end
          else if startswith "-" a && negb (bool_decide (a = "-")) then
            match do_shorts (String.substring 1 (String.length a) a) shortopts args' with
            | inr e => inr e
            | inl (os, args'') =>
                match gnu_getopt_go fuel' all_options_first args'' shortopts longopts with
                | inr e => inr e
                | inl (opts, prog) => inl (os ++ opts, prog)%list
                end
            end
          else if all_options_first then inl ([], args)
          else
            match gnu_getopt_go fuel' all_options_first args' shortopts longopts with
            | inr e => inr e
            | inl (opts, prog) => inl (opts, a :: prog)
            end
      end
  end.

Definition gnu_getopt (posixly_correct : bool) (args : list string) (shortopts : string)
    (longopts : list string) : getopt_result (list (string * string) * list string) :=
  let '(shortopts, plus) :=
    match shortopts with
    | String "+"%char s => (s, true)
    | s => (s, false)
    end in
  gnu_getopt_go (length args) (plus || posixly_correct) args shortopts longopts.
