(* ===== verification/Host.v ===== *)
(** * The host the agents run on

    Files, commands and devices are outside the library. The class lists what the code
    asks of the operating system; every component that needs one of these operations is
    written against the class, and theorems name the laws they rely on. *)

From S2P Require Import Prelude PyStr OptionDefs Effects.

Local Open Scope string_scope.

(** How a child process ends: after a while, or never; [p_killed_out] and
    [p_killed_err] are what it has written if it is killed before. *)
Record proc := Proc {
  p_duration : option Z;      (* microseconds; None: it does not end *)
  p_status : Z;               (* its return code *)
  p_out : string;
  p_err : string;
  p_killed_out : string;
  p_killed_err : string
}.

(** Sending signal 0 to a process. *)
Inductive signal_result := SignalSent | NoSuchProcess | SignalError (msg : string).

Class Host (D : Type) := {
  h_exists : D → string → bool;                  (* os.path.exists *)
  h_isfile : D → string → bool;                  (* os.path.isfile *)
  h_isdir : D → string → bool;                   (* os.path.isdir *)
  h_isblk : D → string → bool;                   (* S_ISBLK(os.stat(p).st_mode) *)
  h_lstat_isblk : D → string → bool;             (* S_ISBLK(os.lstat(p).st_mode) *)
  h_islink : D → string → bool;                  (* S_ISLNK(os.lstat(p).st_mode) *)
  h_readlink : D → string → string;              (* os.readlink *)
  h_kill0 : D → Z → signal_result;               (* os.kill(pid, 0) *)
  h_executable : D → string → bool;              (* os.access(p, X_OK) *)
  h_realpath : D → string → string;              (* os.path.realpath *)
  h_listdir : D → string → option (list string); (* os.listdir; None: OSError *)
  h_readfile : D → string → option string;       (* open(p, "r").read(); None: IOError *)
  h_writefile : string → string → D → option D;  (* open(p, "w").write(x); None: IOError *)
  h_appendfile : string → string → D → option D; (* open(p, "a").write(x); None: IOError *)
  h_makedirs : string → D → option D;            (* os.makedirs; None: OSError *)
  h_popen : string → D → string * D;             (* os.popen(cmd).read() *)
  h_spawn : option (list (string * string)) → list string → D → option proc * D
    (* subprocess.Popen(argv, env=env); None: OSError *)
}.

Section Host.
Context `{Host D}.

Definition host_test (f : D → string → bool) (path : string) : M D bool := λ s,
  (Ret (f (s_dev s) path), s).

(** [os.makedirs(path)] *)
Definition makedirs (path : string) : M D unit := λ s,
  match h_makedirs path (s_dev s) with
  | Some d => (Ret tt, set_dev d s)
  | None => (Raise (OSError path), s)
  end.

Definition os_popen_read (cmd : string) : M D string := λ s,
  let '(x, d) := h_popen cmd (s_dev s) in (Ret x, set_dev d s).
End Host.

(** ** A host in memory

    Files by path, a fixed answer for every command; on it the properties of the
    components are exercised. *)
Module Mem.
Record host := MkHost {
  files : gmap string string;
  popen_answer : string;
  spawn_answer : option proc
}.

Definition empty : host := MkHost ∅ "" None.

#[export] Instance mem_host : Host host := {|
  h_exists d p := bool_decide (is_Some (files d !! p));
  h_isfile d p := bool_decide (is_Some (files d !! p));
  h_isdir d p := false;
  h_isblk d p := false;
  h_lstat_isblk d p := false;
  h_islink d p := false;
  h_readlink d p := p;
  h_kill0 d pid := NoSuchProcess;
  h_executable d p := false;
  h_realpath d p := p;
  h_listdir d p := None;
  h_readfile d p := files d !! p;
  h_writefile p x d := Some (MkHost (<[p := x]> (files d)) (popen_answer d) (spawn_answer d));
  h_appendfile p x d :=
    Some (MkHost (<[p := default "" (files d !! p) +:+ x]> (files d))
            (popen_answer d) (spawn_answer d));
  h_makedirs p d := Some d;
  h_popen c d := (popen_answer d, d);
  h_spawn e a d := (spawn_answer d, d)
|}.

(** The state in which a run starts. *)
Definition start (d : host) : st host := St ∅ all_opt [] 0 d.
End Mem.
