(* ===== verification/Input.v ===== *)
(** * Reading the options of a run

    [process_input] and the two parsers behind it: options come from the command line
    when there are arguments, from standard input otherwise. *)

From S2P Require Import Prelude PyStr PyRe PyGetopt OptionDefs Effects Fail.

Local Open Scope string_scope.

(** How the agent was started. *)
Record invocation := Invocation {
  inv_prog : string;             (* sys.argv[0] *)
  inv_args : list string;        (* sys.argv[1:] *)
  inv_stdin : string;
  inv_env : gmap string string   (* os.environ *)
}.

(** ** [_add_dependency_options] *)

Definition dependencies_of (options : list string) (o : string) : list string :=
  match DEPENDENCY_OPT !! o with
  | Some deps => filter (λ y, py_count y options = 0) deps
  | None => []
  end.

Definition added_by_dependency (options : list string) : list string :=
  (options ++ ["default"])%list ≫= dependencies_of options.

(** The device is addressed by its IP alone. *)
Definition needs_port_as_ip (opts : list string) : bool :=
  negb (py_in "port" opts) && negb (py_in "nodename" opts) && py_in "ipaddr" opts.

Definition port_as_ip_help : string :=
  "-n, --plug=[ip]                IP address or hostname of fencing device " +:+
  "(together with --port-as-ip)".

(** The options to add; the help of "port" changes when [port_as_ip] is among them. *)
Definition add_dependency_options {D} (options : list string) : M D (list string) :=
  let added_opt := added_by_dependency options in
  if needs_port_as_ip (options ++ added_opt) then
    modify (λ s, set_allopt (opt_update "port" (Help port_as_ip_help) (s_allopt s)) s) ;;
    mret (added_opt ++ ["port_as_ip"])%list
  else mret added_opt.

(** ** The definition of an option: [all_opt[o]] and its fields *)

Definition allopt_get {D} (o : string) : M D optdef := λ s,
  match s_allopt s !! o with
  | Some d => (Ret d, s)
  | None => (Raise (KeyError o), s)
  end.

Definition longopt_of {D} (o : string) : M D string :=
  d ← allopt_get o;
  match od_longopt d with
  | Some l => mret l
  | None => raise (KeyError "longopt")
  end.

(** ** Standard input *)

(** [dict([(all_opt[o].get("longopt"), o) for o in avail_opt])]; the entry of options
    without a long name, under [None], is never looked up. *)
Definition mapping_longopt_names {D} (avail_opt : list string) : M D (gmap string string) :=
  mfold (λ m o,
    d ← allopt_get o;
    mret (match od_longopt d with Some l => <[l := o]> m | None => m end)) ∅ avail_opt.

(** [sys.stdin.readlines()]; the text layer reads CR and CR LF as LF. The empty piece
    after a final LF is an extra line, which is skipped like every empty line. *)
Definition readlines (text : string) : list string :=
  split_go nl (replace (str1 CR) nl (replace (str1 CR +:+ nl) nl text)) 0.

(** The pattern for a quoted value, and its replacement by what it quotes. *)
Definition quoted_re : re := Seqs [Bos; Lit dq; Group 1 (Many Any); Lit dq; Eos].
Definition unquote (value : string) : string := sub quoted_re (m_group 1) value.

(** [(line + "=").split("=", 1)] and [value[:-1]] *)
Definition split_assignment (line : string) : string * string :=
  match split1 "="%char (line +:+ "=") with
  | Some (name, value) => (name, drop_last value)
  | None => (line, "")
  end.

(** A long name becomes the key of its option. *)
Definition resolve_name (mapping : gmap string string) (name : string) : string :=
  match mapping !! replace "-" "_" name with
  | Some o => o
  | None =>
      match mapping !! replace "_" "-" name with
      | Some o => o
      | None => name
      end
  end.

Definition truthy_words : list string := ["1"; "yes"; "on"; "true"].
Definition falsy_words : list string := ["0"; "no"; "off"; "false"].

(** One line of standard input. *)
Definition parse_stdin_line {D} (avail_opt : list string) (mapping : gmap string string)
    (opt : gmap string pyval) (line0 : string) : M D (gmap string pyval) :=
  let line := strip line0 in
  if startswith "#" line || bool_decide (line = "") then mret opt
  else
    let '(name0, value0) := split_assignment line in
    let value := unquote value0 in
    let name := resolve_name mapping name0 in
    if bool_decide (py_count name avail_opt = 0) && bool_decide (name = "nodename") then mret opt
    else if bool_decide (py_count name avail_opt = 0) then
      log WARNING ("Parse error: Ignoring unknown option '" +:+ line +:+ "'" +:+ nl) ;;
      mret opt
    else
      d ← allopt_get name;
      if endswith ":" (od_getopt d) then
        l ← longopt_of name;
        mret (<["--" +:+ rstrip_char ":" l := VStr value]> opt)
      else if bool_decide (lower value ∈ truthy_words) then
        l ← longopt_of name; mret (<["--" +:+ l := VStr "1"]> opt)
      else if bool_decide (lower value ∈ falsy_words) then
        l ← longopt_of name; mret (<["--" +:+ l := VStr "0"]> opt)
      else
        log WARNING ("Parse error: Ignoring option '" +:+ name +:+
                     "' because it does not have value" +:+ nl) ;;
        mret opt.

Definition dict_setdefault (k : string) (v : pyval) (m : gmap string pyval) : gmap string pyval :=
  match m !! k with Some _ => m | None => <[k := v]> m end.

Definition parse_input_stdin {D} (inv : invocation) (avail_opt : list string)
    : M D (gmap string pyval) :=
  mapping ← mapping_longopt_names avail_opt;
  opt ← mfold (parse_stdin_line avail_opt mapping) ∅ (readlines (inv_stdin inv));
  mret (dict_setdefault "--verbose-level" (default (VInt 0) (opt !! "--verbose")) opt).

(** ** Command line *)

(** [_verify_unique_getopt] *)
Definition verify_unique_getopt {D} (avail_opt : list string) : M D unit :=
  mfold (λ used o,
    d ← allopt_get o;
    let g := rstrip_char ":" (od_getopt d) in
    if negb (bool_decide (g = "")) && py_in g used
    then fail_usage ("Short getopt for " +:+ o +:+ " (-" +:+ g +:+ ") is not unique") true ;;
         mret used
    else mret (g :: used)) [] avail_opt ;;
  mret tt.

(** [_prepare_getopt_args] *)
Definition prepare_getopt_args {D} (options : list string) : M D (string * list string) :=
  s ← get_st;
  mfold (λ acc k,
    let '(getopt_string, longopt_list) := acc in
    match s_allopt s !! k with
    | None =>
        fail_usage ("Parse error: unknown option '" +:+ k +:+ "'") true ;; mret acc
    | Some d =>
        let getopt_string :=
          if decide (od_getopt d = ":") then getopt_string else getopt_string +:+ od_getopt d in
        let longopt_list :=
          match od_longopt d with
          | None => longopt_list
          | Some l =>
              longopt_list ++ [if endswith ":" (od_getopt d) then l +:+ "=" else l]
          end%list in
        mret (getopt_string, longopt_list)
    end) ("", []) options.

(** [filtered_opts]: the definitions of the available options, in order, each once. *)
Definition filtered_opts {D} (avail_opt : list string) : M D (list (string * optdef)) :=
  mfold (λ acc o,
    d ← allopt_get o;
    mret (if bool_decide (o ∈ acc.*1) then acc else acc ++ [(o, d)])%list) [] avail_opt.

(** The first available option with this short or long name. *)
Definition names_option (arg_name : string) (kd : string * optdef) : bool :=
  bool_decide ("--" +:+ default "" (od_longopt kd.2) = arg_name) ||
  bool_decide ("-" +:+ rstrip_char ":" (od_getopt kd.2) = arg_name).

Definition all_key_of (filtered : list (string * optdef)) (arg_name : string)
    : option (string * optdef) :=
  head (filter (λ kd, Is_true (names_option arg_name kd)) filtered).

(** [dict(entered_opt)[arg_name]]: the last argument given under that name. *)
Definition entered_value (entered : list (string * string)) (arg_name : string) : option string :=
  (list_to_map (reverse entered) : gmap string string) !! arg_name.

Definition collect_long_opts {D} (filtered : list (string * optdef))
    (entered : list (string * string)) : M D (gmap string pyval * Z) :=
  mfold (λ acc arg_name,
    let '(long_opts, verbose_count) := acc in
    match all_key_of filtered arg_name, entered_value entered arg_name with
    | Some (all_key, d), Some v =>
        match od_longopt d with
        | None => raise (KeyError "longopt")
        | Some l =>
            mret (<["--" +:+ l := VStr v]> long_opts,
                  if decide (all_key = "verbose") then verbose_count + 1 else verbose_count)%Z
        end
    | None, _ => raise IndexError
    | _, None => raise (KeyError arg_name)
    end) (∅, 0%Z) (entered.*1).

(** [str(l)] of a list of strings. *)

Definition str_of_list (l : list string) : string := "[" +:+ join ", " (map py_repr l) +:+ "]".

(** [str(v)] of an option value. *)
Definition py_str (v : pyval) : string :=
  match v with
  | VStr x => x
  | VInt n => str_of_Z n
  | VNone => "None"
  | VList l => str_of_list l
  end.

Definition parse_input_cmdline {D} (inv : invocation) (avail_opt : list string)
    : M D (gmap string pyval) :=
  verify_unique_getopt avail_opt ;;
  '(getopt_string, longopt_list) ← prepare_getopt_args avail_opt;
  entered_opt ←
    match gnu_getopt (bool_decide (default "" (inv_env inv !! "POSIXLY_CORRECT") ≠ ""))
            (inv_args inv) getopt_string longopt_list with
    | inl (entered, left_arg) =>
        mwhen (negb (bool_decide (left_arg = [])))
          (log WARNING ("Unused arguments on command line: " +:+ str_of_list left_arg)) ;;
        mret entered
    | inr msg => fail_usage ("Parse error: " +:+ msg) true ;; mret []
    end;
  filtered ← filtered_opts avail_opt;
  '(long_opts, verbose_count) ← collect_long_opts filtered entered_opt;
  let long_opts := dict_setdefault "--verbose-level" (VInt verbose_count) long_opts in
  mwhen (py_in "port_as_ip" avail_opt &&
         negb (bool_decide (is_Some (long_opts !! "--port-as-ip"))) &&
         bool_decide (is_Some (long_opts !! "--plug")))
    (fail_usage "Parser error: option -n/--plug is not recognized" true) ;;
  mret long_opts.

(** With [--port-as-ip] the plug is the address. *)
Definition ip_from_plug (opt : gmap string pyval) : gmap string pyval :=
  match opt !! "--port-as-ip", opt !! "--plug" with
  | Some _, Some plug => <["--ip" := plug]> opt
  | _, _ => opt
  end.

(** ** [process_input]

    Returns the extended [avail_opt] (the source extends the caller's list in place) and
    the options that were read. *)

Definition process_input {D} (inv : invocation) (avail_opt : list string)
    : M D (list string * gmap string pyval) :=
  added ← add_dependency_options avail_opt;
  let avail_opt := (avail_opt ++ added)%list in
  putenv "LANG" "C" ;;
  putenv "LC_ALL" "C" ;;
  let avail_opt := if py_in "port_as_ip" avail_opt then (avail_opt ++ ["port"])%list else avail_opt in
  opt ← (if bool_decide (inv_args inv = []) then parse_input_stdin inv avail_opt
         else parse_input_cmdline inv avail_opt);
  mret (avail_opt, ip_from_plug opt).
