(* ===== verification/Process.v ===== *)
(** * Running commands

    [run_command], [run_commands], [run_delay] and [is_executable] of [lib/fencing.py.py],
    and Python's [shlex.split] that cuts a command line into words. Times are in
    microseconds; timeouts are whole numbers of seconds, as the options that hold them. *)

From S2P Require Import Prelude PyStr OptionDefs Effects Fail Host Input.

Local Open Scope string_scope.

(** ** [shlex.split] *)

Inductive shlex_state :=
| ShBlank                         (* between words *)
| ShWord                          (* in a word *)
| ShQuote (q : ascii)             (* inside quotes *)
| ShEscape (back : shlex_state).  (* after a backslash *)

Definition SQ : ascii := "'"%char.
Definition is_quote (c : ascii) : bool := bool_decide (c = SQ) || bool_decide (c = DQ).
Definition is_shlex_space (c : ascii) : bool :=
  bool_decide (c ∈ [" "%char; TAB; CR; NL]).

(** A backslash inside double quotes only escapes a quote or a backslash. *)
Definition escaped_text (back : shlex_state) (c : ascii) : string :=
  match back with
  | ShQuote q => if bool_decide (c = BS) || bool_decide (c = q) then str1 c else str1 BS +:+ str1 c
  | _ => str1 c
  end.

(** [tok] is the word so far, [quoted] says that it had quotes; the error is the
    ValueError of an open quote or a final backslash. *)
Fixpoint shlex_go (s : string) (st : shlex_state) (tok : string) (is_quoted : bool)
    : list string + string :=
  let emit := if is_quoted || negb (bool_decide (tok = "")) then [tok] else [] in
  match s with
  | "" =>
      match st with
      | ShBlank => inl []
      | ShWord => inl emit
      | ShQuote _ => inr "No closing quotation"
      | ShEscape _ => inr "No escaped character"
      end
  | String c s' =>
      match st with
      | ShBlank =>
          if is_shlex_space c then shlex_go s' ShBlank "" false
          else if bool_decide (c = BS) then shlex_go s' (ShEscape ShWord) "" false
          else if is_quote c then shlex_go s' (ShQuote c) "" false
          else shlex_go s' ShWord (str1 c) false
      | ShWord =>
          if is_shlex_space c then
            match shlex_go s' ShBlank "" false with
            | inl ws => inl (emit ++ ws)%list
            | inr e => inr e
            end
          else if is_quote c then shlex_go s' (ShQuote c) tok is_quoted
          else if bool_decide (c = BS) then shlex_go s' (ShEscape ShWord) tok is_quoted
          else shlex_go s' ShWord (tok +:+ str1 c) is_quoted
      | ShQuote q =>
          if bool_decide (c = q) then shlex_go s' ShWord tok true
          else if bool_decide (c = BS) && bool_decide (q = DQ)
          then shlex_go s' (ShEscape (ShQuote q)) tok true
          else shlex_go s' (ShQuote q) (tok +:+ str1 c) true
      | ShEscape back => shlex_go s' back (tok +:+ escaped_text back c) is_quoted
      end
  end.

Definition shlex_split (s : string) : list string + string := shlex_go s ShBlank "" false.

Section Process.
Context `{Host D}.

(** [%s] of an option *)
Definition opt_show (k : string) : M D string := v ← opt_get k; mret (py_str v).

(** ** [is_executable] *)

Definition is_executable (path : string) : M D bool :=
  exists_ ← host_test h_exists path;
  if (exists_ : bool) then
    regular ← host_test h_isfile path;
    executable ← host_test h_executable path;
    mret (regular && executable)
  else mret false.

(** ** Starting a command *)

(** [subprocess.Popen(shlex.split(command), env=env)]; [None] is its OSError. *)
Definition popen (env : option (list (string * string))) (command : string)
    : M D (option proc) :=
  match shlex_split command with
  | inr msg => raise (ValueError msg)
  | inl [] => raise IndexError
  | inl argv => λ s, let '(p, d) := h_spawn env argv (s_dev s) in (Ret p, set_dev d s)
  end.

Definition unable_to_run (command : string) : string := "Unable to run " +:+ command +:+ nl.

(** The failing branch ends the run, so the process is always there afterwards. *)
Definition start_process (env : option (list (string * string)))
    (command : string) : M D proc :=
  p ← popen env command;
  match p with
  | Some p => mret p
  | None => fail_usage (unable_to_run command) true ;; raise (OtherError "UnboundLocalError")
  end.

(** [log_command or command] *)
Definition shown_command (log_command : option string) (command : string) : string :=
  match log_command with
  | Some c => if decide (c = "") then command else c
  | None => command
  end.

(** [float(timeout)], in microseconds. *)
Definition as_microseconds (v : pyval) : M D Z := n ← as_int v; mret (n * USEC)%Z.

(** An explicit timeout, or that of the options. *)
Definition effective_timeout (timeout : option pyval) : M D (option pyval) :=
  match timeout with
  | Some v => mret (Some v)
  | None => opt_find "--power-timeout"
  end.

(** [stop=(int(options.get("retry", 0)) < 1)] *)
Definition stop_unless_retry : M D bool :=
  v ← opt_find "retry";
  n ← as_int (default (VInt 0) v);
  mret (n <? 1)%Z.

(** ** [run_command] *)

(** What [process.wait()] and [communicate()] give once the process has ended or was
    killed; 9 is SIGKILL. *)
Definition result_of (p : proc) (killed : bool) : Z * string * string :=
  if killed then (-9, p_killed_out p, p_killed_err p)%Z else (p_status p, p_out p, p_err p).

(** [thread.join(timeout)]: does the process go on after it? A wait without limit for a
    process that does not end is not over. *)
Definition join_process (p : proc) (timeout : option Z) : M D bool :=
  let limit := match timeout with Some t => if (t =? 0)%Z then None else Some t | None => None end in
  match p_duration p, limit with
  | Some t, None => modify (λ s, set_clock (s_clock s + t)%Z s) ;; mret false
  | Some t, Some l =>
      if (t <=? l)%Z then modify (λ s, set_clock (s_clock s + t)%Z s) ;; mret false
      else modify (λ s, set_clock (s_clock s + Z.max 0 l)%Z s) ;; mret true
  | None, Some l => modify (λ s, set_clock (s_clock s + Z.max 0 l)%Z s) ;; mret true
  | None, None => out_of_fuel
  end.

Definition log_result (r : Z * string * string) : M D unit :=
  log DEBUG (str_of_Z r.1.1 +:+ " " +:+ r.1.2 +:+ " " +:+ r.2 +:+ nl).

Definition run_command (command : string) (timeout : option pyval)
    (env : option (list (string * string))) (log_command : option string)
    : M D (Z * string * string) :=
  limit ← effective_timeout timeout;
  limit ← match limit with
          | None | Some VNone => mret None
          | Some v => t ← as_microseconds v; mret (Some t)
          end;
  log INFO ("Executing: " +:+ shown_command log_command command +:+ nl) ;;
  p ← start_process env command;
  alive ← join_process p limit;
  mwhen alive (stop ← stop_unless_retry; fail EC_TIMED_OUT stop) ;;
  let r := result_of p alive in
  log_result r ;;
  mret r.

(** ** [run_delay] *)

(** [time_start] is the time when the agent was started. *)
Definition run_delay (time_start reserve result : Z) : M D unit :=
  action ← opt_get "--action";
  if bool_decide (action ∈ [VStr "off"; VStr "reboot"]) then
    delay ← opt_get "--delay";
    if negb (bool_decide (delay = VStr "0")) && (result =? 0)%Z && (0 <=? reserve)%Z then
      seconds ← as_int delay;
      now ← time;
      let time_left := ((1 + seconds - reserve) * USEC - (now - time_start))%Z in
      mwhen (0 <? time_left)%Z
        (log INFO ("Delay " +:+ str_of_Z (time_left / USEC) +:+
                   " second(s) before logging in to the fence device") ;;
         sleep_us time_left)
    else mret tt
  else mret tt.

(** ** What running a command leaves alone *)

Lemma popen_same_key k env command : keeps (@same_key D k) (popen env command).
Proof.
  unfold popen. destruct (shlex_split command) as [[|a l]|e]; [by intros s..| |by intros s].
  intros s. by destruct (h_spawn _ _ _).
Qed.
#[local] Hint Resolve popen_same_key : fence.

Lemma start_process_same_key k env command : keeps (@same_key D k) (start_process env command).
Proof. unfold start_process. keeps_tac. Qed.
#[local] Hint Resolve start_process_same_key : fence.

Lemma join_process_same_key k p t : keeps (@same_key D k) (join_process p t).
Proof.
  unfold join_process. destruct (p_duration p), (match t with None => None | Some _ => _ end);
    try case_match; keeps_tac; by apply modify_same_key.
Qed.
#[local] Hint Resolve join_process_same_key : fence.

Lemma run_command_same_key k command timeout env log_command :
  keeps (@same_key D k) (run_command command timeout env log_command).
Proof.
  unfold run_command, effective_timeout, as_microseconds, stop_unless_retry, log_result. keeps_tac.
Qed.
End Process.

#[export] Hint Resolve run_command_same_key : fence.
