(* ===== verification/Commands.v ===== *)
(** * Running several commands at once: [run_commands] of [lib/fencing.py.py]

    All commands are started, then polled until enough of them have ended. The function
    returns as soon as all have ended; after five seconds also when more than half have
    ended well, or when the timeout has passed. *)

From S2P Require Import Prelude PyStr OptionDefs Effects Fail Host Input Process.

Local Open Scope string_scope.

(** A started process: its number in the list of commands, how it behaves, and when it
    ends ([None]: never). *)
Record child := Child {
  c_id : nat;
  c_proc : proc;
  c_end : option Z
}.

Section Commands.
Context `{Host D}.
(** The order in which Python iterates over a set of processes. *)
Variable set_iter : list child → list child.

(** [timeout]: given, or of the options; the number 0 stands for none. *)
Definition commands_timeout (timeout : option pyval) : M D (option Z) :=
  limit ← effective_timeout timeout;
  match limit with
  | None | Some VNone => mret None
  | Some v =>
      if bool_decide (v = VInt 0) then mret None
      else t ← as_microseconds v; mret (Some t)
  end.

Definition start_child (env : option (list (string * string))) (log_command : option string)
    (started : list child) (command : string) : M D (list child) :=
  log INFO ("Executing: " +:+ shown_command log_command command +:+ nl) ;;
  p ← start_process env command;
  now ← time;
  mret (started ++ [Child (length started) p (Z.add now <$> p_duration p)])%list.

(** [proc.wait(timeout)]: has it ended by then? Asking takes at least a microsecond. *)
Definition wait_child (c : child) (max_timeout : Z) : M D bool :=
  now ← time;
  match c_end c with
  | Some e =>
      if (e <=? now + max_timeout)%Z
      then modify (λ s, set_clock (Z.max now e) s) ;; mret true
      else modify (λ s, set_clock (now + Z.max 1 max_timeout)%Z s) ;; mret false
  | None => modify (λ s, set_clock (now + Z.max 1 max_timeout)%Z s) ;; mret false
  end.

(** One pass over the living: [max_timeout] drops to 0 once the time is over. *)
Fixpoint poll_children (timeout : option Z) (time_start max_timeout : Z) (alive : list child)
    : M D (list child * list child) :=
  match alive with
  | [] => mret ([], [])
  | c :: cs =>
      now ← time;
      let over := match timeout with Some t => (t <=? now - time_start)%Z | None => false end in
      let max_timeout := if over then 0%Z else max_timeout in
      gone ← wait_child c max_timeout;
      '(alive, ended) ← poll_children timeout time_start max_timeout cs;
      mret (if (gone : bool) then (alive, c :: ended) else (c :: alive, ended))
  end.

Definition good_count (gone : list child) : nat :=
  length (filter (λ c, p_status (c_proc c) = 0%Z) gone).

(** More have ended than not, and more than half of all ended well. *)
Definition quorate (total : nat) (alive gone : list child) : bool :=
  Nat.ltb (length alive) (length gone) && Nat.ltb total (2 * good_count gone).

Fixpoint wait_loop (fuel total : nat) (timeout : option Z) (time_start : Z)
    (alive gone : list child) : M D (list child * list child) :=
  match fuel with
  | O => out_of_fuel
  | S fuel' =>
      '(alive, ended) ← poll_children timeout time_start
                          (2000000 / Z.of_nat (length alive))%Z (set_iter alive);
      let gone := (gone ++ ended)%list in
      match alive with
      | [] => mret ([], gone)
      | _ =>
          now ← time;
          if (now - time_start <? 5000000)%Z then
            wait_loop fuel' total timeout time_start alive gone
          else if quorate total alive gone then mret (alive, gone)
          else
            match timeout with
            | Some t =>
                now ← time;
                if (t <=? now - time_start)%Z then
                  log DEBUG ("Stop waiting after " +:+ str_of_Z (t / USEC) +:+ ".0" +:+ nl) ;;
                  mret (alive, gone)
                else wait_loop fuel' total timeout time_start alive gone
            | None => wait_loop fuel' total timeout time_start alive gone
            end
      end
  end.

(** The best status, and all output, of the processes that ended. *)
Definition collect_result (gone : list child) : option Z * string * string :=
  foldl (λ r c,
    let '(status, o, e) := r in
    (match status with
     | Some 0%Z => status
     | _ => Some (p_status (c_proc c))
     end, o +:+ p_out (c_proc c), e +:+ p_err (c_proc c))) (None, "", "") gone.

Definition run_commands (fuel : nat) (commands : list string) (timeout : option pyval)
    (env : option (list (string * string))) (log_command : option string)
    : M D (Z * string * string) :=
  timeout ← commands_timeout timeout;
  time_start ← time;
  procs ← mfold (start_child env log_command) [] commands;
  '(alive, gone) ← (match procs with
                    | [] => mret ([], [])
                    | _ => wait_loop fuel (length procs) timeout time_start procs []
                    end : M D (list child * list child));
  log DEBUG ("Done: " +:+ str_of_Z (Z.of_nat (length gone)) +:+ " gone, " +:+
             str_of_Z (Z.of_nat (length alive)) +:+ " alive" +:+ nl) ;;
  let '(status, o, e) := collect_result (set_iter gone) in
  r ← match status with
      | Some st => mret (st, o, e)
      | None =>
          stop ← stop_unless_retry;
          fail EC_TIMED_OUT stop ;;
          mret (EC_TIMED_OUT, "", "timed out")
      end;
  log_result r ;;
  mret r.
End Commands.
