(* ===== verification/CheckInput.v ===== *)
(** * Checking the options of a run: [check_input]

    Metadata of options that depends on the agent, default values, validation, and the
    compatibility rules applied to the options before the agent uses them. *)

From S2P Require Import Prelude PyStr Text OptionDefs Effects Fail Host Input.

Local Open Scope string_scope.

(** ** [_get_available_actions] *)

(** [l.remove(x)]; the source removes only what is there. *)
Definition removed (x : string) (l : list string) : list string := default l (py_remove x l).

Definition get_available_actions (device_opt : list string) : list string * string :=
  let has k := bool_decide (py_count k device_opt ≠ 0) in
  let acts := ["on"; "off"; "reboot"; "status"; "list"; "list-status";
               "monitor"; "metadata"; "manpage"; "validate-all"] in
  let default_value := if has "fabric_fencing" then "off" else "reboot" in
  let acts := if has "fabric_fencing" then removed "reboot" acts else acts in
  let acts := if has "no_status" then removed "status" acts else acts in
  let acts := if has "no_on" then removed "on" acts else acts in
  let acts := if has "no_off" then removed "off" acts else acts in
  let acts := if has "separator" then acts else removed "list-status" (removed "list" acts) in
  let acts := if has "diag" then (acts ++ ["diag"])%list else acts in
  (acts, default_value).

Section CheckInput.
Context `{Host D}.

Definition allopt_set (key : string) (f : field) : M D unit :=
  modify (λ s, set_allopt (opt_update key f (s_allopt s)) s).

Definition allopt_default (key : string) : M D (option pyval) :=
  d ← allopt_get key; mret (od_default d).

Definition has_opt (device_opt : list string) (k : string) : bool :=
  bool_decide (py_count k device_opt ≠ 0).

(** ** [_update_metadata] *)

Definition action_help (available_actions : list string) (default_value : string) : string :=
  "-o, --action=[action]          Action: " +:+
  join_wrap ", " " or " 42
    (map (λ x, if decide (x = default_value) then x +:+ " (default)" else x) available_actions).

Definition tcp_ports : list (string * string) :=
  [("community", "161"); ("secure", "22"); ("telnet", "23"); ("web", "80"); ("ssl", "443")].

(** The help of "ipport"; a device with none of the known protocols is an IndexError. *)
Definition ipport_help (device_opt : list string) (configured : option pyval)
    : M D string :=
  let has := has_opt device_opt in
  let plain v := "-u, --ipport=[port]            TCP/UDP port to use (default " +:+ v +:+ ")" in
  let long t := "-u, --ipport=[port]            TCP/UDP port to use" +:+ nl +:+
                repeat_str " " 40 +:+ t in
  match configured with
  | Some v =>
      mret (plain (py_str v))
  | None =>
      if has "web" && has "ssl" then mret (long "(default 80, 443 if --ssl option is used)")
      else if has "telnet" && has "secure" then
        mret (long "(default 23, 22 if --ssh option is used)")
      else
        match filter (λ p, Is_true (has p)) ["community"; "secure"; "ssl"; "web"; "telnet"] with
        | [] => raise IndexError
        | protocol :: _ => mret (plain (default "" ((list_to_map tcp_ports : gmap _ _) !! protocol)))
        end
  end.

Definition update_metadata : M D unit :=
  device_opt ← opt_list "device_opt";
  let has := has_opt device_opt in
  allopt_set "login" (Required (if has "login" && negb (has "no_login") then "1" else "0")) ;;
  mwhen (has "port_as_ip")
    (allopt_set "ipaddr" (Required "0") ;; allopt_set "port" (Required "0")) ;;
  let '(available_actions, default_value) := get_available_actions device_opt in
  allopt_set "action" (Default (VStr default_value)) ;;
  allopt_set "action" (Help (action_help available_actions default_value)) ;;
  mwhen (has "ipport")
    (configured ← allopt_default "ipport";
     help ← ipport_help device_opt configured;
     allopt_set "ipport" (Help help)).

(** ** [_set_default_values] *)

(** [k in options or all_opt[o].get("default", "0") == "1"] *)
Definition opt_or_default_on (k o : string) : M D bool :=
  present ← opt_has k;
  if (present : bool) then mret true
  else
    d ← allopt_default o;
    mret (bool_decide (default (VStr "0") d = VStr "1")).

(** The port when none is given: configured, or that of the first protocol that applies. *)
Definition default_ipport (device_opt : list string) : M D (option pyval) :=
  configured ← allopt_default "ipport";
  match configured with
  | Some v => mret (Some v)
  | None =>
      if py_in "community" device_opt then mret (Some (VStr "161"))
      else
        ssh ← opt_or_default_on "--ssh" "secure";
        if (ssh : bool) then mret (Some (VStr "22"))
        else
          ssl ← opt_or_default_on "--ssl" "ssl";
          if (ssl : bool) then mret (Some (VStr "443"))
          else
            ssl_secure ← opt_or_default_on "--ssl-secure" "ssl_secure";
            if (ssl_secure : bool) then mret (Some (VStr "443"))
            else
              ssl_insecure ← opt_or_default_on "--ssl-insecure" "ssl_insecure";
              if (ssl_insecure : bool) then mret (Some (VStr "443"))
              else if py_in "web" device_opt then mret (Some (VStr "80"))
              else if py_in "telnet" device_opt then mret (Some (VStr "23"))
              else mret None
  end.

Definition set_ipport_default (device_opt : list string) : M D unit :=
  given ← opt_has "--ipport";
  if (given : bool) then mret tt
  else
    port ← default_ipport device_opt;
    match port with
    | Some v =>
        opt_set "--ipport" v ;;
        allopt_set "ipport" (Default v)
    | None => mret tt
    end.

Definition set_option_default (o : string) : M D unit :=
  d ← allopt_get o;
  match od_default d with
  | Some v =>
      if decide (o = "ipport") then mret tt
      else
        l ← longopt_of o;
        given ← opt_has ("--" +:+ l);
        if (given : bool) then mret tt else opt_set ("--" +:+ l) v
  | None => mret tt
  end.

Definition set_default_values : M D unit :=
  device_opt ← opt_list "device_opt";
  mwhen (py_in "ipport" device_opt) (set_ipport_default device_opt) ;;
  mfor device_opt set_option_default.

(** ** [_validate_input] *)

(** [if test: valid_input = False; fail_usage(message, stop)] *)
Definition complain_if (stop bad : bool) (message : string) (valid_input : bool) : M D bool :=
  if bad then fail_usage message stop ;; mret false else mret valid_input.

(** [_get_opts_with_invalid_choices]: values of options with choices are stored in
    upper case on the way. *)
Definition check_choice (failed : list string) (o : string) : M D (list string) :=
  d ← allopt_get o;
  match od_choices d with
  | None => mret failed
  | Some choices =>
      l ← longopt_of o;
      v ← opt_find ("--" +:+ l);
      match v with
      | None => mret failed
      | Some v =>
          x ← as_str v;
          opt_set ("--" +:+ l) (VStr (upper x)) ;;
          mret (if bool_decide (upper x ∈ upper <$> choices) then failed else failed ++ [o])%list
      end
  end.

Definition get_opts_with_invalid_choices : M D (list string) :=
  device_opt ← opt_list "device_opt";
  mfold check_choice [] device_opt.

(** [_get_opts_with_invalid_types] *)
Definition check_type (failed : list string) (o : string) : M D (list string) :=
  d ← allopt_get o;
  match od_type d with
  | None => mret failed
  | Some t =>
      l ← longopt_of o;
      v ← opt_find ("--" +:+ l);
      match v with
      | None => mret failed
      | Some v =>
          if bool_decide (t ∈ ["integer"; "second"]) then
            match py_int v with
            | inl _ => mret failed
            | inr (ValueError _) => mret (failed ++ [o])%list
            | inr e => raise e
            end
          else mret failed
      end
  end.

Definition get_opts_with_invalid_types : M D (list string) :=
  device_opt ← opt_list "device_opt";
  mfold check_type [] device_opt.

Definition invalid_choice_message (o : string) : M D string :=
  d ← allopt_get o;
  l ← longopt_of o;
  mret ("Failed: You have to enter a valid choice for --" +:+ l +:+
        " from the valid values: " +:+ str_of_list (default [] (od_choices d))).

Definition invalid_type_message (o : string) : M D string :=
  d ← allopt_get o;
  l ← longopt_of o;
  mret (if decide (od_type d = Some "second")
        then "Failed: The value you have entered for --" +:+ l +:+ " is not a valid time in seconds"
        else "Failed: The value you have entered for --" +:+ l +:+ " is not a valid " +:+
             default "" (od_type d)).

(** [for o in failed: valid_input = False; fail_usage(message of o, stop)] *)
Definition complain_about (message : string → M D string) (stop v : bool)
    (failed : list string) : M D bool :=
  mfold (λ v o, m ← message o; complain_if stop true m v) v failed.

(** The password rules; [has k] is [k in options]. *)
Definition password_missing (device_opt : list string) (has : string → bool) : option string :=
  if has_opt device_opt "no_password" then None
  else if negb (has_opt device_opt "identity_file") then
    if has "--password" || has "--password-script" then None
    else Some "Failed: You have to enter password or password script"
  else if has "--password" || has "--password-script" || has "--identity-file" then None
  else Some "Failed: You have to enter password, password script or identity file".

Definition plug_missing (device_opt : list string) (has : string → bool) (action : pyval) : bool :=
  negb (bool_decide (action ∈ [VStr "list"; VStr "list-status"; VStr "monitor"])) &&
  negb (has "--plug") && has_opt device_opt "port" && negb (has_opt device_opt "no_port") &&
  negb (has_opt device_opt "port_as_ip").

Definition login_missing (device_opt : list string) (has : string → bool) : bool :=
  negb (has "--username") && has_opt device_opt "login" && negb (has_opt device_opt "no_login").

Definition address_missing (device_opt : list string) (has : string → bool) : bool :=
  has_opt device_opt "ipaddr" && negb (has "--ip") && negb (has "--managed") &&
  negb (has "--target").

Definition identity_without_ssh (has : string → bool) : bool :=
  negb (has "--ssh") && has "--identity-file".

(** [k in options] in a given state. *)
Definition given (s : st D) (k : string) : bool := bool_decide (is_Some (s_opts s !! k)).

(** Credentials and address, then the identity file. *)
Definition validate_access (stop : bool) (device_opt : list string) : M D bool :=
  s ← get_st;
  let has := given s in
  v ← complain_if stop (login_missing device_opt has) "Failed: You have to set login name" true;
  v ← complain_if stop (address_missing device_opt has) "Failed: You have to enter fence address" v;
  v ← complain_if stop (bool_decide (is_Some (password_missing device_opt has)))
        (default "" (password_missing device_opt has)) v;
  complain_if stop (identity_without_ssh has)
    "Failed: You have to use identity file together with ssh connection (-x)" v.

Definition validate_identity_file (stop v : bool) : M D bool :=
  named ← opt_has "--identity-file";
  if (named : bool) then
    f ← opt_str "--identity-file";
    exists_ ← host_test h_isfile f;
    complain_if stop (negb exists_) ("Failed: Identity file " +:+ f +:+ " does not exist") v
  else mret v.

Definition validate_plug (stop : bool) (device_opt : list string) (v : bool) : M D bool :=
  action ← opt_get "--action";
  s ← get_st;
  complain_if stop (plug_missing device_opt (given s) action)
    "Failed: You have to enter plug number or machine identification" v.

Definition validate_values (stop v : bool) : M D bool :=
  bad ← get_opts_with_invalid_choices;
  v ← complain_about invalid_choice_message stop v bad;
  bad ← get_opts_with_invalid_types;
  complain_about invalid_type_message stop v bad.

Definition validate_input (stop : bool) : M D bool :=
  device_opt ← opt_list "device_opt";
  v ← validate_access stop device_opt;
  v ← validate_identity_file stop v;
  v ← validate_plug stop device_opt v;
  validate_values stop v.

(** ** [check_input] *)

(** [options[...] = int(...)], a number that does not parse counting as -1. *)
Definition read_verbose_level : M D Z :=
  v ← opt_get "--verbose-level";
  match py_int v with
  | inl n => mret n
  | inr (ValueError _) => mret (-1)%Z
  | inr e => raise e
  end.

Definition check_verbosity : M D unit :=
  n ← read_verbose_level;
  let level := if (n <? 0)%Z then 0%Z else n in
  mwhen (n <? 0)%Z
    (log WARNING ("Parse error: Option 'verbose_level' must " +:+
                  "be an integer greater than or equal to 0. " +:+
                  "Setting verbose_level to 0.")) ;;
  opt_set "--verbose-level" (VInt level) ;;
  verbose ← opt_has "--verbose";
  mwhen ((level =? 0)%Z && verbose)
    (log WARNING ("Parse error: Ignoring option 'verbose' " +:+
                  "because it conflicts with verbose_level=0") ;;
     opt_del "--verbose") ;;
  mwhen (0 <? level)%Z (opt_set "--verbose" (VInt 1)) ;;
  verbose ← opt_has "--verbose";
  mwhen verbose (logging_setup "level DEBUG") ;;
  logging_setup "handler syslog" ;;
  quiet ← opt_has "--quiet";
  mwhen (negb quiet) (logging_setup "handler stderr").

Definition check_action (device_opt : list string) : M D unit :=
  let acceptable_actions := (get_available_actions device_opt).1 in
  let acceptable_actions :=
    if decide (py_count "fabric_fencing" device_opt = 1)
    then (acceptable_actions ++ ["enable"; "disable"])%list else acceptable_actions in
  action ← opt_str "--action";
  mwhen (bool_decide (py_count action acceptable_actions = 0))
    (fail_usage ("Failed: Unrecognised action '" +:+ action +:+ "'") true) ;;
  mwhen (bool_decide (action = "enable")) (opt_set "--action" (VStr "on")) ;;
  mwhen (bool_decide (action = "disable")) (opt_set "--action" (VStr "off")).

(** [options[target] = os.popen(options[script]).read().rstrip()] when [script] is given. *)
Definition run_password_script (script target : string) : M D unit :=
  given ← opt_has script;
  mwhen given
    (cmd ← opt_str script;
     out ← os_popen_read cmd;
     opt_set target (VStr (rstrip out))).

Definition open_debug_file : M D unit :=
  given ← opt_has "--debug-file";
  mwhen given
    (f ← opt_str "--debug-file";
     s ← get_st;
     match h_appendfile f "" (s_dev s) with
     | Some d => modify (set_dev d) ;; logging_setup ("handler file " +:+ f)
     | None =>
         log ERROR ("Unable to create file " +:+ f) ;;
         fail_usage ("Failed: Unable to create file " +:+ f) true
     end).

Definition check_ssl : M D unit :=
  secure ← opt_has "--ssl-secure";
  insecure ← opt_has "--ssl-insecure";
  mwhen (secure || insecure) (opt_set "--ssl" (VStr "")) ;;
  ssl ← opt_has "--ssl";
  mwhen (ssl && negb insecure) (opt_set "--ssl-secure" (VStr "")).

Definition check_timeouts (env : gmap string string) : M D unit :=
  given ← opt_has "--disable-timeout";
  mwhen (bool_decide (env !! "PCMK_service" = Some "pacemaker-fenced") && negb given)
    (opt_set "--disable-timeout" (VStr "1")) ;;
  v ← opt_find "--disable-timeout";
  x ← as_str (default (VStr "") v);
  mwhen (bool_decide (lower x ∈ ["1"; "yes"; "on"; "true"]))
    (opt_set "--power-timeout" (VInt 0) ;;
     opt_set "--shell-timeout" (VInt 0) ;;
     opt_set "--login-timeout" (VInt 0)).

(** [options = dict(opt)], defaults, and the spelling of the action. *)
Definition prepare_options (device_opt : list string) (opt : gmap string pyval)
    : M D (list string) :=
  added ← add_dependency_options device_opt;
  let device_opt := (device_opt ++ added)%list in
  modify (set_opts (<["device_opt" := VList device_opt]> opt)) ;;
  update_metadata ;;
  set_default_values ;;
  action ← opt_str "--action";
  let action := lower action in
  opt_set "--action" (VStr (if decide (action = "meta-data") then "metadata" else action)) ;;
  mret device_opt.

(** Nothing is checked when only documentation is asked for. *)
Definition wants_docs : M D bool :=
  action ← opt_get "--action";
  help ← opt_has "--help";
  version ← opt_has "--version";
  mret (bool_decide (action = VStr "metadata") || bool_decide (action = VStr "manpage") ||
        help || version).

Definition validate_or_exit (other_conditions : bool) : M D unit :=
  action ← opt_get "--action";
  if bool_decide (action = VStr "validate-all") && negb other_conditions then
    valid ← validate_input false;
    mwhen (negb valid) (fail_usage "validate-all failed" true) ;;
    sys_exit EC_OK
  else
    validate_input true ;; mret tt.

(** The steps after the validation. *)
Definition finish_checks (env : gmap string string) : M D unit :=
  open_debug_file ;;
  run_password_script "--snmp-priv-passwd-script" "--snmp-priv-passwd" ;;
  run_password_script "--password-script" "--password" ;;
  check_ssl ;;
  check_timeouts env.

(** The options the source returns are the state's; the value is the extended
    [device_opt]. *)
Definition check_input (env : gmap string string) (device_opt : list string)
    (opt : gmap string pyval) (other_conditions : bool) : M D (list string) :=
  device_opt ← prepare_options device_opt opt;
  docs ← wants_docs;
  if (docs : bool) then mret device_opt
  else
    check_verbosity ;;
    check_action device_opt ;;
    validate_or_exit other_conditions ;;
    finish_checks env ;;
    mret device_opt.
End CheckInput.
