(* ===== verification/Login.v ===== *)
(** * Logging in to a device: [fence_login], [fence_logout] and the spawned connection

    The library talks to a device through a process that it controls with pexpect
    (telnet, ssh, gnutls-cli). What pexpect does is described by the class [Terminal];
    the dialogue on top of it is the library's. *)

From S2P Require Import Prelude PyStr PyRe OptionDefs Effects Fail Host Input Process.

Local Open Scope string_scope.

(** What a pattern list given to [expect] holds. *)
Inductive pattern :=
| PText (s : string)       (* a regular expression given as text *)
| PRe (r : re).            (* a compiled regular expression *)

(** A device seen through pexpect: each operation gives its result or an exception (of
    pexpect, or of the operating system). [None] as a timeout is "wait for ever".
    [t_expect] gives the index of the first pattern that matched, the text before the
    match, and the text matched. *)
Class Terminal (D : Type) := {
  t_spawn : string → D → (unit + exn) * D;
  t_expect : list pattern → option Z → D → (nat * string * string + exn) * D;
  t_read : Z → option Z → D → (string + exn) * D;
  t_send : string → D → (unit + exn) * D;
  t_close : D → (unit + exn) * D;
  t_run : string → option Z → D → (string * option Z + exn) * D
}.

(** An operation on the device. *)
Definition device_op {D A} (f : D → (A + exn) * D) : M D A := λ s,
  let '(r, d) := f (s_dev s) in
  match r with
  | inl a => (Ret a, set_dev d s)
  | inr e => (Raise e, set_dev d s)
  end.

Section Login.
Context `{Terminal D}.
(** [run_delay] needs the time when the agent was started. *)
Variable time_start : Z.

(** ** [fspawn] and [frun] *)

(** A timeout of 0 waits for ever. *)
Definition no_zero (timeout : Z) : option Z := if (timeout =? 0)%Z then None else Some timeout.

Definition fspawn (command : string) : M D unit :=
  log INFO ("Running command: " +:+ command) ;; device_op (t_spawn command).

(** [conn.log_expect(pattern, timeout)]: the index, and [conn.before], [conn.after]. *)
Definition log_expect (patterns : list pattern) (timeout : Z) : M D (nat * string * string) :=
  r ← device_op (t_expect patterns (no_zero timeout));
  log DEBUG ("Received: " +:+ r.1.2 +:+ r.2) ;;
  mret r.

Definition expect_index (patterns : list pattern) (timeout : Z) : M D nat :=
  r ← log_expect patterns timeout; mret (r.1.1).

(** Whatever the size asked for, 100 characters are read. *)
Definition read_nonblocking (size timeout : Z) : M D string :=
  device_op (t_read 100 (no_zero timeout)).

Definition send (message : string) : M D unit :=
  log DEBUG ("Sent: " +:+ message) ;; device_op (t_send message).

(** [pexpect.spawn.sendline]: the text and a line feed. *)
Definition sendline (message : string) : M D unit := send (message +:+ nl).

Definition send_eol (message : string) : M D unit :=
  eol ← opt_str "eol"; send (message +:+ eol).

Definition conn_close : M D unit := device_op t_close.

(** [frun(command, timeout, withexitstatus=True)]: output and exit status. *)
Definition frun (command : string) (timeout : Z) : M D (string * option Z) :=
  device_op (t_run command (no_zero timeout)).

(** ** Options used by the logins *)

Definition login_timeout : M D Z := opt_int "--login-timeout".
Definition shell_timeout : M D Z := opt_int "--shell-timeout".

Definition command_prompt : M D (list pattern) :=
  l ← opt_list "--command-prompt"; mret (map PText l).

Definition force_ipvx : M D string :=
  inet6 ← opt_has "--inet6-only";
  inet4 ← opt_has "--inet4-only";
  mret (if (inet6 : bool) then "-6 " else if (inet4 : bool) then "-4 " else "").

Definition with_ssh_options (command : string) : M D string :=
  v ← opt_find "--ssh-options";
  match v with
  | Some v => x ← as_str v; mret (command +:+ " " +:+ x)
  | None => mret command
  end.

Definition yes_no : string := "Are you sure you want to continue connecting (yes/no)?".

(** ** TLS *)

Definition NORMAL_SSL3 : string :=
  "--priority " +:+ dq +:+ "NORMAL:-VERS-TLS1.2:-VERS-TLS1.1:-VERS-TLS1.0:+VERS-SSL3.0" +:+ dq.
Definition NORMAL_TLS1_0 : string :=
  "--priority " +:+ dq +:+
  "NORMAL:-VERS-TLS1.2:-VERS-TLS1.1:+VERS-TLS1.0:%LATEST_RECORD_VERSION" +:+ dq.

Definition open_ssl_connection : M D unit :=
  notls ← opt_has "--notls";
  tls1_0 ← opt_has "--tls1.0";
  insecure ← opt_has "--ssl-insecure";
  let gnutls_opts :=
    if (notls : bool) then NORMAL_SSL3 else if (tls1_0 : bool) then NORMAL_TLS1_0 else "" in
  let ssl_opts := if (insecure : bool) then "--insecure" else "" in
  path ← opt_show "--gnutlscli-path";
  port ← opt_show "--ipport";
  ip ← opt_show "--ip";
  let command := path +:+ " " +:+ gnutls_opts +:+ " " +:+ ssl_opts +:+ " --crlf -p " +:+
                 port +:+ " " +:+ ip in
  try_except (fspawn command) (λ e,
    match e with
    | PexpectError _ | PexpectEOF _ | PexpectTIMEOUT _ =>
        Some (log ERROR (exn_str e +:+ nl) ;; sys_exit EC_GENERIC_ERROR)
    | _ => None
    end).

(** ** SSH *)

Definition login_ssh_with_identity_file : M D unit :=
  ipvx ← force_ipvx;
  path ← opt_show "--ssh-path";
  user ← opt_show "--username";
  ip ← opt_show "--ip";
  identity ← opt_show "--identity-file";
  port ← opt_show "--ipport";
  command ← with_ssh_options (path +:+ " " +:+ ipvx +:+ " " +:+ user +:+ "@" +:+ ip +:+
                              " -i " +:+ identity +:+ " -p " +:+ port);
  fspawn command ;;
  let passphrase := PText ("Enter passphrase for key '" +:+ identity +:+ "':") in
  prompt ← command_prompt;
  t ← login_timeout;
  result ← expect_index ([passphrase; PText yes_no] ++ prompt)%list t;
  result ← (if bool_decide (result = 1) then
              sendline "yes" ;; expect_index (passphrase :: prompt) t
            else mret result);
  mwhen (bool_decide (result = 0))
    (given ← opt_has "--password";
     if (given : bool) then
       password ← opt_str "--password";
       sendline password ;;
       expect_index prompt t ;; mret tt
     else fail_usage "Failed: You have to enter passphrase (-p) for identity file" true).

(** [(password)|(pass phrase)], ignoring case *)
Definition re_pass : re := Alt (Group 1 (LitI "password")) (Group 2 (LitI "pass phrase")).

Definition login_ssh_with_password (re_login : re) : M D unit :=
  ipvx ← force_ipvx;
  path ← opt_show "--ssh-path";
  user ← opt_show "--username";
  ip ← opt_show "--ip";
  port ← opt_show "--ipport";
  command ← with_ssh_options (path +:+ " " +:+ ipvx +:+ " " +:+ user +:+ "@" +:+ ip +:+
                              " -p " +:+ port +:+ " -o PubkeyAuthentication=no");
  fspawn command ;;
  telnet_over_ssh ← opt_has "telnet_over_ssh";
  t ← login_timeout;
  (if (telnet_over_ssh : bool) then
     result ← expect_index [PRe re_login; PText yes_no] t;
     mwhen (bool_decide (result = 1))
       (sendline "yes" ;; expect_index [PRe re_login] t ;; mret tt) ;;
     username ← opt_str "--username";
     sendline username ;;
     expect_index [PRe re_pass] t ;; mret tt
   else
     result ← expect_index [PText "ssword:"; PText yes_no] t;
     mwhen (bool_decide (result = 1))
       (sendline "yes" ;; expect_index [PText "ssword:"] t ;; mret tt)) ;;
  password ← opt_str "--password";
  sendline password ;;
  prompt ← command_prompt;
  expect_index prompt t ;; mret tt.

(** ** Telnet *)

Definition found (r : re) (screen : string) : bool := bool_decide (is_Some (search r screen)).

(** The device repeats the login prompt: its lines end with a line feed only. *)
Definition detect_eol (re_login : re) : M D unit :=
  st ← shell_timeout;
  screen ← read_nonblocking 100 st;
  if found re_login screen then
    opt_set "eol" (VStr nl) ;;
    username ← opt_str "--username";
    send_eol username ;;
    t ← login_timeout;
    expect_index [PRe re_pass] t ;; mret tt
  else mwhen (negb (found re_pass screen)) (expect_index [PRe re_pass] st ;; mret tt).

(** A refused password: the other end of line is tried once. *)
Definition retry_password (re_login : re) (after : string) : M D unit :=
  opt_set "eol" (VStr (str1 CR)) ;;
  send_eol "" ;;
  st ← shell_timeout;
  screen ← read_nonblocking 100 st;
  mwhen (found re_login (after +:+ screen)) (send_eol "") ;;
  username ← opt_str "--username";
  send_eol username ;;
  t ← login_timeout;
  expect_index [PRe re_pass] t ;;
  password ← opt_str "--password";
  send_eol password ;;
  prompt ← command_prompt;
  expect_index prompt t ;; mret tt.

Definition enter_password (re_login : re) : M D unit :=
  password ← opt_str "--password";
  send_eol password ;;
  prompt ← command_prompt;
  st ← shell_timeout;
  r ← log_expect (PRe re_login :: prompt) st;
  mwhen (bool_decide (r.1.1 = 0)) (retry_password re_login r.2).

Definition is_KeyError (e : exn) : bool := match e with KeyError _ => true | _ => false end.

Definition login_telnet (re_login : re) : M D unit :=
  path ← opt_str "--telnet-path";
  fspawn path ;;
  send ("set binary" +:+ nl) ;;
  ip ← opt_show "--ip";
  port ← opt_show "--ipport";
  send ("open " +:+ ip +:+ " -" +:+ port +:+ nl) ;;
  t ← login_timeout;
  expect_index [PRe re_login] t ;;
  username ← opt_str "--username";
  send_eol username ;;
  detect_eol re_login ;;
  try_except (enter_password re_login) (λ e,
    if is_KeyError e then Some (fail EC_PASSWORD_MISSING true) else None).

(** ** [fence_login] *)

(** The default of [re_login_string], ignoring case. *)
Definition default_re_login : re :=
  Alt (Group 1 (Seqs [LitI "login"; Many Space; LitI ": "]))
   (Alt (Group 2 (Seqs [NotAhead (LitI "Last "); LitI "Login Name:  "]))
     (Alt (Group 3 (LitI "username: ")) (Group 4 (LitI "User Name :")))).

Definition fence_login (re_login : re) : M D unit :=
  run_delay time_start 0 0 ;;
  eol ← opt_has "eol";
  mwhen (negb eol) (opt_set "eol" (VStr (str1 CR +:+ nl))) ;;
  prompt ← opt_find "--command-prompt";
  match prompt with
  | Some (VList _) | None => mret tt
  | Some v => opt_set "--command-prompt" (VList [py_str v])
  end ;;
  ssl ← opt_has "--ssl";
  ssh ← opt_has "--ssh";
  identity ← opt_has "--identity-file";
  try_except
    (if (ssl : bool) then open_ssl_connection
     else if ssh && negb identity then login_ssh_with_password re_login
     else if ssh && identity then login_ssh_with_identity_file
     else login_telnet re_login)
    (λ e, match e with
          | PexpectEOF _ | PexpectTIMEOUT _ =>
              Some (log DEBUG (exn_str e) ;; fail EC_LOGIN_DENIED true)
          | _ => None
          end).

(** ** [fence_logout] *)

Definition fence_logout (logout_string : string) (pause : Z) : M D unit :=
  try_except
    (send_eol logout_string ;; sleep pause ;; conn_close)
    (λ e, match e with
          | OSError _ | PexpectEOF _ | PexpectTIMEOUT _ | PexpectError _ => Some (mret tt)
          | _ => None
          end).
End Login.
