(* ===== verification/Snmp.v ===== *)
(** * SNMP devices: the class [FencingSnmp] of [lib/fencing_snmp.py.py]

    The class builds the command lines of snmpget, snmpset and snmpwalk from the options,
    runs them, and cuts their output into object identifiers and values. *)

From S2P Require Import Prelude PyStr PyRe OptionDefs Effects Fail Host Input Process Login.

Local Open Scope string_scope.

Section Snmp.
Context `{Terminal D}.

(** [quote_for_run]: a text for the inside of single quotes of the shell. *)
Definition quote_for_run (s : string) : string :=
  replace "'" ("'" +:+ str1 BS +:+ "''") s.

(** ** [complete_missed_params] *)

(** A condition: an option that must be there, or with [!] one that must not. *)
Definition condition_holds (s : st D) (item : string) : bool :=
  match item with
  | String "!"%char name => bool_decide (s_opts s !! ("--" +:+ name) = None)
  | name => bool_decide (is_Some (s_opts s !! ("--" +:+ name)))
  end.

Definition missed_params : list (list string * (string * pyval)) :=
  [(["snmp-priv-passwd"; "password"; "!snmp-sec-level"], ("--snmp-sec-level", VStr "authPriv"));
   (["!snmp-version"; "community"; "!username"; "!snmp-priv-passwd"; "!password"],
    ("--snmp-version", VStr "2c"))].

Definition complete_missed_params : M D unit :=
  mfor missed_params (λ e,
    s ← get_st;
    mwhen (forallb (condition_holds s) e.1) (opt_set e.2.1 e.2.2)).

(** ** [prepare_cmd] *)

(** [ -<flag> '<value>'] for each option that is set. *)
Definition add_flags (mapping : list (string * string)) (cmd : string) : M D string :=
  mfold (λ cmd item,
    v ← opt_find ("--" +:+ item.1);
    match v with
    | Some v =>
        x ← as_str v;
        mret (cmd +:+ " -" +:+ item.2 +:+ " '" +:+ quote_for_run x +:+ "'")
    | None => mret cmd
    end) cmd mapping.

Definition mapping_all : list (string * string) := [("snmp-version", "v"); ("community", "c")].
Definition mapping_v3 : list (string * string) :=
  [("snmp-auth-prot", "a"); ("snmp-sec-level", "l"); ("snmp-priv-prot", "x");
   ("snmp-priv-passwd", "X"); ("password", "A"); ("username", "u")].

(** The transport prefix; the IPv4 option is looked at last. *)
Definition udp_prefix : M D string :=
  inet6 ← opt_has "--inet6-only";
  inet4 ← opt_has "--inet4-only";
  mret (if (inet4 : bool) then "udp:" else if (inet6 : bool) then "udp6:" else "").

Definition prepare_cmd (command : string) : M D string :=
  let cmd := command +:+ " -m '' -Oeqn " in
  complete_missed_params ;;
  cmd ← add_flags mapping_all cmd;
  version ← opt_find "--snmp-version";
  cmd ← (if bool_decide (version = Some (VStr "3")) then add_flags mapping_v3 cmd else mret cmd);
  force_ipvx ← udp_prefix;
  ip ← opt_str "--ip";
  port ← opt_find "--ipport";
  let port := match port with Some v => quote_for_run (":" +:+ py_str v) | None => "" end in
  mret (cmd +:+ " '" +:+ force_ipvx +:+ quote_for_run ip +:+ port +:+ "'").

(** ** Running *)

(** [^Error ] under [re.MULTILINE] *)
Definition error_re : re := Seqs [Bol; Lit "Error "].

Definition check_result (res_output : string) (res_code : option Z) : M D string :=
  match res_code with
  | None => fail EC_TIMED_OUT true ;; mret res_output
  | Some code =>
      log DEBUG (res_output +:+ nl) ;;
      mwhen (negb (code =? 0)%Z || found error_re res_output)
        (fail_usage ("Returned " +:+ str_of_Z code +:+ ": " +:+ res_output) true) ;;
      mret res_output
  end.

Definition is_pexpect (e : exn) : bool :=
  match e with PexpectEOF _ | PexpectTIMEOUT _ | PexpectError _ => true | _ => false end.

Definition snmp_run_command (command : string) (additional_timeout : Z) : M D string :=
  try_except
    (log DEBUG (command +:+ nl) ;;
     st ← shell_timeout;
     lt ← login_timeout;
     r ← frun command (st + lt + additional_timeout)%Z;
     check_result r.1 r.2)
    (λ e, if is_pexpect e
          then Some (fail_usage ("Cannot run command " +:+ command) true ;; raise (OtherError "UnboundLocalError"))
          else None).

(** ** Requests *)

(** [s.split(None, 1)] *)
Fixpoint first_word (s : string) : string * string :=
  match s with
  | "" => ("", "")
  | String c s' =>
      if is_space c then ("", s)
      else let '(w, rest) := first_word s' in (String c w, rest)
  end.

Definition split_ws1 (s : string) : list string :=
  match first_word (lstrip s) with
  | ("", _) => []
  | (w, rest) => if decide (lstrip rest = "") then [w] else [w; lstrip rest]
  end.

Definition snmp_get (oid : string) (additional_timeout : Z) : M D (list string) :=
  path ← opt_str "--snmpget-path";
  cmd ← prepare_cmd path;
  res ← snmp_run_command (cmd +:+ " '" +:+ quote_for_run oid +:+ "'") additional_timeout;
  match last (splitlines res) with
  | Some line => mret (split_ws1 line)
  | None => raise IndexError
  end.

Definition type_of_value (value : pyval) : string :=
  match value with VInt _ => "i" | VStr _ => "s" | _ => "" end.

Definition snmp_set (oid : string) (value : pyval) (additional_timeout : Z) : M D unit :=
  path ← opt_str "--snmpset-path";
  cmd ← prepare_cmd path;
  snmp_run_command
    (cmd +:+ " '" +:+ quote_for_run oid +:+ "' " +:+ type_of_value value +:+
     " '" +:+ quote_for_run (py_str value) +:+ "'") additional_timeout ;;
  mret tt.

Definition snmp_walk (oid : string) (additional_timeout : Z) : M D (list (list string)) :=
  path ← opt_str "--snmpwalk-path";
  cmd ← prepare_cmd path;
  res ← snmp_run_command (cmd +:+ " '" +:+ quote_for_run oid +:+ "'") additional_timeout;
  mret (map split_ws1 (filter (λ x, Is_true (startswith "." x)) (splitlines res))).
End Snmp.
