(* ===== verification/Metadata.v ===== *)
(** * Documentation: [usage], [metadata], [show_docs]

    What an agent prints about itself: the usage text and the XML description that the
    cluster manager reads. *)

From S2P Require Import Prelude PyStr PyRe Text OptionDefs Effects Fail Host Input CheckInput.

Local Open Scope string_scope.

(** ** Stable sorting *)

Section Sort.
Context {A : Type} (leb : A → A → bool).

Fixpoint insert_sorted (x : A) (l : list A) : list A :=
  match l with
  | [] => [x]
  | y :: l' => if leb x y then x :: l else y :: insert_sorted x l'
  end.

(** [list.sort]: of equal elements the earlier stays first. *)
Definition stable_sort (l : list A) : list A := foldr insert_sorted [] l.
End Sort.

(** [x <= y] on strings of the same kind, by code points. *)
Fixpoint str_leb (x y : string) : bool :=
  match x, y with
  | "", _ => true
  | String _ _, "" => false
  | String c x', String d y' =>
      (code c <? code d)%N || (code c =? code d)%N && str_leb x' y'
  end.

(** An option as it is listed: its key and its definition. *)
Definition entry : Type := string * optdef.

Definition order_leb (x y : entry) : bool := (od_order x.2 <=? od_order y.2)%Z.
Definition order_key_leb (x y : entry) : bool :=
  (od_order x.2 <? od_order y.2)%Z ||
  (od_order x.2 =? od_order y.2)%Z && str_leb x.1 y.1.

(** [os.path.basename] *)
Definition basename (path : string) : string :=
  default path (last (split_go "/" path 0)).

(** ** [usage] *)

Definition lookup_all {D} (avail_opt : list string) : M D (list entry) :=
  mfold (λ acc key, d ← allopt_get key; mret (acc ++ [(key, d)])%list) [] avail_opt.

Definition usage {D} (prog : string) (avail_opt : list string) : M D unit :=
  py_print "Usage:" ;;
  py_print (tab +:+ basename prog +:+ " [options]") ;;
  py_print "Options:" ;;
  entries ← lookup_all avail_opt;
  mfor (stable_sort order_leb entries) (λ kd,
    mwhen (negb (bool_decide (od_help kd.2 = "")))
      (py_print ("   " +:+ join_wrap ", " " and " 3 [od_help kd.2]))).

(** ** [metadata] *)

Record docs := Docs {
  doc_longdesc : string;
  doc_shortdesc : string;
  doc_vendorurl : option string;
  doc_symlink : list (string * string);
  doc_agent_name : option string
}.

(** [{k: v}] in the order of the keys' first assignment. *)
Fixpoint dict_insert {A} (k : string) (v : A) (l : list (string * A)) : list (string * A) :=
  match l with
  | [] => [(k, v)]
  | (k', v') :: l' => if decide (k' = k) then (k', v) :: l' else (k', v') :: dict_insert k v l'
  end.

Fixpoint dict_get {A} (k : string) (l : list (string * A)) : option A :=
  match l with
  | [] => None
  | (k', v) :: l' => if decide (k' = k) then Some v else dict_get k l'
  end.

Lemma dict_get_insert {A} k (v : A) l : dict_get k (dict_insert k v l) = Some v.
Proof.
  induction l as [|[k' v'] l IH]; cbn; [by rewrite decide_True|].
  case_decide; cbn; [by rewrite decide_True|by rewrite decide_False].
Qed.

Lemma dict_get_insert_ne {A} k k' (v : A) l :
  k ≠ k' → dict_get k (dict_insert k' v l) = dict_get k l.
Proof.
  intros Hk. induction l as [|[k1 v1] l IH]; cbn; [by rewrite decide_False|].
  case_decide as Hk1; cbn; [subst; by rewrite !decide_False|]. case_decide; [done|apply IH].
Qed.

Lemma dict_insert_fresh {A} k (v : A) l : k ∉ l.*1 → dict_insert k v l = (l ++ [(k, v)])%list.
Proof.
  induction l as [|[k' v'] l IH]; cbn; [done|]. rewrite not_elem_of_cons. intros [Hk Hl].
  rewrite decide_False by congruence. by rewrite IH.
Qed.

Definition xml_name (longopt : string) : string := replace "-" "_" longopt.

(** [sorted_list] before the new names: the options that have a long name. *)
Definition with_longopt (kd : entry) : bool := bool_decide (is_Some (od_longopt kd.2)).

(** From the name built from the long option to the key with another name. *)
Definition renamings (entries : list entry) : list (string * string) :=
  foldl (λ m kd,
    let n := xml_name (default "" (od_longopt kd.2)) in
    if decide (kd.1 = n) then m else dict_insert n kd.1 m) [] entries.

(** [set_order] is the order in which Python iterates over [set(avail_opt)]. *)
Definition metadata_entries {D} (set_order : list string → list string) (avail_opt : list string)
    : M D (list (string * string) * list entry) :=
  all ← lookup_all (set_order (remove_dups avail_opt));
  let sorted_list := filter (λ kd, Is_true (with_longopt kd)) all in
  let mapping := renamings sorted_list in
  new_options ← mfold (λ acc p, d ← allopt_get p.2; mret (acc ++ [(p.1, d)])%list) [] mapping;
  mret (mapping, stable_sort order_key_leb (sorted_list ++ new_options)).

(** Troff markup that is dropped from the long description. *)
Definition troff_re : re :=
  Alt (Seq (Lit (str1 BS +:+ "f"))
         (Chr (λ c, bool_decide (c ∈ ["B"%char; "P"%char; "I"%char; "R"%char]))))
    (Alt (Lit ".P") (Alt (Lit ".TP") (Lit (".br" +:+ nl)))).

(** The option part of a help text: [^(.*?--\S+)\s+] with [re.S]. *)
Definition mixed_re : re :=
  Seqs [Bos; Group 1 (Seqs [ManyLazy AnyS; Lit "--"; Plus NonSpace]); Plus Space].

(** [.*\s\s+] *)
Definition indent_re : re := Seqs [Many Any; Space; Plus Space].

Definition xml_info (allopt : gmap string optdef) (mapping : list (string * string))
    (key : string) : string :=
  match allopt !! key with
  | Some d =>
      if decide (key = xml_name (default key (od_longopt d))) then "" else "deprecated=" +:+ dq +:+ "1" +:+ dq
  | None => "obsoletes=" +:+ dq +:+ default "None" (dict_get key mapping) +:+ dq
  end.

Definition quoted (x : string) : string := dq +:+ x +:+ dq.

Definition mixed_of (help : string) : string :=
  encode_html_entities
    (match search mixed_re help with Some m => m_group 1 m | None => help end).

Definition shortdesc_of (d : optdef) : string :=
  match od_shortdesc d with
  | Some x => x
  | None => sub indent_re (λ _, "") (String.substring 31 (String.length (od_help d)) (od_help d))
  end.

(** The lines that describe the content of a parameter. *)
Definition content_lines (d : optdef) : list string :=
  let default_attr :=
    match od_default d with
    | Some v => "default=" +:+ quoted (encode_html_entities (py_str v)) +:+ " "
    | None => ""
    end in
  match od_choices d with
  | Some choices =>
      [tab +:+ tab +:+ "<content type=" +:+ quoted "select" +:+ " " +:+ default_attr +:+ " >"] ++
      map (λ c, tab +:+ tab +:+ tab +:+ "<option value=" +:+ quoted c +:+ " />") choices ++
      [tab +:+ tab +:+ "</content>"]
  | None =>
      if Nat.ltb 0 (count_char ":" (od_getopt d)) then
        [tab +:+ tab +:+ "<content type=" +:+ quoted (default "string" (od_type d)) +:+ " " +:+
         default_attr +:+ " />"]
      else [tab +:+ tab +:+ "<content type=" +:+ quoted "boolean" +:+ " " +:+ default_attr +:+ " />"]
  end%list.

Definition print_parameter {D} (mapping : list (string * string)) (kd : entry) : M D unit :=
  let '(key, d) := kd in
  s ← get_st;
  let info := xml_info (s_allopt s) mapping key in
  mwhen (negb (bool_decide (od_help d = "")))
    (match od_required d with
     | None => raise (KeyError "required")
     | Some required =>
         py_print (tab +:+ "<parameter name=" +:+ quoted key +:+ " unique=" +:+ quoted "0" +:+
                   " required=" +:+ quoted required +:+
                   (if decide (info = "") then "" else " " +:+ info) +:+ ">") ;;
         py_print (tab +:+ tab +:+ "<getopt mixed=" +:+ quoted (mixed_of (od_help d)) +:+ " />") ;;
         mfor (content_lines d) py_print ;;
         py_print (tab +:+ tab +:+ "<shortdesc lang=" +:+ quoted "en" +:+ ">" +:+
                   shortdesc_of d +:+ "</shortdesc>") ;;
         py_print (tab +:+ "</parameter>")
     end).

Definition print_actions {D} (avail_opt : list string) : M D unit :=
  let available_actions := (get_available_actions avail_opt).1 in
  mwhen (py_in "on" available_actions)
    (py_print (tab +:+ "<action name=" +:+ quoted "on" +:+
               (if has_opt avail_opt "on_target" then " on_target=" +:+ quoted "1" else "") +:+
               " automatic=" +:+
               quoted (str_of_Z (Z.of_nat (py_count "fabric_fencing" avail_opt))) +:+ "/>")) ;;
  mfor (removed "on" available_actions) (λ a,
    py_print (tab +:+ "<action name=" +:+ quoted a +:+ " />")).

Definition metadata {D} (set_order : list string → list string) (avail_opt : list string)
    (doc : docs) (agent_name : string) : M D unit :=
  '(mapping, entries) ← metadata_entries set_order avail_opt;
  action ← opt_get "--action";
  let longdesc :=
    if decide (action = VStr "metadata") then sub troff_re (λ _, "") (doc_longdesc doc)
    else doc_longdesc doc in
  py_print ("<?xml version=" +:+ quoted "1.0" +:+ " ?>") ;;
  py_print ("<resource-agent name=" +:+ quoted agent_name +:+ " shortdesc=" +:+
            quoted (doc_shortdesc doc) +:+ " >") ;;
  mfor (doc_symlink doc) (λ p,
    py_print ("<symlink name=" +:+ quoted p.1 +:+ " shortdesc=" +:+ quoted p.2 +:+ "/>")) ;;
  py_print ("<longdesc>" +:+ longdesc +:+ "</longdesc>") ;;
  match doc_vendorurl doc with
  | None => raise (KeyError "vendorurl")
  | Some url => py_print ("<vendor-url>" +:+ url +:+ "</vendor-url>")
  end ;;
  py_print "<parameters>" ;;
  mfor entries (print_parameter mapping) ;;
  py_print "</parameters>" ;;
  py_print "<actions>" ;;
  print_actions avail_opt ;;
  py_print "</actions>" ;;
  py_print "</resource-agent>".

(** ** [show_docs] *)

Definition RELEASE_VERSION : string := "@RELEASE_VERSION@".

Definition default_docs : docs := Docs "" "Fence agent" None [] None.

(** [device_opt.remove("separator")] *)
Definition remove_separator {D} (device_opt : list string) : M D (list string) :=
  match py_remove "separator" device_opt with
  | Some l => opt_set "device_opt" (VList l) ;; mret l
  | None => raise (ValueError "list.remove(x): x not in list")
  end.

Definition show_docs {D} (prog : string) (set_order : list string → list string)
    (given_docs : option docs) : M D unit :=
  device_opt ← opt_list "device_opt";
  let doc := default default_docs given_docs in
  help ← opt_has "--help";
  mwhen help (usage prog device_opt ;; sys_exit 0) ;;
  action ← opt_find "--action";
  mwhen (bool_decide (action ∈ [Some (VStr "metadata"); Some (VStr "manpage")]))
    (let agent_name :=
       if decide (action = Some (VStr "metadata")) then basename prog
       else default (basename prog) (doc_agent_name doc) in
     device_opt ← (if py_in "port_as_ip" device_opt then remove_separator device_opt
                   else mret device_opt);
     metadata set_order device_opt doc agent_name ;;
     sys_exit 0) ;;
  version ← opt_has "--version";
  mwhen version (py_print RELEASE_VERSION ;; sys_exit 0).
