(* ===== verification/MetadataSpec.v ===== *)
(** * The metadata does not depend on the iteration order of sets

    [metadata] removes duplicates through a Python [set], whose iteration order differs
    between runs; sorting by order number and name hides it as long as no two listed
    names coincide. *)

From S2P Require Import Prelude PyStr PyRe Text OptionDefs Effects Fail Host Input CheckInput.
From S2P Require Import Metadata.
From stdpp Require Import sorting.

Local Open Scope string_scope.

(** ** Sorting *)

Section SortFacts.
Context {A : Type} (leb : A → A → bool).

Lemma insert_sorted_perm x l : insert_sorted leb x l ≡ₚ x :: l.
Proof.
  induction l as [|y l IH]; cbn; [done|]. destruct (leb x y); [done|]. rewrite IH. constructor.
Qed.

Lemma stable_sort_perm l : stable_sort leb l ≡ₚ l.
Proof. induction l as [|x l IH]; cbn; [done|]. by rewrite insert_sorted_perm, IH. Qed.

Context (Htot : ∀ x y, leb x y = true ∨ leb y x = true).
Context (Htrans : ∀ x y z, leb x y = true → leb y z = true → leb x z = true).

Lemma insert_sorted_sorted x l :
  StronglySorted (λ x y, leb x y = true) l →
  StronglySorted (λ x y, leb x y = true) (insert_sorted leb x l).
Proof.
  induction 1 as [|y l Hs IH Hall]; cbn; [repeat constructor|].
  destruct (leb x y) eqn:E.
  - constructor; [by constructor|]. constructor; [done|].
    eapply Forall_impl; [exact Hall|]. intros z Hz. by eapply Htrans.
  - constructor; [done|]. rewrite Forall_forall. intros z.
    rewrite insert_sorted_perm, elem_of_cons. rewrite Forall_forall in Hall.
    intros [->|Hz]; [|by apply Hall]. destruct (Htot x y); congruence.
Qed.

Lemma stable_sort_sorted l : StronglySorted (λ x y, leb x y = true) (stable_sort leb l).
Proof. induction l as [|x l IH]; cbn; [constructor|by apply insert_sorted_sorted]. Qed.

(** Sorting forgets the order of the input when the order separates its elements. *)
Lemma stable_sort_unique l k :
  (∀ x y, x ∈ l → y ∈ l → leb x y = true → leb y x = true → x = y) →
  l ≡ₚ k → stable_sort leb l = stable_sort leb k.
Proof.
  intros Hanti Hp. apply (StronglySorted_unique_strong (λ x y, leb x y = true)).
  - intros x y Hx Hy. rewrite stable_sort_perm in Hx, Hy. rewrite <- Hp in Hy. by apply Hanti.
  - apply stable_sort_sorted.
  - apply stable_sort_sorted.
  - by rewrite !stable_sort_perm.
Qed.
End SortFacts.

Lemma str_leb_total x y : str_leb x y = true ∨ str_leb y x = true.
Proof.
  revert y. induction x as [|c x IH]; intros [|d y]; cbn; auto.
  destruct (N.lt_trichotomy (code c) (code d)) as [H|[H|H]].
  - left. apply orb_true_iff. left. by apply N.ltb_lt.
  - rewrite H, N.ltb_irrefl, N.eqb_refl. cbn. apply IH.
  - right. apply orb_true_iff. left. by apply N.ltb_lt.
Qed.

Lemma str_leb_trans x y z : str_leb x y = true → str_leb y z = true → str_leb x z = true.
Proof.
  revert y z. induction x as [|c x IH]; intros [|d y] [|e z]; cbn; try done.
  rewrite !orb_true_iff, !andb_true_iff, !N.ltb_lt, !N.eqb_eq.
  intros [H1|[H1 H1']] [H2|[H2 H2']]; [left; lia..|].
  right. split; [lia|by eapply IH].
Qed.

Lemma str_leb_antisym x y : str_leb x y = true → str_leb y x = true → x = y.
Proof.
  revert y. induction x as [|c x IH]; intros [|d y]; cbn; try done.
  rewrite !orb_true_iff, !andb_true_iff, !N.ltb_lt, !N.eqb_eq.
  intros [H1|[H1 H1']] [H2|[H2 H2']]; [lia..|].
  f_equal; [|by apply IH]. apply (f_equal ascii_of_N) in H1. unfold code in H1.
  by rewrite !ascii_N_embedding in H1.
Qed.

Lemma order_key_total x y : order_key_leb x y = true ∨ order_key_leb y x = true.
Proof.
  unfold order_key_leb. rewrite !orb_true_iff, !andb_true_iff, !Z.ltb_lt, !Z.eqb_eq.
  destruct (str_leb_total x.1 y.1); destruct (Z.lt_trichotomy (od_order x.2) (od_order y.2))
    as [?|[?|?]]; auto.
Qed.

Lemma order_key_trans x y z :
  order_key_leb x y = true → order_key_leb y z = true → order_key_leb x z = true.
Proof.
  unfold order_key_leb. rewrite !orb_true_iff, !andb_true_iff, !Z.ltb_lt, !Z.eqb_eq.
  intros [?|[??]] [?|[??]]; [left; lia..|]. right. split; [lia|by eapply str_leb_trans].
Qed.

Lemma order_key_antisym x y :
  order_key_leb x y = true → order_key_leb y x = true → x.1 = y.1.
Proof.
  unfold order_key_leb. rewrite !orb_true_iff, !andb_true_iff, !Z.ltb_lt, !Z.eqb_eq.
  intros [?|[??]] [?|[??]]; [lia..|]. by apply str_leb_antisym.
Qed.

(** Lists of entries with different names. *)
Lemma names_unique (l : list entry) x y :
  NoDup l.*1 → x ∈ l → y ∈ l → x.1 = y.1 → x = y.
Proof.
  induction l as [|z l IH]; intros Hn Hx Hy E; [by apply not_elem_of_nil in Hx|].
  cbn in Hn. apply NoDup_cons in Hn as [Hz Hn].
  apply elem_of_cons in Hx as [->|Hx]; apply elem_of_cons in Hy as [->|Hy]; [done| | |auto].
  - destruct Hz. rewrite E. by apply list_elem_of_fmap_2.
  - destruct Hz. rewrite <- E. by apply list_elem_of_fmap_2.
Qed.

Lemma sort_entries_unique l k :
  NoDup l.*1 → l ≡ₚ k → stable_sort order_key_leb l = stable_sort order_key_leb k.
Proof.
  intros Hn. apply stable_sort_unique; [apply order_key_total|apply order_key_trans|].
  intros x y Hx Hy H1 H2. apply (names_unique l); [done..|]. by apply order_key_antisym.
Qed.

(** ** The entries *)

(** The definitions of the keys, and the renamed options. *)
Definition defined (table : gmap string optdef) (os : list string) : list entry :=
  omap (λ k, pair k <$> table !! k) os.

Definition listed_options (table : gmap string optdef) (os : list string) : list entry :=
  filter (λ kd, Is_true (with_longopt kd)) (defined table os).

Definition renamed_of (kd : entry) : option (string * string) :=
  let n := xml_name (default "" (od_longopt kd.2)) in
  if decide (kd.1 = n) then None else Some (n, kd.1).

(** Every name that the metadata lists: the keys, and the names made from long options. *)
Definition listed_names (table : gmap string optdef) (os : list string) : list string :=
  let l := listed_options table os in (l.*1 ++ (omap renamed_of l).*1)%list.

Lemma defined_perm table os os' : os ≡ₚ os' → defined table os ≡ₚ defined table os'.
Proof. intros Hp. unfold defined. by rewrite Hp. Qed.

Lemma listed_perm table os os' :
  os ≡ₚ os' → listed_options table os ≡ₚ listed_options table os'.
Proof. intros Hp. apply filter_Permutation. by apply defined_perm. Qed.

Lemma renamings_unique l : NoDup (omap renamed_of l).*1 → renamings l = omap renamed_of l.
Proof.
  unfold renamings. assert (∀ acc, NoDup (acc ++ omap renamed_of l)%list.*1 →
    foldl (λ m kd, let n := xml_name (default "" (od_longopt kd.2)) in
      if decide (kd.1 = n) then m else dict_insert n kd.1 m) acc l =
    (acc ++ omap renamed_of l)%list) as H; [|by intros Hn; apply (H [])].
  induction l as [|kd l IH]; intros acc Hn; cbn in *; [by rewrite app_nil_r|].
  destruct (renamed_of kd) as [[n k]|] eqn:E; unfold renamed_of in E; case_decide; simplify_eq;
    [|by apply IH].
  assert (xml_name (default "" (od_longopt kd.2)) ∉ acc.*1) as Hf.
  { rewrite fmap_app in Hn. apply NoDup_app in Hn as (_ & Hd & _). intros Hin.
    apply (Hd _ Hin). left. }
  rewrite dict_insert_fresh by done. rewrite IH; by rewrite <- app_assoc.
Qed.

Lemma dict_get_perm {A} (l l' : list (string * A)) k :
  NoDup l.*1 → l ≡ₚ l' → dict_get k l = dict_get k l'.
Proof.
  intros Hn Hp. induction Hp as [|[k1 v1] l l' Hp IH|[k1 v1] [k2 v2] l|l1 l2 l3 H1 IH1 H2 IH2];
    cbn in *; [done| | |].
  - apply NoDup_cons in Hn as [_ Hn]. by rewrite IH.
  - apply NoDup_cons in Hn as [Hk _]. apply not_elem_of_cons in Hk as [Hk _].
    repeat case_decide; congruence.
  - rewrite IH1 by done. apply IH2. by rewrite <- H1.
Qed.

Section Order.
Context {D : Type}.
Implicit Types s : st D.

Lemma allopt_get_eq k d s : s_allopt s !! k = Some d → allopt_get k s = (Ret d, s).
Proof. intros Hk. unfold allopt_get. by rewrite Hk. Qed.

(** Looking up the definition of each element of a list. *)
Lemma gather_eq {A C} (key : A → string) (g : A → optdef → C) l acc s :
  (∀ x, x ∈ l → is_Some (s_allopt s !! key x)) →
  mfold (λ acc x, d ← allopt_get (key x); mret (acc ++ [g x d])%list) acc l s =
  (Ret (acc ++ omap (λ x, g x <$> s_allopt s !! key x) l)%list, s).
Proof.
  revert acc. induction l as [|x l IH]; intros acc Hk; cbn [mfold omap list_omap].
  { by rewrite app_nil_r. }
  destruct (Hk x) as [d Hd]; [left|]. rewrite Hd. cbn [fmap option_fmap option_map].
  rewrite bind_assoc, (bind_Ret _ _ _ _ _ (allopt_get_eq _ _ _ Hd)).
  rewrite (bind_Ret _ _ _ _ _ (mret_eq _ _)), IH; [by rewrite <- app_assoc|].
  intros y Hy. apply Hk. by right.
Qed.

Lemma lookup_all_eq os s :
  (∀ k, k ∈ os → is_Some (s_allopt s !! k)) →
  lookup_all os s = (Ret (defined (s_allopt s) os), s).
Proof. apply (gather_eq (λ k, k) pair os []). Qed.

Lemma elem_of_defined table os kd : kd ∈ defined table os → kd.1 ∈ os ∧ table !! kd.1 = Some kd.2.
Proof.
  intros (k & Hk & Hd)%list_elem_of_omap. destruct (table !! k) eqn:E; [|done].
  cbn in Hd. by simplify_eq.
Qed.

Lemma renamed_keys table os p :
  p ∈ omap renamed_of (listed_options table os) → is_Some (table !! p.2).
Proof.
  intros (kd & [_ Hkd]%list_elem_of_filter & Hp)%list_elem_of_omap.
  apply elem_of_defined in Hkd as [_ Hkd]. unfold renamed_of in Hp.
  case_decide; simplify_eq. cbn. by rewrite Hkd.
Qed.

Definition renamed_entries (table : gmap string optdef) (os : list string) : list entry :=
  omap (λ p : string * string, pair p.1 <$> table !! p.2)
    (omap renamed_of (listed_options table os)).

Lemma metadata_entries_eq f os s :
  (∀ k, k ∈ os → is_Some (s_allopt s !! k)) → (∀ l, f l ≡ₚ l) →
  NoDup (listed_names (s_allopt s) (f (remove_dups os))) →
  metadata_entries f os s =
  (Ret (omap renamed_of (listed_options (s_allopt s) (f (remove_dups os))),
        stable_sort order_key_leb
          (listed_options (s_allopt s) (f (remove_dups os)) ++
           renamed_entries (s_allopt s) (f (remove_dups os)))), s).
Proof.
  intros Hk Hf Hn. unfold metadata_entries.
  assert (∀ k, k ∈ f (remove_dups os) → is_Some (s_allopt s !! k)) as Hk'.
  { intros k. rewrite Hf, elem_of_remove_dups. apply Hk. }
  rewrite (bind_Ret _ _ _ _ _ (lookup_all_eq _ _ Hk')).
  fold (listed_options (s_allopt s) (f (remove_dups os))). cbv zeta.
  unfold listed_names in Hn. apply NoDup_app in Hn as (_ & _ & Hn).
  rewrite renamings_unique by done.
  by rewrite (bind_Ret _ _ _ _ _ (gather_eq (λ p : string * string, p.2) (λ p, pair p.1) _ [] s
    (renamed_keys _ _))).
Qed.

Lemma mfor_ext {A} (f g : A → M D unit) l s :
  (∀ x s, f x s = g x s) → mfor l f s = mfor l g s.
Proof.
  intros H. revert s. induction l as [|x l IH]; intros s; [done|]. cbn [mfor].
  unfold mbind, M_bind. rewrite H. destruct (g x s) as [[]]; auto.
Qed.

Lemma print_parameter_ext m m' kd s :
  (∀ k, dict_get k m = dict_get k m') → print_parameter m kd s = print_parameter m' kd s.
Proof.
  intros H. destruct kd as [key d]. unfold print_parameter, xml_info. rewrite H. done.
Qed.

Lemma listed_names_perm table os os' :
  os ≡ₚ os' → listed_names table os ≡ₚ listed_names table os'.
Proof. intros Hp. unfold listed_names. by rewrite (listed_perm _ _ _ Hp). Qed.

Lemma renamed_entries_names table os :
  (renamed_entries table os).*1 = (omap renamed_of (listed_options table os)).*1.
Proof.
  unfold renamed_entries. pose proof (renamed_keys table os) as Hk. revert Hk.
  generalize (omap renamed_of (listed_options table os)) as l.
  induction l as [|p l IH]; intros Hk; cbn [omap list_omap]; [done|].
  destruct (Hk p) as [d Hd]; [left|]. rewrite Hd. cbn. rewrite IH; [done|].
  intros q Hq. apply Hk. by right.
Qed.

(** C26. The documentation an agent prints does not depend on the order in which Python
    iterates over the set of its options, as long as the names it lists are distinct. *)
Theorem metadata_order_independent f g os doc agent_name s :
  (∀ l, f l ≡ₚ l) → (∀ l, g l ≡ₚ l) →
  (∀ k, k ∈ os → is_Some (s_allopt s !! k)) →
  NoDup (listed_names (s_allopt s) (remove_dups os)) →
  metadata f os doc agent_name s = metadata g os doc agent_name s.
Proof.
  intros Hf Hg Hk Hn. assert (f (remove_dups os) ≡ₚ g (remove_dups os)) as Hp
    by by rewrite Hf, Hg.
  assert (NoDup (listed_names (s_allopt s) (f (remove_dups os)))) as Hnf
    by by rewrite (listed_names_perm _ _ _ (Hf _)).
  assert (NoDup (listed_names (s_allopt s) (g (remove_dups os)))) as Hng
    by by rewrite (listed_names_perm _ _ _ (Hg _)).
  unfold metadata.
  rewrite (bind_Ret _ _ _ _ _ (metadata_entries_eq f os s Hk Hf Hnf)),
    (bind_Ret _ _ _ _ _ (metadata_entries_eq g os s Hk Hg Hng)).
  rewrite (sort_entries_unique _
    (listed_options (s_allopt s) (g (remove_dups os)) ++
     renamed_entries (s_allopt s) (g (remove_dups os)))%list).
  - repeat (apply bind_ext; intros ???). apply bind_ext_l. apply mfor_ext.
    intros kd s'. apply print_parameter_ext. intros k. apply dict_get_perm.
    + unfold listed_names in Hnf. by apply NoDup_app in Hnf as (_ & _ & Hnf).
    + by rewrite (listed_perm _ _ _ Hp).
  - by rewrite fmap_app, renamed_entries_names.
  - unfold renamed_entries. by rewrite (listed_perm _ _ _ Hp).
Qed.
End Order.

(** Two options, one of which is renamed. *)
Definition two_options : st unit :=
  St {["--action" := VStr "metadata"]}
     (<["ipaddr" := opt [Getopt "a:"; Longopt "ip"; Help "-a, --ip=[ip]  Address"; Required "1"]]>
        {["port" := opt [Getopt "n:"; Longopt "port"; Help "-n, --port=[id]  Plug"; Required "1"]]})
     [] 0 tt.

Lemma metadata_order_independent_witness :
  metadata (λ l, l) ["ipaddr"; "port"; "ipaddr"] default_docs "fence_x" two_options =
  metadata (@rev string) ["ipaddr"; "port"; "ipaddr"] default_docs "fence_x" two_options.
Proof.
  apply metadata_order_independent; [done| | |].
  - intros l. symmetry. apply Permutation_rev.
  - intros k. rewrite !elem_of_cons, elem_of_nil. intros [->|[->|[->|[]]]]; eexists; vm_compute; reflexivity.
  - closed_dec.
Defined.
