(* ===== verification/CheckSpec.v ===== *)
(** * Defaults and validation

    What filling in the defaults and [_validate_input] do to the options. *)

From S2P Require Import Prelude PyStr OptionDefs Effects Fail Host Input CheckInput.

Local Open Scope string_scope.
Import Host.Mem.

(** ** Dependencies *)

(** No option that is added brings options of its own. *)
Lemma dependencies_are_leaves :
  forallb (λ kd, forallb (λ y, bool_decide (DEPENDENCY_OPT !! y = None)) kd.2)
    DEPENDENCY_OPT_list = true.
Proof. vm_compute. reflexivity. Qed.

(** No option is a dependency of two others, nor twice of one. *)
Lemma dependencies_disjoint : NoDup (DEPENDENCY_OPT_list ≫= snd).
Proof. closed_dec. Qed.

Lemma dependency_keys_unique : NoDup DEPENDENCY_OPT_list.*1.
Proof. closed_dec. Qed.

Lemma dependency_lookup o deps :
  DEPENDENCY_OPT !! o = Some deps ↔ (o, deps) ∈ DEPENDENCY_OPT_list.
Proof.
  unfold DEPENDENCY_OPT. symmetry. apply elem_of_list_to_map, dependency_keys_unique.
Qed.

Lemma dependency_is_leaf o deps y :
  DEPENDENCY_OPT !! o = Some deps → y ∈ deps → DEPENDENCY_OPT !! y = None.
Proof.
  intros Ho%dependency_lookup Hy. pose proof dependencies_are_leaves as Hl.
  rewrite forallb_forall in Hl. rewrite list_elem_of_In in Ho. specialize (Hl _ Ho).
  cbn in Hl. rewrite forallb_forall in Hl. rewrite list_elem_of_In in Hy.
  by specialize (Hl _ Hy); bool_hyps.
Qed.

Lemma elem_of_added y o :
  y ∈ added_by_dependency o ↔
  (y ∉ o) ∧ (∃ k deps, k ∈ (o ++ ["default"])%list ∧ DEPENDENCY_OPT !! k = Some deps ∧ y ∈ deps).
Proof.
  unfold added_by_dependency. rewrite list_elem_of_bind. unfold dependencies_of. split.
  - intros (k & Hy & Hk). destruct (DEPENDENCY_OPT !! k) as [deps|] eqn:E.
    + apply list_elem_of_filter in Hy as [Hc%py_count_zero Hy]. eauto 10.
    + by apply not_elem_of_nil in Hy.
  - intros (Hc & k & deps & Hk & E & Hy). exists k. rewrite E. split; [|done].
    apply list_elem_of_filter. split; [by apply py_count_zero|done].
Qed.

(** Adding dependencies is complete after one round: on the extended list there is
    nothing left to add. *)
Theorem dependencies_idempotent o :
  added_by_dependency (o ++ added_by_dependency o) = [].
Proof.
  destruct (added_by_dependency (o ++ added_by_dependency o)) as [|y l] eqn:E; [done|].
  assert (y ∈ added_by_dependency (o ++ added_by_dependency o)) as Hy by (rewrite E; left).
  apply elem_of_added in Hy as (Hn & k & deps & Hk & HD & Hy).
  rewrite not_elem_of_app in Hn. destruct Hn as [Hn1 Hn2]. exfalso.
  rewrite !elem_of_app in Hk. destruct Hk as [[Hk|Hk]|Hk].
  - apply Hn2, elem_of_added. split; [done|]. exists k, deps. rewrite elem_of_app. eauto.
  - apply elem_of_added in Hk as (_ & k' & deps' & _ & HD' & Hk).
    by rewrite (dependency_is_leaf _ _ _ HD' Hk) in HD.
  - apply Hn2, elem_of_added. split; [done|]. exists k, deps. rewrite elem_of_app. eauto.
Qed.

Lemma NoDup_bind_inv {A B} (l : list (A * list B)) x y b :
  NoDup (l ≫= snd) → x ∈ l → y ∈ l → b ∈ x.2 → b ∈ y.2 → x = y.
Proof.
  induction l as [|z l IH]; intros Hn Hx Hy Hbx Hby; [by apply not_elem_of_nil in Hx|].
  cbn in Hn. apply NoDup_app in Hn as (_ & Hd & Hn).
  apply elem_of_cons in Hx as [->|Hx]; apply elem_of_cons in Hy as [->|Hy]; [done| | |auto].
  - destruct (Hd b Hbx). apply list_elem_of_bind. eauto.
  - destruct (Hd b Hby). apply list_elem_of_bind. eauto.
Qed.

Lemma dependency_owner k1 k2 deps1 deps2 y :
  DEPENDENCY_OPT !! k1 = Some deps1 → DEPENDENCY_OPT !! k2 = Some deps2 →
  y ∈ deps1 → y ∈ deps2 → k1 = k2.
Proof.
  intros H1%dependency_lookup H2%dependency_lookup Hy1 Hy2.
  by pose proof (NoDup_bind_inv _ _ _ y dependencies_disjoint H1 H2 Hy1 Hy2); simplify_eq.
Qed.

Lemma dependencies_NoDup k deps : DEPENDENCY_OPT !! k = Some deps → NoDup deps.
Proof.
  intros H%dependency_lookup. pose proof dependencies_disjoint as Hn. revert H Hn.
  generalize DEPENDENCY_OPT_list as l. induction l as [|z l IH]; intros Hin Hn.
  - by apply not_elem_of_nil in Hin.
  - cbn in Hn. apply NoDup_app in Hn as (Hz & _ & Hn).
    by apply elem_of_cons in Hin as [<-|Hin]; [|apply IH].
Qed.

Lemma dependencies_of_elem o k y :
  y ∈ dependencies_of o k ↔ (y ∉ o) ∧ (∃ deps, DEPENDENCY_OPT !! k = Some deps ∧ y ∈ deps).
Proof.
  unfold dependencies_of. destruct (DEPENDENCY_OPT !! k) as [deps|].
  - rewrite list_elem_of_filter, py_count_zero. split.
    + intros [? ?]. eauto.
    + intros (? & d & Hd & ?). by simplify_eq.
  - split; [by intros ?%not_elem_of_nil|]. by intros (_ & d & ? & _).
Qed.

(** Options stay unique: extending a duplicate-free list of options (that does not
    name the pseudo-key "default") with its dependencies gives a duplicate-free list. *)
Theorem dependencies_unique o :
  NoDup o → "default" ∉ o → NoDup (o ++ added_by_dependency o).
Proof.
  intros Hn Hd. apply NoDup_app. split; [done|]. split.
  { intros y Hy Ha. by apply elem_of_added in Ha as [? _]. }
  assert (NoDup (o ++ ["default"])%list) as Hk.
  { apply NoDup_app. split; [done|]. split; [|apply NoDup_singleton].
    intros y Hy ->%list_elem_of_singleton. done. }
  unfold added_by_dependency. clear Hn Hd. revert Hk.
  generalize (o ++ ["default"])%list as ks. intros ks Hk.
  induction Hk as [|k ks Hni Hk IH]; cbn; [constructor|].
  apply NoDup_app. split; [|split; [|done]].
  - unfold dependencies_of. destruct (DEPENDENCY_OPT !! k) as [deps|] eqn:E; [|constructor].
    by eapply NoDup_filter, dependencies_NoDup.
  - intros y (_ & d1 & H1 & Hy1)%dependencies_of_elem Hy.
    apply list_elem_of_bind in Hy as (k2 & (_ & d2 & H2 & Hy2)%dependencies_of_elem & Hk2).
    by rewrite <- (dependency_owner _ _ _ _ _ H1 H2 Hy1 Hy2) in Hk2.
Qed.

Lemma dependencies_unique_witness :
  NoDup (["ipaddr"; "login"; "passwd"; "port"; "secure"] ++
         added_by_dependency ["ipaddr"; "login"; "passwd"; "port"; "secure"])%list.
Proof. apply dependencies_unique; closed_dec. Defined.

(** ** Default values *)

Section Defaults.
Context `{Host D}.
Implicit Types s : st D.

Lemma allopt_get_Ret_inv o s d s' :
  allopt_get o s = (Ret d, s') → s_allopt s !! o = Some d ∧ s' = s.
Proof. unfold allopt_get. destruct (s_allopt s !! o); naive_solver. Qed.

Lemma longopt_of_Ret_inv o s l s' :
  longopt_of o s = (Ret l, s') →
  (∃ d, s_allopt s !! o = Some d ∧ od_longopt d = Some l) ∧ s' = s.
Proof.
  intros (d & s1 & [Hd ->]%allopt_get_Ret_inv & H1)%bind_Ret_inv.
  destruct (od_longopt d) as [x|] eqn:E; minv H1. eauto.
Qed.

(** Keys that are set keep their values. *)
Definition grows (s s' : st D) : Prop := s_opts s ⊆ s_opts s'.

#[local] Instance grows_preorder : PreOrder grows.
Proof.
  unfold grows. split; [by intros s|]. intros s1 s2 s3. apply (map_subseteq_po (A := pyval)).
Qed.

Lemma opt_set_fresh_grows k v s : s_opts s !! k = None → grows s (opt_set k v s).2.
Proof. intros Hk. by apply insert_subseteq. Qed.

Lemma set_option_default_grows o : keeps grows (set_option_default o).
Proof.
  intros s. unfold set_option_default, longopt_of, allopt_get, mbind, M_bind.
  destruct (s_allopt s !! o) as [d|] eqn:Hd; [|reflexivity]. cbn.
  destruct (od_default d) as [v|]; [|reflexivity]. case_decide; [reflexivity|]. rewrite Hd.
  destruct (od_longopt d) as [l|]; [|reflexivity]. cbn.
  case_bool_decide as Hl; [reflexivity|].
  apply opt_set_fresh_grows. by apply eq_None_not_Some.
Qed.

Lemma set_option_default_fills o s u s' d v l :
  s_allopt s !! o = Some d → od_default d = Some v → od_longopt d = Some l → o ≠ "ipport" →
  set_option_default o s = (Ret u, s') →
  s_opts s' !! ("--" +:+ l) = Some (default v (s_opts s !! ("--" +:+ l))).
Proof.
  intros Hd Hv Hl Ho Hr. unfold set_option_default in Hr.
  apply bind_Ret_inv in Hr as (d' & s1 & [Hd' ->]%allopt_get_Ret_inv & Hr). simplify_eq.
  rewrite Hv, decide_False in Hr by done.
  apply bind_Ret_inv in Hr as (l' & s1 & [(d2 & ? & ?) ->]%longopt_of_Ret_inv & Hr).
  simplify_eq. apply bind_Ret_inv in Hr as (b & s1 & Hb & Hr). minv Hb.
  case_bool_decide as Hs.
  - minv Hr. by destruct Hs as [x ->].
  - minv Hr. cbn. rewrite lookup_insert_eq. by apply eq_None_not_Some in Hs as ->.
Qed.

(** Filling in the default of one option touches at most its own key. *)
Lemma set_option_default_frame o s u s' :
  set_option_default o s = (Ret u, s') →
  s_allopt s' = s_allopt s ∧
  ∀ k, (∀ d l, s_allopt s !! o = Some d → od_longopt d = Some l → k ≠ "--" +:+ l) →
       s_opts s' !! k = s_opts s !! k.
Proof.
  intros (d & s1 & [Hd ->]%allopt_get_Ret_inv & Hr)%bind_Ret_inv.
  destruct (od_default d) as [v|]; [|minv Hr; done]. case_decide; [minv Hr; done|].
  apply bind_Ret_inv in Hr as (l & s1 & [(d2 & ? & Hl) ->]%longopt_of_Ret_inv & Hr).
  simplify_eq. apply bind_Ret_inv in Hr as (b & s1 & Hb & Hr). minv Hb.
  case_bool_decide; minv Hr; cbn; (split; [done|]); [done|].
  intros k Hk. apply lookup_insert_ne. by apply not_eq_sym, (Hk d).
Qed.

Definition long_name_in (allopt : gmap string optdef) (o : string) : option string :=
  allopt !! o ≫= od_longopt.

Definition long_names_unique (allopt : gmap string optdef) (device_opt : list string) : Prop :=
  ∀ o1 o2 l, o1 ∈ device_opt → o2 ∈ device_opt →
    long_name_in allopt o1 = Some l → long_name_in allopt o2 = Some l → o1 = o2.

Lemma option_defaults_fill os s u s' o d v l :
  long_names_unique (s_allopt s) os → o ∈ os → o ≠ "ipport" →
  s_allopt s !! o = Some d → od_default d = Some v → od_longopt d = Some l →
  mfor os set_option_default s = (Ret u, s') →
  s_opts s' !! ("--" +:+ l) = Some (default v (s_opts s !! ("--" +:+ l))).
Proof.
  intros Hu Ho Hne Hd Hv Hl. revert s Hu Hd. induction os as [|o' os IH]; intros s Hu Hd.
  { by apply not_elem_of_nil in Ho. }
  intros (u1 & s1 & H1 & H2)%mfor_cons_Ret_inv.
  destruct (set_option_default_frame _ _ _ _ H1) as [Ha Hf].
  pose proof (keeps_mfor grows os _ set_option_default_grows s1) as Hg. rewrite H2 in Hg.
  destruct (decide (o' = o)) as [->|Hoo].
  - by apply (lookup_weaken _ _ _ _ (set_option_default_fills _ _ _ _ _ _ _ Hd Hv Hl Hne H1)).
  - assert (o ∈ os) as Ho' by (apply elem_of_cons in Ho as [->|?]; done).
    rewrite (IH Ho' s1); [| |by rewrite Ha|done].
    + rewrite Hf; [done|]. intros d' l' Hd' Hl' Heq. apply Hoo.
      assert (l' = l) as -> by (injection Heq as Heq; exact (eq_sym Heq)).
      unfold long_names_unique, long_name_in in Hu.
      apply (Hu o' o l); [left|by right| |]; [by rewrite Hd'|by rewrite Hd].
    + rewrite Ha. intros o1 o2 l0 ? ?. apply Hu; by right.
Qed.

Lemma allopt_default_reads o s : (allopt_default o s).2 = s.
Proof.
  revert s. apply bind_reads; [|done]. intros s. unfold allopt_get.
  by destruct (s_allopt s !! o).
Qed.

Lemma opt_or_default_on_reads k o s : (opt_or_default_on k o s).2 = s.
Proof.
  revert s. apply bind_reads; [done|]. intros [] s; [done|]. revert s.
  by apply bind_reads; [apply allopt_default_reads|].
Qed.

Lemma default_ipport_reads device_opt s : (default_ipport device_opt s).2 = s.
Proof.
  revert s. apply bind_reads; [apply allopt_default_reads|].
  intros [v|] s; [done|]. destruct (py_in "community" device_opt); [done|]. revert s.
  repeat (apply bind_reads; [apply opt_or_default_on_reads|intros [] s; [done|]; revert s]).
  intros s. destruct (py_in "web" device_opt); [done|]. by destruct (py_in "telnet" device_opt).
Qed.

Lemma set_ipport_default_frame device_opt s u s' :
  set_ipport_default device_opt s = (Ret u, s') →
  (∀ k v, s_opts s !! k = Some v → s_opts s' !! k = Some v) ∧
  (∀ k, k ≠ "--ipport" → s_opts s' !! k = s_opts s !! k) ∧
  (∀ o, o ≠ "ipport" → s_allopt s' !! o = s_allopt s !! o) ∧
  ∀ o, long_name_in (s_allopt s') o = long_name_in (s_allopt s) o.
Proof.
  unfold set_ipport_default. intros (b & s1 & Hb & Hr)%bind_Ret_inv. minv Hb.
  case_bool_decide as Hg; [minv Hr; by eauto 10|].
  apply bind_Ret_inv in Hr as (p & s1 & Hp & Hr).
  pose proof (default_ipport_reads device_opt s) as Hs. rewrite Hp in Hs. cbn in Hs. subst s1.
  destruct p as [v|]; [|minv Hr; by eauto 10]. unfold allopt_set in Hr.
  minv Hr. cbn. repeat split.
  - intros k x Hk. destruct (decide (k = "--ipport")) as [->|].
    + by rewrite Hk in Hg; destruct Hg; eexists.
    + by rewrite lookup_insert_ne.
  - intros k Hk. by apply lookup_insert_ne.
  - intros o Ho. by apply lookup_alter_ne.
  - intros o. unfold long_name_in, opt_update. destruct (decide (o = "ipport")) as [->|].
    + rewrite lookup_alter_eq. destruct (s_allopt s !! "ipport") as [d|]; [by destruct d|done].
    + by rewrite lookup_alter_ne.
Qed.

(** What was given stays as it was. *)
Lemma set_default_values_grows s u s' k v :
  set_default_values s = (Ret u, s') → s_opts s !! k = Some v → s_opts s' !! k = Some v.
Proof.
  intros (os & s1 & [Hos ->]%opt_list_Ret_inv & Hr)%bind_Ret_inv.
  apply bind_Ret_inv in Hr as (u1 & s1 & H1 & H2). intros Hk.
  assert (s_opts s1 !! k = Some v) as Hk1.
  { apply mwhen_Ret_inv in H1 as [[_ H1]|[_ ->]]; [|done].
    by apply set_ipport_default_frame in H1 as [Hg _]; apply Hg. }
  pose proof (keeps_mfor grows os _ set_option_default_grows s1) as Hgr.
  rewrite H2 in Hgr. by apply (lookup_weaken _ _ _ _ Hk1).
Qed.

(** C22. Defaults: filling in the defaults leaves every option that was given as it was,
    and every available option with a default and a long name (the port of the device,
    which has rules of its own, apart) ends with the value given or else the default. *)
Theorem defaults_filled s u s' :
  set_default_values s = (Ret u, s') →
  (∀ k v, s_opts s !! k = Some v → s_opts s' !! k = Some v) ∧
  ∃ device_opt, s_opts s !! "device_opt" = Some (VList device_opt) ∧
  ∀ o d v l,
    long_names_unique (s_allopt s) device_opt → o ∈ device_opt → o ≠ "ipport" →
    s_allopt s !! o = Some d → od_default d = Some v → od_longopt d = Some l →
    l ≠ "ipport" →
    s_opts s' !! ("--" +:+ l) = Some (default v (s_opts s !! ("--" +:+ l))).
Proof.
  intros Hrun. split; [by intros; eapply set_default_values_grows|]. revert Hrun.
  intros (os & s1 & [Hos ->]%opt_list_Ret_inv & Hr)%bind_Ret_inv.
  apply bind_Ret_inv in Hr as (u1 & s1 & H1 & H2).
  assert ((∀ k v, s_opts s !! k = Some v → s_opts s1 !! k = Some v) ∧
    (∀ k, k ≠ "--ipport" → s_opts s1 !! k = s_opts s !! k) ∧
    (∀ o, o ≠ "ipport" → s_allopt s1 !! o = s_allopt s !! o) ∧
    ∀ o, long_name_in (s_allopt s1) o = long_name_in (s_allopt s) o) as (Hg & Hf & Ha & Hn).
  { apply mwhen_Ret_inv in H1 as [[_ H1]|[_ ->]]; [by eapply set_ipport_default_frame|].
    by eauto 10. }
  exists os. split; [done|]. intros o d v l Hu Ho Hne Hd Hv Hl Hlne.
  rewrite (option_defaults_fill os s1 u s' o d v l); try done.
  - rewrite Hf; [done|]. intros Hk. apply Hlne. injection Hk as Hk. exact Hk.
  - intros o1 o2 l0 ? ?. rewrite !Hn. by apply Hu.
  - by rewrite Ha.
Qed.

End Defaults.

(** A state with two available options: a timeout that is not given, and one that is. *)
Definition two_timeouts : st Mem.host :=
  St (<["--power-timeout" := VStr "60"]>
        {["device_opt" := VList ["login_timeout"; "power_timeout"]]})
     (<["power_timeout" := opt [Longopt "power-timeout"; Default (VStr "20")]]>
        {["login_timeout" := opt [Longopt "login-timeout"; Default (VStr "5")]]})
     [] 0 Mem.empty.

Lemma defaults_filled_witness :
  ∃ s', set_default_values two_timeouts = (Ret tt, s') ∧
        s_opts s' !! "--power-timeout" = Some (VStr "60") ∧
        s_opts s' !! "--login-timeout" = Some (VStr "5").
Proof.
  assert (set_default_values two_timeouts = (Ret tt, (set_default_values two_timeouts).2))
    as Hr by (vm_compute; reflexivity).
  destruct (defaults_filled _ _ _ Hr) as (Hg & os & Hos & Hd). exists (set_default_values two_timeouts).2.
  split; [exact Hr|]. split.
  - apply Hg. vm_compute. reflexivity.
  - assert (os = ["login_timeout"; "power_timeout"]) as -> by (vm_compute in Hos; congruence).
    etransitivity; [|vm_compute; reflexivity].
    apply (Hd "login_timeout" (opt [Longopt "login-timeout"; Default (VStr "5")]) (VStr "5")
             "login-timeout");
      [|closed_dec|closed_dec|vm_compute; reflexivity|reflexivity|reflexivity|closed_dec].
    intros o1 o2 l H1 H2. revert H1 H2. rewrite !elem_of_cons, !elem_of_nil.
    intros [->|[->|[]]] [->|[->|[]]]; vm_compute; congruence.
Defined.

(** * What [_validate_input] accepts

    The function reports every violated condition and remembers whether there was one:
    its result is the conjunction of the conditions, and with [stop] set a violation ends
    the run. *)

Section Validate.
Context `{Host D}.
Implicit Types s : st D.

(** Conditions on the options that are there. *)
(** The value of an option with choices is one of them, in any case of letters. *)
Definition choice_ok (s : st D) (o : string) : Prop :=
  ∀ d choices l x, s_allopt s !! o = Some d → od_choices d = Some choices →
    od_longopt d = Some l → s_opts s !! ("--" +:+ l) = Some (VStr x) →
    upper x ∈ upper <$> choices.

(** The value of a numeric option is a number. *)
Definition number_ok (s : st D) (o : string) : Prop :=
  ∀ d t l v, s_allopt s !! o = Some d → od_type d = Some t → t ∈ ["integer"; "second"] →
    od_longopt d = Some l → s_opts s !! ("--" +:+ l) = Some v →
    ∃ n, py_int v = inl n.

(** The same state but for messages and the case of option values. *)
Definition upcased (s s' : st D) : Prop :=
  s_allopt s' = s_allopt s ∧ s_dev s' = s_dev s ∧
  ∀ k, s_opts s' !! k = s_opts s !! k ∨
       ∃ x, s_opts s !! k = Some (VStr x) ∧ s_opts s' !! k = Some (VStr (upper x)).

#[local] Instance upcased_preorder : PreOrder upcased.
Proof.
  split; [intros s; by repeat split; auto|].
  intros s1 s2 s3 (Ha & Hd & H1) (Ha' & Hd' & H2). split; [congruence|]. split; [congruence|].
  intros k. destruct (H1 k) as [E1|(x & E1 & E2)], (H2 k) as [E3|(y & E3 & E4)].
  - left. congruence.
  - right. exists y. split; congruence.
  - right. exists x. split; congruence.
  - right. exists x. split; [done|]. assert (y = upper x) as -> by congruence.
    by rewrite upper_idem in E4.
Qed.

Lemma same_opts_upcased s s' :
  s_allopt s' = s_allopt s → s_dev s' = s_dev s → s_opts s' = s_opts s → upcased s s'.
Proof. intros ?? E. repeat split; [done|done|]. intros k. rewrite E. by left. Qed.

Lemma choice_ok_upcased s s' o : upcased s s' → choice_ok s' o ↔ choice_ok s o.
Proof.
  intros (Ha & _ & Hk). unfold choice_ok. rewrite Ha. split; intros Hc d ch l x ????.
  - destruct (Hk ("--" +:+ l)) as [E|(y & E1 & E2)].
    + apply (Hc d ch l); congruence.
    + assert (y = x) as -> by congruence. rewrite <- (upper_idem x).
      by apply (Hc d ch l).
  - destruct (Hk ("--" +:+ l)) as [E|(y & E1 & E2)].
    + apply (Hc d ch l); congruence.
    + assert (x = upper y) as -> by congruence. rewrite upper_idem. by apply (Hc d ch l).
Qed.

(** ** The steps of the validation *)

Lemma complain_if_Ret_inv stop bad msg v s r s' :
  complain_if stop bad msg v s = (Ret r, s') →
  r = v && negb bad ∧ (stop = true → bad = false) ∧
  s_opts s' = s_opts s ∧ s_allopt s' = s_allopt s ∧ s_dev s' = s_dev s.
Proof.
  destruct bad; cbn.
  - unfold fail_usage. intros (u & s1 & Hu & Hr)%bind_Ret_inv. minv Hr.
    rewrite andb_comm. split; [done|].
    apply bind_Ret_inv in Hu as (u1 & s2 & H1 & H2).
    assert (s_opts s2 = s_opts s ∧ s_allopt s2 = s_allopt s ∧ s_dev s2 = s_dev s) as Hs.
    { apply mwhen_Ret_inv in H1 as [[_ H1]|[_ ->]]; [by minv H1|done]. }
    apply mwhen_Ret_inv in H2 as [[_ H2]|[-> ->]]; [by minv H2|]. by split.
  - intros Hr. minv Hr. by rewrite andb_true_r.
Qed.

Lemma check_choice_Ret_inv failed o s r s' :
  check_choice failed o s = (Ret r, s') →
  upcased s s' ∧ (choice_ok s o ∧ r = failed ∨ (¬ choice_ok s o) ∧ r = failed ++ [o])%list.
Proof.
  unfold check_choice. intros (d & s1 & [Hd ->]%allopt_get_Ret_inv & Hr)%bind_Ret_inv.
  destruct (od_choices d) as [choices|] eqn:Hc.
  2: { minv Hr. split; [reflexivity|]. left. split; [|done]. intros d' ch l x. congruence. }
  apply bind_Ret_inv in Hr as (l & s1 & [(d2 & Hd2 & Hl) ->]%longopt_of_Ret_inv & Hr).
  simplify_eq. apply bind_Ret_inv in Hr as (v & s1 & Hv & Hr). minv Hv.
  destruct (s_opts s !! ("--" +:+ l)) as [v|] eqn:Hk.
  2: { minv Hr. split; [reflexivity|]. left. split; [|done]. intros d' ch l' x. congruence. }
  apply bind_Ret_inv in Hr as (x & s1 & [-> ->]%as_str_Ret_inv & Hr). minv Hr.
  split.
  - repeat split. intros k. cbn. destruct (decide (k = "--" +:+ l)) as [->|].
    + rewrite lookup_insert_eq. eauto.
    + left. by apply lookup_insert_ne.
  - case_bool_decide as Hin; [left|right]; (split; [|done]).
    + intros d' ch l' x'. congruence.
    + intros Hok. by apply Hin, (Hok d choices l x).
Qed.

Lemma choices_Ret_inv os failed s r s' :
  mfold check_choice failed os s = (Ret r, s') →
  upcased s s' ∧ (r = [] ↔ failed = [] ∧ Forall (choice_ok s) os).
Proof.
  revert failed s. induction os as [|o os IH]; intros failed s.
  { intros [= <- <-]. split; [reflexivity|]. split; [by split; [|constructor]|by intros []]. }
  intros (r1 & s1 & [Hu Hc]%check_choice_Ret_inv & H2)%mfold_cons_Ret_inv.
  apply IH in H2 as [Hu2 Hr]. split; [by etrans|].
  rewrite Hr, Forall_cons.
  assert (Forall (choice_ok s1) os ↔ Forall (choice_ok s) os) as ->.
  { apply Forall_proper; [|done]. intros x. by apply choice_ok_upcased. }
  destruct Hc as [[Hok ->]|[Hok ->]]; [tauto|]. split; [|tauto].
  intros [E _]. by destruct failed.
Qed.

(** The two steps that follow only look at the options. *)
Lemma check_type_Ret_inv failed o s r s' :
  check_type failed o s = (Ret r, s') →
  s' = s ∧ (number_ok s o ∧ r = failed ∨ (¬ number_ok s o) ∧ r = failed ++ [o])%list.
Proof.
  unfold check_type. intros (d & s1 & [Hd ->]%allopt_get_Ret_inv & Hr)%bind_Ret_inv.
  destruct (od_type d) as [t|] eqn:Ht.
  2: { minv Hr. split; [done|]. left. split; [|done]. intros d' t l v. congruence. }
  apply bind_Ret_inv in Hr as (l & s1 & [(d2 & Hd2 & Hl) ->]%longopt_of_Ret_inv & Hr).
  simplify_eq. apply bind_Ret_inv in Hr as (v & s1 & Hv & Hr). minv Hv.
  destruct (s_opts s !! ("--" +:+ l)) as [v|] eqn:Hk.
  2: { minv Hr. split; [done|]. left. split; [|done]. intros d' t' l' x. congruence. }
  case_bool_decide as Hin.
  2: { minv Hr. split; [done|]. left. split; [|done]. intros d' t' l' x ?? Ht'. congruence. }
  destruct (py_int v) as [n|e] eqn:Hp.
  { minv Hr. split; [done|]. left. split; [|done]. intros d' t' l' x ?????. exists n. congruence. }
  destruct e; minv Hr. split; [done|]. right. split; [|done]. intros Hok.
  destruct (Hok d t l v) as [n Hn]; congruence.
Qed.

Lemma types_Ret_inv os failed s r s' :
  mfold check_type failed os s = (Ret r, s') →
  s' = s ∧ (r = [] ↔ failed = [] ∧ Forall (number_ok s) os).
Proof.
  revert failed. induction os as [|o os IH]; intros failed.
  { intros [= <- <-]. split; [done|]. split; [by split; [|constructor]|by intros []]. }
  intros (r1 & s1 & [-> Hc]%check_type_Ret_inv & H2)%mfold_cons_Ret_inv.
  apply IH in H2 as [-> Hr]. split; [done|]. rewrite Hr, Forall_cons.
  destruct Hc as [[Hok ->]|[Hok ->]]; [tauto|]. split; [|tauto].
  intros [E _]. by destruct failed.
Qed.

(** Reporting leaves the options as they are. *)
Definition same_but_messages (s s' : st D) : Prop :=
  s_opts s' = s_opts s ∧ s_allopt s' = s_allopt s ∧ s_dev s' = s_dev s.

Lemma complain_about_Ret_inv message stop failed v s r s' :
  (∀ o s, (message o s).2 = s) →
  complain_about message stop v failed s = (Ret r, s') →
  r = v && bool_decide (failed = []) ∧ (stop = true → failed = []) ∧ same_but_messages s s'.
Proof.
  intros Hm. unfold complain_about. revert v s. induction failed as [|o os IH]; intros v s.
  { intros [= <- <-]. rewrite bool_decide_true, andb_true_r by done. by repeat split. }
  intros (r1 & s1 & (m & s2 & Hmsg & Hc)%bind_Ret_inv & H2)%mfold_cons_Ret_inv.
  pose proof (Hm o s) as Hs. rewrite Hmsg in Hs. cbn in Hs. subst s2.
  apply complain_if_Ret_inv in Hc as (-> & Hstop & Hs).
  apply IH in H2 as (-> & _ & Hs2). destruct Hs as (?&?&?), Hs2 as (?&?&?).
  rewrite andb_false_r. cbn. split; [by rewrite andb_false_r|]. split.
  - intros ?%Hstop. done.
  - repeat split; congruence.
Qed.

Lemma invalid_choice_message_reads o s : (invalid_choice_message o s).2 = s.
Proof.
  unfold invalid_choice_message, longopt_of, allopt_get, mbind, M_bind.
  destruct (s_allopt s !! o) as [d|] eqn:E; [|done]. rewrite E. by destruct (od_longopt d).
Qed.

Lemma invalid_type_message_reads o s : (invalid_type_message o s).2 = s.
Proof.
  unfold invalid_type_message, longopt_of, allopt_get, mbind, M_bind.
  destruct (s_allopt s !! o) as [d|] eqn:E; [|done]. rewrite E. by destruct (od_longopt d).
Qed.

(** The identity file, when one is given, is a file. *)
Definition identity_file_ok (s : st D) : Prop :=
  given s "--identity-file" = true →
  ∃ f, s_opts s !! "--identity-file" = Some (VStr f) ∧ h_isfile (s_dev s) f = true.

(** Everything [_validate_input] asks of the options. *)
Record acceptable (os : list string) (s : st D) : Prop := Acceptable {
  acc_login : login_missing os (given s) = false;
  acc_address : address_missing os (given s) = false;
  acc_password : password_missing os (given s) = None;
  acc_identity : identity_without_ssh (given s) = false;
  acc_identity_file : identity_file_ok s;
  acc_plug : ∃ action, s_opts s !! "--action" = Some action ∧
                       plug_missing os (given s) action = false;
  acc_choices : Forall (choice_ok s) os
}.

Lemma same_but_messages_upcased s s' : same_but_messages s s' → upcased s s'.
Proof. intros (?&?&?). by apply same_opts_upcased. Qed.

Lemma given_same s s' : same_but_messages s s' → given s' = given s.
Proof. intros (E&_&_). unfold given. by rewrite E. Qed.

Lemma upcased_list s s' k l :
  upcased s s' → s_opts s' !! k = Some (VList l) ↔ s_opts s !! k = Some (VList l).
Proof.
  intros (_ & _ & Hk). destruct (Hk k) as [->|(x & -> & ->)]; [done|]. by split.
Qed.

#[local] Instance same_but_messages_preorder : PreOrder same_but_messages.
Proof.
  split; [by repeat split|]. intros s1 s2 s3 (?&?&?) (?&?&?). repeat split; congruence.
Qed.

Lemma acceptable_identity_same s s' :
  same_but_messages s s' → identity_file_ok s' ↔ identity_file_ok s.
Proof. intros (E1 & _ & E2). unfold identity_file_ok, given. by rewrite E1, E2. Qed.

Lemma choices_same os s s' :
  same_but_messages s s' → Forall (choice_ok s') os ↔ Forall (choice_ok s) os.
Proof.
  intros Hs. apply Forall_proper; [|done]. intros o.
  by apply choice_ok_upcased, same_but_messages_upcased.
Qed.

Lemma validate_access_Ret_inv stop os s r s' :
  validate_access stop os s = (Ret r, s') →
  same_but_messages s s' ∧ (stop = true → r = true) ∧
  (r = true ↔ login_missing os (given s) = false ∧ address_missing os (given s) = false ∧
     password_missing os (given s) = None ∧ identity_without_ssh (given s) = false).
Proof.
  intros (x & s0 & Hx & Hr)%bind_Ret_inv. injection Hx as <- <-.
  apply bind_Ret_inv in Hr as (v1 & s1 & (-> & H1 & Hs1)%complain_if_Ret_inv & Hr).
  apply bind_Ret_inv in Hr as (v2 & s2 & (-> & H2 & Hs2)%complain_if_Ret_inv & Hr).
  apply bind_Ret_inv in Hr as (v3 & s3 & (-> & H3 & Hs3)%complain_if_Ret_inv & Hr).
  apply complain_if_Ret_inv in Hr as (-> & H4 & Hs4).
  split; [by etrans; [exact Hs1|]; etrans; [exact Hs2|]; etrans; [exact Hs3|]|].
  split; [intros E; rewrite H1, H2, H3, H4 by done; done|].
  rewrite !andb_true_iff, !negb_true_iff, bool_decide_eq_false, <- eq_None_not_Some. tauto.
Qed.

Lemma validate_identity_file_Ret_inv stop v s r s' :
  validate_identity_file stop v s = (Ret r, s') →
  same_but_messages s s' ∧ (stop = true → v = true → r = true) ∧
  (r = true ↔ v = true ∧ identity_file_ok s).
Proof.
  unfold identity_file_ok, given. intros (b & s0 & Hb & Hr)%bind_Ret_inv. minv Hb.
  case_bool_decide as Hg.
  - apply bind_Ret_inv in Hr as (f & s1 & [Hf ->]%opt_str_Ret_inv & Hr).
    apply bind_Ret_inv in Hr as (b & s1 & Hb & Hr). injection Hb as <- <-.
    apply complain_if_Ret_inv in Hr as (-> & Hstop & Hs). split; [done|].
    rewrite negb_involutive in *. rewrite andb_true_iff. split.
    + intros E%Hstop ->. by apply negb_false_iff in E as ->.
    + split; [|intros [-> Hi]; split; [done|]].
      * intros [-> Hi]. eauto.
      * destruct Hi as (f' & ? & ?); [done|congruence].
  - minv Hr. split; [reflexivity|]. split; [done|]. by split; [|intros []].
Qed.

Lemma validate_plug_Ret_inv stop os v s r s' :
  validate_plug stop os v s = (Ret r, s') →
  same_but_messages s s' ∧ (stop = true → v = true → r = true) ∧
  ∃ action, s_opts s !! "--action" = Some action ∧
    (r = true ↔ v = true ∧ plug_missing os (given s) action = false).
Proof.
  intros (a & s1 & [Ha ->]%opt_get_Ret_inv & Hr)%bind_Ret_inv.
  apply bind_Ret_inv in Hr as (x & s1 & Hx & Hr). injection Hx as <- <-.
  apply complain_if_Ret_inv in Hr as (-> & Hstop & Hs). split; [done|].
  split; [intros E ->; by rewrite (Hstop E)|]. exists a. by rewrite andb_true_iff, negb_true_iff.
Qed.

Lemma validate_values_Ret_inv stop os v s r s' :
  s_opts s !! "device_opt" = Some (VList os) →
  validate_values stop v s = (Ret r, s') →
  upcased s s' ∧ (stop = true → v = true → r = true) ∧
  (r = true ↔ v = true ∧ Forall (choice_ok s) os ∧ Forall (number_ok s') os).
Proof.
  intros Hos (bad & s1 & H1 & Hr)%bind_Ret_inv.
  apply bind_Ret_inv in H1 as (l & s0 & [Hl ->]%opt_list_Ret_inv & [Hu1 Hbad]%choices_Ret_inv).
  assert (l = os) as -> by congruence.
  apply bind_Ret_inv in Hr as (v2 & s2 & (-> & Hst2 & Hs2)%complain_about_Ret_inv & Hr);
    [|apply invalid_choice_message_reads].
  apply bind_Ret_inv in Hr as (bad2 & s3 & H3 & Hr).
  apply bind_Ret_inv in H3 as (l & s0 & [Hl2 ->]%opt_list_Ret_inv & [-> Hbad2]%types_Ret_inv).
  assert (upcased s s2) as Hu2 by (etrans; [exact Hu1|by apply same_but_messages_upcased]).
  assert (l = os) as -> by (apply (upcased_list _ _ _ _ Hu2) in Hl2; congruence).
  apply complain_about_Ret_inv in Hr as (-> & Hst3 & Hs3); [|apply invalid_type_message_reads].
  split; [by etrans; [exact Hu2|apply same_but_messages_upcased]|].
  split; [intros E ->; by rewrite Hst2, Hst3|].
  assert (Forall (number_ok s') os ↔ Forall (number_ok s2) os) as ->.
  { destruct Hs3 as (E1 & E2 & _). apply Forall_proper; [|done]. intros o.
    unfold number_ok. by rewrite E1, E2. }
  rewrite !andb_true_iff, !bool_decide_eq_true, Hbad, Hbad2. tauto.
Qed.

Lemma validate_input_Ret_inv stop os s v s' :
  s_opts s !! "device_opt" = Some (VList os) →
  validate_input stop s = (Ret v, s') →
  upcased s s' ∧ (v = true ↔ acceptable os s ∧ Forall (number_ok s') os) ∧
  (stop = true → v = true).
Proof.
  intros Hos (l & s0 & [Hl ->]%opt_list_Ret_inv & Hr)%bind_Ret_inv.
  assert (l = os) as -> by congruence. clear Hl.
  apply bind_Ret_inv in Hr as (v1 & s1 & (Hs1 & Hst1 & H1)%validate_access_Ret_inv & Hr).
  apply bind_Ret_inv in Hr as (v2 & s2 & (Hs2 & Hst2 & H2)%validate_identity_file_Ret_inv & Hr).
  apply bind_Ret_inv in Hr as (v3 & s3 & (Hs3 & Hst3 & a & Ha & H3)%validate_plug_Ret_inv & Hr).
  assert (same_but_messages s s2) as Hs by (by etrans).
  assert (same_but_messages s s3) as Hs' by (by etrans).
  apply (validate_values_Ret_inv stop os) in Hr as (Hu & Hst4 & H4);
    [|by destruct Hs' as [-> _]].
  split; [by etrans; [apply same_but_messages_upcased, Hs'|]|]. split; [|by auto].
  rewrite H4, H3, H2, H1, (acceptable_identity_same s s1), (given_same s s2), (choices_same os s s3)
    by done.
  rewrite (proj1 Hs) in Ha. split.
  - intros ((((?&?&?&?)&?)&?)&?&?). split; [|done]. constructor; eauto.
  - intros ([? ? ? ? ? (a' & ? & ?) ?] & ?). assert (a' = a) as -> by congruence. auto 10.
Qed.

(** C24. Validation reports exactly the violated conditions: it returns true if and only
    if every condition holds, ends the run instead of returning false when it was asked to
    stop, and changes options at most to the upper case of their value. *)
Theorem validate_input_spec stop os s v s' :
  s_opts s !! "device_opt" = Some (VList os) →
  validate_input stop s = (Ret v, s') →
  upcased s s' ∧ (v = true ↔ acceptable os s ∧ Forall (number_ok s') os) ∧
  (stop = true → v = true).
Proof. apply validate_input_Ret_inv. Qed.

(** The action validate-all never goes on to fence: once the conditions have been
    evaluated the run ends, with status 0 exactly when all of them hold and 1 otherwise. *)
Theorem validate_all_exits os s :
  s_opts s !! "--action" = Some (VStr "validate-all") →
  s_opts s !! "device_opt" = Some (VList os) →
  is_Some (match (validate_input false s).1 with Ret v => Some v | _ => None end) →
  ∃ code, (validate_or_exit false s).1 = Raise (SystemExit code) ∧
    (code = EC_OK ∨ code = EC_GENERIC_ERROR) ∧
    (code = EC_OK ↔ acceptable os s ∧ Forall (number_ok (validate_input false s).2) os).
Proof.
  intros Ha Hos [v Hv]. unfold validate_or_exit. rewrite (bind_Ret _ _ _ _ _ (opt_get_eq _ _ _ Ha)).
  cbv beta. rewrite bool_decide_true by done. cbn [andb negb].
  destruct (validate_input false s) as [[v'|e|] s'] eqn:E; [|done..]. cbn in Hv. simplify_eq.
  destruct (validate_input_Ret_inv _ _ _ _ _ Hos E) as (_ & Hiff & _).
  rewrite (bind_Ret _ _ _ _ _ E). cbn [snd].
  exists (if v then EC_OK else EC_GENERIC_ERROR). rewrite <- Hiff.
  destruct v; (split; [done|]); (split; [auto|done]).
Qed.
End Validate.

(** A plain device with one plug, and the same without its password. *)
Definition plain_device : list string := ["ipaddr"; "login"; "port"; "power_timeout"].
Definition plain_table : gmap string optdef :=
  list_to_map [("ipaddr", opt [Longopt "ip"]); ("login", opt [Longopt "username"]);
               ("port", opt [Longopt "plug"]);
               ("power_timeout", opt [Longopt "power-timeout"; Type_ "second"])].
Definition plain_options (action : string) : gmap string pyval :=
  list_to_map [("device_opt", VList plain_device); ("--action", VStr action);
               ("--ip", VStr "pdu"); ("--username", VStr "admin"); ("--plug", VStr "3");
               ("--power-timeout", VStr "20")].
Definition without_password (action : string) : st Mem.host :=
  St (plain_options action) plain_table [] 0 Mem.empty.
Definition with_password (action : string) : st Mem.host :=
  St (<["--password" := VStr "secret"]> (plain_options action)) plain_table [] 0 Mem.empty.

Lemma validate_input_spec_witness :
  acceptable plain_device (with_password "off") ∧
  ¬ acceptable plain_device (without_password "off").
Proof.
  assert (validate_input true (with_password "off") =
    (Ret true, (validate_input true (with_password "off")).2)) as H1 by (vm_compute; reflexivity).
  assert (validate_input false (without_password "off") =
    (Ret false, (validate_input false (without_password "off")).2)) as H2
    by (vm_compute; reflexivity).
  split.
  - apply (validate_input_spec true plain_device) in H1 as (_ & [H1 _] & _);
      [|vm_compute; reflexivity]. by apply H1.
  - intros Ha. apply (validate_input_spec false plain_device) in H2 as (_ & [_ H2] & _);
      [|vm_compute; reflexivity].
    assert (password_missing plain_device (given (without_password "off")) = None) as Hp
      by apply Ha. vm_compute in Hp. discriminate Hp.
Defined.

Lemma validate_all_exits_witness :
  ∃ code, (validate_or_exit false (without_password "validate-all")).1 =
            Raise (SystemExit code) ∧ code = EC_GENERIC_ERROR.
Proof.
  destruct (validate_all_exits plain_device (without_password "validate-all"))
    as (code & Hc & _); [vm_compute; reflexivity|vm_compute; reflexivity| |].
  - exists false. vm_compute. reflexivity.
  - exists code. split; [exact Hc|]. vm_compute in Hc. by injection Hc as <-.
Defined.
