(* ===== verification/CheckedSpec.v ===== *)
(** * What [check_input] guarantees when it returns

    The library's callers rely on it: credentials and addresses are there, the TLS options
    agree, timeouts are off when they were disabled, the verbosity is a number. *)

From S2P Require Import Prelude PyStr OptionDefs Effects Fail Host Input CheckInput CheckSpec.
Import Host.Mem.

Local Open Scope string_scope.

Section Checked.
Context `{Host D}.
Implicit Types s : st D.

(** Only the keys listed may have changed. *)
Definition frame (keys : list string) (s s' : st D) : Prop :=
  ∀ k, k ∉ keys → s_opts s' !! k = s_opts s !! k.

Lemma frame_refl keys s : frame keys s s.
Proof. by intros k. Qed.

Lemma frame_trans ks1 ks2 s1 s2 s3 :
  frame ks1 s1 s2 → frame ks2 s2 s3 → frame (ks1 ++ ks2) s1 s3.
Proof.
  intros H1 H2 k [Hk1 Hk2]%not_elem_of_app. by rewrite H2, H1.
Qed.

Lemma frame_set keys k v s : k ∈ keys → frame keys s (opt_set k v s).2.
Proof. intros Hk k' Hk'. apply lookup_insert_ne. by intros ->. Qed.

(** What was given is still given. *)
Definition more_given (s s' : st D) : Prop :=
  ∀ k, is_Some (s_opts s !! k) → is_Some (s_opts s' !! k).

Lemma opt_set_given k v s : more_given s (opt_set k v s).2.
Proof.
  intros k' Hk. cbn. destruct (decide (k' = k)) as [->|].
  - rewrite lookup_insert_eq. eauto.
  - by rewrite lookup_insert_ne.
Qed.

Lemma check_action_Ret_inv os s u s' :
  check_action os s = (Ret u, s') →
  frame ["--action"] s s' ∧ more_given s s' ∧
  ∃ action, s_opts s !! "--action" = Some (VStr action) ∧
    (action ∈ (get_available_actions os).1 ∨
     py_count "fabric_fencing" os = 1 ∧ action ∈ ["enable"; "disable"]).
Proof.
  intros (action & s0 & [Ha ->]%opt_str_Ret_inv & Hr)%bind_Ret_inv.
  apply bind_Ret_inv in Hr as (u1 & s1 & H1 & Hr).
  apply mwhen_Ret_inv in H1 as [[_ H1%fail_usage_stop_not_Ret]|[H1 ->]]; [done|].
  apply bind_Ret_inv in Hr as (u2 & s2 & H2 & H3).
  assert (s2 = s ∨ s2 = (opt_set "--action" (VStr "on") s).2) as Hs2.
  { apply mwhen_Ret_inv in H2 as [[_ H2]|[_ ->]]; [|by left]. minv H2. by right. }
  assert (s' = s2 ∨ s' = (opt_set "--action" (VStr "off") s2).2) as Hs'.
  { apply mwhen_Ret_inv in H3 as [[_ H3]|[_ ->]]; [|by left]. minv H3. by right. }
  split; [|split].
  - intros k Hk. assert (k ≠ "--action") by (intros ->; apply Hk; left).
    destruct Hs2 as [->| ->], Hs' as [->| ->]; cbn; by rewrite ?lookup_insert_ne.
  - intros k Hk. destruct Hs2 as [->| ->], Hs' as [->| ->]; [done|..];
      repeat apply opt_set_given; done.
  - exists action. split; [done|]. apply bool_decide_eq_false in H1.
    assert (0 < py_count action (if decide (py_count "fabric_fencing" os = 1)
      then ((get_available_actions os).1 ++ ["enable"; "disable"])%list
      else (get_available_actions os).1)) as Hc by lia.
    apply py_count_pos in Hc. case_decide; [|by left].
    apply elem_of_app in Hc as [|]; [by left|by right].
Qed.

Lemma validate_or_exit_Ret_inv other os s u s' :
  s_opts s !! "device_opt" = Some (VList os) →
  validate_or_exit other s = (Ret u, s') →
  upcased s s' ∧ acceptable os s ∧ Forall (number_ok s') os.
Proof.
  intros Hos (a & s0 & [Ha ->]%opt_get_Ret_inv & Hr)%bind_Ret_inv.
  destruct (bool_decide _ && negb other).
  - apply bind_Ret_inv in Hr as (v & s1 & Hv & Hr).
    apply bind_Ret_inv in Hr as (u1 & s2 & H1 & Hr). minv Hr.
  - apply bind_Ret_inv in Hr as (v & s1 & Hv & Hr). minv Hr.
    destruct (validate_input_Ret_inv _ _ _ _ _ Hos Hv) as (Hu & Hiff & Ht).
    split; [done|]. by apply Hiff, Ht.
Qed.

Lemma open_debug_file_Ret_inv s u s' :
  open_debug_file s = (Ret u, s') → s_opts s' = s_opts s.
Proof.
  intros (b & s0 & Hb & Hr)%bind_Ret_inv. minv Hb.
  apply mwhen_Ret_inv in Hr as [[_ Hr]|[_ ->]]; [|done].
  apply bind_Ret_inv in Hr as (f & s1 & [Hf ->]%opt_str_Ret_inv & Hr).
  apply bind_Ret_inv in Hr as (x & s1 & Hx & Hr). injection Hx as <- <-.
  destruct (h_appendfile f "" (s_dev s)).
  - unfold logging_setup in Hr. minv Hr. done.
  - apply bind_Ret_inv in Hr as (u1 & s2 & H1 & Hr). by apply fail_usage_stop_not_Ret in Hr.
Qed.

Lemma run_password_script_Ret_inv script target s u s' :
  run_password_script script target s = (Ret u, s') →
  frame [target] s s' ∧ more_given s s' ∧
  ∀ cmd, s_opts s !! script = Some (VStr cmd) →
    s_opts s' !! target = Some (VStr (rstrip (h_popen cmd (s_dev s)).1)).
Proof.
  intros (b & s0 & Hb & Hr)%bind_Ret_inv. minv Hb.
  apply mwhen_Ret_inv in Hr as [[_ Hr]|[Hg ->]].
  - apply bind_Ret_inv in Hr as (cmd & s1 & [Hc ->]%opt_str_Ret_inv & Hr).
    apply bind_Ret_inv in Hr as (out & s1 & Ho & Hr). unfold os_popen_read in Ho.
    destruct (h_popen cmd (s_dev s)) as [x d] eqn:E. injection Ho as <- <-. minv Hr.
    split; [by apply (frame_set _ _ _ (set_dev d s)); left|].
    split; [by apply (opt_set_given _ _ (set_dev d s))|].
    intros cmd' Hc'. assert (cmd' = cmd) as -> by congruence. rewrite E.
    apply lookup_insert_eq.
  - split; [apply frame_refl|]. split; [by intros k|]. intros cmd Hc.
    apply bool_decide_eq_false in Hg. rewrite Hc in Hg. by destruct Hg.
Qed.

Definition tls_consistent (s : st D) : Prop :=
  (given s "--ssl-secure" || given s "--ssl-insecure" = true → given s "--ssl" = true) ∧
  (given s "--ssl" = true → given s "--ssl-insecure" = false → given s "--ssl-secure" = true).

Lemma given_set k v s k' :
  given (opt_set k v s).2 k' = bool_decide (k' = k) || given s k'.
Proof.
  unfold given. cbn. destruct (decide (k' = k)) as [->|].
  - rewrite lookup_insert_eq, (bool_decide_true (k = k)) by done.
    done.
  - by rewrite lookup_insert_ne, (bool_decide_false (k' = k)) by done.
Qed.

Lemma given_set_if (b : bool) k v s k' :
  given (if b then (opt_set k v s).2 else s) k' = (b && bool_decide (k' = k)) || given s k'.
Proof. destruct b; [apply given_set|done]. Qed.

Lemma check_ssl_Ret_inv s u s' :
  check_ssl s = (Ret u, s') →
  frame ["--ssl"; "--ssl-secure"] s s' ∧ more_given s s' ∧ tls_consistent s'.
Proof.
  intros (b1 & s0 & H1 & Hr)%bind_Ret_inv. minv H1. fold (given s "--ssl-secure") in Hr.
  apply bind_Ret_inv in Hr as (b2 & s0 & H2 & Hr). minv H2. fold (given s "--ssl-insecure") in Hr.
  apply bind_Ret_inv in Hr as (u1 & s1 & H1 & Hr).
  assert (s1 = if given s "--ssl-secure" || given s "--ssl-insecure"
               then (opt_set "--ssl" (VStr "") s).2 else s) as Es1.
  { apply mwhen_Ret_inv in H1 as [[-> H1]|[-> ->]]; [|done]. by minv H1. }
  apply bind_Ret_inv in Hr as (b3 & s0 & H3 & Hr). minv H3. fold (given s1 "--ssl") in Hr.
  assert (s' = if given s1 "--ssl" && negb (given s "--ssl-insecure")
               then (opt_set "--ssl-secure" (VStr "") s1).2 else s1) as Es'.
  { apply mwhen_Ret_inv in Hr as [[-> Hr]|[-> ->]]; [|done]. by minv Hr. }
  assert (frame ["--ssl"] s s1 ∧ more_given s s1) as [Hf1 Hg1].
  { rewrite Es1. destruct (_ || _); [|by split; [apply frame_refl|intros k]].
    split; [apply frame_set; left|apply opt_set_given]. }
  assert (frame ["--ssl-secure"] s1 s' ∧ more_given s1 s') as [Hf2 Hg2].
  { rewrite Es'. destruct (_ && _); [|by split; [apply frame_refl|intros k]].
    split; [apply frame_set; left|apply opt_set_given]. }
  split; [exact (frame_trans _ _ _ _ _ Hf1 Hf2)|]. split; [intros k ?; auto|].
  unfold tls_consistent. rewrite Es', Es1. clear.
  rewrite !given_set_if.
  repeat match goal with
  | |- context [bool_decide (?x = ?y)] =>
      let b := eval vm_compute in (bool_decide (x = y)) in
      change (bool_decide (x = y)) with b
  end.
  by destruct (given s "--ssl-secure"), (given s "--ssl-insecure"), (given s "--ssl").
Qed.

(** Timeouts are switched off when asked for, or by default under Pacemaker. *)
Definition timeouts_disabled (s : st D) : Prop :=
  ∀ k, k ∈ ["--power-timeout"; "--shell-timeout"; "--login-timeout"] →
    s_opts s !! k = Some (VInt 0).

Lemma check_timeouts_Ret_inv env s u s' :
  check_timeouts env s = (Ret u, s') →
  frame ["--disable-timeout"; "--power-timeout"; "--shell-timeout"; "--login-timeout"] s s' ∧
  more_given s s' ∧
  (∀ x, s_opts s' !! "--disable-timeout" = Some (VStr x) →
        lower x ∈ ["1"; "yes"; "on"; "true"] → timeouts_disabled s') ∧
  (env !! "PCMK_service" = Some "pacemaker-fenced" → given s' "--disable-timeout" = true).
Proof.
  intros (b & s0 & Hb & Hr)%bind_Ret_inv. minv Hb. fold (given s "--disable-timeout") in Hr.
  apply bind_Ret_inv in Hr as (u1 & s1 & H1 & Hr).
  assert (frame ["--disable-timeout"] s s1 ∧ more_given s s1 ∧
    (env !! "PCMK_service" = Some "pacemaker-fenced" → s_opts s !! "--disable-timeout" = None →
     s_opts s1 !! "--disable-timeout" = Some (VStr "1"))) as (Hf1 & Hg1 & Hd1).
  { apply mwhen_Ret_inv in H1 as [[_ H1]|[Hn ->]].
    - minv H1. split; [apply (frame_set _ "--disable-timeout" (VStr "1")); left|].
      split; [apply (opt_set_given "--disable-timeout" (VStr "1"))|].
      intros _ _. apply lookup_insert_eq.
    - split; [apply frame_refl|]. split; [by intros k|]. intros He Hk. unfold given in Hn.
      rewrite Hk, bool_decide_true, bool_decide_false in Hn; [done|by intros [? ?]|done]. }
  apply bind_Ret_inv in Hr as (v & s2 & Hv & Hr). minv Hv.
  apply bind_Ret_inv in Hr as (x & s2 & [Hx ->]%as_str_Ret_inv & Hr).
  assert (frame ["--power-timeout"; "--shell-timeout"; "--login-timeout"] s1 s' ∧
    more_given s1 s' ∧
    (lower x ∈ ["1"; "yes"; "on"; "true"] → timeouts_disabled s')) as (Hf2 & Hg2 & Hd2).
  { apply mwhen_Ret_inv in Hr as [[_ Hr]|[Hn ->]].
    - minv Hr. split; [|split].
      + intros k Hk. cbn. rewrite !not_elem_of_cons in Hk. destruct Hk as (?&?&?&_).
        by rewrite !lookup_insert_ne.
      + intros k Hk. cbn. rewrite !lookup_insert_is_Some'. auto.
      + intros _ k Hk. cbn. rewrite !elem_of_cons, elem_of_nil in Hk.
        destruct Hk as [->|[->|[->|[]]]]; by simplify_map_eq.
    - split; [apply frame_refl|]. split; [by intros k|]. intros Hin.
      by apply bool_decide_eq_false in Hn. }
  split; [exact (frame_trans _ _ _ _ _ Hf1 Hf2)|]. split; [intros k ?; auto|].
  assert (s_opts s' !! "--disable-timeout" = s_opts s1 !! "--disable-timeout") as Es
    by (apply Hf2; closed_dec).
  split.
  - intros y Hy Hin. apply Hd2. rewrite Es in Hy. rewrite Hy in Hx. cbn in Hx. by simplify_eq.
  - intros He. apply bool_decide_eq_true, Hg2.
    destruct (s_opts s !! "--disable-timeout") as [w|] eqn:Ew; [apply Hg1; eauto|].
    rewrite (Hd1 He eq_refl). eauto.
Qed.

(** ** The steps before the validation *)

Lemma read_verbose_level_reads s : (read_verbose_level s).2 = s.
Proof.
  revert s. apply bind_reads; [auto using opt_get_reads|]. intros v s.
  by destruct (py_int v) as [|[]].
Qed.

Lemma check_verbosity_same_key k :
  k ∉ ["--verbose-level"; "--verbose"] → keeps (@same_key D k) check_verbosity.
Proof.
  rewrite !not_elem_of_cons. intros (Hk1 & Hk2 & _). unfold check_verbosity.
  apply keeps_bind; [exact _|by apply keeps_read, read_verbose_level_reads; exact _|].
  keeps_tac; auto using opt_set_same_key, opt_del_same_key.
Qed.

Lemma check_verbosity_level s u s' :
  check_verbosity s = (Ret u, s') →
  ∃ n, (0 ≤ n)%Z ∧ s_opts s' !! "--verbose-level" = Some (VInt n).
Proof.
  intros (n & s0 & _ & Hr)%bind_Ret_inv.
  exists (if (n <? 0)%Z then 0%Z else n). split; [case_match; lia|].
  apply bind_Ret_inv in Hr as (u1 & s1 & _ & Hr).
  apply bind_Ret_inv in Hr as (u2 & s2 & H2 & Hr). minv H2.
  match type of Hr with ?m ?s = _ => assert (keeps (same_key "--verbose-level") m) as Hk end.
  { keeps_tac; by apply opt_set_same_key + apply opt_del_same_key. }
  specialize (Hk (set_opts (<["--verbose-level":=VInt (if (n <? 0)%Z then 0%Z else n)]> (s_opts s1)) s1)).
  rewrite Hr in Hk. unfold same_key in Hk. cbn in Hk. by rewrite Hk, lookup_insert_eq.
Qed.

Lemma allopt_set_same_key k key f : keeps (@same_key D k) (allopt_set key f).
Proof. by apply modify_same_key. Qed.

Lemma ipport_help_reads os c s : (ipport_help os c s).2 = s.
Proof. unfold ipport_help. by repeat case_match. Qed.

Lemma update_metadata_same_key k : keeps (@same_key D k) update_metadata.
Proof.
  unfold update_metadata. keeps_tac; auto using allopt_set_same_key.
  - by apply keeps_read, allopt_default_reads; exact _.
  - by apply keeps_read, ipport_help_reads; exact _.
Qed.

(** The extended option list is what the rest of the run sees. *)
Lemma prepare_options_Ret_inv os opt s os' s' :
  prepare_options os opt s = (Ret os', s') → s_opts s' !! "device_opt" = Some (VList os').
Proof.
  intros (added & s1 & _ & Hr)%bind_Ret_inv.
  apply bind_Ret_inv in Hr as (u2 & s2 & H2 & Hr). minv H2.
  apply bind_Ret_inv in Hr as (u3 & s3 & H3 & Hr).
  apply bind_Ret_inv in Hr as (u4 & s4 & H4 & Hr). minv Hr.
  match type of H3 with _ ?s = _ => pose proof (update_metadata_same_key "device_opt" s) as Hk end.
  rewrite H3 in Hk. unfold same_key in Hk. cbn in Hk. rewrite lookup_insert_eq in Hk.
  cbv zeta in Hr. minv Hr. cbn. rewrite lookup_insert_ne by done. by eapply set_default_values_grows.
Qed.

Lemma upcased_given s s' k : upcased s s' → given s' k = given s k.
Proof.
  intros (_ & _ & Hk). unfold given. apply bool_decide_ext.
  destruct (Hk k) as [->|(x & -> & ->)]; [done|]. by split; eauto.
Qed.

Lemma upcased_int s s' k n :
  upcased s s' → s_opts s !! k = Some (VInt n) → s_opts s' !! k = Some (VInt n).
Proof. intros (_ & _ & Hk) E. destruct (Hk k) as [->|(x & E' & _)]; [done|congruence]. Qed.

Lemma frame_given keys s s' k : frame keys s s' → k ∉ keys → given s' k = given s k.
Proof. intros Hf Hk. unfold given. by rewrite Hf. Qed.

Lemma more_given_true s s' k : more_given s s' → given s k = true → given s' k = true.
Proof.
  intros Hm Hk%bool_decide_eq_true. by apply bool_decide_eq_true, Hm.
Qed.

(** A missing password stays the only reason to complain when more is given. *)
Lemma password_missing_mono os (f g : string → bool) :
  (∀ k, f k = true → g k = true) → password_missing os f = None → password_missing os g = None.
Proof.
  intros Hfg. unfold password_missing.
  destruct (has_opt os "no_password"); [done|]. pose proof (Hfg "--password") as H1.
  pose proof (Hfg "--password-script") as H2. pose proof (Hfg "--identity-file") as H3.
  destruct (negb _), (f "--password"), (f "--password-script"), (f "--identity-file"); cbn;
    intros ?; try done;
    rewrite ?(H1 eq_refl), ?(H2 eq_refl), ?(H3 eq_refl), ?orb_true_r; done.
Qed.

(** Documentation was asked for. *)
Definition asks_docs (s : st D) : bool :=
  bool_decide (s_opts s !! "--action" = Some (VStr "metadata")) ||
  bool_decide (s_opts s !! "--action" = Some (VStr "manpage")) ||
  given s "--help" || given s "--version".

Lemma wants_docs_Ret_inv s b s' : wants_docs s = (Ret b, s') → b = asks_docs s ∧ s' = s.
Proof.
  intros (a & s0 & [Ha ->]%opt_get_Ret_inv & Hr)%bind_Ret_inv.
  apply bind_Ret_inv in Hr as (b1 & s1 & H1 & Hr). minv H1. minv Hr. split; [|done].
  unfold asks_docs, given. rewrite Ha.
  by rewrite (bool_decide_ext (Some a = Some (VStr "metadata")) (a = VStr "metadata")),
    (bool_decide_ext (Some a = Some (VStr "manpage")) (a = VStr "manpage"))
    by (split; congruence).
Qed.

(** What holds of the options that an agent goes on with. *)
Record checked (env : gmap string string) (os : list string) (s : st D) : Prop := Checked {
  chk_login : login_missing os (given s) = false;
  chk_address : address_missing os (given s) = false;
  chk_password : password_missing os (given s) = None;
  chk_identity : identity_without_ssh (given s) = false;
  chk_tls : tls_consistent s;
  chk_timeouts : ∀ x, s_opts s !! "--disable-timeout" = Some (VStr x) →
    lower x ∈ ["1"; "yes"; "on"; "true"] → timeouts_disabled s;
  chk_pacemaker : env !! "PCMK_service" = Some "pacemaker-fenced" →
    given s "--disable-timeout" = true;
  chk_verbose : ∃ n, (0 ≤ n)%Z ∧ s_opts s !! "--verbose-level" = Some (VInt n)
}.

Definition late_keys : list string :=
  ["--snmp-priv-passwd"; "--password"; "--ssl"; "--ssl-secure"; "--disable-timeout";
   "--power-timeout"; "--shell-timeout"; "--login-timeout"].

Lemma finish_checks_Ret_inv env s u s' :
  finish_checks env s = (Ret u, s') →
  frame late_keys s s' ∧ more_given s s' ∧ tls_consistent s' ∧
  (∀ x, s_opts s' !! "--disable-timeout" = Some (VStr x) →
        lower x ∈ ["1"; "yes"; "on"; "true"] → timeouts_disabled s') ∧
  (env !! "PCMK_service" = Some "pacemaker-fenced" → given s' "--disable-timeout" = true).
Proof.
  intros (u1 & s1 & H1%open_debug_file_Ret_inv & Hr)%bind_Ret_inv.
  apply bind_Ret_inv in Hr as (u2 & s2 & (Hf2 & Hg2 & _)%run_password_script_Ret_inv & Hr).
  apply bind_Ret_inv in Hr as (u3 & s3 & (Hf3 & Hg3 & _)%run_password_script_Ret_inv & Hr).
  apply bind_Ret_inv in Hr as (u4 & s4 & (Hf4 & Hg4 & Htls)%check_ssl_Ret_inv & Hr).
  apply check_timeouts_Ret_inv in Hr as (Hf5 & Hg5 & Hd & Hp).
  assert (frame ["--snmp-priv-passwd"] s s2) as Hf2' by (intros k Hk; by rewrite Hf2, H1).
  assert (more_given s s2) as Hg2' by (intros k Hk; apply Hg2; by rewrite H1).
  split; [|split; [|split; [|split]]].
  - exact (frame_trans _ _ _ _ _ Hf2' (frame_trans _ _ _ _ _ Hf3 (frame_trans _ _ _ _ _ Hf4 Hf5))).
  - intros k Hk. by apply Hg5, Hg4, Hg3, Hg2'.
  - unfold tls_consistent. by rewrite !(frame_given _ _ _ _ Hf5) by closed_dec.
  - exact Hd.
  - exact Hp.
Qed.

(** C25. Whenever [check_input] returns, either documentation was asked for, or the options
    it leaves have login, address and credentials, consistent TLS options, timeouts of 0
    where they are disabled (which is the default under Pacemaker) and a verbosity that is
    a non-negative number. *)
Theorem check_input_guarantees env os opt other s os' s' :
  check_input env os opt other s = (Ret os', s') →
  asks_docs s' = true ∨ checked env os' s'.
Proof.
  intros (os1 & s1 & H1%prepare_options_Ret_inv & Hr)%bind_Ret_inv.
  apply bind_Ret_inv in Hr as (b & s2 & [-> ->]%wants_docs_Ret_inv & Hr).
  destruct (asks_docs s1) eqn:Hdocs; [minv Hr; by left|]. right.
  apply bind_Ret_inv in Hr as (u2 & s2 & H2 & Hr).
  apply bind_Ret_inv in Hr as (u3 & s3 & (Hf3 & _ & _)%check_action_Ret_inv & Hr).
  apply bind_Ret_inv in Hr as (u4 & s4 & H4 & Hr).
  apply bind_Ret_inv in Hr as (u5 & s5 & (Hf5 & Hg5 & Htls & Ht & Hp)%finish_checks_Ret_inv & Hr).
  rewrite mret_eq in Hr. injection Hr as <- <-.
  pose proof (check_verbosity_same_key "device_opt" ltac:(closed_dec) s1) as Hk.
  rewrite H2 in Hk. unfold same_key in Hk. cbn in Hk.
  assert (s_opts s3 !! "device_opt" = Some (VList os1)) as Hos3
    by (rewrite Hf3 by closed_dec; by rewrite Hk).
  destruct (validate_or_exit_Ret_inv _ _ _ _ _ Hos3 H4) as (Hu & Hacc & _).
  destruct (check_verbosity_level _ _ _ H2) as (n & Hn & Hl).
  assert (∀ k, k ∉ late_keys → given s5 k = given s3 k) as Hsame
    by (intros k Hk'; by rewrite (frame_given _ _ _ _ Hf5 Hk'), (upcased_given _ _ _ Hu)).
  destruct Hacc as [Hlogin Haddr Hpw Hid _ _ _]. constructor; [..|done|done|done|].
  - unfold login_missing in *. by rewrite Hsame by closed_dec.
  - unfold address_missing in *. by rewrite !Hsame by closed_dec.
  - revert Hpw. apply password_missing_mono. intros k Hgk.
    apply (more_given_true s4); [done|]. by rewrite (upcased_given _ _ _ Hu).
  - unfold identity_without_ssh in *. by rewrite !Hsame by closed_dec.
  - exists n. split; [done|]. rewrite Hf5 by closed_dec. apply (upcased_int _ _ _ _ Hu).
    by rewrite Hf3 by closed_dec.
Qed.
End Checked.

(** A run for the plain device with a password, as Pacemaker starts it. *)
Definition plain_run : outcome (list string) * st Mem.host :=
  check_input {["PCMK_service" := "pacemaker-fenced"]}
    ["ipaddr"; "login"; "passwd"; "port"; "telnet"]
    (list_to_map [("--action", VStr "off"); ("--ip", VStr "pdu"); ("--username", VStr "admin");
                  ("--password", VStr "secret"); ("--plug", VStr "3");
                  ("--verbose-level", VInt 0)])
    false (Mem.start Mem.empty).

Lemma check_input_guarantees_witness :
  match plain_run.1 with Ret _ => timeouts_disabled plain_run.2 | _ => False end.
Proof.
  assert (∀ os, plain_run.1 = Ret os → timeouts_disabled plain_run.2) as Hall.
  { intros os Hr.
    destruct (check_input_guarantees {["PCMK_service" := "pacemaker-fenced"]}
      ["ipaddr"; "login"; "passwd"; "port"; "telnet"] _ false (Mem.start Mem.empty) os plain_run.2
      ltac:(rewrite <- Hr; apply surjective_pairing)) as [Hd|[_ _ _ _ _ Ht _ _]].
    - vm_compute in Hd. discriminate Hd.
    - apply (Ht "1"); [vm_compute; reflexivity|closed_dec]. }
  destruct plain_run.1 as [os|e|] eqn:Hr; [by apply (Hall os)|vm_compute in Hr; discriminate Hr..].
Defined.
