(* ===== verification/Action.v ===== *)
(** * Fencing actions: [fence_action] and the multi-plug loops of [lib/fencing.py.py]

    The agent hands the library callbacks that talk to one device; the library runs them
    over the plugs of [options["--plugs"]]. A callback reads and writes the same
    [options] dictionary, so it is a computation over the state; the connection it is
    given is part of the device state. *)

From S2P Require Import Prelude PyStr OptionDefs Effects Fail.

Local Open Scope string_scope.

(** ** [uuid.UUID(s)] and its [str] *)

Definition hex_digit (n : Z) : ascii :=
  if (n <? 10)%Z then ascii_of_N (48 + Z.to_N n) else ascii_of_N (87 + Z.to_N n).

Fixpoint hex_digits (k : nat) (n : Z) (acc : string) : string :=
  match k with
  | O => acc
  | S k' => hex_digits k' (n / 16) (String (hex_digit (n mod 16)) acc)
  end.

Definition strip_braces (s : string) : string :=
  let p c := bool_decide (c = "{"%char) || bool_decide (c = "}"%char) in
  lstrip_by p (rstrip_by p s).

(** The canonical text of the UUID [s] denotes; [None] is the ValueError. *)
Definition uuid_str (s : string) : option string :=
  let hex := replace "-" "" (strip_braces (replace "uuid:" "" (replace "urn:" "" s))) in
  if bool_decide (String.length hex = 32)
  then
    match hex_of_str hex with
    | Some n =>
        if ((0 <=? n) && (n <? 2 ^ 128))%Z then
          let h := hex_digits 32 n "" in
          Some (String.substring 0 8 h +:+ "-" +:+ String.substring 8 4 h +:+ "-" +:+
                String.substring 12 4 h +:+ "-" +:+ String.substring 16 4 h +:+ "-" +:+
                String.substring 20 12 h)
        else None
    | None => None
    end
  else None.

(** What an agent's [get_outlet_list] returns: outlet id, (alias, status), in the order
    of the dictionary. *)
Definition outlets : Type := list (string * (string * option string)).

Section Action.
Context {D : Type}.

(** [options["--plugs"] if "--plugs" in options else [""]] *)
Definition the_plugs : M D (list string) :=
  p ← opt_find "--plugs";
  match p with
  | Some v => as_list v
  | None => mret [""]
  end.

(** The head of every per-plug loop: [--uuid] follows the plug when the plug is a
    UUID, and [--plug] is the plug. *)
Definition select_plug (plug : string) : M D unit :=
  match uuid_str plug with
  | Some u => opt_set "--uuid" (VStr u)
  | None => mret tt
  end ;;
  opt_set "--plug" (VStr plug).

Definition get_multi_power_fn (get_power_fn : M D pyval) : M D pyval :=
  plugs ← the_plugs;
  mfold (λ status plug,
    select_plug plug ;;
    plug_status ← get_power_fn;
    mret (if decide (plug_status = VStr "off") then status else plug_status))
    (VStr "off") plugs.

(** [for _ in itertools.count(1)] of [async_set_multi_power_fn], from iteration [n];
    [false] is the [break]. *)
Fixpoint wait_for_action (fuel : nat) (get_power_fn : M D pyval) (n : Z) : M D bool :=
  match fuel with
  | O => out_of_fuel
  | S fuel' =>
      status ← get_multi_power_fn get_power_fn;
      action ← opt_get "--action";
      if decide (status = action) then mret true
      else
        t ← opt_int "--stonith-status-sleep";
        sleep t ;;
        power_timeout ← opt_int "--power-timeout";
        if ((0 <? power_timeout) && (power_timeout <=? n))%Z then mret false
        else wait_for_action fuel' get_power_fn (n + 1)
  end.

Fixpoint async_attempts (fuel retry_attempts : nat) (plugs : list string)
    (set_power_fn : M D unit) (get_power_fn : M D pyval) : M D bool :=
  match retry_attempts with
  | O => mret false
  | S k =>
      mfor plugs (λ plug,
        select_plug plug ;;
        set_power_fn ;;
        t ← opt_int "--power-wait";
        sleep t) ;;
      done ← wait_for_action fuel get_power_fn 1;
      if (done : bool) then mret true
      else async_attempts fuel k plugs set_power_fn get_power_fn
  end.

Definition async_set_multi_power_fn (fuel : nat) (set_power_fn : M D unit)
    (get_power_fn : M D pyval) (retry_attempts : Z) : M D bool :=
  plugs ← the_plugs;
  async_attempts fuel (Z.to_nat retry_attempts) plugs set_power_fn get_power_fn.

(** [for retry in range(retry_attempts)]: tries [f] until it succeeds; false when the
    last of the attempts fails. *)
Fixpoint retry_loop (attempts : nat) (f : M D bool) : M D bool :=
  match attempts with
  | O => mret true
  | S k =>
      b ← f;
      if (b : bool) then mret true
      else if decide (k = 0) then mret false
      else retry_loop k f
  end.

(** The body both synchronous loops share. *)
Definition per_plug (f : M D bool) (retry_attempts : Z) : M D bool :=
  plugs ← the_plugs;
  mfold (λ success plug,
    select_plug plug ;;
    ok ← retry_loop (Z.to_nat retry_attempts) f;
    t ← opt_int "--power-wait";
    sleep t ;;
    mret (success && ok)) true plugs.

Definition sync_set_multi_power_fn (sync_set_power_fn : M D bool) (retry_attempts : Z)
    : M D bool := per_plug sync_set_power_fn retry_attempts.

Definition multi_reboot_cycle_fn (reboot_cycle_fn : M D bool) (retry_attempts : Z)
    : M D bool := per_plug reboot_cycle_fn retry_attempts.

Definition set_multi_power_fn (fuel : nat) (set_power_fn : option (M D unit))
    (get_power_fn : option (M D pyval)) (sync_set_power_fn : option (M D bool))
    (retry_attempts : Z) : M D bool :=
  match set_power_fn, get_power_fn, sync_set_power_fn with
  | Some set_, Some get_, _ => async_set_multi_power_fn fuel set_ get_ retry_attempts
  | Some _, None, _ => mret false
  | None, _, Some sync => sync_set_multi_power_fn sync retry_attempts
  | None, _, None => mret false
  end.

(** ** [fence_action] *)

(** Calling [None]. *)
Definition call {A} (f : option (M D A)) : M D A :=
  match f with
  | Some m => m
  | None => raise (TypeError "'NoneType' object is not callable")
  end.

Definition listed_status (status : option string) : string :=
  match status with
  | None => "UNKNOWN"
  | Some x => if bool_decide (upper x = "ON") || bool_decide (upper x = "OFF")
              then x else "UNKNOWN"
  end.

Definition print_outlet (o : string * (string * option string)) : M D unit :=
  let '(outlet_id, (alias, status)) := o in
  action ← opt_get "--action";
  if decide (action = VStr "list") then
    sep ← opt_str "--separator";
    py_print (outlet_id +:+ sep +:+ alias)
  else if decide (action = VStr "list-status") then
    sep ← opt_str "--separator";
    py_print (outlet_id +:+ sep +:+ alias +:+ sep +:+ listed_status status)
  else mret tt.

Definition list_outlets (get_outlet_list : option (M D outlets)) : M D unit :=
  ports ← device_opt_count "port";
  if decide (ports = 0) then py_print "N/A"
  else
    match get_outlet_list with
    | None => py_print "NOTICE: List option is not working on this device yet"
    | Some get_outlets =>
        action ← opt_get "--action";
        opt_set "--original-action" action ;;
        opt_set "--action" (VStr "list") ;;
        os ← get_outlets;
        original ← opt_get "--original-action";
        opt_set "--action" original ;;
        opt_del "--original-action" ;;
        mfor os print_outlet
    end.

(** [options["--action"] in ["list", "list-status"] or (monitor of a device with ports)] *)
Definition wants_listing : M D bool :=
  action ← opt_get "--action";
  if bool_decide (action = VStr "list") || bool_decide (action = VStr "list-status")
  then mret true
  else if decide (action = VStr "monitor") then
    ports ← device_opt_count "port";
    if decide (ports = 1) then
      as_ip ← device_opt_count "port_as_ip";
      mret (bool_decide (as_ip = 0))
    else mret false
  else mret false.

(** [options.get("--method", "").lower() == "cycle" and reboot_cycle_fn is not None] *)
Definition wants_cycle (reboot_cycle_fn : option (M D bool)) : M D bool :=
  m ← opt_find "--method";
  method ← as_str (default (VStr "") m);
  mret (bool_decide (lower method = "cycle") && bool_decide (is_Some reboot_cycle_fn)).

(** [try: m  except Exception as ex: logging.warning(...)], the result being false
    when an exception was caught. *)
Definition warn_on_exception (m : M D bool) : M D bool :=
  try_except m (λ e,
    if is_Exception e then Some (log WARNING (exn_str e) ;; mret false) else None).

Section FenceAction.
Variable fuel : nat.
Variable set_power_fn : option (M D unit).
Variable get_power_fn : option (M D pyval).
Variable get_outlet_list : option (M D outlets).
Variable reboot_cycle_fn : option (M D bool).
Variable sync_set_power_fn : option (M D bool).

Definition set_multi (retry_attempts : Z) : M D bool :=
  set_multi_power_fn fuel set_power_fn get_power_fn sync_set_power_fn retry_attempts.

Definition action_on : M D unit :=
  r ← opt_int "--retry-on";
  ok ← set_multi (1 + r);
  if (ok : bool) then py_print "Success: Powered ON" else fail EC_WAITING_ON true.

Definition action_off : M D unit :=
  ok ← set_multi 1;
  if (ok : bool) then py_print "Success: Powered OFF" else fail EC_WAITING_OFF true.

Definition reboot_by_cycle : M D bool :=
  power_on ← warn_on_exception
    (r ← opt_int "--retry-on";
     multi_reboot_cycle_fn (call reboot_cycle_fn) (1 + r));
  mwhen (negb power_on) (fail EC_TIMED_OUT true) ;;
  mret power_on.

Definition reboot_off_phase (status : pyval) : M D unit :=
  if decide (status = VStr "off") then mret tt
  else
    opt_set "--action" (VStr "off") ;;
    ok ← set_multi 1;
    mwhen (negb ok) (fail EC_WAITING_OFF true).

Definition reboot_on_phase : M D bool :=
  opt_set "--action" (VStr "on") ;;
  power_on ← warn_on_exception (r ← opt_int "--retry-on"; set_multi r);
  opt_set "--action" (VStr "reboot") ;;
  mret power_on.

Definition action_reboot (status : pyval) : M D unit :=
  cycle ← wants_cycle reboot_cycle_fn;
  power_on ←
    (if (cycle : bool) then reboot_by_cycle
     else reboot_off_phase status ;; reboot_on_phase);
  mwhen (negb power_on) (log ERROR ("Timed out waiting to power ON" +:+ nl)) ;;
  py_print "Success: Rebooted".

Definition action_status (status : pyval) : M D Z :=
  x ← as_str status;
  py_print ("Status: " +:+ upper x) ;;
  mret (if bool_decide (upper x = "OFF") then 2%Z else EC_OK).

(** The dispatch on [options["--action"]] after the status check. *)
Definition dispatch (status : pyval) : M D Z :=
  action ← opt_get "--action";
  if decide (action = VStr "on") then action_on ;; mret EC_OK
  else if decide (action = VStr "off") then action_off ;; mret EC_OK
  else if decide (action = VStr "reboot") then action_reboot status ;; mret EC_OK
  else if decide (action = VStr "status") then action_status status
  else mret EC_OK.

(** The status of the plugs, unless the device has none; anything but on and off is
    an error. *)
Definition initial_status : M D pyval :=
  no_status ← device_opt_in "no_status";
  if (no_status : bool) then mret VNone
  else
    status ← get_multi_power_fn (call get_power_fn);
    mwhen (bool_decide (status ≠ VStr "on") && bool_decide (status ≠ VStr "off"))
      (fail EC_STATUS true) ;;
    mret status.

Definition split_plugs : M D unit :=
  p ← opt_find "--plug";
  match p with
  | None => mret tt
  | Some v =>
      plug ← as_str v;
      sep ← opt_str "--plug-separator";
      match split sep plug with
      | Some plugs => opt_set "--plugs" (VList plugs)
      | None => raise (ValueError "empty separator")
      end
  end.

(** The rest of the body once listing and bare monitoring are dealt with. *)
Definition act : M D Z :=
  status ← initial_status;
  action ← opt_get "--action";
  already ←
    (if decide (action = status) then
       force_on ← device_opt_in "force_on";
       mret (negb (bool_decide (status = VStr "on") && force_on))
     else mret false);
  if (already : bool) then
    x ← as_str status;
    py_print ("Success: Already " +:+ upper x) ;; mret EC_OK
  else dispatch status.

Definition fence_action_body : M D Z :=
  split_plugs ;;
  listing ← wants_listing;
  if (listing : bool) then list_outlets get_outlet_list ;; mret EC_OK
  else
    action ← opt_get "--action";
    has_port ← device_opt_in "port";
    no_status ← device_opt_in "no_status";
    if bool_decide (action = VStr "monitor") && negb has_port && no_status
    then mret EC_OK
    else act.

Definition action_handler (e : exn) : option (M D Z) :=
  match e with
  | PexpectEOF _ => Some (fail EC_CONNECTION_LOST true ;; mret EC_OK)
  | PexpectTIMEOUT _ => Some (fail EC_TIMED_OUT true ;; mret EC_OK)
  | PycurlError m | SocketTimeout m =>
      Some (log ERROR (m +:+ nl) ;; fail EC_TIMED_OUT true ;; mret EC_OK)
  | _ => None
  end.

Definition fence_action : M D Z := try_except fence_action_body action_handler.
End FenceAction.
End Action.

(** ** Specification vocabulary *)

Section Spec.
Context {D : Type}.
Implicit Types s : st D.

(** [reads get plugs vs s s']: from [s] to [s'] the plugs were selected in order and
    the status callback answered [vs]. *)
Fixpoint reads (get_power_fn : M D pyval) (plugs : list string) (vs : list pyval)
    (s s' : st D) : Prop :=
  match plugs, vs with
  | [], [] => s' = s
  | plug :: plugs', v :: vs' =>
      ∃ s1, (select_plug plug ;; get_power_fn) s = (Ret v, s1) ∧
            reads get_power_fn plugs' vs' s1 s'
  | _, _ => False
  end.

(** The status the library derives from those of the plugs: the last that is not off. *)
Definition combine_status (vs : list pyval) : pyval :=
  foldl (λ status v, if decide (v = VStr "off") then status else v) (VStr "off") vs.

Definition current_plugs (s : st D) : option (list string) :=
  match s_opts s !! "--plugs" with
  | None => Some [""]
  | Some (VList l) => Some l
  | Some _ => None
  end.

(** The plugs a request names: [--plug] split at the separator. *)
Definition requested_plugs (s : st D) : option (list string) :=
  match s_opts s !! "--plug" with
  | None => current_plugs s
  | Some (VStr plug) =>
      match s_opts s !! "--plug-separator" with
      | Some (VStr sep) => split sep plug
      | _ => None
      end
  | Some _ => None
  end.

(** Same action, plugs and method requested. *)
Definition same_request (s s' : st D) : Prop :=
  s_opts s' !! "--action" = s_opts s !! "--action" ∧
  s_opts s' !! "--plugs" = s_opts s !! "--plugs" ∧
  s_opts s' !! "--method" = s_opts s !! "--method".

#[export] Instance same_request_preorder : PreOrder same_request.
Proof. unfold same_request. split; [done|]. intros ??? (?&?&?) (?&?&?). split_and!; congruence. Qed.

(** Every plug was seen off, one after the other, ending in [s']. *)
Definition all_seen_off (get_power_fn : M D pyval) (plugs : list string) (s' : st D) : Prop :=
  ∃ s0, reads get_power_fn plugs ((λ _, VStr "off") <$> plugs) s0 s'.

(** The lines a listing prints. *)
Definition listing_of (a sep : string) (os : outlets) : list event :=
  if decide (a = "list") then
    (λ '(i, (alias, _)), EvPrint (i +:+ sep +:+ alias)) <$> os
  else if decide (a = "list-status") then
    (λ '(i, (alias, status)),
       EvPrint (i +:+ sep +:+ alias +:+ sep +:+ listed_status status)) <$> os
  else [].
End Spec.

(** ** Facts about the loops *)

Section Facts.
Context {D : Type}.
Implicit Types s : st D.
Implicit Types get_power_fn : M D pyval.

Lemma combine_go vs acc :
  foldl (λ status v, if decide (v = VStr "off") then status else v) acc vs = VStr "off" ↔
  acc = VStr "off" ∧ Forall (.= VStr "off") vs.
Proof.
  revert acc. induction vs as [|v vs IH]; intros acc; cbn [foldl].
  - split; [intros ->; split; [done|constructor]|by intros [-> _]].
  - rewrite IH, Forall_cons. case_decide; intuition congruence.
Qed.

Lemma combine_status_off vs : combine_status vs = VStr "off" ↔ Forall (.= VStr "off") vs.
Proof. unfold combine_status. rewrite combine_go. tauto. Qed.

Lemma the_plugs_Ret_inv s l s' :
  the_plugs s = (Ret l, s') → current_plugs s = Some l ∧ s' = s.
Proof.
  unfold the_plugs, current_plugs. intros H. minv H.
  destruct (s_opts s !! "--plugs") as [[]|]; minv H; by simplify_eq.
Qed.

Lemma status_fold_reads get_power_fn plugs acc s v s' :
  mfold (λ status plug,
    select_plug plug ;;
    plug_status ← get_power_fn;
    mret (if decide (plug_status = VStr "off") then status else plug_status))
    acc plugs s = (Ret v, s') →
  ∃ vs, reads get_power_fn plugs vs s s' ∧
        v = foldl (λ status v, if decide (v = VStr "off") then status else v) acc vs.
Proof.
  revert acc s. induction plugs as [|plug plugs IH]; intros acc s H; cbn [mfold] in H.
  - minv H. by exists [].
  - apply bind_Ret_inv in H as (acc' & s2 & H1 & H).
    apply bind_Ret_inv in H1 as (u & s3 & Hsel & H1).
    apply bind_Ret_inv in H1 as (w & s4 & Hget & H1). minv H1.
    apply IH in H as (vs & Hr & ->). exists (w :: vs). split; [|done].
    exists s4. split; [|done]. by erewrite bind_Ret by exact Hsel.
Qed.

Lemma get_multi_reads get_power_fn s v s' plugs :
  current_plugs s = Some plugs →
  get_multi_power_fn get_power_fn s = (Ret v, s') →
  ∃ vs, reads get_power_fn plugs vs s s' ∧ v = combine_status vs.
Proof.
  intros Hp H. unfold get_multi_power_fn in H.
  apply bind_Ret_inv in H as (l & s1 & [Hl ->]%the_plugs_Ret_inv & H).
  rewrite Hp in Hl. simplify_eq. by apply status_fold_reads in H.
Qed.

Lemma reads_off_values get_power_fn plugs vs s s' :
  reads get_power_fn plugs vs s s' → Forall (.= VStr "off") vs →
  vs = (λ _, VStr "off") <$> plugs.
Proof.
  revert vs s. induction plugs as [|p plugs IH]; intros vs s Hr Ho;
    destruct vs as [|v vs]; [done|done|done|].
  destruct Hr as (s1 & _ & Hr). apply Forall_cons in Ho as [-> Ho].
  cbn. f_equal. by eapply IH.
Qed.

Lemma reads_all_off get_power_fn plugs vs s s' :
  reads get_power_fn plugs vs s s' → Forall (.= VStr "off") vs →
  all_seen_off get_power_fn plugs s'.
Proof.
  intros Hr Ho. exists s. by rewrite <- (reads_off_values _ _ _ _ _ Hr Ho).
Qed.

Lemma the_plugs_reads s : (the_plugs s).2 = s.
Proof.
  unfold the_plugs. apply bind_reads; [auto with fence|]. intros [v|] s0; [|done].
  auto with fence.
Qed.
Lemma keeps_select plug : keeps (@same_request D) (select_plug plug).
Proof.
  unfold select_plug. destruct (uuid_str plug) as [u|]; intros s; split_and!; cbn; by simplify_map_eq.
Qed.

Lemma keeps_key_select k plug :
  k ≠ "--uuid" → k ≠ "--plug" → keeps (@same_key D k) (select_plug plug).
Proof.
  intros H1 H2. unfold select_plug.
  destruct (uuid_str plug) as [u|]; intros s; unfold same_key; cbn; by simplify_map_eq.
Qed.

Lemma get_multi_keeps_key k get_power_fn :
  k ≠ "--uuid" → k ≠ "--plug" → keeps (same_key k) get_power_fn →
  keeps (same_key k) (get_multi_power_fn get_power_fn).
Proof.
  intros H1 H2 Hk. pose proof (λ p, keeps_key_select k p H1 H2) as Hsel.
  unfold get_multi_power_fn. apply keeps_bind; [exact _| |].
  - apply keeps_read; [exact _|apply the_plugs_reads].
  - intros l. apply keeps_mfold; [exact _|]. intros b x.
    apply keeps_bind; [exact _|apply Hsel|]. keeps_tac.
Qed.

Lemma keeps_event e : keeps (@same_request D) (modify (add_event e)).
Proof. intros s. done. Qed.

Lemma keeps_sleep t : keeps (@same_request D) (sleep t).
Proof. intros s. unfold sleep, sleep_us. by case_match. Qed.
End Facts.

#[export] Hint Resolve the_plugs_reads keeps_select keeps_event keeps_sleep : fence.

Section Confirm.
Context {D : Type}.
Implicit Types s : st D.
Variable get_power_fn : M D pyval.
Variable set_power_fn : M D unit.
Hypothesis get_keeps : keeps same_request get_power_fn.
Hypothesis set_keeps : keeps same_request set_power_fn.

Lemma same_request_plugs s s' : same_request s s' → current_plugs s' = current_plugs s.
Proof. intros (_ & H & _). unfold current_plugs. by rewrite H. Qed.

Lemma keeps_Ret {A} (m : M D A) s a s' :
  keeps same_request m → m s = (Ret a, s') → same_request s s'.
Proof. intros Hk H. specialize (Hk s). by rewrite H in Hk. Qed.

Lemma get_multi_keeps : keeps same_request (get_multi_power_fn get_power_fn).
Proof using get_keeps. unfold get_multi_power_fn. keeps_tac. Qed.

Lemma wait_for_action_keeps fuel n : keeps same_request (wait_for_action fuel get_power_fn n).
Proof using get_keeps.
  revert n. induction fuel as [|fuel IH]; intros n; cbn [wait_for_action]; [keeps_tac|].
  apply keeps_bind; [exact _|apply get_multi_keeps|]. keeps_tac.
Qed.

(** The wait loop says yes only after a round in which the plugs' combined status was
    the action. *)
Lemma wait_for_action_true fuel n s s' action plugs :
  wait_for_action fuel get_power_fn n s = (Ret true, s') →
  s_opts s !! "--action" = Some action → current_plugs s = Some plugs →
  ∃ vs s1, reads get_power_fn plugs vs s1 s' ∧ combine_status vs = action.
Proof using get_keeps.
  revert n s. induction fuel as [|fuel IH]; intros n s H Ha Hp; [done|].
  cbn [wait_for_action] in H.
  apply bind_Ret_inv in H as (status & s1 & Hget & H).
  pose proof (keeps_Ret _ _ _ _ get_multi_keeps Hget) as Hsame.
  pose proof Hsame as [Hact _]. pose proof (same_request_plugs _ _ Hsame) as Hpl.
  apply (get_multi_reads _ _ _ _ plugs) in Hget as (vs & Hr & ->); [|done].
  minv H. case_decide; [minv H; rewrite Ha in Hact; simplify_eq; eauto|].
  apply bind_Ret_inv in H as (t & s2 & [_ ->]%opt_int_Ret_inv & H).
  apply bind_Ret_inv in H as (u & s2 & Hsl & H).
  pose proof (keeps_Ret _ _ _ _ (keeps_sleep t) Hsl) as Hsame2.
  apply bind_Ret_inv in H as (pt & s3 & [_ ->]%opt_int_Ret_inv & H).
  case_match; [minv H|].
  eapply IH; [exact H|destruct Hsame2; congruence|].
  rewrite (same_request_plugs _ _ Hsame2). congruence.
Qed.

Definition set_plugs (plugs : list string) : M D unit :=
  mfor plugs (λ plug, select_plug plug ;; set_power_fn ;; t ← opt_int "--power-wait"; sleep t).

Lemma set_plugs_keeps plugs : keeps same_request (set_plugs plugs).
Proof using set_keeps. unfold set_plugs. keeps_tac. Qed.

Lemma async_attempts_true fuel k plugs s s' action :
  async_attempts fuel k plugs set_power_fn get_power_fn s = (Ret true, s') →
  s_opts s !! "--action" = Some action → current_plugs s = Some plugs →
  ∃ vs s1, reads get_power_fn plugs vs s1 s' ∧ combine_status vs = action.
Proof using get_keeps set_keeps.
  revert s. induction k as [|k IH]; intros s H Ha Hp; [done|].
  cbn [async_attempts] in H. fold (set_plugs plugs) in H.
  apply bind_Ret_inv in H as (u & s1 & Hset & H).
  pose proof (keeps_Ret _ _ _ _ (set_plugs_keeps plugs) Hset) as Hs1.
  apply bind_Ret_inv in H as (b & s2 & Hw & H).
  pose proof (keeps_Ret _ _ _ _ (wait_for_action_keeps fuel 1) Hw) as Hs2.
  pose proof (same_request_plugs _ _ Hs1) as Hp1.
  pose proof (same_request_plugs _ _ Hs2) as Hp2.
  destruct Hs1 as [Ha1 _], Hs2 as [Ha2 _].
  destruct b.
  - minv H. eapply wait_for_action_true; [exact Hw|congruence|congruence].
  - eapply IH; [exact H|congruence|congruence].
Qed.

Lemma async_off_confirmed fuel n s s' plugs :
  async_set_multi_power_fn fuel set_power_fn get_power_fn n s = (Ret true, s') →
  s_opts s !! "--action" = Some (VStr "off") → current_plugs s = Some plugs →
  all_seen_off get_power_fn plugs s'.
Proof using get_keeps set_keeps.
  unfold async_set_multi_power_fn. intros H Ha Hp.
  apply bind_Ret_inv in H as (l & s1 & [Hl ->]%the_plugs_Ret_inv & H).
  rewrite Hp in Hl. simplify_eq.
  eapply async_attempts_true in H as (vs & s1 & Hr & Hc); [|done|done].
  by eapply reads_all_off, combine_status_off.
Qed.
End Confirm.

(** ** [fence_action] *)

Section Theorems.
Context {D : Type}.
Implicit Types s : st D.
Implicit Types (fuel : nat) (lst : option (M D outlets)) (cyc sync : option (M D bool)).

Lemma action_handler_not_Ret e (k : M D Z) s c s' :
  action_handler e = Some k → k s = (Ret c, s') → False.
Proof.
  intros Hk H. destruct e; simplify_eq/=; minv H; by eapply fail_not_Ret.
Qed.

Lemma fence_action_Ret_inv fuel set get lst cyc sync s c s' :
  fence_action fuel set get lst cyc sync s = (Ret c, s') →
  fence_action_body fuel set get lst cyc sync s = (Ret c, s').
Proof.
  intros [H|(e & s1 & k & _ & Hk & H)]%try_Ret_inv; [done|].
  by eapply action_handler_not_Ret in H.
Qed.

Lemma split_plugs_Ret_inv s u s1 :
  split_plugs s = (Ret u, s1) →
  requested_plugs s = current_plugs s1 ∧
  (∀ k, k ≠ "--plugs" → s_opts s1 !! k = s_opts s !! k) ∧ s_dev s1 = s_dev s.
Proof.
  unfold split_plugs, requested_plugs. intros H.
  apply bind_Ret_inv in H as (v & s2 & Hf & H). minv Hf.
  destruct (s_opts s !! "--plug") as [v|]; [|by minv H].
  apply bind_Ret_inv in H as (plug & s2 & [-> ->]%as_str_Ret_inv & H).
  apply bind_Ret_inv in H as (sep & s2 & [-> ->]%opt_str_Ret_inv & H).
  destruct (split sep plug) as [l|]; minv H.
  unfold current_plugs; cbn. rewrite lookup_insert_eq.
  split; [done|split; [|done]]. intros k Hk. by rewrite lookup_insert_ne.
Qed.

(** The listing test when the action neither lists nor monitors. *)
Lemma wants_listing_no s b s1 a :
  s_opts s !! "--action" = Some (VStr a) → a ∉ ["list"; "list-status"; "monitor"] →
  wants_listing s = (Ret b, s1) → b = false ∧ s1 = s.
Proof.
  intros Ha Hn H. unfold wants_listing in H.
  apply bind_Ret_inv in H as (v & s2 & [Hv ->]%opt_get_Ret_inv & H).
  rewrite !not_elem_of_cons in Hn. destruct Hn as (H1 & H2 & H3 & _).
  simplify_eq. rewrite !bool_decide_eq_false_2 in H by congruence. cbn [orb] in H.
  rewrite decide_False in H by congruence. by minv H.
Qed.

Lemma wants_listing_reads s : (wants_listing s).2 = s.
Proof.
  unfold wants_listing. apply bind_reads; [auto with fence|]. intros v s1.
  destruct (_ || _); [done|]. case_decide; [|done].
  apply bind_reads; [auto with fence|]. intros n s2.
  case_decide; [|done]. apply bind_reads; [auto with fence|done].
Qed.

Lemma initial_status_Ret_inv get s v s1 :
  initial_status (Some get) s = (Ret v, s1) →
  v = VNone ∧ s1 = s ∨
  get_multi_power_fn get s = (Ret v, s1) ∧ (v = VStr "on" ∨ v = VStr "off").
Proof.
  unfold initial_status. intros H.
  apply bind_Ret_inv in H as (ns & s2 & [_ ->]%device_opt_in_Ret_inv & H).
  destruct ns; [minv H; by left|]. right.
  apply bind_Ret_inv in H as (v1 & s2 & Hg & H).
  apply bind_Ret_inv in H as (u & s3 & Hf & H).
  apply mwhen_Ret_inv in Hf as [[_ Hf]|[Hv ->]]; [by apply fail_not_Ret in Hf|].
  minv H. split; [done|].
  apply andb_false_iff in Hv. rewrite !bool_decide_eq_false in Hv.
  destruct Hv as [Hv|Hv]; apply dec_stable in Hv; auto.
Qed.

Lemma device_opt_in_same (k : string) s b s1 : device_opt_in k s = (Ret b, s1) → s1 = s.
Proof. by intros [_ ->]%device_opt_in_Ret_inv. Qed.

(** A successful [fence_action] on an action that is not a listing, a monitor or a
    status: what it went through. *)
Lemma fence_action_act fuel set get lst cyc sync s c s' a :
  s_opts s !! "--action" = Some (VStr a) → a ∉ ["list"; "list-status"; "monitor"] →
  fence_action fuel set get lst cyc sync s = (Ret c, s') →
  ∃ s1, requested_plugs s = current_plugs s1 ∧ s_dev s1 = s_dev s ∧
        (∀ k, k ≠ "--plugs" → s_opts s1 !! k = s_opts s !! k) ∧
        act fuel set get cyc sync s1 = (Ret c, s').
Proof.
  intros Ha Hn H%fence_action_Ret_inv. unfold fence_action_body in H.
  apply bind_Ret_inv in H as (u & s1 & (Hp & Hk & Hd)%split_plugs_Ret_inv & H).
  exists s1. split_and!; [done..|].
  apply bind_Ret_inv in H as (b & s2 & Hl & H).
  assert (s_opts s1 !! "--action" = Some (VStr a)) as Ha1 by (by rewrite Hk).
  apply (wants_listing_no _ _ _ a) in Hl as [-> ->]; [|done..].
  apply bind_Ret_inv in H as (v & s2 & [Hv ->]%opt_get_Ret_inv & H).
  apply bind_Ret_inv in H as (b1 & s2 & ->%device_opt_in_same & H).
  apply bind_Ret_inv in H as (b2 & s2 & ->%device_opt_in_same & H).
  rewrite !not_elem_of_cons in Hn. destruct Hn as (_ & _ & Hn & _). simplify_eq.
  rewrite bool_decide_eq_false_2 in H by congruence. done.
Qed.

(** What [act] does once the status is known: stop, or dispatch. *)
Lemma act_Ret_inv fuel set get cyc sync s c s' :
  act fuel set (Some get) cyc sync s = (Ret c, s') →
  ∃ v s1, initial_status (Some get) s = (Ret v, s1) ∧
    ((∃ x, v = VStr x ∧ s_opts s1 !! "--action" = Some v ∧ c = EC_OK ∧
           s' = add_event (EvPrint ("Success: Already " +:+ upper x)) s1) ∨
     dispatch fuel set (Some get) cyc sync v s1 = (Ret c, s')).
Proof.
  unfold act. intros H.
  apply bind_Ret_inv in H as (v & s1 & Hi & H). exists v, s1. split; [done|].
  apply bind_Ret_inv in H as (a & s2 & [Ha ->]%opt_get_Ret_inv & H).
  apply bind_Ret_inv in H as (b & s2 & Hb & H).
  assert (s2 = s1) as ->.
  { case_decide; [|by minv Hb].
    apply bind_Ret_inv in Hb as (f & s3 & ->%device_opt_in_same & Hb). by minv Hb. }
  destruct b; [|by right].
  assert (a = v) as ->.
  { case_decide; [done|by minv Hb]. }
  left. apply bind_Ret_inv in H as (x & s2 & [-> ->]%as_str_Ret_inv & H).
  apply bind_Ret_inv in H as (u & s2 & Hp & H). minv Hp. minv H. eauto.
Qed.

Lemma set_multi_true_off fuel set get sync n s s' plugs :
  keeps same_request get → keeps same_request set →
  set_multi fuel (Some set) (Some get) sync n s = (Ret true, s') →
  s_opts s !! "--action" = Some (VStr "off") → current_plugs s = Some plugs →
  all_seen_off get plugs s'.
Proof. intros ??. by apply async_off_confirmed. Qed.

Lemma get_multi_plugs get s v s' :
  get_multi_power_fn (D := D) get s = (Ret v, s') → is_Some (current_plugs s).
Proof.
  unfold get_multi_power_fn.
  intros (l & s1 & [Hl _]%the_plugs_Ret_inv & _)%bind_Ret_inv. by eexists.
Qed.

Lemma set_multi_plugs fuel set get sync n s b s' :
  set_multi (D := D) fuel (Some set) (Some get) sync n s = (Ret b, s') →
  is_Some (current_plugs s).
Proof.
  intros (l & s1 & [Hl _]%the_plugs_Ret_inv & _)%bind_Ret_inv. by eexists.
Qed.

Lemma initial_status_same get s v s1 :
  keeps same_request get → initial_status (Some get) s = (Ret v, s1) → same_request s s1.
Proof.
  intros Hk [[_ ->]|[H _]]%initial_status_Ret_inv; [done|].
  by eapply keeps_Ret; [apply get_multi_keeps|].
Qed.

Lemma initial_status_off get s s1 :
  initial_status (Some get) s = (Ret (VStr "off"), s1) →
  ∃ plugs, current_plugs s = Some plugs ∧ all_seen_off get plugs s1.
Proof.
  intros [[? _]|[H _]]%initial_status_Ret_inv; [done|].
  destruct (get_multi_plugs _ _ _ _ H) as [plugs Hp]. exists plugs. split; [done|].
  eapply get_multi_reads in H as (vs & Hr & Hv); [|done].
  by eapply reads_all_off, combine_status_off.
Qed.

Lemma dispatch_off_Ret_inv fuel set get cyc sync v s c s' :
  s_opts s !! "--action" = Some (VStr "off") →
  dispatch fuel set get cyc sync v s = (Ret c, s') →
  ∃ s1, set_multi fuel set get sync 1 s = (Ret true, s1) ∧ c = EC_OK ∧
        s' = add_event (EvPrint "Success: Powered OFF") s1.
Proof.
  intros Ha H. unfold dispatch in H.
  apply bind_Ret_inv in H as (a & s1 & [Hv ->]%opt_get_Ret_inv & H). simplify_eq.
  repeat (rewrite decide_False in H by done). rewrite decide_True in H by done.
  apply bind_Ret_inv in H as (u & s1 & Hoff & H). minv H.
  unfold action_off in Hoff.
  apply bind_Ret_inv in Hoff as (b & s2 & Hset & Hp).
  destruct b; [|by apply fail_not_Ret in Hp]. minv Hp. eauto.
Qed.

(** The cycle method is not taken. *)
Definition cycle_requested (s : st D) (cyc : option (M D bool)) : bool :=
  match cyc, s_opts s !! "--method" with
  | Some _, Some (VStr m) => bool_decide (lower m = "cycle")
  | _, _ => false
  end.

Lemma wants_cycle_Ret_inv cyc s b s1 :
  wants_cycle cyc s = (Ret b, s1) → b = cycle_requested s cyc ∧ s1 = s.
Proof.
  unfold wants_cycle, cycle_requested. intros H.
  apply bind_Ret_inv in H as (m & s2 & Hf & H). minv Hf.
  apply bind_Ret_inv in H as (x & s2 & [Hx ->]%as_str_Ret_inv & H). minv H.
  split; [|done]. destruct (s_opts s !! "--method") as [v|]; simplify_eq/=.
  - destruct cyc; cbn; [by rewrite andb_true_r|by rewrite andb_false_r].
  - by destruct cyc.
Qed.

(** A reboot by power off and on that returned: its phases. *)
Lemma action_reboot_Ret_inv fuel set get cyc sync v s u s' :
  cycle_requested s cyc = false →
  action_reboot fuel set get cyc sync v s = (Ret u, s') →
  ∃ s1 power_on s2,
    reboot_off_phase fuel set get sync v s = (Ret tt, s1) ∧
    reboot_on_phase fuel set get sync s1 = (Ret power_on, s2) ∧
    s' = add_event (EvPrint "Success: Rebooted")
           (if power_on then s2
            else add_event (EvLog ERROR ("Timed out waiting to power ON" +:+ nl)) s2).
Proof.
  intros Hc H. unfold action_reboot in H.
  apply bind_Ret_inv in H as (b & s1 & [-> ->]%wants_cycle_Ret_inv & H).
  rewrite Hc in H. apply bind_Ret_inv in H as (p & s2 & Hph & H).
  apply bind_Ret_inv in Hph as ([] & s1 & Hoff & Hon).
  apply bind_Ret_inv in H as (u1 & s3 & Hl & H). minv H.
  exists s1, p, s2. split_and!; [done..|].
  apply mwhen_Ret_inv in Hl as [[Hp Hl]|[Hp ->]]; destruct p; try done. by minv Hl.
Qed.

Lemma dispatch_reboot_Ret_inv fuel set get cyc sync v s c s' :
  s_opts s !! "--action" = Some (VStr "reboot") →
  dispatch fuel set get cyc sync v s = (Ret c, s') →
  c = EC_OK ∧ action_reboot fuel set get cyc sync v s = (Ret tt, s').
Proof.
  intros Ha H. unfold dispatch in H.
  apply bind_Ret_inv in H as (a & s1 & [Hv ->]%opt_get_Ret_inv & H). simplify_eq.
  repeat (rewrite decide_False in H by done). rewrite decide_True in H by done.
  apply bind_Ret_inv in H as ([] & s1 & Hr & H). by minv H.
Qed.

Lemma reboot_off_phase_seen_off fuel set get sync v s plugs s1 :
  keeps same_request get → keeps same_request set → current_plugs s = Some plugs →
  v ≠ VStr "off" →
  reboot_off_phase fuel (Some set) (Some get) sync v s = (Ret tt, s1) →
  all_seen_off get plugs s1.
Proof.
  intros Hg Hs Hp Hv H. unfold reboot_off_phase in H. rewrite decide_False in H by done.
  apply bind_Ret_inv in H as (u & s2 & Hset & H). minv Hset.
  apply bind_Ret_inv in H as (b & s3 & Hset & H).
  apply mwhen_Ret_inv in H as [[_ H]|[Hb ->]]; [by apply fail_not_Ret in H|].
  destruct b; [|done]. eapply set_multi_true_off; [done|done|done|..].
  - cbn. by rewrite lookup_insert_eq.
  - rewrite <- Hp. unfold current_plugs. cbn. by rewrite lookup_insert_ne.
Qed.

Lemma get_multi_no_fuel get :
  (∀ s, (get s).1 ≠ OutOfFuel) → ∀ s, (get_multi_power_fn (D := D) get s).1 ≠ OutOfFuel.
Proof.
  intros Hg s. unfold get_multi_power_fn. apply bind_no_fuel.
  - unfold the_plugs, mbind, M_bind, opt_find. by destruct (s_opts s !! "--plugs") as [[]|].
  - intros l s1 _. apply mfold_no_fuel. intros b x s2.
    apply bind_no_fuel; [by unfold select_plug, mbind, M_bind; destruct (uuid_str x)|].
    intros u s3 _. by apply bind_no_fuel.
Qed.

Lemma select_plug_sets plug s u s1 :
  select_plug plug s = (Ret u, s1) → s_opts s1 !! "--plug" = Some (VStr plug).
Proof.
  unfold select_plug. intros H. apply bind_Ret_inv in H as (x & s2 & _ & H). minv H.
  by apply lookup_insert_eq.
Qed.

(** A loop whose body never turns a false accumulator true. *)
Lemma mfold_and_true {A} (l : list A) (f : bool → A → M D bool) acc s s' :
  (∀ acc x s s', f acc x s = (Ret true, s') → acc = true) →
  mfold f acc l s = (Ret true, s') → acc = true.
Proof.
  intros Hf. revert acc s. induction l as [|x l IH]; intros acc s H; cbn [mfold] in H.
  - by minv H.
  - apply bind_Ret_inv in H as (acc' & s1 & H1 & H). apply IH in H as ->. by eapply Hf.
Qed.

Lemma per_plug_body_inv f n acc plug s s' :
  (select_plug plug ;;
   ok ← retry_loop n f;
   t ← opt_int "--power-wait";
   sleep t ;;
   mret (acc && ok)) s = (Ret true, s') →
  acc = true ∧
  ∃ s1 s2, select_plug plug s = (Ret tt, s1) ∧ retry_loop n f s1 = (Ret true, s2).
Proof.
  intros H. apply bind_Ret_inv in H as ([] & s1 & Hsel & H).
  apply bind_Ret_inv in H as (ok & s2 & Hr & H).
  apply bind_Ret_inv in H as (t & s3 & _ & H).
  apply bind_Ret_inv in H as (u & s4 & _ & H). rewrite mret_eq in H.
  injection H as [-> ->]%andb_true_iff _. eauto.
Qed.

Lemma retry_loop_true k plug f s s' :
  keeps (same_key "--plug") f → s_opts s !! "--plug" = Some (VStr plug) → 0 < k →
  retry_loop k f s = (Ret true, s') →
  ∃ s1 s2, s_opts s1 !! "--plug" = Some (VStr plug) ∧ f s1 = (Ret true, s2).
Proof.
  intros Hk. revert s. induction k as [|k IH]; intros s Hp Hlt H; [lia|].
  cbn [retry_loop] in H. apply bind_Ret_inv in H as (b & s1 & Hf & H).
  destruct b; [eauto|]. case_decide; [minv H|].
  eapply IH; [|lia|exact H]. specialize (Hk s). rewrite Hf in Hk.
  unfold same_key in Hk. cbn in Hk. congruence.
Qed.

Lemma per_plug_true k f acc plugs s s' :
  keeps (same_key "--plug") f → 0 < k →
  mfold (λ success plug,
    select_plug plug ;;
    ok ← retry_loop k f;
    t ← opt_int "--power-wait";
    sleep t ;;
    mret (success && ok)) acc plugs s = (Ret true, s') →
  Forall (λ plug, ∃ s1 s2, s_opts s1 !! "--plug" = Some (VStr plug) ∧ f s1 = (Ret true, s2))
    plugs.
Proof.
  intros Hk Hlt. revert acc s.
  induction plugs as [|plug plugs IH]; intros acc s H; [constructor|].
  cbn [mfold] in H. apply bind_Ret_inv in H as (acc' & s1 & H1 & H).
  constructor; [|by eapply IH].
  apply mfold_and_true in H as ->; [|by intros ???? [-> _]%per_plug_body_inv].
  apply per_plug_body_inv in H1 as (_ & s2 & s3 & Hsel & Hr).
  eapply retry_loop_true; [done| |done|exact Hr]. by apply select_plug_sets in Hsel.
Qed.

Lemma combine_status_last vs :
  combine_status vs ≠ VStr "off" → last (filter (.≠ VStr "off") vs) = Some (combine_status vs).
Proof.
  unfold combine_status. induction vs as [|v vs IH] using rev_ind; [done|].
  rewrite foldl_app, filter_app. cbn [foldl]. intros Hne.
  case_decide as Hv.
  - rewrite filter_cons_False by (intros Hn; by apply Hn). rewrite filter_nil, app_nil_r. auto.
  - rewrite filter_cons_True by done. by rewrite filter_nil, last_snoc.
Qed.

Lemma listing_of_cons a sep o os :
  listing_of a sep (o :: os) = (listing_of a sep [o] ++ listing_of a sep os)%list.
Proof. unfold listing_of. by repeat case_decide. Qed.

Lemma print_outlet_eq a sep o s :
  s_opts s !! "--action" = Some (VStr a) → s_opts s !! "--separator" = Some (VStr sep) →
  print_outlet o s =
  (Ret tt, St (s_opts s) (s_allopt s) (s_trace s ++ listing_of a sep [o])%list (s_clock s) (s_dev s)).
Proof.
  intros Ha Hs. destruct o as [i [alias status]]. unfold print_outlet, listing_of.
  rewrite (bind_Ret _ _ _ _ _ (opt_get_eq _ _ _ Ha)).
  repeat case_decide; simplify_eq; try congruence;
    try (by rewrite (bind_Ret _ _ _ _ _ (opt_str_eq _ _ _ Hs))).
  rewrite app_nil_r. by destruct s.
Qed.

Lemma mfor_print_outlet a sep os s :
  s_opts s !! "--action" = Some (VStr a) → s_opts s !! "--separator" = Some (VStr sep) →
  mfor os print_outlet s =
  (Ret tt, St (s_opts s) (s_allopt s) (s_trace s ++ listing_of a sep os)%list (s_clock s) (s_dev s)).
Proof.
  revert s. induction os as [|o os IH]; intros s Ha Hs; cbn [mfor].
  - replace (listing_of a sep []) with (@nil event) by (unfold listing_of; by repeat case_decide).
    rewrite app_nil_r. by destruct s.
  - rewrite (bind_Ret _ _ _ _ _ (print_outlet_eq _ _ _ _ Ha Hs)).
    rewrite IH by done. cbn. by rewrite <- app_assoc, <- listing_of_cons.
Qed.
End Theorems.
