(* ===== verification/ActionSpec.v ===== *)
(** * What [fence_action] promises

    The properties of the fencing action for arbitrary agent callbacks, and a model
    power switch on which every one of them is exercised. *)

From S2P Require Import Prelude PyStr OptionDefs Effects Fail Action.

Local Open Scope string_scope.

(** ** A model power switch

    Outlets by plug name; the callbacks are those of a well behaved agent. [lazy] is a
    switch that ignores commands. *)
Module Pdu.
Record pdu := Pdu { outlets_of : gmap string string; lazy : bool }.

Definition get_power_fn : M pdu pyval :=
  plug ← opt_str "--plug";
  s ← get_st;
  match outlets_of (s_dev s) !! plug with
  | Some x => mret (VStr x)
  | None => fail EC_STATUS true ;; mret VNone
  end.

Definition set_power_fn : M pdu unit :=
  plug ← opt_str "--plug";
  action ← opt_str "--action";
  modify (λ s,
    if lazy (s_dev s) then s
    else set_dev (Pdu (<[plug := action]> (outlets_of (s_dev s))) false) s).

(** A switch that loses an outlet when it is told to power it on. *)
Definition set_power_drop : M pdu unit :=
  plug ← opt_str "--plug";
  action ← opt_str "--action";
  modify (λ s,
    set_dev (Pdu (if decide (action = "on") then delete plug (outlets_of (s_dev s))
                  else <[plug := action]> (outlets_of (s_dev s))) false) s).

Definition get_outlet_list : M pdu outlets :=
  s ← get_st;
  mret ((λ '(p, x), (p, ("name" +:+ p, Some x))) <$> map_to_list (outlets_of (s_dev s))).

(** A synchronous callback of a well behaved agent. *)
Definition sync_set_power_fn : M pdu bool := set_power_fn ;; mret true.

Definition start (action plug : string) (extra : list (string * pyval)) (d : pdu) : st pdu :=
  St (list_to_map (extra ++
        [("--action", VStr action); ("--plug", VStr plug); ("--plug-separator", VStr ",");
         ("--power-wait", VStr "0"); ("--power-timeout", VStr "20");
         ("--stonith-status-sleep", VStr "1"); ("--retry-on", VStr "1");
         ("--separator", VStr ","); ("device_opt", VList ["port"; "separator"])]))
     ∅ [] 0 d.

Definition two_on : pdu := Pdu {["1" := "on"; "2" := "on"]} false.
Definition stuck : pdu := Pdu {["1" := "on"]} true.

Definition run (s : st pdu) : outcome Z * st pdu :=
  fence_action 30 (Some set_power_fn) (Some get_power_fn) None None None s.

Lemma get_keeps : keeps same_request get_power_fn.
Proof.
  unfold get_power_fn. keeps_tac; [by intros s|].
  unfold fail. cbn. keeps_tac; intros s; cbn; done.
Qed.

Lemma get_keeps_key k : keeps (same_key k) get_power_fn.
Proof.
  unfold get_power_fn. keeps_tac. by intros s.
Qed.

Lemma get_keeps_device_opt : keeps (same_key "device_opt") get_power_fn.
Proof. apply get_keeps_key. Qed.
Lemma get_keeps_power_timeout : keeps (same_key "--power-timeout") get_power_fn.
Proof. apply get_keeps_key. Qed.

Lemma get_no_fuel s : (get_power_fn s).1 ≠ OutOfFuel.
Proof.
  unfold get_power_fn. apply bind_no_fuel; [apply opt_str_no_fuel|]. intros p s1 _.
  apply bind_no_fuel; [done|]. intros s2 s3 _.
  by destruct (outlets_of (s_dev s2) !! p).
Qed.

Lemma sync_keeps_plug : keeps (same_key "--plug") sync_set_power_fn.
Proof.
  unfold sync_set_power_fn, set_power_fn. keeps_tac. intros s. unfold same_key. cbn.
  by destruct (lazy (s_dev s)).
Qed.

Lemma set_keeps : keeps same_request set_power_fn.
Proof.
  unfold set_power_fn. keeps_tac. intros s. cbn. by destruct (lazy (s_dev s)).
Qed.
End Pdu.

(** The plugs and action waited for, the poll limit and the pause between polls. *)
Definition waits_for {D} (plugs : list string) (action : pyval) (T t : Z) (s : st D) : Prop :=
  current_plugs s = Some plugs ∧ s_opts s !! "--action" = Some action ∧
  (∃ v, s_opts s !! "--power-timeout" = Some v ∧ py_int v = inl T) ∧
  (∃ v, s_opts s !! "--stonith-status-sleep" = Some v ∧ py_int v = inl t).

Section Fencing.
Context {D : Type}.
Implicit Types s : st D.

(** C1. Fencing safety of "off": when [fence_action] with asynchronous callbacks
    returns, it returns 0, and the last thing that happened before the success message
    is a round of status reads, one per requested plug, that all answered "off". *)
Theorem fence_off_confirmed fuel set get lst cyc sync s c s' :
  keeps same_request get → keeps same_request set →
  s_opts s !! "--action" = Some (VStr "off") →
  fence_action fuel (Some set) (Some get) lst cyc sync s = (Ret c, s') →
  c = EC_OK ∧
  ∃ plugs s1 msg,
    requested_plugs s = Some plugs ∧ all_seen_off get plugs s1 ∧
    s' = add_event (EvPrint msg) s1 ∧
    msg ∈ ["Success: Powered OFF"; "Success: Already OFF"].
Proof.
  intros Hg Hs Ha H.
  eapply fence_action_act in H as (s1 & Hp & _ & Hk & H); [|done|closed_dec].
  assert (s_opts s1 !! "--action" = Some (VStr "off")) as Ha1 by (by rewrite Hk).
  apply act_Ret_inv in H as (v & s2 & Hi & H).
  pose proof (initial_status_same _ _ _ _ Hg Hi) as Hsame.
  pose proof Hsame as (Ha2 & _). rewrite Ha1 in Ha2.
  destruct H as [(x & -> & Hx & -> & ->)|H].
  - rewrite Ha2 in Hx. simplify_eq.
    destruct (initial_status_off _ _ _ Hi) as (plugs & Hpl & Hoff).
    split; [done|]. exists plugs, s2, "Success: Already OFF".
    split_and!; [congruence|done|done|closed_dec].
  - apply dispatch_off_Ret_inv in H as (s3 & Hset & -> & ->); [|done].
    destruct (set_multi_plugs _ _ _ _ _ _ _ _ Hset) as [plugs Hpl].
    split; [done|]. exists plugs, s3, "Success: Powered OFF".
    split_and!; [|by eapply set_multi_true_off|done|closed_dec].
    rewrite Hp, <- (same_request_plugs _ _ Hsame). done.
Qed.

(** C2. Fencing safety of "reboot" by power off and on: when [fence_action] returns, it
    returns 0; at some moment every requested plug had answered "off", one after the
    other, and what follows that moment is the power-on phase and the success message. *)
Theorem fence_reboot_confirmed fuel set get lst cyc sync s c s' :
  keeps same_request get → keeps same_request set →
  s_opts s !! "--action" = Some (VStr "reboot") → cycle_requested s cyc = false →
  fence_action fuel (Some set) (Some get) lst cyc sync s = (Ret c, s') →
  c = EC_OK ∧
  ∃ plugs s1 power_on s2,
    requested_plugs s = Some plugs ∧ all_seen_off get plugs s1 ∧
    reboot_on_phase fuel (Some set) (Some get) sync s1 = (Ret power_on, s2) ∧
    s' = add_event (EvPrint "Success: Rebooted")
           (if power_on then s2
            else add_event (EvLog ERROR ("Timed out waiting to power ON" +:+ nl)) s2).
Proof.
  intros Hg Hs Ha Hc H.
  eapply fence_action_act in H as (s1 & Hp & _ & Hk & H); [|done|closed_dec].
  assert (s_opts s1 !! "--action" = Some (VStr "reboot")) as Ha1 by (by rewrite Hk).
  apply act_Ret_inv in H as (v & s2 & Hi & H).
  pose proof (initial_status_same _ _ _ _ Hg Hi) as Hsame.
  pose proof Hsame as (Ha2 & _ & Hm2). rewrite Ha1 in Ha2. rewrite Hk in Hm2 by done.
  destruct H as [(x & -> & Hx & _)|H].
  { rewrite Ha2 in Hx. simplify_eq.
    by apply initial_status_Ret_inv in Hi as [[? _]|[_ [?|?]]]. }
  apply dispatch_reboot_Ret_inv in H as [-> H]; [|done]. split; [done|].
  assert (cycle_requested s2 cyc = false) as Hc2.
  { unfold cycle_requested in *. by rewrite Hm2. }
  apply action_reboot_Ret_inv in H as (s3 & p & s4 & Hoff & Hon & ->); [|done].
  destruct (decide (v = VStr "off")) as [->|Hv].
  - unfold reboot_off_phase in Hoff. rewrite decide_True in Hoff by done. minv Hoff.
    destruct (initial_status_off _ _ _ Hi) as (plugs & Hpl & Hseen).
    exists plugs, s2, p, s4. split_and!; [congruence|done..].
  - pose proof Hoff as Hoff'. unfold reboot_off_phase in Hoff'.
    rewrite decide_False in Hoff' by done.
    apply bind_Ret_inv in Hoff' as (u & s5 & Hu & Hoff'). minv Hu.
    apply bind_Ret_inv in Hoff' as (b & s6 & Hset & _).
    destruct (set_multi_plugs _ _ _ _ _ _ _ _ Hset) as [plugs Hpl].
    assert (current_plugs s2 = Some plugs) as Hpl2.
    { rewrite <- Hpl. unfold current_plugs. cbn. by rewrite lookup_insert_ne. }
    exists plugs, s3, p, s4. split_and!; [|by eapply reboot_off_phase_seen_off|done|done].
    rewrite Hp, <- (same_request_plugs _ _ Hsame). done.
Qed.

(** C16. Queries do not fence: for an action other than on, off and reboot the result is
    the same whatever the callbacks that change power are. *)
Theorem queries_never_fence fuel fuel' set set' get lst cyc cyc' sync sync' s a :
  keeps same_request get →
  s_opts s !! "--action" = Some (VStr a) → a ∉ ["on"; "off"; "reboot"] →
  fence_action fuel set (Some get) lst cyc sync s =
  fence_action fuel' set' (Some get) lst cyc' sync' s.
Proof.
  intros Hg Ha Hn. unfold fence_action, try_except.
  enough (fence_action_body fuel set (Some get) lst cyc sync s =
          fence_action_body fuel' set' (Some get) lst cyc' sync' s) as -> by done.
  unfold fence_action_body. apply bind_ext.
  intros u s1 (_ & Hk & _)%split_plugs_Ret_inv.
  assert (s_opts s1 !! "--action" = Some (VStr a)) as Ha1 by (by rewrite Hk).
  apply bind_ext. intros b s2 Hw.
  assert (s2 = s1) as -> by (apply (f_equal snd) in Hw; by rewrite wants_listing_reads in Hw).
  destruct b; [done|].
  apply bind_ext. intros v s2 [_ ->]%opt_get_Ret_inv.
  apply bind_ext. intros p s2 ->%device_opt_in_same.
  apply bind_ext. intros n s2 ->%device_opt_in_same.
  destruct (_ && _); [done|].
  unfold act. apply bind_ext. intros st s2 Hi%initial_status_same; [|done].
  apply bind_ext. intros v2 s3 [_ ->]%opt_get_Ret_inv.
  destruct Hi as (Ha2 & _). rewrite Ha1 in Ha2.
  apply bind_ext. intros al s3 Hal.
  assert (s_opts s3 !! "--action" = Some (VStr a)) as Ha3.
  { case_decide; [|by minv Hal].
    apply bind_Ret_inv in Hal as (f & s4 & ->%device_opt_in_same & Hal). by minv Hal. }
  destruct al; [done|]. unfold dispatch.
  apply bind_ext. intros v3 s4 [Hv3 ->]%opt_get_Ret_inv.
  rewrite !not_elem_of_cons in Hn. destruct Hn as (? & ? & ? & _).
  assert (v3 = VStr a) as -> by congruence.
  repeat case_decide; first [congruence | done].
Qed.

(** C17. Transport errors do not escape: [fence_action] turns an EOF or timeout of the
    session, a curl error and a socket timeout into exit status 1, and lets every other
    outcome of its body through unchanged. *)
Theorem fence_action_errors fuel set get lst cyc sync s :
  let body := fence_action_body fuel set get lst cyc sync s in
  let run := fence_action fuel set get lst cyc sync s in
  match body.1 with
  | Raise (PexpectEOF _) | Raise (PexpectTIMEOUT _) | Raise (PycurlError _)
  | Raise (SocketTimeout _) =>
      run.1 = Raise (SystemExit EC_GENERIC_ERROR) ∧ s_opts run.2 = s_opts body.2 ∧
      s_dev run.2 = s_dev body.2
  | _ => run = body
  end.
Proof.
  cbv zeta. unfold fence_action, try_except.
  destruct (fence_action_body fuel set get lst cyc sync s) as [[c|e|] s1]; [done| |done].
  by destruct e.
Qed.

(** The value [fence_action] returns is 0, or 2; it is 2 only when the action was
    "status" and "Status: OFF" has just been printed. *)
Theorem fence_action_result fuel set get lst cyc sync s c s' :
  fence_action fuel set get lst cyc sync s = (Ret c, s') →
  c = EC_OK ∨
  c = 2%Z ∧ s_opts s' !! "--action" = Some (VStr "status") ∧
  last (s_trace s') = Some (EvPrint "Status: OFF").
Proof.
  intros H%fence_action_Ret_inv. unfold fence_action_body in H.
  apply bind_Ret_inv in H as (u & s1 & _ & H).
  apply bind_Ret_inv in H as ([] & s2 & _ & H).
  { apply bind_Ret_inv in H as (u2 & s3 & _ & H). minv H. by left. }
  apply bind_Ret_inv in H as (v & s3 & _ & H).
  apply bind_Ret_inv in H as (p & s4 & _ & H).
  apply bind_Ret_inv in H as (n & s5 & _ & H).
  destruct (_ && _); [minv H; by left|]. unfold act in H.
  apply bind_Ret_inv in H as (st & s6 & _ & H).
  apply bind_Ret_inv in H as (a & s7 & _ & H).
  apply bind_Ret_inv in H as ([] & s8 & _ & H).
  { apply bind_Ret_inv in H as (x & s9 & _ & H).
    apply bind_Ret_inv in H as (y & s10 & _ & H). minv H. by left. }
  unfold dispatch in H.
  apply bind_Ret_inv in H as (a1 & s9 & [Ha ->]%opt_get_Ret_inv & H).
  repeat case_decide;
    try (by apply bind_Ret_inv in H as (y & s10 & _ & H); minv H; left).
  2: { minv H. by left. }
  subst a1. unfold action_status in H.
  apply bind_Ret_inv in H as (x & s9 & [-> ->]%as_str_Ret_inv & H).
  apply bind_Ret_inv in H as (y & s9 & Hp & H). minv Hp. minv H.
  case_bool_decide as Hx; [|by left]. right. rewrite Hx. cbn.
  by rewrite last_snoc.
Qed.

(** Nothing to do: when the plugs are already in the requested state (and the agent
    does not force "on"), no callback that changes power runs; the action is reported
    as already done. *)
Theorem fence_already_done fuel set get lst cyc sync s a l s2 :
  keeps same_request get → keeps (same_key "device_opt") get →
  s_opts s !! "--action" = Some (VStr a) → a ∈ ["on"; "off"] →
  s_opts s !! "device_opt" = Some (VList l) → a = "off" ∨ "force_on" ∉ l →
  (split_plugs ;; initial_status (Some get)) s = (Ret (VStr a), s2) →
  fence_action fuel set (Some get) lst cyc sync s =
  (Ret EC_OK, add_event (EvPrint ("Success: Already " +:+ upper a)) s2).
Proof.
  intros Hg Hgd Ha Hin Hl Hforce H.
  apply bind_Ret_inv in H as ([] & s1 & Hsp & Hi).
  pose proof Hsp as (_ & Hk & _)%split_plugs_Ret_inv.
  rewrite <- (Hk "device_opt") in Hl by done. rewrite <- (Hk "--action") in Ha by done.
  pose proof (initial_status_same _ _ _ _ Hg Hi) as (Ha2 & _). rewrite Ha in Ha2.
  assert (s_opts s2 !! "device_opt" = Some (VList l)) as Hl2.
  { apply initial_status_Ret_inv in Hi as [[? _]|[Hi _]]; [done|].
    pose proof (get_multi_keeps_key "device_opt" get) as Hkk.
    specialize (Hkk ltac:(done) ltac:(done) Hgd s1). rewrite Hi in Hkk. unfold same_key in Hkk. cbn [snd] in Hkk.
    by rewrite Hkk. }
  unfold fence_action, try_except, fence_action_body.
  rewrite (bind_Ret _ _ _ _ _ Hsp). cbv beta.
  assert (wants_listing s1 = (Ret false, s1)) as Hw.
  { unfold wants_listing. rewrite (bind_Ret _ _ _ _ _ (opt_get_eq _ _ _ Ha)).
    rewrite !elem_of_cons in Hin. by destruct Hin as [-> |[-> |Hin%not_elem_of_nil]]. }
  rewrite (bind_Ret _ _ _ _ _ Hw). rewrite (bind_Ret _ _ _ _ _ (opt_get_eq _ _ _ Ha)).
  rewrite !(bind_Ret _ _ _ _ _ (device_opt_in_eq _ _ _ Hl)).
  rewrite bool_decide_eq_false_2.
  2: { rewrite !elem_of_cons in Hin. by destruct Hin as [-> |[-> |Hin%not_elem_of_nil]]. }
  cbn [andb]. unfold act.
  rewrite (bind_Ret _ _ _ _ _ Hi). rewrite (bind_Ret _ _ _ _ _ (opt_get_eq _ _ _ Ha2)).
  rewrite decide_True by done. rewrite bind_assoc.
  rewrite (bind_Ret _ _ _ _ _ (device_opt_in_eq _ _ _ Hl2)).
  assert (bool_decide (VStr a = VStr "on") && py_in "force_on" l = false) as ->; [|done].
  destruct Hforce as [-> |Hf]; [done|]. apply andb_false_intro2. by apply py_in_false.
Qed.

(** Errors while powering back on: a reboot whose power-on phase raises an
    [Exception] goes on (the power-on is reported as not done, with a warning); a
    [SystemExit] of a callback, which is what [fail] raises, ends the run instead. *)
Theorem reboot_on_phase_exceptions fuel set get sync s e s1 :
  (opt_set "--action" (VStr "on") ;;
   r ← opt_int "--retry-on"; set_multi fuel set get sync r) s = (Raise e, s1) →
  reboot_on_phase fuel set get sync s =
  if is_Exception e
  then (Ret false, set_opts (<["--action" := VStr "reboot"]> (s_opts s1))
                     (add_event (EvLog WARNING (exn_str e)) s1))
  else (Raise e, s1).
Proof.
  unfold reboot_on_phase. intros H.
  assert ((r ← opt_int "--retry-on"; set_multi fuel set get sync r)
            (set_opts (<["--action" := VStr "on"]> (s_opts s)) s) = (Raise e, s1)) as H1
    by exact H.
  erewrite bind_Ret; [|done]. unfold warn_on_exception, try_except.
  unfold mbind at 1, M_bind at 1. rewrite H1. by destruct (is_Exception e).
Qed.

(** C18. The wait loop gives up after [--power-timeout] polls, not seconds: with a device
    that never reaches the target it sleeps [--stonith-status-sleep] after each poll. *)
Theorem wait_gives_up_after_timeout_polls get (stuck : D → Prop) plugs action T t fuel n s :
  (∀ s0, stuck (s_dev s0) → waits_for plugs action T t s0 → ∃ v s1,
     get_multi_power_fn get s0 = (Ret v, s1) ∧ v ≠ action ∧ stuck (s_dev s1) ∧
     waits_for plugs action T t s1 ∧ s_clock s1 = s_clock s0) →
  stuck (s_dev s) → waits_for plugs action T t s → (0 ≤ t)%Z → (1 ≤ n ≤ T)%Z → (Z.to_nat (T - n) < fuel)%nat →
  ∃ s', wait_for_action (D := D) fuel get n s = (Ret false, s') ∧
        s_clock s' = (s_clock s + (T - n + 1) * (t * USEC))%Z.
Proof.
  intros Hget. revert n s. induction fuel as [|fuel IH]; intros n s Hst Hw Ht Hn Hf; [lia|].
  cbn [wait_for_action].
  destruct (Hget s Hst Hw) as (v & s1 & Hg & Hv & Hst1 & Hw1 & Hc).
  rewrite (bind_Ret _ _ _ _ _ Hg).
  destruct Hw1 as (Hp & Ha & (vT & HT & HTi) & (vt & Htt & Hti)).
  rewrite (bind_Ret _ _ _ _ _ (opt_get_eq _ _ _ Ha)).
  rewrite decide_False by done.
  rewrite (bind_Ret _ _ _ _ _ (opt_int_eq _ _ _ _ Htt Hti)).
  rewrite (bind_Ret _ _ _ _ _ (sleep_eq _ _ Ht)).
  set (s2 := set_clock _ _).
  rewrite (bind_Ret _ _ _ _ _ (opt_int_eq _ vT T s2 HT HTi)).
  destruct (decide (n = T)) as [->|HnT].
  - replace ((0 <? T) && (T <=? T))%Z with true by lia.
    exists s2. split; [done|]. cbn. lia.
  - replace ((0 <? T) && (T <=? n))%Z with false by lia.
    destruct (IH (n + 1)%Z s2) as (s' & Hr & Hc'); [done| |lia..|].
    { split_and!; eauto. }
    exists s'. split; [done|]. rewrite Hc'. cbn. lia.
Qed.

(** C20. With a positive [--power-timeout] the wait loop terminates, whatever the
    device does, within that many polls: one unit of fuel per poll is enough. *)
Theorem wait_terminates get T fuel n s :
  keeps (same_key "--power-timeout") get → (∀ s0, (get s0).1 ≠ OutOfFuel) →
  (∃ v, s_opts s !! "--power-timeout" = Some v ∧ py_int v = inl T) →
  (0 < T)%Z → (1 ≤ n)%Z → (Z.to_nat (T - n) < fuel)%nat →
  (wait_for_action (D := D) fuel get n s).1 ≠ OutOfFuel.
Proof.
  intros Hk Hfuel. revert n s. induction fuel as [|fuel IH]; intros n s Hv HT Hn Hf; [lia|].
  pose proof (get_multi_keeps_key "--power-timeout" get ltac:(done) ltac:(done) Hk s) as Hk1.
  pose proof (get_multi_no_fuel get Hfuel s) as Hnf.
  cbn [wait_for_action]. unfold mbind at 1, M_bind at 1.
  destruct (get_multi_power_fn get s) as [[status|e|] s1] eqn:Hg; [|done|done].
  unfold same_key in Hk1. cbn [snd fst] in *.
  apply bind_no_fuel; [apply opt_get_no_fuel|]. intros a s2 [_ ->]%opt_get_Ret_inv.
  case_decide; [apply mret_no_fuel|].
  apply bind_no_fuel; [apply opt_int_no_fuel|]. intros t s2 [_ ->]%opt_int_Ret_inv.
  apply bind_no_fuel; [apply sleep_no_fuel|]. intros u s2 Hsl.
  assert (s_opts s2 = s_opts s1) as Ho.
  { unfold sleep in Hsl. by apply sleep_us_Ret_inv in Hsl as [_ ->]. }
  destruct Hv as (v & Hv & Hi).
  assert (s_opts s2 !! "--power-timeout" = Some v) as Hv2 by (by rewrite Ho, Hk1).
  rewrite (bind_Ret _ _ _ _ _ (opt_int_eq _ _ _ _ Hv2 Hi)).
  destruct (((0 <? T) && (T <=? n))%Z) eqn:E; [apply mret_no_fuel|].
  apply IH; [eauto|done|lia|lia].
Qed.

(** C21. Synchronous callbacks: when the per-plug loop reports success after at least one
    attempt per plug, then for each requested plug some call of the callback, made with
    [--plug] naming it, returned true. *)
Theorem sync_success_is_per_plug sync n s s' plugs :
  keeps (same_key "--plug") sync → (0 < n)%Z →
  current_plugs s = Some plugs →
  sync_set_multi_power_fn (D := D) sync n s = (Ret true, s') →
  Forall (λ plug, ∃ s1 s2, s_opts s1 !! "--plug" = Some (VStr plug) ∧
                           sync s1 = (Ret true, s2)) plugs.
Proof.
  intros Hk Hn Hp H. unfold sync_set_multi_power_fn, per_plug in H.
  apply bind_Ret_inv in H as (l & s1 & [Hl ->]%the_plugs_Ret_inv & H).
  rewrite Hp in Hl. simplify_eq. clear Hp.
  eapply per_plug_true; [done| |exact H]. lia.
Qed.

(** The status of several plugs: off exactly when every plug answered off, and
    otherwise the last answer that is not off. *)
Theorem get_multi_status get s v s' :
  get_multi_power_fn (D := D) get s = (Ret v, s') →
  ∃ plugs vs, current_plugs s = Some plugs ∧ reads get plugs vs s s' ∧
    (v = VStr "off" ↔ Forall (.= VStr "off") vs) ∧
    (v ≠ VStr "off" → last (filter (.≠ VStr "off") vs) = Some v).
Proof.
  intros H. destruct (get_multi_plugs _ _ _ _ H) as [plugs Hp].
  eapply get_multi_reads in H as (vs & Hr & ->); [|done].
  exists plugs, vs. split_and!; [done|done|apply combine_status_off|].
  apply combine_status_last.
Qed.

(** A plug that is not a UUID leaves [--uuid] as the previous plug set it: among
    several plugs a callback can see the UUID of another one. *)
Theorem select_plug_uuid plug s :
  (select_plug (D := D) plug s).1 = Ret tt ∧
  s_opts (select_plug plug s).2 !! "--plug" = Some (VStr plug) ∧
  s_opts (select_plug plug s).2 !! "--uuid" =
    match uuid_str plug with
    | Some u => Some (VStr u)
    | None => s_opts s !! "--uuid"
    end.
Proof.
  unfold select_plug. destruct (uuid_str plug) as [u|]; cbn; split_and!; by simplify_map_eq.
Qed.

(** Listing: the callback runs with the action "list"; afterwards the requested
    action is back, the temporary key is gone, and each outlet gives one line, in
    order. *)
Theorem list_outlets_prints get_outlets s a sep l os d :
  s_opts s !! "--action" = Some (VStr a) → a ∈ ["list"; "list-status"; "monitor"] →
  s_opts s !! "--separator" = Some (VStr sep) →
  s_opts s !! "device_opt" = Some (VList l) → "port" ∈ l →
  s_opts s !! "--original-action" = None →
  let during := set_opts (<["--action" := VStr "list"]>
                  (<["--original-action" := VStr a]> (s_opts s))) s in
  get_outlets during = (Ret os, set_dev d during) →
  list_outlets (Some get_outlets) s =
  (Ret tt, St (s_opts s) (s_allopt s) (s_trace s ++ listing_of a sep os)%list (s_clock s) d).
Proof.
  intros Ha Hin Hsep Hl Hport Horig during Hget. unfold list_outlets.
  rewrite (bind_Ret _ _ _ _ _ (device_opt_count_eq _ _ _ Hl)).
  rewrite decide_False by (intros ?%py_count_zero; done).
  rewrite (bind_Ret _ _ _ _ _ (opt_get_eq _ _ _ Ha)).
  do 2 (erewrite bind_Ret by (unfold opt_set, modify; reflexivity)).
  change (set_opts _ (set_opts _ s)) with during.
  rewrite (bind_Ret _ _ _ _ _ Hget).
  assert (s_opts (set_dev d during) !! "--original-action" = Some (VStr a)) as Ho.
  { cbn. by rewrite lookup_insert_ne, lookup_insert_eq. }
  rewrite (bind_Ret _ _ _ _ _ (opt_get_eq _ _ _ Ho)).
  erewrite bind_Ret by (unfold opt_set, modify; reflexivity).
  erewrite bind_Ret.
  2: { unfold opt_del. cbn. by rewrite lookup_insert_ne, lookup_insert_ne, lookup_insert_eq. }
  cbn. replace (delete _ _) with (s_opts s).
  2: { apply map_eq. intros k. destruct (decide (k = "--original-action")) as [->|Hk1].
       - by rewrite lookup_delete_eq.
       - rewrite lookup_delete_ne by done. destruct (decide (k = "--action")) as [->|Hk2].
         + by rewrite lookup_insert_eq.
         + by rewrite !lookup_insert_ne by done. }
  by rewrite (mfor_print_outlet a sep) by done.
Qed.
End Fencing.


(** ** The properties on the model switch *)

Definition s_off : st Pdu.pdu := Pdu.start "off" "1,2" [] Pdu.two_on.
Definition s_reboot : st Pdu.pdu := Pdu.start "reboot" "1,2" [] Pdu.two_on.
Definition s_status : st Pdu.pdu := Pdu.start "status" "1" [] Pdu.two_on.
Definition s_plugs (d : Pdu.pdu) : st Pdu.pdu :=
  Pdu.start "off" "1" [("--plugs", VList ["1"])] d.

Lemma fence_off_confirmed_witness :
  ∃ plugs s1 msg,
    requested_plugs s_off = Some plugs ∧
    all_seen_off Pdu.get_power_fn plugs s1 ∧
    (Pdu.run s_off).2 = add_event (EvPrint msg) s1 ∧
    msg ∈ ["Success: Powered OFF"; "Success: Already OFF"].
Proof.
  apply (fence_off_confirmed 30 Pdu.set_power_fn Pdu.get_power_fn None None None s_off EC_OK _
           Pdu.get_keeps Pdu.set_keeps).
  - vm_compute. reflexivity.
  - vm_compute. reflexivity.
Defined.

Lemma fence_reboot_confirmed_witness :
  EC_OK = EC_OK ∧
  ∃ plugs s1 power_on s2,
    requested_plugs s_reboot = Some plugs ∧ all_seen_off Pdu.get_power_fn plugs s1 ∧
    reboot_on_phase 30 (Some Pdu.set_power_fn) (Some Pdu.get_power_fn) None s1 =
      (Ret power_on, s2) ∧
    (Pdu.run s_reboot).2 =
      add_event (EvPrint "Success: Rebooted")
        (if power_on then s2
         else add_event (EvLog ERROR ("Timed out waiting to power ON" +:+ nl)) s2).
Proof.
  apply (fence_reboot_confirmed 30 Pdu.set_power_fn Pdu.get_power_fn None None None s_reboot
           EC_OK _ Pdu.get_keeps Pdu.set_keeps).
  - vm_compute. reflexivity.
  - vm_compute. reflexivity.
  - vm_compute. reflexivity.
Defined.

Lemma queries_never_fence_witness :
  fence_action 5 (Some Pdu.set_power_fn) (Some Pdu.get_power_fn) None None None s_status =
  fence_action 9 None (Some Pdu.get_power_fn) None (Some (mret true)) (Some (mret true)) s_status.
Proof.
  apply (queries_never_fence 5 9 (Some Pdu.set_power_fn) None Pdu.get_power_fn None None
           (Some (mret true)) None (Some (mret true)) s_status "status" Pdu.get_keeps).
  - vm_compute. reflexivity.
  - closed_dec.
Defined.

Lemma fence_action_result_witness :
  2%Z = EC_OK ∨
  2%Z = 2%Z ∧
  s_opts (Pdu.run (Pdu.start "status" "1" [] (Pdu.Pdu {["1" := "off"]} false))).2
    !! "--action" = Some (VStr "status") ∧
  last (s_trace (Pdu.run (Pdu.start "status" "1" [] (Pdu.Pdu {["1" := "off"]} false))).2) =
    Some (EvPrint "Status: OFF").
Proof.
  apply (fence_action_result 30 (Some Pdu.set_power_fn) (Some Pdu.get_power_fn) None None None
           (Pdu.start "status" "1" [] (Pdu.Pdu {["1" := "off"]} false)) 2 _).
  vm_compute. reflexivity.
Defined.

Lemma fence_already_done_witness :
  fence_action 5 None (Some Pdu.get_power_fn) None None None
    (Pdu.start "on" "1,2" [] Pdu.two_on) =
  (Ret EC_OK, add_event (EvPrint "Success: Already ON")
     ((split_plugs ;; initial_status (Some Pdu.get_power_fn))
        (Pdu.start "on" "1,2" [] Pdu.two_on)).2).
Proof.
  apply (fence_already_done 5 None Pdu.get_power_fn None None None
           (Pdu.start "on" "1,2" [] Pdu.two_on) "on" ["port"; "separator"] _
           Pdu.get_keeps Pdu.get_keeps_device_opt).
  - vm_compute. reflexivity.
  - closed_dec.
  - vm_compute. reflexivity.
  - right. closed_dec.
  - vm_compute. reflexivity.
Defined.

(** The outlet disappears when it is powered on: the reboot exits although the plug was
    confirmed off. *)
Lemma reboot_on_phase_exceptions_witness :
  ∃ s1,
    reboot_on_phase 5 (Some Pdu.set_power_drop) (Some Pdu.get_power_fn) None
      (s_plugs (Pdu.Pdu {["1" := "off"]} false)) =
    (Raise (SystemExit EC_GENERIC_ERROR), s1).
Proof.
  eexists.
  apply (reboot_on_phase_exceptions 5 (Some Pdu.set_power_drop) (Some Pdu.get_power_fn) None
           (s_plugs (Pdu.Pdu {["1" := "off"]} false)) (SystemExit EC_GENERIC_ERROR)).
  vm_compute. reflexivity.
Defined.

Lemma wait_gives_up_after_timeout_polls_witness :
  ∃ s', wait_for_action 20 (mret (VStr "on")) 1
          (Pdu.start "off" "1" [("--plugs", VList ["1"]); ("--stonith-status-sleep", VStr "3")]
             Pdu.stuck) = (Ret false, s') ∧
        s_clock s' = (60 * USEC)%Z.
Proof.
  apply (wait_gives_up_after_timeout_polls (mret (VStr "on")) (λ _, True) ["1"] (VStr "off")
           20 3 20 1
           (Pdu.start "off" "1" [("--plugs", VList ["1"]); ("--stonith-status-sleep", VStr "3")]
              Pdu.stuck)).
  - intros s0 _ (Hp & Hw).
    exists (VStr "on"), (set_opts (<["--plug" := VStr "1"]> (s_opts s0)) s0).
    unfold get_multi_power_fn, the_plugs, current_plugs in *.
    split_and!; [|done|done| |done].
    + unfold mbind, M_bind, opt_find. destruct (s_opts s0 !! "--plugs") as [[]|]; by simplify_eq.
    + unfold waits_for, current_plugs. cbn. by rewrite !lookup_insert_ne.
  - exact I.
  - refine (conj _ (conj _ (conj (ex_intro _ (VStr "20") (conj _ _))
                              (ex_intro _ (VStr "3") (conj _ _)))));
      vm_compute; reflexivity.
  - lia.
  - lia.
  - lia.
Defined.

Lemma wait_terminates_witness :
  (wait_for_action 20 Pdu.get_power_fn 1 (s_plugs Pdu.stuck)).1 ≠ OutOfFuel.
Proof.
  apply (wait_terminates Pdu.get_power_fn 20 20 1 (s_plugs Pdu.stuck)).
  - exact Pdu.get_keeps_power_timeout.
  - exact Pdu.get_no_fuel.
  - exists (VStr "20"). split; vm_compute; reflexivity.
  - lia.
  - lia.
  - lia.
Defined.

Lemma sync_success_is_per_plug_witness :
  Forall (λ plug, ∃ s1 s2, s_opts s1 !! "--plug" = Some (VStr plug) ∧
                           Pdu.sync_set_power_fn s1 = (Ret true, s2)) ["1"].
Proof.
  apply (sync_success_is_per_plug Pdu.sync_set_power_fn 1 (s_plugs Pdu.two_on)
           (sync_set_multi_power_fn Pdu.sync_set_power_fn 1 (s_plugs Pdu.two_on)).2 ["1"]).
  - exact Pdu.sync_keeps_plug.
  - lia.
  - vm_compute. reflexivity.
  - vm_compute. reflexivity.
Defined.

(** Outlet 1 is on and outlet 2 unknown: the combined status is not "on". *)
Lemma get_multi_status_witness :
  ∃ plugs vs,
    current_plugs (Pdu.start "status" "1" [("--plugs", VList ["1"; "2"])]
                     (Pdu.Pdu {["1" := "on"; "2" := "unknown"]} false)) = Some plugs ∧
    reads Pdu.get_power_fn plugs vs
      (Pdu.start "status" "1" [("--plugs", VList ["1"; "2"])]
         (Pdu.Pdu {["1" := "on"; "2" := "unknown"]} false))
      (get_multi_power_fn Pdu.get_power_fn
         (Pdu.start "status" "1" [("--plugs", VList ["1"; "2"])]
            (Pdu.Pdu {["1" := "on"; "2" := "unknown"]} false))).2 ∧
    (VStr "unknown" = VStr "off" ↔ Forall (.= VStr "off") vs) ∧
    (VStr "unknown" ≠ VStr "off" → last (filter (.≠ VStr "off") vs) = Some (VStr "unknown")).
Proof.
  apply (get_multi_status Pdu.get_power_fn
           (Pdu.start "status" "1" [("--plugs", VList ["1"; "2"])]
              (Pdu.Pdu {["1" := "on"; "2" := "unknown"]} false)) (VStr "unknown") _).
  vm_compute. reflexivity.
Defined.

Lemma list_outlets_prints_witness :
  list_outlets (Some Pdu.get_outlet_list) (Pdu.start "list" "1" [] Pdu.two_on) =
  (Ret tt, St (s_opts (Pdu.start "list" "1" [] Pdu.two_on)) ∅
             [EvPrint "1,name1"; EvPrint "2,name2"] 0 Pdu.two_on).
Proof.
  apply (list_outlets_prints Pdu.get_outlet_list (Pdu.start "list" "1" [] Pdu.two_on) "list" ","
           ["port"; "separator"] [("1", ("name1", Some "on")); ("2", ("name2", Some "on"))]
           Pdu.two_on).
  - vm_compute. reflexivity.
  - closed_dec.
  - vm_compute. reflexivity.
  - vm_compute. reflexivity.
  - closed_dec.
  - vm_compute. reflexivity.
  - vm_compute. reflexivity.
Defined.
