(* ===== verification/Power.v ===== *)
(** * Obedient devices: what [fence_action] does for them

    An interface between the library and an agent, and the contract of [fence_action]
    for every agent that satisfies it. The device has a set of plugs that are on or off.
    After a command it may answer stale states for a while: [lag] bounds the number of
    reads until its answers are the commanded states again. *)

From S2P Require Import Prelude PyStr OptionDefs Effects Fail Action.

Local Open Scope string_scope.

(** ** Total correctness *)

(** The computation returns, with a value and a state that satisfy [Q]. *)
Definition total {D A} (m : M D A) (s : st D) (Q : A → st D → Prop) : Prop :=
  ∃ a s', m s = (Ret a, s') ∧ Q a s'.

Section Total.
Context {D : Type}.
Implicit Types s : st D.

Lemma total_ret {A} (a : A) s (Q : A → st D → Prop) : Q a s → total (mret a) s Q.
Proof. intros H. by exists a, s. Qed.

Lemma total_bind {A B} (m : M D A) (f : A → M D B) s Q :
  total m s (λ a s1, total (f a) s1 Q) → total (m ≫= f) s Q.
Proof.
  intros (a & s1 & Hm & b & s2 & Hf & HQ). exists b, s2.
  by rewrite (bind_Ret _ _ _ _ _ Hm).
Qed.

(** A step whose outcome is known. *)
Lemma total_step {A B} (m : M D A) (f : A → M D B) s a s1 Q :
  m s = (Ret a, s1) → total (f a) s1 Q → total (m ≫= f) s Q.
Proof. intros Hm H. apply total_bind. by exists a, s1. Qed.

Lemma total_weaken {A} (m : M D A) s (Q Q' : A → st D → Prop) :
  total m s Q → (∀ a s', Q a s' → Q' a s') → total m s Q'.
Proof. intros (a & s' & Hm & HQ) H. exists a, s'. auto. Qed.

(** A step, by what is known of it. *)
Lemma total_then {A B} (m : M D A) (f : A → M D B) s P Q :
  total m s P → (∀ a s', P a s' → total (f a) s' Q) → total (m ≫= f) s Q.
Proof. intros Hm Hf. apply total_bind. by eapply total_weaken. Qed.

(** The same run from another state. *)
Lemma total_from {A} (m : M D A) s s1 Q : m s = m s1 → total m s1 Q → total m s Q.
Proof. unfold total. by intros ->. Qed.

Lemma total_try {A} (m : M D A) h s Q : total m s Q → total (try_except m h) s Q.
Proof. intros (a & s' & Hm & HQ). exists a, s'. unfold try_except. by rewrite Hm. Qed.
End Total.

(** ** The interface *)

(** The options that [fence_action] reads and no callback may change. *)
Definition frame_keys : list string :=
  ["--action"; "--plugs"; "--power-wait"; "--power-timeout"; "--stonith-status-sleep";
   "--retry-on"; "--method"; "device_opt"].

(** The options that [fence_action] itself changes. *)
Definition loop_keys : list string := ["--plug"; "--plugs"; "--uuid"; "--action"].

Definition frame {D} (s s' : st D) : Prop :=
  ∀ k, k ∈ frame_keys → s_opts s' !! k = s_opts s !! k.

#[export] Instance frame_preorder {D} : PreOrder (@frame D).
Proof. split; [done|]. intros s1 s2 s3 H1 H2 k Hk. by rewrite H2, H1. Qed.

(** The same device; the options differ at most where [fence_action] writes. *)
Definition same_device {D} (s s' : st D) : Prop :=
  s_dev s' = s_dev s ∧ ∀ k, k ∉ loop_keys → s_opts s' !! k = s_opts s !! k.

Definition on_off (b : bool) : string := if b then "on" else "off".

(** The action is one that fences: a callback may look at it to tell a listing. *)
Definition fencing {D} (s : st D) : Prop :=
  ∃ a, s_opts s !! "--action" = Some (VStr a) ∧ a ∈ ["on"; "off"; "reboot"].

Lemma fencing_frame {D} (s s' : st D) : frame s s' → fencing s → fencing s'.
Proof. intros Hf (a & Ha & Hin). exists a. split; [|done]. rewrite Hf; [done|closed_dec]. Qed.

Lemma fencing_on_off {D} (s : st D) b : s_opts s !! "--action" = Some (VStr (on_off b)) → fencing s.
Proof. intros Ha. exists (on_off b). split; [done|]. destruct b; closed_dec. Qed.

(** The callbacks [get] and [set] of an agent for the plugs [ps] of an obedient device:
    [power] is the commanded state of a plug, [ok] what the agent needs of its options
    and its own variables, and [L] bounds the lag after a command. *)
Class Obedient {D} (ps : list string) (L : nat) (ok : st D → Prop)
    (power : D → string → bool) (lag : D → nat) (get : M D pyval) (set : M D unit) : Prop := {
  ok_same_device : ∀ s s', ok s → same_device s s' → ok s';
  get_answers : ∀ s p, ok s → fencing s → s_opts s !! "--plug" = Some (VStr p) → p ∈ ps →
    total get s (λ v s',
      ok s' ∧ frame s s' ∧ (∀ q, q ∈ ps → power (s_dev s') q = power (s_dev s) q) ∧
      (lag (s_dev s') ≤ Nat.pred (lag (s_dev s)))%nat ∧
      (lag (s_dev s) = O → v = VStr (on_off (power (s_dev s) p))));
  set_obeys : ∀ s p a, ok s → s_opts s !! "--plug" = Some (VStr p) → p ∈ ps →
    s_opts s !! "--action" = Some (VStr (on_off a)) →
    total set s (λ _ s',
      ok s' ∧ frame s s' ∧ (lag (s_dev s') ≤ L)%nat ∧
      ∀ q, q ∈ ps → power (s_dev s') q = (if decide (q = p) then a else power (s_dev s) q))
}.

(** The request, carried out: every requested plug is off after "off" and on after "on" or
    "reboot", and the others are as they were. *)
Definition requested_states (action : string) (plugs : list string) (power : string → bool)
    (q : string) : bool :=
  if decide (q ∈ plugs) then negb (bool_decide (action = "off")) else power q.

(** Several plugs, some of them on and some of them off. *)
Definition mixed (plugs : list string) (power : string → bool) : bool :=
  existsb power plugs && negb (forallb power plugs).

(** What [fence_action] leaves: a set of plugs counts as on as soon as one of them is, and
    "on" then does nothing, so that for mixed plugs the request is not carried out. *)
Definition left_states (action : string) (plugs : list string) (power : string → bool)
    (q : string) : bool :=
  if bool_decide (action = "on") && existsb power plugs then power q
  else requested_states action plugs power q.

(** The options of the loops are numbers, the device reports its status and does not
    force "on"; [T] is the limit of polls. *)
Record settings {D} (T : Z) (s : st D) : Prop := Settings {
  set_timeout : ∃ v, s_opts s !! "--power-timeout" = Some v ∧ py_int v = inl T;
  set_sleep : ∃ v t, s_opts s !! "--stonith-status-sleep" = Some v ∧ py_int v = inl t ∧ (0 ≤ t)%Z;
  set_wait : ∃ v t, s_opts s !! "--power-wait" = Some v ∧ py_int v = inl t ∧ (0 ≤ t)%Z;
  set_retry : ∃ v r, s_opts s !! "--retry-on" = Some v ∧ py_int v = inl r ∧ (1 ≤ r)%Z;
  set_method : ∃ m, default (VStr "") (s_opts s !! "--method") = VStr m;
  set_device_opt : ∃ l, s_opts s !! "device_opt" = Some (VList l) ∧ ("no_status" ∉ l) ∧ ("force_on" ∉ l)
}.
