(* ===== verification/PowerSpec.v ===== *)
(** * The contract of [fence_action] on obedient devices

    For an agent that implements the interface [Obedient], on, off and reboot return 0
    and leave the device with exactly the requested plugs switched. *)

From S2P Require Import Prelude PyStr OptionDefs Effects Fail Action ActionSpec Power.

Local Open Scope string_scope.

Lemma frame_settings {D} T (s s' : st D) : frame s s' → settings T s → settings T s'.
Proof.
  intros Hf [H1 H2 H3 H4 H5 H6].
  split; rewrite Hf; unfold frame_keys; first [done | closed_dec].
Qed.

Lemma frame_plugs {D} (s s' : st D) : frame s s' → current_plugs s' = current_plugs s.
Proof. intros Hf. unfold current_plugs. by rewrite Hf by closed_dec. Qed.

Lemma the_plugs_eq {D} (s : st D) plugs : current_plugs s = Some plugs → the_plugs s = (Ret plugs, s).
Proof.
  unfold current_plugs, the_plugs, mbind, M_bind, opt_find.
  destruct (s_opts s !! "--plugs") as [[]|]; by intros [= <-].
Qed.

Lemma select_plug_eq {D} plug (s : st D) :
  ∃ s', select_plug plug s = (Ret tt, s') ∧ s_opts s' !! "--plug" = Some (VStr plug) ∧
        frame s s' ∧ same_device s s'.
Proof.
  unfold select_plug, frame, same_device, frame_keys, loop_keys.
  destruct (uuid_str plug); (eexists; split_and!; [reflexivity| | |done|]); cbn.
  all: try by simplify_map_eq.
  all: intros k Hk; rewrite !lookup_insert_ne; [done|..]; intros <-; revert Hk; closed_dec.
Qed.

Lemma same_device_trans {D} (s1 s2 s3 : st D) :
  same_device s1 s2 → same_device s2 s3 → same_device s1 s3.
Proof. intros [H1 H2] [H3 H4]. split; [congruence|]. intros k Hk. by rewrite H4, H2. Qed.

(** Printing, logging and the clock do not touch the options. *)
Lemma frame_opts {D} (s s' : st D) : s_opts s' = s_opts s → frame s s'.
Proof. intros H k _. by rewrite H. Qed.

Lemma same_device_opts {D} (s s' : st D) :
  s_dev s' = s_dev s → s_opts s' = s_opts s → same_device s s'.
Proof. intros Hd H. split; [done|]. intros k _. by rewrite H. Qed.

(** The combined status of plugs in known states. *)
Definition any_on (power : string → bool) (plugs : list string) : bool := existsb power plugs.

Section Contract.
Context {D : Type} {ps : list string} {L : nat} {ok : st D → Prop}
  {power : D → string → bool} {lag : D → nat} {get : M D pyval} {set : M D unit}
  `{Obey : !Obedient ps L ok power lag get set}.
Implicit Types s : st D.

(** The agent is ready, and the commanded states are [pw]. *)
Definition ready (pw : string → bool) (s : st D) : Prop :=
  ok s ∧ ∀ q, q ∈ ps → power (s_dev s) q = pw q.

Lemma ready_same_device pw s s' : same_device s s' → ready pw s → ready pw s'.
Proof using Obey.
  intros Hd [Hok Hp]. split; [by eapply ok_same_device|]. destruct Hd as [-> _]. done.
Qed.

Lemma ready_event pw e s : ready pw s → ready pw (add_event e s).
Proof using Obey. apply ready_same_device. by apply same_device_opts. Qed.

Lemma sleep_total pw k s :
  (∃ v t, s_opts s !! k = Some v ∧ py_int v = inl t ∧ (0 ≤ t)%Z) → ready pw s →
  total (t ← opt_int k; sleep t) s (λ _ s', ready pw s' ∧ frame s s' ∧ s_dev s' = s_dev s).
Proof using Obey.
  intros (v & t & Hv & Ht & Hpos) Hr.
  eapply total_step; [by eapply opt_int_eq|].
  eexists _, _. split; [by apply sleep_eq|]. split_and!; [|by apply frame_opts|done].
  apply (ready_same_device pw s); [by apply same_device_opts|done].
Qed.

(** The pause between two steps of a loop. *)
Lemma sleep_then {A} pw k (rest : M D A) s Q :
  (∃ v t, s_opts s !! k = Some v ∧ py_int v = inl t ∧ (0 ≤ t)%Z) → ready pw s →
  (∀ s', ready pw s' → frame s s' → s_dev s' = s_dev s → total rest s' Q) →
  total (t ← opt_int k; sleep t ;; rest) s Q.
Proof using Obey.
  intros Hk Hr Hrest. destruct (sleep_total pw k s Hk Hr) as (u & s' & Hm & Hr' & Hf & Hd).
  destruct (Hrest s' Hr' Hf Hd) as (a & s2 & Hm2 & HQ). exists a, s2. split; [|done].
  rewrite <- (bind_assoc (opt_int k) sleep (λ _, rest)). by rewrite (bind_Ret _ _ _ _ _ Hm).
Qed.

(** ** Reading *)

Lemma read_plugs pw plugs acc s :
  ready pw s → fencing s → (∀ q, q ∈ plugs → q ∈ ps) →
  total (mfold (λ status plug,
      select_plug plug ;;
      plug_status ← get;
      mret (if decide (plug_status = VStr "off") then status else plug_status)) acc plugs) s
    (λ v s', ready pw s' ∧ frame s s' ∧ (lag (s_dev s') ≤ lag (s_dev s) - length plugs)%nat ∧
      (lag (s_dev s) = O → v = if any_on pw plugs then VStr "on" else acc)).
Proof using Obey.
  revert acc s. induction plugs as [|p plugs IH]; intros acc s Hr Hfe Hps; cbn [mfold].
  { apply total_ret. split_and!; [done|done|cbn; lia|done]. }
  destruct (select_plug_eq p s) as (s1 & Hs1 & Hp1 & Hf1 & Hd1).
  apply total_bind. eapply total_step; [exact Hs1|].
  destruct (ready_same_device _ _ _ Hd1 Hr) as [Hok1 Hpw1].
  pose proof (fencing_frame _ _ Hf1 Hfe) as Hfe1.
  eapply total_then; [by eapply get_answers; [..|apply Hps; left]|].
  intros v s2 (Hok2 & Hf2 & Hpw2 & Hlag & Hv).
  apply total_ret.
  destruct Hd1 as [Hd1 _]. rewrite Hd1 in *.
  eapply total_weaken; [apply IH; [|by eapply fencing_frame|by intros q Hq; apply Hps; right]|].
  { split; [done|]. intros q Hq. by rewrite Hpw2, Hpw1. }
  cbv beta. intros w s3 (Hr3 & Hf3 & Hlag3 & Hw). split_and!; [done|by etrans; [|etrans]|cbn; lia|].
  intros H0. rewrite Hw, Hv by lia. rewrite Hpw1 by (apply Hps; left).
  unfold any_on. cbn [existsb]. destruct (pw p); cbn; [|done].
  by destruct (existsb pw plugs).
Qed.

Lemma poll_total pw plugs s :
  ready pw s → fencing s → current_plugs s = Some plugs → (∀ q, q ∈ plugs → q ∈ ps) →
  total (get_multi_power_fn get) s (λ v s', ready pw s' ∧ frame s s' ∧
    (lag (s_dev s') ≤ lag (s_dev s) - length plugs)%nat ∧
    (lag (s_dev s) = O → v = VStr (on_off (any_on pw plugs)))).
Proof using Obey.
  intros Hr Hfe Hp Hps. unfold get_multi_power_fn.
  eapply total_step; [by apply the_plugs_eq|].
  eapply total_weaken; [by apply read_plugs|]. cbv beta.
  intros v s' (Hr' & Hf & Hl & Hv). split_and!; [done..|].
  intros H0. rewrite Hv by done. by destruct (any_on pw plugs).
Qed.

(** ** Waiting

    Every poll reads at least one plug, so that after as many polls as the lag the
    answers are right. *)

Lemma wait_total pw plugs T b fuel n s :
  ready pw s → settings T s → current_plugs s = Some plugs → plugs ≠ [] →
  (∀ q, q ∈ plugs → q ∈ ps) → s_opts s !! "--action" = Some (VStr (on_off b)) →
  any_on pw plugs = b → (T ≤ 0 ∨ n + Z.of_nat (lag (s_dev s)) ≤ T)%Z → (0 < n)%Z →
  (lag (s_dev s) < fuel)%nat →
  total (wait_for_action fuel get n) s (λ r s', r = true ∧ ready pw s' ∧ frame s s').
Proof using Obey.
  revert n s. induction fuel as [|fuel IH]; intros n s Hr Hset Hp Hne Hps Ha Hb HT Hn Hfuel; [lia|].
  cbn [wait_for_action]. pose proof (fencing_on_off s b Ha) as Hfe.
  eapply total_then; [by apply poll_total|]. cbv beta.
  intros v s1 (Hr1 & Hf1 & Hlag & Hv).
  assert (s_opts s1 !! "--action" = Some (VStr (on_off b))) as Ha1 by (rewrite Hf1; [done|closed_dec]).
  pose proof (frame_settings _ _ _ Hf1 Hset) as Hset1.
  eapply total_step; [by apply opt_get_eq|].
  case_decide as Hd; [by apply total_ret|].
  destruct (lag (s_dev s)) as [|k] eqn:Hk.
  { rewrite Hv, Hb in Hd by done. done. }
  destruct plugs as [|p0 plugs]; [done|]. cbn [length] in Hlag.
  apply (sleep_then pw); [apply Hset1|done|]. intros s2 Hr2 Hf2 Hd2.
  pose proof (frame_settings _ _ _ Hf2 Hset1) as Hset2.
  destruct (set_timeout _ _ Hset2) as (vT & HvT & HT').
  eapply total_step; [by eapply opt_int_eq|].
  replace ((0 <? T) && (T <=? n))%Z with false by lia.
  eapply total_weaken; [apply IH; try done|].
  - by rewrite (frame_plugs _ _ Hf2), (frame_plugs _ _ Hf1).
  - rewrite Hf2; [done|closed_dec].
  - rewrite Hd2. lia.
  - lia.
  - rewrite Hd2. lia.
  - cbv beta. intros r s3 (-> & Hr3 & Hf3). split_and!; [done..|]. by etrans; [|etrans].
Qed.

(** ** Commanding *)

Definition commanded (pw : string → bool) (plugs : list string) (b : bool) (q : string) : bool :=
  if decide (q ∈ plugs) then b else pw q.

Lemma any_on_commanded pw plugs b : plugs ≠ [] → any_on (commanded pw plugs b) plugs = b.
Proof.
  intros Hne. unfold any_on. destruct b.
  - apply existsb_exists. destruct plugs as [|p plugs]; [done|]. exists p. split; [by left|].
    unfold commanded. rewrite decide_True; [done|left].
  - apply not_true_iff_false. intros (q & Hq & H)%existsb_exists. revert H.
    unfold commanded. rewrite decide_True; [done|by apply list_elem_of_In].
Qed.

Lemma ready_ext pw pw' s : (∀ q, pw q = pw' q) → ready pw s → ready pw' s.
Proof. intros He [Hok Hp]. split; [done|]. intros q Hq. by rewrite Hp. Qed.

Lemma commanded_cons pw p plugs b q :
  commanded (commanded pw [p] b) plugs b q = commanded pw (p :: plugs) b q.
Proof.
  unfold commanded. destruct (decide (q ∈ plugs)) as [H|H].
  - by rewrite decide_True by (by right).
  - destruct (decide (q = p)) as [->|Hq]; [by rewrite !decide_True by left|].
    rewrite !decide_False; [done|by intros [|]%elem_of_cons|by intros ?%list_elem_of_singleton].
Qed.

Lemma set_plugs_total pw T b plugs s :
  ready pw s → settings T s → s_opts s !! "--action" = Some (VStr (on_off b)) →
  (∀ q, q ∈ plugs → q ∈ ps) →
  total (set_plugs set plugs) s (λ _ s', ready (commanded pw plugs b) s' ∧ frame s s' ∧
    (lag (s_dev s) ≤ L ∨ plugs ≠ [] → lag (s_dev s') ≤ L)%nat).
Proof using Obey.
  revert pw s. induction plugs as [|p plugs IH]; intros pw s Hr Hset Ha Hps; cbn [set_plugs mfor].
  { apply total_ret. split_and!; [|done|tauto]. by eapply ready_ext. }
  destruct (select_plug_eq p s) as (s1 & Hs1 & Hp1 & Hf1 & Hd1).
  apply total_bind. eapply total_step; [exact Hs1|].
  destruct (ready_same_device _ _ _ Hd1 Hr) as [Hok1 Hpw1].
  eapply total_then.
  { eapply set_obeys; [done|done|apply Hps; left|]. rewrite Hf1; [done|closed_dec]. }
  cbv beta. intros u s2 (Hok2 & Hf2 & Hl2 & Hpw2).
  assert (frame s s2) as Hf02 by (by etrans).
  assert (ready (commanded pw [p] b) s2) as Hr2.
  { split; [done|]. intros q Hq. rewrite Hpw2 by done. unfold commanded.
    destruct (decide (q = p)) as [->|Hqp].
    - by rewrite decide_True by left.
    - rewrite decide_False; [by apply Hpw1|]. by intros ->%list_elem_of_singleton. }
  eapply total_weaken.
  { apply sleep_total with (pw := commanded pw [p] b); [|done].
    apply (frame_settings _ _ _ Hf02 Hset). }
  cbv beta. intros [] s3 (Hr3 & Hf3 & Hd3).
  assert (frame s s3) as Hf03 by (by etrans).
  eapply total_weaken.
  { apply IH; [exact Hr3|by eapply frame_settings| |].
    - rewrite Hf03; [done|closed_dec].
    - intros q Hq. apply Hps. by right. }
  cbv beta. intros ? s4 (Hr4 & Hf4 & Hl4). split_and!; [|by etrans|].
  - eapply ready_ext; [|exact Hr4]. intros q. apply commanded_cons.
  - intros _. apply Hl4. left. by rewrite Hd3.
Qed.

Lemma set_multi_total pw T b plugs fuel sync k s :
  ready pw s → settings T s → s_opts s !! "--action" = Some (VStr (on_off b)) →
  current_plugs s = Some plugs → plugs ≠ [] → (∀ q, q ∈ plugs → q ∈ ps) →
  (T ≤ 0 ∨ Z.of_nat L < T)%Z → (L < fuel)%nat → (1 ≤ k)%Z →
  total (set_multi fuel (Some set) (Some get) sync k) s
    (λ r s', r = true ∧ ready (commanded pw plugs b) s' ∧ frame s s').
Proof using Obey.
  intros Hr Hset Ha Hp Hne Hps HT Hfuel Hk.
  unfold set_multi, set_multi_power_fn, async_set_multi_power_fn.
  eapply total_step; [by apply the_plugs_eq|].
  destruct (Z.to_nat k) as [|k'] eqn:Ek; [lia|]. cbn [async_attempts].
  eapply total_then; [by eapply (set_plugs_total pw T b)|]. cbv beta.
  intros u s1 (Hr1 & Hf1 & Hl1).
  eapply total_then.
  { eapply (wait_total (commanded pw plugs b) plugs T b); try done.
    - by eapply frame_settings.
    - by rewrite (frame_plugs _ _ Hf1).
    - rewrite Hf1; [done|closed_dec].
    - by apply any_on_commanded.
    - assert (lag (s_dev s1) ≤ L)%nat by auto. lia.
    - assert (lag (s_dev s1) ≤ L)%nat by auto. lia. }
  cbv beta. intros r s2 (-> & Hr2 & Hf2). apply total_ret. split_and!; [done..|by etrans].
Qed.

(** ** The two phases of a reboot *)

Lemma same_device_settings T s s' : same_device s s' → settings T s → settings T s'.
Proof.
  intros [_ Hk] [H1 H2 H3 H4 H5 H6].
  split; rewrite Hk; unfold loop_keys; first [done | closed_dec].
Qed.

(** Setting the action for a phase. *)
Definition with_action (a : string) (s : st D) : st D :=
  set_opts (<["--action" := VStr a]> (s_opts s)) s.

Lemma with_action_same a s : same_device s (with_action a s).
Proof.
  split; [done|]. intros k Hk. cbn. rewrite lookup_insert_ne; [done|]. intros <-.
  revert Hk. closed_dec.
Qed.

Lemma with_action_plugs a s : current_plugs (with_action a s) = current_plugs s.
Proof. unfold current_plugs. cbn. by rewrite lookup_insert_ne. Qed.

Lemma with_action_get a s : s_opts (with_action a s) !! "--action" = Some (VStr a).
Proof. cbn. by simplify_map_eq. Qed.

Lemma all_off pw plugs q : any_on pw plugs = false → commanded pw plugs false q = pw q.
Proof.
  intros H. unfold commanded. case_decide as Hq; [|done].
  destruct (pw q) eqn:E; [|done]. exfalso. apply not_true_iff_false in H. apply H.
  apply existsb_exists. exists q. split; [by apply list_elem_of_In|done].
Qed.

(** Commands for all the plugs carry the request out, and so does what is left without
    them unless the action is "on" and the plugs are mixed. *)
Lemma commanded_left a pw plugs q :
  (a = "on" → existsb pw plugs = false) →
  commanded pw plugs (negb (bool_decide (a = "off"))) q = left_states a plugs pw q.
Proof.
  intros H. unfold left_states. destruct (bool_decide_reflect (a = "on")) as [Ha|Ha]; [|done].
  by rewrite H.
Qed.

Lemma left_requested a pw plugs q :
  (a = "on" → mixed plugs pw = false) → left_states a plugs pw q = requested_states a plugs pw q.
Proof.
  intros H. unfold left_states, requested_states, mixed in *.
  case_bool_decide as Ha; cbn [andb]; [|done]. specialize (H Ha). subst a.
  destruct (existsb pw plugs); cbn [andb] in *; [|done].
  apply negb_false_iff in H. rewrite forallb_forall in H.
  case_decide as Hq; [|done]. cbn. apply H. by apply list_elem_of_In.
Qed.

Lemma left_mixed pw plugs q : mixed plugs pw = true → left_states "on" plugs pw q = pw q.
Proof. intros [H _]%andb_prop. unfold left_states. by rewrite H. Qed.

(** What a phase of the loops needs. *)
Record phase (pw : string → bool) (T : Z) (plugs : list string) (s : st D) : Prop := Phase {
  ph_ready : ready pw s;
  ph_settings : settings T s;
  ph_plugs : current_plugs s = Some plugs
}.

Lemma phase_action pw T plugs a s : phase pw T plugs s → phase pw T plugs (with_action a s).
Proof using Obey.
  intros [H1 H2 H3]. pose proof (with_action_same a s) as Hd. split.
  - by eapply ready_same_device.
  - by eapply same_device_settings.
  - by rewrite with_action_plugs.
Qed.

Lemma phase_frame pw pw' T plugs s s' :
  phase pw T plugs s → ready pw' s' → frame s s' → phase pw' T plugs s'.
Proof.
  intros [H1 H2 H3] Hr Hf. split; [done|by eapply frame_settings|by rewrite (frame_plugs _ _ Hf)].
Qed.

Section Phases.
Variables (T : Z) (plugs : list string) (fuel : nat) (sync : option (M D bool))
  (cyc : option (M D bool)).
Hypotheses (Hne : plugs ≠ []) (Hps : ∀ q, q ∈ plugs → q ∈ ps)
  (HT : (T ≤ 0 ∨ Z.of_nat L < T)%Z) (Hfuel : (L < fuel)%nat).

Lemma switch_total pw b k s :
  phase pw T plugs s → s_opts s !! "--action" = Some (VStr (on_off b)) → (1 ≤ k)%Z →
  total (set_multi fuel (Some set) (Some get) sync k) s
    (λ r s', r = true ∧ phase (commanded pw plugs b) T plugs s' ∧ frame s s').
Proof using Obey Hne Hps HT Hfuel.
  intros Hph Ha Hk. eapply total_weaken.
  - by eapply (set_multi_total pw T b plugs); [apply Hph|apply Hph| |apply Hph|..].
  - cbv beta. intros r s' (-> & Hr & Hf). split_and!; [done|by eapply phase_frame|done].
Qed.

Lemma reboot_off_phase_total pw s :
  phase pw T plugs s →
  total (reboot_off_phase fuel (Some set) (Some get) sync (VStr (on_off (any_on pw plugs)))) s
    (λ _ s', phase (commanded pw plugs false) T plugs s').
Proof using Obey Hne Hps HT Hfuel.
  intros Hph. unfold reboot_off_phase. destruct (any_on pw plugs) eqn:Eon.
  - rewrite decide_False by done. apply (total_step _ _ s tt (with_action "off" s)); [done|].
    eapply total_then; [apply (switch_total pw false 1)|].
    + by apply phase_action.
    + apply with_action_get.
    + done.
    + cbv beta. intros r s' (-> & Hp & _). by apply total_ret.
  - rewrite decide_True by done. apply total_ret. destruct Hph as [Hr ??]. split; [|done..].
    eapply ready_ext; [|exact Hr]. intros q. by rewrite all_off.
Qed.

Lemma reboot_on_phase_total pw s :
  phase pw T plugs s →
  total (reboot_on_phase fuel (Some set) (Some get) sync) s
    (λ r s', r = true ∧ phase (commanded pw plugs true) T plugs s').
Proof using Obey Hne Hps HT Hfuel.
  intros Hph. unfold reboot_on_phase.
  apply (total_step _ _ s tt (with_action "on" s)); [done|].
  pose proof (phase_action _ _ _ "on" _ Hph) as Hph1.
  destruct (set_retry _ _ (ph_settings _ _ _ _ Hph1)) as (vr & r & Hvr & Hr & Hpos).
  eapply total_then.
  { unfold warn_on_exception. apply total_try. eapply total_step; [by eapply opt_int_eq|].
    apply (switch_total pw true r); [done|apply with_action_get|done]. }
  cbv beta. intros b s' (-> & Hp & _).
  apply (total_step _ _ s' tt (with_action "reboot" s')); [done|].
  apply total_ret. split; [done|by apply phase_action].
Qed.

(** ** The whole action *)

Lemma action_reboot_total pw s :
  phase pw T plugs s → cycle_requested s cyc = false →
  total (action_reboot fuel (Some set) (Some get) cyc sync (VStr (on_off (any_on pw plugs)))) s
    (λ _ s', ready (commanded pw plugs true) s').
Proof using Obey Hne Hps HT Hfuel.
  intros Hph Hc. unfold action_reboot.
  destruct (set_method _ _ (ph_settings _ _ _ _ Hph)) as [m Hm].
  apply (total_step _ _ s false s).
  { unfold wants_cycle, mbind, M_bind, opt_find. rewrite Hm. cbn.
    unfold cycle_requested in Hc. destruct cyc as [c|]; [|by rewrite andb_false_r].
    rewrite (bool_decide_true (is_Some (Some c))), andb_true_r by done.
    destruct (s_opts s !! "--method") as [v|]; simplify_eq/=; [|done]. by rewrite Hc. }
  cbv beta. apply total_bind. eapply total_then; [by apply (reboot_off_phase_total pw)|].
  intros u s1 Hph1. eapply total_weaken; [by apply (reboot_on_phase_total _ s1 Hph1)|].
  cbv beta. intros r s2 (-> & [Hr2 _ _]). cbn [negb mwhen].
  apply (total_step _ _ s2 tt s2); [done|].
  eexists _, _. split; [reflexivity|].
  apply ready_event. eapply ready_ext; [|exact Hr2]. intros q. unfold commanded. by case_decide.
Qed.

(** What the plugs are after the dispatch on an action that was not done already. *)
Lemma dispatch_total pw a s :
  phase pw T plugs s → a ∈ ["on"; "off"; "reboot"] → s_opts s !! "--action" = Some (VStr a) →
  a ≠ on_off (any_on pw plugs) → cycle_requested s cyc = false →
  total (dispatch fuel (Some set) (Some get) cyc sync (VStr (on_off (any_on pw plugs)))) s
    (λ c s', c = EC_OK ∧ ready (left_states a plugs pw) s').
Proof using Obey Hne Hps HT Hfuel.
  intros Hph Hin Ha Hnot Hc. unfold dispatch. eapply total_step; [by apply opt_get_eq|].
  assert (∀ (m : M D unit) b, total m s (λ _ s', ready (commanded pw plugs b) s') →
    (∀ q, commanded pw plugs b q = left_states a plugs pw q) →
    total (m ;; mret EC_OK) s (λ c s', c = EC_OK ∧ ready (left_states a plugs pw) s')) as Hend.
  { intros m b Hm He. eapply total_then; [exact Hm|]. cbv beta. intros u s' Hr.
    apply total_ret. split; [done|]. by eapply ready_ext. }
  destruct (set_retry _ _ (ph_settings _ _ _ _ Hph)) as (vr & r & Hvr & Hr & Hpos).
  rewrite !elem_of_cons in Hin. destruct Hin as [-> |[-> |[-> |[]%not_elem_of_nil]]].
  - rewrite decide_True by done. apply (Hend _ true).
    + unfold action_on. eapply total_step; [by eapply opt_int_eq|].
      eapply total_then; [apply (switch_total pw true); [done|done|lia]|]. cbv beta.
      intros b s' (-> & [Hr' _ _] & _). eexists _, _. split; [reflexivity|].
      by apply ready_event.
    + intros q. apply (commanded_left "on"). intros _. unfold any_on in Hnot.
      by destruct (existsb pw plugs).
  - rewrite decide_False, decide_True by done. apply (Hend _ false).
    + unfold action_off.
      eapply total_then; [apply (switch_total pw false); [done|done|lia]|]. cbv beta.
      intros b s' (-> & [Hr' _ _] & _). eexists _, _. split; [reflexivity|].
      by apply ready_event.
    + intros q. by apply (commanded_left "off").
  - rewrite !(decide_False (P := VStr "reboot" = _)), decide_True by done. apply (Hend _ true).
    + by apply action_reboot_total.
    + intros q. by apply (commanded_left "reboot").
Qed.
End Phases.

Lemma split_plugs_total s plugs :
  requested_plugs s = Some plugs →
  ∃ s1, split_plugs s = (Ret tt, s1) ∧ current_plugs s1 = Some plugs ∧ same_device s s1 ∧
        s_opts s1 !! "--action" = s_opts s !! "--action".
Proof.
  unfold requested_plugs, split_plugs, mbind, M_bind, opt_find.
  destruct (s_opts s !! "--plug") as [v|] eqn:Ep.
  2: { intros H. by exists s. }
  destruct v as [|p| |]; try done. cbn.
  destruct (s_opts s !! "--plug-separator") as [[|sep| |]|] eqn:Es; try done.
  intros Hs. unfold opt_str, opt_get, mbind, M_bind. rewrite Es. cbn. rewrite Hs.
  eexists. split; [reflexivity|]. split_and!.
  - unfold current_plugs. cbn. by simplify_map_eq.
  - split; [done|]. intros k Hk. cbn. rewrite lookup_insert_ne; [done|]. intros <-.
    revert Hk. closed_dec.
  - cbn. by rewrite lookup_insert_ne.
Qed.

Lemma initial_status_total pw T plugs s :
  phase pw T plugs s → fencing s → (∀ q, q ∈ plugs → q ∈ ps) → lag (s_dev s) = O →
  total (initial_status (Some get)) s (λ v s', v = VStr (on_off (any_on pw plugs)) ∧
    phase pw T plugs s' ∧ frame s s').
Proof using Obey.
  intros Hph Hfe Hps H0. pose proof Hph as [Hr Hset Hp]. unfold initial_status.
  destruct (set_device_opt _ _ Hset) as (l & Hl & Hns & _).
  eapply total_step; [by apply device_opt_in_eq|].
  rewrite (proj2 (py_in_false _ _) Hns). cbn [call].
  eapply total_then; [by eapply (poll_total pw plugs)|]. cbv beta.
  intros v s1 (Hr1 & Hf1 & _ & Hv). rewrite Hv by done.
  exists (VStr (on_off (any_on pw plugs))), s1. split; [by destruct (any_on pw plugs)|].
  split_and!; [done|by eapply phase_frame|done].
Qed.

Lemma act_total pw T plugs a fuel cyc sync s :
  phase pw T plugs s → a ∈ ["on"; "off"; "reboot"] → s_opts s !! "--action" = Some (VStr a) →
  cycle_requested s cyc = false → plugs ≠ [] → (∀ q, q ∈ plugs → q ∈ ps) →
  lag (s_dev s) = O → (T ≤ 0 ∨ Z.of_nat L < T)%Z → (L < fuel)%nat →
  total (act fuel (Some set) (Some get) cyc sync) s
    (λ c s', c = EC_OK ∧ ready (left_states a plugs pw) s').
Proof using Obey.
  intros Hph Hin Ha Hc Hne Hps H0 HT Hfuel. unfold act.
  eapply total_then; [apply (initial_status_total pw T plugs); [done|by exists a|done..]|]. cbv beta.
  intros v s1 (-> & Hph1 & Hf1).
  assert (s_opts s1 !! "--action" = Some (VStr a)) as Ha1 by (rewrite Hf1; [done|closed_dec]).
  assert (cycle_requested s1 cyc = false) as Hc1
    by (unfold cycle_requested in *; rewrite Hf1; [done|closed_dec]).
  eapply total_step; [by apply opt_get_eq|].
  destruct (set_device_opt _ _ (ph_settings _ _ _ _ Hph1)) as (l & Hl & _ & Hforce).
  destruct (decide (VStr a = VStr (on_off (any_on pw plugs)))) as [He|He].
  - eapply total_step.
    { rewrite (bind_Ret _ _ _ _ _ (device_opt_in_eq _ _ _ Hl)).
      rewrite (proj2 (py_in_false _ _) Hforce), andb_false_r. reflexivity. }
    eexists _, _. split; [reflexivity|]. split; [done|].
    apply ready_event. eapply ready_ext; [|apply Hph1]. intros q. injection He as ->.
    destruct (any_on pw plugs) eqn:E.
    + unfold left_states, any_on in *. by rewrite E.
    + rewrite <- (commanded_left "off") by done. symmetry. by apply all_off.
  - eapply total_step; [reflexivity|]. apply (dispatch_total T); try done. by intros ->.
Qed.

(** Every branch of [fence_action] ends with 0 and leaves the plugs in [left_states]. *)
Lemma fence_action_leaves T plugs a fuel lst cyc sync s :
  ok s → settings T s → requested_plugs s = Some plugs → plugs ≠ [] →
  (∀ q, q ∈ plugs → q ∈ ps) →
  s_opts s !! "--action" = Some (VStr a) → a ∈ ["on"; "off"; "reboot"] →
  cycle_requested s cyc = false →
  lag (s_dev s) = O → (T ≤ 0 ∨ Z.of_nat L < T)%Z → (L < fuel)%nat →
  ∃ s', fence_action fuel (Some set) (Some get) lst cyc sync s = (Ret EC_OK, s') ∧ ok s' ∧
    ∀ q, q ∈ ps → power (s_dev s') q = left_states a plugs (power (s_dev s)) q.
Proof using Obey.
  intros Hok Hset Hreq Hne Hps Ha Hin Hc H0 HT Hfuel.
  enough (total (fence_action fuel (Some set) (Some get) lst cyc sync) s
    (λ c s', c = EC_OK ∧ ready (left_states a plugs (power (s_dev s))) s')) as
    (c & s' & Hrun & -> & Hok' & Hpw) by (by exists s').
  apply total_try. unfold fence_action_body.
  destruct (split_plugs_total s plugs Hreq) as (s1 & Hsp & Hp1 & Hd1 & Ha1). rewrite Ha in Ha1.
  eapply total_step; [exact Hsp|].
  assert (ready (power (s_dev s)) s1) as Hr1 by (by eapply ready_same_device).
  assert (settings T s1) as Hset1 by (by eapply same_device_settings).
  destruct (set_device_opt _ _ Hset1) as (l & Hl & _ & _).
  assert (VStr a ≠ VStr "monitor" ∧ VStr a ≠ VStr "list" ∧ VStr a ≠ VStr "list-status") as (Hm & Hli & Hls).
  { rewrite !elem_of_cons in Hin. by destruct Hin as [-> |[-> |[-> |[]%not_elem_of_nil]]]. }
  eapply total_step.
  { unfold wants_listing. rewrite (bind_Ret _ _ _ _ _ (opt_get_eq _ _ _ Ha1)).
    rewrite !bool_decide_false, decide_False by done. reflexivity. }
  cbv beta. eapply total_step; [by apply opt_get_eq|].
  do 2 (eapply total_step; [by apply device_opt_in_eq|]).
  rewrite bool_decide_false by done. cbn [andb].
  destruct Hd1 as [Hd1 Hk1]. apply (act_total _ T); try done.
  - unfold cycle_requested in *. rewrite Hk1; [done|closed_dec].
  - by rewrite Hd1.
Qed.

(** What an agent's theorem says of the states before and after a successful run: the
    request is carried out, exactly, except that "on" leaves mixed plugs as they are. *)
Lemma left_outcome a plugs (before after : string → bool) (names : list string) :
  (∀ q, q ∈ names → after q = left_states a plugs before q) →
  ((a = "on" → mixed plugs before = false) →
     ∀ q, q ∈ names → after q = requested_states a plugs before q) ∧
  (a = "on" → mixed plugs before = true → ∀ q, q ∈ names → after q = before q).
Proof.
  intros H. split.
  - intros Hm q Hq. rewrite H by done. by apply left_requested.
  - intros -> Hm q Hq. rewrite H by done. by apply left_mixed.
Qed.

(** C3. Refinement of [fence_action]: for an agent with an obedient device that lags by
    fewer reads than the limit of polls, on, off and reboot return 0. After off and
    reboot, and after "on" of plugs that were all on or all off (one plug always is),
    exactly the requested plugs have been brought into the requested state and the others
    are as they were. After "on" of several plugs of which some were on and some off,
    nothing has changed: the plugs that were off are still off. *)
Theorem fence_action_refines T plugs a fuel lst cyc sync s :
  ok s → settings T s → requested_plugs s = Some plugs → plugs ≠ [] →
  (∀ q, q ∈ plugs → q ∈ ps) →
  s_opts s !! "--action" = Some (VStr a) → a ∈ ["on"; "off"; "reboot"] →
  cycle_requested s cyc = false →
  lag (s_dev s) = O → (T ≤ 0 ∨ Z.of_nat L < T)%Z → (L < fuel)%nat →
  ∃ s', fence_action fuel (Some set) (Some get) lst cyc sync s = (Ret EC_OK, s') ∧ ok s' ∧
    ((a = "on" → mixed plugs (power (s_dev s)) = false) → ∀ q, q ∈ ps →
       power (s_dev s') q = requested_states a plugs (power (s_dev s)) q) ∧
    (a = "on" → mixed plugs (power (s_dev s)) = true → ∀ q, q ∈ ps →
       power (s_dev s') q = power (s_dev s) q).
Proof using Obey.
  intros. edestruct (fence_action_leaves T plugs a fuel lst cyc sync s)
    as (s' & Hrun & Hok & Hpw); try done.
  exists s'. split_and!; [done..| |]; apply (left_outcome a plugs _ _ _ Hpw).
Qed.

(** C19. Liveness of waiting: once the plugs are commanded into the state the action asks
    for, the wait loop ends with success, after at most as many polls as the device
    lags and one more. *)
Theorem wait_reaches_target pw plugs T b fuel s :
  ok s → (∀ q, q ∈ ps → power (s_dev s) q = pw q) → settings T s →
  current_plugs s = Some plugs → plugs ≠ [] → (∀ q, q ∈ plugs → q ∈ ps) →
  s_opts s !! "--action" = Some (VStr (on_off b)) → any_on pw plugs = b →
  (T ≤ 0 ∨ 1 + Z.of_nat (lag (s_dev s)) ≤ T)%Z → (lag (s_dev s) < fuel)%nat →
  ∃ s', wait_for_action fuel get 1 s = (Ret true, s') ∧
    ∀ q, q ∈ ps → power (s_dev s') q = pw q.
Proof using Obey.
  intros Hok Hpw Hset Hp Hne Hps Ha Hb HT Hfuel.
  destruct (wait_total pw plugs T b fuel 1 s) as (r & s' & Hr & -> & Hr' & _); try done.
  exists s'. split; [done|apply Hr'].
Qed.
End Contract.

(** ** A device that lags

    For three reads after a command it shows the opposite of the commanded state. *)
Module Laggy.
Record laggy := Lag { lg_on : gmap string bool; lg_reads : nat }.

Definition is_on (d : laggy) (p : string) : bool := default false (lg_on d !! p).

Definition get_power_fn : M laggy pyval :=
  plug ← opt_str "--plug";
  s ← get_st;
  let d := s_dev s in
  modify (set_dev (Lag (lg_on d) (Nat.pred (lg_reads d)))) ;;
  mret (VStr (on_off (if decide (lg_reads d = O) then is_on d plug else negb (is_on d plug)))).

Definition set_power_fn : M laggy unit :=
  plug ← opt_str "--plug";
  action ← opt_get "--action";
  modify (λ s, set_dev (Lag (<[plug := bool_decide (action = VStr "on")]> (lg_on (s_dev s))) 3) s).

#[export] Instance laggy_obedient ps :
  Obedient ps 3 (λ _, True) is_on lg_reads get_power_fn set_power_fn.
Proof.
  split; [done|..].
  - intros s p _ _ Hp _. unfold get_power_fn. eapply total_step; [by apply opt_str_eq|].
    eexists _, _. split; [reflexivity|]. split_and!; try done.
    intros H0. cbn in *. by rewrite decide_True.
  - intros s p a _ Hp _ Ha. unfold set_power_fn. eapply total_step; [by apply opt_str_eq|].
    eapply total_step; [by apply opt_get_eq|].
    eexists _, _. split; [reflexivity|]. split_and!; try done.
    intros q _. unfold is_on. cbn. case_decide as Hq.
    + subst q. simplify_map_eq. by destruct a.
    + by rewrite lookup_insert_ne by done.
Qed.

(** Outlets 1 and 2 are on, 3 is off; the request is a reboot of 1 and 3. *)
Definition start (action plug : string) : st laggy :=
  St (list_to_map
        [("--action", VStr action); ("--plug", VStr plug); ("--plug-separator", VStr ",");
         ("--power-wait", VStr "0"); ("--power-timeout", VStr "20");
         ("--stonith-status-sleep", VStr "1"); ("--retry-on", VStr "1");
         ("device_opt", VList ["port"; "separator"])])
     ∅ [] 0 (Lag {["1" := true; "2" := true; "3" := false]} 0).

Lemma start_settings a p : settings 20 (start a p).
Proof.
  split; unfold start; cbn [s_opts].
  - by exists (VStr "20").
  - by exists (VStr "1"), 1%Z.
  - by exists (VStr "0"), 0%Z.
  - by exists (VStr "1"), 1%Z.
  - by exists "".
  - exists ["port"; "separator"]. split_and!; [done|closed_dec..].
Qed.
End Laggy.

Lemma fence_action_refines_witness :
  ∃ s', fence_action 4 (Some Laggy.set_power_fn) (Some Laggy.get_power_fn) None None None
          (Laggy.start "reboot" "1,3") = (Ret EC_OK, s') ∧
        Laggy.is_on (s_dev s') "1" = true ∧ Laggy.is_on (s_dev s') "2" = true ∧
        Laggy.is_on (s_dev s') "3" = true.
Proof.
  destruct (fence_action_refines (Obey := Laggy.laggy_obedient ["1"; "2"; "3"]) 20 ["1"; "3"] "reboot" 4 None None None
    (Laggy.start "reboot" "1,3")) as (s' & Hrun & _ & Hpw & _).
  - done.
  - apply Laggy.start_settings.
  - reflexivity.
  - done.
  - intros q. rewrite !elem_of_cons. tauto.
  - reflexivity.
  - closed_dec.
  - reflexivity.
  - reflexivity.
  - right. lia.
  - lia.
  - exists s'. split; [exact Hrun|].
    split_and!; (rewrite Hpw; [reflexivity|discriminate|closed_dec]).
Defined.

(** "on" of outlets 1 and 3: 1 is on already, success is reported, and 3 stays off. *)
Example on_skips_mixed_plugs :
  let r := fence_action 4 (Some Laggy.set_power_fn) (Some Laggy.get_power_fn) None None None
             (Laggy.start "on" "1,3") in
  r.1 = Ret EC_OK ∧ last (s_trace r.2) = Some (EvPrint "Success: Already ON") ∧
  Laggy.is_on (s_dev r.2) "1" = true ∧ Laggy.is_on (s_dev r.2) "3" = false.
Proof. vm_compute. split_and!; reflexivity. Qed.

(** The plugs were just commanded off and the device still shows the old states. *)
Definition waiting : st Laggy.laggy :=
  set_opts (<["--plugs" := VList ["1"; "2"]]> (s_opts (Laggy.start "off" "1,2")))
    (set_dev (Laggy.Lag ∅ 3) (Laggy.start "off" "1,2")).

Lemma wait_reaches_target_witness :
  ∃ s', wait_for_action 4 Laggy.get_power_fn 1 waiting = (Ret true, s') ∧
        Laggy.is_on (s_dev s') "1" = false.
Proof.
  destruct (wait_reaches_target (Obey := Laggy.laggy_obedient ["1"; "2"]) (λ _, false) ["1"; "2"] 20 false 4 waiting)
    as (s' & Hrun & Hpw).
  - done.
  - intros q Hq. reflexivity.
  - apply (same_device_settings 20 (set_dev (Laggy.Lag ∅ 3) (Laggy.start "off" "1,2"))).
    + split; [done|]. intros k Hk. unfold waiting. cbn [s_opts set_opts].
      rewrite lookup_insert_ne; [done|]. intros <-. revert Hk. closed_dec.
    + destruct (Laggy.start_settings "off" "1,2"). by split.
  - reflexivity.
  - done.
  - done.
  - reflexivity.
  - reflexivity.
  - right. cbn. lia.
  - cbn. lia.
  - exists s'. split; [exact Hrun|]. by rewrite Hpw by closed_dec.
Defined.
