(* ===== verification/TextFacts.v ===== *)
(** * Facts about texts

    Regular expressions on texts with simple characters, and numbers in decimal. *)

From S2P Require Import Prelude PyStr PyRe.

Local Open Scope string_scope.

(** Every character of a text satisfies a predicate. *)
Definition all_chars (p : ascii → bool) (s : string) : bool :=
  forallb p (String.list_ascii_of_string s).

(** A text that does not begin with a character of a class. *)
Definition stops (p : ascii → bool) (s : string) : bool :=
  match s with "" => true | String c _ => negb (p c) end.

Fixpoint last_char (prev : option ascii) (s : string) : option ascii :=
  match s with "" => prev | String c s' => last_char (Some c) s' end.

Lemma length_app_str a b : String.length (a +:+ b) = String.length a + String.length b.
Proof. induction a as [|c a IH]; [done|]. exact (f_equal S IH). Qed.

Lemma str_app_nil a : a +:+ "" = a.
Proof. induction a as [|c a IH]; [done|]. exact (f_equal (String c) IH). Qed.

Lemma str_app_assoc a b c : a +:+ (b +:+ c) = (a +:+ b) +:+ c.
Proof. induction a as [|x a IH]; [done|]. exact (f_equal (String x) IH). Qed.

(** A greedy repetition of a class takes the longest run, when the rest of the pattern
    matches after it. *)
Lemma rmatch_star_chr {B} p a b prev g (k : option ascii → string → groups → option B) r :
  all_chars p a = true → stops p b = true → k (last_char prev a) b g = Some r →
  rmatch (Star true (Chr p)) prev (a +:+ b) g k = Some r.
Proof.
  intros Ha Hb Hk. cbn [rmatch].
  assert (String.length a < S (String.length (a +:+ b))) as Hn by (rewrite length_app_str; lia).
  revert Hn. generalize (S (String.length (a +:+ b))) as n. intros n.
  revert n prev Hk. induction a as [|c a IH]; intros n prev Hk Hn; (destruct n as [|n]; [lia|]);
    cbn [star_loop].
  - change ("" +:+ b) with b. destruct b as [|d b]; [done|]. cbn in Hb.
    apply negb_true_iff in Hb. cbn [rmatch]. by rewrite Hb.
  - cbn in Ha. apply andb_true_iff in Ha as [Hc Ha]. cbn [last_char] in Hk.
    change (String c a +:+ b) with (String c (a +:+ b)). cbn [rmatch]. rewrite Hc.
    assert (Nat.ltb (String.length (a +:+ b)) (String.length (String c (a +:+ b))) = true) as ->
      by (apply Nat.ltb_lt; cbn; lia).
    rewrite IH; [done|done|done|cbn in Hn; lia].
Qed.

Lemma rmatch_plus_chr {B} p c a b prev g (k : option ascii → string → groups → option B) r :
  p c = true → all_chars p a = true → stops p b = true →
  k (last_char (Some c) a) b g = Some r →
  rmatch (Plus (Chr p)) prev (String c a +:+ b) g k = Some r.
Proof.
  intros Hc Ha Hb Hk. unfold Plus. cbn [rmatch]. change (String c a +:+ b) with (String c (a +:+ b)).
  cbn iota. rewrite Hc. by apply (rmatch_star_chr p a b (Some c) g k r).
Qed.

Lemma rmatch_Seq {B} r1 r2 prev s g (k : option ascii → string → groups → option B) :
  rmatch (Seq r1 r2) prev s g k = rmatch r1 prev s g (λ prev' s' g', rmatch r2 prev' s' g' k).
Proof. done. Qed.

Lemma rmatch_Group {B} n r prev s g (k : option ascii → string → groups → option B) :
  rmatch (Group n r) prev s g k =
  rmatch r prev s g (λ prev' s' g', k prev' s' ((n, text_between s s') :: g')).
Proof. done. Qed.

(** Literal text matches itself. *)
Lemma rmatch_Lit {B} a b prev g (k : option ascii → string → groups → option B) :
  rmatch (Lit a) prev (a +:+ b) g k = k (last_char prev a) b g.
Proof.
  revert prev k. induction a as [|c a IH]; intros prev k; [done|].
  change (String c a +:+ b) with (String c (a +:+ b)). destruct a as [|d a].
  - cbn. by rewrite bool_decide_true.
  - change (Lit (String c (String d a))) with (Seq (same_char c) (Lit (String d a))).
    rewrite rmatch_Seq. unfold same_char. cbn [rmatch]. rewrite bool_decide_true by done.
    by rewrite IH.
Qed.

(** A match at the front is what [search] finds. *)
Lemma search_front r s last rest g :
  match_at r false None s = Some (last, rest, g) →
  search r s = Some (Match "" (text_between s rest) g last rest).
Proof. intros H. unfold search. destruct s; cbn [search_from]; by rewrite H. Qed.

Lemma substring_prefix a b : String.substring 0 (String.length a) (a +:+ b) = a.
Proof. induction a as [|c a IH]; [by destruct b|]. exact (f_equal (String c) IH). Qed.

(** What lies between a position and a later one. *)
Lemma text_between_app a b : text_between (a +:+ b) b = a.
Proof.
  unfold text_between. rewrite length_app_str, Nat.add_sub. apply substring_prefix.
Qed.

(** ** Splitting at a character *)

Lemma prefix_str1 d c s : String.prefix (str1 d) (String c s) = bool_decide (c = d).
Proof.
  cbn. destruct (ascii_dec d c) as [->|Hn].
  - rewrite bool_decide_true by done. by destruct s.
  - by rewrite bool_decide_false by congruence.
Qed.

Lemma split_go_cons_other d c s :
  c ≠ d → split_go (str1 d) (String c s) 0 =
  match split_go (str1 d) s 0 with h :: t => String c h :: t | [] => [String c ""] end.
Proof. intros Hc. cbn [split_go]. by rewrite prefix_str1, bool_decide_false. Qed.

Lemma split_go_cons_sep d s : split_go (str1 d) (String d s) 0 = "" :: split_go (str1 d) s 0.
Proof. cbn [split_go]. by rewrite prefix_str1, bool_decide_true. Qed.

Lemma split_go_char d a b :
  all_chars (λ c, negb (bool_decide (c = d))) a = true →
  split_go (str1 d) (a +:+ String d b) 0 = a :: split_go (str1 d) b 0.
Proof.
  induction a as [|c a IH]; [intros _; apply split_go_cons_sep|].
  cbn [all_chars String.list_ascii_of_string forallb]. unfold all_chars. cbn.
  intros [Hc Ha]%andb_true_iff. apply negb_true_iff, bool_decide_eq_false in Hc.
  change (String c a +:+ String d b) with (String c (a +:+ String d b)).
  change (String.append a (String d b)) with (a +:+ String d b).
  rewrite (split_go_cons_other d c) by done. by rewrite IH.
Qed.

Lemma split_go_last d a :
  all_chars (λ c, negb (bool_decide (c = d))) a = true → split_go (str1 d) a 0 = [a].
Proof.
  induction a as [|c a IH]; [done|]. unfold all_chars. cbn [String.list_ascii_of_string forallb].
  intros [Hc Ha]%andb_true_iff. apply negb_true_iff, bool_decide_eq_false in Hc.
  rewrite split_go_cons_other by done. by rewrite IH.
Qed.

(** [sep.join(l).split(sep)] gives [l] back when no element contains the separator. *)
Lemma split_go_join d l :
  l ≠ [] → Forall (λ a, all_chars (λ c, negb (bool_decide (c = d))) a = true) l →
  split_go (str1 d) (join (str1 d) l) 0 = l.
Proof.
  intros Hne Hl. induction Hl as [|a l Ha Hl IH]; [done|]. destruct l as [|b l].
  - by apply split_go_last.
  - assert (join (str1 d) (a :: b :: l) = a +:+ String d (join (str1 d) (b :: l))) as -> by done.
    rewrite split_go_char by done. by rewrite IH.
Qed.

(** ** Splitting at white space *)

(** A word: not empty, without white space. *)
Definition is_word (w : string) : Prop :=
  w ≠ "" ∧ all_chars (λ c, negb (is_space c)) w = true.

Lemma split_ws_space c s : is_space c = true → split_ws (String c s) = split_ws s.
Proof.
  intros Hc. unfold split_ws. cbn [ws_go]. destruct (ws_go s) as [ws cur]. rewrite Hc.
  by rewrite decide_True.
Qed.

Lemma ws_go_word w s ws :
  all_chars (λ c, negb (is_space c)) w = true → ws_go s = (ws, "") →
  ws_go (w +:+ s) = (ws, w).
Proof.
  intros Hw Hs. induction w as [|c w IH]; [done|].
  apply andb_true_iff in Hw as [Hc Hw]. bool_hyps.
  change (String c w +:+ s) with (String c (w +:+ s)). cbn [ws_go]. rewrite IH by done.
  by rewrite Hc.
Qed.

Lemma split_ws_last w : is_word w → split_ws w = [w].
Proof.
  intros [Hne Hw]. rewrite <- (str_app_nil w) at 1. unfold split_ws.
  rewrite (ws_go_word w "" []) by done. by rewrite decide_False.
Qed.

Lemma split_ws_word w c s :
  is_word w → is_space c = true → split_ws (w +:+ String c s) = w :: split_ws s.
Proof.
  intros [Hne Hw] Hc. rewrite <- (split_ws_space c s Hc). unfold split_ws.
  assert (∃ ws, ws_go (String c s) = (ws, "")) as [ws Hs].
  { cbn [ws_go]. destruct (ws_go s) as [ws cur]. rewrite Hc. eauto. }
  rewrite (ws_go_word w _ ws) by done. rewrite Hs, (decide_True (P := "" = "")) by done.
  by rewrite decide_False.
Qed.

(** ** Parts of a text *)

Lemma prefix_app sub s : String.prefix sub s = true → ∃ rest, s = sub +:+ rest.
Proof.
  revert s. induction sub as [|c sub IH]; intros s; [by exists s|]. destruct s as [|d s]; [done|].
  cbn. destruct (ascii_dec c d) as [<-|]; [|done]. intros [rest ->]%IH. by exists rest.
Qed.

Lemma prefix_of_app a b : String.prefix a (a +:+ b) = true.
Proof.
  induction a as [|c a IH]; [by destruct b|]. change (String c a +:+ b) with (String c (a +:+ b)).
  cbn. destruct (ascii_dec c c); done.
Qed.

Lemma substring_whole n s : (String.length s ≤ n)%nat → String.substring 0 n s = s.
Proof.
  revert n. induction s as [|c s IH]; intros n Hn; [by destruct n|].
  destruct n as [|n]; [cbn in Hn; lia|]. cbn in *. by rewrite IH by lia.
Qed.

Lemma all_chars_app p a b : all_chars p (a +:+ b) = all_chars p a && all_chars p b.
Proof.
  induction a as [|c a IH]; [done|].
  change (p c && all_chars p (a +:+ b) = p c && all_chars p a && all_chars p b).
  by rewrite IH, andb_assoc.
Qed.

(** The text does not have the character. *)
Definition avoids (d : ascii) (s : string) : Prop :=
  all_chars (λ c, negb (bool_decide (c = d))) s = true.

Lemma avoids_cons d c s : avoids d (String c s) ↔ c ≠ d ∧ avoids d s.
Proof.
  unfold avoids. change (negb (bool_decide (c = d)) && all_chars (λ c, negb (bool_decide (c = d))) s = true
    ↔ c ≠ d ∧ all_chars (λ c, negb (bool_decide (c = d))) s = true).
  rewrite andb_true_iff, negb_true_iff, bool_decide_eq_false. done.
Qed.

Lemma avoids_app d a b : avoids d (a +:+ b) ↔ avoids d a ∧ avoids d b.
Proof. unfold avoids. by rewrite all_chars_app, andb_true_iff. Qed.

(** Nothing to replace. *)
Lemma replace_absent d old new s :
  avoids d s → ¬ avoids d old → replace old new s = s.
Proof.
  intros Hs Hold. unfold replace. induction s as [|c s IH]; [done|]. cbn [replace_go].
  pose proof (proj1 (avoids_cons _ _ _) Hs) as [_ Hs'].
  destruct (String.prefix old (String c s)) eqn:E; [|by rewrite IH].
  apply prefix_app in E as [rest E]. rewrite E in Hs. by apply avoids_app in Hs as [? _].
Qed.

Lemma split1_at d a b : avoids d a → split1 d (a +:+ String d b) = Some (a, b).
Proof.
  induction a as [|c a IH]; intros Ha.
  - change (split1 d ("" +:+ String d b)) with
      (if decide (d = d) then Some ("", b) else
       match split1 d b with Some (x, y) => Some (String d x, y) | None => None end).
    by rewrite decide_True.
  - apply avoids_cons in Ha as [Hc Ha].
    change (split1 d (String c a +:+ String d b)) with
      (if decide (c = d) then Some ("", a +:+ String d b) else
       match split1 d (a +:+ String d b) with
       | Some (x, y) => Some (String c x, y) | None => None end).
    rewrite decide_False by done. by rewrite IH.
Qed.

Lemma join_avoids d sep l :
  avoids d sep → Forall (avoids d) l → avoids d (join sep l).
Proof.
  intros Hsep Hl. induction Hl as [|x l Hx Hl IH]; [done|]. destruct l as [|y l]; [done|].
  change (join sep (x :: y :: l)) with (x +:+ sep +:+ join sep (y :: l)).
  by rewrite !avoids_app.
Qed.

(** A text without some character does not contain a text with it. *)
Lemma contains_without p sub s :
  all_chars p s = true → all_chars p sub = false → contains sub s = false.
Proof.
  intros Hs Hsub. induction s as [|c s IH].
  - cbn. destruct sub; [done|]. done.
  - pose proof (proj1 (andb_true_iff _ _) Hs) as [_ Hs']. cbn [contains].
    rewrite (IH Hs'), orb_false_r.
    destruct (String.prefix sub (String c s)) eqn:E; [|done].
    apply prefix_app in E as [rest E]. rewrite E, all_chars_app, Hsub in Hs. done.
Qed.

(** ** Parts of texts *)

Lemma join_empty_cons x l : join "" (x :: l) = x +:+ join "" l.
Proof. destruct l as [|y l]; [exact (eq_sym (str_app_nil x))|done]. Qed.

Lemma substring_after a b :
  String.substring (String.length a) (String.length (a +:+ b) - String.length a) (a +:+ b) = b.
Proof.
  rewrite length_app_str, Nat.add_comm, Nat.add_sub.
  induction a as [|c a IH]; [by apply substring_whole|exact IH].
Qed.

(** * Decimal numbers: reading back what was written *)

Lemma digit_char_val n : (0 ≤ n < 10)%Z →
  digit_char n ≠ "_"%char ∧ digit_val 10 (digit_char n) = Some n ∧ is_space (digit_char n) = false ∧
  digit_char n ≠ "-"%char ∧ digit_char n ≠ "+"%char.
Proof.
  intros Hn.
  assert (n = 0 ∨ n = 1 ∨ n = 2 ∨ n = 3 ∨ n = 4 ∨ n = 5 ∨ n = 6 ∨ n = 7 ∨ n = 8 ∨ n = 9)%Z as H by lia.
  repeat destruct H as [->|H]; subst; by vm_compute.
Qed.

(** The digits of [n] move it into the accumulator of the reader. *)
Lemma digits_go_val fuel n : (0 ≤ n < 10 * 2 ^ Z.of_nat fuel)%Z →
  ∃ k, ∀ acc a u, digits_val 10 (digits_go (S fuel) n acc) a u = digits_val 10 acc (a * k + n)%Z true.
Proof.
  revert n. induction fuel as [|fuel IH]; intros n Hn.
  - destruct (digit_char_val n) as (Hu & Hv & _); [cbn in Hn; lia|].
    exists 10%Z. intros acc a u. cbn [digits_go].
    rewrite Z.mod_small, (proj2 (Z.ltb_lt n 10)) by (cbn in Hn; lia). cbn [digits_val].
    by rewrite bool_decide_false, Hv by done.
  - assert (0 ≤ n mod 10 < 10)%Z as Hm by (apply Z.mod_pos_bound; lia).
    destruct (digit_char_val _ Hm) as (Hu & Hv & _).
    remember (S fuel) as fuel' eqn:Ef. cbn [digits_go]. destruct (n <? 10)%Z eqn:E.
    + exists 10%Z. intros acc a u. cbn [digits_val]. rewrite bool_decide_false, Hv by done.
      f_equal. rewrite Z.mod_small by lia. done.
    + subst fuel'. destruct (IH (n / 10)%Z) as [k Hk].
      { rewrite Nat2Z.inj_succ, Z.pow_succ_r in Hn by lia.
        split; [apply Z.div_pos; lia|]. apply Z.div_lt_upper_bound; lia. }
      exists (k * 10)%Z. intros acc a u. rewrite Hk. cbn [digits_val].
      rewrite bool_decide_false, Hv by done. f_equal.
      pose proof (Z.div_mod n 10). lia.
Qed.

(** ** White space *)

Definition unspaced : string → bool := all_chars (λ c, negb (is_space c)).

Lemma unspaced_cons c s : unspaced (String c s) = negb (is_space c) && unspaced s.
Proof. done. Qed.

Lemma strip_unspaced s : unspaced s = true → strip s = s.
Proof.
  intros H. assert (rstrip s = s) as Hr.
  { unfold rstrip. induction s as [|c s IH]; [done|]. rewrite unspaced_cons in H.
    apply andb_true_iff in H as [Hc H]. cbn. apply negb_true_iff in Hc. by rewrite Hc, IH. }
  unfold strip. rewrite Hr. unfold lstrip. destruct s as [|c s]; [done|].
  rewrite unspaced_cons in H. apply andb_true_iff in H as [Hc _]. apply negb_true_iff in Hc.
  cbn. by rewrite Hc.
Qed.

Lemma digits_go_unspaced fuel n acc :
  (0 ≤ n)%Z → unspaced acc = true → unspaced (digits_go fuel n acc) = true.
Proof.
  revert n acc. induction fuel as [|fuel IH]; intros n acc Hn Ha; [done|]. cbn [digits_go].
  destruct (digit_char_val (n mod 10)) as (_ & _ & Hs & _); [apply Z.mod_pos_bound; lia|].
  assert (unspaced (String (digit_char (n mod 10)) acc) = true) as Hacc
    by (by rewrite unspaced_cons, Hs, Ha).
  destruct (n <? 10)%Z; [done|]. apply IH; [apply Z.div_pos; lia|done].
Qed.

(** The first character of a number that is not negative is no sign. *)
Lemma digits_go_head fuel n acc : (0 ≤ n)%Z →
  ∃ c s, digits_go (S fuel) n acc = String c s ∧ c ≠ "-"%char ∧ c ≠ "+"%char.
Proof.
  revert n acc. induction fuel as [|fuel IH]; intros n acc Hn.
  - destruct (digit_char_val (n mod 10)) as (_ & _ & _ & H1 & H2); [apply Z.mod_pos_bound; lia|].
    cbn. destruct (n <? 10)%Z; eauto 6.
  - destruct (digit_char_val (n mod 10)) as (_ & _ & _ & H1 & H2); [apply Z.mod_pos_bound; lia|].
    remember (S fuel) as f'. cbn [digits_go]. destruct (n <? 10)%Z; [eauto 6|].
    subst f'. apply IH. apply Z.div_pos; lia.
Qed.

(** ** [int(str(n))] *)

Lemma digits_read n : (0 ≤ n)%Z →
  digits_val 10 (digits_go (S (Z.to_nat (Z.log2 n))) n "") 0 false = Some n.
Proof.
  intros Hn. destruct (digits_go_val (Z.to_nat (Z.log2 n)) n) as [k Hk]; [|by rewrite Hk].
  split; [done|]. rewrite Z2Nat.id by apply Z.log2_nonneg.
  destruct (decide (n = 0%Z)) as [->|H0]; [done|].
  pose proof (Z.log2_spec n) as [_ H]; [lia|]. rewrite Z.pow_succ_r in H by apply Z.log2_nonneg.
  lia.
Qed.

Lemma str_of_Z_unspaced n : unspaced (str_of_Z n) = true.
Proof.
  unfold str_of_Z. destruct (n <? 0)%Z eqn:E.
  - change ("-" +:+ ?x) with (String "-"%char x). rewrite unspaced_cons. apply digits_go_unspaced; [lia|done].
  - apply digits_go_unspaced; [lia|done].
Qed.

Lemma int_of_str_of_Z n : int_of_str (str_of_Z n) = Some n.
Proof.
  unfold int_of_str. rewrite strip_unspaced by apply str_of_Z_unspaced.
  unfold str_of_Z. destruct (n <? 0)%Z eqn:E.
  - change ("-" +:+ ?x) with (String "-"%char x). cbn [with_sign].
    rewrite digits_read by lia. cbn. f_equal. lia.
  - rewrite <- (digits_read n) by lia.
    destruct (digits_go_head (Z.to_nat (Z.log2 n)) n "") as (c & s & -> & H1 & H2); [lia|].
    unfold with_sign. destruct c as [[] [] [] [] [] [] [] []]; done.
Qed.

#[export] Instance str_of_Z_inj : Inj (=) (=) str_of_Z.
Proof. intros n m H. pose proof (int_of_str_of_Z n) as Hn. rewrite H, int_of_str_of_Z in Hn. congruence. Qed.
