(* ===== verification/TextSpec.v ===== *)
(** * The texts of the documentation are complete and well-formed

    [encode_html_entities] against a character by character reference with an inverse;
    [wrap] loses nothing but white space and respects its width. *)

From S2P Require Import Prelude PyStr PyRe TextFacts Text.

Local Open Scope string_scope.

(** ** Replacing characters one by one *)

Fixpoint concat_map (f : ascii → string) (s : string) : string :=
  match s with
  | "" => ""
  | String c s' => f c +:+ concat_map f s'
  end.

Lemma concat_map_app f a b : concat_map f (a +:+ b) = concat_map f a +:+ concat_map f b.
Proof.
  induction a as [|c a IH]; [done|].
  change (f c +:+ concat_map f (a +:+ b) = (f c +:+ concat_map f a) +:+ concat_map f b).
  by rewrite IH, str_app_assoc.
Qed.

Lemma concat_map_compose f g s :
  concat_map f (concat_map g s) = concat_map (λ c, concat_map f (g c)) s.
Proof. induction s as [|c s IH]; [done|]. cbn. by rewrite concat_map_app, IH. Qed.

Lemma concat_map_ext f g s : (∀ c, f c = g c) → concat_map f s = concat_map g s.
Proof. intros Hfg. induction s as [|c s IH]; [done|]. cbn. by rewrite Hfg, IH. Qed.

Definition swap (d : ascii) (new : string) (c : ascii) : string :=
  if decide (c = d) then new else str1 c.

Lemma replace_char d new s : replace (str1 d) new s = concat_map (swap d new) s.
Proof.
  unfold replace. induction s as [|c s IH]; [done|]. cbn [replace_go concat_map].
  rewrite prefix_str1. unfold swap at 1. case_decide as Hc.
  - rewrite bool_decide_true by done. cbn [String.length Nat.sub str1]. by rewrite IH.
  - rewrite bool_decide_false by done. by rewrite IH.
Qed.

(** ** Entities *)

(** What each character becomes. *)
Definition entity (c : ascii) : string :=
  if decide (c = "&"%char) then "&amp;"
  else if decide (c = DQ) then "&quot;"
  else if decide (c = "<"%char) then "&lt;"
  else if decide (c = ">"%char) then "&gt;"
  else if decide (c = "'"%char) then "&apos;"
  else str1 c.

(** Reading entities back; [skip] characters of the current one are still to pass. *)
Fixpoint decode_go (s : string) (skip : nat) : string :=
  match s with
  | "" => ""
  | String c s' =>
      match skip with
      | S k => decode_go s' k
      | O =>
          if String.prefix "&amp;" s then String "&" (decode_go s' 4)
          else if String.prefix "&quot;" s then String DQ (decode_go s' 5)
          else if String.prefix "&lt;" s then String "<" (decode_go s' 3)
          else if String.prefix "&gt;" s then String ">" (decode_go s' 3)
          else if String.prefix "&apos;" s then String "'" (decode_go s' 5)
          else String c (decode_go s' 0)
      end
  end.

Definition decode_html_entities (s : string) : string := decode_go s 0.

(** The characters that end a text or an attribute value of XML. *)
Definition xml_safe (c : ascii) : bool :=
  negb (bool_decide (c ∈ [DQ; "<"; ">"; "'"]%char)).

Lemma encode_per_character s : encode_html_entities s = concat_map entity s.
Proof.
  unfold encode_html_entities.
  rewrite (replace_char "&"), (replace_char DQ), (replace_char "<"), (replace_char ">"),
    (replace_char "'"), !concat_map_compose.
  apply concat_map_ext. intros [[] [] [] [] [] [] [] []]; reflexivity.
Qed.

Lemma entity_safe c : all_chars xml_safe (entity c) = true.
Proof. by destruct c as [[] [] [] [] [] [] [] []]. Qed.

Lemma decode_entity c s : decode_go (entity c +:+ s) 0 = String c (decode_go s 0).
Proof. destruct c as [[] [] [] [] [] [] [] []]; try reflexivity; by destruct s. Qed.

(** Escaping for XML: the encoded text is the concatenation of what each character
    becomes, it has no quote and no angle bracket, and decoding gives the text back, so
    that two texts never become the same. *)
Theorem encode_html_entities_lossless s :
  encode_html_entities s = concat_map entity s ∧
  all_chars xml_safe (encode_html_entities s) = true ∧
  decode_html_entities (encode_html_entities s) = s.
Proof.
  split; [apply encode_per_character|]. rewrite encode_per_character. split.
  - induction s as [|c s IH]; [done|]. cbn [concat_map]. by rewrite all_chars_app, entity_safe, IH.
  - unfold decode_html_entities. induction s as [|c s IH]; [done|]. cbn [concat_map].
    by rewrite decode_entity, IH.
Qed.

(** ** Wrapping *)

(** The text without its white space. *)
Fixpoint solid (s : string) : string :=
  match s with
  | "" => ""
  | String c s' => if is_space c then solid s' else String c (solid s')
  end.

Lemma solid_app a b : solid (a +:+ b) = solid a +:+ solid b.
Proof.
  induction a as [|c a IH]; [done|]. change (String c a +:+ b) with (String c (a +:+ b)).
  cbn [solid]. rewrite IH. by destruct (is_space c).
Qed.

Lemma join_empty_app l l' : join "" (l ++ l')%list = join "" l +:+ join "" l'.
Proof.
  induction l as [|x l IH]; [done|]. cbn [app]. by rewrite !join_empty_cons, IH, str_app_assoc.
Qed.

Lemma is_wrap_space_space c : is_wrap_space c = true → is_space c = true.
Proof. by destruct c as [[] [] [] [] [] [] [] []]. Qed.

Lemma solid_spaces n s : solid (repeat_str " " n +:+ s) = solid s.
Proof. rewrite solid_app. by induction n as [|n IH]. Qed.

Lemma solid_expandtabs s col : solid (expandtabs s col) = solid s.
Proof.
  revert col. induction s as [|c s IH]; intros col; [done|]. cbn [expandtabs].
  destruct (decide (c = TAB)) as [->|].
  - by rewrite solid_spaces, IH.
  - destruct (_ || _); cbn [solid]; by rewrite IH.
Qed.

Lemma solid_munge s : solid (munge_whitespace s) = solid s.
Proof.
  unfold munge_whitespace. rewrite <- (solid_expandtabs s 0).
  induction (expandtabs s 0) as [|c t IH]; [done|]. cbn [smap solid]. rewrite IH.
  destruct (is_wrap_space c) eqn:E; [|done]. by rewrite (is_wrap_space_space c E).
Qed.

(** Cutting into chunks: nothing is lost, and a chunk is blank or without white space. *)
Definition unbroken (w : string) : Prop := all_chars (λ c, negb (is_wrap_space c)) w = true.

Lemma join_split_chunks s : join "" (split_chunks s) = s.
Proof.
  induction s as [|c s IH]; [done|]. cbn [split_chunks].
  destruct (split_chunks s) as [|[|d w] ws]; subst s; [done|by rewrite join_empty_cons|].
  destruct (Bool.eqb _ _); by rewrite !join_empty_cons.
Qed.

Lemma split_chunks_uniform s :
  Forall (λ w, w ≠ "" ∧ (unbroken w ∨ all_chars is_wrap_space w = true)) (split_chunks s).
Proof.
  assert (∀ c : ascii, str1 c ≠ "" ∧ (unbroken (str1 c) ∨ all_chars is_wrap_space (str1 c) = true))
    as Hone.
  { intros c. split; [done|]. unfold unbroken, all_chars. cbn. destruct (is_wrap_space c); auto. }
  induction s as [|c s IH]; [constructor|]. cbn [split_chunks].
  destruct (split_chunks s) as [|[|d w] ws]; [by apply Forall_singleton|by apply Forall_cons|].
  pose proof IH as [[_ Hw] IH']%Forall_cons. destruct (Bool.eqb _ _) eqn:E; [|by apply Forall_cons].
  apply Forall_cons. split; [|done]. split; [done|]. apply eqb_prop in E.
  unfold unbroken, all_chars in *. cbn [String.list_ascii_of_string forallb] in *. rewrite E.
  destruct Hw as [Hw|Hw]; apply andb_true_iff in Hw as [Hd Hw]; rewrite Hd, Hw; [by left|by right].
Qed.

(** Blank chunks have nothing solid. *)
Lemma solid_lstrip p s : (∀ c, p c = true → is_space c = true) → solid (lstrip_by p s) = solid s.
Proof.
  intros Hp. induction s as [|c s IH]; [done|]. cbn. destruct (p c) eqn:E; [|done].
  by rewrite (Hp c E).
Qed.

Lemma solid_rstrip s : solid (rstrip s) = solid s.
Proof.
  unfold rstrip. induction s as [|c s IH]; [done|]. cbn. rewrite <- IH.
  destruct (is_space c) eqn:Hc, (bool_decide (rstrip_by is_space s = "")) eqn:E; cbn;
    rewrite ?Hc; try done. bool_hyps. by rewrite E.
Qed.

Lemma solid_blank s : is_blank s = true → solid s = "".
Proof.
  unfold is_blank. intros Hs. bool_hyps. unfold strip, lstrip in *.
  by rewrite <- solid_rstrip, <- (solid_lstrip is_space), Hs.
Qed.

Lemma take_fitting_spec width cur chunks line rest :
  take_fitting width cur chunks = (line, rest) →
  chunks = (line ++ rest)%list ∧
  (cur ≤ width → cur + String.length (join "" line) ≤ width)%nat ∧
  (∀ c cs, line = [] → rest = c :: cs → width < cur + String.length c)%nat.
Proof.
  revert cur line rest. induction chunks as [|c chunks IH]; intros cur line rest; cbn [take_fitting].
  { intros [= <- <-]. split; [done|]. cbn. split; [lia|done]. }
  destruct (Nat.leb _ _) eqn:E.
  - destruct (take_fitting width _ chunks) as [line' rest'] eqn:Ht. intros [= <- <-].
    apply IH in Ht as (-> & Hw & _). apply Nat.leb_le in E. split; [done|]. split; [|done].
    intros _. rewrite join_empty_cons, length_app_str. specialize (Hw E). lia.
  - intros [= <- <-]. apply Nat.leb_gt in E. split; [done|]. cbn. split; [lia|].
    intros c' cs _ [= <- <-]. lia.
Qed.

(** A line fits, or is one chunk that is too wide; some chunk is always used. *)
Definition fits (width : nat) (line : list string) : Prop :=
  (String.length (join "" line) ≤ width)%nat ∨ ∃ c, line = [c].

Lemma line_chunks_spec width chunks line rest :
  (let '(l, r) := take_fitting width 0 chunks in handle_long_word width l r) = (line, rest) →
  chunks = (line ++ rest)%list ∧ fits width line ∧ (chunks ≠ [] → line ≠ []).
Proof.
  destruct (take_fitting width 0 chunks) as [l r] eqn:Ht.
  apply take_fitting_spec in Ht as (-> & Hw & Hne). unfold fits, handle_long_word.
  specialize (Hw (Nat.le_0_l _)). destruct l as [|x l].
  - destruct r as [|c cs]; [intros [= <- <-]; by auto with lia|].
    specialize (Hne c cs eq_refl eq_refl). rewrite (proj2 (Nat.ltb_lt _ _)) by lia.
    intros [= <- <-]. split; [done|]. split; [right; eauto|done].
  - intros [= <- <-]. split; [done|]. split; [by left|done].
Qed.

Lemma drop_trailing_blank_spec line :
  solid (join "" (drop_trailing_blank line)) = solid (join "" line) ∧
  drop_trailing_blank line `prefix_of` line.
Proof.
  unfold drop_trailing_blank. destruct line as [|x l _] using rev_ind; [done|].
  rewrite last_snoc. destruct (is_blank x) eqn:E; [|done].
  rewrite length_app. cbn [length]. rewrite Nat.add_sub, take_app_length. split; [|by exists [x]].
  rewrite join_empty_app, solid_app. cbn [join]. by rewrite (solid_blank x E), str_app_nil.
Qed.

(** Without its trailing blank a line still fits, or is one word. *)
Lemma drop_trailing_blank_fits width line :
  fits width line → drop_trailing_blank line ≠ [] →
  (String.length (join "" (drop_trailing_blank line)) ≤ width)%nat ∨
  ∃ c, drop_trailing_blank line = [c] ∧ c ∈ line ∧ is_blank c = false.
Proof.
  intros [Hf|[c ->]] Hne.
  - left. destruct (drop_trailing_blank_spec line) as [_ [k Hk]]. rewrite Hk in Hf at 1.
    rewrite join_empty_app, length_app_str in Hf. lia.
  - right. exists c. revert Hne. unfold drop_trailing_blank. cbn.
    destruct (is_blank c); [done|]. split; [done|]. split; [by constructor|done].
Qed.

Section Wrap.
Variables (width : nat) (i1 i2 : string).
Hypothesis solid1 : solid i1 = "".
Hypothesis solid2 : solid i2 = "".
Hypothesis room1 : (String.length i1 ≤ width)%nat.
Hypothesis room2 : (String.length i2 ≤ width)%nat.

(** A line respects the width, or is the indentation and one of the chunks. *)
Definition line_ok (chunks : list string) (line : string) : Prop :=
  (String.length line ≤ width)%nat ∨
  ∃ indent c, line = indent +:+ c ∧ (indent = i1 ∨ indent = i2) ∧ c ∈ chunks ∧ is_blank c = false.

Lemma wrap_chunks_spec fuel first chunks :
  (length chunks ≤ fuel)%nat →
  solid (join "" (wrap_chunks fuel width i1 i2 first chunks)) = solid (join "" chunks) ∧
  Forall (line_ok chunks) (wrap_chunks fuel width i1 i2 first chunks).
Proof.
  revert first chunks. induction fuel as [|fuel IH]; intros first chunks Hfuel.
  { destruct chunks; [done|cbn in Hfuel; lia]. }
  destruct chunks as [|c cs]; [done|]. cbn [wrap_chunks].
  set (indent := if first then i1 else i2). set (chunks1 := if _ && _ then cs else c :: cs).
  assert (solid indent = "" ∧ (String.length indent ≤ width)%nat ∧ (indent = i1 ∨ indent = i2))
    as (Hind & Hroom & Hwhich) by (subst indent; destruct first; auto).
  assert (solid (join "" chunks1) = solid (join "" (c :: cs)) ∧ (∀ x, x ∈ chunks1 → x ∈ c :: cs) ∧
    (length chunks1 ≤ length (c :: cs))%nat ∧ (chunks1 = [] → cs = [])) as (Hsol & Hin & Hlen & Hnil).
  { subst chunks1. destruct (is_blank c && negb first) eqn:E; [|done]. bool_hyps.
    rewrite join_empty_cons, solid_app, (solid_blank c) by done.
    split; [done|]. split; [by constructor|]. cbn. split; [lia|done]. }
  destruct (let '(l, r) := take_fitting (width - String.length indent) 0 chunks1 in
            handle_long_word (width - String.length indent) l r) as [line rest] eqn:Hline.
  pose proof (line_chunks_spec _ _ _ _ Hline) as (Hsplit & Hfits & Hsome).
  destruct (take_fitting _ 0 chunks1) as [l r]. rewrite Hline.
  assert (length rest ≤ fuel)%nat as Hrest.
  { rewrite Hsplit, length_app in Hlen. cbn in Hfuel, Hlen.
    destruct chunks1 as [|x xs]; [destruct line, rest; cbn in *; [lia|done..]|].
    specialize (Hsome ltac:(done)). destruct line; [done|]. cbn in *. lia. }
  assert (∀ f, Forall (line_ok rest) (wrap_chunks fuel width i1 i2 f rest) →
    Forall (line_ok (c :: cs)) (wrap_chunks fuel width i1 i2 f rest)) as Hmono.
  { intros f Hf. eapply Forall_impl; [exact Hf|]. intros x [?|(i & w & -> & Hi & Hw & Hb)].
    - by left.
    - right. exists i, w. split; [done|]. split; [done|]. split; [|done]. apply Hin.
      rewrite Hsplit. apply elem_of_app. by right. }
  destruct (drop_trailing_blank_spec line) as [Hdrop [k Hk]].
  pose proof (drop_trailing_blank_fits _ _ Hfits) as Hdfits.
  rewrite Hsplit, join_empty_app, solid_app in Hsol. rewrite <- Hsol, <- Hdrop.
  destruct (drop_trailing_blank line) as [|w ws] eqn:Hd.
  - destruct (IH first rest Hrest) as [Hs Hf]. by auto.
  - destruct (IH false rest Hrest) as [Hs Hf].
    rewrite (join_empty_cons (indent +:+ _)), !solid_app, Hind, Hs. split; [done|].
    apply Forall_cons. split; [|by apply Hmono].
    destruct Hdfits as [Hw|(x & Hx & Hxin & Hxb)]; [done| |].
    + left. rewrite length_app_str. lia.
    + right. exists indent, x. rewrite Hx. split; [done|]. split; [done|]. split; [|done].
      apply Hin. rewrite Hsplit. apply elem_of_app. by left.
Qed.
End Wrap.

Lemma solid_rstrip_char d s : is_space d = true → solid (rstrip_char d s) = solid s.
Proof.
  intros Hd. unfold rstrip_char. induction s as [|c s IH]; [done|]. cbn. rewrite <- IH.
  case_bool_decide as Hc; cbn [andb]; [subst c; rewrite Hd|by cbn].
  destruct (bool_decide _) eqn:E; [|cbn; by rewrite Hd]. bool_hyps. by rewrite E.
Qed.

Lemma solid_blanks n : solid (repeat_str " " n) = "".
Proof. by induction n. Qed.

Lemma length_blanks n : String.length (repeat_str " " n) = n.
Proof. induction n as [|n IH]; [done|]. exact (f_equal S IH). Qed.

Lemma solid_lines lines : solid (join "" (map (λ l, l +:+ nl) lines)) = solid (join "" lines).
Proof.
  induction lines as [|l lines IH]; [done|]. cbn [map].
  by rewrite !join_empty_cons, !solid_app, IH, str_app_nil.
Qed.

Lemma unbroken_chunk w s : w ∈ split_chunks s → is_blank w = false → unbroken w.
Proof.
  intros Hw Hb. pose proof (split_chunks_uniform s) as Hu.
  rewrite Forall_forall in Hu. destruct (Hu w Hw) as [_ [Hu'|Hu']]; [done|]. clear Hu. rename Hu' into Hu.
  exfalso. enough (is_blank w = true) by congruence. clear -Hu.
  unfold is_blank. apply bool_decide_eq_true. assert (rstrip w = "") as Hr.
  { induction w as [|c w IH]; [done|]. apply andb_true_iff in Hu as [Hc Hw].
    unfold rstrip in *. cbn. by rewrite (is_wrap_space_space c Hc), IH. }
  unfold strip. by rewrite Hr.
Qed.

(** Help texts are complete: wrapping the joined words keeps every character but
    white space, in order, and no line is longer than 85 characters, unless it is the
    indentation and one word without white space. *)
Theorem join_wrap_complete normal_separator last_separator first_indent words :
  (first_indent ≤ 85)%nat →
  let text := join2 normal_separator last_separator words in
  solid (join_wrap normal_separator last_separator first_indent words) = solid text ∧
  Forall (λ line, (String.length line ≤ 85)%nat ∨
                  ∃ n w, line = repeat_str " " n +:+ w ∧ unbroken w)
    (wrap 85 (repeat_str " " first_indent) (repeat_str " " 40) text).
Proof.
  intros Hn text. unfold join_wrap. fold text. rewrite solid_rstrip_char by done.
  unfold lstrip. rewrite solid_lstrip, solid_lines by done. unfold wrap.
  set (chunks := split_chunks (munge_whitespace text)).
  assert (String.length (repeat_str " " first_indent) ≤ 85)%nat as Hroom
    by (by rewrite length_blanks).
  assert (String.length (repeat_str " " 40) ≤ 85)%nat as Hroom40 by (rewrite length_blanks; lia).
  assert (length chunks ≤ 2 * length chunks)%nat as Hfuel by lia.
  destruct (wrap_chunks_spec 85 _ (repeat_str " " 40) (solid_blanks first_indent)
    (solid_blanks 40) Hroom Hroom40 (2 * length chunks) true chunks Hfuel) as [Hs Hf].
  split; [rewrite Hs; unfold chunks; by rewrite join_split_chunks, solid_munge|].
  eapply Forall_impl; [exact Hf|]. intros line [?|(i & w & -> & Hi & Hw & Hb)]; [by left|].
  right. apply unbroken_chunk in Hw; [|done]. destruct Hi as [->| ->]; eauto.
Qed.

Lemma join_wrap_complete_witness :
  solid (join_wrap ", " " and " 42 ["status"; "list"; "monitor"]) = "status,listandmonitor".
Proof.
  exact (proj1 (join_wrap_complete ", " " and " 42 ["status"; "list"; "monitor"]
    ltac:(lia))).
Defined.
