(* ===== verification/InputSpec.v ===== *)
(** * Options mean the same on the command line and on standard input

    For options that take an argument: the arguments [--name=value] and the lines
    [name=value] are read as the same options. *)

From S2P Require Import Prelude PyStr PyRe PyGetopt OptionDefs Effects Fail Host TextFacts.
From S2P Require Import TextSpec Input.
Import Host.Mem.

Local Open Scope string_scope.

Lemma drop_last_snoc a c : drop_last (a +:+ str1 c) = a.
Proof.
  induction a as [|d a IH]; [done|]. change (String d a +:+ str1 c) with (String d (a +:+ str1 c)).
  cbn. rewrite IH. by destruct a.
Qed.

Lemma rstrip_app a b : rstrip b ≠ "" → rstrip (a +:+ b) = a +:+ rstrip b.
Proof.
  intros Hb. induction a as [|c a IH]; [done|].
  change (String c a +:+ b) with (String c (a +:+ b)). unfold rstrip in *. cbn [rstrip_by].
  rewrite IH. rewrite bool_decide_false, andb_false_r; [done|].
  destruct a as [|c' a]; [done|done].
Qed.

Lemma rstrip_by_absent p s : all_chars (λ c, negb (p c)) s = true → rstrip_by p s = s.
Proof.
  induction s as [|c s IH]; [done|]. intros [Hc Hs]%andb_true_iff. cbn [rstrip_by]. bool_hyps.
  by rewrite IH, Hc.
Qed.

(** ** Settings *)

(** The key of an option in [all_opt], its long name, and the value given to it. *)
Record setting := Setting { st_option : string; st_name : string; st_value : string }.

Definition setting_line (x : setting) : string := st_name x +:+ String "=" (st_value x).
Definition setting_arg (x : setting) : string := "--" +:+ setting_line x.

(** The options that settings stand for: the last value of each name. *)
Definition entered (xs : list setting) : list (string * string) :=
  map (λ x, ("--" +:+ st_name x, st_value x)) xs.
Definition settings_map (xs : list setting) : gmap string pyval :=
  VStr <$> (list_to_map (reverse (entered xs)) : gmap string string).

(** The value can be written on one line: it has no line ends, is not quoted, and has no
    white space at its end. *)
Definition plain_value (v : string) : Prop :=
  avoids NL v ∧ avoids CR v ∧ unquote v = v ∧ rstrip v = v.

(** A long name as the table has them: it separates its words in one way only. *)
Definition plain_name (l : string) : Prop :=
  avoids NL l ∧ avoids CR l ∧ avoids "=" l ∧ avoids ":" l ∧
  (∃ c l', l = String c l' ∧ is_space c = false ∧ c ≠ "#"%char) ∧
  (replace "-" "_" l = l ∨ replace "_" "-" l = l).

Section Table.
Variable m : gmap string optdef.
Variable avail : list string.

(** Two available options never have the same long name, even when dashes and
    underscores are taken for each other; no short name begins with a dash. *)
Definition unambiguous : Prop :=
  (∀ o1 o2 d1 d2 l1 l2,
    o1 ∈ avail → o2 ∈ avail → m !! o1 = Some d1 → m !! o2 = Some d2 →
    od_longopt d1 = Some l1 → od_longopt d2 = Some l2 →
    replace "-" "_" l1 = replace "-" "_" l2 → o1 = o2) ∧
  (∀ o d, o ∈ avail → m !! o = Some d → startswith "-" (od_getopt d) = false).

(** A setting of an available option that takes an argument. *)
Definition valid_setting (x : setting) : Prop :=
  st_option x ∈ avail ∧
  (∃ d, m !! st_option x = Some d ∧ od_longopt d = Some (st_name x) ∧
        endswith ":" (od_getopt d) = true) ∧
  st_option x ≠ "verbose" ∧ st_name x ≠ "verbose" ∧
  plain_name (st_name x) ∧ plain_value (st_value x).

Hypothesis table : unambiguous.
Hypothesis defined : ∀ o, o ∈ avail → is_Some (m !! o).
Lemma norm_idem l : replace "-" "_" (replace "-" "_" l) = replace "-" "_" l.
Proof.
  rewrite !(replace_char "-"), concat_map_compose. apply concat_map_ext.
  intros [[] [] [] [] [] [] [] []]; reflexivity.
Qed.

Lemma norm_other l : replace "-" "_" (replace "_" "-" l) = replace "-" "_" l.
Proof.
  rewrite !(replace_char "-"), (replace_char "_"), concat_map_compose. apply concat_map_ext.
  intros [[] [] [] [] [] [] [] []]; reflexivity.
Qed.

(** The dictionary from long names to keys. *)
Definition names_keys (mapping : gmap string string) : Prop :=
  (∀ l o, mapping !! l = Some o → o ∈ avail ∧ ∃ d, m !! o = Some d ∧ od_longopt d = Some l) ∧
  (∀ o d l, o ∈ avail → m !! o = Some d → od_longopt d = Some l → is_Some (mapping !! l)).

Lemma mapping_longopt_names_spec {D} (s : st D) :
  s_allopt s = m →
  ∃ mapping, mapping_longopt_names avail s = (Ret mapping, s) ∧ names_keys mapping.
Proof.
  intros Hs. unfold mapping_longopt_names, names_keys.
  assert (∀ os acc, (∀ o, o ∈ os → is_Some (m !! o)) → ∃ mapping,
    mfold (λ (mp : gmap string string) o, d ← allopt_get (D := D) o;
      mret (match od_longopt d with Some l => <[l := o]> mp | None => mp end)) acc os s =
      (Ret mapping, s) ∧
    (∀ l o, mapping !! l = Some o →
      acc !! l = Some o ∨ o ∈ os ∧ ∃ d, m !! o = Some d ∧ od_longopt d = Some l) ∧
    (∀ l, is_Some (acc !! l) → is_Some (mapping !! l)) ∧
    (∀ o d l, o ∈ os → m !! o = Some d → od_longopt d = Some l → is_Some (mapping !! l)))
    as Hfold.
  { induction os as [|o os IH]; intros acc Hdef.
    { exists acc. repeat split; auto. intros ? ? ? Ho. by apply not_elem_of_nil in Ho. }
    destruct (Hdef o) as [d Hd]; [by constructor|]. cbn [mfold].
    assert (allopt_get o s = (Ret d, s)) as Hget by (unfold allopt_get; by rewrite Hs, Hd).
    erewrite bind_Ret by (rewrite (bind_Ret _ _ _ _ _ Hget); reflexivity).
    destruct (IH (match od_longopt d with Some l => <[l := o]> acc | None => acc end))
      as (mp & Hm & Hin & Hacc & Hall); [intros o' Ho'; apply Hdef; by constructor|].
    exists mp. split; [exact Hm|]. split; [|split].
    - intros l o' [Ho'|(Ho' & Hrest)]%Hin.
      + destruct (od_longopt d) as [l'|] eqn:Hl; [|by left]. apply lookup_insert_Some in Ho' as [[<- <-]|[_ ?]].
        * right. split; [by constructor|eauto].
        * by left.
      + right. split; [by constructor|done].
    - intros l Hl. apply Hacc. destruct (od_longopt d) as [l'|]; [|done].
      destruct (decide (l = l')) as [->|]; [rewrite lookup_insert_eq|rewrite lookup_insert_ne by done];
        done.
    - intros o' d' l' [->|Ho']%elem_of_cons Hd' Hl'; [|by eapply Hall].
      apply Hacc. assert (d' = d) as -> by congruence. rewrite Hl', lookup_insert_eq. done. }
  destruct (Hfold avail ∅ defined) as (mp & Hm & Hin & _ & Hall). exists mp. split; [exact Hm|].
  split; [|exact Hall]. intros l o [Ho|Ho]%Hin; [by rewrite lookup_empty in Ho|done].
Qed.

(** A long name leads to its option. *)
Lemma resolve_name_valid mapping o d l :
  names_keys mapping → o ∈ avail → m !! o = Some d → od_longopt d = Some l →
  replace "-" "_" l = l ∨ replace "_" "-" l = l → resolve_name mapping l = o.
Proof.
  intros [Hin Hall] Ho Hd Hl Hsep. unfold resolve_name.
  assert (∀ l' o', replace "-" "_" l' = replace "-" "_" l → mapping !! l' = Some o' → o' = o) as Huniq.
  { intros l' o' Hnorm Ho'. destruct (Hin _ _ Ho') as (Hav & d' & Hd' & Hl').
    by eapply (proj1 table). }
  destruct (mapping !! replace "-" "_" l) as [o1|] eqn:E1.
  { eapply Huniq; [|exact E1]. apply norm_idem. }
  destruct (mapping !! replace "_" "-" l) as [o2|] eqn:E2.
  { eapply Huniq; [|exact E2]. apply norm_other. }
  destruct (Hall o d l Ho Hd Hl) as [x Hx]. destruct Hsep as [Hsep|Hsep]; rewrite Hsep in *; congruence.
Qed.
(** ** Standard input *)

Lemma setting_line_strip x : valid_setting x → strip (setting_line x) = setting_line x.
Proof.
  intros (_ & _ & _ & _ & (_ & _ & _ & _ & (c & l' & Hl & Hc & _) & _) & (_ & _ & _ & Hv)).
  assert (rstrip (String "=" (st_value x)) = String "=" (st_value x)) as Hr
    by (unfold rstrip in *; cbn [rstrip_by]; by rewrite Hv).
  unfold strip, setting_line. rewrite rstrip_app by (by rewrite Hr). rewrite Hr, Hl.
  change (String c l' +:+ String "=" (st_value x)) with (String c (l' +:+ String "=" (st_value x))).
  unfold lstrip. cbn [lstrip_by]. by rewrite Hc.
Qed.

Lemma split_assignment_line x :
  valid_setting x → split_assignment (setting_line x) = (st_name x, st_value x).
Proof.
  intros (_ & _ & _ & _ & (_ & _ & Heq & _) & _). unfold split_assignment, setting_line.
  rewrite <- str_app_assoc.
  change (String "=" (st_value x) +:+ "=") with (String "=" (st_value x +:+ str1 "=")).
  by rewrite split1_at, drop_last_snoc.
Qed.

Lemma parse_stdin_setting {D} mapping opt x (s : st D) :
  s_allopt s = m → names_keys mapping → valid_setting x →
  parse_stdin_line avail mapping opt (setting_line x) s =
    (Ret (<["--" +:+ st_name x := VStr (st_value x)]> opt), s).
Proof.
  intros Hs Hmap Hx. pose proof Hx as (Ho & (d & Hd & Hl & Hg) & _ & _ &
    (_ & _ & _ & Hcolon & (c & l' & Hname & _ & Hhash) & Hsep) & (_ & _ & Hunq & _)).
  unfold parse_stdin_line. rewrite setting_line_strip by done. cbv zeta.
  assert (startswith "#" (setting_line x) || bool_decide (setting_line x = "") = false) as ->.
  { unfold setting_line. rewrite Hname, bool_decide_false by done. rewrite orb_false_r.
    unfold startswith. change (String.prefix (str1 "#") (String c (l' +:+ String "=" (st_value x))) = false).
    by rewrite prefix_str1, bool_decide_false. }
  rewrite split_assignment_line by done. rewrite Hunq.
  rewrite (resolve_name_valid mapping (st_option x) d) by done.
  assert (py_count (st_option x) avail ≠ 0) as Hcount by (apply py_count_pos in Ho; lia).
  rewrite (bool_decide_false (py_count _ _ = 0)) by done. cbn [andb].
  rewrite (bind_Ret _ _ s d s) by (unfold allopt_get; by rewrite Hs, Hd).
  rewrite Hg. rewrite (bind_Ret _ _ s (st_name x) s).
  - unfold rstrip_char. by rewrite rstrip_by_absent.
  - unfold longopt_of. rewrite (bind_Ret _ _ s d s) by (unfold allopt_get; by rewrite Hs, Hd).
    by rewrite Hl.
Qed.

Lemma parse_stdin_settings {D} mapping opt xs (s : st D) :
  s_allopt s = m → names_keys mapping → Forall valid_setting xs →
  mfold (parse_stdin_line avail mapping) opt (map setting_line xs) s =
    (Ret (foldl (λ opt x, <["--" +:+ st_name x := VStr (st_value x)]> opt) opt xs), s).
Proof.
  intros Hs Hmap Hxs. revert opt. induction Hxs as [|x xs Hx _ IH]; intros opt; [done|].
  cbn [map mfold]. rewrite (bind_Ret _ _ _ _ _ (parse_stdin_setting mapping opt x s Hs Hmap Hx)).
  apply IH.
Qed.

Lemma readlines_settings xs :
  xs ≠ [] → Forall valid_setting xs →
  readlines (join nl (map setting_line xs)) = map setting_line xs.
Proof.
  intros Hne Hxs. unfold readlines.
  assert (∀ d, d ≠ "="%char → (∀ x, valid_setting x → avoids d (st_name x) ∧ avoids d (st_value x)) →
    Forall (avoids d) (map setting_line xs)) as Hlines.
  { intros d Hd Hv. apply Forall_map. eapply Forall_impl; [exact Hxs|]. intros x Hx.
    destruct (Hv x Hx). unfold setting_line. cbn. by rewrite avoids_app, avoids_cons. }
  assert (avoids CR (join nl (map setting_line xs))) as Hcr.
  { apply join_avoids; [done|]. apply Hlines; [done|].
    by intros x (_ & _ & _ & _ & (_ & ? & _) & (_ & ? & _)). }
  rewrite (replace_absent CR (str1 CR +:+ nl)), (replace_absent CR (str1 CR)) by done.
  apply (split_go_join NL); [by destruct xs|].
  apply Hlines; [done|]. by intros x (_ & _ & _ & _ & (? & _) & (? & _)).
Qed.
(** ** Command line *)

(** The long options handed to getopt. *)
Definition long_option (o : string) : option string :=
  d ← m !! o; l ← od_longopt d; Some (if endswith ":" (od_getopt d) then l +:+ "=" else l).
Definition long_options : list string := omap long_option avail.

Lemma prepare_getopt_args_spec {D} (s : st D) :
  s_allopt s = m → ∃ short, prepare_getopt_args avail s = (Ret (short, long_options), s).
Proof.
  intros Hs. unfold prepare_getopt_args, long_options. erewrite bind_Ret by reflexivity.
  rewrite Hs. match goal with |- ∃ _, mfold ?f _ _ _ = _ => set (F := f) end.
  enough (∀ os short acc, (∀ o, o ∈ os → is_Some (m !! o)) → ∃ short',
    mfold F (short, acc) os s = (Ret (short', acc ++ omap long_option os)%list, s)) as Hfold
    by exact (Hfold avail "" [] defined).
  induction os as [|o os IH]; intros short acc Hdef.
  { exists short. cbn. by rewrite app_nil_r. }
  destruct (Hdef o) as [d Hd]; [by constructor|]. cbn [mfold].
  erewrite bind_Ret by (unfold F; rewrite Hd; reflexivity).
  match goal with |- ∃ _, mfold _ (?g, ?l) _ _ = _ =>
    destruct (IH g l ltac:(intros o' Ho'; apply Hdef; by constructor)) as [short' Hr] end.
  exists short'. rewrite Hr. f_equal. f_equal. f_equal. cbn [omap list_omap].
  unfold long_option at 2. rewrite Hd. cbn. destruct (od_longopt d) as [l|]; [|done]. cbn.
  by rewrite <- app_assoc.
Qed.

Lemma long_option_valid x : valid_setting x → st_name x +:+ "=" ∈ long_options.
Proof.
  intros (Ho & (d & Hd & Hl & Hg) & _). apply list_elem_of_omap. exists (st_option x).
  split; [done|]. unfold long_option. rewrite Hd. cbn. rewrite Hl. cbn. by rewrite Hg.
Qed.

Lemma long_option_no_flag x : valid_setting x → st_name x ∉ long_options.
Proof.
  intros (Ho & (d & Hd & Hl & Hg) & _ & _ & (_ & _ & Heq & _) & _) (o' & Ho' & Hlong)%list_elem_of_omap.
  unfold long_option in Hlong. destruct (m !! o') as [d'|] eqn:Hd'; [|done]. cbn in Hlong.
  destruct (od_longopt d') as [l'|] eqn:Hl'; [|done]. cbn in Hlong.
  destruct (endswith ":" (od_getopt d')) eqn:Hg'; injection Hlong as Hlong.
  - rewrite <- Hlong, avoids_app in Heq. by destruct Heq as [_ [? _]%avoids_cons].
  - subst l'. assert (o' = st_option x) as -> by by eapply (proj1 table).
    congruence.
Qed.

Lemma long_has_args_valid x :
  valid_setting x → long_has_args (st_name x) long_options = inl (true, st_name x).
Proof.
  intros Hx. unfold long_has_args.
  assert (st_name x +:+ "=" ∈ filter (λ l, Is_true (startswith (st_name x) l)) long_options) as Hin.
  { apply list_elem_of_filter. split; [|by apply long_option_valid].
    unfold startswith. rewrite prefix_of_app. done. }
  assert (st_name x ∉ filter (λ l, Is_true (startswith (st_name x) l)) long_options) as Hnot.
  { intros [_ Hflag]%list_elem_of_filter. by apply (long_option_no_flag x). }
  destruct (filter _ _) as [|u us] eqn:E; [by apply not_elem_of_nil in Hin|].
  rewrite bool_decide_false by done. by rewrite bool_decide_true.
Qed.

Lemma do_longs_setting x args :
  valid_setting x →
  do_longs (setting_line x) long_options args =
    inl (("--" +:+ st_name x, st_value x), args).
Proof.
  intros Hx. pose proof Hx as (_ & _ & _ & _ & (_ & _ & Heq & _) & _).
  unfold do_longs, setting_line. rewrite split1_at by done.
  by rewrite long_has_args_valid.
Qed.

Lemma gnu_getopt_settings fuel b short xs :
  Forall valid_setting xs → (length xs ≤ fuel)%nat →
  gnu_getopt_go fuel b (map setting_arg xs) short long_options = inl (entered xs, []).
Proof.
  intros Hxs. revert fuel. induction Hxs as [|x xs Hx Hxs IH]; intros fuel Hfuel; [by destruct fuel|].
  destruct fuel as [|fuel]; [cbn in Hfuel; lia|]. cbn [map gnu_getopt_go].
  assert (bool_decide (setting_arg x = "--") = false) as ->.
  { apply bool_decide_false. pose proof Hx as (_ & _ & _ & _ & (_ & _ & _ & _ & (c & l' & Hl & _) & _) & _).
    unfold setting_arg, setting_line. by rewrite Hl. }
  assert (startswith "--" (setting_arg x) = true) as ->.
  { apply prefix_of_app. }
  change (String.substring 2 (String.length (setting_arg x)) (setting_arg x)) with
    (String.substring 0 (S (S (String.length (setting_line x)))) (setting_line x)).
  rewrite substring_whole by lia. rewrite do_longs_setting by done.
  rewrite IH by (cbn in Hfuel; lia). done.
Qed.
(** The available options with their definitions. *)
Lemma filtered_opts_spec {D} (s : st D) :
  s_allopt s = m →
  ∃ fl, filtered_opts avail s = (Ret fl, s) ∧
    (∀ o d, (o, d) ∈ fl → o ∈ avail ∧ m !! o = Some d) ∧
    (∀ o d, o ∈ avail → m !! o = Some d → (o, d) ∈ fl).
Proof.
  intros Hs. unfold filtered_opts.
  match goal with |- ∃ _, mfold ?f _ _ _ = _ ∧ _ => set (F := f) end.
  enough (∀ os acc, (∀ o, o ∈ os → is_Some (m !! o)) →
    (∀ o d, (o, d) ∈ acc → m !! o = Some d) → ∃ fl,
    mfold F acc os s = (Ret fl, s) ∧
    (∀ o d, (o, d) ∈ fl → ((o, d) ∈ acc ∨ o ∈ os) ∧ m !! o = Some d) ∧
    (∀ o d, (o, d) ∈ acc ∨ o ∈ os → m !! o = Some d → (o, d) ∈ fl)) as Hfold.
  { destruct (Hfold avail [] defined) as (fl & Hf & Hin & Hall).
    { intros o d Hod. by apply not_elem_of_nil in Hod. }
    exists fl. split; [done|]. split; [|intros o d Ho; apply Hall; by right].
    intros o d [[Hod|Ho] Hd]%Hin; [by apply not_elem_of_nil in Hod|done]. }
  induction os as [|o os IH]; intros acc Hdef Hacc.
  { exists acc. split; [done|]. split; [by auto|]. intros o d [Hod|Hod]; [done|].
    by apply not_elem_of_nil in Hod. }
  destruct (Hdef o) as [d Hd]; [by constructor|]. cbn [mfold].
  set (acc' := if bool_decide (o ∈ acc.*1) then acc else (acc ++ [(o, d)])%list).
  assert (F acc o s = (Ret acc', s)) as HF.
  { unfold F. rewrite (bind_Ret _ _ s d s); [done|]. unfold allopt_get. by rewrite Hs, Hd. }
  rewrite (bind_Ret _ _ _ _ _ HF).
  assert (∀ o' d', (o', d') ∈ acc' ↔ (o', d') ∈ acc ∨ o' = o ∧ m !! o' = Some d') as Hacc'.
  { intros o' d'. subst acc'. case_bool_decide as Hfst.
    - split; [by left|]. intros [?|[-> Hd']]; [done|].
      apply list_elem_of_fmap in Hfst as ([o1 d1] & -> & H1). cbn in *.
      apply Hacc in H1 as Hd1. congruence.
    - rewrite elem_of_app, list_elem_of_singleton. split.
      + intros [?|[= -> ->]]; [by left|by right].
      + intros [?|[-> Hd']]; [by left|right]. congruence. }
  destruct (IH acc') as (fl & Hf & Hin & Hall).
  { intros o' Ho'. apply Hdef. by constructor. }
  { intros o' d' [?|[_ ?]]%Hacc'; auto. }
  exists fl. split; [exact Hf|]. split.
  - intros o' d' [[[?|[-> ?]]%Hacc'|?] ?]%Hin; split; auto; right; by constructor.
  - intros o' d' [?|[->|?]%elem_of_cons] Hd'; apply Hall; try done; auto; left; apply Hacc'; auto.
Qed.

Lemma rstrip_by_front p s c t : rstrip_by p s = String c t → ∃ t', s = String c t'.
Proof. destruct s as [|d s]; [done|]. cbn. destruct (_ && _); [done|]. intros [= -> _]. eauto. Qed.

(** The long name of a setting leads back to its option. *)
Lemma names_option_valid x o d :
  valid_setting x → o ∈ avail → m !! o = Some d →
  names_option ("--" +:+ st_name x) (o, d) = true ↔ o = st_option x.
Proof.
  intros (Hx & (dx & Hdx & Hl & _) & _ & _ & (_ & _ & _ & _ & (c & l' & Hname & _) & _) & _) Ho Hd.
  unfold names_option. cbn [fst snd]. rewrite orb_true_iff, !bool_decide_eq_true. split.
  - intros [Hlong|Hshort].
    + injection Hlong as Hlong. destruct (od_longopt d) as [l|] eqn:Hl'.
      * assert (l = st_name x) as -> by exact Hlong. by eapply (proj1 table).
      * change ("" = st_name x) in Hlong. by rewrite Hname in Hlong.
    + exfalso. injection Hshort as Hshort. apply rstrip_by_front in Hshort as [t Ht].
      pose proof (proj2 table o d Ho Hd) as Hdash. rewrite Ht in Hdash.
      unfold startswith in Hdash. change "-" with (str1 "-") in Hdash. by rewrite prefix_str1 in Hdash.
  - intros ->. assert (d = dx) as -> by congruence. left. by rewrite Hl.
Qed.

Lemma head_unique {A} (l : list A) x : x ∈ l → (∀ y, y ∈ l → y = x) → head l = Some x.
Proof.
  destruct l as [|y l]; [by intros ?%not_elem_of_nil|]. intros _ Hall. cbn. f_equal.
  apply Hall. by constructor.
Qed.

Lemma all_key_of_valid fl x d :
  (∀ o d, (o, d) ∈ fl → o ∈ avail ∧ m !! o = Some d) →
  (∀ o d, o ∈ avail → m !! o = Some d → (o, d) ∈ fl) →
  valid_setting x → m !! st_option x = Some d →
  all_key_of fl ("--" +:+ st_name x) = Some (st_option x, d).
Proof.
  intros Hin Hall Hx Hd. unfold all_key_of. apply head_unique.
  - apply list_elem_of_filter. split; [|apply Hall; [by destruct Hx|done]].
    apply Is_true_true. apply names_option_valid; [done|by destruct Hx|done|done].
  - intros [o d'] [Hn Hod]%list_elem_of_filter. apply Is_true_true in Hn.
    destruct (Hin _ _ Hod) as [Ho Hd']. apply names_option_valid in Hn as ->; [|done..].
    congruence.
Qed.
(** ** The two ways agree *)

Lemma settings_map_snoc xs x :
  settings_map (xs ++ [x]) = <["--" +:+ st_name x := VStr (st_value x)]> (settings_map xs).
Proof.
  unfold settings_map, entered. rewrite map_app, reverse_app. cbn [map app].
  change (reverse [("--" +:+ st_name x, st_value x)]) with [("--" +:+ st_name x, st_value x)].
  cbn [app list_to_map foldr]. by rewrite fmap_insert.
Qed.

Lemma settings_map_foldl xs :
  foldl (λ opt x, <["--" +:+ st_name x := VStr (st_value x)]> opt) ∅ xs = settings_map xs.
Proof.
  induction xs as [|x xs IH] using rev_ind.
  - unfold settings_map. cbn. by rewrite fmap_empty.
  - by rewrite foldl_app, IH, settings_map_snoc.
Qed.

Lemma entered_value_map xs k : VStr <$> entered_value (entered xs) k = settings_map xs !! k.
Proof. unfold settings_map, entered_value. by rewrite lookup_fmap. Qed.

Lemma settings_map_given xs k : k ∈ (entered xs).*1 → is_Some (settings_map xs !! k).
Proof.
  rewrite <- entered_value_map, fmap_is_Some. unfold entered_value. intros Hk.
  destruct (_ !! k) eqn:E; [done|]. apply not_elem_of_list_to_map in E.
  by rewrite fmap_reverse, elem_of_reverse in E.
Qed.

Lemma settings_map_name xs k :
  is_Some (settings_map xs !! k) → k ∈ (entered xs).*1.
Proof.
  rewrite <- entered_value_map, fmap_is_Some. unfold entered_value. intros [v Hv].
  apply elem_of_list_to_map_2 in Hv. apply (list_elem_of_fmap_2' fst _ _ k) in Hv; [|done].
  by rewrite fmap_reverse, elem_of_reverse in Hv.
Qed.

(** Reading the arguments inserts, for each of them, the last value of its name. *)
Lemma collect_long_opts_spec {D} fl xs (s : st D) :
  (∀ o d, (o, d) ∈ fl → o ∈ avail ∧ m !! o = Some d) →
  (∀ o d, o ∈ avail → m !! o = Some d → (o, d) ∈ fl) →
  Forall valid_setting xs →
  collect_long_opts fl (entered xs) s = (Ret (settings_map xs, 0%Z), s).
Proof.
  intros Hin Hall Hxs. unfold collect_long_opts.
  match goal with |- mfold ?f _ _ _ = _ => set (F := f) end.
  assert (∀ ys acc, Forall valid_setting ys → (∀ y, y ∈ ys → "--" +:+ st_name y ∈ (entered xs).*1) →
    (∀ k v, acc !! k = Some v → settings_map xs !! k = Some v) → ∃ acc',
    mfold F (acc, 0%Z) (entered ys).*1 s = (Ret (acc', 0%Z), s) ∧
    (∀ k v, acc' !! k = Some v → settings_map xs !! k = Some v) ∧
    (∀ k, is_Some (acc !! k) ∨ k ∈ (entered ys).*1 → is_Some (acc' !! k))) as Hfold.
  { induction ys as [|y ys IH]; intros acc Hys Hsub Hacc.
    { exists acc. repeat split; [done|]. intros k [?|Hk]; [done|]. by apply not_elem_of_nil in Hk. }
    apply Forall_cons in Hys as [Hy Hys]. cbn [entered map fmap list_fmap mfold fst].
    pose proof Hy as (Ho & (d & Hd & Hl & _) & Hverbose & _).
    destruct (settings_map_given xs ("--" +:+ st_name y)) as [v Hv]; [apply Hsub; by constructor|].
    pose proof Hv as Hv'. rewrite <- entered_value_map in Hv'.
    destruct (entered_value (entered xs) ("--" +:+ st_name y)) as [w|] eqn:Hw; [|done].
    cbn in Hv'. injection Hv' as <-.
    assert (F (acc, 0%Z) ("--" +:+ st_name y) s =
      (Ret (<["--" +:+ st_name y := VStr w]> acc, 0%Z), s)) as HF.
    { unfold F. rewrite (all_key_of_valid fl y d), Hw, Hl by done.
      by rewrite decide_False. }
    rewrite (bind_Ret _ _ _ _ _ HF).
    destruct (IH (<["--" +:+ st_name y := VStr w]> acc)) as (acc' & Hm & Hval & Hgiven);
      [done|intros y' Hy'; apply Hsub; by constructor| |].
    - intros k v [[<- <-]|[_ Hk]]%lookup_insert_Some; [done|by apply Hacc].
    - exists acc'. split; [exact Hm|]. split; [exact Hval|]. intros k [Hk|Hk]; apply Hgiven.
      + left. destruct (decide (k = "--" +:+ st_name y)) as [->|];
          [by rewrite lookup_insert_eq|by rewrite lookup_insert_ne].
      + apply elem_of_cons in Hk as [->|Hk]; [left; by rewrite lookup_insert_eq|by right]. }
  destruct (Hfold xs ∅) as (acc & -> & Hval & Hgiven); [done| |by intros k v; rewrite lookup_empty|].
  { intros y Hy. unfold entered. apply list_elem_of_fmap. exists ("--" +:+ st_name y, st_value y).
    split; [done|]. apply list_elem_of_fmap. by exists y. }
  do 3 f_equal. apply map_eq. intros k. destruct (acc !! k) as [v|] eqn:Hk; [by rewrite (Hval _ _ Hk)|].
  destruct (settings_map xs !! k) as [v|] eqn:Hv; [|done]. exfalso.
  destruct (Hgiven k) as [w Hw]; [|congruence]. right. by apply settings_map_name; rewrite Hv.
Qed.

Lemma settings_map_absent l xs :
  (∀ x, x ∈ xs → st_name x ≠ l) → settings_map xs !! ("--" +:+ l) = None.
Proof.
  intros Hl. destruct (settings_map xs !! ("--" +:+ l)) eqn:E; [|done]. exfalso.
  assert ("--" +:+ l ∈ (entered xs).*1) as Hin by (apply settings_map_name; by rewrite E).
  unfold entered in Hin. apply list_elem_of_fmap in Hin as ([k v] & Hk & Hin).
  apply list_elem_of_fmap in Hin as (x & [= -> ->] & Hx). cbn in Hk. injection Hk as Hk.
  by apply (Hl x Hx).
Qed.
(** The short names that [_verify_unique_getopt] compares. *)
Definition short_name (o : string) : string :=
  rstrip_char ":" (default "" (od_getopt <$> m !! o)).
Definition short_names : list string := filter (λ g, g ≠ "") (map short_name avail).

Lemma verify_unique_getopt_spec {D} (s : st D) :
  s_allopt s = m → NoDup short_names → verify_unique_getopt avail s = (Ret tt, s).
Proof.
  intros Hs Hn. unfold verify_unique_getopt.
  match goal with |- (mfold ?f _ _ ≫= _) _ = _ => set (F := f) end.
  assert (∀ os used, (∀ o, o ∈ os → is_Some (m !! o)) →
    NoDup (filter (λ g, g ≠ "") (map short_name os)) →
    (∀ g, g ∈ used → g ≠ "" → g ∉ map short_name os) → ∃ used',
    mfold F used os s = (Ret used', s)) as Hfold.
  { induction os as [|o os IH]; intros used Hdef Hnd Hused; [by exists used|]. cbn [mfold].
    destruct (Hdef o) as [d Hd]; [by constructor|].
    assert (short_name o = rstrip_char ":" (od_getopt d)) as Hshort
      by (unfold short_name; by rewrite Hd).
    assert (F used o s = (Ret (short_name o :: used), s)) as HF.
    { unfold F. rewrite (bind_Ret _ _ s d s) by (unfold allopt_get; by rewrite Hs, Hd).
      cbv zeta. rewrite <- Hshort. destruct (decide (short_name o = "")) as [->|Hne]; [done|].
      rewrite bool_decide_false by done. cbn [negb andb].
      destruct (py_in (short_name o) used) eqn:Hin; [|done]. exfalso.
      apply py_in_true in Hin. apply (Hused _ Hin Hne). by constructor. }
    rewrite (bind_Ret _ _ _ _ _ HF). apply IH.
    - intros o' Ho'. apply Hdef. by constructor.
    - cbn [map] in Hnd. rewrite filter_cons in Hnd. case_decide; [by inversion Hnd|done].
    - intros g [->|Hg]%elem_of_cons Hne Hin.
      + cbn [map] in Hnd. rewrite filter_cons, decide_True in Hnd by done.
        apply NoDup_cons in Hnd as [Hnot _]. by apply Hnot, list_elem_of_filter.
      + apply (Hused g Hg Hne). by constructor. }
  destruct (Hfold avail []) as [used Hu]; [done|done|by intros g Hg; apply not_elem_of_nil in Hg|].
  by rewrite (bind_Ret _ _ _ _ _ Hu).
Qed.

(** What both parsers give. *)
Definition given_options (xs : list setting) : gmap string pyval :=
  dict_setdefault "--verbose-level" (VInt 0) (settings_map xs).

Lemma parse_input_stdin_spec {D} prog env xs (s : st D) :
  s_allopt s = m → xs ≠ [] → Forall valid_setting xs →
  parse_input_stdin (Invocation prog [] (join nl (map setting_line xs)) env) avail s =
    (Ret (given_options xs), s).
Proof.
  intros Hs Hne Hxs. unfold parse_input_stdin.
  destruct (mapping_longopt_names_spec s Hs) as (mapping & Hm & Hkeys).
  rewrite (bind_Ret _ _ _ _ _ Hm). cbn [inv_stdin]. rewrite readlines_settings by done.
  rewrite (bind_Ret _ _ _ _ _ (parse_stdin_settings mapping ∅ xs s Hs Hkeys Hxs)).
  rewrite settings_map_foldl. change "--verbose" with ("--" +:+ "verbose").
  rewrite settings_map_absent; [done|]. intros x Hx. rewrite Forall_forall in Hxs.
  by destruct (Hxs x Hx) as (_ & _ & _ & ? & _).
Qed.

Lemma parse_input_cmdline_spec {D} prog stdin env xs (s : st D) :
  s_allopt s = m → NoDup short_names → "port_as_ip" ∉ avail → Forall valid_setting xs →
  parse_input_cmdline (Invocation prog (map setting_arg xs) stdin env) avail s =
    (Ret (given_options xs), s).
Proof.
  intros Hs Hshort Hport Hxs. unfold parse_input_cmdline.
  rewrite (bind_Ret _ _ _ _ _ (verify_unique_getopt_spec s Hs Hshort)).
  destruct (prepare_getopt_args_spec s Hs) as [short Hprep].
  rewrite (bind_Ret _ _ _ _ _ Hprep). cbn [inv_env inv_args].
  assert (∀ b, gnu_getopt b (map setting_arg xs) short long_options = inl (entered xs, [])) as Hget.
  { intros b. unfold gnu_getopt. repeat case_match;
      (apply gnu_getopt_settings; [done|by rewrite length_map]). }
  rewrite Hget. rewrite (bind_Ret _ _ s (entered xs) s) by done.
  destruct (filtered_opts_spec s Hs) as (fl & Hfl & Hin & Hall).
  rewrite (bind_Ret _ _ _ _ _ Hfl).
  rewrite (bind_Ret _ _ _ _ _ (collect_long_opts_spec fl xs s Hin Hall Hxs)).
  by rewrite (proj2 (py_in_false _ _) Hport).
Qed.
End Table.

Section Agree.
Context {D : Type}.
Implicit Types s : st D.

(** The options of an agent with those they depend on. *)
Definition extended (avail : list string) : list string := (avail ++ added_by_dependency avail)%list.

(** The table of options is usable by an agent: every available option is defined, no
    two share a name, and the address is not given through the plug. *)
Definition usable_table (m : gmap string optdef) (avail : list string) : Prop :=
  (∀ o, o ∈ extended avail → is_Some (m !! o)) ∧ unambiguous m (extended avail) ∧
  NoDup (short_names m (extended avail)) ∧
  needs_port_as_ip (extended avail) = false ∧ "port_as_ip" ∉ extended avail.

(** C40. Arguments and standard input agree: on a usable table, options that take an
    argument are read the same, and change the same state, whether they are given as
    arguments [--name=value] or as lines [name=value]; each option has the last value that
    was given for it. *)
Theorem stdin_arguments_agree prog env stdin avail xs s :
  usable_table (s_allopt s) avail →
  xs ≠ [] → Forall (valid_setting (s_allopt s) (extended avail)) xs →
  let by_stdin := Invocation prog [] (join nl (map setting_line xs)) env in
  let by_arguments := Invocation prog (map setting_arg xs) stdin env in
  process_input by_stdin avail s = process_input by_arguments avail s ∧
  (process_input by_arguments avail s).1 = Ret (extended avail, ip_from_plug (given_options xs)).
Proof.
  intros (Hdef & Htable & Hshort & Hneeds & Hport) Hne Hxs by_stdin by_arguments.
  assert (∀ inv, (∀ s1, s_allopt s1 = s_allopt s →
      (if bool_decide (inv_args inv = []) then parse_input_stdin inv (extended avail)
       else parse_input_cmdline inv (extended avail)) s1 = (Ret (given_options xs), s1)) →
    process_input inv avail s =
      (Ret (extended avail, ip_from_plug (given_options xs)),
       add_event (EvPutenv "LC_ALL" "C") (add_event (EvPutenv "LANG" "C") s))) as Hprocess.
  { intros inv Hparse. unfold process_input.
    assert (add_dependency_options avail s = (Ret (added_by_dependency avail), s)) as Hadd.
    { unfold add_dependency_options. fold (extended avail). by rewrite Hneeds. }
    rewrite (bind_Ret _ _ _ _ _ Hadd). fold (extended avail). cbv zeta.
    rewrite (bind_Ret _ _ _ tt (add_event (EvPutenv "LANG" "C") s)) by done.
    rewrite (bind_Ret _ _ _ tt (add_event (EvPutenv "LC_ALL" "C") (add_event (EvPutenv "LANG" "C") s)))
      by done.
    rewrite (proj2 (py_in_false _ _) Hport).
    rewrite (bind_Ret _ _ _ _ _ (Hparse (add_event _ (add_event _ s)) eq_refl)). done. }
  assert (map setting_arg xs ≠ []) as Hargs by (by destruct xs).
  rewrite (Hprocess by_stdin), (Hprocess by_arguments); [done| |]; intros s1 Hs1; subst by_stdin by_arguments;
    cbn [inv_args].
  - rewrite bool_decide_false by done. by apply (parse_input_cmdline_spec (s_allopt s)).
  - rewrite bool_decide_true by done. by apply (parse_input_stdin_spec (s_allopt s)).
Qed.
End Agree.

(** ** The table of the library is usable *)

(** The names of the options, as they are compared. *)
Definition compared_names (m : gmap string optdef) (avail : list string) : list (string * string) :=
  omap (λ o, d ← m !! o; l ← od_longopt d; Some (replace "-" "_" l, o)) avail.

Lemma unambiguous_check m avail :
  Forall (λ p1, Forall (λ p2, p1.1 = p2.1 → p1.2 = p2.2) (compared_names m avail))
    (compared_names m avail) →
  Forall (λ o, startswith "-" (default "" (od_getopt <$> m !! o)) = false) avail →
  unambiguous m avail.
Proof.
  intros Hnames Hshort. split.
  - intros o1 o2 d1 d2 l1 l2 Ho1 Ho2 Hd1 Hd2 Hl1 Hl2 Heq.
    assert (∀ o d l, o ∈ avail → m !! o = Some d → od_longopt d = Some l →
      (replace "-" "_" l, o) ∈ compared_names m avail) as Hin.
    { intros o d l Ho Hd Hl. apply list_elem_of_omap. exists o. split; [done|].
      rewrite Hd. cbn. by rewrite Hl. }
    rewrite Forall_forall in Hnames. specialize (Hnames _ (Hin _ _ _ Ho1 Hd1 Hl1)).
    rewrite Forall_forall in Hnames. by apply (Hnames _ (Hin _ _ _ Ho2 Hd2 Hl2)).
  - intros o d Ho Hd. rewrite Forall_forall in Hshort. specialize (Hshort o Ho).
    by rewrite Hd in Hshort.
Qed.

(** An agent with an address, a login and plugs. *)
Definition some_options : list string := ["ipaddr"; "login"; "passwd"; "port"; "ssl"].

Lemma some_options_usable : usable_table all_opt some_options.
Proof.
  split; [|split; [|split; [|split]]].
  - apply Forall_forall. closed_dec.
  - apply unambiguous_check; closed_dec.
  - closed_dec.
  - vm_compute. reflexivity.
  - closed_dec.
Qed.

Definition some_settings : list setting :=
  [Setting "ipaddr" "ip" "192.0.2.1"; Setting "login" "username" "admin";
   Setting "port" "plug" "1"; Setting "power_timeout" "power-timeout" "20"; Setting "port" "plug" "2 = b"].

Lemma some_settings_valid : Forall (valid_setting all_opt (extended some_options)) some_settings.
Proof.
  repeat (apply Forall_cons; split); [..|apply Forall_nil_2].
  all: unfold valid_setting, plain_name, plain_value; cbn [st_option st_name st_value].
  all: split; [closed_dec|]; split; [eexists; split; [vm_compute; reflexivity|by vm_compute]|].
  all: do 2 (split; [done|]); split.
  all: repeat (split; [by vm_compute|]); try by vm_compute.
  all: split; [|by first [left; vm_compute; reflexivity|right; vm_compute; reflexivity]].
  all: eexists _, _; split; [reflexivity|done].
Qed.

Lemma stdin_arguments_agree_witness :
  process_input (Invocation "fence_x" [] (join nl (map setting_line some_settings)) ∅) some_options
    (Mem.start Mem.empty) =
  process_input (Invocation "fence_x" (map setting_arg some_settings) "" ∅) some_options
    (Mem.start Mem.empty).
Proof.
  exact (proj1 (stdin_arguments_agree "fence_x" ∅ "" some_options some_settings (Mem.start Mem.empty)
    some_options_usable ltac:(done) some_settings_valid)).
Defined.
