(* ===== verification/ProcessSpec.v ===== *)
(** * Delays, timeouts and the end of commands

    What [run_delay], [run_command] and [run_commands] promise about time. *)

From S2P Require Import Prelude PyStr OptionDefs Effects Fail Host Input Process Commands.

Import Host.Mem.
Local Open Scope string_scope.

Section Delay.
Context `{Host D}.
Implicit Types s : st D.

(** The start delay: for off and reboot, with a delay other than "0" and no failure so
    far, the agent goes on exactly when one second plus the delay, less the time reserved,
    have passed since it was started (at once if they have passed already); the time
    already spent, for instance in a first part of the delay, is not waited for again. *)
Theorem run_delay_until time_start reserve s action delay n :
  s_opts s !! "--action" = Some (VStr action) → action = "off" ∨ action = "reboot" →
  s_opts s !! "--delay" = Some delay → delay ≠ VStr "0" → py_int delay = inl n →
  (0 ≤ reserve)%Z →
  (run_delay time_start reserve 0 s).1 = Ret tt ∧
  s_clock (run_delay time_start reserve 0 s).2 =
    Z.max (s_clock s) (time_start + (1 + n - reserve) * USEC) ∧
  s_opts (run_delay time_start reserve 0 s).2 = s_opts s.
Proof.
  intros Ha Hact Hd Hne Hn Hres. unfold run_delay.
  rewrite (bind_Ret _ _ _ _ _ (opt_get_eq _ _ _ Ha)). cbv beta.
  rewrite bool_decide_true by (destruct Hact as [->| ->]; closed_dec).
  rewrite (bind_Ret _ _ _ _ _ (opt_get_eq _ _ _ Hd)), bool_decide_false by done.
  assert ((0 <=? reserve)%Z = true) as -> by lia. cbn [negb andb]. rewrite Z.eqb_refl.
  cbn [andb]. rewrite (bind_Ret (as_int delay) _ s n s) by (unfold as_int; by rewrite Hn).
  rewrite (bind_Ret time _ s (s_clock s) s) by done. cbv zeta.
  set (left := ((1 + n - reserve) * USEC - (s_clock s - time_start))%Z).
  destruct (0 <? left)%Z eqn:El; cbn [mwhen].
  - unfold sleep_us. cbv [mbind M_bind log modify].
    assert ((left <? 0)%Z = false) as -> by lia. cbn [fst snd s_clock set_clock add_event s_opts].
    split; [done|]. split; [|done]. subst left. lia.
  - rewrite mret_eq. cbn [fst snd]. split; [done|]. split; [|done]. subst left. lia.
Qed.

Lemma join_process_limit p t s :
  (0 < t)%Z →
  (join_process p (Some t) s).1 =
    Ret (match p_duration p with Some d => negb (d <=? t)%Z | None => true end) ∧
  (0 ≤ default 0 (p_duration p) →
   s_clock s ≤ s_clock (join_process p (Some t) s).2 ≤ s_clock s + t)%Z ∧
  s_opts (join_process p (Some t) s).2 = s_opts s.
Proof.
  intros Ht. unfold join_process. assert ((t =? 0)%Z = false) as -> by lia.
  destruct (p_duration p) as [d|]; [destruct (d <=? t)%Z eqn:E|]; (split; [done|]);
    (split; [|done]); cbv [mbind M_bind modify mret M_ret]; cbn; lia.
Qed.

(** A process that runs for some time, or for ever. *)
Definition plausible (p : proc) : Prop := (0 ≤ default 0 (p_duration p))%Z.

(** C33. A command with a timeout is over in time: if a positive timeout is in force, and
    the command can be started, [run_command] ends (it never waits for ever) at most that
    many seconds later; without the option "retry" it returns only what a process that
    ended by itself in that time gave, and otherwise ends the run with status 1. *)
Theorem run_command_in_time command timeout env log_command s argv p d v n :
  (match timeout with Some v => Some v | None => s_opts s !! "--power-timeout" end) = Some v →
  v ≠ VNone → py_int v = inl n → (0 < n)%Z →
  shlex_split command = inl argv → argv ≠ [] →
  h_spawn env argv (s_dev s) = (Some p, d) → plausible p →
  s_opts s !! "retry" = None →
  let r := run_command command timeout env log_command s in
  (s_clock s ≤ s_clock r.2 ≤ s_clock s + n * USEC)%Z ∧
  match p_duration p with
  | Some t => if (t <=? n * USEC)%Z then r.1 = Ret (p_status p, p_out p, p_err p)
              else r.1 = Raise (SystemExit EC_GENERIC_ERROR)
  | None => r.1 = Raise (SystemExit EC_GENERIC_ERROR)
  end.
Proof.
  intros Hv Hnone Hn Hpos Hargv Hne Hp Hpl Hretry. unfold run_command.
  assert (effective_timeout timeout s = (Ret (Some v), s)) as He.
  { unfold effective_timeout. destruct timeout; simplify_eq; [done|]. unfold opt_find. by rewrite Hv. }
  rewrite (bind_Ret _ _ _ _ _ He).
  rewrite (bind_Ret _ _ s (Some (n * USEC)%Z) s).
  2: { unfold as_microseconds, as_int. destruct v; [done|..]; by rewrite Hn. }
  rewrite (bind_Ret (log _ _) _ s tt (add_event (EvLog INFO ("Executing: " +:+
    shown_command log_command command +:+ nl)) s)) by done.
  set (s1 := add_event _ s).
  assert (start_process env command s1 = (Ret p, set_dev d s1)) as Hs.
  { unfold start_process. rewrite (bind_Ret _ _ _ (Some p) (set_dev d s1)); [done|].
    unfold popen. rewrite Hargv. destruct argv; [done|]. change (s_dev s1) with (s_dev s).
    by rewrite Hp. }
  rewrite (bind_Ret _ _ _ _ _ Hs). cbv beta.
  destruct (join_process_limit p (n * USEC) (set_dev d s1)) as (Ho & Hc & Hopts);
    [unfold USEC; lia|]. specialize (Hc Hpl).
  destruct (join_process p (Some (n * USEC)%Z) (set_dev d s1)) as [o s2] eqn:Ej.
  cbn [fst snd] in Ho, Hc, Hopts. subst o. rewrite (bind_Ret _ _ _ _ _ Ej).
  set (alive := match p_duration p with Some _ => _ | None => _ end).
  assert (s_opts s2 !! "retry" = None) as Hr2 by (rewrite Hopts; exact Hretry).
  destruct alive eqn:Eal.
  - cbn [mwhen]. rewrite (bind_Raise _ _ s2 (SystemExit EC_GENERIC_ERROR)
      (add_event (EvLog ERROR (("Connection timed out" +:+ nl) +:+ nl)) s2)).
    2: { rewrite (bind_Ret stop_unless_retry _ s2 true s2); [done|].
         unfold stop_unless_retry. rewrite (bind_Ret _ _ s2 None s2); [done|].
         unfold opt_find. by rewrite Hr2. }
    cbn zeta. cbn [fst snd]. split; [exact Hc|]. unfold alive in Eal.
    destruct (p_duration p) as [t|]; [|done]. apply negb_true_iff in Eal. by rewrite Eal.
  - cbn [mwhen]. rewrite (bind_Ret _ _ s2 tt s2) by done. split; [exact Hc|].
    unfold alive in Eal. destruct (p_duration p) as [t|]; [|done].
    apply negb_false_iff in Eal. by rewrite Eal.
Qed.
End Delay.

(** A host on which every command hangs. *)
Definition hanging : Mem.host := Mem.MkHost ∅ "" (Some (Proc None 0 "late" "" "" "")).
Definition hanging_run : st Mem.host :=
  St (list_to_map [("--power-timeout", VStr "20"); ("--action", VStr "off"); ("--delay", VStr "5")])
     ∅ [] 3000000 hanging.

Lemma run_delay_until_witness :
  s_clock (run_delay 1000000 2 0 hanging_run).2 = 5000000%Z.
Proof.
  destruct (run_delay_until 1000000 2 hanging_run "off" (VStr "5") 5) as (_ & Hc & _);
    [vm_compute; reflexivity|by left|vm_compute; reflexivity|closed_dec|vm_compute; reflexivity|lia|].
  rewrite Hc. vm_compute. reflexivity.
Defined.

Lemma run_command_in_time_witness :
  (run_command "fence_tool -x" None None None hanging_run).1 =
  Raise (SystemExit EC_GENERIC_ERROR).
Proof.
  apply (run_command_in_time "fence_tool -x" None None None hanging_run ["fence_tool"; "-x"]
    (Proc None 0 "late" "" "" "") hanging (VStr "20") 20);
    [vm_compute; reflexivity|closed_dec|vm_compute; reflexivity|lia|vm_compute; reflexivity
    |closed_dec|reflexivity|vm_compute; discriminate|vm_compute; reflexivity].
Defined.

(** * Waiting for several commands

    [run_commands] loses no process, stops only for one of its three reasons, and, when a
    timeout is in force, stops. *)

Section Waiting.
Context {D : Type}.
Variable set_iter : list child → list child.
Hypothesis set_iter_perm : ∀ l, set_iter l ≡ₚ l.
Implicit Types s : st D.

Lemma Zdiv_nonneg n : (0 ≤ 2000000 / Z.of_nat n)%Z.
Proof. destruct n; [done|]. apply Z.div_pos; lia. Qed.

(** A pass over the living always ends, and sorts them into living and ended. If one is
    left alive, time has passed. *)
Lemma poll_children_spec timeout time_start max_timeout alive s :
  (0 ≤ max_timeout)%Z →
  ∃ alive' ended s',
    poll_children timeout time_start max_timeout alive s = (Ret (alive', ended), s') ∧
    alive' ++ ended ≡ₚ alive ∧ (s_clock s ≤ s_clock s')%Z ∧
    (alive' ≠ [] → s_clock s < s_clock s')%Z.
Proof.
  revert max_timeout s. induction alive as [|c cs IH]; intros max_timeout s Hm.
  { exists [], [], s. split; [done|]. split; [done|]. split; [lia|done]. }
  cbn [poll_children]. rewrite (bind_Ret time _ s (s_clock s) s) by done. cbv zeta.
  set (m := if match timeout with
                 | Some t => (t <=? s_clock s - time_start)%Z
                 | None => false
                 end then 0%Z else max_timeout).
  assert (∀ b : bool, (0 ≤ if b then 0 else max_timeout)%Z) as Hb by (intros []; lia).
  assert (0 ≤ m)%Z as Hm' by apply Hb.
  assert (∃ (b : bool) s1, wait_child c m s = (Ret b, s1) ∧ (s_clock s ≤ s_clock s1)%Z ∧
    (b = false → s_clock s < s_clock s1)%Z) as (b & s1 & Hw & Hle & Hlt).
  { unfold wait_child. rewrite (bind_Ret time _ s (s_clock s) s) by done.
    destruct (c_end c) as [e|]; [destruct (e <=? s_clock s + m)%Z|];
      (eexists _, _; split; [reflexivity|]; cbn; split; [lia|]); [done|lia..]. }
  rewrite (bind_Ret _ _ _ _ _ Hw).
  destruct (IH m s1 Hm') as (alive' & ended & s2 & Hp & Hperm & Hle2 & Hlt2).
  rewrite (bind_Ret _ _ _ _ _ Hp). destruct b.
  - exists alive', (c :: ended), s2. split; [done|]. split; [|split; [lia|]].
    + by rewrite <- Permutation_middle, Hperm.
    + intros ?%Hlt2. lia.
  - exists (c :: alive'), ended, s2. split; [done|]. split; [cbn; by rewrite Hperm|].
    split; [lia|]. intros _. specialize (Hlt eq_refl). lia.
Qed.

(** Why the loop ended. *)
Definition stop_reason (total : nat) (timeout : option Z) (time_start : Z)
    (alive gone : list child) (s : st D) : Prop :=
  alive = [] ∨
  (5000000 ≤ s_clock s - time_start)%Z ∧
  (quorate total alive gone = true ∨
   ∃ t, timeout = Some t ∧ (t ≤ s_clock s - time_start)%Z).

Lemma wait_loop_Ret_inv fuel total timeout time_start alive gone s alive' gone' s' :
  wait_loop set_iter fuel total timeout time_start alive gone s = (Ret (alive', gone'), s') →
  alive' ++ gone' ≡ₚ alive ++ gone ∧ stop_reason total timeout time_start alive' gone' s'.
Proof.
  revert alive gone s. induction fuel as [|fuel IH]; intros alive gone s; [done|].
  cbn [wait_loop].
  destruct (poll_children_spec timeout time_start (2000000 / Z.of_nat (length alive)) (set_iter alive) s)
    as (a & e & s1 & Hp & Hperm & _ & _); [apply Zdiv_nonneg|].
  rewrite (bind_Ret _ _ _ _ _ Hp). rewrite set_iter_perm in Hperm.
  assert (a ++ gone ++ e ≡ₚ alive ++ gone) as Hall
    by (rewrite <- Hperm, <- app_assoc; by rewrite (Permutation_app_comm gone e)).
  destruct a as [|c a].
  { rewrite mret_eq. intros [= <- <- <-]. split; [done|by left]. }
  rewrite (bind_Ret time _ s1 (s_clock s1) s1) by done. rewrite <- Hall.
  destruct (s_clock s1 - time_start <? 5000000)%Z eqn:E5; [apply IH|].
  destruct (quorate total (c :: a) (gone ++ e)) eqn:Eq.
  { rewrite mret_eq. intros [= <- <- <-]. split; [done|]. right. split; [lia|by left]. }
  destruct timeout as [t|]; [|apply IH].
  rewrite (bind_Ret time _ s1 (s_clock s1) s1) by done.
  destruct (t <=? s_clock s1 - time_start)%Z eqn:Et; [|apply IH].
  intros (u & s2 & Hlog & Hr)%bind_Ret_inv. minv Hlog. minv Hr.
  split; [done|]. right. split; [cbn; lia|]. right. exists t. cbn. split; [done|lia].
Qed.

(** Every turn that does not end the loop lets at least a microsecond pass. *)
Lemma wait_loop_terminates fuel total t time_start alive gone s :
  (Z.max t 5000000 - (s_clock s - time_start) < Z.of_nat fuel)%Z → 0 < fuel →
  (wait_loop set_iter fuel total (Some t) time_start alive gone s).1 ≠ OutOfFuel.
Proof.
  revert alive gone s. induction fuel as [|fuel IH]; intros alive gone s Hf Hpos; [lia|].
  cbn [wait_loop].
  destruct (poll_children_spec (Some t) time_start (2000000 / Z.of_nat (length alive))
    (set_iter alive) s) as (a & e & s1 & Hp & _ & _ & Hlt); [apply Zdiv_nonneg|].
  rewrite (bind_Ret _ _ _ _ _ Hp). destruct a as [|c a]; [done|]. specialize (Hlt ltac:(done)).
  rewrite (bind_Ret time _ s1 (s_clock s1) s1) by done.
  destruct (s_clock s1 - time_start <? 5000000)%Z eqn:E5; [apply IH; lia|].
  destruct (quorate total (c :: a) (gone ++ e)); [done|].
  rewrite (bind_Ret time _ s1 (s_clock s1) s1) by done.
  destruct (t <=? s_clock s1 - time_start)%Z eqn:Et; [done|]. apply IH; lia.
Qed.
End Waiting.

Section RunCommands.
Context `{Host D}.
Variable set_iter : list child → list child.
Hypothesis set_iter_perm : ∀ l, set_iter l ≡ₚ l.
Implicit Types s : st D.

(** Starting processes takes no time of its own. *)
Lemma start_child_same_clock env lc l c : keeps same_clock (start_child env lc l c).
Proof.
  unfold start_child, start_process, popen, fail_usage. keeps_tac; try done.
  intros s1. by destruct (h_spawn _ _ _).
Qed.

Lemma start_child_no_fuel env lc l c s : (start_child env lc l c s).1 ≠ OutOfFuel.
Proof.
  unfold start_child. apply bind_no_fuel; [done|]. intros [] s1 _.
  apply bind_no_fuel; [|intros p s2 _; apply bind_no_fuel; [done|by intros]].
  unfold start_process. apply bind_no_fuel.
  - unfold popen. destruct (shlex_split c) as [[|? ?]|]; [done| |done]. by destruct (h_spawn _ _ _).
  - intros [p|] s2 _; [done|]. apply bind_no_fuel; [|done]. unfold fail_usage.
    cbv [mwhen]. by case_bool_decide.
Qed.

(** C34. With a timeout in force, [run_commands] ends: a number of polls that the timeout
    (and the five seconds that are always granted) bounds is enough, whatever the processes
    do and in whatever order Python looks at them. *)
Theorem run_commands_terminates fuel commands timeout env log_command s t s' :
  commands_timeout timeout s = (Ret (Some t), s') →
  (Z.max t 5000000 < Z.of_nat fuel)%Z →
  (run_commands set_iter fuel commands timeout env log_command s).1 ≠ OutOfFuel.
Proof.
  intros Ht Hfuel. unfold run_commands. rewrite (bind_Ret _ _ _ _ _ Ht).
  rewrite (bind_Ret time _ s' (s_clock s') s') by done.
  apply bind_no_fuel; [apply mfold_no_fuel, start_child_no_fuel|]. intros procs s1 Hprocs.
  pose proof (keeps_mfold same_clock (start_child env log_command) [] commands
    (start_child_same_clock env log_command) s') as Hclock.
  rewrite Hprocs in Hclock. unfold same_clock in Hclock. cbn in Hclock.
  apply bind_no_fuel.
  { destruct procs; [done|]. apply wait_loop_terminates; lia. }
  intros [alive gone] s2 _. apply bind_no_fuel; [done|]. intros [] s3 _.
  destruct (collect_result (set_iter gone)) as [[status o] e].
  apply bind_no_fuel; [|by intros]. destruct status; [done|].
  apply bind_no_fuel; [|intros stop s4 _; apply bind_no_fuel; [|done]].
  - unfold stop_unless_retry. apply bind_no_fuel; [done|]. intros v s4 _.
    unfold as_int. by destruct (py_int _).
  - unfold fail. destruct (fail_message EC_TIMED_OUT); [|done]. by destruct stop.
Qed.

(** No process is lost or made up while waiting, and the wait ends for a reason: all
    have ended, or five seconds have passed and either more than half of all processes
    ended well and fewer are alive than have ended, or the timeout has passed. *)
Theorem wait_loop_reason fuel total timeout time_start alive s alive' gone' s' :
  wait_loop set_iter fuel total timeout time_start alive [] s = (Ret (alive', gone'), s') →
  alive' ++ gone' ≡ₚ alive ∧ stop_reason total timeout time_start alive' gone' s'.
Proof.
  intros Hr%wait_loop_Ret_inv; [|done]. by rewrite app_nil_r in Hr.
Qed.
End RunCommands.

(** Two processes, one of which never ends. *)
Definition one_hangs : list child :=
  [Child 0 (Proc (Some 1000%Z) 0 "done" "" "" "") (Some 1000%Z);
   Child 1 (Proc None 0 "" "" "" "") None].

Definition waited : outcome (list child * list child) * st unit :=
  wait_loop (λ l, l) 20 2 (Some 7000000%Z) 0 one_hangs [] (St ∅ ∅ [] 0 tt).

Lemma wait_loop_reason_witness :
  stop_reason 2 (Some 7000000%Z) 0 [Child 1 (Proc None 0 "" "" "" "") None]
    [Child 0 (Proc (Some 1000%Z) 0 "done" "" "" "") (Some 1000%Z)] waited.2.
Proof.
  refine (proj2 (wait_loop_reason (λ l, l) (λ l, Permutation_refl l) 20 2 (Some 7000000%Z) 0
    one_hangs (St ∅ ∅ [] 0 tt) _ _ waited.2 _)).
  apply run_outcome. vm_compute. reflexivity.
Defined.

Lemma run_commands_terminates_witness :
  (run_commands (λ l, l) (Z.to_nat 20000001) ["sbd list"] (Some (VInt 20)) None None
     (Mem.start Mem.empty)).1 ≠ OutOfFuel.
Proof.
  apply (run_commands_terminates (λ l, l) (Z.to_nat 20000001) ["sbd list"] (Some (VInt 20)) None None
    (Mem.start Mem.empty) 20000000 (Mem.start Mem.empty)); [reflexivity|].
  rewrite Z2Nat.id by lia. lia.
Defined.
