(* ===== verification/Verify.v ===== *)
(** * Digests, and reading devices back after fencing

    MD5 and SHA-256 as hashlib gives them. fence_scsi and fence_mpath end a fencing operation
    in the same way: every device is read again, and each one on which the key is still
    registered, or on which there is no reservation, is counted. What this loop establishes
    is proved once, for any way to read registrations and reservations. *)

From S2P Require Import Prelude PyStr OptionDefs Effects.

Local Open Scope string_scope.
Local Open Scope Z_scope.

Definition wrap32 (x : Z) : Z := x mod 2 ^ 32.
Definition add32 (x y : Z) : Z := wrap32 (x + y).
Definition not32 (x : Z) : Z := 2 ^ 32 - 1 - x.
Definition rotl32 (x n : Z) : Z := Z.lor (wrap32 (Z.shiftl x n)) (Z.shiftr x (32 - n)).

Definition sines : list Z := [
   3614090360; 3905402710; 606105819; 3250441966; 4118548399; 1200080426; 2821735955; 4249261313;
   1770035416; 2336552879; 4294925233; 2304563134; 1804603682; 4254626195; 2792965006; 1236535329;
   4129170786; 3225465664; 643717713; 3921069994; 3593408605; 38016083; 3634488961; 3889429448;
   568446438; 3275163606; 4107603335; 1163531501; 2850285829; 4243563512; 1735328473; 2368359562;
   4294588738; 2272392833; 1839030562; 4259657740; 2763975236; 1272893353; 4139469664; 3200236656;
   681279174; 3936430074; 3572445317; 76029189; 3654602809; 3873151461; 530742520; 3299628645;
   4096336452; 1126891415; 2878612391; 4237533241; 1700485571; 2399980690; 4293915773; 2240044497;
   1873313359; 4264355552; 2734768916; 1309151649; 4149444226; 3174756917; 718787259; 3951481745].

(** Rotation amounts, one row per round. *)
Definition shifts : list (list Z) := [[7; 12; 17; 22]; [5; 9; 14; 20]; [4; 11; 16; 23]; [6; 10; 15; 21]].

Definition word_at (l : list Z) (i : nat) : Z := default 0 (l !! i).

(** The round function and the index of the message word of step [i]. *)
Definition round_of (i : nat) (b c d : Z) : Z * nat :=
  match Nat.div i 16 with
  | 0%nat => (Z.lor (Z.land b c) (Z.land (not32 b) d), i)
  | 1%nat => (Z.lor (Z.land d b) (Z.land (not32 d) c), Nat.modulo (5 * i + 1) 16)
  | 2%nat => (Z.lxor b (Z.lxor c d), Nat.modulo (3 * i + 5) 16)
  | _ => (Z.lxor c (Z.lor b (not32 d)), Nat.modulo (7 * i) 16)
  end.

Definition digest : Type := Z * Z * Z * Z.

Definition md5_step (m : list Z) (h : digest) (i : nat) : digest :=
  let '(a, b, c, d) := h in
  let '(f, g) := round_of i b c d in
  let f' := add32 (add32 f a) (add32 (word_at sines i) (word_at m g)) in
  let s := word_at (default [] (shifts !! Nat.div i 16)) (Nat.modulo i 4) in
  (d, add32 b (rotl32 f' s), b, c).

Definition md5_block (h : digest) (m : list Z) : digest :=
  let '(a0, b0, c0, d0) := h in
  let '(a, b, c, d) := foldl (md5_step m) h (seq 0 64) in
  (add32 a0 a, add32 b0 b, add32 c0 c, add32 d0 d).

(** The number of a little-endian list of bytes, and the other way round. *)
Definition of_bytes (l : list Z) : Z := foldr (fun b n => b + 256 * n) 0 l.

Fixpoint to_bytes (k : nat) (n : Z) : list Z :=
  match k with
  | O => []
  | S k' => n mod 256 :: to_bytes k' (n / 256)
  end.

(** A one bit, zeros up to 56 modulo 64 bytes, and the length in bits. *)
Definition padded (l : list Z) : list Z :=
  let n := length l in
  let zeros := Nat.modulo (119 - Nat.modulo n 64) 64 in
  l ++ [128] ++ replicate zeros 0 ++ to_bytes 8 (8 * Z.of_nat n).

Fixpoint chunks {A} (fuel n : nat) (l : list A) : list (list A) :=
  match fuel, l with
  | S fuel', _ :: _ => take n l :: chunks fuel' n (drop n l)
  | _, _ => []
  end.

Definition initial_digest : digest := (1732584193, 4023233417, 2562383102, 271733878).

Definition md5_words (l : list Z) : digest :=
  let bytes := padded l in
  let blocks := chunks (length bytes) 64 bytes in
  foldl (fun h block => md5_block h (map of_bytes (chunks (length block) 4 block)))
    initial_digest blocks.

Definition hex_pair (b : Z) : string :=
  let hex n := if n <? 10 then ascii_of_N (48 + Z.to_N n) else ascii_of_N (87 + Z.to_N n) in
  String (hex (b / 16)) (str1 (hex (b mod 16))).

Definition md5_hex (text : string) : string :=
  let '(a, b, c, d) :=
    md5_words (map (fun ch => Z.of_N (code ch)) (String.list_ascii_of_string text)) in
  join "" (map hex_pair (to_bytes 4 a ++ to_bytes 4 b ++ to_bytes 4 c ++ to_bytes 4 d)).

(** The test suite of RFC 1321. *)
Example md5_empty : md5_hex "" = "d41d8cd98f00b204e9800998ecf8427e"%string.
Proof. vm_compute. reflexivity. Qed.
Example md5_abc : md5_hex "abc" = "900150983cd24fb0d6963f7d28e17f72"%string.
Proof. vm_compute. reflexivity. Qed.
Example md5_two_blocks :
  md5_hex "12345678901234567890123456789012345678901234567890123456789012345678901234567890" =
  "57edf4a22be3c955ac49da2e2107b67a"%string.
Proof. vm_compute. reflexivity. Qed.

(** * [hashlib.sha256(text).hexdigest()]

    FIPS 180-4 over 32-bit words held as integers; fence_ibm_vpc names its token files
    after it. *)

(** The fractional parts of the cube roots of the first 64 primes, and of the square roots
    of the first eight. *)
Definition cube_roots : list Z := [
   1116352408; 1899447441; 3049323471; 3921009573; 961987163; 1508970993; 2453635748; 2870763221;
   3624381080; 310598401; 607225278; 1426881987; 1925078388; 2162078206; 2614888103; 3248222580;
   3835390401; 4022224774; 264347078; 604807628; 770255983; 1249150122; 1555081692; 1996064986;
   2554220882; 2821834349; 2952996808; 3210313671; 3336571891; 3584528711; 113926993; 338241895;
   666307205; 773529912; 1294757372; 1396182291; 1695183700; 1986661051; 2177026350; 2456956037;
   2730485921; 2820302411; 3259730800; 3345764771; 3516065817; 3600352804; 4094571909; 275423344;
   430227734; 506948616; 659060556; 883997877; 958139571; 1322822218; 1537002063; 1747873779;
   1955562222; 2024104815; 2227730452; 2361852424; 2428436474; 2756734187; 3204031479; 3329325298].

Definition square_roots : list Z := [1779033703; 3144134277; 1013904242; 2773480762; 1359893119; 2600822924; 528734635; 1541459225].

Definition rotr32 (x n : Z) : Z := rotl32 x (32 - n).

Definition small_sigma (a b shift x : Z) : Z :=
  Z.lxor (rotr32 x a) (Z.lxor (rotr32 x b) (Z.shiftr x shift)).
Definition big_sigma (a b c x : Z) : Z :=
  Z.lxor (rotr32 x a) (Z.lxor (rotr32 x b) (rotr32 x c)).

(** The words of the schedule after the first sixteen, [k] of them; the newest first. *)
Fixpoint schedule (k : nat) (w : list Z) : list Z :=
  match k with
  | O => w
  | S k' =>
      schedule k'
        (add32 (add32 (small_sigma 17 19 10 (word_at w 1)) (word_at w 6))
               (add32 (small_sigma 7 18 3 (word_at w 14)) (word_at w 15)) :: w)
  end.

(** The eight working variables a to h. *)
Definition sha_step (v : list Z) (kw : Z * Z) : list Z :=
  match v with
  | [a; b; c; d; e; f; g; h] =>
      let ch := Z.lxor (Z.land e f) (Z.land (not32 e) g) in
      let maj := Z.lxor (Z.land a b) (Z.lxor (Z.land a c) (Z.land b c)) in
      let t1 := add32 (add32 h (big_sigma 6 11 25 e)) (add32 ch (add32 kw.1 kw.2)) in
      let t2 := add32 (big_sigma 2 13 22 a) maj in
      [add32 t1 t2; a; b; c; add32 d t1; e; f; g]
  | _ => v
  end.

Definition sha_block (h : list Z) (m : list Z) : list Z :=
  zip_with add32 h (foldl sha_step h (zip cube_roots (rev (schedule 48 (rev m))))).

(** Big-endian words of four bytes. *)
Fixpoint sha_words (k : nat) (l : list Z) : list Z :=
  match k with
  | O => []
  | S k' => of_bytes (rev (take 4 l)) :: sha_words k' (drop 4 l)
  end.

Fixpoint sha_blocks (k : nat) (l : list Z) (h : list Z) : list Z :=
  match k with
  | O => h
  | S k' => sha_blocks k' (drop 64 l) (sha_block h (sha_words 16 (take 64 l)))
  end.

(** The text, a bit that is set, zeros, and the length in bits. *)
Definition sha_padded (l : list Z) : list Z :=
  let n := Z.of_nat (length l) in
  (l ++ [128] ++ repeat 0 (Z.to_nat ((55 - n) mod 64)) ++ rev (to_bytes 8 (8 * n)))%list.

Definition sha256 (l : list Z) : list Z :=
  let p := sha_padded l in sha_blocks (Nat.div (length p) 64) p square_roots.

Definition sha256_hex (text : string) : string :=
  join "" (map hex_pair
    (concat (map (fun w => rev (to_bytes 4 w))
      (sha256 (map (fun ch => Z.of_N (code ch)) (String.list_ascii_of_string text)))))).

(** The examples of the standard. *)
Example sha256_empty :
  sha256_hex "" =
  "e3b0c44298fc1c149afbf4c8996fb92427ae41e4649b934ca495991b7852b855"%string.
Proof. vm_compute. reflexivity. Qed.
Example sha256_abc :
  sha256_hex "abc" =
  "ba7816bf8f01cfea414140de5dae2223b00361a396177a9cb410ff61f20015ad"%string.
Proof. vm_compute. reflexivity. Qed.
Example sha256_long :
  sha256_hex "abcdbcdecdefdefgefghfghighijhijkijkljklmklmnlmnomnopnopq" =
  "248d6a61d20638b8e5c026930c3e6039a33ce45964ff2167f6ecedd419db06c1"%string.
Proof. vm_compute. reflexivity. Qed.

(** * Reading devices back after fencing

    fence_scsi and fence_mpath end a fencing operation in the same way: every device is
    read again, and each one on which the key is still registered, or on which there is
    no reservation, is counted. What this loop establishes is proved once, for any way to
    read registrations and reservations. *)

Section Verify.
Context {D : Type}.
(** The option that holds the key, and how a device is read. *)
Variables (key_option : string) (registered : string → M D (list string))
  (reserved : string → M D (option string)).
Implicit Types s : st D.

Hypothesis registered_keeps : ∀ dev, keeps (@same_key D key_option) (registered dev).
Hypothesis reserved_keeps : ∀ dev, keeps (@same_key D key_option) (reserved dev).

(** One device after the other was read: the key is not registered, and there is a
    reservation. *)
Inductive verified (key : string) : list string → st D → st D → Prop :=
| verified_nil s : verified key [] s s
| verified_cons dev devs s s1 s2 s' keys r :
    registered dev s = (Ret keys, s1) → key ∉ keys →
    reserved dev s1 = (Ret (Some r), s2) →
    verified key devs s2 s' → verified key (dev :: devs) s s'.

Definition verify_step (count : Z) (dev : string) : M D Z :=
  key ← opt_str key_option;
  keys ← registered dev;
  if py_in key keys then
    log DEBUG ("Failed to remove key " +:+ key +:+ " on device " +:+ dev +:+ nl) ;;
    mret (count + 1)%Z
  else
    r ← reserved dev;
    if bool_decide (is_Some r) then mret count
    else
      log DEBUG ("No reservation exists on device " +:+ dev +:+ nl) ;;
      mret (count + 1)%Z.

Lemma verify_step_Ret_inv count dev s n s' key :
  s_opts s !! key_option = Some (VStr key) →
  verify_step count dev s = (Ret n, s') →
  (count ≤ n)%Z ∧
  (n = count → ∃ keys s1 r, registered dev s = (Ret keys, s1) ∧ (key ∉ keys) ∧
                            reserved dev s1 = (Ret (Some r), s')).
Proof.
  intros Hk (key' & s0 & [Hk' ->]%opt_str_Ret_inv & Hr)%bind_Ret_inv.
  assert (key' = key) as -> by congruence.
  apply bind_Ret_inv in Hr as (keys & s1 & H1 & Hr). destruct (py_in key keys) eqn:Hin.
  { apply bind_Ret_inv in Hr as (u & s2 & _ & Hr). rewrite mret_eq in Hr.
    injection Hr as <- <-. split; lia. }
  apply bind_Ret_inv in Hr as (r & s2 & H2 & Hr). case_bool_decide as Hs.
  - rewrite mret_eq in Hr. injection Hr as <- <-. split; [lia|]. intros _.
    destruct Hs as [x ->]. exists keys, s1, x. apply py_in_false in Hin. done.
  - apply bind_Ret_inv in Hr as (u & s3 & _ & Hr). rewrite mret_eq in Hr.
    injection Hr as <- <-. split; lia.
Qed.

Lemma verify_step_keeps count dev : keeps (@same_key D key_option) (verify_step count dev).
Proof. unfold verify_step. keeps_tac; auto. Qed.

(** No device was counted: all of them have been verified. *)
Lemma verify_steps_Ret_inv devs count s n s' key :
  s_opts s !! key_option = Some (VStr key) →
  mfold verify_step count devs s = (Ret n, s') →
  (count ≤ n)%Z ∧ (n = count → verified key devs s s').
Proof.
  revert count s. induction devs as [|dev devs IH]; intros count s Hk.
  { intros [= <- <-]. split; [lia|constructor]. }
  intros (c1 & s1 & H1 & H2)%mfold_cons_Ret_inv.
  pose proof (verify_step_keeps count dev s) as Hkeep. rewrite H1 in Hkeep.
  assert (s_opts s1 !! key_option = Some (VStr key)) as Hk1 by (rewrite <- Hk; exact Hkeep).
  destruct (verify_step_Ret_inv _ _ _ _ _ _ Hk H1) as [Hle1 Hv1].
  destruct (IH _ _ Hk1 H2) as [Hle2 Hv2]. split; [lia|]. intros ->.
  destruct Hv1 as (keys & s0 & r & ? & ? & ?); [lia|]. econstructor; [done..|]. apply Hv2. lia.
Qed.
End Verify.

(** The end of such an operation: some devices failed, or none did. *)
Lemma exit_if_counted_Ret_inv {D} n s u (s' : st D) :
  mwhen (negb (n =? 0)%Z)
    (log ERROR ("Failed to verify " +:+ str_of_Z n +:+ " device(s)") ;; sys_exit 1) s = (Ret u, s') →
  n = 0%Z ∧ s' = s.
Proof.
  intros [[_ (u1 & s2 & _ & Hr)%bind_Ret_inv]|[Hz ->]]%mwhen_Ret_inv; [discriminate Hr|].
  split; [|done]. by apply negb_false_iff, Z.eqb_eq in Hz.
Qed.
