(* ===== verification/Scsi.v ===== *)
(** * The agent fence_scsi: SCSI-3 persistent reservations

    [agents/scsi/fence_scsi.py]. Devices are reached only through the tools sg_persist
    and sg_turs, run by the library's [run_command]; what they print is parsed with the
    same regular expressions. *)

From S2P Require Import Prelude PyStr PyRe OptionDefs Effects Fail Host Input Process CheckInput.
From S2P Require Import Verify Metadata Action.

Local Open Scope string_scope.

Definition STORE_PATH : string := "@STORE_PATH@".

Section Scsi.
Context `{Host D}.
(** [re.compile] for node and device names with special characters. *)
Variable compile : bool → string → option re.

(** ** Commands *)

Record cmd_result := CmdResult { rc : Z; out : string; err : string }.

Definition run_cmd (cmd : string) : M D cmd_result :=
  '(r, o, e) ← run_command cmd None None None;
  mret (CmdResult r o e).

Definition succeeds (cmd : string) : M D bool :=
  r ← run_cmd cmd; mret (rc r =? 0)%Z.

Definition is_block_device (dev : string) : M D unit :=
  exists_ ← host_test h_exists dev;
  mwhen (negb exists_)
    (fail_usage ("Failed: device " +:+ dq +:+ dev +:+ dq +:+ " does not exist") true) ;;
  blk ← host_test h_isblk dev;
  mwhen (negb blk)
    (fail_usage ("Failed: device " +:+ dq +:+ dev +:+ dq +:+ " is not a block device") true).

Definition reset_dev (dev : string) : M D Z :=
  turs ← opt_str "--sg_turs-path";
  r ← run_cmd (turs +:+ " " +:+ dev);
  mret (rc r).

Definition preempt_abort (host dev : string) : M D bool :=
  reset_dev dev ;;
  path ← opt_str "--sg_persist-path";
  key ← opt_str "--key";
  succeeds (path +:+ " -n -o -A -T 5 -K " +:+ host +:+ " -S " +:+ key +:+ " -d " +:+ dev).

Definition preempt (host_key dev key : string) : M D bool :=
  reset_dev dev ;;
  path ← opt_str "--sg_persist-path";
  succeeds (path +:+ " -n -o -P -T 5 -K " +:+ host_key +:+ " -S " +:+ key +:+ " -d " +:+ dev).

Definition register_helper (dev key : string) : M D bool :=
  reset_dev dev ;;
  path ← opt_str "--sg_persist-path";
  aptpl ← opt_has "--aptpl";
  succeeds (path +:+ " -n -o -I -S " +:+ key +:+ " -d " +:+ dev +:+
            (if (aptpl : bool) then " -Z" else "")).

Definition reserve_dev (dev : string) : M D bool :=
  reset_dev dev ;;
  path ← opt_str "--sg_persist-path";
  key ← opt_str "--key";
  succeeds (path +:+ " -n -o -R -T 5 -K " +:+ key +:+ " -d " +:+ dev).

Definition readonly_flag : M D string :=
  ro ← opt_has "--readonly"; mret (if (ro : bool) then "-y " else "").

(** [\s+key=0x(\S+)\s+], ignoring case *)
Definition reservation_re : re :=
  Seqs [Plus Space; LitI "key=0x"; Group 1 (Plus NonSpace); Plus Space].

Definition reservation_of (text : string) : option string :=
  m_group 1 <$> search reservation_re text.

Definition get_reservation_key (dev : string) (fail : bool) : M D (option string) :=
  reset_dev dev ;;
  opts ← readonly_flag;
  path ← opt_str "--sg_persist-path";
  r ← run_cmd (path +:+ " -n -i " +:+ opts +:+ "-r -d " +:+ dev);
  mwhen (negb (rc r =? 0)%Z && fail)
    (fail_usage ("Cannot get reservation key on device " +:+ dq +:+ dev +:+ dq +:+ ": " +:+ err r)
       true) ;;
  mret (reservation_of (out r)).

(** [\s+0x(\S+)\s*] *)
Definition registration_re : re :=
  Seqs [Plus Space; Lit "0x"; Group 1 (Plus NonSpace); Many Space].

(** The keys that sg_persist lists, one per line. *)
Definition registrations_of (text : string) : list string :=
  omap (λ line, m_group 1 <$> search registration_re line) (split_go nl text 0).

Definition get_registration_keys (dev : string) (fail : bool) : M D (list string) :=
  reset_dev dev ;;
  opts ← readonly_flag;
  path ← opt_str "--sg_persist-path";
  r ← run_cmd (path +:+ " -n -i " +:+ opts +:+ "-k -d " +:+ dev);
  if negb (rc r =? 0)%Z then
    fail_usage ("Cannot get registration keys on device " +:+ dq +:+ dev +:+ dq +:+ ": " +:+ err r)
      fail ;;
    mret (if fail then registrations_of (out r) else [])
  else mret (registrations_of (out r)).

(** ** Multipath devices *)

Definition listdir (path : string) : M D (list string) := λ s,
  match h_listdir (s_dev s) path with
  | Some l => (Ret l, s)
  | None => (Raise (OSError ("No such file or directory: '" +:+ path +:+ "'")), s)
  end.

Definition drop_str (n : nat) (s : string) : string := String.substring n (String.length s) s.

(** [depth] bounds the height of a stack of device-mapper devices. *)
Fixpoint get_mpath_slaves (depth : nat) (dev : string) : M D (list string) :=
  match depth with
  | O => out_of_fuel
  | S depth' =>
      let dev := if startswith "/dev/" dev then drop_str 5 dev else dev in
      entries ← listdir ("/sys/block/" +:+ dev +:+ "/slaves/");
      match filter (λ i, Is_true (negb (startswith "." i))) entries with
      | [] => raise IndexError
      | slave :: more =>
          if startswith "dm" slave then get_mpath_slaves depth' slave
          else mret (map (λ x, "/dev/" +:+ x) (slave :: more))
      end
  end.

Definition realpath (path : string) : M D string := λ s, (Ret (h_realpath (s_dev s) path), s).

(** Registration with one path to the device. *)
Definition register_path (dev key : string) (do_preempt : bool) : M D bool :=
  keys ← get_registration_keys dev true;
  let registration_key_exists := py_in key keys in
  mwhen registration_key_exists (log DEBUG ("Registration key exists for device " +:+ dev)) ;;
  ok ← register_helper dev key;
  if negb ok then mret false
  else if registration_key_exists then
    preempted ← (if do_preempt then preempt key dev key else mret true);
    if negb preempted then mret false
    else
      reservation ← get_reservation_key dev false;
      if bool_decide (reservation ≠ Some key) then register_helper dev key else mret true
  else mret true.

Fixpoint register_dev (depth : nat) (dev key : string) (do_preempt : bool) : M D bool :=
  match depth with
  | O => out_of_fuel
  | S depth' =>
      dev ← realpath dev;
      method ← opt_find "--mpath-register-method";
      if bool_decide (method = Some (VStr "multi")) && startswith "dm" (drop_str 5 dev) then
        devices ← get_mpath_slaves depth' dev;
        match devices with
        | [] => raise IndexError
        | first :: others =>
            register_dev depth' first key true ;;
            mfor others (λ d, register_dev depth' d key false ;; mret tt) ;;
            mret true
        end
      else register_path dev key do_preempt
  end.

(** ** Files of the agent *)

(** [os.path.dirname] *)
Definition dirname (path : string) : string :=
  let parts := split_go "/" path 0 in
  if Nat.leb (length parts) 1 then ""
  else
    let head := join "/" (take (length parts - 1) parts) +:+ "/" in
    if decide (rstrip_char "/" head = "") then head else rstrip_char "/" head.

Definition ensure_store_dir : M D string :=
  store ← opt_str "store_path";
  isdir ← host_test h_isdir (dirname store);
  mwhen (negb isdir) (makedirs (dirname store)) ;;
  mret store.

Definition cannot_open (path : string) : string :=
  "Failed: Cannot open file " +:+ dq +:+ path +:+ dq.

Definition write_file (path text : string) : M D unit := λ s,
  match h_writefile path text (s_dev s) with
  | Some d => (Ret tt, set_dev d s)
  | None => fail_usage (cannot_open path) true s
  end.

Definition set_key : M D unit :=
  store ← ensure_store_dir;
  key ← opt_str "--key";
  write_file (store +:+ ".key") (lower key +:+ nl).

(** [f.readline()] *)
Definition readline (text : string) : string :=
  match readlines text with [] => "" | l :: _ => l end.

Definition get_key (fail : bool) : M D (option string) := λ s,
  let path := STORE_PATH +:+ ".key" in
  match h_readfile (s_dev s) path with
  | Some text => (Ret (Some (lower (strip (readline text)))), s)
  | None => (fail_usage (cannot_open path) fail ;; mret None) s
  end.

(** [re.search(r"^" + dev + r"\s+", out, re.MULTILINE)] *)
Definition dev_listed (dev text : string) : M D bool :=
  match interpolated compile true dev (λ r, Seqs [Bol; r; Plus Space])
          ("^" +:+ dev +:+ str1 BS +:+ "s+") with
  | Some r => mret (bool_decide (is_Some (search r text)))
  | None => raise (OtherError "re.error")
  end.

Definition append_file (path text : string) : M D unit := λ s,
  match h_appendfile path text (s_dev s) with
  | Some d => (Ret tt, set_dev d s)
  | None => fail_usage (cannot_open path) true s
  end.

Definition dev_write (dev : string) : M D unit :=
  store ← ensure_store_dir;
  let path := store +:+ ".dev" in
  append_file path "" ;;
  s ← get_st;
  listed ← dev_listed dev (default "" (h_readfile (s_dev s) path));
  mwhen (negb listed) (append_file path (dev +:+ nl)).

(** [opt] tells whether the caller passes its options; without them the test of
    ["--suppress-errors"] is a TypeError. *)
Definition dev_read (fail with_options : bool) : M D (option (list string)) :=
  s ← get_st;
  let path := STORE_PATH +:+ ".dev" in
  match h_readfile (s_dev s) path with
  | Some text => mret (Some (filter (λ l, l ≠ "") (map strip (readlines text))))
  | None =>
      if negb with_options then raise (TypeError "argument of type 'NoneType' is not iterable")
      else
        suppress ← opt_has "--suppress-errors";
        mwhen (negb suppress) (fail_usage (cannot_open path) fail) ;;
        if negb fail then mret None
        else raise (OtherError "UnboundLocalError")
  end.

(** ** Status *)

(** The loop of [get_status]: devices that remain, status so far. *)
Fixpoint status_of_devices (devs : list string) (status : string) : M D string :=
  match devs with
  | [] => mret status
  | dev :: devs' =>
      is_block_device dev ;;
      reset_dev dev ;;
      key ← opt_str "--key";
      keys ← get_registration_keys dev true;
      if py_in key keys then status_of_devices devs' "on"
      else
        log DEBUG ("No registration for key " +:+ key +:+ " on device " +:+ dev +:+ nl) ;;
        action ← opt_get "--action";
        if bool_decide (action = VStr "on") then mret "off"
        else status_of_devices devs' status
  end.

Definition get_status : M D pyval :=
  devs ← opt_list "devices";
  status ← status_of_devices devs "off";
  mret (VStr status).

(** ** Registering and fencing

    [depth] is the bound of [register_dev]. *)
Section SetStatus.
Variable depth : nat.

(** A device of the "on" loop; the number of failures so far grows by one on failure. *)
Definition unfence_device (count : Z) (dev : string) : M D Z :=
  is_block_device dev ;;
  key ← opt_str "--key";
  register_dev depth dev key true ;;
  keys ← get_registration_keys dev true;
  if negb (py_in key keys) then
    log DEBUG ("Failed to register key " +:+ key +:+ "on device " +:+ dev +:+ nl) ;;
    mret (count + 1)%Z
  else
    dev_write dev ;;
    r ← get_reservation_key dev true;
    if bool_decide (is_Some r) then mret count
    else
      ok ← reserve_dev dev;
      if (ok : bool) then mret count
      else
        r ← get_reservation_key dev true;
        if bool_decide (is_Some r) then mret count
        else
          log DEBUG ("Failed to create reservation (key=" +:+ key +:+ ", device=" +:+ dev +:+ ")" +:+ nl) ;;
          mret (count + 1)%Z.

(** The first loop of the "off" branch. *)
Definition fence_device (host_key dev : string) : M D unit :=
  is_block_device dev ;;
  register_dev depth dev host_key true ;;
  key ← opt_str "--key";
  keys ← get_registration_keys dev true;
  mwhen (py_in key keys) (preempt_abort host_key dev ;; mret tt).

(** The second loop: is the key gone, is there a reservation? *)
Definition verify_device (count : Z) (dev : string) : M D Z :=
  key ← opt_str "--key";
  keys ← get_registration_keys dev true;
  if py_in key keys then
    log DEBUG ("Failed to remove key " +:+ key +:+ " on device " +:+ dev +:+ nl) ;;
    mret (count + 1)%Z
  else
    r ← get_reservation_key dev true;
    if bool_decide (is_Some r) then mret count
    else
      log DEBUG ("No reservation exists on device " +:+ dev +:+ nl) ;;
      mret (count + 1)%Z.

Definition unfence : M D Z :=
  set_key ;;
  devs ← opt_list "devices";
  mfold unfence_device 0%Z devs.

Definition fence_other : M D Z :=
  host_key ← get_key true;
  key ← opt_str "--key";
  mwhen (bool_decide (host_key = Some (lower key)))
    (fail_usage "Failed: keys cannot be same. You can not fence yourself." true) ;;
  devs ← opt_list "devices";
  mfor devs (fence_device (default "" host_key)) ;;
  mfold verify_device 0%Z devs.

Definition set_status : M D unit :=
  action ← opt_get "--action";
  count ← (if bool_decide (action = VStr "on") then unfence else fence_other);
  mwhen (negb (count =? 0)%Z)
    (log ERROR ("Failed to verify " +:+ str_of_Z count +:+ " device(s)") ;; sys_exit 1).
End SetStatus.

(** ** Monitor *)

Definition tool_missing (path args : string) : M D bool :=
  r ← run_cmd (path +:+ args); mret (negb (rc r =? 0)%Z).

Definition unable_to_run_tool (k : string) : M D Z :=
  path ← opt_str k; log ERROR ("Unable to run " +:+ path) ;; mret 1%Z.

Definition do_action_monitor : M D Z :=
  p ← opt_str "--sg_persist-path"; m1 ← tool_missing p " -V";
  if (m1 : bool) then unable_to_run_tool "--sg_persist-path"
  else
    t ← opt_str "--sg_turs-path"; m2 ← tool_missing t " -V";
    if (m2 : bool) then unable_to_run_tool "--sg_turs-path"
    else
      devices ← opt_has "--devices";
      m3 ← (if (devices : bool) then mret false
            else v ← opt_str "--vgs-path"; tool_missing v " --version");
      if (m3 : bool) then unable_to_run_tool "--vgs-path"
      else
        get_key true ;;
        dev_read true false ;;
        mret 0%Z.

(** ** Keys *)

Definition is_ascii (s : string) : bool :=
  forallb (λ c, code c <? 128)%N (String.list_ascii_of_string s).

(** [hashlib.md5(s.encode("ascii")).hexdigest()]; the second attempt in the handler of
    the ValueError encodes the same text again. *)
Definition md5_of (s : string) : M D string :=
  if is_ascii s then mret (md5_hex s)
  else raise (ValueError "'ascii' codec can't encode character: ordinal not in range(128)").

Definition cluster_name_re : re := Seqs [Lit "(str) = "; Group 1 (Plus NonSpace); Lit nl].

Definition get_cluster_id : M D string :=
  path ← opt_str "--corosync-cmap-path";
  r ← run_cmd (path +:+ " totem.cluster_name");
  match search cluster_name_re (out r) with
  | Some m => md5_of (m_group 1 m)
  | None => fail_usage "Failed: cannot get cluster name" true ;; raise (AttributeError "group")
  end.

(** The node id before [<name> (str) = <plug>] and a line feed; [name] is given as a
    pattern and as its text. *)
Definition node_re (name : re) (name_text plug : string) : option re :=
  interpolated compile false plug
    (λ p, Seqs [Any; Group 1 (Plus Digit); name; Lit " (str) = "; p; Lit nl])
    (".(" +:+ str1 BS +:+ "d+)" +:+ name_text +:+ " " +:+ str1 BS +:+ "(str" +:+ str1 BS +:+
     ") = " +:+ plug +:+ str1 BS +:+ "n").

Definition search_node (r : option re) (text : string) : M D (option string) :=
  match r with
  | Some r => mret (m_group 1 <$> search r text)
  | None => raise (OtherError "re.error")
  end.

Definition get_node_id : M D string :=
  path ← opt_str "--corosync-cmap-path";
  r ← run_cmd (path +:+ " nodelist");
  plug ← opt_str "--plug";
  by_name ← search_node (node_re (Seqs [Any; Lit "name"]) ".name" plug) (out r);
  found ← match by_name with
          | Some n => mret (Some n)
          | None =>
              search_node (node_re (Seqs [Any; Lit "ring"; Any; Lit "_addr"]) ".ring._addr" plug)
                (out r)
          end;
  match found with
  | Some n => mret n
  | None =>
      fail_usage "Failed: unable to parse output of corosync-cmapctl or node does not exist"
        true ;;
      mret ""
  end.

Definition get_node_hash : M D string := plug ← opt_str "--plug"; md5_of plug.

(** [%.4d] *)
Definition pad4 (n : Z) : string :=
  let digits := str_of_Z (Z.abs n) in
  (if (n <? 0)%Z then "-" else "") +:+ repeat_str "0" (4 - String.length digits) +:+ digits.

(** [%.4s] *)
Definition first4 (s : string) : string := String.substring 0 4 s.

Definition generate_key : M D string :=
  method ← opt_get "--key-value";
  cluster ← get_cluster_id;
  if bool_decide (method = VStr "hash") then
    node ← get_node_hash; mret (first4 cluster +:+ first4 node)
  else
    node ← get_node_id; n ← as_int (VStr node); mret (first4 cluster +:+ pad4 n).

(** ** Devices *)

Definition vgs_args : string :=
  " --noheadings --separator : --sort pv_uuid --options vg_attr,pv_name " +:+
  "--config 'global { locking_type = 0 } devices { preferred_names = [ " +:+ dq +:+
  "^/dev/dm" +:+ dq +:+ " ] }'".

(** A line [vg_attr:pv_name] of a volume group that is clustered or shared. *)
Definition shared_pv (line : string) : M D (option string) :=
  match split_go ":" (strip line) 0 with
  | [vg_attr; pv_name] =>
      match String.get 5 vg_attr with
      | Some c => mret (if bool_decide (c = "c"%char) || bool_decide (c = "s"%char)
                        then Some pv_name else None)
      | None => raise IndexError
      end
  | _ => raise (ValueError "unpack")
  end.

Definition get_shared_devices : M D (list string) :=
  vgs ← opt_str "--vgs-path";
  r ← run_cmd (vgs +:+ vgs_args);
  mwhen (negb (rc r =? 0)%Z) (fail_usage "Failed: Cannot get shared devices" true) ;;
  mfold (λ devs line, p ← shared_pv line; mret (devs ++ option_list p)%list) [] (splitlines (out r)).

(** [re.split(r"\s*,\s*|\s+", s)] without its empty pieces. *)
Definition device_separator_re : re :=
  Alt (Seqs [Many Space; Lit ","; Many Space]) (Plus Space).
Definition device_list (s : string) : list string :=
  filter (λ d, d ≠ "") (re_split device_separator_re (strip s)).

End Scsi.
