(* ===== verification/ScsiMain.v ===== *)
(** * The program fence_scsi

    Its options, the watchdog checks [fence_scsi_check] and
    [fence_scsi_check_hardreboot], and [main] of [agents/scsi/fence_scsi.py]. *)

From S2P Require Import Prelude PyStr PyRe OptionDefs Effects Fail Host Input Process CheckInput.
From S2P Require Import Metadata Action Scsi.

Local Open Scope string_scope.

(** ** Options *)

Definition scsi_opts_1 : list (string * optdef) := [
  ("devices", opt [Getopt "d:";
     Longopt "devices";
     Help "-d, --devices=[devices]        List of devices to use for current operation";
     Required "0";
     Shortdesc "List of devices to use for current operation. Devices can be comma or space separated list of raw devices (eg. /dev/sdc). Each device must support SCSI-3 persistent reservations. Optional if cluster is configured with clvm or lvmlockd.";
     Order 1]);
  ("nodename", opt [Getopt ":";
     Longopt "nodename";
     Help "";
     Required "0";
     Shortdesc "";
     Order 1]);
  ("key", opt [Getopt "k:";
     Longopt "key";
     Help "-k, --key=[key]                Key to use for the current operation";
     Required "0";
     Shortdesc ("Key to use for the current operation. This key should be unique to a node. For the " +:+ dq +:+ "on" +:+ dq +:+ " action, the key specifies the key use to register the local node. For the " +:+ dq +:+ "off" +:+ dq +:+ " action, this key specifies the key to be removed from the device(s).");
     Order 1]);
  ("aptpl", opt [Getopt "a";
     Longopt "aptpl";
     Help "-a, --aptpl                    Use the APTPL flag for registrations";
     Required "0";
     Shortdesc "Use the APTPL flag for registrations. This option is only used for the 'on' action.";
     Order 1]);
  ("mpath_register_method", opt [Getopt ":";
     Longopt "mpath-register-method";
     Help "--mpath-register-method=[multi|single]  Register key to all multipath sub devices (multi), or directly to the main multipath device (single).";
     Required "0";
     Shortdesc "Multipath register method (multi/single).";
     Default (VStr "multi");
     Order 3]);
  ("readonly", opt [Getopt "";
     Longopt "readonly";
     Help "--readonly                     Open DEVICE read-only. May be useful with PRIN commands if there are unwanted side effects with the default read-write open.";
     Required "0";
     Shortdesc "Open DEVICE read-only.";
     Order 4]);
  ("suppress-errors", opt [Getopt "";
     Longopt "suppress-errors";
     Help "--suppress-errors              Suppress error log. Suppresses error logging when run from the watchdog service before pacemaker starts.";
     Required "0";
     Shortdesc "Error log suppression.";
     Order 5])
].

Definition scsi_opts_2 : list (string * optdef) := [
  ("logfile", opt [Getopt ":";
     Longopt "logfile";
     Help "-f, --logfile                  Log output (stdout and stderr) to file";
     Required "0";
     Shortdesc "Log output (stdout and stderr) to file";
     Order 6]);
  ("corosync_cmap_path", opt [Getopt ":";
     Longopt "corosync-cmap-path";
     Help "--corosync-cmap-path=[path]    Path to corosync-cmapctl binary";
     Required "0";
     Shortdesc "Path to corosync-cmapctl binary";
     Default (VStr "@COROSYNC_CMAPCTL_PATH@");
     Order 300]);
  ("sg_persist_path", opt [Getopt ":";
     Longopt "sg_persist-path";
     Help "--sg_persist-path=[path]       Path to sg_persist binary";
     Required "0";
     Shortdesc "Path to sg_persist binary";
     Default (VStr "@SG_PERSIST_PATH@");
     Order 300]);
  ("sg_turs_path", opt [Getopt ":";
     Longopt "sg_turs-path";
     Help "--sg_turs-path=[path]          Path to sg_turs binary";
     Required "0";
     Shortdesc "Path to sg_turs binary";
     Default (VStr "@SG_TURS_PATH@");
     Order 300]);
  ("vgs_path", opt [Getopt ":";
     Longopt "vgs-path";
     Help "--vgs-path=[path]              Path to vgs binary";
     Required "0";
     Shortdesc "Path to vgs binary";
     Default (VStr "@VGS_PATH@");
     Order 300]);
  ("key_value", opt [Getopt ":";
     Longopt "key-value";
     Help "--key-value=<id|hash>          SCSI key node generation method";
     Required "0";
     Shortdesc ("Method used to generate the SCSI key. " +:+ dq +:+ "id" +:+ dq +:+ " (default) uses the positional ID from " +:+ dq +:+ "corosync-cmactl nodelist" +:+ dq +:+ " output which can get inconsistent when nodes are removed from cluster without full cluster restart. " +:+ dq +:+ "hash" +:+ dq +:+ " uses part of hash made out of node names which is not affected over time but there is theoretical chance that hashes can collide as size of SCSI key is quite limited.");
     Default (VStr "id");
     Order 300])
].

(** [define_new_opts] *)
Definition define_new_opts {D} : M D unit :=
  mfor (scsi_opts_1 ++ scsi_opts_2)%list (λ kd,
    modify (λ s, set_allopt (<[kd.1 := kd.2]> (s_allopt s)) s)).

Definition scsi_device_opt : list string :=
  ["no_login"; "no_password"; "devices"; "nodename"; "port"; "no_port"; "key"; "aptpl";
   "fabric_fencing"; "on_target"; "corosync_cmap_path"; "sg_persist_path"; "sg_turs_path";
   "mpath_register_method"; "readonly"; "suppress-errors"; "logfile"; "vgs_path"; "force_on";
   "key_value"].

Definition scsi_docs : docs := Docs
  ("fence_scsi is an I/O Fencing agent that uses SCSI-3 persistent reservations to control access to shared storage devices. These devices must support SCSI-3 persistent reservations (SPC-3 or greater) as well as the " +:+ dq +:+ "preempt-and-abort" +:+ dq +:+ " subcommand." +:+ nl +:+ "The fence_scsi agent works by having each node in the cluster register a unique key with the SCSI device(s). Reservation key is generated from " +:+ dq +:+ "node id" +:+ dq +:+ " (default) or from " +:+ dq +:+ "node name hash" +:+ dq +:+ " (RECOMMENDED) by adjusting " +:+ dq +:+ "key_value" +:+ dq +:+ " option. Using hash is recommended to prevent issues when removing nodes from cluster without full cluster restart. Once registered, a single node will become the reservation holder by creating a " +:+ dq +:+ "write exclusive, registrants only" +:+ dq +:+ " reservation on the device(s). The result is that only registered nodes may write to the device(s). When a node failure occurs, the fence_scsi agent will remove the key belonging to the failed node from the device(s). The failed node will no longer be able to write to the device(s). A manual reboot is required." +:+ nl +:+ ".P" +:+ nl +:+ "When used as a watchdog device you can define e.g. retry=1, retry-sleep=2 and verbose=yes parameters in /etc/sysconfig/stonith if you have issues with it failing.")
  "Fence agent for SCSI persistent reservation"
  (Some "") [] None.

Section ScsiMain.
Context `{Host D}.
Variable compile : bool → string → option re.
(** Bound of the recursion through stacked multipath devices. *)
Variable depth : nat.

(** ** The watchdog checks *)

(** A name, an equals sign and a value at the start of a line ([re.MULTILINE]). *)
Definition setting_re : re :=
  Seqs [Bol; Many Space; Group 1 (Many NonSpace); Many Space; Lit "="; Many Space;
        Group 2 (Many NonSpace); Many Space].

(** Settings of [/etc/sysconfig/stonith] become options. *)
Definition scsi_check_get_options : M D unit :=
  s ← get_st;
  match h_readfile (s_dev s) "/etc/sysconfig/stonith" with
  | None => mret tt
  | Some text =>
      mfor (findall2 setting_re text) (λ m, opt_set (lower m.1) (VStr (lower m.2)))
  end.

Definition scsi_check_defaults : gmap string pyval :=
  list_to_map [("--sg_turs-path", VStr "@SG_TURS_PATH@");
               ("--sg_persist-path", VStr "@SG_PERSIST_PATH@");
               ("--power-timeout", VStr "5"); ("retry", VStr "0"); ("retry-sleep", VStr "1")].

(** [float(x)], in microseconds, for a finite number in decimal notation. *)
Definition py_float_us (x : string) : option Z :=
  let t := lower (strip x) in
  let '(m, e) := default (t, "0") (split1 "e"%char t) in
  let '(i, f) := default (m, "") (split1 "."%char m) in
  let misplaced := ["._"; "_."; ".+"; ".-"; ". "; " ."; "e "; " e"] in
  if existsb (λ p, contains p t) misplaced then None
  else
    match int_of_str (i +:+ f), int_of_str e with
    | Some n, Some k =>
        let k := (k - Z.of_nat (String.length f) + 6)%Z in
        Some (if (0 <=? k)%Z then n * 10 ^ k else n / 10 ^ (- k))%Z
    | _, _ => None
    end.

(** [time.sleep(float(options["retry-sleep"]))] *)
Definition retry_sleep : M D unit :=
  v ← opt_str "retry-sleep";
  match py_float_us v with
  | Some t => sleep_us t
  | None => raise (ValueError ("could not convert string to float: " +:+ py_repr v))
  end.

(** The attempts on one device: is the key registered? [n] attempts were made. *)
Fixpoint check_device (left : nat) (n retries : Z) (key dev : string) : M D bool :=
  match left with
  | O => mret false
  | S left' =>
      retry ← opt_str "retry";
      mwhen (0 <? n)%Z (log DEBUG ("retry: " +:+ str_of_Z n +:+ " of " +:+ retry)) ;;
      keys ← get_registration_keys dev false;
      if py_in key keys then
        log DEBUG ("key " +:+ key +:+ " registered with device " +:+ dev) ;; mret true
      else
        log DEBUG ("key " +:+ key +:+ " not registered with device " +:+ dev) ;;
        mwhen (n <? retries)%Z retry_sleep ;;
        check_device left' (n + 1)%Z retries key dev
  end.

Fixpoint check_devices (devs : list string) (key : string) : M D bool :=
  match devs with
  | [] => mret false
  | dev :: devs' =>
      retries ← opt_int "retry";
      found ← check_device (Z.to_nat (retries + 1)) 0 retries key dev;
      if (found : bool) then mret true else check_devices devs' key
  end.

Definition reboot_host : M D unit := modify (add_event EvReboot).

(** The check proper: the devices and the key that were stored. *)
Definition check_stored_devices (hardreboot : bool) : M D Z :=
  modify (set_opts scsi_check_defaults) ;;
  scsi_check_get_options ;;
  verbose ← opt_find "verbose";
  mwhen (bool_decide (verbose = Some (VStr "yes"))) (logging_setup "level DEBUG") ;;
  devs ← dev_read false true;
  match default [] devs with
  | [] =>
      suppress ← opt_has "--suppress-errors";
      mwhen (negb suppress) (log ERROR "No devices found") ;;
      mret 0%Z
  | devs =>
      key ← get_key false;
      let key := default "" key in
      if bool_decide (key = "") then log ERROR "Key not found" ;; mret 0%Z
      else
        found ← check_devices devs key;
        if (found : bool) then mret 0%Z
        else
          log DEBUG ("key " +:+ key +:+ " registered with any devices") ;;
          mwhen hardreboot reboot_host ;;
          mret 2%Z
  end.

Definition scsi_check (args : list string) (hardreboot : bool) : M D Z :=
  match args with
  | command :: code :: _ =>
      if bool_decide (command = "repair") then as_int (VStr code)
      else check_stored_devices hardreboot
  | _ => check_stored_devices hardreboot
  end.

(** ** [main] *)

(** [k in options and options[k]] *)
Definition opt_truthy (k : string) : M D bool :=
  v ← opt_find k;
  mret (match v with
        | None | Some VNone | Some (VStr "") | Some (VList []) => false
        | Some (VInt n) => negb (n =? 0)%Z
        | Some _ => true
        end).

Definition setup_options : M D unit :=
  define_new_opts ;;
  allopt_set "delay" (Getopt "H:") ;;
  allopt_set "port" (Help "-n, --plug=[nodename]          Name of the node to be fenced") ;;
  allopt_set "port" (Shortdesc "Name of the node to be fenced. The node name is used to generate the key value used for the current operation. This option will be ignored when used with the -k option.").

Definition redirect_output : M D unit :=
  given ← opt_has "--logfile";
  mwhen given
    (f ← opt_str "--logfile";
     s ← get_st;
     match h_writefile f "" (s_dev s) with
     | Some d => modify (set_dev d) ;; logging_setup ("stdout and stderr to " +:+ f)
     | None => fail_usage ("Failed: Unable to create file " +:+ f) true
     end).

(** Node, key and their checks. *)
Definition input_key (stop_after_error validate_all : bool) : M D unit :=
  nodename ← opt_truthy "--nodename";
  mwhen nodename (n ← opt_get "--nodename"; opt_set "--plug" n ;; opt_del "--nodename") ;;
  plug ← opt_truthy "--plug";
  key ← opt_truthy "--key";
  mwhen (negb (plug || key)) (fail_usage "Failed: nodename or key is required" stop_after_error) ;;
  mwhen (negb validate_all)
    (mwhen (negb key) (k ← generate_key compile; opt_set "--key" (VStr k)) ;;
     k ← opt_str "--key";
     mwhen (bool_decide (k = "0") || bool_decide (k = ""))
       (fail_usage "Failed: key cannot be 0" stop_after_error)) ;;
  v ← opt_find "--key-value";
  mwhen (match v with
         | Some v => negb (bool_decide (v = VStr "id")) && negb (bool_decide (v = VStr "hash"))
         | None => false
         end)
    (fail_usage "Failed: key-value has to be 'id' or 'hash'" stop_after_error).

Definition input_devices : M D unit :=
  key ← opt_str "--key";
  opt_set "--key" (VStr (lstrip_char "0" key)) ;;
  given ← opt_has "--devices";
  devs ← (if (given : bool) then d ← opt_str "--devices"; mret (device_list d) else mret []);
  match devs with
  | [] => devs ← get_shared_devices; opt_set "devices" (VList devs)
  | _ => opt_set "devices" (VList devs)
  end ;;
  devs ← opt_list "devices";
  mwhen (bool_decide (devs = [])) (fail_usage "Failed: No devices found" true).

Definition scsi_fence (fuel : nat) : M D Z :=
  fence_action fuel (Some (set_status compile depth)) (Some get_status) None None None.

(** The program from the checked options on. *)
Definition run_fence_scsi (fuel : nat) (time_start : Z) : M D unit :=
  run_delay time_start 0 0 ;;
  redirect_output ;;
  opt_set "store_path" (VStr STORE_PATH) ;;
  action ← opt_get "--action";
  let validate_all := bool_decide (action = VStr "validate-all") in
  mwhen (bool_decide (action = VStr "monitor")) (r ← do_action_monitor; sys_exit r) ;;
  input_key (negb validate_all) validate_all ;;
  mwhen validate_all (sys_exit 0) ;;
  input_devices ;;
  result ← scsi_fence fuel;
  sys_exit result.

Definition fence_scsi_main (fuel : nat) (time_start : Z) (inv : invocation)
    (set_order : list string → list string) : M D unit :=
  setup_options ;;
  mwhen (bool_decide (basename (inv_prog inv) = "fence_scsi_check"))
    (r ← scsi_check (inv_args inv) false; sys_exit r) ;;
  mwhen (bool_decide (basename (inv_prog inv) = "fence_scsi_check_hardreboot"))
    (r ← scsi_check (inv_args inv) true; sys_exit r) ;;
  '(avail_opt, opt) ← process_input inv scsi_device_opt;
  device_opt ← check_input (inv_env inv) avail_opt opt true;
  opt_set "device_opt" (VList (filter (λ o, o ≠ "separator") device_opt)) ;;
  show_docs (inv_prog inv) set_order (Some scsi_docs) ;;
  run_fence_scsi fuel time_start.
End ScsiMain.
