(* ===== verification/Mpath.v ===== *)
(** * The agent fence_mpath: persistent reservations on multipath devices

    [agents/mpath/fence_mpath.py]. The agent works like fence_scsi, through the tool
    mpathpersist; the key of a node is the plug, and the key of the local node is found
    in a file that lists a device and a key per line. *)

From S2P Require Import Prelude PyStr PyRe OptionDefs Effects Fail Host Input Process CheckInput.
From S2P Require Import Metadata Action Scsi ScsiMain.

Local Open Scope string_scope.

(** ** Options *)

Definition mpath_opts : list (string * optdef) := [
  ("devices", opt [Getopt "d:";
     Longopt "devices";
     Help "-d, --devices=[devices]        List of devices to use for current operation";
     Required "0";
     Shortdesc "List of devices to use for current operation. Devices can be comma or space separated list of device-mapper multipath devices (eg. /dev/mapper/3600508b400105df70000e00000ac0000 or /dev/mapper/mpath1). Each device must support SCSI-3 persistent reservations.";
     Order 1]);
  ("key", opt [Getopt "k:";
     Longopt "key";
     Help "-k, --key=[key]                Replaced by -n, --plug";
     Required "0";
     Shortdesc "Replaced by port/-n/--plug";
     Order 1]);
  ("suppress-errors", opt [Getopt "";
     Longopt "suppress-errors";
     Help "--suppress-errors              Suppress error log. Suppresses error logging when run from the watchdog service before pacemaker starts.";
     Required "0";
     Shortdesc "Error log suppression.";
     Order 4]);
  ("mpathpersist_path", opt [Getopt ":";
     Longopt "mpathpersist-path";
     Help "--mpathpersist-path=[path]     Path to mpathpersist binary";
     Required "0";
     Shortdesc "Path to mpathpersist binary";
     Default (VStr "@MPATH_PATH@");
     Order 200]);
  ("store_path", opt [Getopt ":";
     Longopt "store-path";
     Help "--store-path=[path]            Path to directory containing cached keys";
     Required "0";
     Shortdesc "Path to directory where fence agent can store information";
     Default (VStr "@STORE_PATH@");
     Order 200])
].

(** [define_new_opts] *)
Definition define_mpath_opts {D} : M D unit :=
  mfor mpath_opts (λ kd, modify (λ s, set_allopt (<[kd.1 := kd.2]> (s_allopt s)) s)).

Definition mpath_device_opt : list string :=
  ["no_login"; "no_password"; "devices"; "key"; "sudo"; "fabric_fencing"; "on_target";
   "store_path"; "suppress-errors"; "mpathpersist_path"; "force_on"; "port"; "no_port"].

Definition mpath_docs : docs := Docs
  ("fence_mpath is an I/O Fencing agent that uses SCSI-3 persistent reservations to control access multipath devices. Underlying devices must support SCSI-3 persistent reservations (SPC-3 or greater) as well as the " +:+ dq +:+ "preempt-and-abort" +:+ dq +:+ " subcommand." +:+ nl +:+ "The fence_mpath agent works by having a unique key for each node that has to be set in /etc/multipath.conf. Once registered, a single node will become the reservation holder by creating a " +:+ dq +:+ "write exclusive, registrants only" +:+ dq +:+ " reservation on the device(s). The result is that only registered nodes may write to the device(s). When a node failure occurs, the fence_mpath agent will remove the key belonging to the failed node from the device(s). The failed node will no longer be able to write to the device(s). A manual reboot is required." +:+ nl +:+ ".P" +:+ nl +:+ "When used as a watchdog device you can define e.g. retry=1, retry-sleep=2 and verbose=yes parameters in /etc/sysconfig/stonith if you have issues with it failing.")
  "Fence agent for multipath persistent reservation"
  (Some "https://www.sourceware.org/dm/") [] None.

Section Mpath.
Context `{Host D}.
(** [re.compile] for device names with special characters. *)
Variable compile : bool → string → option re.

(** ** Commands *)

Definition mpath_run_cmd (cmd : string) : M D cmd_result :=
  sudo ← opt_has "--use-sudo";
  prefix ← (if (sudo : bool) then p ← opt_str "--sudo-path"; mret (p +:+ " ") else mret "");
  '(r, o, e) ← run_command (prefix +:+ cmd) None None None;
  mret (CmdResult r o e).

Definition mpath_is_block_device (dev : string) : M D unit :=
  exists_ ← host_test h_exists dev;
  mwhen (negb exists_)
    (fail_usage ("Failed: device " +:+ dq +:+ dev +:+ dq +:+ " does not exist") true) ;;
  blk ← host_test h_isblk dev;
  mwhen (negb blk)
    (fail_usage ("Failed: device " +:+ dq +:+ dev +:+ dq +:+ " is not a block device") true).

Definition mpath_preempt_abort (host dev : string) : M D bool :=
  path ← opt_str "--mpathpersist-path";
  key ← opt_str "--plug";
  r ← mpath_run_cmd (path +:+ " -o --preempt-abort --prout-type=5 --param-rk=" +:+ host +:+
                     " --param-sark=" +:+ key +:+ " -d " +:+ dev);
  mret (rc r =? 0)%Z.

Definition mpath_register_dev (dev : string) : M D bool :=
  path ← opt_str "--mpathpersist-path";
  key ← opt_str "--plug";
  r ← mpath_run_cmd (path +:+ " -o --register --param-sark=" +:+ key +:+ " -d " +:+ dev);
  mret (rc r =? 0)%Z.

Definition mpath_reserve_dev (dev : string) : M D bool :=
  path ← opt_str "--mpathpersist-path";
  key ← opt_str "--plug";
  r ← mpath_run_cmd (path +:+ " -o --reserve --prout-type=5 --param-rk=" +:+ key +:+ " -d " +:+ dev);
  mret (rc r =? 0)%Z.

(** [\s+key\s*=\s*0x(\S+)\s+], ignoring case *)
Definition mpath_reservation_re : re :=
  Seqs [Plus Space; LitI "key"; Many Space; Lit "="; Many Space; LitI "0x";
        Group 1 (Plus NonSpace); Plus Space].

Definition mpath_get_reservation_key (dev : string) : M D (option string) :=
  path ← opt_str "--mpathpersist-path";
  r ← mpath_run_cmd (path +:+ " -i -r -d " +:+ dev);
  mwhen (negb (rc r =? 0)%Z)
    (fail_usage ("Cannot get reservation key on device " +:+ dq +:+ dev +:+ dq +:+ ": " +:+ err r)
       true) ;;
  mret (m_group 1 <$> search mpath_reservation_re (out r)).

Definition mpath_get_registration_keys (dev : string) (fail : bool) : M D (list string) :=
  path ← opt_str "--mpathpersist-path";
  r ← mpath_run_cmd (path +:+ " -i -k -d " +:+ dev);
  if negb (rc r =? 0)%Z then
    fail_usage ("Cannot get registration keys on device " +:+ dq +:+ dev +:+ dq +:+ ": " +:+ err r)
      fail ;;
    mret (if fail then registrations_of (out r) else [])
  else mret (registrations_of (out r)).

(** ** The file of devices and keys *)

Definition device_file : M D string :=
  store ← opt_str "--store-path"; mret (store +:+ "/mpath.devices").

(** [re.search(r"^{}\s+{}$".format(dev, plug), out, re.MULTILINE)] *)
Definition pair_listed (dev plug text : string) : M D bool :=
  match simple_pattern dev, simple_pattern plug with
  | Some r1, Some r2 =>
      mret (bool_decide (is_Some (search (Seqs [Bol; r1; Plus Space; r2; Eol]) text)))
  | _, _ =>
      match compile true ("^" +:+ dev +:+ str1 BS +:+ "s+" +:+ plug +:+ "$") with
      | Some r => mret (bool_decide (is_Some (search r text)))
      | None => raise (OtherError "re.error")
      end
  end.

Definition mpath_dev_write (dev : string) : M D unit :=
  file_path ← device_file;
  store ← opt_str "--store-path";
  isdir ← host_test h_isdir store;
  mwhen (negb isdir) (makedirs store) ;;
  append_file file_path "" ;;
  s ← get_st;
  plug ← opt_str "--plug";
  listed ← pair_listed dev plug (default "" (h_readfile (s_dev s) file_path));
  mwhen (negb listed) (append_file file_path (dev +:+ tab +:+ plug +:+ nl)).

(** A line of the file: a device and a key. *)
Definition parse_device_line (m : list (string * string)) (line : string)
    : M D (list (string * string)) :=
  match split_ws line with
  | [device; key] => mret (dict_insert device key m)
  | _ => raise (ValueError "unpack")
  end.

Definition mpath_dev_read (fail : bool) : M D (option (list (string * string))) :=
  file_path ← device_file;
  s ← get_st;
  match h_readfile (s_dev s) file_path with
  | Some text =>
      m ← mfold parse_device_line [] (filter (λ l, l ≠ "") (map strip (readlines text)));
      mret (Some m)
  | None =>
      mwhen fail (fail_usage (cannot_open file_path) true) ;;
      mret None
  end.

(** ** Status *)

Fixpoint mpath_status_of (devs : list string) (status : string) : M D string :=
  match devs with
  | [] => mret status
  | dev :: devs' =>
      mpath_is_block_device dev ;;
      key ← opt_str "--plug";
      keys ← mpath_get_registration_keys dev true;
      if py_in key keys then mpath_status_of devs' "on"
      else
        log DEBUG ("No registration for key " +:+ key +:+ " on device " +:+ dev +:+ nl) ;;
        mpath_status_of devs' status
  end.

Definition mpath_get_status : M D pyval :=
  devs ← opt_list "devices";
  status ← mpath_status_of devs "off";
  action ← opt_get "--action";
  mwhen (bool_decide (action = VStr "monitor")) (mpath_dev_read true ;; mret tt) ;;
  mret (VStr status).

(** ** Registering and fencing *)

Definition mpath_unfence_device (count : Z) (dev : string) : M D Z :=
  mpath_is_block_device dev ;;
  mpath_register_dev dev ;;
  key ← opt_str "--plug";
  keys ← mpath_get_registration_keys dev true;
  if negb (py_in key keys) then
    log DEBUG ("Failed to register key " +:+ key +:+ " on device " +:+ dev +:+ nl) ;;
    mret (count + 1)%Z
  else
    mpath_dev_write dev ;;
    r ← mpath_get_reservation_key dev;
    if bool_decide (is_Some r) then mret count
    else
      ok ← mpath_reserve_dev dev;
      if (ok : bool) then mret count
      else
        r ← mpath_get_reservation_key dev;
        if bool_decide (is_Some r) then mret count
        else
          log DEBUG ("Failed to create reservation (key=" +:+ key +:+ ", device=" +:+ dev +:+ ")" +:+ nl) ;;
          mret (count + 1)%Z.

(** [dev_keys[dev]]: the key of the local node on the device. *)
Definition mpath_fence_device (dev_keys : list (string * string)) (dev : string) : M D unit :=
  mpath_is_block_device dev ;;
  key ← opt_str "--plug";
  keys ← mpath_get_registration_keys dev true;
  mwhen (py_in key keys)
    (match dict_get dev dev_keys with
     | Some host => mpath_preempt_abort host dev ;; mret tt
     | None => raise (KeyError dev)
     end).

Definition mpath_verify_device (count : Z) (dev : string) : M D Z :=
  key ← opt_str "--plug";
  keys ← mpath_get_registration_keys dev true;
  if py_in key keys then
    log DEBUG ("Failed to remove key " +:+ key +:+ " on device " +:+ dev +:+ nl) ;;
    mret (count + 1)%Z
  else
    r ← mpath_get_reservation_key dev;
    if bool_decide (is_Some r) then mret count
    else
      log DEBUG ("No reservation exists on device " +:+ dev +:+ nl) ;;
      mret (count + 1)%Z.

Definition mpath_unfence : M D Z :=
  devs ← opt_list "devices"; mfold mpath_unfence_device 0%Z devs.

Definition mpath_fence_other : M D Z :=
  dev_keys ← mpath_dev_read true;
  devs ← opt_list "devices";
  mfor devs (mpath_fence_device (default [] dev_keys)) ;;
  mfold mpath_verify_device 0%Z devs.

Definition mpath_set_status : M D unit :=
  action ← opt_get "--action";
  count ← (if bool_decide (action = VStr "on") then mpath_unfence else mpath_fence_other);
  mwhen (negb (count =? 0)%Z)
    (log ERROR ("Failed to verify " +:+ str_of_Z count +:+ " device(s)") ;; sys_exit 1).

(** ** The watchdog checks *)

Definition mpath_check_get_options : M D unit :=
  s ← get_st;
  match h_readfile (s_dev s) "/etc/sysconfig/stonith" with
  | None => mret tt
  | Some text =>
      mfor (findall2 setting_re text) (λ m, opt_set (lower m.1) (VStr (lower m.2)))
  end.

Definition mpath_check_defaults : gmap string pyval :=
  list_to_map [("--mpathpersist-path", VStr "/usr/sbin/mpathpersist");
               ("--store-path", VStr "@STORE_PATH@");
               ("--power-timeout", VStr "5"); ("retry", VStr "0"); ("retry-sleep", VStr "1")].

Fixpoint mpath_check_device (left : nat) (n retries : Z) (key dev : string) : M D bool :=
  match left with
  | O => mret false
  | S left' =>
      retry ← opt_str "retry";
      mwhen (0 <? n)%Z (log DEBUG ("retry: " +:+ str_of_Z n +:+ " of " +:+ retry)) ;;
      keys ← mpath_get_registration_keys dev false;
      if py_in key keys then
        log DEBUG ("key " +:+ key +:+ " registered with device " +:+ dev) ;; mret true
      else
        log DEBUG ("key " +:+ key +:+ " not registered with device " +:+ dev) ;;
        mwhen (n <? retries)%Z retry_sleep ;;
        mpath_check_device left' (n + 1)%Z retries key dev
  end.

Fixpoint mpath_check_devices (devs : list (string * string)) : M D bool :=
  match devs with
  | [] => mret false
  | (dev, key) :: devs' =>
      retries ← opt_int "retry";
      found ← mpath_check_device (Z.to_nat (retries + 1)) 0 retries key dev;
      if (found : bool) then mret true else mpath_check_devices devs'
  end.

Definition mpath_check (args : list string) (hardreboot : bool) : M D Z :=
  match args with
  | "repair" :: code :: _ => as_int (VStr code)
  | _ =>
      modify (set_opts mpath_check_defaults) ;;
      mpath_check_get_options ;;
      verbose ← opt_find "verbose";
      mwhen (bool_decide (verbose = Some (VStr "yes"))) (logging_setup "level DEBUG") ;;
      devs ← mpath_dev_read false;
      match default [] devs with
      | [] =>
          suppress ← opt_has "--suppress-errors";
          mwhen (negb suppress) (log ERROR "No devices found") ;;
          mret 0%Z
      | devs =>
          found ← mpath_check_devices devs;
          if (found : bool) then mret 0%Z
          else
            let key := default "" (snd <$> last devs) in
            log DEBUG ("key " +:+ key +:+ " registered with any devices") ;;
            mwhen hardreboot reboot_host ;;
            mret 2%Z
      end
  end.

(** ** [main] *)

Definition mpath_setup : M D unit :=
  define_mpath_opts ;;
  allopt_set "port" (Required "0") ;;
  allopt_set "port" (Help "-n, --plug=[key]               Key to use for the current operation") ;;
  allopt_set "port" (Shortdesc ("Key to use for the current operation. This key should be unique to a node and have to be written in /etc/multipath.conf. For the " +:+ dq +:+ "on" +:+ dq +:+ " action, the key specifies the key use to register the local node. For the " +:+ dq +:+ "off" +:+ dq +:+ " action, this key specifies the key to be removed from the device(s).")).

Definition needs_plug (action : pyval) : bool :=
  bool_decide (action ∈ VStr <$> ["off"; "on"; "reboot"; "status"; "validate-all"]).

(** The key takes the place of the plug. *)
Definition key_as_plug : M D unit :=
  key ← opt_find "--key";
  match key with
  | Some k => opt_set "--plug" k ;; opt_del "--key"
  | None =>
      help ← opt_has "--help";
      if (help : bool) then mret tt
      else
        action ← opt_get "--action";
        plug ← opt_has "--plug";
        mwhen (needs_plug action && negb plug)
          (fail_usage "Failed: You have to enter plug number or machine identification"
             (negb (bool_decide (action = VStr "validate-all"))))
  end.

(** [^0x0*|^0+] *)
Definition leading_zeros_re : re :=
  Alt (Seqs [Bos; Lit "0x"; Many (Lit "0")]) (Seqs [Bos; Plus (Lit "0")]).

Definition normal_key (k : string) : string := sub leading_zeros_re (λ _, "") k.

Definition mpath_input_devices : M D unit :=
  given ← opt_truthy "--devices";
  mwhen (negb given) (fail_usage "Failed: No devices found" true) ;;
  d ← opt_str "--devices";
  opt_set "devices" (VList (device_list d)) ;;
  plug ← opt_find "--plug";
  plug ← as_str (default (VStr "") plug);
  opt_set "--plug" (VStr (normal_key plug)).

Definition run_fence_mpath (fuel : nat) (time_start : Z) : M D unit :=
  run_delay time_start 0 0 ;;
  action ← opt_get "--action";
  mwhen (bool_decide (action = VStr "validate-all")) (sys_exit 0) ;;
  mpath_input_devices ;;
  result ← fence_action fuel (Some mpath_set_status) (Some mpath_get_status) None None None;
  sys_exit result.

Definition fence_mpath_main (fuel : nat) (time_start : Z) (inv : invocation)
    (set_order : list string → list string) : M D unit :=
  mpath_setup ;;
  mwhen (bool_decide (basename (inv_prog inv) = "fence_mpath_check"))
    (r ← mpath_check (inv_args inv) false; sys_exit r) ;;
  mwhen (bool_decide (basename (inv_prog inv) = "fence_mpath_check_hardreboot"))
    (r ← mpath_check (inv_args inv) true; sys_exit r) ;;
  '(avail_opt, opt) ← process_input inv mpath_device_opt;
  device_opt ← check_input (inv_env inv) avail_opt opt true;
  opt_set "device_opt" (VList (filter (λ o, o ≠ "separator") device_opt)) ;;
  key_as_plug ;;
  show_docs (inv_prog inv) set_order (Some mpath_docs) ;;
  run_fence_mpath fuel time_start.
End Mpath.
