(* ===== verification/ScsiSpec.v ===== *)
(** Proofs about fence_scsi and fence_mpath *)

From S2P Require Import Prelude PyStr PyRe OptionDefs Effects Fail Text Host Input Process.
From S2P Require Import CheckInput Login Snmp Metadata Action TextFacts Verify Scsi ScsiMain.
From S2P Require Import Mpath.

Local Open Scope string_scope.

Section Keeps.
Context `{Host D}.

Lemma run_cmd_same_key k cmd : keeps (@same_key D k) (run_cmd cmd).
Proof. unfold run_cmd. keeps_tac. Qed.
#[local] Hint Resolve run_cmd_same_key : fence.

Lemma reset_dev_same_key k dev : keeps (@same_key D k) (reset_dev dev).
Proof. unfold reset_dev. keeps_tac. Qed.
#[local] Hint Resolve reset_dev_same_key : fence.

Lemma get_registration_keys_same_key k dev fail :
  keeps (@same_key D k) (get_registration_keys dev fail).
Proof. unfold get_registration_keys, readonly_flag. keeps_tac. Qed.

Lemma get_reservation_key_same_key k dev fail :
  keeps (@same_key D k) (get_reservation_key dev fail).
Proof. unfold get_reservation_key, readonly_flag. keeps_tac. Qed.
#[local] Hint Resolve get_registration_keys_same_key get_reservation_key_same_key : fence.

Lemma succeeds_same_key k cmd : keeps (@same_key D k) (succeeds cmd).
Proof. unfold succeeds. keeps_tac. Qed.
#[local] Hint Resolve succeeds_same_key : fence.

Lemma preempt_abort_same_key k host dev : keeps (@same_key D k) (preempt_abort host dev).
Proof. unfold preempt_abort. keeps_tac. Qed.

Lemma preempt_same_key k host dev key : keeps (@same_key D k) (preempt host dev key).
Proof. unfold preempt. keeps_tac. Qed.

Lemma register_helper_same_key k dev key : keeps (@same_key D k) (register_helper dev key).
Proof. unfold register_helper. keeps_tac. Qed.
#[local] Hint Resolve preempt_abort_same_key preempt_same_key register_helper_same_key : fence.

Lemma register_path_same_key k dev key b : keeps (@same_key D k) (register_path dev key b).
Proof. unfold register_path. keeps_tac. Qed.
#[local] Hint Resolve register_path_same_key : fence.

Lemma listdir_reads path s : (listdir (D := D) path s).2 = s.
Proof. unfold listdir. by case_match. Qed.

Lemma get_mpath_slaves_reads depth dev s : (get_mpath_slaves (D := D) depth dev s).2 = s.
Proof.
  revert dev s. induction depth as [|depth IH]; intros dev; [done|].
  apply bind_reads; [apply listdir_reads|]. intros es s. repeat case_match; [done|apply IH|done].
Qed.

Lemma register_dev_same_key k depth dev key b :
  keeps (@same_key D k) (register_dev depth dev key b).
Proof.
  revert dev b. induction depth as [|depth IH]; intros dev b; cbn [register_dev]; [by intros s|].
  apply keeps_bind; [exact _|by intros s|]. intros dev'. keeps_tac; auto.
  apply keeps_read; [exact _|apply get_mpath_slaves_reads].
Qed.
#[local] Hint Resolve register_dev_same_key : fence.

Lemma host_test_reads f path s : (host_test (D := D) f path s).2 = s.
Proof. done. Qed.
#[local] Hint Resolve host_test_reads : fence.

Lemma is_block_device_same_key k dev : keeps (@same_key D k) (is_block_device dev).
Proof. unfold is_block_device. keeps_tac. Qed.
#[local] Hint Resolve is_block_device_same_key : fence.

Lemma fence_device_same_key k depth host_key dev :
  keeps (@same_key D k) (fence_device depth host_key dev).
Proof. unfold fence_device. keeps_tac. Qed.
End Keeps.

#[export] Hint Resolve run_cmd_same_key reset_dev_same_key get_registration_keys_same_key
  get_reservation_key_same_key succeeds_same_key register_dev_same_key fence_device_same_key
  is_block_device_same_key host_test_reads : fence.

Section Verified.
Context `{Host D}.
Variable compile : bool → string → option re.
Implicit Types s : st D.

(** Every device was read, the key is not registered, and there is a reservation. *)
Definition scsi_verified : string → list string → st D → st D → Prop :=
  verified (λ dev, get_registration_keys dev true) (λ dev, get_reservation_key dev true).

Lemma verify_devices_Ret_inv devs count s n s' key :
  s_opts s !! "--key" = Some (VStr key) →
  mfold verify_device count devs s = (Ret n, s') →
  (count ≤ n)%Z ∧ (n = count → scsi_verified key devs s s').
Proof.
  apply (verify_steps_Ret_inv "--key" (λ dev, get_registration_keys dev true)
    (λ dev, get_reservation_key dev true)); intros dev; auto with fence.
Qed.

Lemma fence_other_Ret_inv depth s n s' key devs :
  s_opts s !! "--key" = Some (VStr key) → s_opts s !! "devices" = Some (VList devs) →
  fence_other depth s = (Ret n, s') →
  (0 ≤ n)%Z ∧ (n = 0%Z → ∃ s1, scsi_verified key devs s1 s').
Proof.
  intros Hk Hdevs (host_key & s1 & H1 & Hr)%bind_Ret_inv.
  assert (∀ k, s_opts s1 !! k = s_opts s !! k) as E1.
  { intros k. unfold get_key in H1. destruct (h_readfile _ _); [by simplify_eq|].
    assert (keeps (@same_key D k) (fail_usage (cannot_open (STORE_PATH +:+ ".key")) true ;;
      mret (A := option string) None)) as Hkeep by keeps_tac.
    specialize (Hkeep s). rewrite H1 in Hkeep. exact Hkeep. }
  apply bind_Ret_inv in Hr as (key' & s0 & [Hk' ->]%opt_str_Ret_inv & Hr).
  apply bind_Ret_inv in Hr as (u & s2 & H2 & Hr).
  apply mwhen_Ret_inv in H2 as [[_ H2%fail_usage_stop_not_Ret]|[_ ->]]; [done|].
  apply bind_Ret_inv in Hr as (devs' & s0 & [Hd ->]%opt_list_Ret_inv & Hr).
  rewrite E1, Hdevs in Hd. simplify_eq.
  apply bind_Ret_inv in Hr as (u2 & s3 & H3 & Hr).
  pose proof (keeps_mfor (same_key "--key") devs' (fence_device depth (default "" host_key))
    (fence_device_same_key "--key" depth (default "" host_key)) s1) as Hkeep.
  rewrite H3 in Hkeep. unfold same_key in Hkeep. cbn in Hkeep.
  apply (verify_devices_Ret_inv _ _ _ _ _ key) in Hr as [Hle Hv]; [|by rewrite Hkeep, E1].
  split; [done|]. intros ->. eauto.
Qed.

(** C27. When fencing a node (any action but "on") succeeds, each of its devices was read
    afterwards, one after the other, the last thing before success: the node's key was not
    among the registrations, and a reservation existed. *)
Theorem scsi_fencing_verified depth s u s' key devs action :
  s_opts s !! "--key" = Some (VStr key) → s_opts s !! "devices" = Some (VList devs) →
  s_opts s !! "--action" = Some (VStr action) → action ≠ "on" →
  set_status compile depth s = (Ret u, s') →
  ∃ s1, scsi_verified key devs s1 s'.
Proof.
  intros Hk Hd Ha Hon (a & s0 & [Ha' ->]%opt_get_Ret_inv & Hr)%bind_Ret_inv.
  rewrite bool_decide_false in Hr by congruence.
  apply bind_Ret_inv in Hr as (n & s1 & H1 & Hr).
  destruct (fence_other_Ret_inv _ _ _ _ _ _ Hk Hd H1) as [_ Hv].
  apply exit_if_counted_Ret_inv in Hr as [-> ->]. by apply Hv.
Qed.
End Verified.

(** ** A disk

    One device with registrations and a reservation, behind the tools sg_persist and
    sg_turs; keys are kept and printed in lower case. *)
Module Disk.
Record disk := MkDisk {
  dk_keys : list string;
  dk_holder : option string;
  dk_files : gmap string string
}.

Definition answer (status : Z) (out : string) : option proc :=
  Some (Proc (Some 1000%Z) status out "" "" "").

Definition print_registrations (keys : list string) : string :=
  join nl ("  PR generation=0x1, registered reservation keys follow:" ::
           map (λ k, "    0x" +:+ k) keys) +:+ nl.

Definition print_reservation (holder : option string) : string :=
  match holder with
  | Some k => "  PR generation=0x1, Reservation follows:" +:+ nl +:+ "    Key=0x" +:+ k +:+ nl +:+
              "    scope: LU_SCOPE,  type: Write Exclusive, registrants only" +:+ nl
  | None => "  PR generation=0x1, there is NO reservation held" +:+ nl
  end.

Definition spawn (argv : list string) (d : disk) : option proc * disk :=
  match argv with
  | ["sg_turs"; _] => (answer 0 "", d)
  | ["sg_persist"; "-n"; "-i"; "-k"; "-d"; _] => (answer 0 (print_registrations (dk_keys d)), d)
  | ["sg_persist"; "-n"; "-i"; "-r"; "-d"; _] => (answer 0 (print_reservation (dk_holder d)), d)
  | ["sg_persist"; "-n"; "-o"; "-I"; "-S"; k; "-d"; _] =>
      (answer 0 "", MkDisk (if py_in (lower k) (dk_keys d) then dk_keys d else lower k :: dk_keys d)
                      (dk_holder d) (dk_files d))
  | ["sg_persist"; "-n"; "-o"; "-R"; "-T"; "5"; "-K"; k; "-d"; _] =>
      (answer 0 "", MkDisk (dk_keys d) (Some (lower k)) (dk_files d))
  | ["sg_persist"; "-n"; "-o"; _; "-T"; "5"; "-K"; h; "-S"; k; "-d"; _] =>
      (answer 0 "", MkDisk (filter (λ x, x ≠ lower k ∨ x = lower h) (dk_keys d)) (Some (lower h)) (dk_files d))
  | _ => (answer 2 "", d)
  end.

#[export] Instance disk_host : Host disk := {|
  h_exists d p := true; h_isfile d p := false; h_isdir d p := true; h_isblk d p := true;
  h_lstat_isblk d p := true; h_islink d p := false; h_readlink d p := p;
  h_kill0 d pid := NoSuchProcess; h_executable d p := true; h_realpath d p := p;
  h_listdir d p := None;
  h_readfile d p := dk_files d !! p;
  h_writefile p x d := Some (MkDisk (dk_keys d) (dk_holder d) (<[p := x]> (dk_files d)));
  h_appendfile p x d :=
    Some (MkDisk (dk_keys d) (dk_holder d)
            (<[p := default "" (dk_files d !! p) +:+ x]> (dk_files d)));
  h_makedirs p d := Some d;
  h_popen c d := ("", d);
  h_spawn env argv d := spawn argv d
|}.

(** The local node has key "aa1", and holds the reservation; node "bb2" is registered. *)
Definition two_nodes : disk :=
  MkDisk ["bb2"; "aa1"] (Some "aa1") {[STORE_PATH +:+ ".key" := "aa1" +:+ nl]}.

Definition fencing_of (key action : string) : st disk :=
  St (list_to_map [("--key", VStr key); ("--action", VStr action); ("devices", VList ["/dev/sda"]);
                   ("--sg_turs-path", VStr "sg_turs"); ("--sg_persist-path", VStr "sg_persist")])
     ∅ [] 0 two_nodes.

Definition no_regex (multiline : bool) (pattern : string) : option re := None.
End Disk.
#[local] Existing Instance Disk.disk_host.

Lemma scsi_fencing_verified_witness :
  ∃ s1, scsi_verified "bb2" ["/dev/sda"] s1 (set_status Disk.no_regex 2 (Disk.fencing_of "bb2" "off")).2.
Proof.
  apply (scsi_fencing_verified Disk.no_regex 2 (Disk.fencing_of "bb2" "off") tt _ "bb2" _ "off");
    [vm_compute; reflexivity|vm_compute; reflexivity|vm_compute; reflexivity|closed_dec|].
  apply run_outcome. vm_compute. reflexivity.
Defined.

Section Guards.
Context `{Host D}.
Variable compile : bool → string → option re.
Implicit Types s : st D.

(** C28. A node never fences itself: when the key to remove is the key of the local node,
    in any case of letters, fencing ends with exit status 1 before any command is run. *)
Theorem scsi_never_self depth s key text action :
  s_opts s !! "--key" = Some (VStr key) → s_opts s !! "--action" = Some (VStr action) →
  action ≠ "on" → h_readfile (s_dev s) (STORE_PATH +:+ ".key") = Some text →
  lower (strip (readline text)) = lower key →
  (set_status compile depth s).1 = Raise (SystemExit EC_GENERIC_ERROR) ∧
  s_dev (set_status compile depth s).2 = s_dev s ∧ s_opts (set_status compile depth s).2 = s_opts s.
Proof.
  intros Hk Ha Hon Hf Hself. unfold set_status.
  rewrite (bind_Ret _ _ _ _ _ (opt_get_eq _ _ _ Ha)). cbv beta.
  rewrite bool_decide_false by congruence. unfold fence_other.
  assert (get_key true s = (Ret (Some (lower key)), s)) as Hget
    by (unfold get_key; by rewrite Hf, Hself).
  rewrite !bind_assoc, (bind_Ret _ _ _ _ _ Hget), bind_assoc,
    (bind_Ret _ _ _ _ _ (opt_str_eq _ _ _ Hk)), bind_assoc.
  rewrite bool_decide_true by done. cbn. done.
Qed.

(** The key to remove is looked up in the spelling of the option: when the device
    does not list it in that very spelling, the device is left as the registration of the
    local node left it, nothing is preempted. *)
Theorem scsi_key_spelling depth host_key dev key keys b s s1 s2 s3 :
  s_opts s !! "--key" = Some (VStr key) →
  is_block_device dev s = (Ret tt, s1) →
  register_dev depth dev host_key true s1 = (Ret b, s2) →
  get_registration_keys dev true s2 = (Ret keys, s3) →
  key ∉ keys →
  fence_device depth host_key dev s = (Ret tt, s3).
Proof.
  intros Hk H1 H2 H3 Hnot. unfold fence_device.
  pose proof (is_block_device_same_key "--key" dev s) as E1.
  pose proof (register_dev_same_key "--key" depth dev host_key true s1) as E2.
  rewrite H1 in E1. rewrite H2 in E2. unfold same_key in E1, E2. cbn in E1, E2.
  assert (s_opts s2 !! "--key" = Some (VStr key)) as Hk2 by congruence.
  rewrite (bind_Ret _ _ _ _ _ H1), (bind_Ret _ _ _ _ _ H2),
    (bind_Ret _ _ _ _ _ (opt_str_eq _ _ _ Hk2)), (bind_Ret _ _ _ _ _ H3).
  by rewrite (proj2 (py_in_false _ _) Hnot).
Qed.
End Guards.

Lemma scsi_never_self_witness :
  (set_status Disk.no_regex 2 (Disk.fencing_of "AA1" "off")).1 =
  Raise (SystemExit EC_GENERIC_ERROR).
Proof.
  apply (scsi_never_self Disk.no_regex 2 (Disk.fencing_of "AA1" "off") "AA1" ("aa1" +:+ nl) "off");
    [vm_compute; reflexivity|vm_compute; reflexivity|closed_dec|vm_compute; reflexivity|].
  vm_compute. reflexivity.
Defined.

(** Node "bb2" is to be fenced under the name "BB2": nothing is removed. *)
Definition misspelt : st Disk.disk := Disk.fencing_of "BB2" "off".
Definition local_registered : st Disk.disk := (register_dev 2 "/dev/sda" "aa1" true misspelt).2.
Definition keys_read : st Disk.disk := (get_registration_keys "/dev/sda" true local_registered).2.

Lemma scsi_key_spelling_witness :
  fence_device 2 "aa1" "/dev/sda" misspelt = (Ret tt, keys_read) ∧
  "bb2" ∈ Disk.dk_keys (s_dev keys_read).
Proof.
  assert ((register_dev 2 "/dev/sda" "aa1" true misspelt).1 = Ret true) as E2
    by (vm_compute; reflexivity).
  assert ((get_registration_keys "/dev/sda" true local_registered).1 = Ret ["bb2"; "aa1"]) as E3
    by (vm_compute; reflexivity).
  split; [|closed_dec].
  exact (scsi_key_spelling 2 "aa1" "/dev/sda" "BB2" ["bb2"; "aa1"] true misspelt misspelt
    local_registered keys_read eq_refl eq_refl (run_outcome _ _ _ E2) (run_outcome _ _ _ E3)
    ltac:(closed_dec)).
Defined.

(** * The watchdog check of fence_scsi

    [scsi_check] reports a failure, and reboots the host when it may, only after every
    read of every known device has missed the key of the local node. *)

Section Check.
Context `{Host D}.
Implicit Types s : st D.

(** Only messages and time: nothing that a device or a later step could notice. *)
Definition quiet s s' : Prop :=
  s_opts s' = s_opts s ∧ s_allopt s' = s_allopt s ∧ s_dev s' = s_dev s.

#[local] Instance quiet_preorder : PreOrder quiet.
Proof.
  unfold quiet. split; [by intros s|]. intros s1 s2 s3 (? & ? & ?) (? & ? & ?). repeat split; congruence.
Qed.

(** [n] reads of a device, each without the key. *)
Inductive missed (key dev : string) : nat → st D → st D → Prop :=
| missed_O s : missed key dev 0 s s
| missed_S n s s1 s2 s3 s' keys :
    quiet s s1 → get_registration_keys dev false s1 = (Ret keys, s2) → key ∉ keys →
    quiet s2 s3 → missed key dev n s3 s' → missed key dev (S n) s s'.

(** One device after the other, with one read more than the option "retry" says. *)
Inductive all_missed (key : string) : list string → st D → st D → Prop :=
| all_missed_nil s : all_missed key [] s s
| all_missed_cons dev devs retries s s1 s' :
    opt_int "retry" s = (Ret retries, s) → missed key dev (Z.to_nat (retries + 1)) s s1 →
    all_missed key devs s1 s' → all_missed key (dev :: devs) s s'.

Lemma mwhen_log_quiet (b : bool) l m s u s' : mwhen (D := D) b (log l m) s = (Ret u, s') → quiet s s'.
Proof.
  intros [[_ Hl]|[_ ->]]%mwhen_Ret_inv; [|done]. unfold log, modify in Hl. by injection Hl as _ <-.
Qed.

Lemma retry_sleep_quiet (b : bool) s u s' :
  mwhen (D := D) b retry_sleep s = (Ret u, s') → quiet s s'.
Proof.
  intros [[_ (v & s1 & [_ ->]%opt_str_Ret_inv & Hs)%bind_Ret_inv]|[_ ->]]%mwhen_Ret_inv; [|done].
  destruct (py_float_us v) as [t|]; [|done]. by apply sleep_us_Ret_inv in Hs as [_ ->].
Qed.

Lemma check_device_missed left n retries key dev s s' :
  check_device left n retries key dev s = (Ret false, s') → missed key dev left s s'.
Proof.
  revert n s. induction left as [|left IH]; intros n s; cbn [check_device].
  { rewrite mret_eq. intros [= <-]. constructor. }
  intros (retry & s1 & [_ ->]%opt_str_Ret_inv & Hr)%bind_Ret_inv.
  apply bind_Ret_inv in Hr as (u1 & s2 & H2%mwhen_log_quiet & Hr).
  apply bind_Ret_inv in Hr as (keys & s3 & H3 & Hr).
  destruct (py_in key keys) eqn:Hin.
  { by apply bind_Ret_inv in Hr as (u & s4 & _ & Hr). }
  apply py_in_false in Hin.
  apply bind_Ret_inv in Hr as (u2 & s4 & H4%(mwhen_log_quiet true) & Hr).
  apply bind_Ret_inv in Hr as (u3 & s5 & H5%retry_sleep_quiet & Hr).
  econstructor; [exact H2|exact H3|exact Hin|by etrans|by eapply IH].
Qed.

Lemma check_devices_missed devs key s s' :
  check_devices devs key s = (Ret false, s') → all_missed key devs s s'.
Proof.
  revert s. induction devs as [|dev devs IH]; intros s; cbn [check_devices].
  { rewrite mret_eq. intros [= <-]. constructor. }
  intros (retries & s1 & Hretry & Hr)%bind_Ret_inv.
  pose proof Hretry as [_ ->]%opt_int_Ret_inv.
  apply bind_Ret_inv in Hr as (found & s2 & H2 & Hr). destruct found; [done|].
  econstructor; [exact Hretry|by eapply check_device_missed|by apply IH].
Qed.

(** The value that the last step of a block returns. *)
Ltac last_return H :=
  repeat (apply bind_Ret_inv in H as (? & ? & _ & H)); rewrite mret_eq in H; by injection H.

Lemma check_stored_devices_Ret_inv hardreboot s c s' :
  check_stored_devices hardreboot s = (Ret c, s') →
  c = 0%Z ∨
  c = 2%Z ∧ ∃ devs key s1 s2 s3 s4,
    devs ≠ [] ∧ key ≠ "" ∧
    dev_read false true s1 = (Ret (Some devs), s2) ∧
    get_key false s2 = (Ret (Some key), s3) ∧
    all_missed key devs s3 s4 ∧
    s' = (if hardreboot then add_event EvReboot else id)
           (add_event (EvLog DEBUG ("key " +:+ key +:+ " registered with any devices")) s4).
Proof.
  intros (u0 & s0 & _ & Hr)%bind_Ret_inv. apply bind_Ret_inv in Hr as (u1 & s01 & _ & Hr).
  apply bind_Ret_inv in Hr as (v & s02 & _ & Hr). apply bind_Ret_inv in Hr as (u2 & s1 & _ & Hr).
  apply bind_Ret_inv in Hr as (odevs & s2 & Hdevs & Hr).
  destruct odevs as [[|dev devs]|]; cbn [default] in Hr; [left; last_return Hr| |left; last_return Hr].
  apply bind_Ret_inv in Hr as (okey & s3 & Hkey & Hr). cbv zeta in Hr.
  case_bool_decide as Hne; [left; last_return Hr|].
  apply bind_Ret_inv in Hr as (found & s4 & Hf & Hr). destruct found; [left; last_return Hr|].
  destruct okey as [key|]; [|done]. right.
  apply check_devices_missed in Hf.
  apply bind_Ret_inv in Hr as (u3 & s5 & Hl & Hr). minv Hl.
  apply bind_Ret_inv in Hr as (u4 & s6 & Hw & Hr). rewrite mret_eq in Hr. injection Hr as <- <-.
  split; [done|]. exists (dev :: devs), key, s1, s2, s3, s4.
  repeat (split; [done|]). apply mwhen_Ret_inv in Hw as [[-> Hw]|[-> ->]]; [|done].
  unfold reboot_host, modify in Hw. by injection Hw as _ <-.
Qed.

(** C39. The watchdog check, unless it is called to repair, answers 0 or 2; it answers 2,
    and reboots the host if it may, only when devices and a key are known and every read
    of every device, as many as the retries ask for, was without the key. *)
Theorem scsi_check_verdict args hardreboot s c s' :
  (∀ code rest, args ≠ "repair" :: code :: rest) →
  scsi_check args hardreboot s = (Ret c, s') →
  c = 0%Z ∨
  c = 2%Z ∧ ∃ devs key s1 s2 s3 s4,
    devs ≠ [] ∧ key ≠ "" ∧
    dev_read false true s1 = (Ret (Some devs), s2) ∧
    get_key false s2 = (Ret (Some key), s3) ∧
    all_missed key devs s3 s4 ∧
    s' = (if hardreboot then add_event EvReboot else id)
           (add_event (EvLog DEBUG ("key " +:+ key +:+ " registered with any devices")) s4).
Proof.
  intros Hargs Hr. apply (check_stored_devices_Ret_inv hardreboot s). rewrite <- Hr.
  destruct args as [|command [|code rest]]; [done..|]. cbn [scsi_check].
  rewrite bool_decide_false; [done|]. intros ->. by eapply Hargs.
Qed.
End Check.
#[local] Existing Instance Disk.disk_host.

(** The key of the local node, "aa1", is no longer on its device. *)
Definition unregistered : st Disk.disk :=
  St ∅ ∅ [] 0 (Disk.MkDisk ["bb2"] (Some "bb2")
    (list_to_map [(STORE_PATH +:+ ".key", "aa1" +:+ nl); (STORE_PATH +:+ ".dev", "/dev/sda" +:+ nl);
                  ("/etc/sysconfig/stonith", "retry = 1" +:+ nl +:+ "--sg_persist-path=sg_persist" +:+
                     nl +:+ "--sg_turs-path=sg_turs" +:+ nl)])).

Lemma scsi_check_verdict_witness :
  2%Z = 0%Z ∨ 2%Z = 2%Z ∧ ∃ devs key s1 s2 s3 s4,
    devs ≠ [] ∧ key ≠ "" ∧ dev_read false true s1 = (Ret (Some devs), s2) ∧
    get_key false s2 = (Ret (Some key), s3) ∧ all_missed key devs s3 s4 ∧
    (scsi_check [] true unregistered).2 =
      add_event EvReboot
        (add_event (EvLog DEBUG ("key " +:+ key +:+ " registered with any devices")) s4).
Proof.
  apply (scsi_check_verdict [] true unregistered 2%Z); [done|].
  apply run_outcome. vm_compute. reflexivity.
Defined.

(** * Round trips through text

    What the tools print is what the agents read back, and what the agents put on a
    command line arrives as one word. *)

(** ** Registrations *)

Definition non_space (c : ascii) : bool := negb (is_space c).

(** A key as it is printed: some text without white space. *)
Definition is_key (k : string) : Prop := k ≠ "" ∧ all_chars non_space k = true.

(** A line of the listing: the key, indented. *)
Definition key_line (k : string) : string := "    0x" +:+ k.

Lemma registration_line_match k :
  is_key k → ∃ m, search registration_re (key_line k) = Some m ∧ m_group 1 m = k.
Proof.
  intros [Hne Hk]. destruct k as [|c k]; [done|]. apply andb_true_iff in Hk as [Hc Hk].
  assert (match_at registration_re false None (key_line (String c k)) =
    Some (last_char (Some c) k, "", [(1, String c k)])) as Hm.
  { unfold match_at, registration_re. cbn [Seqs]. rewrite rmatch_Seq.
    apply (rmatch_plus_chr is_space " "%char "   " ("0x" +:+ String c k)); [done..|].
    rewrite rmatch_Seq, rmatch_Lit, rmatch_Seq, rmatch_Group.
    rewrite <- (str_app_nil (String c k)) at 1.
    apply (rmatch_plus_chr non_space c k ""); [done..|].
    apply (rmatch_star_chr is_space "" ""); [done..|].
    cbn [andb last_char]. by rewrite <- (str_app_nil (String c k)), text_between_app at 1. }
  rewrite (search_front _ _ _ _ _ Hm). eexists. done.
Qed.

Lemma omap_listing {A B} (f : A → option B) (P : B → Prop) (line : B → A) header items :
  f header = None → (∀ x, P x → f (line x) = Some x) → Forall P items →
  omap f (header :: map line items) = items.
Proof.
  intros Hh Hf Hitems. cbn [omap list_omap]. rewrite Hh. clear Hh.
  induction Hitems as [|x items Hx _ IH]; [done|]. cbn [map omap list_omap].
  rewrite (Hf _ Hx). by f_equal.
Qed.

(** C29. The keys that sg_persist (or mpathpersist) lists, one per line under a header,
    are the keys that the agent reads, in the same order. *)
Theorem registrations_roundtrip header keys :
  all_chars (λ c, negb (bool_decide (c = NL))) header = true →
  search registration_re header = None →
  Forall is_key keys →
  Forall (λ k, all_chars (λ c, negb (bool_decide (c = NL))) k = true) keys →
  registrations_of (join nl (header :: map key_line keys)) = keys.
Proof.
  intros Hh Hnone Hk Hnl. unfold registrations_of, nl. rewrite split_go_join; [|done|].
  - apply (omap_listing _ is_key key_line); [by rewrite Hnone| |done].
    intros k Hik. destruct (registration_line_match k Hik) as (m & -> & <-). done.
  - constructor; [done|]. rewrite Forall_forall. intros l.
    rewrite list_elem_of_In, in_map_iff. intros (k & <- & Hin%list_elem_of_In).
    rewrite Forall_forall in Hnl. unfold all_chars, key_line. cbn. by apply (Hnl k).
Qed.

Lemma registrations_roundtrip_witness :
  registrations_of (join nl ("  PR generation=0x1, 2 registered reservation keys follow:" ::
                             map key_line ["bb2"; "abc0001"])) = ["bb2"; "abc0001"].
Proof.
  apply registrations_roundtrip; [vm_compute; reflexivity|vm_compute; reflexivity| |].
  - repeat (constructor; [split; [closed_dec|vm_compute; reflexivity]|]). constructor.
  - repeat (constructor; [vm_compute; reflexivity|]). constructor.
Defined.

(** * What fence_mpath guarantees

    Fencing is verified on every device before it is reported, as in fence_scsi. *)

Section Keeps.
Context `{Host D}.

Lemma mpath_run_cmd_same_key k cmd : keeps (@same_key D k) (mpath_run_cmd cmd).
Proof. unfold mpath_run_cmd. keeps_tac. Qed.
#[local] Hint Resolve mpath_run_cmd_same_key : fence.

Lemma mpath_is_block_device_same_key k dev : keeps (@same_key D k) (mpath_is_block_device dev).
Proof. unfold mpath_is_block_device. keeps_tac. Qed.

Lemma mpath_get_registration_keys_same_key k dev fail :
  keeps (@same_key D k) (mpath_get_registration_keys dev fail).
Proof. unfold mpath_get_registration_keys. keeps_tac. Qed.

Lemma mpath_get_reservation_key_same_key k dev :
  keeps (@same_key D k) (mpath_get_reservation_key dev).
Proof. unfold mpath_get_reservation_key. keeps_tac. Qed.

Lemma mpath_preempt_abort_same_key k host dev : keeps (@same_key D k) (mpath_preempt_abort host dev).
Proof. unfold mpath_preempt_abort. keeps_tac. Qed.
#[local] Hint Resolve mpath_is_block_device_same_key mpath_get_registration_keys_same_key
  mpath_get_reservation_key_same_key mpath_preempt_abort_same_key : fence.

Lemma mpath_fence_device_same_key k dev_keys dev :
  keeps (@same_key D k) (mpath_fence_device dev_keys dev).
Proof. unfold mpath_fence_device. keeps_tac. Qed.

Lemma mpath_dev_read_same_key k fail : keeps (@same_key D k) (mpath_dev_read fail).
Proof.
  unfold mpath_dev_read, device_file. keeps_tac; [by intros s|].
  unfold parse_device_line. repeat case_match; keeps_tac.
Qed.
End Keeps.

#[export] Hint Resolve mpath_run_cmd_same_key mpath_is_block_device_same_key
  mpath_get_registration_keys_same_key mpath_get_reservation_key_same_key
  mpath_fence_device_same_key mpath_dev_read_same_key : fence.

Section Verified.
Context `{Host D}.
Variable compile : bool → string → option re.
Implicit Types s : st D.

(** Every device was read, the key is not registered, and there is a reservation. *)
Definition mpath_verified : string → list string → st D → st D → Prop :=
  verified (λ dev, mpath_get_registration_keys dev true) mpath_get_reservation_key.

Lemma mpath_verify_device_step :
  mpath_verify_device (D := D) =
  verify_step "--plug" (λ dev, mpath_get_registration_keys dev true) mpath_get_reservation_key.
Proof. unfold mpath_verify_device, verify_step. reflexivity. Qed.

Lemma mpath_verify_devices_Ret_inv devs count s n s' key :
  s_opts s !! "--plug" = Some (VStr key) →
  mfold mpath_verify_device count devs s = (Ret n, s') →
  (count ≤ n)%Z ∧ (n = count → mpath_verified key devs s s').
Proof.
  rewrite mpath_verify_device_step. apply (verify_steps_Ret_inv "--plug" (λ dev, mpath_get_registration_keys dev true)
    mpath_get_reservation_key); intros dev; auto with fence.
Qed.

Lemma mpath_fence_other_Ret_inv s n s' key devs :
  s_opts s !! "--plug" = Some (VStr key) → s_opts s !! "devices" = Some (VList devs) →
  mpath_fence_other s = (Ret n, s') →
  (0 ≤ n)%Z ∧ (n = 0%Z → ∃ s1, mpath_verified key devs s1 s').
Proof.
  intros Hk Hdevs (dev_keys & s1 & H1 & Hr)%bind_Ret_inv.
  pose proof (λ k, mpath_dev_read_same_key k true s) as E1. rewrite H1 in E1.
  unfold same_key in E1. cbn in E1.
  apply bind_Ret_inv in Hr as (devs' & s0 & [Hd ->]%opt_list_Ret_inv & Hr).
  rewrite E1, Hdevs in Hd. simplify_eq.
  apply bind_Ret_inv in Hr as (u & s2 & H2 & Hr).
  pose proof (keeps_mfor (same_key "--plug") devs' (mpath_fence_device (default [] dev_keys))
    (mpath_fence_device_same_key "--plug" (default [] dev_keys)) s1) as E2.
  rewrite H2 in E2. unfold same_key in E2. cbn in E2.
  apply (mpath_verify_devices_Ret_inv _ _ _ _ _ key) in Hr as [Hle Hv]; [|congruence].
  split; [done|]. intros ->. eauto.
Qed.

(** The same for fence_mpath: when fencing a node (any action but "on") succeeds,
    each of its devices was read afterwards, the last thing before success: the key to
    remove was not among the registrations, and a reservation existed. *)
Theorem mpath_fencing_verified s u s' key devs action :
  s_opts s !! "--plug" = Some (VStr key) → s_opts s !! "devices" = Some (VList devs) →
  s_opts s !! "--action" = Some (VStr action) → action ≠ "on" →
  mpath_set_status compile s = (Ret u, s') →
  ∃ s1, mpath_verified key devs s1 s'.
Proof.
  intros Hk Hd Ha Hon (a & s0 & [Ha' ->]%opt_get_Ret_inv & Hr)%bind_Ret_inv.
  rewrite bool_decide_false in Hr by congruence.
  apply bind_Ret_inv in Hr as (n & s1 & H1 & Hr).
  destruct (mpath_fence_other_Ret_inv _ _ _ _ _ Hk Hd H1) as [_ Hv].
  apply exit_if_counted_Ret_inv in Hr as [-> ->]. by apply Hv.
Qed.
End Verified.

(** ** A multipath device

    The tool mpathpersist on the disk of fence_scsi. *)
Module Maps.
Definition spawn (argv : list string) (d : Disk.disk) : option proc * Disk.disk :=
  match argv with
  | ["mpathpersist"; "-i"; "-k"; "-d"; _] =>
      (Disk.answer 0 (Disk.print_registrations (Disk.dk_keys d)), d)
  | ["mpathpersist"; "-i"; "-r"; "-d"; _] =>
      (Disk.answer 0 (Disk.print_reservation (Disk.dk_holder d)), d)
  | ["mpathpersist"; "-o"; "--preempt-abort"; "--prout-type=5"; _; sark; "-d"; _] =>
      (Disk.answer 0 "", Disk.MkDisk (filter (λ x, "--param-sark=" +:+ x ≠ sark) (Disk.dk_keys d))
                           (Disk.dk_holder d) (Disk.dk_files d))
  | _ => (Disk.answer 2 "", d)
  end.

#[export] Instance maps_host : Host Disk.disk := {|
  h_exists d p := true; h_isfile d p := false; h_isdir d p := true; h_isblk d p := true;
  h_lstat_isblk d p := true; h_islink d p := false; h_readlink d p := p;
  h_kill0 d pid := NoSuchProcess; h_executable d p := true; h_realpath d p := p;
  h_listdir d p := None;
  h_readfile d p := Disk.dk_files d !! p;
  h_writefile p x d := None;
  h_appendfile p x d := None;
  h_makedirs p d := Some d;
  h_popen c d := ("", d);
  h_spawn env argv d := spawn argv d
|}.

Definition two_nodes : Disk.disk :=
  Disk.MkDisk ["bb2"; "aa1"] (Some "aa1")
    {["/run/mpath.devices" := "/dev/mapper/a" +:+ tab +:+ "aa1" +:+ nl]}.

Definition fencing_of (key action : string) : st Disk.disk :=
  St (list_to_map [("--plug", VStr key); ("--action", VStr action);
                   ("devices", VList ["/dev/mapper/a"]); ("--store-path", VStr "/run");
                   ("--mpathpersist-path", VStr "mpathpersist")])
     ∅ [] 0 two_nodes.
End Maps.
#[local] Existing Instance Maps.maps_host.

Lemma mpath_fencing_verified_witness :
  ∃ s1, mpath_verified "bb2" ["/dev/mapper/a"] s1
          (mpath_set_status Disk.no_regex (Maps.fencing_of "bb2" "off")).2.
Proof.
  apply (mpath_fencing_verified Disk.no_regex (Maps.fencing_of "bb2" "off") tt _ "bb2" _ "off");
    [vm_compute; reflexivity|vm_compute; reflexivity|vm_compute; reflexivity|closed_dec|].
  apply run_outcome. vm_compute. reflexivity.
Defined.
