(* ===== verification/Sbd.v ===== *)
(** * The agent fence_sbd: poison pills on shared storage

    [agents/sbd/fence_sbd.py]. Messages are written, and node slots read, by the program
    sbd, one process per device for the commands that report ("list", "dump"). *)

From S2P Require Import Prelude PyStr PyRe OptionDefs Effects Fail Host Input Process Commands.
From S2P Require Import CheckInput Metadata Action Scsi.

Local Open Scope string_scope.

Definition DEVICE_INIT : Z := 1.
Definition DEVICE_NOT_INIT : Z := -3.
Definition PATH_NOT_EXISTS : Z := -1.
Definition PATH_NOT_BLOCK : Z := -2.
Definition SBD_PID_FILE : string := "@SBDPID_PATH@".

(** ** Options *)

Definition sbd_opts : list (string * optdef) := [
  ("devices", opt [Getopt ":";
     Longopt "devices";
     Help "--devices=[device_a,device_b] Comma separated list of sbd devices";
     Required "0";
     Shortdesc "SBD Device";
     Order 1]);
  ("sbd_path", opt [Getopt ":";
     Longopt "sbd-path";
     Help "--sbd-path=[path]              Path to SBD binary";
     Required "0";
     Default (VStr "@SBD_PATH@");
     Order 200]);
  ("crashdump", opt [Getopt "";
     Longopt "crashdump";
     Help "--crashdump                    Enable crashdump, default is disabled";
     Required "0";
     Shortdesc "Crashdump instead of regular fence";
     Longdesc ("If SBD is given a fence command, this option will perform a kernel crash instead of a reboot or power-off, which on a properly configured system can lead to a crashdump for analysis. " +:+ nl +:+ "WARNING:" +:+ nl +:+ " This is unsafe for production environments. Please use with caution and for debugging purposes only.");
     Order 201])
].

Definition define_sbd_opts {D} : M D unit :=
  mfor sbd_opts (λ kd, modify (λ s, set_allopt (<[kd.1 := kd.2]> (s_allopt s)) s)).

Definition sbd_device_opt : list string :=
  ["no_password"; "devices"; "port"; "method"; "sbd_path"; "crashdump"].

Definition sbd_docs : docs := Docs
  "fence_sbd is an I/O Fencing agent which can be used in environments where sbd can be used (shared storage)."
  "Fence agent for sbd"
  (Some "") [] None.

(** [translate_status]: a slot that shows "clear" is online, a pending "reset" or "off"
    message is offline and takes precedence. *)
Definition translate_status (sbd_status : string) : string :=
  if contains "reset" sbd_status || contains "off" sbd_status then "off"
  else if contains "clear" sbd_status then "on"
  else "UNKNOWN".

Section Sbd.
Context `{Host D}.
(** The order in which Python iterates over a set of processes, and the bound on the
    polls of [run_commands]. *)
Variable set_iter : list child → list child.
Variable poll_fuel : nat.

Definition sbd_run_commands (commands : list string) : M D (Z * string * string) :=
  run_commands set_iter poll_fuel commands None None None.

(** ** Devices *)

(** [os.path.join] *)
Definition path_join (a b : string) : string :=
  if startswith "/" b then b
  else if bool_decide (a = "") || endswith "/" a then a +:+ b
  else a +:+ "/" +:+ b.

(** A symbolic link is followed once. *)
Definition resolve_link (device_path : string) : M D string :=
  link ← host_test h_islink device_path;
  s ← get_st;
  mret (if (link : bool) then path_join (dirname device_path) (h_readlink (s_dev s) device_path)
        else device_path).

Definition mentions_not_dumped (text : string) : bool :=
  bool_decide (filter (λ line, Is_true (contains "NOT dumped" line)) (split_go nl text 0) ≠ []).

Definition check_sbd_device (device_path : string) : M D Z :=
  exists_ ← host_test h_exists device_path;
  if negb exists_ then mret PATH_NOT_EXISTS
  else
    device_path ← resolve_link device_path;
    block ← host_test h_lstat_isblk device_path;
    if negb block then mret PATH_NOT_BLOCK
    else
      path ← opt_show "--sbd-path";
      '(_, o, e) ← sbd_run_commands [path +:+ " -d " +:+ device_path +:+ " dump"];
      mret (if mentions_not_dumped o || mentions_not_dumped e then DEVICE_NOT_INIT
            else DEVICE_INIT).

Definition parse_sbd_devices : M D (list string) :=
  d ← opt_str "--devices"; mret (map strip (split_go "," d 0)).

(** ** Commands *)

(** [%s] of the arguments, [None] when there are none. *)
Definition show_arguments (arguments : option string) : string := default "None" arguments.

Definition generate_sbd_command (command : string) (arguments : option string)
    : M D (list string) :=
  let tail := " " +:+ command +:+ " " +:+ show_arguments arguments in
  if bool_decide (command ∈ ["list"; "dump"]) then
    devices ← parse_sbd_devices;
    mfold (λ cmds device,
      path ← opt_str "--sbd-path";
      mret (cmds ++ [path +:+ " -d " +:+ device +:+ tail])%list) [] devices
  else
    path ← opt_str "--sbd-path";
    devices ← parse_sbd_devices;
    mret [path +:+ join "" (map (λ device, " -d " +:+ device) devices) +:+ tail].

Definition send_sbd_message (plug message : string) : M D (Z * string * string) :=
  cmd ← generate_sbd_command "message" (Some (plug +:+ " " +:+ message));
  sbd_run_commands cmd.

(** ** Timeouts in the headers of the devices *)

(** [int(line.split(':')[1])] *)
Definition number_after_colon (line : string) : M D Z :=
  match split_go ":" line 0 !! 1 with
  | Some x => as_int (VStr x)
  | None => raise IndexError
  end.

(** The highest value so far, with a warning when devices differ. *)
Definition update_timeout (what : string) (old : Z) (line : string) : M D Z :=
  new ← number_after_colon line;
  mwhen (negb (old =? -1)%Z && negb (new =? old)%Z)
    (log WARNING ("sbd " +:+ what +:+ " timeouts differ in different devices")) ;;
  mret (Z.max old new).

Definition read_header_line (t : Z * Z) (line : string) : M D (Z * Z) :=
  let '(msg_timeout, watchdog_timeout) := t in
  if contains "msgwait" line then
    m ← update_timeout "message" msg_timeout line; mret (m, watchdog_timeout)
  else if contains "watchdog" line then
    w ← update_timeout "watchdog" watchdog_timeout line; mret (msg_timeout, w)
  else mret t.

Definition get_sbd_header_timeout : M D (Z * Z) :=
  cmd ← generate_sbd_command "dump" None;
  '(_, o, e) ← sbd_run_commands cmd;
  mfold read_header_line (-1, -1)%Z (split_go nl o 0 ++ split_go nl e 0)%list.

(** [-C\s+(\d+)] *)
Definition crashdump_re : re := Seqs [Lit "-C"; Plus Space; Group 1 (Plus Digit)].

Definition get_crashdump_timeout (env : gmap string string) : Z :=
  match search crashdump_re (default "" (env !! "SBD_OPTS")) with
  | Some m => default (-1)%Z (int_of_str (m_group 1 m))
  | None => (-1)%Z
  end.

(** ** Nodes *)

(** The lines of "list" in order; an unreadable device ends the list. *)
Fixpoint read_node_lines (lines : list string) (nodelist : outlets) : M D outlets :=
  match lines with
  | [] => mret nodelist
  | line :: lines' =>
      if bool_decide (line = "") then read_node_lines lines' nodelist
      else if contains "NOT dumped" line then mret nodelist
      else
        match split_ws line with
        | _ :: port :: sbd_status :: _ =>
            read_node_lines lines'
              (dict_insert port (port, Some (translate_status sbd_status)) nodelist)
        | _ => raise IndexError
        end
  end.

Definition get_node_list : M D outlets :=
  cmd ← generate_sbd_command "list" None;
  '(_, o, _) ← sbd_run_commands cmd;
  read_node_lines (split_go nl o 0) [].

Definition sbd_get_power_status : M D pyval :=
  plug ← opt_str "--plug";
  nodelist ← get_node_list;
  match dict_get plug nodelist with
  | Some (_, Some status) => mret (VStr status)
  | Some (_, None) => mret VNone
  | None =>
      log ERROR ("node " +:+ dq +:+ plug +:+ dq +:+ " not found in node list") ;;
      mret (VStr "UNKWNOWN")
  end.

(** ** Fencing *)

Definition crash_or (message : string) : M D string :=
  enable_crashdump ← opt_has "--crashdump";
  mret (if (enable_crashdump : bool) then "crashdump" else message).

(** The message of an action; an action without one leaves the code 99. *)
Definition sbd_message (target_status plug : string) : M D (Z * string * string) :=
  if bool_decide (target_status = "on") then send_sbd_message plug "clear"
  else if bool_decide (target_status = "off") then
    msg ← crash_or "off"; send_sbd_message plug msg
  else if bool_decide (target_status = "reboot") then
    msg ← crash_or "reset"; send_sbd_message plug msg
  else mret (99%Z, "", "").

Definition sbd_set_power_status : M D bool :=
  target_status ← opt_str "--action";
  plug ← opt_str "--plug";
  '(return_code, o, e) ← sbd_message target_status plug;
  mwhen (negb (return_code =? 0)%Z)
    (log ERROR ("sending message to sbd device(s)                 failed with return code " +:+
                str_of_Z return_code) ;;
     log ERROR ("DETAIL: output on stdout was " +:+ dq +:+ o +:+ dq) ;;
     log ERROR ("DETAIL: output on stderr was " +:+ dq +:+ e +:+ dq)) ;;
  mret (return_code =? 0)%Z.

Definition sbd_reboot_cycle : M D bool :=
  plug ← opt_str "--plug";
  msg ← crash_or "reset";
  '(return_code, _, _) ← send_sbd_message plug msg;
  mret (return_code =? 0)%Z.

(** ** [main] *)

Definition sbd_daemon_is_running : M D bool :=
  exists_ ← host_test h_exists SBD_PID_FILE;
  if negb exists_ then
    log INFO ("SBD PID file " +:+ SBD_PID_FILE +:+ " does not exist") ;; mret false
  else
    s ← get_st;
    match h_readfile (s_dev s) SBD_PID_FILE with
    | None => log ERROR ("Failed to read PID file " +:+ SBD_PID_FILE +:+ ": ") ;; mret false
    | Some text =>
        match int_of_str (strip text) with
        | None => log ERROR ("Failed to read PID file " +:+ SBD_PID_FILE +:+ ": ") ;; mret false
        | Some pid =>
            match h_kill0 (s_dev s) pid with
            | SignalSent => mret true
            | NoSuchProcess => log INFO "SBD daemon is not running" ;; mret false
            | SignalError m =>
                log ERROR ("Failed to send signal 0 to PID " +:+ str_of_Z pid +:+ ": " +:+ m) ;;
                mret false
            end
        end
    end.

(** The devices: given, or those of the environment when the daemon runs. *)
Definition find_sbd_devices (env : gmap string string) : M D unit :=
  given ← opt_has "--devices";
  mwhen (negb given)
    (let dev_list := default "" (env !! "SBD_DEVICE") in
     running ← (if bool_decide (dev_list = "") then mret false else sbd_daemon_is_running);
     if (running : bool) then
       opt_set "--devices" (VStr (join "," (split_go ";" dev_list 0)))
     else
       fail_usage "No SBD devices specified.                     At least one SBD device is required." true).

Definition check_sbd_path (device_path : string) : M D unit :=
  log DEBUG ("check device " +:+ dq +:+ device_path +:+ dq) ;;
  return_code ← check_sbd_device device_path;
  let about m := dq +:+ device_path +:+ dq +:+ m in
  mwhen (negb (return_code =? DEVICE_INIT)%Z)
    (log ERROR (if (return_code =? PATH_NOT_EXISTS)%Z then about " does not exist"
                else if (return_code =? PATH_NOT_BLOCK)%Z then about " is not a valid block device"
                else if (return_code =? DEVICE_NOT_INIT)%Z then about " is not initialized"
                else "UNKNOWN error while checking " +:+ dq +:+ device_path +:+ dq) ;;
     sys_exit return_code).

Definition check_sbd_paths : M D unit :=
  action ← opt_get "--action";
  if bool_decide (action ∈ VStr <$> ["reboot"; "off"; "list"]) then mret tt
  else devices ← parse_sbd_devices; mfor devices check_sbd_path.

(** Warnings about timeouts, and about a crash dump in place of a reboot. *)
Definition warn_timeouts (env : gmap string string) : M D unit :=
  power_timeout ← opt_int "--power-timeout";
  '(sbd_msg_timeout, sbd_watchdog_timeout) ← get_sbd_header_timeout;
  mwhen ((0 <? power_timeout)%Z && (power_timeout <=? sbd_msg_timeout)%Z)
    (log WARNING "power timeout needs to be                 greater then sbd message timeout") ;;
  action ← opt_find "--action";
  crashdump ← opt_has "--crashdump";
  mwhen (crashdump && bool_decide (action ∈ [Some (VStr "reboot"); Some (VStr "off")]))
    (plug ← opt_find "--plug";
     let target_node := py_str (default (VStr "UNKNOWN") plug) in
     log WARNING ("crashdump option is enabled while doing action " +:+
                  py_str (default VNone action) +:+ " on node " +:+ target_node) ;;
     log WARNING ("sbd watchdog timeout: " +:+ str_of_Z sbd_watchdog_timeout +:+
                  ", crashdump timeout(compare to setting on target-node " +:+ target_node +:+
                  "): " +:+ str_of_Z (get_crashdump_timeout env))).

Definition sbd_setup : M D unit :=
  define_sbd_opts ;;
  allopt_set "method" (Default (VStr "cycle")) ;;
  allopt_set "method" (Help "-m, --method=[method]          Method to fence (onoff|cycle) (Default: cycle)") ;;
  allopt_set "power_timeout" (Default (VStr "30")).

Definition sbd_fence (fuel : nat) : M D Z :=
  fence_action fuel (Some (sbd_set_power_status ;; mret tt)) (Some sbd_get_power_status)
    (Some get_node_list) (Some sbd_reboot_cycle) None.

Definition fence_sbd_main (fuel : nat) (time_start : Z) (inv : invocation)
    (set_order : list string → list string) : M D unit :=
  sbd_setup ;;
  '(avail_opt, opt) ← process_input inv sbd_device_opt;
  check_input (inv_env inv) avail_opt opt false ;;
  show_docs (inv_prog inv) set_order (Some sbd_docs) ;;
  find_sbd_devices (inv_env inv) ;;
  run_delay time_start 0 0 ;;
  check_sbd_paths ;;
  warn_timeouts (inv_env inv) ;;
  result ← sbd_fence fuel;
  sys_exit result.
End Sbd.
