(* ===== verification/Ping.v ===== *)
(** * The agent fence_heuristics_ping

    [agents/heuristics_ping/fence_heuristics_ping.py]: not a fencing device, but a test
    of the network that lets the next agent of the same level run or not. *)

From S2P Require Import Prelude PyStr PyRe OptionDefs Effects Fail Host Input Process Commands.
From S2P Require Import CheckInput Metadata Action.

Local Open Scope string_scope.

(** ** Options *)

Definition ping_opts : list (string * optdef) := [
  ("ping_count", opt [Getopt ":";
     Longopt "ping-count";
     Required "0";
     Help "--ping-count=[number]          Number of ping-probes to send";
     Shortdesc "The number of ping-probes that is being sent per target";
     Default (VStr "10");
     Order 1]);
  ("ping_good_count", opt [Getopt ":";
     Longopt "ping-good-count";
     Required "0";
     Help "--ping-good-count=[number]     Number of positive ping-probes required";
     Shortdesc "The number of positive ping-probes required to account a target as available";
     Default (VStr "8");
     Order 1]);
  ("ping_interval", opt [Getopt ":";
     Longopt "ping-interval";
     Required "0";
     Help "--ping-interval=[seconds]      Seconds between ping-probes";
     Shortdesc "The interval in seconds between ping-probes";
     Default (VStr "1");
     Order 1]);
  ("ping_timeout", opt [Getopt ":";
     Longopt "ping-timeout";
     Required "0";
     Help "--ping-timeout=[seconds]       Timeout for individual ping-probes";
     Shortdesc "The timeout in seconds till an individual ping-probe is accounted as lost";
     Default (VStr "2");
     Order 1]);
  ("ping_maxfail", opt [Getopt ":";
     Longopt "ping-maxfail";
     Required "0";
     Help "--ping-maxfail=[number]        Number of failed ping-targets allowed";
     Shortdesc "The number of failed ping-targets to still account as overall success";
     Default (VStr "0");
     Order 1]);
  ("ping_targets", opt [Getopt ":";
     Longopt "ping-targets";
     Required "1";
     Help "--ping-targets=tgt1,[inet6:]tgt2  Comma separated list of ping-targets";
     Shortdesc "A comma separated list of ping-targets (optionally prepended by 'inet:' or 'inet6:') to be probed";
     Default (VStr "");
     Order 1])
].

Definition define_ping_opts {D} : M D unit :=
  mfor ping_opts (λ kd, modify (λ s, set_allopt (<[kd.1 := kd.2]> (s_allopt s)) s)).

Definition ping_device_opt : list string :=
  ["no_status"; "no_password"; "ping_count"; "ping_good_count"; "ping_interval";
   "ping_timeout"; "ping_maxfail"; "ping_targets"; "method"].

Definition ping_docs : docs := Docs
  ("fence_heuristics_ping uses ping-heuristics to control execution of another fence agent on the same fencing level." +:+ nl +:+ ".P" +:+ nl +:+ "This is not a fence agent by itself! Its only purpose is to enable/disable another fence agent that lives on the same fencing level but after fence_heuristics_ping.")
  "Fence agent for ping-heuristic based fencing"
  (Some "") [] None.

(** The commands that the build found. *)
Record ping_build := PingBuild { PING_CMD : string; PING4_CMD : string; PING6_CMD : string }.

Section Ping.
Context `{Host D}.
Variable build : ping_build.

(** ** [ping_test] *)

Record ping_settings := PingSettings {
  pg_timeout : Z; pg_count : Z; pg_interval : Z; pg_good_required : Z; pg_maxfail : Z
}.

(** A process that was started, with what is left to read of its output, or [None]. *)
Definition ping_process : Type := option child.

(** [s.split(':', 2)[1]] *)
Definition after_prefix (target : string) : string :=
  match split1 ":"%char target with
  | Some (_, rest) =>
      match split1 ":"%char rest with Some (x, _) => x | None => rest end
  | None => ""
  end.

(** The command for a target; [None] when there is no ping for IPv6. *)
Definition ping_target_cmd (target : string) : option (string * string) :=
  if startswith "inet6:" target then
    if decide (PING6_CMD build = "") then None else Some (PING6_CMD build, after_prefix target)
  else if startswith "inet:" target then Some (PING4_CMD build, after_prefix target)
  else Some (PING_CMD build, target).

Definition ping_command (c : ping_settings) (path target : string) : string :=
  path +:+ " -n -q -W " +:+ str_of_Z (pg_timeout c) +:+ " -c " +:+ str_of_Z (pg_count c) +:+
  " -i " +:+ str_of_Z (pg_interval c) +:+ " " +:+ target.

(** [p[target] = Popen(...)]: a target given twice keeps its last process. *)
Definition start_ping (c : ping_settings) (p : list (string * ping_process)) (target : string)
    : M D (list (string * ping_process)) :=
  match ping_target_cmd target with
  | None => mret (dict_insert target None p)
  | Some (path, mangled) =>
      let cmd := ping_command c path mangled in
      log INFO ("Running command: " +:+ cmd) ;;
      q ← popen None cmd;
      now ← time;
      let started q := Child (length p) q (Z.add now <$> p_duration q) in
      mret (dict_insert target (started <$> q) p)
  end.

(** [.*transmitted, ([0-9]* )( packets)? received.*] *)
Definition packet_count_re : re :=
  Seqs [Many Any; Lit "transmitted, "; Group 1 (Many Digit); Opt (Group 2 (Lit " packets"));
        Lit " received"; Many Any].

(** The number of answers in the first line that reports one, and what is left of the
    output after it; without such a line everything is read. *)
Fixpoint scan_output (lines : list string) : option string * list string :=
  match lines with
  | [] => (None, [])
  | line :: lines' =>
      match search packet_count_re line with
      | Some m => (Some (m_group 1 m), lines')
      | None => scan_output lines'
      end
  end.

(** The output of a process with everything before the lines [rest] read. *)
Definition with_output (c : child) (rest : list string) : child :=
  let q := c_proc c in
  Child (c_id c)
    (Proc (p_duration q) (p_status q) (join nl rest) (p_err q) (p_killed_out q) (p_killed_err q))
    (c_end c).

(** [wait()] on a process that does not end is never over. *)
Definition wait_process (c : child) : M D unit :=
  match c_end c with
  | Some e => modify (λ s, set_clock (Z.max (s_clock s) e) s)
  | None => out_of_fuel
  end.

(** [good]: the packets received, 0 when the process failed or reported nothing. *)
Definition read_good (c : child) : M D (Z * child) :=
  if (p_status (c_proc c) =? 0)%Z then
    match scan_output (split_go nl (p_out (c_proc c)) 0) with
    | (Some digits, rest) => n ← as_int (VStr digits); mret (n, with_output c rest)
    | (None, rest) => mret (0%Z, with_output c rest)
    end
  else mret (0%Z, c).

(** One target of the second loop: the processes and the number of failures. *)
Definition collect_ping (c : ping_settings) (st : list (string * ping_process) * Z) (target : string)
    : M D (list (string * ping_process) * Z) :=
  let '(p, failcount) := st in
  match default None (dict_get target p) with
  | None =>
      log ERROR ("ping target " +:+ target +:+ " failed on OS level") ;;
      mret (p, failcount + 1)%Z
  | Some q =>
      wait_process q ;;
      '(good, q') ← read_good q;
      let p := dict_insert target (Some q') p in
      let result := "ping target " +:+ target +:+ " received " +:+ str_of_Z good +:+ " of " +:+
                    str_of_Z (pg_count c) in
      if (p_status (c_proc q) =? 0)%Z && (pg_good_required c <=? good)%Z
      then log INFO result ;; mret (p, failcount)
      else log INFO (result +:+ " and thus failed") ;; mret (p, failcount + 1)%Z
  end.

Definition read_settings : M D ping_settings :=
  timeout ← opt_int "--ping-timeout";
  count ← opt_int "--ping-count";
  interval ← opt_int "--ping-interval";
  good_required ← opt_int "--ping-good-count";
  maxfail ← opt_int "--ping-maxfail";
  mret (PingSettings timeout count interval good_required maxfail).

Definition ping_targets (c : ping_settings) (targets : list string) : M D bool :=
  p ← mfold (start_ping c) [] targets;
  '(_, failcount) ← mfold (collect_ping c) (p, 0%Z) targets;
  mret (failcount <=? pg_maxfail c)%Z.

Definition ping_test : M D bool :=
  action ← opt_get "--action";
  if bool_decide (action = VStr "on") then mret true
  else
    v ← opt_find "--ping-targets";
    if bool_decide (default (VStr "") v = VStr "") then
      log ERROR "ping target required" ;; mret false
    else
      c ← read_settings;
      targets ← opt_str "--ping-targets";
      ping_targets c (split_go "," targets 0).

(** ** [main] *)

Definition ping_setup : M D unit :=
  define_ping_opts ;;
  allopt_set "method" (Default (VStr "cycle")) ;;
  allopt_set "method" (Help "-m, --method=[method]          Method to fence (cycle|onoff) (Default: cycle)").

(** The time the pings may take is reserved at the end of the delay. *)
Definition max_pingcheck : M D Z :=
  count ← opt_int "--ping-count";
  interval ← opt_int "--ping-interval";
  timeout ← opt_int "--ping-timeout";
  mret ((count - 1) * interval + timeout)%Z.

Definition ping_fence (fuel : nat) : M D Z :=
  fence_action fuel None None None (Some ping_test) (Some ping_test).

Definition fence_ping_main (fuel : nat) (time_start : Z) (inv : invocation)
    (set_order : list string → list string) : M D unit :=
  ping_setup ;;
  '(avail_opt, opt) ← process_input inv ping_device_opt;
  check_input (inv_env inv) avail_opt opt false ;;
  show_docs (inv_prog inv) set_order (Some ping_docs) ;;
  reserve ← max_pingcheck;
  run_delay time_start reserve 0 ;;
  result ← ping_fence fuel;
  run_delay time_start 0 result ;;
  sys_exit result.
End Ping.
