(* ===== verification/WatchSpec.v ===== *)
(** * What fence_heuristics_ping and fence_sbd decide

    The verdict of the pings, one target at a time; the timeouts and the state of a node as
    functions of what the program sbd prints. *)

From S2P Require Import Prelude PyStr PyRe OptionDefs Effects Fail Host Input Process Commands.
From S2P Require Import CheckInput Metadata Action TextFacts Scsi Sbd Ping.

Import Host.Mem.
Local Open Scope string_scope.

(** The packets received that an output reports: those of the first line that reports
    any, 0 without such a line; [None] when that line has no number. *)
Definition reported (out : string) : option Z :=
  match head (omap (search packet_count_re) (split_go nl out 0)) with
  | Some m => int_of_str (m_group 1 m)
  | None => Some 0%Z
  end.

(** Did the process of a target end well, with enough answers? *)
Definition answers (c : ping_settings) (q : ping_process) : bool :=
  match q with
  | Some q =>
      (p_status (c_proc q) =? 0)%Z &&
      (pg_good_required c <=? default 0 (reported (p_out (c_proc q))))%Z
  | None => false
  end.

(** The process of a target ends, and what it reports is readable. *)
Definition observable (q : ping_process) : Prop :=
  match q with
  | Some q => is_Some (c_end q) ∧ is_Some (reported (p_out (c_proc q)))
  | None => True
  end.

Definition process_of (p : list (string * ping_process)) (target : string) : ping_process :=
  default None (dict_get target p).

(** The targets that did not answer. *)
Definition silent (c : ping_settings) (p : list (string * ping_process))
    (targets : list string) : list string :=
  filter (λ t, answers c (process_of p t) = false) targets.

Section Verdict.
Context `{Host D}.
Variable build : ping_build.
Implicit Types s : st D.

Lemma scan_output_first lines :
  (scan_output lines).1 = m_group 1 <$> head (omap (search packet_count_re) lines).
Proof.
  induction lines as [|l lines IH]; [done|]. cbn [scan_output omap list_omap].
  by destruct (search packet_count_re l).
Qed.

Lemma read_good_reported q n s :
  p_status (c_proc q) = 0%Z → reported (p_out (c_proc q)) = Some n →
  ∃ q', read_good (D := D) q s = (Ret (n, q'), s).
Proof.
  intros Hst Hr. unfold read_good, reported in *. rewrite Hst, Z.eqb_refl.
  pose proof (scan_output_first (split_go nl (p_out (c_proc q)) 0)) as Hs.
  destruct (scan_output _) as [d rest], (head _) as [m|]; cbn in Hs; subst d; [|by simplify_eq; eauto].
  cbn in Hr. exists (with_output q rest). unfold as_int, py_int. by rewrite Hr.
Qed.

(** One target adds at most its own failure, and touches no other process. *)
Lemma collect_ping_step c p n t s :
  observable (process_of p t) →
  ∃ p' s', collect_ping (D := D) c (p, n) t s =
    (Ret (p', n + (if answers c (process_of p t) then 0 else 1))%Z, s') ∧
    ∀ t', t' ≠ t → process_of p' t' = process_of p t'.
Proof.
  unfold collect_ping, process_of. destruct (default None (dict_get t p)) as [q|] eqn:Hq.
  - intros [[e He] [r Hr]]. cbn [answers]. rewrite Hr. cbn [default].
    assert (∃ s1, wait_process (D := D) q s = (Ret tt, s1)) as [s1 Hw]
      by (unfold wait_process; rewrite He; eauto).
    rewrite (bind_Ret _ _ _ _ _ Hw).
    assert (∃ good q', read_good (D := D) q s1 = (Ret (good, q'), s1) ∧
      (p_status (c_proc q) = 0%Z → good = r)) as (good & q' & Hg & Hgr).
    { destruct (decide (p_status (c_proc q) = 0%Z)) as [H0|H0].
      - destruct (read_good_reported q r s1 H0 Hr) as [q' ?]. eauto.
      - unfold read_good. rewrite (proj2 (Z.eqb_neq _ _) H0). by exists 0%Z, q. }
    rewrite (bind_Ret _ _ _ _ _ Hg). cbv zeta.
    assert (((p_status (c_proc q) =? 0)%Z && (pg_good_required c <=? good)%Z) =
            ((p_status (c_proc q) =? 0)%Z && (pg_good_required c <=? r)%Z)) as ->.
    { destruct (Z.eqb_spec (p_status (c_proc q)) 0); [by rewrite Hgr|done]. }
    destruct (_ && _).
    all: eexists (dict_insert t (Some q') p), _; split;
      [unfold mbind, M_bind, log, modify, mret, M_ret; by rewrite ?Z.add_0_r|].
    all: intros t' Ht'; by rewrite dict_get_insert_ne.
  - intros _. cbn [answers]. eexists p, _. split; [reflexivity|done].
Qed.

Lemma collect_pings c p n targets s :
  NoDup targets → Forall (λ t, observable (process_of p t)) targets →
  ∃ p' s', mfold (collect_ping (D := D) c) (p, n) targets s =
    (Ret (p', n + Z.of_nat (length (silent c p targets)))%Z, s').
Proof.
  intros Hn. revert p n s. induction Hn as [|t targets Ht Hn IH]; intros p n s Ho.
  { exists p, s. cbn. by rewrite Z.add_0_r. }
  apply Forall_cons in Ho as [Hot Ho].
  destruct (collect_ping_step c p n t s Hot) as (p1 & s1 & H1 & Hframe).
  assert (∀ t', t' ∈ targets → process_of p1 t' = process_of p t') as Hsame.
  { intros t' Ht'. apply Hframe. congruence. }
  destruct (IH p1 (n + (if answers c (process_of p t) then 0 else 1))%Z s1) as (p2 & s2 & H2).
  { apply Forall_forall. intros t' Ht'. rewrite Hsame by done. by eapply Forall_forall in Ho. }
  exists p2, s2. cbn [mfold]. rewrite (bind_Ret _ _ _ _ _ H1), H2. f_equal. f_equal. f_equal.
  assert (silent c p1 targets = silent c p targets) as ->.
  { clear - Hsame. unfold silent. induction targets as [|t' l IHl]; [done|].
    rewrite !filter_cons, IHl by (intros; apply Hsame; by constructor).
    rewrite (Hsame t') by constructor. done. }
  unfold silent at 2. rewrite filter_cons. fold (silent c p targets).
  destruct (answers c (process_of p t)); case_decide; try done; cbn [length]; lia.
Qed.

(** The settings are the numbers that the options give. *)
Record ping_numbers (c : ping_settings) s : Prop := PingNumbers {
  pn_timeout : ∃ v, s_opts s !! "--ping-timeout" = Some v ∧ py_int v = inl (pg_timeout c);
  pn_count : ∃ v, s_opts s !! "--ping-count" = Some v ∧ py_int v = inl (pg_count c);
  pn_interval : ∃ v, s_opts s !! "--ping-interval" = Some v ∧ py_int v = inl (pg_interval c);
  pn_good : ∃ v, s_opts s !! "--ping-good-count" = Some v ∧ py_int v = inl (pg_good_required c);
  pn_maxfail : ∃ v, s_opts s !! "--ping-maxfail" = Some v ∧ py_int v = inl (pg_maxfail c)
}.

Lemma read_settings_eq c s : ping_numbers c s → read_settings s = (Ret c, s).
Proof.
  intros [(v1 & H1 & E1) (v2 & H2 & E2) (v3 & H3 & E3) (v4 & H4 & E4) (v5 & H5 & E5)].
  unfold read_settings. rewrite (bind_Ret _ _ _ _ _ (opt_int_eq _ _ _ _ H1 E1)).
  rewrite (bind_Ret _ _ _ _ _ (opt_int_eq _ _ _ _ H2 E2)), (bind_Ret _ _ _ _ _ (opt_int_eq _ _ _ _ H3 E3)).
  rewrite (bind_Ret _ _ _ _ _ (opt_int_eq _ _ _ _ H4 E4)), (bind_Ret _ _ _ _ _ (opt_int_eq _ _ _ _ H5 E5)).
  by destruct c.
Qed.

Lemma targets_verdict c targets s p s1 :
  NoDup targets →
  mfold (start_ping build c) [] targets s = (Ret p, s1) →
  Forall (λ t, observable (process_of p t)) targets →
  (ping_targets build c targets s).1 =
    Ret (Z.of_nat (length (silent c p targets)) <=? pg_maxfail c)%Z.
Proof.
  intros Hn Hstart Ho. unfold ping_targets. rewrite (bind_Ret _ _ _ _ _ Hstart).
  destruct (collect_pings c p 0 targets s1 Hn Ho) as (p' & s2 & H2).
  by rewrite (bind_Ret _ _ _ _ _ H2).
Qed.

(** C37. The verdict of the pings. For "on", [ping_test] is true at once, without a ping.
    For any other action it is false without targets; and when no target of the list is
    given twice and every process ends and can be read, it is true exactly when at most
    [--ping-maxfail] of the targets did not answer with [--ping-good-count] packets. *)
Theorem ping_verdict a s :
  s_opts s !! "--action" = Some (VStr a) →
  (a = "on" → ping_test build s = (Ret true, s)) ∧
  (a ≠ "on" → default (VStr "") (s_opts s !! "--ping-targets") = VStr "" →
     (ping_test build s).1 = Ret false) ∧
  (a ≠ "on" → ∀ text c p s1,
     s_opts s !! "--ping-targets" = Some (VStr text) → text ≠ "" → ping_numbers c s →
     NoDup (split_go "," text 0) →
     mfold (start_ping build c) [] (split_go "," text 0) s = (Ret p, s1) →
     Forall (λ t, observable (process_of p t)) (split_go "," text 0) →
     (ping_test build s).1 =
       Ret (Z.of_nat (length (silent c p (split_go "," text 0))) <=? pg_maxfail c)%Z).
Proof.
  intros Ha. unfold ping_test. rewrite (bind_Ret _ _ _ _ _ (opt_get_eq _ _ _ Ha)).
  split_and!.
  - intros ->. by rewrite bool_decide_true.
  - intros Hne Hnone. rewrite (bool_decide_false (VStr a = VStr "on")) by congruence.
    rewrite (bind_Ret (opt_find _) _ _ _ _ eq_refl), Hnone, bool_decide_true by done. done.
  - intros Hne text c p s1 Ht Htext Hc Hn Hp Ho.
    rewrite (bool_decide_false (VStr a = VStr "on")) by congruence.
    rewrite (bind_Ret (opt_find _) _ _ _ _ eq_refl), Ht.
    rewrite (bool_decide_false (default _ _ = _)) by (cbn; congruence).
    rewrite (bind_Ret _ _ _ _ _ (read_settings_eq c s Hc)), (bind_Ret _ _ _ _ _ (opt_str_eq _ _ _ Ht)).
    by apply (targets_verdict _ _ _ _ s1).
Qed.

(** The address of a target for IPv6 ends at its first colon. *)
Lemma inet6_target_truncated a rest :
  avoids ":" a → PING6_CMD build ≠ "" →
  ping_target_cmd build ("inet6:" +:+ a +:+ ":" +:+ rest) = Some (PING6_CMD build, a).
Proof.
  intros Ha Hb. unfold ping_target_cmd.
  assert (startswith "inet6:" ("inet6:" +:+ a +:+ ":" +:+ rest) = true) as -> by (by destruct a).
  rewrite decide_False by done. do 2 f_equal.
  change (match split1 ":"%char (a +:+ String ":" rest) with
          | Some (x, _) => x | None => a +:+ String ":" rest end = a).
  by rewrite (split1_at ":"%char a rest Ha).
Qed.
End Verdict.

(** ** Concrete runs *)

Definition ten_of_eight : ping_settings := PingSettings 2 10 1 8 0.

Definition ping_output (received : string) : string :=
  "--- statistics ---" +:+ nl +:+ "10 packets transmitted, " +:+ received +:+
  " received, 0% packet loss" +:+ nl.

Definition ping_host (received : string) : Mem.host :=
  Mem.MkHost ∅ "" (Some (Proc (Some 1%Z) 0 (ping_output received) "" "" "")).

Definition ping_build_1 : ping_build := PingBuild "/bin/ping" "/bin/ping" "/bin/ping6".

(** The test before an "off", with two targets. *)
Definition ping_start (received : string) : st Mem.host :=
  set_opts (list_to_map
    [("--action", VStr "off"); ("--ping-targets", VStr "a,inet:b"); ("--ping-timeout", VStr "2");
     ("--ping-count", VStr "10"); ("--ping-interval", VStr "1"); ("--ping-good-count", VStr "8");
     ("--ping-maxfail", VStr "0")]) (Mem.start (ping_host received)).

Definition started (received : string) : list (string * ping_process) :=
  match (mfold (start_ping ping_build_1 ten_of_eight) [] ["a"; "inet:b"] (ping_start received)).1 with
  | Ret p => p
  | _ => []
  end.

(** Nine answers are enough, seven are not. *)
Lemma ping_verdict_witness :
  (ping_test ping_build_1 (ping_start "9")).1 = Ret true ∧
  (ping_test ping_build_1 (ping_start "7")).1 = Ret false.
Proof.
  split.
  - refine (proj2 (proj2 (ping_verdict ping_build_1 "off" (ping_start "9") eq_refl))
      _ "a,inet:b" ten_of_eight (started "9") _ _ _ _ _ _ _); [done|done|done|..].
    + split; eexists; split; reflexivity.
    + closed_dec.
    + apply run_outcome. vm_compute. reflexivity.
    + repeat constructor; vm_compute; eauto.
  - refine (proj2 (proj2 (ping_verdict ping_build_1 "off" (ping_start "7") eq_refl))
      _ "a,inet:b" ten_of_eight (started "7") _ _ _ _ _ _ _); [done|done|done|..].
    + split; eexists; split; reflexivity.
    + closed_dec.
    + apply run_outcome. vm_compute. reflexivity.
    + repeat constructor; vm_compute; eauto.
Defined.

(** A target given twice is read twice: the second time its output is used up, and it
    counts as a failure. *)
Example duplicate_target_fails :
  (ping_targets ping_build_1 ten_of_eight ["a"] (Mem.start (ping_host "9"))).1 = Ret true ∧
  (ping_targets ping_build_1 ten_of_eight ["a"; "a"] (Mem.start (ping_host "9"))).1 = Ret false.
Proof. split; vm_compute; reflexivity. Qed.

(** * What fence_sbd reads from its devices

    The highest timeouts of the headers, and the state of a node: both as functions of
    what the program sbd prints. *)

(** ** The headers *)

Definition is_msgwait (line : string) : bool := contains "msgwait" line.
Definition is_watchdog (line : string) : bool :=
  negb (is_msgwait line) && contains "watchdog" line.

Definition line_number (line : string) : option Z :=
  split_go ":" line 0 !! 1 ≫= int_of_str.

(** The numbers of the lines of a kind. *)
Definition numbers (kind : string → bool) (lines : list string) : list Z :=
  omap line_number (filter (λ l, Is_true (kind l)) lines).

Definition readable (line : string) : Prop :=
  Is_true (is_msgwait line || is_watchdog line) → is_Some (line_number line).

#[export] Instance readable_dec line : Decision (readable line).
Proof. unfold readable. apply _. Defined.

(** The highest of some numbers, -1 when there is none. *)
Definition highest (l : list Z) : Z := foldl Z.max (-1)%Z l.

(** ** The node list *)

Record slot := Slot { sl_id : string; sl_name : string; sl_state : string; sl_sender : string }.

(** A line that "sbd list" prints. *)
Definition slot_line (x : slot) : string :=
  sl_id x +:+ String TAB (sl_name x +:+ String TAB (sl_state x +:+ String TAB (sl_sender x))).

Definition slot_ok (x : slot) : Prop :=
  is_word (sl_id x) ∧ is_word (sl_name x) ∧ is_word (sl_state x) ∧
  all_chars (λ c, negb (is_space c)) (sl_sender x) = true.

(** The last line that names a node decides. *)
Definition state_of (plug : string) (slots : list slot) : pyval :=
  match last (filter (λ x, sl_name x = plug) slots) with
  | Some x => VStr (translate_status (sl_state x))
  | None => VStr "UNKWNOWN"
  end.

Section Headers.
Context {D : Type}.
Implicit Types s : st D.

Lemma update_timeout_max what old line n s :
  line_number line = Some n →
  ∃ s', update_timeout (D := D) what old line s = (Ret (Z.max old n), s').
Proof.
  unfold line_number, update_timeout, number_after_colon. destruct (_ !! 1) as [x|]; [|done].
  cbn [mbind option_bind]. intros Hn.
  rewrite (bind_Ret _ _ s n s) by (unfold as_int, py_int; by rewrite Hn).
  destruct (_ && _); eexists; reflexivity.
Qed.

Lemma numbers_cons kind l lines :
  numbers kind (l :: lines) =
  ((if kind l then option_list (line_number l) else []) ++ numbers kind lines)%list.
Proof.
  unfold numbers. rewrite filter_cons.
  destruct (kind l); case_decide as Hk; try (by destruct Hk); [|done].
  cbn. by destruct (line_number l).
Qed.

(** One line updates the highest value of its own kind. *)
Lemma read_header_line_step l m w s :
  readable l →
  ∃ s', read_header_line (D := D) (m, w) l s =
    (Ret (foldl Z.max m (if is_msgwait l then option_list (line_number l) else []),
          foldl Z.max w (if is_watchdog l then option_list (line_number l) else [])), s').
Proof.
  unfold readable, is_watchdog, is_msgwait, read_header_line.
  destruct (contains "msgwait" l); cbn.
  - intros [n Hn]; [done|]. rewrite Hn. destruct (update_timeout_max "message" m l n s Hn) as [s1 H1].
    exists s1. by rewrite (bind_Ret _ _ _ _ _ H1).
  - destruct (contains "watchdog" l); cbn; [|by exists s].
    intros [n Hn]; [done|]. rewrite Hn.
    destruct (update_timeout_max "watchdog" w l n s Hn) as [s1 H1].
    exists s1. by rewrite (bind_Ret _ _ _ _ _ H1).
Qed.

Lemma read_header_lines lines m w s :
  Forall readable lines →
  ∃ s', mfold (read_header_line (D := D)) (m, w) lines s =
    (Ret (foldl Z.max m (numbers is_msgwait lines),
          foldl Z.max w (numbers is_watchdog lines)), s').
Proof.
  intros Hl. revert m w s. induction Hl as [|l lines Hl _ IH]; intros m w s; [by exists s|].
  cbn [mfold]. rewrite !numbers_cons, !foldl_app.
  destruct (read_header_line_step l m w s Hl) as [s1 H1].
  rewrite (bind_Ret _ _ _ _ _ H1). apply IH.
Qed.
End Headers.

(** The tests of a character that only white space fails hold of words. *)
Lemma all_chars_word p w :
  (∀ c, p c = false → is_space c = true) →
  all_chars (λ c, negb (is_space c)) w = true → all_chars p w = true.
Proof.
  intros Hp Hw. unfold all_chars in *. rewrite forallb_forall in *. intros c Hc%Hw.
  bool_hyps. destruct (p c) eqn:E; [done|]. apply Hp in E. congruence.
Qed.

(** A slot line has no white space but its tabs. *)
Lemma slot_line_chars p x :
  p TAB = true → (∀ c, p c = false → is_space c = true) → slot_ok x →
  all_chars p (slot_line x) = true.
Proof.
  intros Htab Hp ((_ & Hi) & (_ & Hn) & (_ & Ht) & Hs). unfold slot_line.
  assert (∀ c s, all_chars p (String c s) = p c && all_chars p s) as Hcons by done.
  by rewrite !all_chars_app, !Hcons, !all_chars_app, Hcons, !Htab, all_chars_app, Hcons, Htab,
    !all_chars_word by done.
Qed.

Section Nodes.
Context `{Host D}.
Variable set_iter : list child → list child.
Variable poll_fuel : nat.
Implicit Types s : st D.

(** The timeouts of the headers: when the lines about them can be read, the result
    is the highest message timeout and the highest watchdog timeout of all devices, -1
    without any; a line that mentions both counts for the message timeout. *)
Theorem header_timeouts_are_highest s cmd s1 st o e s2 :
  generate_sbd_command "dump" None s = (Ret cmd, s1) →
  sbd_run_commands set_iter poll_fuel cmd s1 = (Ret (st, o, e), s2) →
  let lines := (split_go nl o 0 ++ split_go nl e 0)%list in
  Forall readable lines →
  (get_sbd_header_timeout set_iter poll_fuel s).1 =
    Ret (highest (numbers is_msgwait lines), highest (numbers is_watchdog lines)).
Proof.
  intros Hc Hr lines Hl. unfold get_sbd_header_timeout.
  rewrite (bind_Ret _ _ _ _ _ Hc), (bind_Ret _ _ _ _ _ Hr).
  destruct (read_header_lines lines (-1) (-1) s2 Hl) as [s' Hs]. exact (f_equal fst Hs).
Qed.

Lemma split_slot_line x :
  slot_ok x → ∃ rest, split_ws (slot_line x) = sl_id x :: sl_name x :: sl_state x :: rest.
Proof.
  intros (Hid & Hname & Hstate & _). unfold slot_line. rewrite !split_ws_word by done. eauto.
Qed.

Lemma slot_line_dumped x : slot_ok x → contains "NOT dumped" (slot_line x) = false.
Proof.
  intros Hx. apply (contains_without (λ c, negb (bool_decide (c = " "%char)))); [|done].
  apply slot_line_chars; [done| |done]. intros c. by case_bool_decide; [subst|].
Qed.

Lemma slot_line_one_line x :
  slot_ok x → all_chars (λ c, negb (bool_decide (c = NL))) (slot_line x) = true.
Proof.
  intros Hx. apply slot_line_chars; [done| |done]. intros c. by case_bool_decide; [subst|].
Qed.

Definition add_slot (nodes : outlets) (x : slot) : outlets :=
  dict_insert (sl_name x) (sl_name x, Some (translate_status (sl_state x))) nodes.

Lemma read_node_lines_slots slots nodes s :
  Forall slot_ok slots →
  read_node_lines (D := D) (map slot_line slots ++ [""]) nodes s =
    (Ret (foldl add_slot nodes slots), s).
Proof.
  intros Hs. revert nodes. induction Hs as [|x slots Hx _ IH]; intros nodes; [done|].
  cbn [map app read_node_lines]. rewrite bool_decide_false.
  - rewrite slot_line_dumped by done. destruct (split_slot_line x Hx) as [rest ->]. apply IH.
  - destruct Hx as ([Hid _] & _). unfold slot_line. by destruct (sl_id x).
Qed.

Lemma foldl_add_slot plug slots nodes :
  dict_get plug (foldl add_slot nodes slots) =
  match last (filter (λ x, sl_name x = plug) slots) with
  | Some x => Some (sl_name x, Some (translate_status (sl_state x)))
  | None => dict_get plug nodes
  end.
Proof.
  induction slots as [|x slots IH] using rev_ind; [done|].
  rewrite foldl_app, filter_app, filter_cons. cbn [foldl]. unfold add_slot at 1.
  case_decide as Hx; cbn.
  - by rewrite last_snoc, <- Hx, dict_get_insert.
  - by rewrite app_nil_r, dict_get_insert_ne.
Qed.

(** The state of a node: what the last line of the lists of all devices that names
    it says, "off" as soon as a message to reset or to turn off is pending in that slot. *)
Theorem sbd_state_of_plug slots s plug cmd s1 st e s2 :
  s_opts s !! "--plug" = Some (VStr plug) →
  generate_sbd_command "list" None s = (Ret cmd, s1) →
  sbd_run_commands set_iter poll_fuel cmd s1 =
    (Ret (st, join nl (map slot_line slots ++ [""]), e), s2) →
  Forall slot_ok slots →
  (sbd_get_power_status set_iter poll_fuel s).1 = Ret (state_of plug slots).
Proof.
  intros Hp Hc Hr Hs. unfold sbd_get_power_status, get_node_list.
  rewrite (bind_Ret _ _ _ _ _ (opt_str_eq _ _ _ Hp)).
  rewrite (bind_Ret _ _ s (foldl add_slot [] slots) s2).
  - rewrite foldl_add_slot. unfold state_of. by destruct (last _).
  - rewrite (bind_Ret _ _ _ _ _ Hc), (bind_Ret _ _ _ _ _ Hr).
    rewrite (split_go_join NL); [by apply read_node_lines_slots|by destruct slots|].
    apply Forall_app. split; [|by repeat constructor].
    apply Forall_map. eapply Forall_impl; [exact Hs|]. exact slot_line_one_line.
Qed.
End Nodes.

(** ** Concrete runs *)

Definition sbd_options : gmap string pyval :=
  <["--devices" := VStr "/dev/vdb"]> (<["--sbd-path" := VStr "/usr/sbin/sbd"]>
  (<["--plug" := VStr "node2"]> ∅)).

(** A host on which sbd prints [out]. *)
Definition sbd_start (out : string) : st Mem.host :=
  St sbd_options ∅ [] 0 (Mem.MkHost ∅ "" (Some (Proc (Some 1000%Z) 0 out "" "" ""))).

Definition header : string :=
  "Timeout (watchdog) : 5" +:+ nl +:+ "Timeout (msgwait)  : 10" +:+ nl +:+ "Slots : 255".

Definition ask_sbd (what : string) : M Mem.host (Z * string * string) :=
  sbd_run_commands (λ l, l) 9 ["/usr/sbin/sbd -d /dev/vdb " +:+ what +:+ " None"].

Lemma header_timeouts_are_highest_witness :
  (get_sbd_header_timeout (λ l, l) 9 (sbd_start header)).1 = Ret (10, 5)%Z.
Proof.
  refine (header_timeouts_are_highest (λ l, l) 9 (sbd_start header) _ (sbd_start header)
    0 header "" (ask_sbd "dump" (sbd_start header)).2 _ _ _).
  - vm_compute. reflexivity.
  - apply (run_outcome (ask_sbd "dump")). vm_compute. reflexivity.
  - closed_dec.
Defined.

(** Two devices; on the second a message waits for node2. *)
Definition slots_of_two : list slot :=
  [Slot "0" "node1" "clear" ""; Slot "1" "node2" "clear" "";
   Slot "0" "node1" "clear" ""; Slot "1" "node2" "reset" "node1"].

Definition listing : string := join nl (map slot_line slots_of_two ++ [""]).

Lemma sbd_state_of_plug_witness :
  (sbd_get_power_status (λ l, l) 9 (sbd_start listing)).1 = Ret (VStr "off").
Proof.
  refine (sbd_state_of_plug (λ l, l) 9 slots_of_two (sbd_start listing) "node2" _
    (sbd_start listing) 0 "" (ask_sbd "list" (sbd_start listing)).2 _ _ _ _).
  - reflexivity.
  - vm_compute. reflexivity.
  - apply (run_outcome (ask_sbd "list")). vm_compute. reflexivity.
  - repeat (apply Forall_cons; split; [repeat split; done|]). apply Forall_nil_2.
Defined.
