(* ===== verification/Ipmilan.v ===== *)
(** * The agent fence_ipmilan

    [agents/ipmilan/fence_ipmilan.py]: builds a command line for ipmitool from the
    options, once to run and once to log, runs it, and reads the answer. *)

From S2P Require Import Prelude PyStr PyRe OptionDefs Effects Fail Host Input Process CheckInput.
From S2P Require Import Login Metadata Action.

Local Open Scope string_scope.

(** ** [shlex.quote] *)

Definition is_safe (c : ascii) : bool :=
  is_digit c || is_lower c || is_upper c ||
  bool_decide (c ∈ String.list_ascii_of_string "_@%+=:,./-").

(** A text with an unsafe character goes into single quotes, and a single quote in it
    into double quotes. *)
Definition quote (s : string) : string :=
  if bool_decide (s = "") then "''"
  else if forallb is_safe (String.list_ascii_of_string s) then s
  else "'" +:+ replace "'" ("'" +:+ dq +:+ "'" +:+ dq +:+ "'") s +:+ "'".

(** ** Command lines *)

(** [Cmd.cmd] and [Cmd.log] *)
Record Cmd := MkCmd { cmd : string; cmd_log : string }.

Definition no_cmd : Cmd := MkCmd "" "".

(** [Cmd.append(text)] and [Cmd.append(text, log)] *)
Definition append (c : Cmd) (text : string) : Cmd := MkCmd (cmd c +:+ text) (cmd_log c +:+ text).
Definition append_as (c : Cmd) (text log : string) : Cmd :=
  MkCmd (cmd c +:+ text) (cmd_log c +:+ log).

(** Adding an option to a text. *)
Definition concat_str {D} (v : pyval) : M D string :=
  match v with
  | VStr x => mret x
  | _ => raise (TypeError "can only concatenate str to str")
  end.

(** [Cmd.append(flag + options[k])] *)
Definition append_opt {D} (flag k : string) (c : Cmd) : M D Cmd :=
  v ← opt_get k; x ← concat_str v; mret (append c (flag +:+ x)).

(** The same if the option is set. *)
Definition append_if {D} (c : Cmd) (item : string * string) : M D Cmd :=
  given ← opt_has item.2;
  if (given : bool) then append_opt item.1 item.2 c else mret c.

Definition use_lanplus {D} : M D bool :=
  v ← opt_find "--lanplus";
  mret (bool_decide (v ∈ [Some (VStr ""); Some (VStr "1")])).

Definition append_username {D} (c : Cmd) : M D Cmd :=
  v ← opt_find "--username";
  match v with
  | Some v =>
      x ← concat_str v;
      mret (if bool_decide (x = "") then c else append c (" -U " +:+ quote x))
  | None => mret c
  end.

(** The password is not logged. *)
Definition append_password {D} (c : Cmd) : M D Cmd :=
  v ← opt_find "--password";
  match v with
  | Some v => x ← concat_str v; mret (append_as c (" -P " +:+ quote x) " -P [set]")
  | None => mret (append_as c " -P ''" " -P [set]")
  end.

Definition verbose_flag {D} : M D string :=
  level ← opt_get "--verbose-level";
  match level with
  | VInt n => mret (if (1 <? n)%Z then " -" +:+ repeat_str "v" (Z.to_nat (n - 1)) else "")
  | _ => raise (TypeError "'>' not supported")
  end.

Definition create_command {D} (action : string) : M D Cmd :=
  sudo ← opt_has "--use-sudo";
  c ← (if (sudo : bool) then
         v ← opt_get "--sudo-path"; x ← concat_str v; mret (append no_cmd (x +:+ " "))
       else mret no_cmd);
  c ← append_opt "" "--ipmitool-path" c;
  lanplus ← use_lanplus;
  let c := append c (if (lanplus : bool) then " -I lanplus" else " -I lan") in
  c ← append_opt " -H " "--ip" c;
  c ← append_if c (" -p ", "--ipport");
  c ← append_if c (" -t ", "--target");
  c ← append_username c;
  c ← append_if c (" -A ", "--auth");
  c ← append_password c;
  c ← mfold append_if c [(" -C ", "--cipher"); (" -L ", "--privlvl");
                         (" -y ", "--hexadecimal-kg"); (" -N ", "--ipmitool-timeout")];
  let c := append c (" chassis power " +:+ action) in
  v ← verbose_flag;
  mret (append c v).

(** ** Running ipmitool *)

Section Ipmi.
Context `{Host D}.

Definition ipmi_run_command (action : string) : M D (Z * string * string) :=
  c ← create_command action;
  run_command (cmd c) None None (Some (cmd_log c)).

(** [str] of the tuple that [run_command] gives *)
Definition result_str (r : Z * string * string) : string :=
  "(" +:+ str_of_Z r.1.1 +:+ ", " +:+ py_repr r.1.2 +:+ ", " +:+ py_repr r.2 +:+ ")".

(** [[Cc]hassis [Pp]ower is [\s]*([a-zA-Z]{2,3})] *)
Definition letter : re := Chr (λ c, is_lower c || is_upper c).
Definition chassis_power_re : re :=
  Seqs [Alt (Lit "C") (Lit "c"); Lit "hassis "; Alt (Lit "P") (Lit "p"); Lit "ower is ";
        Many Space; Group 1 (Seqs [letter; letter; Opt letter])].

Definition status_of_output (output : string) : pyval :=
  match search chassis_power_re output with
  | Some m => VStr (m_group 1 m)
  | None => VNone
  end.

Definition ipmi_get_power_status : M D pyval :=
  output ← ipmi_run_command "status"; mret (status_of_output (result_str output)).

Definition ipmi_set_power_status : M D unit :=
  v ← opt_get "--action"; action ← concat_str v;
  ipmi_run_command action ;; mret tt.

Definition control_re (what : string) : re := Lit ("chassis power control: " +:+ what).

Definition ipmi_reboot_cycle : M D bool :=
  output ← ipmi_run_command "cycle"; mret (found (control_re "cycle") (lower (result_str output))).

Definition ipmi_reboot_diag : M D bool :=
  output ← ipmi_run_command "diag"; mret (found (control_re "diag") (lower (result_str output))).

(** ** [main] *)

Definition ipmi_opts : list (string * optdef) := [
  ("lanplus", opt [Getopt "P";
     Longopt "lanplus";
     Help "-P, --lanplus                  Use Lanplus to improve security of connection";
     Required "0";
     Default (VStr "0");
     Shortdesc "Use Lanplus to improve security of connection";
     Order 1]);
  ("auth", opt [Getopt "A:";
     Longopt "auth";
     Help "-A, --auth=[auth]              IPMI Lan Auth type (md5|password|none)";
     Required "0";
     Shortdesc "IPMI Lan Auth type.";
     Choices ["md5"; "password"; "none"];
     Order 1]);
  ("cipher", opt [Getopt "C:";
     Longopt "cipher";
     Help "-C, --cipher=[cipher]          Ciphersuite to use (same as ipmitool -C parameter)";
     Required "0";
     Shortdesc "Ciphersuite to use (same as ipmitool -C parameter)";
     Order 1]);
  ("privlvl", opt [Getopt "L:";
     Longopt "privlvl";
     Help "-L, --privlvl=[level]          Privilege level on IPMI device (callback|user|operator|administrator)";
     Required "0";
     Shortdesc "Privilege level on IPMI device";
     Default (VStr "administrator");
     Choices ["callback"; "user"; "operator"; "administrator"];
     Order 1]);
  ("ipmitool_path", opt [Getopt ":";
     Longopt "ipmitool-path";
     Help "--ipmitool-path=[path]         Path to ipmitool binary";
     Required "0";
     Shortdesc "Path to ipmitool binary";
     Default (VStr "@IPMITOOL_PATH@");
     Order 200]);
  ("ipmitool_timeout", opt [Getopt ":";
     Longopt "ipmitool-timeout";
     Help "--ipmitool-timeout=[timeout]         Timeout (sec) for IPMI operation";
     Required "0";
     Shortdesc "Timeout (sec) for IPMI operation";
     Default (VStr "2");
     Order 201]);
  ("target", opt [Getopt ":";
     Longopt "target";
     Help "--target=[targetaddress]       Bridge IPMI requests to the remote target address";
     Required "0";
     Shortdesc "Bridge IPMI requests to the remote target address";
     Order 1]);
  ("hexadecimal_kg", opt [Getopt ":";
     Longopt "hexadecimal-kg";
     Help "--hexadecimal-kg=[key]         Hexadecimal-encoded Kg key for IPMIv2 authentication";
     Required "0";
     Shortdesc "Hexadecimal-encoded Kg key for IPMIv2 authentication";
     Order 1])
].

Definition define_ipmi_opts : M D unit :=
  mfor ipmi_opts (λ kd, modify (λ s, set_allopt (<[kd.1 := kd.2]> (s_allopt s)) s)).

Definition ipmi_device_opt : list string :=
  ["ipaddr"; "login"; "no_login"; "no_password"; "passwd";
   "diag"; "lanplus"; "auth"; "cipher"; "privlvl"; "sudo";
   "ipmitool_path"; "ipmitool_timeout"; "method"; "target"; "hexadecimal_kg"].

Definition onoff_warning : string :=
  "WARNING! This fence agent might report success before the node is powered off. You should use -m/method onoff if your fence device works correctly with that option.".

(** The defaults depend on the name under which the agent is called. *)
Definition ipmi_setup (prog : string) : M D unit :=
  define_ipmi_opts ;;
  allopt_set "power_wait" (Default (VInt 2)) ;;
  (if bool_decide (basename prog = "fence_ilo3") then
     allopt_set "power_wait" (Default (VStr "4")) ;; allopt_set "lanplus" (Default (VStr "1"))
   else mwhen (bool_decide (basename prog ∈ ["fence_ilo4"; "fence_ilo5"; "fence_ipmilanplus"]))
     (allopt_set "lanplus" (Default (VStr "1")))) ;;
  allopt_set "ipport" (Default (VStr "623")) ;;
  allopt_set "method" (Help ("-m, --method=[method]          Method to fence (onoff|cycle) (Default: onoff)" +:+ nl +:+ onoff_warning)).

Definition ipmi_docs (prog : string) : docs := Docs
  (basename prog +:+ " is a Power Fencing agent which can be used with machines controlled by IPMI. This agent calls support software ipmitool (http://ipmitool.sf.net/)." +:+ nl +:+ ".P" +:+ nl +:+ onoff_warning)
  "Fence agent for IPMI" (Some "")
  [("fence_ilo3", "Fence agent for HP iLO3"); ("fence_ilo4", "Fence agent for HP iLO4");
   ("fence_ilo5", "Fence agent for HP iLO5");
   ("fence_ipmilanplus", "Fence agent for IPMIv2 lanplus");
   ("fence_imm", "Fence agent for IBM Integrated Management Module");
   ("fence_idrac", "Fence agent for Dell iDRAC")]
  (Some "fence_ipmilan").

(** "diag" is carried out as the cycle of a reboot. *)
Definition ipmi_reboot_fn : M D (M D bool) :=
  action ← opt_get "--action";
  if decide (action = VStr "diag") then
    opt_set "--action" (VStr "reboot") ;;
    opt_set "--method" (VStr "cycle") ;;
    mret ipmi_reboot_diag
  else mret ipmi_reboot_cycle.

Definition ipmi_fence (fuel : nat) : M D Z :=
  reboot_fn ← ipmi_reboot_fn;
  fence_action fuel (Some ipmi_set_power_status) (Some ipmi_get_power_status) None (Some reboot_fn) None.

Definition fence_ipmilan_main (fuel : nat) (time_start : Z) (inv : invocation)
    (set_order : list string → list string) : M D unit :=
  ipmi_setup (inv_prog inv) ;;
  '(avail_opt, opt) ← process_input inv ipmi_device_opt;
  check_input (inv_env inv) avail_opt opt false ;;
  show_docs (inv_prog inv) set_order (Some (ipmi_docs (inv_prog inv))) ;;
  run_delay time_start 0 0 ;;
  path ← opt_str "--ipmitool-path";
  executable ← is_executable path;
  mwhen (negb executable) (fail_usage "Ipmitool not found or not accessible" true) ;;
  result ← ipmi_fence fuel;
  sys_exit result.
End Ipmi.
