(* ===== verification/WordsSpec.v ===== *)
(** * What arrives on a command line

    The command lines of net-snmp and of ipmitool split into the words they were made of,
    and the log holds no password. *)

From S2P Require Import Prelude PyStr PyRe OptionDefs Effects Fail Host Input Process Login Snmp.
From S2P Require Import TextFacts Ipmilan.

Local Open Scope string_scope.

(** ** Splitting a command line *)

(** Splitting goes on independently after a space. *)
Lemma shlex_go_app a b st tok q ws :
  shlex_go a st tok q = inl ws →
  shlex_go (a +:+ String " " b) st tok q =
  match shlex_split b with inl ws' => inl (ws ++ ws')%list | inr e => inr e end.
Proof.
  unfold shlex_split. revert st tok q ws. induction a as [|c a IH]; intros st tok q ws.
  - change ("" +:+ String " " b) with (String " " b). cbn [shlex_go].
    destruct st; try done.
    + intros [= <-]. by destruct (shlex_go b ShBlank "" false).
    + intros [= <-]. by destruct (shlex_go b ShBlank "" false).
  - change (String c a +:+ String " " b) with (String c (a +:+ String " " b)). cbn [shlex_go].
    destruct st as [| |qc|back].
    + repeat case_match; apply IH.
    + destruct (is_shlex_space c).
      * destruct (shlex_go a ShBlank "" false) as [ws1|] eqn:E; [|done]. intros [= <-].
        rewrite (IH _ _ _ _ E). destruct (shlex_go b ShBlank "" false); [by rewrite app_assoc|done].
      * repeat case_match; apply IH.
    + repeat case_match; apply IH.
    + apply IH.
Qed.

Lemma shlex_split_app a b ws ws' :
  shlex_split a = inl ws → shlex_split b = inl ws' →
  shlex_split (a +:+ String " " b) = inl (ws ++ ws')%list.
Proof. intros Ha Hb. unfold shlex_split at 1. by rewrite (shlex_go_app _ _ _ _ _ _ Ha), Hb. Qed.

Lemma quote_cons c s :
  quote_for_run (String c s) =
  (if bool_decide (c = SQ) then "'" +:+ str1 BS +:+ "''" else str1 c) +:+ quote_for_run s.
Proof.
  unfold quote_for_run, replace. change "'" with (str1 SQ) at 1 2. cbn [replace_go].
  rewrite prefix_str1. by case_bool_decide.
Qed.

Lemma quote_app a b : quote_for_run (a +:+ b) = quote_for_run a +:+ quote_for_run b.
Proof.
  induction a as [|c a IH]; [done|]. change (String c a +:+ b) with (String c (a +:+ b)).
  by rewrite !quote_cons, IH, str_app_assoc.
Qed.

(** Inside single quotes, the quoted form of [s] adds exactly [s] to the word. *)
Lemma shlex_go_quoted s rest tok :
  shlex_go (quote_for_run s +:+ String SQ rest) (ShQuote SQ) tok true =
  shlex_go rest ShWord (tok +:+ s) true.
Proof.
  revert tok. induction s as [|c s IH]; intros tok.
  - change (quote_for_run "") with "". change ("" +:+ String SQ rest) with (String SQ rest).
    cbn [shlex_go]. rewrite bool_decide_true by done. by rewrite str_app_nil.
  - rewrite quote_cons, <- str_app_assoc.
    assert (tok +:+ String c s = (tok +:+ str1 c) +:+ s) as -> by (by rewrite <- str_app_assoc).
    case_bool_decide as Hc.
    + subst c. rewrite <- IH. reflexivity.
    + change (str1 c +:+ ?x) with (String c x). cbn [shlex_go].
      rewrite (bool_decide_false (c = SQ)) by done.
      rewrite (bool_decide_false (SQ = DQ)), andb_false_r by done. apply IH.
Qed.

(** The text of one value on the command line. *)
Definition in_quotes (s : string) : string := "'" +:+ quote_for_run s +:+ "'".

Lemma shlex_in_quotes s : shlex_split (in_quotes s) = inl [s].
Proof.
  unfold shlex_split, in_quotes. change ("'" +:+ ?x) with (String SQ x). 
  cbn [shlex_go]. change (is_shlex_space SQ) with false. change (is_quote SQ) with true.
  rewrite (bool_decide_false (SQ = BS)) by done.
  transitivity (shlex_go (quote_for_run s +:+ String SQ "") (ShQuote SQ) "" true).
  { by destruct (quote_for_run s). }
  rewrite shlex_go_quoted. reflexivity.
Qed.

(** ** The words of a command *)

(** The words that a table of flags adds. *)
Definition flag_words {D} (s : st D) (mapping : list (string * string)) : list string :=
  mapping ≫= λ item,
    match s_opts s !! ("--" +:+ item.1) with
    | Some (VStr x) => ["-" +:+ item.2; x]
    | _ => []
    end.

(** Flags are plain words. *)
Definition plain_flags (mapping : list (string * string)) : Prop :=
  Forall (λ item, shlex_split ("-" +:+ item.2) = inl ["-" +:+ item.2]) mapping.

Lemma plain_flags_all : plain_flags mapping_all.
Proof. repeat constructor. Qed.

Lemma plain_flags_v3 : plain_flags mapping_v3.
Proof. repeat constructor. Qed.

Lemma flag_text cmd flag x ws :
  shlex_split cmd = inl ws → shlex_split ("-" +:+ flag) = inl ["-" +:+ flag] →
  shlex_split (cmd +:+ " -" +:+ flag +:+ " '" +:+ quote_for_run x +:+ "'") =
  inl (ws ++ ["-" +:+ flag; x])%list.
Proof.
  intros Hc Hf.
  assert (cmd +:+ " -" +:+ flag +:+ " '" +:+ quote_for_run x +:+ "'" =
    cmd +:+ String " " (("-" +:+ flag) +:+ String " " (in_quotes x))) as ->
    by (unfold in_quotes; by rewrite <- !str_app_assoc).
  apply shlex_split_app; [done|].
  by rewrite (shlex_split_app _ _ _ _ Hf (shlex_in_quotes x)).
Qed.

Section Words.
Context `{Terminal D}.
Implicit Types s : st D.

Lemma add_flags_words mapping cmd s cmd' s' ws :
  plain_flags mapping → add_flags mapping cmd s = (Ret cmd', s') → shlex_split cmd = inl ws →
  s' = s ∧ shlex_split cmd' = inl (ws ++ flag_words s mapping)%list.
Proof.
  unfold add_flags, flag_words. intros Hplain. revert cmd ws.
  induction Hplain as [|item mapping Hi _ IH]; intros cmd ws.
  { intros [= <- <-] ->. by rewrite app_nil_r. }
  intros (cmd1 & s1 & (v & s0 & Hv & Hr)%bind_Ret_inv & H2)%mfold_cons_Ret_inv Hc.
  minv Hv. cbn [mbind list_bind]. destruct (s_opts s !! ("--" +:+ item.1)) as [v|].
  - apply bind_Ret_inv in Hr as (x & s0 & [-> ->]%as_str_Ret_inv & Hr). minv Hr.
    destruct (IH _ _ H2 (flag_text _ _ _ _ Hc Hi)) as [-> Hw]. split; [done|].
    by rewrite Hw, <- app_assoc.
  - minv Hr. by destruct (IH _ _ H2 Hc) as [-> Hw].
Qed.

(** [udp6:], [udp:] or nothing. *)
Definition transport (s : st D) : string :=
  if bool_decide (is_Some (s_opts s !! "--inet4-only")) then "udp:"
  else if bool_decide (is_Some (s_opts s !! "--inet6-only")) then "udp6:" else "".

Definition address (s : st D) (ip : string) : string :=
  transport s +:+ ip +:+
  match s_opts s !! "--ipport" with Some v => ":" +:+ py_str v | None => "" end.

Definition version_3 (s : st D) : bool := bool_decide (s_opts s !! "--snmp-version" = Some (VStr "3")).

(** C30. The command line that the SNMP class builds splits into exactly the expected
    words: the program, the fixed options, a flag and its value for each option that is
    set (those of version 3 only when version 3 is asked for), and the address. No value,
    whatever its quotes, spaces and backslashes, can add or remove a word. *)
Theorem snmp_command_words path s cmd s' pws :
  prepare_cmd path s = (Ret cmd, s') → shlex_split path = inl pws →
  ∃ ip, s_opts s' !! "--ip" = Some (VStr ip) ∧
    shlex_split cmd =
    inl (pws ++ ["-m"; ""; "-Oeqn"] ++ flag_words s' mapping_all ++
         (if version_3 s' then flag_words s' mapping_v3 else []) ++ [address s' ip])%list.
Proof.
  intros Hr Hp. unfold prepare_cmd in Hr. cbv zeta in Hr.
  apply bind_Ret_inv in Hr as (u & s1 & _ & Hr).
  assert (shlex_split (path +:+ " -m '' -Oeqn ") = inl (pws ++ ["-m"; ""; "-Oeqn"])%list) as Hw0
    by exact (shlex_split_app path "-m '' -Oeqn " pws _ Hp eq_refl).
  apply bind_Ret_inv in Hr as (c1 & s2 & H1 & Hr).
  destruct (add_flags_words _ _ _ _ _ _ plain_flags_all H1 Hw0) as [-> Hw1].
  apply bind_Ret_inv in Hr as (v & s2 & Hv & Hr). minv Hv.
  apply bind_Ret_inv in Hr as (c2 & s2 & H2 & Hr).
  assert (s2 = s1 ∧ shlex_split c2 = inl ((pws ++ ["-m"; ""; "-Oeqn"]) ++ flag_words s1 mapping_all ++
    (if version_3 s1 then flag_words s1 mapping_v3 else []))%list) as [-> Hw2].
  { unfold version_3. case_bool_decide.
    - destruct (add_flags_words _ _ _ _ _ _ plain_flags_v3 H2 Hw1) as [-> Hw2].
      by rewrite Hw2, <- app_assoc.
    - minv H2. by rewrite app_nil_r. }
  apply bind_Ret_inv in Hr as (t & s2 & H3 & Hr).
  assert (t = transport s1 ∧ s2 = s1) as [-> ->] by (unfold udp_prefix in H3; by minv H3).
  minv Hr. exists a. split; [done|].
  assert (∀ x, quote_for_run (transport x) = transport x) as Ht
    by (intros x; unfold transport; by repeat case_match).
  change " '" with (String " " "'").
  transitivity (shlex_split (c2 +:+ String " " (in_quotes (address s1 a)))).
  - f_equal. f_equal. unfold in_quotes, address. rewrite !quote_app, Ht.
    change (String " " "'" +:+ ?x) with (String " " ("'" +:+ x)). rewrite <- !str_app_assoc.
    by destruct (s_opts s1 !! "--ipport").
  - rewrite (shlex_split_app _ _ _ _ Hw2 (shlex_in_quotes _)). by rewrite <- !app_assoc.
Qed.

End Words.

(** A community string with a quote, a space and a backslash. *)
Definition nasty : string := "pub'lic; rm -rf " +:+ str1 BS +:+ "x".
Definition snmp_options : st unit :=
  St (list_to_map [("--community", VStr nasty); ("--ip", VStr "pdu"); ("--ipport", VStr "161")])
     ∅ [] 0 tt.

Lemma snmp_command_words_witness :
  ∃ cmd, (prepare_cmd "/usr/bin/snmpget" snmp_options).1 = Ret cmd ∧
    shlex_split cmd =
    inl ["/usr/bin/snmpget"; "-m"; ""; "-Oeqn"; "-v"; "2c"; "-c"; nasty; "pdu:161"].
Proof.
  destruct (prepare_cmd "/usr/bin/snmpget" snmp_options) as [[cmd|e|] s'] eqn:E;
    [|vm_compute in E; discriminate E..].
  exists cmd. split; [reflexivity|].
  destruct (snmp_command_words "/usr/bin/snmpget" snmp_options cmd s' ["/usr/bin/snmpget"])
    as (ip & Hip & Hw); [exact E|vm_compute; reflexivity|].
  assert (s' = (prepare_cmd "/usr/bin/snmpget" snmp_options).2) as -> by (by rewrite E).
  assert (ip = "pdu") as -> by (vm_compute in Hip; congruence).
  rewrite Hw. vm_compute. reflexivity.
Defined.

(** * The command lines of fence_ipmilan

    What the command runs is exactly the expected words, whatever characters the user
    name and the password have; what it logs does not depend on the password. *)

(** ** [shlex.quote] and [shlex.split] *)

Lemma safe_char c : is_safe c = true →
  is_shlex_space c = false ∧ is_quote c = false ∧ bool_decide (c = BS) = false.
Proof. destruct c as [[] [] [] [] [] [] [] []]; vm_compute; intuition congruence. Qed.

(** Safe characters go into the current word. *)
Lemma shlex_go_safe s tok q :
  all_chars is_safe s = true → tok +:+ s ≠ "" → shlex_go s ShWord tok q = inl [tok +:+ s].
Proof.
  revert tok. induction s as [|c s IH]; intros tok Hs Hne.
  - rewrite str_app_nil in *. cbn. rewrite bool_decide_false by done. by rewrite orb_true_r.
  - change (all_chars is_safe (String c s)) with (is_safe c && all_chars is_safe s) in Hs.
    apply andb_true_iff in Hs as [Hc Hs]. destruct (safe_char c Hc) as (H1 & H2 & H3).
    cbn [shlex_go]. rewrite H1, H2, H3.
    assert (tok +:+ String c s = (tok +:+ str1 c) +:+ s) as -> by (by rewrite <- str_app_assoc).
    apply IH; [done|]. destruct tok; done.
Qed.

Definition escaped_quote : string := "'" +:+ dq +:+ "'" +:+ dq +:+ "'".

Lemma replace_quote_cons c s :
  replace "'" escaped_quote (String c s) =
  (if bool_decide (c = SQ) then escaped_quote else str1 c) +:+ replace "'" escaped_quote s.
Proof.
  unfold replace. change "'" with (str1 SQ) at 1 2. cbn [replace_go].
  rewrite prefix_str1. by case_bool_decide.
Qed.

(** Inside single quotes, the quoted form of [s] adds exactly [s] to the word. *)
Lemma shlex_go_escaped s rest tok :
  shlex_go (replace "'" escaped_quote s +:+ String SQ rest) (ShQuote SQ) tok true =
  shlex_go rest ShWord (tok +:+ s) true.
Proof.
  revert tok. induction s as [|c s IH]; intros tok.
  - change (replace "'" escaped_quote "") with "". change ("" +:+ String SQ rest) with (String SQ rest).
    cbn [shlex_go]. rewrite bool_decide_true by done. by rewrite str_app_nil.
  - rewrite replace_quote_cons, <- str_app_assoc.
    assert (tok +:+ String c s = (tok +:+ str1 c) +:+ s) as -> by (by rewrite <- str_app_assoc).
    case_bool_decide as Hc.
    + subst c. rewrite <- IH. reflexivity.
    + change (str1 c +:+ ?x) with (String c x). cbn [shlex_go].
      rewrite (bool_decide_false (c = SQ)) by done.
      rewrite (bool_decide_false (SQ = DQ)), andb_false_r by done. apply IH.
Qed.

Lemma shlex_plain s : all_chars is_safe s = true → s ≠ "" → shlex_split s = inl [s].
Proof.
  intros Hs Hne. unfold shlex_split. destruct s as [|c s]; [done|].
  change (all_chars is_safe (String c s)) with (is_safe c && all_chars is_safe s) in Hs.
  apply andb_true_iff in Hs as [Hc Hs]. destruct (safe_char c Hc) as (H1 & H2 & H3).
  cbn [shlex_go]. rewrite H1, H2, H3. by apply (shlex_go_safe s (str1 c)).
Qed.

(** [shlex.split(shlex.quote(s)) == [s]] *)
Lemma shlex_quote s : shlex_split (quote s) = inl [s].
Proof.
  unfold quote. case_bool_decide as He; [by subst s|].
  destruct (forallb is_safe (String.list_ascii_of_string s)) eqn:Hs.
  - by apply shlex_plain.
  - unfold shlex_split. change ("'" +:+ ?x) with (String SQ x). fold escaped_quote.
    cbn [shlex_go]. change (is_shlex_space SQ) with false. change (is_quote SQ) with true.
    rewrite (bool_decide_false (SQ = BS)) by done.
    transitivity (shlex_go (replace "'" escaped_quote s +:+ String SQ "") (ShQuote SQ) "" true).
    { by destruct (replace "'" escaped_quote s). }
    rewrite shlex_go_escaped. reflexivity.
Qed.

(** ** The parts of a command line *)

(** What an option adds when it is set. *)
Definition flag_part {D} (s : st D) (item : string * string) : string :=
  match s_opts s !! item.2 with Some (VStr x) => item.1 +:+ x | _ => "" end.

Definition opt_words {D} (s : st D) (item : string * string) : list string :=
  match s_opts s !! item.2 with Some (VStr x) => [item.1; x] | _ => [] end.

Definition opt_text {D} (s : st D) (k : string) : string :=
  match s_opts s !! k with Some (VStr x) => x | _ => "" end.

Definition sudo_given {D} (s : st D) : bool := bool_decide (is_Some (s_opts s !! "--use-sudo")).

Definition lan_name {D} (s : st D) : string :=
  if bool_decide (s_opts s !! "--lanplus" ∈ [Some (VStr ""); Some (VStr "1")]) then "lanplus" else "lan".

Definition user_part {D} (s : st D) : string :=
  if bool_decide (opt_text s "--username" = "") then "" else " -U " +:+ quote (opt_text s "--username").

Definition verbosity {D} (s : st D) : nat :=
  match s_opts s !! "--verbose-level" with Some (VInt n) => Z.to_nat (n - 1) | _ => O end.

Definition verbose_part {D} (s : st D) : string :=
  match verbosity s with O => "" | S k => " -" +:+ repeat_str "v" (S k) end.

Definition before_password : list (string * string) := [(" -p ", "--ipport"); (" -t ", "--target")].
Definition after_password : list (string * string) :=
  [(" -C ", "--cipher"); (" -L ", "--privlvl"); (" -y ", "--hexadecimal-kg");
   (" -N ", "--ipmitool-timeout")].

(** Everything but the password, before and after it. *)
Definition parts_before {D} (s : st D) : list string :=
  (if sudo_given s then [opt_text s "--sudo-path" +:+ " "] else []) ++
  [opt_text s "--ipmitool-path"; " -I " +:+ lan_name s; " -H " +:+ opt_text s "--ip"] ++
  (flag_part s <$> before_password) ++ [user_part s; flag_part s (" -A ", "--auth")].

Definition parts_after {D} (action : string) (s : st D) : list string :=
  (flag_part s <$> after_password) ++ [" chassis power " +:+ action; verbose_part s].

Definition password_part {D} (s : st D) : string := " -P " +:+ quote (opt_text s "--password").

Definition texts (l : list string) : string := foldr (λ a b, a +:+ b) "" l.

Lemma texts_app l1 l2 : texts (l1 ++ l2) = texts l1 +:+ texts l2.
Proof.
  induction l1 as [|x l1 IH]; [done|].
  change (x +:+ texts (l1 ++ l2) = (x +:+ texts l1) +:+ texts l2). by rewrite IH, str_app_assoc.
Qed.

Lemma append_nothing c : append c "" = c.
Proof. destruct c. unfold append. cbn. by rewrite !str_app_nil. Qed.

Lemma append_append c a b : append (append c a) b = append c (a +:+ b).
Proof. unfold append. cbn. by rewrite <- !str_app_assoc. Qed.

Section Parts.
Context {D : Type}.
Implicit Types s : st D.

Lemma concat_str_Ret_inv v s x s' : concat_str v s = (Ret x, s') → v = VStr x ∧ s' = s.
Proof. destruct v; cbv [concat_str mret M_ret raise]; naive_solver. Qed.

(** The option is set, to a text. *)
Definition given s (k : string) : Prop := ∃ x, s_opts s !! k = Some (VStr x).

Lemma append_opt_Ret_inv flag k c s c' s' :
  append_opt flag k c s = (Ret c', s') →
  (s' = s ∧ c' = append c (flag +:+ opt_text s k)) ∧ given s k.
Proof.
  unfold append_opt, opt_text, given. intros (v & s1 & [Hv ->]%opt_get_Ret_inv & H)%bind_Ret_inv.
  apply bind_Ret_inv in H as (x & s1 & [-> ->]%concat_str_Ret_inv & H). rewrite Hv. minv H. eauto.
Qed.

Lemma append_if_Ret_inv item c s c' s' :
  append_if c item s = (Ret c', s') → s' = s ∧ c' = append c (flag_part s item).
Proof.
  unfold append_if, flag_part. intros (b & s1 & Hb & H)%bind_Ret_inv. minv Hb.
  case_bool_decide as Hg.
  - apply append_opt_Ret_inv in H as [[-> ->] [x Hx]]. unfold opt_text. by rewrite Hx.
  - minv H. apply eq_None_not_Some in Hg. by rewrite Hg, append_nothing.
Qed.

Lemma append_ifs_Ret_inv items c s c' s' :
  mfold append_if c items s = (Ret c', s') →
  s' = s ∧ c' = append c (texts (flag_part s <$> items)).
Proof.
  revert c. induction items as [|item items IH]; intros c.
  - intros H. injection H as <- <-. split; [done|]. symmetry. apply append_nothing.
  - intros (c1 & s1 & [-> ->]%append_if_Ret_inv & H)%mfold_cons_Ret_inv.
    destruct (IH _ H) as [-> ->]. split; [done|]. apply append_append.
Qed.

Lemma append_username_Ret_inv c s c' s' :
  append_username c s = (Ret c', s') → s' = s ∧ c' = append c (user_part s).
Proof.
  unfold append_username, user_part, opt_text. intros (v & s1 & Hv & H)%bind_Ret_inv. minv Hv.
  destruct (s_opts s !! "--username") as [v|].
  - apply bind_Ret_inv in H as (x & s1 & [-> ->]%concat_str_Ret_inv & H). minv H.
    case_bool_decide; [by rewrite append_nothing|done].
  - minv H. by rewrite bool_decide_true, append_nothing.
Qed.

Lemma append_password_Ret_inv c s c' s' :
  append_password c s = (Ret c', s') →
  s' = s ∧ c' = append_as c (password_part s) " -P [set]".
Proof.
  unfold append_password, password_part, opt_text. intros (v & s1 & Hv & H)%bind_Ret_inv. minv Hv.
  destruct (s_opts s !! "--password") as [v|].
  - apply bind_Ret_inv in H as (x & s1 & [-> ->]%concat_str_Ret_inv & H). by minv H.
  - by minv H.
Qed.

Lemma verbose_flag_Ret_inv s v s' :
  verbose_flag s = (Ret v, s') → s' = s ∧ v = verbose_part s.
Proof.
  unfold verbose_flag, verbose_part, verbosity.
  intros (l & s1 & [Hl ->]%opt_get_Ret_inv & H)%bind_Ret_inv. rewrite Hl.
  destruct l; try done. minv H. destruct (1 <? n)%Z eqn:E.
  - by destruct (Z.to_nat (n - 1)) eqn:En; [lia|].
  - replace (Z.to_nat (n - 1)) with O by lia. done.
Qed.

(** The command is its parts, and nothing is changed. *)
Lemma create_command_Ret_inv action s c s' :
  create_command action s = (Ret c, s') →
  s' = s ∧
  c = append (append_as (append no_cmd (texts (parts_before s))) (password_part s) " -P [set]")
        (texts (parts_after action s)) ∧
  (sudo_given s = true → given s "--sudo-path") ∧ given s "--ipmitool-path" ∧ given s "--ip".
Proof.
  intros H. unfold create_command in H.
  apply bind_Ret_inv in H as (b & s1 & Hb & H). minv Hb.
  apply bind_Ret_inv in H as (c0 & s1 & H0 & H).
  assert ((s1 = s ∧ c0 = append no_cmd (texts (if sudo_given s then [opt_text s "--sudo-path" +:+ " "] else [])))
    ∧ (sudo_given s = true → given s "--sudo-path")) as [[-> ->] Hsudo].
  { unfold sudo_given. case_bool_decide.
    - apply bind_Ret_inv in H0 as (v & s2 & [Hv ->]%opt_get_Ret_inv & H0).
      apply bind_Ret_inv in H0 as (x & s2 & [-> ->]%concat_str_Ret_inv & H0). minv H0.
      unfold opt_text, given. rewrite Hv. split; [|by eauto]. split; [done|]. cbn. by rewrite str_app_nil.
    - by minv H0. }
  apply bind_Ret_inv in H as (c1 & s1 & [[-> ->] Htool]%append_opt_Ret_inv & H).
  apply bind_Ret_inv in H as (b & s2 & Hl & H).
  assert (b = bool_decide (s_opts s !! "--lanplus" ∈ [Some (VStr ""); Some (VStr "1")]) ∧ s2 = s)
    as [-> ->] by (unfold use_lanplus in Hl; by minv Hl).
  apply bind_Ret_inv in H as (c2 & s1 & [[-> ->] Hip]%append_opt_Ret_inv & H).
  apply bind_Ret_inv in H as (c3 & s1 & [-> ->]%append_if_Ret_inv & H).
  apply bind_Ret_inv in H as (c4 & s1 & [-> ->]%append_if_Ret_inv & H).
  apply bind_Ret_inv in H as (c5 & s1 & [-> ->]%append_username_Ret_inv & H).
  apply bind_Ret_inv in H as (c6 & s1 & [-> ->]%append_if_Ret_inv & H).
  apply bind_Ret_inv in H as (c7 & s1 & [-> ->]%append_password_Ret_inv & H).
  apply bind_Ret_inv in H as (c8 & s1 & [-> ->]%append_ifs_Ret_inv & H).
  apply bind_Ret_inv in H as (v & s1 & [-> ->]%verbose_flag_Ret_inv & H). minv H.
  split; [done|]. split; [|by eauto]. rewrite !append_append. unfold parts_before, parts_after.
  rewrite !texts_app. unfold lan_name, before_password, after_password.
  cbn [texts foldr fmap list_fmap]. rewrite !str_app_nil, <- !str_app_assoc.
  by case_bool_decide.
Qed.

(** C32. The logged command does not depend on the password: two runs whose options differ
    in nothing but the password, set or not, log the same text for it. *)
Theorem ipmi_password_not_logged action s s' c c' s1 s1' :
  (∀ k, k ≠ "--password" → s_opts s !! k = s_opts s' !! k) →
  create_command action s = (Ret c, s1) → create_command action s' = (Ret c', s1') →
  shown_command (Some (cmd_log c)) (cmd c) = shown_command (Some (cmd_log c')) (cmd c').
Proof.
  intros Hk [_ [-> _]]%create_command_Ret_inv [_ [-> _]]%create_command_Ret_inv.
  cbn [cmd_log append append_as no_cmd].
  assert (texts (parts_before s) = texts (parts_before s')) as ->.
  { unfold parts_before, before_password, sudo_given, user_part, flag_part, opt_text, lan_name. cbn.
    by rewrite !Hk by done. }
  assert (texts (parts_after action s) = texts (parts_after action s')) as ->.
  { unfold parts_after, after_password, flag_part, verbose_part, verbosity. cbn.
    by rewrite !Hk by done. }
  unfold shown_command. rewrite !decide_False; [done|..]; by destruct (texts (parts_before s')).
Qed.
End Parts.

(** ** The words of a command *)

(** The words that a text after a space adds. *)
Definition adds (text : string) (ws : list string) : Prop :=
  ∀ cmd ws0, shlex_split cmd = inl ws0 → shlex_split (cmd +:+ text) = inl (ws0 ++ ws)%list.

Lemma adds_nothing : adds "" [].
Proof. intros cmd ws0 H. by rewrite str_app_nil, app_nil_r. Qed.

Lemma adds_words text ws : shlex_split text = inl ws → adds (String " " text) ws.
Proof. intros Hw cmd ws0 H. by apply shlex_split_app. Qed.

Lemma adds_app a b ws1 ws2 : adds a ws1 → adds b ws2 → adds (a +:+ b) (ws1 ++ ws2).
Proof.
  intros Ha Hb cmd ws0 H. rewrite str_app_assoc, app_assoc. by apply Hb, Ha.
Qed.

Lemma adds_texts l ws : Forall2 adds l ws → adds (texts l) (concat ws).
Proof. induction 1 as [|a w l ws Ha _ IH]; [apply adds_nothing|]. by apply adds_app. Qed.

(** The options that go onto the command line without quotes. *)
Definition unquoted_keys : list string :=
  ["--sudo-path"; "--ipmitool-path"; "--ip"; "--ipport"; "--target"; "--auth"; "--cipher";
   "--privlvl"; "--hexadecimal-kg"; "--ipmitool-timeout"].

Definition is_word (x : string) : Prop := shlex_split x = inl [x].

Definition ipmi_words {D} (action : string) (s : st D) : list string :=
  (if sudo_given s then [opt_text s "--sudo-path"] else []) ++
  [opt_text s "--ipmitool-path"; "-I"; lan_name s; "-H"; opt_text s "--ip"] ++
  opt_words s ("-p", "--ipport") ++ opt_words s ("-t", "--target") ++
  (if bool_decide (opt_text s "--username" = "") then [] else ["-U"; opt_text s "--username"]) ++
  opt_words s ("-A", "--auth") ++ ["-P"; opt_text s "--password"] ++
  opt_words s ("-C", "--cipher") ++ opt_words s ("-L", "--privlvl") ++
  opt_words s ("-y", "--hexadecimal-kg") ++ opt_words s ("-N", "--ipmitool-timeout") ++
  ["chassis"; "power"; action] ++
  match verbosity s with O => [] | S k => ["-" +:+ repeat_str "v" (S k)] end.

Lemma repeat_v_safe k : all_chars is_safe (repeat_str "v" k) = true.
Proof. induction k as [|k IH]; [done|exact IH]. Qed.

Section Words.
Context {D : Type} (s : st D).
(** The values that are not quoted are one word each. *)
Hypothesis Hwords : ∀ k x, k ∈ unquoted_keys → s_opts s !! k = Some (VStr x) → is_word x.

(** A flag and the word after it. *)
Lemma adds_flag flag x : is_word flag → is_word x → adds (String " " flag +:+ String " " x) [flag; x].
Proof. intros Hf Hx. apply (adds_app _ _ [flag] [x]); by apply adds_words. Qed.

Lemma adds_option flag k :
  is_word flag → k ∈ unquoted_keys →
  adds (flag_part s (String " " flag +:+ " ", k)) (opt_words s (flag, k)).
Proof using Hwords.
  intros Hf Hk. unfold flag_part, opt_words. cbn [fst snd].
  destruct (s_opts s !! k) as [[]|] eqn:E; try apply adds_nothing.
  rewrite <- str_app_assoc. apply adds_flag; [done|by eapply Hwords].
Qed.

Lemma adds_user :
  adds (user_part s) (if bool_decide (opt_text s "--username" = "") then [] else ["-U"; opt_text s "--username"]).
Proof.
  unfold user_part. case_bool_decide; [apply adds_nothing|].
  apply (adds_app " -U" _ ["-U"] [_]); [by apply (adds_words "-U")|]. apply adds_words, shlex_quote.
Qed.

Lemma adds_password : adds (password_part s) ["-P"; opt_text s "--password"].
Proof.
  unfold password_part.
  apply (adds_app " -P" _ ["-P"] [_]); [by apply (adds_words "-P")|]. apply adds_words, shlex_quote.
Qed.

Lemma adds_verbose :
  adds (verbose_part s) match verbosity s with O => [] | S k => ["-" +:+ repeat_str "v" (S k)] end.
Proof.
  unfold verbose_part. destruct (verbosity s) as [|k]; [apply adds_nothing|].
  apply (adds_words ("-" +:+ repeat_str "v" (S k))). apply shlex_plain; [|done].
  apply (repeat_v_safe (S k)).
Qed.

Lemma given_word k : k ∈ unquoted_keys → given s k → is_word (opt_text s k).
Proof using Hwords. intros Hk [x Hx]. unfold opt_text. rewrite Hx. by eapply Hwords. Qed.

(** The program, after sudo or not. *)
Lemma program_words :
  (sudo_given s = true → given s "--sudo-path") → given s "--ipmitool-path" →
  shlex_split (texts (if sudo_given s then [opt_text s "--sudo-path" +:+ " "] else []) +:+
               opt_text s "--ipmitool-path") =
  inl ((if sudo_given s then [opt_text s "--sudo-path"] else []) ++ [opt_text s "--ipmitool-path"])%list.
Proof using Hwords.
  intros Hsudo Htool. assert (is_word (opt_text s "--ipmitool-path")) as Ht by (apply given_word; [closed_dec|done]).
  destruct (sudo_given s); [|exact Ht]. cbn [texts foldr]. rewrite str_app_nil, <- str_app_assoc.
  apply shlex_split_app; [|exact Ht]. apply given_word; [closed_dec|auto].
Qed.
End Words.

(** C31. The command of fence_ipmilan splits into exactly the expected words: the program,
    a flag and its value for each option that is set, and the action. The values of the
    options that go onto the command line as they are must be single words; the user name
    and the password are one word each whatever characters they have. *)
Theorem ipmi_command_words {D} action (s : st D) c s' :
  create_command action s = (Ret c, s') → is_word action →
  (∀ k x, k ∈ unquoted_keys → s_opts s !! k = Some (VStr x) → is_word x) →
  shlex_split (cmd c) = inl (ipmi_words action s).
Proof.
  intros (-> & -> & Hsudo & Htool & Hip)%create_command_Ret_inv Ha Hw.
  cbn [cmd append append_as no_cmd].
  pose proof (program_words s Hw Hsudo Htool) as Hprog.
  pose proof (given_word s Hw "--ip" ltac:(closed_dec) Hip) as Hipw.
  assert (Forall2 adds
    [" -I " +:+ lan_name s; " -H " +:+ opt_text s "--ip"; flag_part s (" -p ", "--ipport");
     flag_part s (" -t ", "--target"); user_part s; flag_part s (" -A ", "--auth");
     password_part s; flag_part s (" -C ", "--cipher"); flag_part s (" -L ", "--privlvl");
     flag_part s (" -y ", "--hexadecimal-kg"); flag_part s (" -N ", "--ipmitool-timeout");
     " chassis power " +:+ action; verbose_part s]
    [["-I"; lan_name s]; ["-H"; opt_text s "--ip"]; opt_words s ("-p", "--ipport");
     opt_words s ("-t", "--target");
     if bool_decide (opt_text s "--username" = "") then [] else ["-U"; opt_text s "--username"];
     opt_words s ("-A", "--auth"); ["-P"; opt_text s "--password"]; opt_words s ("-C", "--cipher");
     opt_words s ("-L", "--privlvl"); opt_words s ("-y", "--hexadecimal-kg");
     opt_words s ("-N", "--ipmitool-timeout"); ["chassis"; "power"; action];
     match verbosity s with O => [] | S k => ["-" +:+ repeat_str "v" (S k)] end]) as Hparts.
  { repeat (apply Forall2_cons; split); [..|by apply Forall2_nil].
    - apply (adds_flag "-I"); [done|]. unfold lan_name. by case_bool_decide.
    - by apply (adds_flag "-H").
    - by apply (adds_option s Hw "-p" "--ipport"); [|closed_dec].
    - by apply (adds_option s Hw "-t" "--target"); [|closed_dec].
    - apply adds_user.
    - by apply (adds_option s Hw "-A" "--auth"); [|closed_dec].
    - apply adds_password.
    - by apply (adds_option s Hw "-C" "--cipher"); [|closed_dec].
    - by apply (adds_option s Hw "-L" "--privlvl"); [|closed_dec].
    - by apply (adds_option s Hw "-y" "--hexadecimal-kg"); [|closed_dec].
    - by apply (adds_option s Hw "-N" "--ipmitool-timeout"); [|closed_dec].
    - apply (adds_app " chassis" _ ["chassis"] ["power"; action]); [by apply (adds_words "chassis")|].
      by apply (adds_flag "power").
    - apply adds_verbose. }
  pose proof (adds_texts _ _ Hparts _ _ Hprog) as Hall.
  etrans; [|etrans; [exact Hall|]].
  - f_equal. unfold parts_before, parts_after, before_password, after_password.
    rewrite !texts_app. cbn [texts foldr fmap list_fmap]. rewrite !str_app_nil, <- !str_app_assoc. done.
  - f_equal. unfold ipmi_words. cbn [concat]. rewrite app_nil_r, <- !app_assoc. done.
Qed.

(** ** A run *)

(** A user name with a space and a password with both kinds of quotes. *)
Definition nasty_password : string := "it's " +:+ dq +:+ "x" +:+ dq.

Definition ipmi_options (password : string) : st unit :=
  St (<["--password" := VStr password]> (list_to_map
        [("--ipmitool-path", VStr "/usr/bin/ipmitool"); ("--ip", VStr "bmc"); ("--ipport", VStr "623");
         ("--lanplus", VStr "1"); ("--username", VStr "ad min");
         ("--privlvl", VStr "operator"); ("--verbose-level", VInt 3)]))
     ∅ [] 0 tt.

Definition nasty_command : Cmd := MkCmd
  ("/usr/bin/ipmitool -I lanplus -H bmc -p 623 -U 'ad min' -P 'it'" +:+ dq +:+ "'" +:+ dq +:+
   "'s " +:+ dq +:+ "x" +:+ dq +:+ "' -L operator chassis power off -vv")
  "/usr/bin/ipmitool -I lanplus -H bmc -p 623 -U 'ad min' -P [set] -L operator chassis power off -vv".

Lemma nasty_command_created :
  create_command "off" (ipmi_options nasty_password) = (Ret nasty_command, ipmi_options nasty_password).
Proof. vm_compute. reflexivity. Qed.

Lemma ipmi_command_words_witness :
  shlex_split (cmd nasty_command) =
  inl ["/usr/bin/ipmitool"; "-I"; "lanplus"; "-H"; "bmc"; "-p"; "623"; "-U"; "ad min";
       "-P"; nasty_password; "-L"; "operator"; "chassis"; "power"; "off"; "-vv"].
Proof.
  rewrite (ipmi_command_words "off" (ipmi_options nasty_password) nasty_command _ nasty_command_created).
  - vm_compute. reflexivity.
  - reflexivity.
  - intros k x Hk Hx. unfold unquoted_keys in Hk. rewrite !elem_of_cons in Hk.
    repeat destruct Hk as [->|Hk]; try (by apply not_elem_of_nil in Hk);
      vm_compute in Hx; first [discriminate Hx | injection Hx as <-; reflexivity].
Defined.

Lemma ipmi_password_not_logged_witness :
  shown_command (Some (cmd_log nasty_command)) (cmd nasty_command) = cmd_log nasty_command ∧
  ∃ c s, create_command "off" (ipmi_options "other") = (Ret c, s) ∧
    shown_command (Some (cmd_log c)) (cmd c) = cmd_log nasty_command.
Proof.
  split; [reflexivity|].
  destruct (create_command "off" (ipmi_options "other")) as [o s] eqn:E.
  destruct o as [c|e|]; [|vm_compute in E; discriminate E..].
  exists c, s. split; [done|].
  rewrite <- (ipmi_password_not_logged "off" (ipmi_options nasty_password) (ipmi_options "other")
    nasty_command c (ipmi_options nasty_password) s).
  - reflexivity.
  - intros k Hk. unfold ipmi_options. cbn [s_opts]. by rewrite !lookup_insert_ne by done.
  - exact nasty_command_created.
  - exact E.
Defined.

(** What ipmitool prints is read back from the text of the result. *)
Example on_is_read : status_of_output (result_str (0%Z, "Chassis Power is on" +:+ nl, "")) = VStr "on".
Proof. reflexivity. Qed.
Example off_is_read : status_of_output (result_str (0%Z, "Chassis Power is off" +:+ nl, "")) = VStr "off".
Proof. reflexivity. Qed.
