(* ===== verification/Globals.v ===== *)
(** * Module-level variables of an agent

    Some agents keep what they learnt about the device in global variables of their
    module. Such an agent runs on a state that pairs its globals with the world; the
    host and the terminal act on the world alone. *)

From S2P Require Import Prelude PyStr OptionDefs Effects Fail Host Input Process Login.

Local Open Scope string_scope.

Section Lift.
Context {G D : Type}.

Definition lift_op {A} (f : D → A * D) (w : G * D) : A * (G * D) :=
  let '(a, d) := f w.2 in (a, (w.1, d)).

Definition lift_step (f : D → D) (w : G * D) : G * D := (w.1, f w.2).

Definition lift_try (f : D → option D) (w : G * D) : option (G * D) :=
  (λ d, (w.1, d)) <$> f w.2.

#[export] Instance lift_terminal `{Terminal D} : Terminal (G * D) := {|
  t_spawn command := lift_op (t_spawn command);
  t_expect patterns timeout := lift_op (t_expect patterns timeout);
  t_read size timeout := lift_op (t_read size timeout);
  t_send message := lift_op (t_send message);
  t_close := lift_op t_close;
  t_run command timeout := lift_op (t_run command timeout)
|}.

#[export] Instance lift_host `{Host D} : Host (G * D) := {|
  h_exists w := h_exists w.2; h_isfile w := h_isfile w.2; h_isdir w := h_isdir w.2;
  h_isblk w := h_isblk w.2; h_lstat_isblk w := h_lstat_isblk w.2; h_islink w := h_islink w.2;
  h_readlink w := h_readlink w.2; h_kill0 w := h_kill0 w.2;
  h_executable w := h_executable w.2; h_realpath w := h_realpath w.2;
  h_listdir w := h_listdir w.2; h_readfile w := h_readfile w.2;
  h_writefile path text := lift_try (h_writefile path text);
  h_appendfile path text := lift_try (h_appendfile path text);
  h_makedirs path := lift_try (h_makedirs path);
  h_popen command := lift_op (h_popen command);
  h_spawn env argv := lift_op (h_spawn env argv)
|}.

(** Reading and assigning the globals. *)
Definition globals : M (G * D) G := λ s, (Ret (s_dev s).1, s).
Definition set_globals (g : G) : M (G * D) unit := modify (λ s, set_dev (g, (s_dev s).2) s).
End Lift.
