(* ===== verification/PduSnmp.v ===== *)
(** * Power distribution units over SNMP: fence_apc_snmp and fence_ipdu

    [agents/apc_snmp/fence_apc_snmp.py] and [agents/ipdu/fence_ipdu.py] share their
    functions word for word; they differ in the devices they know. What the agent has
    found out about the device is kept in global variables of its module. *)

From S2P Require Import Prelude PyStr OptionDefs Effects Fail Host Input Process CheckInput.
From S2P Require Import Login Snmp Globals Metadata Action.

Local Open Scope string_scope.

Definition OID_SYS_OBJECT_ID : string := ".1.3.6.1.2.1.1.2.0".

(** The attributes of a device class. *)
Record pdu := MkPdu {
  status_oid : string;
  control_oid : string;
  outlet_table_oid : string;
  ident_str : string;
  state_on : Z;
  state_off : Z;
  turn_on : Z;
  turn_off : Z;
  has_switches : bool
}.

(** [device], [port_id] and [switch_id]; [None] until they are known. *)
Record pdu_globals := PduGlobals {
  g_device : option pdu;
  g_port : option Z;
  g_switch : option Z
}.

Definition no_globals : pdu_globals := PduGlobals None None None.

(** ** Text *)

(** [fmt % args] for [%d]; [None] is the TypeError of a wrong number of arguments. *)
Fixpoint percent_d (fmt : string) (args : list Z) : option string :=
  match fmt with
  | "" => match args with [] => Some "" | _ => None end
  | String "%"%char (String "d"%char rest) =>
      match args with
      | n :: args' => (λ s, str_of_Z n +:+ s) <$> percent_d rest args'
      | [] => None
      end
  | String c rest => String c <$> percent_d rest args
  end.

(** [s.isdigit()] on ASCII *)
Definition isdigit (s : string) : bool :=
  negb (bool_decide (s = "")) && forallb is_digit (String.list_ascii_of_string s).

(** [s.strip] of double quotes. *)
Definition strip_quotes (s : string) : string := lstrip_char DQ (rstrip_char DQ s).

(** [t[len(t) - k]] for [k > 0]: an index below zero counts from the end. *)
Definition from_end {A} (t : list A) (k : nat) : option A :=
  if Nat.leb k (length t) then t !! (length t - k)
  else if Nat.leb k (2 * length t) then t !! (2 * length t - k) else None.

Section Pdu.
Context `{Terminal D}.
(** The devices by their object identifier, and the one to take for all others; without
    it their lookup is a KeyError. *)
Variable agents_dir : list (string * pdu).
Variable fallback : option pdu.

(** A list element that may be missing. *)
Definition item {A} (x : option A) : M (pdu_globals * D) A :=
  match x with Some a => mret a | None => raise IndexError end.

Definition the_device : M (pdu_globals * D) pdu :=
  g ← globals;
  match g_device g with
  | Some d => mret d
  | None => raise (AttributeError "'NoneType' object has no attribute")
  end.

(** ** [apc_set_device] *)

Definition device_of_type (apc_type : option string) : M (pdu_globals * D) pdu :=
  match apc_type ≫= λ t, dict_get t agents_dir with
  | Some d => mret d
  | None =>
      match fallback with
      | Some d => mret d
      | None => raise (KeyError "None")
      end
  end.

Definition pdu_set_device : M (pdu_globals * D) unit :=
  rows ← snmp_walk OID_SYS_OBJECT_ID 0;
  apc_type ← match rows with
             | [row] => t ← item (row !! 1); mret (Some t)
             | _ => mret None
             end;
  d ← device_of_type apc_type;
  g ← globals;
  set_globals (PduGlobals (Some d) (g_port g) (g_switch g)) ;;
  log DEBUG ("Trying " +:+ ident_str d).

(** ** [apc_resolv_port_id] *)

Definition set_port (n : Z) : M (pdu_globals * D) unit :=
  g ← globals; set_globals (PduGlobals (g_device g) (Some n) (g_switch g)).
Definition set_switch (n : Z) : M (pdu_globals * D) unit :=
  g ← globals; set_globals (PduGlobals (g_device g) (g_port g) (Some n)).

(** [int(t[len(t)-k])] *)
Definition number_from_end (t : list string) (k : nat) : M (pdu_globals * D) Z :=
  x ← item (from_end t k); as_int (VStr x).

(** A row of the outlet table: the last one with the name of the plug counts. *)
Definition take_row (d : pdu) (plug : string) (x : list string) : M (pdu_globals * D) unit :=
  name ← item (x !! 1);
  mwhen (bool_decide (strip_quotes name = plug))
    (oid ← item (x !! 0);
     let t := split_go "." oid 0 in
     n ← number_from_end t 1;
     set_port n ;;
     mwhen (has_switches d) (sw ← number_from_end t 3; set_switch sw)).

Definition by_number (d : pdu) (plug : string) : M (pdu_globals * D) bool :=
  if isdigit plug then
    if has_switches d then sw ← opt_str "--switch"; mret (isdigit sw) else mret true
  else mret false.

Definition pdu_resolv_port_id : M (pdu_globals * D) unit :=
  g ← globals;
  match g_device g with None => pdu_set_device | Some _ => mret tt end ;;
  d ← the_device;
  plug ← opt_str "--plug";
  numeric ← by_number d plug;
  (if (numeric : bool) then
     n ← as_int (VStr plug);
     set_port n ;;
     mwhen (has_switches d) (sw ← opt_int "--switch"; set_switch sw)
   else
     table ← snmp_walk (outlet_table_oid d) 30;
     mfor table (take_row d plug)) ;;
  g ← globals;
  match g_port g with
  | None => fail_usage ("Can't find port with name " +:+ plug +:+ "!") true
  | Some _ => mret tt
  end.

(** ** [get_power_status], [set_power_status] *)

Definition ensure_port : M (pdu_globals * D) unit :=
  g ← globals;
  match g_port g with None => pdu_resolv_port_id | Some _ => mret tt end.

(** The object of the outlet, in the status or in the control table. *)
Definition outlet_oid (fmt : pdu → string) : M (pdu_globals * D) string :=
  d ← the_device;
  g ← globals;
  match (if has_switches d then g_switch g ≫= λ sw, g_port g ≫= λ n, percent_d (fmt d) [sw; n]
         else g_port g ≫= λ n, percent_d (fmt d) [n]) with
  | Some oid => mret oid
  | None => raise (TypeError "not all arguments converted during string formatting")
  end.

(** [(oid, status) = conn.get(oid)] *)
Definition get_status_of (oid : string) : M (pdu_globals * D) string :=
  reply ← snmp_get oid 0;
  match reply with
  | [_; status] => mret status
  | _ => raise (ValueError "not enough values to unpack")
  end.

(** [x and a or b] with a number [a] *)
Definition and_or (x : bool) (a b : Z) : Z := if x && negb (a =? 0)%Z then a else b.

Definition pdu_get_power_status : M (pdu_globals * D) pyval :=
  ensure_port ;;
  oid ← outlet_oid status_oid;
  status ← get_status_of oid;
  d ← the_device;
  mret (VStr (if bool_decide (status = str_of_Z (state_on d)) then "on" else "off")).

Definition pdu_set_power_status : M (pdu_globals * D) unit :=
  ensure_port ;;
  oid ← outlet_oid control_oid;
  action ← opt_get "--action";
  d ← the_device;
  snmp_set oid (VInt (and_or (bool_decide (action = VStr "on")) (turn_on d) (turn_off d))) 0.

(** ** [get_outlets_status] *)

Definition outlet_of_row (d : pdu) (result : outlets) (x : list string) : M (pdu_globals * D) outlets :=
  oid ← item (x !! 0);
  let t := split_go "." oid 0 in
  n ← item (from_end t 1);
  port_num ← (if has_switches d then sw ← item (from_end t 3); mret (sw +:+ ":" +:+ n) else mret n);
  name ← item (x !! 1);
  mret (dict_insert port_num (strip_quotes name, Some "") result).

Definition pdu_get_outlets_status : M (pdu_globals * D) outlets :=
  g ← globals;
  match g_device g with None => pdu_set_device | Some _ => mret tt end ;;
  d ← the_device;
  res_ports ← snmp_walk (outlet_table_oid d) 30;
  mfold (outlet_of_row d) [] res_ports.

(** [FencingSnmp(options)] waits for the delay. *)
Definition snmp_init {W} (time_start : Z) : M W unit := run_delay time_start 0 0.

Definition pdu_fence (fuel : nat) (time_start : Z) : M (pdu_globals * D) Z :=
  snmp_init time_start ;;
  fence_action fuel (Some pdu_set_power_status) (Some pdu_get_power_status)
    (Some pdu_get_outlets_status) None None.
End Pdu.

(** ** fence_apc_snmp *)

Definition TripplitePDU : pdu := MkPdu
  ".1.3.6.1.4.1.850.10.2.3.5.1.2.1.%d" ".1.3.6.1.4.1.850.10.2.3.5.1.4.1.%d"
  ".1.3.6.1.4.1.850.10.2.3.5.1.5" "Tripplite" 2 1 2 1 false.

Definition TrippliteLXPDU : pdu := MkPdu
  ".1.3.6.1.4.1.850.1.1.3.2.3.3.1.1.4.1.%d" ".1.3.6.1.4.1.850.1.1.3.2.3.3.1.1.6.1.%d"
  ".1.3.6.1.4.1.850.1.1.3.2.3.3.1.1.2.1" "Tripplite LX" 2 1 2 1 false.

Definition ApcRPDU : pdu := MkPdu
  ".1.3.6.1.4.1.318.1.1.12.3.5.1.1.4.%d" ".1.3.6.1.4.1.318.1.1.12.3.3.1.1.4.%d"
  ".1.3.6.1.4.1.318.1.1.12.3.5.1.1.2" "APC rPDU" 1 2 1 2 false.

Definition ApcMSP : pdu := MkPdu
  ".1.3.6.1.4.1.318.1.1.6.7.1.1.5.%d.1.%d" ".1.3.6.1.4.1.318.1.1.6.5.1.1.5.%d.1.%d"
  ".1.3.6.1.4.1.318.1.1.6.7.1.1.4" "APC Master Switch+" 1 2 1 3 true.

Definition ApcMS : pdu := MkPdu
  ".1.3.6.1.4.1.318.1.1.4.4.2.1.3.%d" ".1.3.6.1.4.1.318.1.1.4.4.2.1.3.%d"
  ".1.3.6.1.4.1.318.1.1.4.4.2.1.4" "APC Master Switch (fallback)" 1 2 1 2 false.

Definition ApcMS6 : pdu := MkPdu
  ".1.3.6.1.4.1.318.1.1.4.4.2.1.3.%d" ".1.3.6.1.4.1.318.1.1.12.3.3.1.1.4.%d"
  "1.3.6.1.4.1.318.1.1.4.4.2.1.4" "APC Master Switch with firmware v6.x" 1 2 1 2 false.

Definition apc_agents_dir : list (string * pdu) :=
  [(".1.3.6.1.4.1.318.1.3.4.5", ApcRPDU); (".1.3.6.1.4.1.318.1.3.4.4", ApcMSP);
   (".1.3.6.1.4.1.850.1", TripplitePDU); (".1.3.6.1.4.1.850.1.1.1", TrippliteLXPDU);
   (".1.3.6.1.4.1.318.1.3.4.6", ApcMS6)].

(** Of most agents over SNMP. *)
Definition snmp_device_opt : list string :=
  ["ipaddr"; "login"; "passwd"; "no_login"; "no_password"; "port"; "snmp_version"; "snmp"].

Definition apc_snmp_docs (prog : string) : docs := Docs
  (basename prog +:+ " is a Power Fencing agent which can be used with the APC network power switch or Tripplite PDU devices.It logs into a device via SNMP and reboots a specified outlet. It supports SNMP v1, v2c, v3 with all combinations of  authenticity/privacy settings.")
  "Fence agent for APC, Tripplite PDU over SNMP"
  (Some "http://www.apc.com") [("fence_tripplite_snmp", "Fence agent for Tripplife over SNMP")]
  (Some "fence_apc_snmp").

Section Mains.
Context `{Host D, Terminal D}.

(** [-n [switch]:[plug]]: both parts must be numbers. *)
Definition split_switch_plug : M (pdu_globals * D) unit :=
  plug ← opt_find "--plug";
  match plug with
  | Some v =>
      x ← as_str v;
      match split1 ":"%char x with
      | Some (switch, plug) =>
          mwhen (isdigit switch && isdigit plug)
            (opt_set "--switch" (VStr switch) ;; opt_set "--plug" (VStr plug))
      | None => mret tt
      end
  | None => mret tt
  end ;;
  given ← opt_has "--switch";
  mwhen (negb given) (opt_set "--switch" (VStr "1")).

Definition fence_apc_snmp_main (fuel : nat) (time_start : Z) (inv : invocation)
    (set_order : list string → list string) : M (pdu_globals * D) unit :=
  allopt_set "snmp_version" (Default (VStr "1")) ;;
  allopt_set "community" (Default (VStr "private")) ;;
  '(avail_opt, opt) ← process_input inv snmp_device_opt;
  check_input (inv_env inv) avail_opt opt false ;;
  split_switch_plug ;;
  show_docs (inv_prog inv) set_order (Some (apc_snmp_docs (inv_prog inv))) ;;
  result ← pdu_fence apc_agents_dir (Some ApcMS) fuel time_start;
  sys_exit result.

(** ** fence_ipdu *)

Definition IBMiPDU : pdu := MkPdu
  ".1.3.6.1.4.1.2.6.223.8.2.2.1.11.%d" ".1.3.6.1.4.1.2.6.223.8.2.2.1.11.%d"
  ".1.3.6.1.4.1.2.6.223.8.2.2.1.2" "IBM iPDU" 1 0 1 0 false.

Definition ipdu_agents_dir : list (string * pdu) := [(".1.3.6.1.4.1.2.6.223", IBMiPDU)].

Definition ipdu_set_device : M (pdu_globals * D) unit := pdu_set_device ipdu_agents_dir (Some IBMiPDU).
Definition ipdu_resolv_port_id : M (pdu_globals * D) unit := pdu_resolv_port_id ipdu_agents_dir (Some IBMiPDU).
Definition ipdu_get_power_status : M (pdu_globals * D) pyval := pdu_get_power_status ipdu_agents_dir (Some IBMiPDU).
Definition ipdu_set_power_status : M (pdu_globals * D) unit := pdu_set_power_status ipdu_agents_dir (Some IBMiPDU).
Definition ipdu_get_outlets_status : M (pdu_globals * D) outlets :=
  pdu_get_outlets_status ipdu_agents_dir (Some IBMiPDU).

Definition ipdu_docs : docs := Docs
  "fence_ipdu is a Power Fencing agent which can be used with the IBM iPDU network power switch. It logs into a device via SNMP and reboots a specified outlet. It supports SNMP v3 with all combinations of authenticity/privacy settings."
  "Fence agent for iPDU over SNMP" (Some "http://www.ibm.com") [] None.

(** The device is assumed before it is asked. *)
Definition fence_ipdu_main (fuel : nat) (time_start : Z) (inv : invocation)
    (set_order : list string → list string) : M (pdu_globals * D) unit :=
  allopt_set "snmp_version" (Default (VStr "3")) ;;
  allopt_set "community" (Default (VStr "private")) ;;
  allopt_set "switch" (Default (VStr "1")) ;;
  g ← globals;
  set_globals (PduGlobals (Some IBMiPDU) (g_port g) (g_switch g)) ;;
  '(avail_opt, opt) ← process_input inv snmp_device_opt;
  check_input (inv_env inv) avail_opt opt false ;;
  show_docs (inv_prog inv) set_order (Some ipdu_docs) ;;
  result ← (snmp_init time_start ;;
            fence_action fuel (Some ipdu_set_power_status) (Some ipdu_get_power_status)
              (Some ipdu_get_outlets_status) None None);
  sys_exit result.
End Mains.
