(* ===== verification/EatonSnmp.v ===== *)
(** * The agent fence_eaton_snmp

    [agents/eaton_snmp/fence_eaton_snmp.py]: two families of devices. On a switched ePDU
    the controls are numbered from 2 but the states from 1; the agent moves [port_id] up
    before it sets and down before it reads, and remembers in [after_set] that it must. *)

From S2P Require Import Prelude PyStr OptionDefs Effects Fail Host Input Process CheckInput.
From S2P Require Import Login Snmp Globals Metadata Action PduSnmp.

Local Open Scope string_scope.

(** The attributes [state_cycling] and [turn_cycle], which nothing uses, are left out. *)
Definition EatonManagedePDU : pdu := MkPdu
  ".1.3.6.1.4.1.534.6.6.6.1.2.2.1.3.%d" ".1.3.6.1.4.1.534.6.6.6.1.2.2.1.3.%d"
  ".1.3.6.1.4.1.534.6.6.6.1.2.2.1.1" "Eaton Managed ePDU" 1 0 1 0 false.

Definition EatonSwitchedePDU : pdu := MkPdu
  ".1.3.6.1.4.1.20677.2.6.3.%d.0" ".1.3.6.1.4.1.20677.2.6.2.%d.0"
  ".1.3.6.1.4.1.20677.2.6.3" "Eaton Switched ePDU" 1 2 1 2 false.

Definition eaton_agents_dir : list (string * pdu) :=
  [(".1.3.6.1.4.1.534.6.6.6", EatonManagedePDU);
   (".1.3.6.1.4.1.20677.1", EatonSwitchedePDU);
   (".1.3.6.1.4.1.20677.2", EatonSwitchedePDU)].

(** [device], [port_id], [switch_id] and [after_set] *)
Record eaton_globals := EatonGlobals {
  e_device : option pdu;
  e_port : option Z;
  e_switch : option Z;
  e_after_set : bool
}.

Definition is_switched (d : pdu) : bool := bool_decide (ident_str d = "Eaton Switched ePDU").
Definition is_managed (d : pdu) : bool := bool_decide (ident_str d = "Eaton Managed ePDU").

Section Eaton.
Context `{Terminal D}.

Definition eaton_item {A} (x : option A) : M (eaton_globals * D) A :=
  match x with Some a => mret a | None => raise IndexError end.

Definition eaton_device : M (eaton_globals * D) pdu :=
  g ← globals;
  match e_device g with
  | Some d => mret d
  | None => raise (AttributeError "'NoneType' object has no attribute")
  end.

(** ** [eaton_set_device]

    There is no entry for a device of another type. *)

Definition eaton_set_device : M (eaton_globals * D) unit :=
  rows ← snmp_walk OID_SYS_OBJECT_ID 0;
  eaton_type ← match rows with
               | [row] => t ← eaton_item (row !! 1); mret (Some t)
               | _ => mret None
               end;
  d ← match eaton_type ≫= λ t, dict_get t eaton_agents_dir with
      | Some d => mret d
      | None => raise (KeyError "None")
      end;
  g ← globals;
  set_globals (EatonGlobals (Some d) (e_port g) (e_switch g) (e_after_set g)) ;;
  log DEBUG ("Trying " +:+ ident_str d).

(** ** [eaton_resolv_port_id] *)

Definition eaton_set_port (n : Z) : M (eaton_globals * D) unit :=
  g ← globals; set_globals (EatonGlobals (e_device g) (Some n) (e_switch g) (e_after_set g)).
Definition eaton_set_switch (n : Z) : M (eaton_globals * D) unit :=
  g ← globals; set_globals (EatonGlobals (e_device g) (e_port g) (Some n) (e_after_set g)).
Definition eaton_set_after_set (b : bool) : M (eaton_globals * D) unit :=
  g ← globals; set_globals (EatonGlobals (e_device g) (e_port g) (e_switch g) b).

Definition eaton_from_end (t : list string) (k : nat) : M (eaton_globals * D) Z :=
  x ← eaton_item (from_end t k); as_int (VStr x).

Definition eaton_take_row (d : pdu) (plug : string) (x : list string) : M (eaton_globals * D) unit :=
  name ← eaton_item (x !! 1);
  mwhen (bool_decide (strip_quotes name = plug))
    (oid ← eaton_item (x !! 0);
     let t := split_go "." oid 0 in
     if has_switches d then
       n ← eaton_from_end t 1; eaton_set_port n ;;
       sw ← eaton_from_end t 3; eaton_set_switch sw
     else
       n ← eaton_from_end t (if is_switched d then 3 else 1); eaton_set_port n).

(** [options["--plug"] = str(int(options["--plug"]) + 1)] *)
Definition next_plug : M (eaton_globals * D) unit :=
  n ← opt_int "--plug"; opt_set "--plug" (VStr (str_of_Z (n + 1))).

Definition eaton_by_number (d : pdu) : M (eaton_globals * D) bool :=
  plug ← opt_str "--plug";
  if isdigit plug then
    if has_switches d then sw ← opt_str "--switch"; mret (isdigit sw) else mret true
  else mret false.

Definition eaton_resolv_port_id : M (eaton_globals * D) unit :=
  g ← globals;
  match e_device g with None => eaton_set_device | Some _ => mret tt end ;;
  d ← eaton_device;
  mwhen (is_switched d) next_plug ;;
  numeric ← eaton_by_number d;
  (if (numeric : bool) then
     n ← opt_int "--plug";
     eaton_set_port n ;;
     mwhen (has_switches d) (sw ← opt_int "--switch"; eaton_set_switch sw)
   else
     table ← snmp_walk (outlet_table_oid d) 30;
     plug ← opt_str "--plug";
     mfor table (eaton_take_row d plug)) ;;
  g ← globals;
  match e_port g with
  | None =>
      mwhen (negb (is_switched d)) next_plug ;;
      plug ← opt_str "--plug";
      fail_usage ("Can't find port with name " +:+ plug +:+ "!") true
  | Some _ => mret tt
  end.

(** ** [get_power_status], [set_power_status] *)

Definition eaton_ensure_port : M (eaton_globals * D) unit :=
  g ← globals;
  match e_port g with None => eaton_resolv_port_id | Some _ => mret tt end.

Definition eaton_oid (fmt : pdu → string) : M (eaton_globals * D) string :=
  d ← eaton_device;
  g ← globals;
  match (if has_switches d then e_switch g ≫= λ sw, e_port g ≫= λ n, percent_d (fmt d) [sw; n]
         else e_port g ≫= λ n, percent_d (fmt d) [n]) with
  | Some oid => mret oid
  | None => raise (TypeError "not all arguments converted during string formatting")
  end.

(** [port_id += k] *)
Definition move_port (k : Z) : M (eaton_globals * D) unit :=
  g ← globals;
  match e_port g with
  | Some n => eaton_set_port (n + k)
  | None => raise (TypeError "unsupported operand type(s)")
  end.

Definition eaton_read (d : pdu) (oid : string) : M (eaton_globals * D) pyval :=
  reply ← snmp_get oid 0;
  match reply with
  | [_; status] =>
      mret (if bool_decide (status = str_of_Z (state_on d)) then VStr "on"
            else if bool_decide (status = str_of_Z (state_off d)) then VStr "off" else VNone)
  | _ => raise (ValueError "not enough values to unpack")
  end.

Definition eaton_get_power_status : M (eaton_globals * D) pyval :=
  eaton_ensure_port ;;
  g ← globals;
  adjust ← (if e_after_set g then d ← eaton_device; mret (is_switched d) else mret false);
  mwhen adjust (move_port (-1) ;; eaton_set_after_set false) ;;
  oid ← eaton_oid status_oid;
  d ← eaton_device;
  try_except (eaton_read d oid) (λ e, if is_Exception e then Some (mret VNone) else None).

Definition eaton_set_power_status : M (eaton_globals * D) unit :=
  eaton_set_after_set true ;;
  eaton_ensure_port ;;
  d ← eaton_device;
  mwhen (is_switched d) (move_port 1) ;;
  oid ← eaton_oid control_oid;
  action ← opt_get "--action";
  snmp_set oid (VInt (and_or (bool_decide (action = VStr "on")) (turn_on d) (turn_off d))) 0.

(** ** [get_outlets_status] *)

(** One row: [n] is its number, from 1. *)
Definition eaton_outlet_of_row (d : pdu) (acc : outlets * Z) (x : list string)
    : M (eaton_globals * D) (outlets * Z) :=
  let '(result, count) := acc in
  let n := (count + 1)%Z in
  status ← eaton_item (x !! 1);
  oid ← eaton_item (x !! 0);
  let t := split_go "." oid 0 in
  if is_managed d then
    last ← eaton_item (from_end t 1);
    shown ← (if has_switches d then sw ← eaton_item (from_end t 3); mret (sw +:+ ":" +:+ last)
             else mret last);
    port_num ← as_int (VStr shown);
    port_name ← as_int (VStr (strip_quotes status));
    mret (dict_insert (str_of_Z (port_num + 1)) (str_of_Z (port_name + 1), Some "") result, n)
  else
    mret (if bool_decide (status = "0") then result
          else dict_insert (str_of_Z n) (str_of_Z n, Some "") result, n).

Definition eaton_get_outlets_status : M (eaton_globals * D) outlets :=
  g ← globals;
  match e_device g with None => eaton_set_device | Some _ => mret tt end ;;
  d ← eaton_device;
  res_ports ← snmp_walk (outlet_table_oid d) 30;
  r ← mfold (eaton_outlet_of_row d) ([], 0%Z) res_ports;
  mret r.1.

Definition eaton_fence (fuel : nat) (time_start : Z) : M (eaton_globals * D) Z :=
  snmp_init time_start ;;
  fence_action fuel (Some eaton_set_power_status) (Some eaton_get_power_status)
    (Some eaton_get_outlets_status) None None.
End Eaton.

(** ** [main] *)

Definition eaton_docs : docs := Docs
  "fence_eaton_snmp is a Power Fencing agent which can be used with the Eaton network power switch. It logs into a device via SNMP and reboots a specified outlet. It supports SNMP v1 and v3 with all combinations of  authenticity/privacy settings."
  "Fence agent for Eaton over SNMP" (Some "http://powerquality.eaton.com") [] None.

Section Main.
Context `{Host D, Terminal D}.

(** A plug number is counted from 0. *)
Definition plug_from_zero : M (eaton_globals * D) unit :=
  plug ← opt_find "--plug";
  match plug with
  | Some v =>
      x ← as_str v;
      mwhen (isdigit x) (n ← as_int (VStr x); opt_set "--plug" (VStr (str_of_Z (n - 1))))
  | None => mret tt
  end.

Definition fence_eaton_snmp_main (fuel : nat) (time_start : Z) (inv : invocation)
    (set_order : list string → list string) : M (eaton_globals * D) unit :=
  allopt_set "switch" (Default (VInt 1)) ;;
  allopt_set "power_wait" (Default (VInt 2)) ;;
  allopt_set "snmp_version" (Default (VStr "1")) ;;
  allopt_set "community" (Default (VStr "private")) ;;
  '(avail_opt, opt) ← process_input inv snmp_device_opt;
  check_input (inv_env inv) avail_opt opt false ;;
  plug_from_zero ;;
  show_docs (inv_prog inv) set_order (Some eaton_docs) ;;
  result ← eaton_fence fuel time_start;
  sys_exit result.
End Main.
