(* ===== verification/SnmpAgents.v ===== *)
(** * Switches and chassis over SNMP

    [agents/ifmib/fence_ifmib.py], [agents/emerson/fence_emerson.py],
    [agents/intelmodular/fence_intelmodular.py] and
    [agents/cisco_mds/fence_cisco_mds.py]: small agents on the class [FencingSnmp]. *)

From S2P Require Import Prelude PyStr PyRe OptionDefs Effects Fail Host Input Process CheckInput.
From S2P Require Import Login Snmp Globals Metadata Action PduSnmp.

Local Open Scope string_scope.

(** [array_to_dict]: the last part of the identifier and the value. *)
Definition array_to_dict {D} (rows : list (list string)) : M D (list (string * string)) :=
  mfold (λ m x,
    match x with
    | oid :: v :: _ =>
        match last (split_go "." oid 0) with
        | Some k => mret (dict_insert k v m)
        | None => raise IndexError
        end
    | _ => raise IndexError
    end) [] rows.

(** The alias of a port without its double quotes; empty for a port without one. *)
Definition alias_of (res_aliases : list (string * string)) (k : string) : string :=
  match dict_get k res_aliases with Some a => strip_quotes a | None => "" end.

(** The two answers of these agents: on for one value, off for all others. *)
Definition on_if (b : bool) : string := if b then "on" else "off".

Section Agents.
Context `{Terminal D}.

(** [(_, status) = conn.get(oid)] *)
Definition get_value (oid : string) : M D string :=
  reply ← snmp_get oid 0;
  match reply with
  | [_; status] => mret status
  | _ => raise (ValueError "not enough values to unpack")
  end.

(** [x[k]] *)
Definition column (x : list string) (k : nat) : M D string :=
  match x !! k with Some a => mret a | None => raise IndexError end.

Definition last_part (oid : string) : string := default "" (last (split_go "." oid 0)).

Definition action_is_on : M D bool :=
  action ← opt_get "--action"; mret (bool_decide (action = VStr "on")).

(** ** fence_emerson *)

Definition EMERSON_STATUSES_OID : string := ".1.3.6.1.4.1.476.1.42.3.8.50.20.1.95".
Definition EMERSON_CONTROL_OID : string := ".1.3.6.1.4.1.476.1.42.3.8.50.20.1.100".
Definition EMERSON_NAMES_OID : string := ".1.3.6.1.4.1.476.1.42.3.8.50.20.1.10".
Definition EMERSON_STATUS_UP : Z := 2.
Definition EMERSON_SET_OFF : Z := 0.
Definition EMERSON_SET_ON : Z := 1.

Definition emerson_get_power_status : M D pyval :=
  plug ← opt_show "--plug";
  status ← get_value (EMERSON_STATUSES_OID +:+ "." +:+ plug);
  mret (VStr (on_if (bool_decide (status = str_of_Z EMERSON_STATUS_UP)))).

Definition emerson_set_power_status : M D unit :=
  plug ← opt_show "--plug";
  on ← action_is_on;
  snmp_set (EMERSON_CONTROL_OID +:+ "." +:+ plug) (VInt (and_or on EMERSON_SET_ON EMERSON_SET_OFF)) 0.

(** The last three parts of the identifier name the outlet. *)
Definition emerson_outlet (result : outlets) (outlet_info : list string) : M D outlets :=
  oid ← column outlet_info 0;
  let t := split_go "." oid 0 in
  let port_num := join "." (drop (length t - 3) t) in
  reply ← snmp_get (EMERSON_NAMES_OID +:+ "." +:+ port_num) 0;
  port_alias ← column reply 1;
  status ← column outlet_info 1;
  mret (dict_insert port_num
          (port_alias, Some (on_if (bool_decide (status = str_of_Z EMERSON_STATUS_UP)))) result).

Definition emerson_get_outlets_status : M D outlets :=
  res_outlet ← snmp_walk EMERSON_STATUSES_OID 30;
  mfold emerson_outlet [] res_outlet.

(** ** fence_intelmodular *)

Definition INTEL_STATUSES_OID : string := ".1.3.6.1.4.1.343.2.19.1.2.10.202.1.1.6".
Definition INTEL_STATUS_UP : Z := 2.
Definition INTEL_SET_ON : Z := 2.
Definition INTEL_SET_OFF : Z := 3.

Definition intel_get_power_status : M D pyval :=
  plug ← opt_show "--plug";
  status ← get_value (INTEL_STATUSES_OID +:+ "." +:+ plug);
  mret (VStr (on_if (bool_decide (status = str_of_Z INTEL_STATUS_UP)))).

Definition intel_set_power_status : M D unit :=
  plug ← opt_show "--plug";
  on ← action_is_on;
  snmp_set (INTEL_STATUSES_OID +:+ "." +:+ plug) (VInt (and_or on INTEL_SET_ON INTEL_SET_OFF)) 0.

Definition intel_outlet (result : outlets) (x : list string) : M D outlets :=
  oid ← column x 0;
  status ← column x 1;
  mret (dict_insert (last_part oid)
          ("", Some (on_if (bool_decide (status = str_of_Z INTEL_STATUS_UP)))) result).

Definition intel_get_outlets_status : M D outlets :=
  res_blades ← snmp_walk INTEL_STATUSES_OID 30;
  mfold intel_outlet [] res_blades.
End Agents.

(** ** fence_ifmib

    The global [port_num] keeps the number of the port once it is known. *)

Definition ALIASES_OID : string := ".1.3.6.1.2.1.31.1.1.1.18".
Definition PORTS_OID : string := ".1.3.6.1.2.1.2.2.1.2".
Definition STATUSES_OID : string := ".1.3.6.1.2.1.2.2.1.7".
Definition STATUS_UP : Z := 1.
Definition STATUS_DOWN : Z := 2.

Section Ifmib.
Context `{Terminal D}.

(** The first port with that name. *)
Fixpoint find_port (port : string) (ports : list (list string)) : M (option Z * D) (option Z) :=
  match ports with
  | [] => mret None
  | x :: ports' =>
      name ← column x 1;
      if bool_decide (strip_quotes name = port) then
        oid ← column x 0; n ← as_int (VStr (last_part oid)); mret (Some n)
      else find_port port ports'
  end.

Definition port2index (port : string) : M (option Z * D) Z :=
  res ← (if isdigit port then n ← as_int (VStr port); mret (Some n)
         else ports ← snmp_walk PORTS_OID 30; find_port port ports);
  match res with
  | Some n => mret n
  | None => fail_usage ("Can't find port with name " +:+ port +:+ "!") true ;; raise (OtherError "unreachable")
  end.

Definition ifmib_port : M (option Z * D) Z :=
  g ← globals;
  match g with
  | Some n => mret n
  | None => plug ← opt_str "--plug"; n ← port2index plug; set_globals (Some n) ;; mret n
  end.

Definition ifmib_get_power_status : M (option Z * D) pyval :=
  n ← ifmib_port;
  status ← get_value (STATUSES_OID +:+ "." +:+ str_of_Z n);
  mret (VStr (on_if (bool_decide (status = str_of_Z STATUS_UP)))).

Definition ifmib_set_power_status : M (option Z * D) unit :=
  n ← ifmib_port;
  on ← action_is_on;
  snmp_set (STATUSES_OID +:+ "." +:+ str_of_Z n) (VInt (and_or on STATUS_UP STATUS_DOWN)) 0.

Definition ifmib_outlet (res_aliases : list (string * string)) (result : outlets) (x : list string)
    : M (option Z * D) outlets :=
  oid ← column x 0;
  name ← column x 1;
  mret (dict_insert (strip_quotes name) (alias_of res_aliases (last_part oid), Some "") result).

Definition ifmib_get_outlets_status : M (option Z * D) outlets :=
  res_fc ← snmp_walk PORTS_OID 30;
  rows ← snmp_walk ALIASES_OID 30;
  res_aliases ← array_to_dict rows;
  mfold (ifmib_outlet res_aliases) [] res_fc.
End Ifmib.

(** ** fence_cisco_mds

    The global [PORT_OID] is computed from the plug before the first request. *)

Definition PORT_ADMIN_STATUS_OID : string := ".1.3.6.1.2.1.75.1.2.2.1.1".

(** [^fc(\d+)/(\d+)$] *)
Definition fc_port_re : re :=
  Seqs [Bos; Lit "fc"; Group 1 (Plus Digit); Lit "/"; Group 2 (Plus Digit); Eos].

(** The same in double quotes. *)
Definition fc_name_re : re :=
  Seqs [Bos; Lit (dq +:+ "fc"); Plus Digit; Lit "/"; Plus Digit; Lit dq; Eos].

Section Cisco.
Context `{Terminal D}.

Definition cisco_port2oid (port : string) : M (string * D) string :=
  let port := lower port in
  match search fc_port_re port with
  | Some m =>
      a ← as_int (VStr (m_group 1 m));
      b ← as_int (VStr (m_group 2 m));
      mret (PORT_ADMIN_STATUS_OID +:+ "." +:+ str_of_Z (a + 21) +:+ "." +:+ str_of_Z (b - 1))
  | None => fail_usage ("Mangled port number: " +:+ port) true ;; mret ""
  end.

Definition cisco_get_power_status : M (string * D) pyval :=
  oid ← globals;
  status ← get_value oid;
  mret (VStr (on_if (bool_decide (status = "1")))).

Definition cisco_set_power_status : M (string * D) unit :=
  oid ← globals;
  on ← action_is_on;
  snmp_set oid (VInt (and_or on 1 2)) 0.

Definition cisco_outlet (res_aliases : list (string * string)) (result : outlets) (x : list string)
    : M (string * D) outlets :=
  name ← column x 1;
  if bool_decide (is_Some (search fc_name_re name)) then
    oid ← column x 0;
    mret (dict_insert (strip_quotes name) (alias_of res_aliases (last_part oid), Some "") result)
  else mret result.

Definition cisco_get_outlets_status : M (string * D) outlets :=
  res_fc ← snmp_walk PORTS_OID 30;
  rows ← snmp_walk ALIASES_OID 30;
  res_aliases ← array_to_dict rows;
  mfold (cisco_outlet res_aliases) [] res_fc.
End Cisco.

(** ** The programs *)

Definition emerson_docs : docs := Docs
  "fence_emerson is a Power Fencing agent which can be used with MPX and MPH2 managed rack PDU."
  "Fence agent for Emerson over SNMP" (Some "http://www.emersonnetworkpower.com") [] None.

Definition intel_docs : docs := Docs
  ("fence_intelmodular is a Power Fencing agent which can be used with Intel Modular device (tested on Intel MFSYS25, should work with MFSYS35 as well). " +:+ nl +:+ ".P" +:+ nl +:+ "Note: Since firmware update version 2.7, SNMP v2 write support is removed, and replaced by SNMP v3 support. So agent now has default SNMP version 3. If you are using older firmware, please supply -d for command line and snmp_version option for your cluster.conf.")
  "Fence agent for Intel Modular" (Some "http://www.intel.com") [] None.

Definition ifmib_docs : docs := Docs
  ("fence_ifmib is an I/O Fencing agent which can be used with any SNMP IF-MIB capable device. " +:+ nl +:+ ".P" +:+ nl +:+ "It was written with managed ethernet switches in mind, in order to fence iSCSI SAN connections. However, there are many devices that support the IF-MIB interface. The agent uses IF-MIB::ifAdminStatus to control the state of an interface.")
  "Fence agent for IF MIB" (Some "http://www.ietf.org/wg/concluded/ifmib.html") [] None.

Definition cisco_docs : docs := Docs
  "fence_cisco_mds is an I/O Fencing agent which can be used with any Cisco MDS 9000 series with SNMP enabled device."
  "Fence agent for Cisco MDS" (Some "http://www.cisco.com") [] None.

Definition fabric_device_opt : list string := "fabric_fencing" :: snmp_device_opt.

Section Mains.
Context `{Host D, Terminal D}.
Variables (fuel : nat) (time_start : Z) (inv : invocation)
  (set_order : list string → list string).

(** What these programs have in common, from the options on. *)
Definition checked_options {W} `{Host W} (device_opt : list string) : M W unit :=
  '(avail_opt, opt) ← process_input inv device_opt;
  check_input (inv_env inv) avail_opt opt false ;; mret tt.

Definition fence_emerson_main : M D unit :=
  allopt_set "power_wait" (Default (VStr "5")) ;;
  checked_options snmp_device_opt ;;
  show_docs (inv_prog inv) set_order (Some emerson_docs) ;;
  snmp_init time_start ;;
  result ← fence_action fuel (Some emerson_set_power_status) (Some emerson_get_power_status)
             (Some emerson_get_outlets_status) None None;
  sys_exit result.

Definition fence_intelmodular_main : M D unit :=
  checked_options snmp_device_opt ;;
  show_docs (inv_prog inv) set_order (Some intel_docs) ;;
  snmp_init time_start ;;
  result ← fence_action fuel (Some intel_set_power_status) (Some intel_get_power_status)
             (Some intel_get_outlets_status) None None;
  sys_exit result.

Definition fence_ifmib_main : M (option Z * D) unit :=
  allopt_set "snmp_version" (Default (VStr "2c")) ;;
  checked_options fabric_device_opt ;;
  show_docs (inv_prog inv) set_order (Some ifmib_docs) ;;
  snmp_init time_start ;;
  result ← fence_action fuel (Some ifmib_set_power_status) (Some ifmib_get_power_status)
             (Some ifmib_get_outlets_status) None None;
  sys_exit result.

Definition fence_cisco_mds_main : M (string * D) unit :=
  checked_options fabric_device_opt ;;
  show_docs (inv_prog inv) set_order (Some cisco_docs) ;;
  action ← opt_get "--action";
  mwhen (negb (bool_decide (action ∈ VStr <$> ["list"; "monitor"])))
    (plug ← opt_str "--plug"; oid ← cisco_port2oid plug; set_globals oid) ;;
  snmp_init time_start ;;
  result ← fence_action fuel (Some cisco_set_power_status) (Some cisco_get_power_status)
             (Some cisco_get_outlets_status) None None;
  sys_exit result.
End Mains.
