(* ===== verification/PduSpec.v ===== *)
(** * Outlets over SNMP

    A server of SNMP objects, and fence_apc_snmp and fence_ipdu on it. *)

From S2P Require Import Prelude PyStr PyRe OptionDefs Effects Fail Host Input Process Login Snmp.
From S2P Require Import Metadata Action Power PowerSpec TextFacts WordsSpec Globals PduSnmp.
From S2P Require Import EatonSnmp.

Local Open Scope string_scope.

(** The words of a command line: the program, the arguments for credentials and address,
    and what is asked. [table] is the value of each object, [write] what a set request
    does to the table; the tools answer in time. A walk of the object that identifies the
    device prints that object alone. *)
Class SnmpServer (D : Type) `{Terminal D} (getp setp walkp args : list string)
    (table : D → string → string)
    (write : (string → string) → string → string → string → string) : Prop := {
  serve_get : ∀ cmd oid x, shlex_split cmd = inl (getp ++ args ++ [oid])%list →
    ∃ out x' line name, (∀ t, t_run cmd t x = (inl (out, Some 0%Z), x')) ∧
      found error_re out = false ∧ last (splitlines out) = Some line ∧
      split_ws1 line = [name; table x oid] ∧ ∀ o, table x' o = table x o;
  serve_set : ∀ cmd oid v x, shlex_split cmd = inl (setp ++ args ++ [oid; "i"; v])%list →
    ∃ out x', (∀ t, t_run cmd t x = (inl (out, Some 0%Z), x')) ∧ found error_re out = false ∧
      ∀ o, table x' o = write (table x) oid v o;
  serve_identity : ∀ cmd x, shlex_split cmd = inl (walkp ++ args ++ [OID_SYS_OBJECT_ID])%list →
    ∃ out x' line name, (∀ t, t_run cmd t x = (inl (out, Some 0%Z), x')) ∧
      found error_re out = false ∧ splitlines out = [line] ∧ startswith "." line = true ∧
      split_ws1 line = [name; table x OID_SYS_OBJECT_ID] ∧ ∀ o, table x' o = table x o
}.

(** The words that the class adds for the options of a run. *)
Definition snmp_args {D} (s : st D) (ip : string) : list string :=
  (["-m"; ""; "-Oeqn"] ++ flag_words s mapping_all ++
   (if version_3 s then flag_words s mapping_v3 else []) ++ [address s ip])%list.

Definition is_text (v : option pyval) : Prop :=
  match v with None | Some (VStr _) => True | _ => False end.

(** Options with which the class can run: nothing that it would have to complete, and
    texts and numbers where it needs them. *)
Record snmp_ready {D} (getp setp walkp args : list string) (s : st D) : Prop := SnmpReady {
  sr_complete : Forall (λ e, forallb (condition_holds s) e.1 = false) missed_params;
  sr_text : Forall (λ item, is_text (s_opts s !! ("--" +:+ item.1))) (mapping_all ++ mapping_v3);
  sr_args : ∃ ip, s_opts s !! "--ip" = Some (VStr ip) ∧ snmp_args s ip = args;
  sr_get : ∃ path, s_opts s !! "--snmpget-path" = Some (VStr path) ∧ shlex_split path = inl getp;
  sr_set : ∃ path, s_opts s !! "--snmpset-path" = Some (VStr path) ∧ shlex_split path = inl setp;
  sr_walk : ∃ path, s_opts s !! "--snmpwalk-path" = Some (VStr path) ∧ shlex_split path = inl walkp;
  sr_shell : ∃ v t, s_opts s !! "--shell-timeout" = Some v ∧ py_int v = inl t;
  sr_login : ∃ v t, s_opts s !! "--login-timeout" = Some v ∧ py_int v = inl t
}.

Section Requests.
Context `{Terminal D} {getp setp walkp args : list string}.
Implicit Types s : st D.

Lemma add_flags_eq mapping cmd s :
  Forall (λ item, is_text (s_opts s !! ("--" +:+ item.1))) mapping →
  ∃ cmd', add_flags mapping cmd s = (Ret cmd', s).
Proof.
  intros Ht. revert cmd. unfold add_flags. induction Ht as [|item mapping Hi _ IH]; intros cmd.
  { by exists cmd. }
  cbn [mfold]. unfold opt_find, mbind, M_bind.
  destruct (s_opts s !! ("--" +:+ item.1)) as [[]|]; try done; cbn; apply IH.
Qed.

Lemma complete_nothing s :
  Forall (λ e, forallb (condition_holds s) e.1 = false) missed_params →
  complete_missed_params s = (Ret tt, s).
Proof.
  unfold complete_missed_params. induction 1 as [|e l He _ IH]; [done|].
  cbn [mfor]. unfold mbind, M_bind, get_st. rewrite He. cbn. apply IH.
Qed.

Lemma prepare_cmd_words path pws s :
  snmp_ready getp setp walkp args s → shlex_split path = inl pws →
  ∃ cmd, prepare_cmd path s = (Ret cmd, s) ∧ shlex_split cmd = inl (pws ++ args)%list.
Proof.
  intros [Hc Ht (ip & Hip & Hargs) _ _ _ _ _] Hp.
  assert (∃ cmd, prepare_cmd path s = (Ret cmd, s)) as [cmd Hcmd].
  { apply Forall_app in Ht as [Ht1 Ht3]. unfold prepare_cmd. cbv zeta.
    rewrite (bind_Ret _ _ _ _ _ (complete_nothing s Hc)).
    destruct (add_flags_eq mapping_all (path +:+ " -m '' -Oeqn ") s Ht1) as [c1 H1].
    rewrite (bind_Ret _ _ _ _ _ H1).
    rewrite (bind_Ret (opt_find _) _ _ _ _ eq_refl).
    assert (∃ c2, (if bool_decide (s_opts s !! "--snmp-version" = Some (VStr "3"))
                   then add_flags mapping_v3 c1 else mret c1) s = (Ret c2, s)) as [c2 H2].
    { case_bool_decide; [by apply add_flags_eq|by exists c1]. }
    rewrite (bind_Ret _ _ _ _ _ H2).
    unfold udp_prefix, opt_has. rewrite !bind_assoc.
    eexists. unfold mbind, M_bind, mret, M_ret, opt_find, opt_str, opt_get, mbind, M_bind.
    rewrite Hip. reflexivity. }
  exists cmd. split; [done|].
  destruct (snmp_command_words path s cmd s pws Hcmd Hp) as (ip' & Hip' & Hw).
  rewrite Hip in Hip'. injection Hip' as <-. by rewrite Hw, <- Hargs.
Qed.

(** A command that the tool runs without an error: its output is the result. *)
Lemma snmp_run_ok cmd extra s out d' :
  snmp_ready getp setp walkp args s → (∀ t, t_run cmd t (s_dev s) = (inl (out, Some 0%Z), d')) →
  found error_re out = false →
  ∃ s', snmp_run_command cmd extra s = (Ret out, s') ∧ s_opts s' = s_opts s ∧ s_dev s' = d'.
Proof.
  intros Hr Hrun He. destruct (sr_shell _ _ _ _ _ Hr) as (v1 & t1 & Hv1 & Ht1).
  destruct (sr_login _ _ _ _ _ Hr) as (v2 & t2 & Hv2 & Ht2).
  unfold snmp_run_command, try_except.
  set (s1 := add_event (EvLog DEBUG (cmd +:+ nl)) s).
  rewrite (bind_Ret (log _ _) _ s tt s1 eq_refl).
  unfold shell_timeout, login_timeout.
  rewrite (bind_Ret _ _ _ _ _ (opt_int_eq _ _ _ s1 Hv1 Ht1)).
  rewrite (bind_Ret _ _ _ _ _ (opt_int_eq _ _ _ s1 Hv2 Ht2)).
  assert (frun cmd (t1 + t2 + extra)%Z s1 = (Ret (out, Some 0%Z), set_dev d' s1)) as Hf.
  { unfold frun, device_op. change (s_dev s1) with (s_dev s). by rewrite Hrun. }
  rewrite (bind_Ret _ _ _ _ _ Hf). cbn [fst snd check_result].
  rewrite He. eexists. split; [reflexivity|]. done.
Qed.
End Requests.

Section Served.
Context `{Terminal D} {G : Type} {getp setp walkp args : list string}
  {table : D → string → string} {write : (string → string) → string → string → string → string}
  {Server : SnmpServer D getp setp walkp args table write}.
Implicit Types s : st (G * D).

(** Only the device has changed. *)
Definition only_device (s s' : st (G * D)) : Prop :=
  s_opts s' = s_opts s ∧ (s_dev s').1 = (s_dev s).1.

Lemma object_words cmd oid ws :
  shlex_split cmd = inl ws →
  shlex_split (cmd +:+ " '" +:+ quote_for_run oid +:+ "'") = inl (ws ++ [oid])%list.
Proof.
  intros Hc. change (cmd +:+ " '" +:+ quote_for_run oid +:+ "'")
    with (cmd +:+ String " " (in_quotes oid)).
  apply shlex_split_app; [done|apply shlex_in_quotes].
Qed.

(** A get request gives the name and the value of the object. *)
Lemma server_get oid s :
  snmp_ready getp setp walkp args s →
  ∃ name s', snmp_get oid 0 s = (Ret [name; table (s_dev s).2 oid], s') ∧ only_device s s' ∧
    ∀ o, table (s_dev s').2 o = table (s_dev s).2 o.
Proof using Server.
  intros Hr. destruct (sr_get _ _ _ _ _ Hr) as (path & Hpath & Hwords).
  destruct (prepare_cmd_words path getp s Hr Hwords) as (cmd & Hcmd & Hcw).
  pose proof (object_words cmd oid _ Hcw) as Hw. rewrite <- app_assoc in Hw.
  set (full := cmd +:+ " '" +:+ quote_for_run oid +:+ "'") in *.
  destruct (serve_get full oid (s_dev s).2 Hw) as (out & x' & line & name & Hrun & He & Hl & Hsp & Ht).
  destruct (snmp_run_ok full 0 s out ((s_dev s).1, x') Hr) as (s' & Hs' & Ho & Hd).
  { intros t. cbn. unfold lift_op. by rewrite Hrun. }
  { done. }
  exists name, s'. split.
  - unfold snmp_get. rewrite (bind_Ret _ _ _ _ _ (opt_str_eq _ _ _ Hpath)).
    rewrite (bind_Ret _ _ _ _ _ Hcmd). fold full. rewrite (bind_Ret _ _ _ _ _ Hs').
    rewrite Hl, Hsp. done.
  - unfold only_device. by rewrite Hd.
Qed.

(** The walk that identifies the device gives one row. *)
Lemma server_identity s :
  snmp_ready getp setp walkp args s →
  ∃ name s', snmp_walk OID_SYS_OBJECT_ID 0 s =
      (Ret [[name; table (s_dev s).2 OID_SYS_OBJECT_ID]], s') ∧ only_device s s' ∧
    ∀ o, table (s_dev s').2 o = table (s_dev s).2 o.
Proof using Server.
  intros Hr. destruct (sr_walk _ _ _ _ _ Hr) as (path & Hpath & Hwords).
  destruct (prepare_cmd_words path walkp s Hr Hwords) as (cmd & Hcmd & Hcw).
  pose proof (object_words cmd OID_SYS_OBJECT_ID _ Hcw) as Hw. rewrite <- app_assoc in Hw.
  set (full := cmd +:+ " '" +:+ quote_for_run OID_SYS_OBJECT_ID +:+ "'") in *.
  destruct (serve_identity full (s_dev s).2 Hw) as (out & x' & line & name & Hrun & He & Hl & Hdot & Hsp & Ht).
  destruct (snmp_run_ok full 0 s out ((s_dev s).1, x') Hr) as (s' & Hs' & Ho & Hd).
  { intros t. cbn. unfold lift_op. by rewrite Hrun. }
  { done. }
  exists name, s'. split.
  - unfold snmp_walk. rewrite (bind_Ret _ _ _ _ _ (opt_str_eq _ _ _ Hpath)).
    rewrite (bind_Ret _ _ _ _ _ Hcmd). fold full. rewrite (bind_Ret _ _ _ _ _ Hs').
    rewrite Hl, filter_cons, decide_True by (by rewrite Hdot). cbn [filter list_filter map].
    by rewrite Hsp.
  - unfold only_device. by rewrite Hd.
Qed.

(** A set request for a number writes its text. *)
Lemma server_set oid n s :
  snmp_ready getp setp walkp args s →
  ∃ s', snmp_set oid (VInt n) 0 s = (Ret tt, s') ∧ only_device s s' ∧
    ∀ o, table (s_dev s').2 o = write (table (s_dev s).2) oid (str_of_Z n) o.
Proof using Server.
  intros Hr. destruct (sr_set _ _ _ _ _ Hr) as (path & Hpath & Hwords).
  destruct (prepare_cmd_words path setp s Hr Hwords) as (cmd & Hcmd & Hcw).
  set (full := cmd +:+ " '" +:+ quote_for_run oid +:+ "' " +:+ type_of_value (VInt n) +:+
     " '" +:+ quote_for_run (py_str (VInt n)) +:+ "'").
  assert (shlex_split full = inl (setp ++ args ++ [oid; "i"; str_of_Z n])%list) as Hw.
  { transitivity (shlex_split ((cmd +:+ " '" +:+ quote_for_run oid +:+ "'") +:+
      String " " ("i" +:+ String " " (in_quotes (str_of_Z n))))).
    - f_equal. unfold full, in_quotes. by rewrite <- !str_app_assoc.
    - rewrite (shlex_split_app _ _ _ ["i"; str_of_Z n] (object_words cmd oid _ Hcw)).
      + by rewrite <- !app_assoc.
      + rewrite (shlex_split_app "i" (in_quotes (str_of_Z n)) ["i"] [str_of_Z n]);
          [done|done|apply shlex_in_quotes]. }
  destruct (serve_set full oid _ (s_dev s).2 Hw) as (out & x' & Hrun & He & Ht).
  destruct (snmp_run_ok full 0 s out ((s_dev s).1, x') Hr) as (s' & Hs' & Ho & Hd).
  { intros t. cbn. unfold lift_op. by rewrite Hrun. }
  { done. }
  exists s'. split.
  - unfold snmp_set. rewrite (bind_Ret _ _ _ _ _ (opt_str_eq _ _ _ Hpath)).
    rewrite (bind_Ret _ _ _ _ _ Hcmd). fold full. by rewrite (bind_Ret _ _ _ _ _ Hs').
  - unfold only_device. by rewrite Hd.
Qed.
End Served.

(** * Power distribution units over SNMP, from the command to the outlet

    The callbacks of fence_apc_snmp and fence_ipdu, run against a device that serves its
    objects over SNMP, implement the interface [Obedient] for one plug: with
    [fence_action_refines] the requested outlet, and no other, ends in the requested
    state. With several plugs they do not: the first number looked up is kept. *)

(** ** Options the class reads stay as they are *)

Lemma snmp_ready_same {D} getp setp walkp args (s s' : st D) :
  (∀ k, k ∉ loop_keys → s_opts s' !! k = s_opts s !! k) →
  snmp_ready getp setp walkp args s → snmp_ready getp setp walkp args s'.
Proof.
  intros Hk [H1 H2 (ip & Hip & Hargs) H4 H5 H6 H7 H8].
  assert (∀ k, bool_decide (k ∉ loop_keys) = true → s_opts s' !! k = s_opts s !! k) as Hk'
    by (intros k Hb; apply Hk; by apply bool_decide_eq_true in Hb).
  split.
  - revert H1. unfold missed_params. rewrite !Forall_cons, !Forall_nil. cbn.
    by rewrite !Hk' by reflexivity.
  - revert H2. unfold mapping_all, mapping_v3. cbn [app]. rewrite !Forall_cons, !Forall_nil. cbn.
    by rewrite !Hk' by reflexivity.
  - exists ip. rewrite Hk' by reflexivity. split; [done|]. rewrite <- Hargs.
    unfold snmp_args, flag_words, version_3, address, transport, mapping_all, mapping_v3. cbn.
    by rewrite !Hk' by reflexivity.
  - by rewrite Hk' by reflexivity.
  - by rewrite Hk' by reflexivity.
  - by rewrite Hk' by reflexivity.
  - by rewrite Hk' by reflexivity.
  - by rewrite Hk' by reflexivity.
Qed.

(** ** One outlet *)

Section Outlet.
Context `{Terminal D} {getp setp walkp args : list string}
  {table : D → string → string} {write : (string → string) → string → string → string → string}
  {Server : SnmpServer D getp setp walkp args table write}.
Variables (agents_dir : list (string * pdu)) (fallback : option pdu).

(** The device, without switches, and the objects of its outlets. *)
Variable d : pdu.
Definition object_of (fmt : pdu → string) (k : Z) : string := default "" (percent_d (fmt d) [k]).

Definition outlet_on (x : D) (k : Z) : bool :=
  bool_decide (table x (object_of status_oid k) = str_of_Z (state_on d)).

Hypotheses (Hsw : has_switches d = false) (Hon : turn_on d ≠ 0%Z)
  (Hholes : ∀ k, is_Some (percent_d (status_oid d) [k]) ∧ is_Some (percent_d (control_oid d) [k])).

(** Writing the number for on or off to the control object of an outlet switches that
    outlet. *)
Hypothesis Hwrite : ∀ tb k (b : bool) j,
  bool_decide (write tb (object_of control_oid k) (str_of_Z (if b then turn_on d else turn_off d))
                 (object_of status_oid j) = str_of_Z (state_on d)) =
  (if decide (j = k) then b
   else bool_decide (tb (object_of status_oid j) = str_of_Z (state_on d))).

(** The device that the agent knows, or that it will find by the type the device gives. *)
Definition found_device (s : st (pdu_globals * D)) : option pdu :=
  match g_device (s_dev s).1 with
  | Some dev => Some dev
  | None =>
      match dict_get (table (s_dev s).2 OID_SYS_OBJECT_ID) agents_dir with
      | Some dev => Some dev
      | None => fallback
      end
  end.

(** The agent works with the device [d], and with no other outlet than [n]. *)
Record pdu_ok (n : Z) (others : Z → bool) (s : st (pdu_globals * D)) : Prop := PduOk {
  po_ready : snmp_ready getp setp walkp args s;
  po_device : found_device s = Some d;
  po_port : g_port (s_dev s).1 = None ∨
            g_port (s_dev s).1 = Some n ∧ g_device (s_dev s).1 = Some d;
  po_others : ∀ k, k ≠ n → outlet_on (s_dev s).2 k = others k
}.

Lemma globals_eq (s : st (pdu_globals * D)) : globals s = (Ret (s_dev s).1, s).
Proof. done. Qed.

(** Its number is looked up once; afterwards the plug does not matter. *)
Lemma ensure_port_known n s :
  g_port (s_dev s).1 = Some n → ensure_port agents_dir fallback s = (Ret tt, s).
Proof. intros Hp. unfold ensure_port. rewrite (bind_Ret _ _ _ _ _ (globals_eq s)). by rewrite Hp. Qed.

Lemma the_device_eq (s : st (pdu_globals * D)) :
  g_device (s_dev s).1 = Some d → the_device s = (Ret d, s).
Proof.
  intros Hd. unfold the_device. rewrite (bind_Ret _ _ _ _ _ (globals_eq s)). by rewrite Hd.
Qed.

(** An unknown device is asked for its type first. *)
Lemma find_device s :
  snmp_ready getp setp walkp args s → found_device s = Some d →
  total (match g_device (s_dev s).1 with
         | None => pdu_set_device agents_dir fallback
         | Some _ => mret tt
         end) s (λ _ s', s_opts s' = s_opts s ∧ g_device (s_dev s').1 = Some d ∧
    ∀ o, table (s_dev s').2 o = table (s_dev s).2 o).
Proof using Server.
  intros Hr. unfold found_device. destruct (g_device (s_dev s).1) as [dev|] eqn:Hd.
  { intros [= ->]. by apply total_ret. }
  intros Hfound. destruct (server_identity s Hr) as (name & s1 & Hs1 & [Hopt Hg] & Ht).
  unfold pdu_set_device. eapply total_step; [exact Hs1|]. cbv beta iota.
  eapply total_step; [reflexivity|].
  apply (total_step _ _ s1 d s1).
  { unfold device_of_type. cbn [mbind option_bind].
    destruct (dict_get _ agents_dir) as [dev|]; [by injection Hfound as ->|]. by rewrite Hfound. }
  eapply total_step; [apply globals_eq|]. eapply total_step; [reflexivity|].
  eexists _, _. split; [reflexivity|]. split_and!; [done..|exact Ht].
Qed.

Lemma ensure_port_number n p s :
  snmp_ready getp setp walkp args s → found_device s = Some d → g_port (s_dev s).1 = None →
  s_opts s !! "--plug" = Some (VStr p) → isdigit p = true → py_int (VStr p) = inl n →
  total (ensure_port agents_dir fallback) s (λ _ s', s_opts s' = s_opts s ∧
    (∀ o, table (s_dev s').2 o = table (s_dev s).2 o) ∧
    g_device (s_dev s').1 = Some d ∧ g_port (s_dev s').1 = Some n).
Proof using Server Hsw.
  intros Hr Hd Hn Hp Hdig Hint. unfold ensure_port.
  eapply total_step; [apply globals_eq|]. rewrite Hn. unfold pdu_resolv_port_id.
  eapply total_step; [apply globals_eq|].
  eapply total_then; [by apply find_device|]. cbv beta. intros u s1 (Hopt & Hd1 & Ht).
  eapply total_step; [by apply the_device_eq|].
  eapply total_step; [apply opt_str_eq; by rewrite Hopt|].
  unfold by_number. rewrite Hdig, Hsw. eapply total_step; [reflexivity|]. cbv beta iota.
  unfold as_int. rewrite Hint. eexists _, _. split; [reflexivity|]. done.
Qed.

Lemma outlet_oid_eq fmt n (s : st (pdu_globals * D)) :
  g_device (s_dev s).1 = Some d → g_port (s_dev s).1 = Some n → is_Some (percent_d (fmt d) [n]) →
  outlet_oid fmt s = (Ret (object_of fmt n), s).
Proof using Hsw.
  intros Hd Hn [oid Ho]. unfold outlet_oid.
  rewrite (bind_Ret _ _ _ _ _ (the_device_eq s Hd)), (bind_Ret _ _ _ _ _ (globals_eq s)).
  rewrite Hsw, Hn. cbn [mbind option_bind]. unfold object_of. rewrite Ho. done.
Qed.

(** Once the number is known, the callbacks act on that outlet whatever the plug is. *)
Lemma pdu_set_known n b s :
  snmp_ready getp setp walkp args s → g_device (s_dev s).1 = Some d → g_port (s_dev s).1 = Some n →
  s_opts s !! "--action" = Some (VStr (on_off b)) →
  total (pdu_set_power_status agents_dir fallback) s (λ _ s', only_device s s' ∧
    ∀ j, outlet_on (s_dev s').2 j = if decide (j = n) then b else outlet_on (s_dev s).2 j).
Proof using Server Hsw Hon Hholes Hwrite.
  intros Hr Hd Hn Ha. unfold pdu_set_power_status.
  eapply total_step; [by apply (ensure_port_known n)|].
  eapply total_step; [apply (outlet_oid_eq _ n); [done|done|apply Hholes]|].
  eapply total_step; [by apply opt_get_eq|].
  eapply total_step; [by apply the_device_eq|].
  assert (and_or (bool_decide (VStr (on_off b) = VStr "on")) (turn_on d) (turn_off d) =
    (if b then turn_on d else turn_off d)) as ->.
  { unfold and_or. rewrite (proj2 (Z.eqb_neq _ _) Hon). by destruct b. }
  destruct (server_set (object_of control_oid n) (if b then turn_on d else turn_off d) s Hr)
    as (s' & Hs' & Hsame & Ht).
  exists tt, s'. split; [done|]. split; [done|]. intros j. unfold outlet_on.
  rewrite Ht. apply Hwrite.
Qed.

Lemma pdu_get_known n s :
  snmp_ready getp setp walkp args s → g_device (s_dev s).1 = Some d → g_port (s_dev s).1 = Some n →
  total (pdu_get_power_status agents_dir fallback) s (λ v s', only_device s s' ∧
    v = VStr (on_off (outlet_on (s_dev s).2 n)) ∧
    ∀ j, outlet_on (s_dev s').2 j = outlet_on (s_dev s).2 j).
Proof using Server Hsw Hholes.
  intros Hr Hd Hn. unfold pdu_get_power_status.
  eapply total_step; [by apply (ensure_port_known n)|].
  eapply total_step; [apply (outlet_oid_eq _ n); [done|done|apply Hholes]|].
  destruct (server_get (object_of status_oid n) s Hr) as (name & s' & Hs' & Hsame & Ht).
  eapply total_step.
  { unfold get_status_of. by rewrite (bind_Ret _ _ _ _ _ Hs'). }
  eapply total_step; [apply the_device_eq; by rewrite (proj2 Hsame)|].
  apply total_ret. split_and!; [done|by unfold outlet_on; case_bool_decide|].
  intros j. unfold outlet_on. by rewrite Ht.
Qed.

(** ** The interface *)

Section Plug.
Variables (p : string) (n : Z).
Hypotheses (Hdigits : isdigit p = true) (Hnumber : py_int (VStr p) = inl n).

Lemma ensure_port_ok others s :
  pdu_ok n others s → s_opts s !! "--plug" = Some (VStr p) →
  total (ensure_port agents_dir fallback) s (λ _ s', pdu_ok n others s' ∧
    s_opts s' = s_opts s ∧ (∀ j, outlet_on (s_dev s').2 j = outlet_on (s_dev s).2 j) ∧
    g_port (s_dev s').1 = Some n ∧ g_device (s_dev s').1 = Some d).
Proof using Server Hsw Hdigits Hnumber.
  intros [Hr Hd [Hn|[Hn Hd']] Ho] Hp.
  - eapply total_weaken; [by apply (ensure_port_number n p)|]. cbv beta.
    intros u s' (Hopt & Ht & Hd' & Hn').
    assert (∀ j, outlet_on (s_dev s').2 j = outlet_on (s_dev s).2 j) as Hj
      by (intros j; unfold outlet_on; by rewrite Ht).
    split_and!; [|done..]. split; [|unfold found_device; by rewrite Hd'|by right|].
    + eapply snmp_ready_same; [|done]. intros k _. by rewrite Hopt.
    + intros k Hk. rewrite Hj. auto.
  - exists tt, s. split_and!; [by apply (ensure_port_known n)| |done..]. split; auto.
Qed.

(** For one plug with a number, the agent on a device that serves SNMP is obedient, and
    every other outlet stays as it is. *)
#[export] Instance pdu_obedient others :
  Obedient [p] 0 (pdu_ok n others) (λ x _, outlet_on x.2 n) (λ _, O)
    (pdu_get_power_status agents_dir fallback) (pdu_set_power_status agents_dir fallback).
Proof using Server Hsw Hon Hholes Hwrite Hdigits Hnumber.
  assert (∀ s s', pdu_ok n others s → g_device (s_dev s).1 = Some d → only_device s s' →
    (∀ j, j ≠ n → outlet_on (s_dev s').2 j = outlet_on (s_dev s).2 j) →
    pdu_ok n others s' ∧ frame s s') as Hkeep.
  { intros s s' [Hr _ Hn Ho] Hd [Hopt Hg] Hj. split.
    - split; [|unfold found_device; by rewrite Hg, Hd|by rewrite Hg|intros k Hk; rewrite Hj by done; auto].
      eapply snmp_ready_same; [|done]. intros k _. by rewrite Hopt.
    - by apply frame_opts. }
  split.
  - intros s s' [Hr Hd Hn Ho] [Hdev Hk].
    split; [by eapply snmp_ready_same|by unfold found_device; rewrite Hdev|by rewrite Hdev..].
  - intros s q Hok _ Hp ->%list_elem_of_singleton.
    destruct (ensure_port_ok others s Hok Hp) as (u & s1 & Hs1 & Hok1 & Hopt1 & Hx1 & Hn1 & Hd1).
    apply (total_from _ s s1).
    { unfold pdu_get_power_status. rewrite (bind_Ret _ _ _ _ _ Hs1).
      by rewrite (bind_Ret _ _ _ _ _ (ensure_port_known n s1 Hn1)). }
    pose proof Hok1 as [Hr1 _ _ _].
    eapply total_weaken; [by apply (pdu_get_known n)|]. cbv beta.
    intros v s2 (Hsame & -> & Hj). destruct (Hkeep s1 s2 Hok1 Hd1 Hsame) as [Hok2 Hf]; [auto|].
    split_and!; [done| |by intros ??; rewrite Hj, Hx1|lia|by rewrite Hx1].
    etrans; [|exact Hf]. by apply frame_opts.
  - intros s q a Hok Hp ->%list_elem_of_singleton Ha.
    destruct (ensure_port_ok others s Hok Hp) as (u & s1 & Hs1 & Hok1 & Hopt1 & Hx1 & Hn1 & Hd1).
    apply (total_from _ s s1).
    { unfold pdu_set_power_status. rewrite (bind_Ret _ _ _ _ _ Hs1).
      by rewrite (bind_Ret _ _ _ _ _ (ensure_port_known n s1 Hn1)). }
    pose proof Hok1 as [Hr1 _ _ _].
    eapply total_weaken; [apply (pdu_set_known n a); [done..|by rewrite Hopt1]|]. cbv beta.
    intros v s2 (Hsame & Hj). destruct (Hkeep s1 s2 Hok1 Hd1 Hsame) as [Hok2 Hf].
    { intros j Hne. by rewrite Hj, decide_False. }
    split_and!; [done| |lia|].
    + etrans; [|exact Hf]. by apply frame_opts.
    + intros r ->%list_elem_of_singleton. by rewrite Hj, !decide_True.
Qed.
End Plug.

(** C4. From the command line to the outlet: when the device serves its objects over
    SNMP, on, off and reboot of one numbered plug by fence_apc_snmp or fence_ipdu return 0,
    the outlet of that number is then on, or off for "off", and every other outlet is as it
    was. The device has no switches; it is either known to the agent (fence_ipdu sets it
    before it starts) or found by the walk for its type that the first callback makes
    (fence_apc_snmp). *)
Theorem pdu_switches_outlet p n T a fuel lst sync s :
  isdigit p = true → py_int (VStr p) = inl n → snmp_ready getp setp walkp args s →
  found_device s = Some d → g_port (s_dev s).1 = None →
  settings T s → requested_plugs s = Some [p] →
  s_opts s !! "--action" = Some (VStr a) → a ∈ ["on"; "off"; "reboot"] →
  (0 < fuel)%nat →
  ∃ s', fence_action fuel (Some (pdu_set_power_status agents_dir fallback))
          (Some (pdu_get_power_status agents_dir fallback)) lst None sync s = (Ret EC_OK, s') ∧
    ∀ k, outlet_on (s_dev s').2 k =
         if decide (k = n) then negb (bool_decide (a = "off")) else outlet_on (s_dev s).2 k.
Proof using Server Hsw Hon Hholes Hwrite.
  intros Hdig Hint Hr Hd Hn Hset Hreq Ha Hin Hfuel.
  pose (others k := outlet_on (s_dev s).2 k).
  destruct (fence_action_leaves (Obey := pdu_obedient p n Hdig Hint others) T [p] a fuel lst None sync s)
    as (s' & Hrun & Hok & Hpw); try done.
  - split; [done|done|by left|done].
  - lia.
  - exists s'. split; [done|]. intros k. case_decide as Hk; [|by apply Hok]. subst k.
    rewrite (Hpw p) by left. rewrite left_requested.
    + unfold requested_states. by rewrite decide_True by left.
    + intros _. unfold mixed. cbn. by destruct (outlet_on (s_dev s).2 n).
Qed.

(** ** Several plugs *)

(** The state between the commands of one attempt, once the number is known. *)
Record commanding (n : Z) (others : Z → bool) (T : Z) (b : bool) (s : st (pdu_globals * D))
    : Prop := Commanding {
  cm_ok : pdu_ok n others s;
  cm_port : g_port (s_dev s).1 = Some n;
  cm_device : g_device (s_dev s).1 = Some d;
  cm_settings : settings T s;
  cm_action : s_opts s !! "--action" = Some (VStr (on_off b))
}.

Lemma commanding_same n others T b s s' :
  same_device s s' → frame s s' → commanding n others T b s → commanding n others T b s'.
Proof.
  intros [Hd Hk] Hf [[Hr Hg Hp Ho] Hn Hdev Hset Ha]. split.
  - split; [by eapply snmp_ready_same|by unfold found_device; rewrite Hd|by rewrite Hd..].
  - by rewrite Hd.
  - by rewrite Hd.
  - by eapply frame_settings.
  - rewrite Hf; [done|closed_dec].
Qed.

(** A command, run from a state that resolves its plug to [s2]. *)
Lemma command_step n others T b s1 s2 :
  pdu_set_power_status agents_dir fallback s1 = pdu_set_power_status agents_dir fallback s2 →
  commanding n others T b s2 →
  total (pdu_set_power_status agents_dir fallback ;; t ← opt_int "--power-wait"; sleep t) s1
    (λ _ s', commanding n others T b s').
Proof using Server Hsw Hon Hholes Hwrite.
  intros Heq [[Hr Hg Hp Ho] Hn Hdev Hset Ha].
  eapply total_then; [eapply total_from; [exact Heq|by apply (pdu_set_known n b)]|].
  cbv beta. intros u s3 [[Hopt Hgl] Hj].
  assert (commanding n others T b s3) as Hs3.
  { split; [split|..]; try by rewrite ?Hgl, ?Hopt.
    2: { unfold found_device. by rewrite Hgl, Hdev. }
    - eapply snmp_ready_same; [|done]. intros k _. by rewrite Hopt.
    - intros k Hk. rewrite Hj, decide_False by done. auto.
    - eapply frame_settings; [|done]. by apply frame_opts. }
  destruct (set_wait _ _ (cm_settings _ _ _ _ _ Hs3)) as (v & t & Hv & Ht & Hpos).
  eapply total_step; [by eapply opt_int_eq|].
  eexists _, _. split; [by apply sleep_eq|].
  apply (commanding_same n others T b s3); [by apply same_device_opts|by apply frame_opts|done].
Qed.

(** A step for any further plug switches nothing but the outlet of the first. *)
Lemma set_step_known n others T b q s :
  commanding n others T b s →
  total (select_plug q ;; pdu_set_power_status agents_dir fallback ;;
         t ← opt_int "--power-wait"; sleep t) s (λ _ s', commanding n others T b s').
Proof using Server Hsw Hon Hholes Hwrite.
  intros Hs. destruct (select_plug_eq q s) as (s1 & Hs1 & _ & Hf1 & Hd1).
  eapply total_step; [exact Hs1|]. eapply command_step; [done|]. by eapply commanding_same.
Qed.

Lemma set_plugs_known n others T b plugs s :
  commanding n others T b s →
  total (set_plugs (pdu_set_power_status agents_dir fallback) plugs) s
    (λ _ s', commanding n others T b s').
Proof using Server Hsw Hon Hholes Hwrite.
  revert s. induction plugs as [|q plugs IH]; intros s Hs; [by apply total_ret|].
  eapply total_then; [by apply (set_step_known n others T b)|]. intros u s'. apply IH.
Qed.

(** With several plugs the commands all go to the outlet of the first of them: no outlet
    with another number is ever switched, whatever the other plugs are. *)
Lemma pdu_first_plug_only p n plugs b T s :
  isdigit p = true → py_int (VStr p) = inl n → snmp_ready getp setp walkp args s →
  found_device s = Some d → g_port (s_dev s).1 = None → settings T s →
  s_opts s !! "--action" = Some (VStr (on_off b)) →
  total (set_plugs (pdu_set_power_status agents_dir fallback) (p :: plugs)) s
    (λ _ s', ∀ k, k ≠ n → outlet_on (s_dev s').2 k = outlet_on (s_dev s).2 k).
Proof using Server Hsw Hon Hholes Hwrite.
  intros Hdig Hint Hr Hd Hn Hset Ha. pose (others k := outlet_on (s_dev s).2 k).
  assert (pdu_ok n others s) as Hok by (split; auto).
  destruct (select_plug_eq p s) as (s1 & Hs1 & Hp1 & Hf1 & Hd1).
  assert (pdu_ok n others s1) as Hok1.
  { by eapply (ok_same_device (Obedient := pdu_obedient p n Hdig Hint others)). }
  destruct (ensure_port_ok p n Hdig Hint others s1 Hok1 Hp1) as (v & s2 & Hs2 & Hok2 & Hopt2 & Hx2 & Hn2 & Hd2).
  eapply total_weaken with (Q := λ _ s', commanding n others T b s').
  2: { intros _ s' [[_ _ _ Ho] _ _ _ _]. exact Ho. }
  eapply total_then; [|intros u s'; apply set_plugs_known].
  eapply total_step; [exact Hs1|]. apply (command_step n others T b s1 s2).
  - unfold pdu_set_power_status. rewrite (bind_Ret _ _ _ _ _ Hs2).
    by rewrite (bind_Ret _ _ _ _ _ (ensure_port_known n s2 Hn2)).
  - split; [done|done|done| |rewrite Hopt2, Hf1; [done|closed_dec]].
    eapply frame_settings; [|done]. etrans; [exact Hf1|]. by apply frame_opts.
Qed.
End Outlet.

(** ** Devices for the examples

    An APC rPDU, whose outlets have an object for their state and one for commands, and an
    IBM iPDU, where one object is both: the set of the states that are on. *)
Module Sim.
Inductive kind := Apc | Ibm.
Record sim (k : kind) := Pdu { on_states : gset string }.
#[global] Arguments on_states {k}.

(** The type that the device gives, and what it shows for off. *)
Definition type_of (k : kind) : string :=
  match k with Apc => ".1.3.6.1.4.1.318.1.3.4.5" | Ibm => ".1.3.6.1.4.1.2.6.223" end.
Definition off_text (k : kind) : string := match k with Apc => "2" | Ibm => "0" end.

(** The state that a command to an object changes. *)
Definition commands : string := ".1.3.6.1.4.1.318.1.1.12.3.3.1.1.4.".
Definition states : string := ".1.3.6.1.4.1.318.1.1.12.3.5.1.1.4.".
Definition state_of (oid : string) : string :=
  if String.prefix commands oid then
    states +:+ String.substring (String.length commands) (String.length oid - String.length commands) oid
  else oid.

Definition value {k} (x : sim k) (oid : string) : string :=
  if decide (oid = OID_SYS_OBJECT_ID) then type_of k
  else if decide (oid ∈ on_states x) then "1" else off_text k.

Definition store {k} (x : sim k) (oid v : string) : sim k :=
  Pdu k (if decide (v = "1") then {[state_of oid]} ∪ on_states x
         else on_states x ∖ {[state_of oid]}).

Definition write (k : kind) (tb : string → string) (oid v : string) (o : string) : string :=
  if decide (o = OID_SYS_OBJECT_ID) then tb o
  else if decide (o = state_of oid) then if decide (v = "1") then "1" else off_text k
  else tb o.

(** The words for this community, version and address. *)
Definition args : list string := ["-m"; ""; "-Oeqn"; "-v"; "1"; "-c"; "private"; "pdu"].

Definition refused : exn := PexpectError "refused".

Definition answer {k} (command : string) (x : sim k) : (string * option Z + exn) * sim k :=
  match shlex_split command with
  | inl (tool :: ws) =>
      if decide (take 8 ws = args) then
        match drop 8 ws with
        | [oid] => (inl (".1 " +:+ value x oid +:+ nl, Some 0%Z), x)
        | [oid; _; v] => (inl ("ok" +:+ nl, Some 0%Z), store x oid v)
        | _ => (inr refused, x)
        end
      else (inr refused, x)
  | _ => (inr refused, x)
  end.

#[export] Instance sim_terminal k : Terminal (sim k) := {|
  t_spawn _ x := (inr refused, x);
  t_expect _ _ x := (inr refused, x);
  t_read _ _ x := (inr refused, x);
  t_send _ x := (inr refused, x);
  t_close x := (inl tt, x);
  t_run command _ x := answer command x
|}.

Lemma value_store k (x : sim k) oid v o : value (store x oid v) o = write k (value x) oid v o.
Proof.
  unfold value, store, write. destruct (decide (o = OID_SYS_OBJECT_ID)); [done|]. cbn [on_states].
  destruct (decide (v = "1")), (decide (o = state_of oid)) as [->|Ho].
  - by rewrite decide_True by set_solver.
  - rewrite (decide_ext _ (o ∈ on_states x)); [done|]. rewrite elem_of_union, elem_of_singleton. tauto.
  - rewrite decide_False; [done|]. rewrite elem_of_difference, elem_of_singleton. tauto.
  - rewrite (decide_ext _ (o ∈ on_states x)); [done|]. rewrite elem_of_difference, elem_of_singleton. tauto.
Qed.

#[export] Instance sim_server k :
  SnmpServer (sim k) ["snmpget"] ["snmpset"] ["snmpwalk"] args value (write k).
Proof.
  assert (∀ tool cmd oid (x : sim k), shlex_split cmd = inl (tool :: args ++ [oid])%list →
    ∀ t, t_run cmd t x = (inl (".1 " +:+ value x oid +:+ nl, Some 0%Z), x)) as Hrun.
  { intros tool cmd oid x Hw t. cbn [t_run sim_terminal]. unfold answer. by rewrite Hw. }
  split.
  - intros cmd oid x Hw. exists (".1 " +:+ value x oid +:+ nl), x, (".1 " +:+ value x oid), ".1".
    split_and!; [by eapply Hrun|..]; unfold value;
      by destruct (decide (oid = OID_SYS_OBJECT_ID)), (decide (oid ∈ on_states x)), k.
  - intros cmd oid v x Hw. exists ("ok" +:+ nl), (store x oid v). split_and!; [|done|].
    + intros t. cbn [t_run sim_terminal]. unfold answer. by rewrite Hw.
    + apply value_store.
  - intros cmd x Hw. exists (".1 " +:+ type_of k +:+ nl), x, (".1 " +:+ type_of k), ".1".
    split_and!; [exact (Hrun _ _ _ _ Hw)|..]; by destruct k.
Qed.

Definition start {k} (action plug : string) (d : option pdu) (x : sim k) : st (pdu_globals * sim k) :=
  St (list_to_map
        [("--action", VStr action); ("--plug", VStr plug); ("--plug-separator", VStr ",");
         ("--power-wait", VStr "0"); ("--power-timeout", VStr "20");
         ("--stonith-status-sleep", VStr "1"); ("--retry-on", VStr "1");
         ("--shell-timeout", VStr "3"); ("--login-timeout", VStr "5");
         ("--snmpget-path", VStr "snmpget"); ("--snmpset-path", VStr "snmpset");
         ("--snmpwalk-path", VStr "snmpwalk");
         ("--snmp-version", VStr "1"); ("--community", VStr "private"); ("--ip", VStr "pdu");
         ("device_opt", VList ["ipaddr"; "port"; "snmp_version"; "snmp"])])
     ∅ [] 0 (PduGlobals d None None, x).

Lemma sim_ready k a p d (x : sim k) :
  snmp_ready ["snmpget"] ["snmpset"] ["snmpwalk"] args (start a p d x).
Proof.
  split.
  - repeat (apply Forall_cons; split; [vm_compute; reflexivity|]). apply Forall_nil; done.
  - repeat (apply Forall_cons; split; [vm_compute; exact I|]). apply Forall_nil; done.
  - by exists "pdu".
  - by exists "snmpget".
  - by exists "snmpset".
  - by exists "snmpwalk".
  - by exists (VStr "3"), 3%Z.
  - by exists (VStr "5"), 5%Z.
Qed.

Lemma sim_settings k a p d (x : sim k) : settings 20 (start a p d x).
Proof.
  split; unfold start; cbn [s_opts].
  - by exists (VStr "20").
  - by exists (VStr "1"), 1%Z.
  - by exists (VStr "0"), 0%Z.
  - by exists (VStr "1"), 1%Z.
  - by exists "".
  - exists ["ipaddr"; "port"; "snmp_version"; "snmp"]. split_and!; [done|closed_dec..].
Qed.

(** Writing the number for on or off to an outlet switches that outlet, when its command
    goes to its state. *)
Lemma sim_write k dev (prefix : string) tb j (b : bool) i :
  (∀ n, object_of dev status_oid n = prefix +:+ str_of_Z n) →
  (∀ n, state_of (object_of dev control_oid n) = object_of dev status_oid n) →
  (∀ n, prefix +:+ str_of_Z n ≠ OID_SYS_OBJECT_ID) → state_on dev = 1%Z → turn_on dev = 1%Z →
  str_of_Z (turn_off dev) ≠ "1" → off_text k ≠ "1" →
  bool_decide (write k tb (object_of dev control_oid j) (str_of_Z (if b then turn_on dev else turn_off dev))
      (object_of dev status_oid i) = str_of_Z (state_on dev)) =
  (if decide (i = j) then b
   else bool_decide (tb (object_of dev status_oid i) = str_of_Z (state_on dev))).
Proof.
  intros Hstatus Hstate Hsys Hon Hton Htoff Hoff. unfold write.
  rewrite Hstate, !Hstatus, (decide_False (P := _ = OID_SYS_OBJECT_ID)) by done.
  rewrite Hon, Hton. destruct (decide (i = j)) as [->|Hij].
  - rewrite decide_True by done. destruct b; [done|].
    rewrite decide_False by done. by apply bool_decide_eq_false.
  - rewrite decide_False; [done|]. intros Heq%(inj (String.append _)). by apply Hij, str_of_Z_inj.
Qed.
Lemma apc_write tb j (b : bool) i :
  bool_decide (write Apc tb (object_of ApcRPDU control_oid j)
      (str_of_Z (if b then turn_on ApcRPDU else turn_off ApcRPDU))
      (object_of ApcRPDU status_oid i) = str_of_Z (state_on ApcRPDU)) =
  (if decide (i = j) then b
   else bool_decide (tb (object_of ApcRPDU status_oid i) = str_of_Z (state_on ApcRPDU))).
Proof.
  assert (∀ n, object_of ApcRPDU status_oid n = states +:+ str_of_Z n) as Hs
    by (intros n; unfold object_of; cbn; by rewrite str_app_nil).
  apply (sim_write Apc ApcRPDU states); [done| |intros n; discriminate|done..].
  intros n. rewrite Hs.
  assert (object_of ApcRPDU control_oid n = commands +:+ str_of_Z n) as ->
    by (unfold object_of; cbn; by rewrite str_app_nil).
  unfold state_of. by rewrite prefix_of_app, substring_after.
Qed.

Lemma ipdu_write tb j (b : bool) i :
  bool_decide (write Ibm tb (object_of IBMiPDU control_oid j)
      (str_of_Z (if b then turn_on IBMiPDU else turn_off IBMiPDU))
      (object_of IBMiPDU status_oid i) = str_of_Z (state_on IBMiPDU)) =
  (if decide (i = j) then b
   else bool_decide (tb (object_of IBMiPDU status_oid i) = str_of_Z (state_on IBMiPDU))).
Proof.
  apply (sim_write Ibm IBMiPDU ".1.3.6.1.4.1.2.6.223.8.2.2.1.11."); [|done|intros n; discriminate|done..].
  intros n. unfold object_of. cbn. by rewrite str_app_nil.
Qed.
End Sim.

#[local] Existing Instance Sim.sim_terminal.

(** Outlets 1 and 2 are on. *)
Definition both_on : Sim.sim Sim.Ibm :=
  Sim.Pdu Sim.Ibm ({[object_of IBMiPDU status_oid 1]} ∪ {[object_of IBMiPDU status_oid 2]}).
Definition apc_both_on : Sim.sim Sim.Apc :=
  Sim.Pdu Sim.Apc ({[object_of ApcRPDU status_oid 1]} ∪ {[object_of ApcRPDU status_oid 2]}).

(** fence_apc_snmp, which does not know the device when it starts, and fence_ipdu, which
    does. *)
Lemma pdu_switches_outlet_witness :
  (∃ s', fence_action 1 (Some (pdu_set_power_status apc_agents_dir (Some ApcMS)))
           (Some (pdu_get_power_status apc_agents_dir (Some ApcMS))) None None None
           (Sim.start "off" "2" None apc_both_on) = (Ret EC_OK, s') ∧
     map (outlet_on (table := Sim.value) ApcRPDU (s_dev s').2) [1; 2]%Z = [true; false]) ∧
  (∃ s', fence_action 1 (Some ipdu_set_power_status) (Some ipdu_get_power_status) None None None
           (Sim.start "off" "2" (Some IBMiPDU) both_on) = (Ret EC_OK, s') ∧
     map (outlet_on (table := Sim.value) IBMiPDU (s_dev s').2) [1; 2]%Z = [true; false]).
Proof.
  split.
  - destruct (pdu_switches_outlet (Server := Sim.sim_server Sim.Apc) apc_agents_dir (Some ApcMS) ApcRPDU
      eq_refl (λ H, ltac:(discriminate H)) (λ k, conj (ex_intro _ _ eq_refl) (ex_intro _ _ eq_refl))
      Sim.apc_write "2" 2 20 "off" 1 None None (Sim.start "off" "2" None apc_both_on)
      eq_refl eq_refl (Sim.sim_ready _ _ _ _ _) eq_refl eq_refl (Sim.sim_settings _ _ _ _ _)
      eq_refl eq_refl) as (s' & Hrun & Hout); [closed_dec|lia|].
    exists s'. split; [exact Hrun|]. cbn [map]. rewrite !Hout. vm_compute. reflexivity.
  - destruct (pdu_switches_outlet (Server := Sim.sim_server Sim.Ibm) ipdu_agents_dir (Some IBMiPDU) IBMiPDU
      eq_refl (λ H, ltac:(discriminate H)) (λ k, conj (ex_intro _ _ eq_refl) (ex_intro _ _ eq_refl))
      Sim.ipdu_write "2" 2 20 "off" 1 None None (Sim.start "off" "2" (Some IBMiPDU) both_on)
      eq_refl eq_refl (Sim.sim_ready _ _ _ _ _) eq_refl eq_refl (Sim.sim_settings _ _ _ _ _)
      eq_refl eq_refl) as (s' & Hrun & Hout); [closed_dec|lia|].
    exists s'. split; [exact Hrun|]. cbn [map]. rewrite !Hout. vm_compute. reflexivity.
Defined.

(** Plugs 1 and 2 are to be switched off, and success is reported, but 2 stays on. *)
Example second_plug_stays_on :
  let r := fence_action 1 (Some ipdu_set_power_status) (Some ipdu_get_power_status) None None None
             (Sim.start "off" "1,2" (Some IBMiPDU) both_on) in
  r.1 = Ret EC_OK ∧ last (s_trace r.2) = Some (EvPrint "Success: Powered OFF") ∧
  map (outlet_on (table := Sim.value) IBMiPDU (s_dev r.2).2) [1; 2]%Z = [false; true].
Proof. vm_compute. split_and!; reflexivity. Qed.

(** On a switched ePDU of Eaton a list of plugs is not counted from 0 as one plug is, and
    every command moves the number on: for plugs 1 and 4 the commands go to the controls of
    outlets 2 and 3. *)
Definition eaton_start : st (eaton_globals * Sim.sim Sim.Ibm) :=
  let s := Sim.start "on" "1,4" None (Sim.Pdu Sim.Ibm ∅) in
  St (s_opts s) ∅ [] 0 (EatonGlobals (Some EatonSwitchedePDU) None None false, Sim.Pdu Sim.Ibm ∅).

Definition eaton_control (k : Z) : string := default "" (percent_d (control_oid EatonSwitchedePDU) [k]).

Example eaton_plugs_drift :
  let r := set_plugs eaton_set_power_status ["1"; "4"] eaton_start in
  r.1 = Ret tt ∧
  map (λ k, Sim.value (s_dev r.2).2 (eaton_control (k + 1))) [1; 2; 3; 4]%Z = ["0"; "1"; "1"; "0"].
Proof. vm_compute. split; reflexivity. Qed.
