(* ===== verification/Console.v ===== *)
(** * Agents that talk to a console

    Small agents under [agents/]: each logs in over telnet or ssh with the session layer of
    the library, sends the commands of one kind of device, and reads its screens. This file
    has what they share; the screens are the device's. *)

From S2P Require Import Prelude PyStr PyRe OptionDefs Effects Fail Host Input Process CheckInput.
From S2P Require Import Login Metadata Action.

Local Open Scope string_scope.

(** [d[k]] of a literal dictionary, such as [{'on': 'powerup', 'off': 'powerdown'}]. *)
Definition dict_item {D} (d : list (string * string)) (k : string) : M D string :=
  match dict_get k d with Some v => mret v | None => raise (KeyError k) end.

(** [l[k]] *)
Definition list_item {D A} (l : list A) (k : nat) : M D A :=
  match l !! k with Some a => mret a | None => raise IndexError end.

(** [r.search(s).group(n)]; no match is an AttributeError of [None]. *)
Definition search_group {D} (r : re) (n : nat) (s : string) : M D string :=
  match search r s with
  | Some m => mret (m_group n m)
  | None => raise (AttributeError "'NoneType' object has no attribute 'group'")
  end.

(** The same function often gives the status of a plug or, for a listing, all outlets.
    Where a status is expected, outlets are like [None]: neither on nor off. *)
Definition as_status {D} (f : M D (pyval + outlets)) : M D pyval :=
  r ← f; mret (match r with inl v => v | inr _ => VNone end).

Definition as_outlets {D} (f : M D (pyval + outlets)) : M D outlets :=
  r ← f;
  match r with
  | inr os => mret os
  | inl _ => raise (AttributeError "object has no attribute 'items'")
  end.

(** [["list", "monitor"].count(options["--action"]) == 1] *)
Definition listing_action {D} : M D bool :=
  action ← opt_get "--action"; mret (bool_decide (action ∈ [VStr "list"; VStr "monitor"])).

Section Console.
Context `{Terminal D}.

(** [conn.log_expect(options["--command-prompt"], int(options[timeout]))]; the text before
    the prompt. *)
Definition expect_prompt (timeout : string) : M D string :=
  prompt ← command_prompt; t ← opt_int timeout; r ← log_expect prompt t; mret r.1.2.

(** A command and the screen it gives. *)
Definition ask (command timeout : string) : M D string :=
  send_eol command ;; expect_prompt timeout.

(** The same for one pattern; also the text that matched. *)
Definition expect_one (p : pattern) (timeout : string) : M D string :=
  t ← opt_int timeout; r ← log_expect [p] t; mret r.2.

Definition action_on_off (on off : string) : M D string :=
  action ← opt_get "--action"; mret (if decide (action = VStr "on") then on else off).
End Console.

(** ** The main program of an agent

    [ca_checked] and [ca_late] are the changes of the options after they were checked,
    before and after the documentation; [ca_start] is what is sent after the login. *)
Section Main.
Context `{Host D, Terminal D}.

Record console_agent := ConsoleAgent {
  ca_setup : M D unit;
  ca_device_opt : list string;
  ca_input : gmap string pyval → M D (gmap string pyval);
  ca_checked : M D unit;
  ca_late : M D unit;
  ca_docs : docs;
  ca_login : re;
  ca_start : M D unit;
  ca_set : M D unit;
  ca_get : M D pyval;
  ca_list : option (M D outlets);
  ca_cycle : option (M D bool);
  ca_logout : M D unit
}.

Definition console_main (fuel : nat) (time_start : Z) (inv : invocation)
    (set_order : list string → list string) (a : console_agent) : M D unit :=
  ca_setup a ;;
  '(avail_opt, opt) ← process_input inv (ca_device_opt a);
  opt ← ca_input a opt;
  check_input (inv_env inv) avail_opt opt false ;;
  ca_checked a ;;
  show_docs (inv_prog inv) set_order (Some (ca_docs a)) ;;
  ca_late a ;;
  fence_login time_start (ca_login a) ;;
  ca_start a ;;
  result ← fence_action fuel (Some (ca_set a)) (Some (ca_get a)) (ca_list a) (ca_cycle a) None;
  ca_logout a ;;
  sys_exit result.
End Main.
Arguments console_agent : clear implicits.
