(* ===== verification/ConsoleAgents.v ===== *)
(** * Small agents on the console: one machine or a list of nodes

    [agents/alom], [ilo_mp], [ilo_ssh], [drac], [rsa], [rsb], [ilo_moonshot],
    [cyberpower_ssh] and [brocade]: what each sends and how it reads the screens. *)

From S2P Require Import Prelude PyStr PyRe OptionDefs Effects Fail Host Input Process CheckInput.
From S2P Require Import Login Metadata Action Console.

Local Open Scope string_scope.

(** A regular expression that ignores case: [(on|off)] *)
Definition on_or_off_i : re := Alt (LitI "on") (LitI "off").

Section Agents.
Context `{Terminal D}.

(** ** fence_alom *)

Definition alom_get_power_status : M D pyval :=
  screen ← ask "showplatform" "--shell-timeout";
  mret (VStr (if found (Lit "standby") (lower screen) then "off" else "on")).

Definition alom_set_power_status : M D unit :=
  cmd_line ← action_on_off "poweron" "poweroff -f -y";
  ask cmd_line "--power-timeout" ;;
  t ← opt_int "--power-timeout"; sleep t.

(** ** fence_ilo_mp and fence_ilo_ssh *)

(** The rest of the line after EnabledState=, ignoring case. *)
Definition re_state : re := Seqs [LitI "EnabledState="; Group 1 (Many Any)].

(** [conn.match.group(1)]: the group of the text that matched. *)
Definition ilo_get_power_status : M D pyval :=
  send_eol "show /system1" ;;
  matched ← expect_one (PRe re_state) "--shell-timeout";
  status ← search_group re_state 1 matched;
  mret (VStr (if startswith "enabled" (lower status) then "on" else "off")).

Definition ilo_set_power_status (off : string) : M D unit :=
  command ← action_on_off "start /system1" off;
  ask command "--power-timeout" ;; mret tt.

Definition ilo_mp_set_power_status : M D unit := ilo_set_power_status "stop -f /system1".
Definition ilo_ssh_set_power_status : M D unit := ilo_set_power_status "power off hard".

Definition ilo_ssh_reboot_cycle : M D bool :=
  ask "reset /system1 hard" "--power-timeout" ;;
  status ← ilo_get_power_status;
  mwhen (bool_decide (status = VStr "off")) (log ERROR ("Timed out waiting to power ON" +:+ nl)) ;;
  mret true.

(** ** fence_drac *)

(** The word on or off between white space, ignoring case. *)
Definition drac_re : re := Seqs [Plus Space; Group 1 on_or_off_i; Plus Space].

Definition drac_get_power_status : M D pyval :=
  screen ← ask "getmodinfo" "--shell-timeout";
  status ← search_group drac_re 1 screen;
  mret (VStr (strip (lower status))).

Definition drac_set_power_status : M D unit :=
  action ← opt_str "--action";
  action ← dict_item [("on", "powerup"); ("off", "powerdown")] action;
  ask ("serveraction -d 0 " +:+ action) "--shell-timeout" ;; mret tt.

(** ** fence_rsa *)

(** The rest of the line after the word Power and a colon, ignoring case. *)
Definition rsa_re : re := Seqs [LitI "Power: "; Group 1 (Many Any)].

Definition rsa_get_power_status : M D pyval :=
  screen ← ask "power state" "--shell-timeout";
  let status := match search rsa_re screen with Some m => m_group 1 m | None => "undefined" end in
  mret (VStr (strip (lower status))).

Definition rsa_set_power_status : M D unit :=
  action ← opt_str "--action";
  ask ("power " +:+ action) "--power-timeout" ;; mret tt.

(** ** fence_rsb *)

(** The word after Power Status and a colon, ignoring case. *)
Definition rsb_re : re := Seqs [LitI "Power Status"; Many Space; Lit ": "; Group 1 on_or_off_i].

Definition rsb_get_power_status : M D pyval :=
  send "2" ;;
  screen ← expect_prompt "--shell-timeout";
  status ← search_group rsb_re 1 screen;
  send "0" ;;
  expect_prompt "--shell-timeout" ;;
  mret (VStr (strip (lower status))).

Definition rsb_set_power_status : M D unit :=
  action ← opt_str "--action";
  key ← dict_item [("on", "4"); ("off", "1")] action;
  send "2" ;;
  expect_prompt "--shell-timeout" ;;
  send_eol key ;;
  t ← opt_int "--shell-timeout";
  log_expect [PText ("want to power " +:+ action); PText "yes/no"; PText "'yes' or 'no'"] t ;;
  send_eol "yes" ;;
  expect_one (PText "any key to continue") "--power-timeout" ;;
  send_eol "" ;;
  expect_prompt "--shell-timeout" ;;
  send_eol "0" ;;
  expect_prompt "--shell-timeout" ;;
  mret tt.

(** ** fence_ilo_moonshot *)

(** A line of ten words is a node: its second word the name, its ninth the status. *)
Definition moonshot_node (nodes : outlets) (line : string) : outlets :=
  match split_ws line with
  | [_; name; _; _; _; _; _; _; status; _] => dict_insert name ("", Some (strip (lower status))) nodes
  | _ => nodes
  end.

Definition moonshot_nodes (screen : string) : outlets :=
  foldl moonshot_node [] (splitlines screen).

(** The status of the plug among the outlets, or [EC_STATUS]. *)
Definition status_of_plug (log_missing : bool) (f : string → string) (os : outlets) : M D pyval :=
  plug ← opt_str "--plug";
  match dict_get plug os with
  | Some (_, status) => mret (VStr (f (default "" status)))
  | None =>
      mwhen log_missing (log ERROR ("Failed: '" +:+ plug +:+ "'")) ;;
      fail EC_STATUS true ;; mret VNone
  end.

Definition moonshot_get_power_status : M D (pyval + outlets) :=
  screen ← ask "show node list" "--shell-timeout";
  let nodes := moonshot_nodes screen in
  listing ← listing_action;
  if (listing : bool) then mret (inr nodes)
  else v ← status_of_plug true lower nodes; mret (inl v).

Definition moonshot_set_power_status : M D unit :=
  plug ← opt_show "--plug";
  command ← action_on_off "set node power on " "set node power off force ";
  ask (command +:+ plug) "--power-timeout" ;; mret tt.

(** ** fence_cyberpower_ssh *)

(** White space, a digit, a name, and On or Off: groups 1 to 4. *)
Definition show_re : re :=
  Seqs [Group 1 (Many Space); Group 2 Digit; Many Space; Group 3 (Many Any); Many Space;
        Group 4 (Alt (Lit "On") (Lit "Off")); Many Space].

Definition cyberpower_outlet (os : outlets) (line : string) : outlets :=
  match search show_re line with
  | Some m => dict_insert (m_group 2 m) (m_group 3 m, Some (m_group 4 m)) os
  | None => os
  end.

Definition cyberpower_get_power_status : M D (pyval + outlets) :=
  screen ← ask "oltsta show" "--shell-timeout";
  let os := foldl cyberpower_outlet [] (split_go nl screen 0) in
  listing ← listing_action;
  if (listing : bool) then mret (inr os)
  else v ← status_of_plug false (λ s, strip (lower s)) os; mret (inl v).

Definition cyberpower_set_power_status : M D unit :=
  plug ← opt_str "--plug";
  action ← opt_str "--action";
  ask ("oltctrl index " +:+ plug +:+ " act delay" +:+ action) "--shell-timeout" ;; mret tt.

(** ** fence_brocade *)

(** [line.lstrip()[0].isdigit()] *)
Definition first_is_digit (line : string) : M D bool :=
  match lstrip line with
  | "" => raise IndexError
  | String c _ => mret (is_digit c)
  end.

(** Ports are listed after a line of equals signs; the first word is the number, and a
    port is off when its eighth word says Disabled. *)
Definition brocade_line (acc : outlets * bool) (line : string) : M D (outlets * bool) :=
  let '(os, in_index) := acc in
  if found (LitI "=========") line then mret (os, true)
  else if in_index then
    digit ← first_is_digit line;
    if (digit : bool) then
      let tokens := split_ws (lstrip line) in
      let status := if bool_decide (tokens !! 7%nat = Some "Disabled") then "off" else "on" in
      name ← list_item tokens 0;
      mret (dict_insert name ("", Some status) os, true)
    else mret (os, true)
  else mret (os, false).

Definition brocade_outlets (screen : string) : M D outlets :=
  r ← mfold brocade_line ([], false) (split_go nl screen 0); mret r.1.

Definition brocade_get_power_status : M D (pyval + outlets) :=
  screen ← ask "switchshow" "--power-timeout";
  os ← brocade_outlets screen;
  listing ← listing_action;
  if (listing : bool) then mret (inr os)
  else
    plug ← opt_str "--plug";
    match dict_get plug os with
    | Some (_, status) => mret (inl (VStr (default "" status)))
    | None => raise (KeyError plug)
    end.

Definition brocade_set_power_status : M D unit :=
  action ← opt_str "--action";
  command ← dict_item [("on", "portCfgPersistentEnable"); ("off", "portCfgPersistentDisable")] action;
  plug ← opt_str "--plug";
  ask (command +:+ " " +:+ plug) "--power-timeout" ;; mret tt.
End Agents.

(** ** Documentation *)

Definition alom_docs : docs := Docs
  ("fence_alom is a Power Fencing agent which can be used with ALOM connected machines.")
  ("Fence agent for Sun ALOM") (Some ("http://www.sun.com")) [] None.

Definition ilo_mp_docs : docs := Docs
  ("fence_ilo_mp is a Power Fencing agent for HP iLO MP.")
  ("Fence agent for HP iLO MP") (Some ("http://www.hp.com")) [] None.

Definition ilo_ssh_docs (prog : string) : docs := Docs
  (basename prog +:+ " is a Power Fencing agent that connects to iLO device. It logs into device via ssh and reboot a specified outlet." +:+ nl +:+ ".P" +:+ nl +:+ "WARNING: The monitor-action is prone to timeouts. Use the fence_ilo-equivalent to avoid this issue.")
  ("Fence agent for HP iLO over SSH") (Some ("http://www.hp.com")) [("fence_ilo3_ssh", "Fence agent for HP iLO3 over SSH"); ("fence_ilo4_ssh", "Fence agent for HP iLO4 over SSH"); ("fence_ilo5_ssh", "Fence agent for HP iLO5 over SSH")] (Some "fence_ilo_ssh").

Definition drac_docs : docs := Docs
  ("fence_drac is a Power Fencing agent which can be used with the Dell Remote Access Card (DRAC). This card provides remote access to controlling power to a server. It logs into the DRAC through the telnet interface of the card. By default, the telnet interface is not enabled. To enable the interface, you will need to use the racadm command in the racser-devel rpm available from Dell.  To enable telnet on the DRAC: [root]# racadm config -g cfgSerial -o cfgSerialTelnetEnable 1 [root]# racadm racreset ")
  ("Power Fencing agent for Dell DRAC IV") (Some ("http://www.dell.com")) [] None.

Definition rsa_docs : docs := Docs
  ("fence_rsa is a Power Fencing agent which can be used with the IBM RSA II management interface. It logs into an RSA II device via telnet and reboots the associated machine. Lengthy telnet connections to the RSA II device should be avoided while a GFS cluster is running because the connection will block any necessary fencing actions.")
  ("Fence agent for IBM RSA") (Some ("http://www.ibm.com")) [] None.

Definition rsb_docs : docs := Docs
  ("fence_rsb is a Power Fencing agent which can be used with the Fujitsu-Siemens RSB management interface. It logs into device via telnet/ssh  and reboots a specified outlet. Lengthy telnet/ssh connections should be avoided while a GFS cluster is running because the connection will block any necessary fencing actions.")
  ("Power Fencing agent for Fujitsu-Siemens RSB") (Some ("http://www.fujitsu.com")) [] None.

Definition moonshot_docs : docs := Docs
  ("")
  ("Fence agent for HP Moonshot iLO") (Some ("http://www.hp.com")) [] None.

Definition cyberpower_docs : docs := Docs
  ("fence_cyberpower_ssh is a Power Fencing agent which can be used with the CyberPower network power switch. It logs into device via ssh and reboots a specified outlet. Lengthy ssh connections should be avoided while a GFS cluster is running because the connection will block any necessary fencing actions.")
  ("Fence agent for CyberPower over ssh") (Some ("http://www.cyberpower.com")) [] None.

Definition brocade_docs : docs := Docs
  ("fence_brocade is an I/O Fencing agent which can be used with Brocade FC switches. It logs into a Brocade switch via telnet and disables a specified port. Disabling the port which a machine is connected to effectively fences that machine. Lengthy telnet connections to the switch should be avoided  while a GFS cluster is running because the connection will block any necessary fencing actions. After  a fence operation has taken place the fenced machine can no longer connect to the Brocade FC switch.  When the fenced machine is ready to be brought back into the GFS cluster (after reboot) the port on the Brocade FC switch needs to be enabled. This can be done by running fence_brocade and specifying the enable action")
  ("Fence agent for HP Brocade over telnet/ssh") (Some ("http://www.brocade.com")) [] None.

(** ** The programs *)

Section Mains.
Context `{Host D, Terminal D}.

Definition no_change (opt : gmap string pyval) : M D (gmap string pyval) := mret opt.

Definition default_prompt (prompts : list string) : M D unit :=
  allopt_set "cmd_prompt" (Default (VList prompts)).

Definition alom_agent : console_agent D := ConsoleAgent
  (allopt_set "secure" (Default (VStr "1")) ;; default_prompt ["sc\>\ "])
  ["ipaddr"; "login"; "passwd"; "cmd_prompt"; "secure"] no_change
  (opt_set "telnet_over_ssh" (VInt 1)) (mret tt) alom_docs default_re_login (mret tt)
  alom_set_power_status alom_get_power_status None None (fence_logout "logout" 0).

Definition ilo_mp_agent : console_agent D := ConsoleAgent
  (default_prompt ["MP>"; "hpiLO->"] ;; allopt_set "power_wait" (Default (VInt 5)))
  ["ipaddr"; "login"; "passwd"; "secure"; "cmd_prompt"; "telnet"] no_change
  (mret tt) (mret tt) ilo_mp_docs default_re_login (send_eol "SMCLP")
  ilo_mp_set_power_status ilo_get_power_status None None (fence_logout "exit" 0).

Definition ilo_ssh_agent (prog : string) : console_agent D := ConsoleAgent
  (default_prompt ["MP>"; "hpiLO->"] ;; allopt_set "power_wait" (Default (VInt 5)))
  ["ipaddr"; "login"; "passwd"; "secure"; "cmd_prompt"; "method"; "telnet"] no_change
  (mret tt) (opt_set "eol" (VStr (str1 CR))) (ilo_ssh_docs prog) default_re_login (send_eol "SMCLP")
  ilo_ssh_set_power_status ilo_get_power_status None (Some ilo_ssh_reboot_cycle) (fence_logout "exit" 0).

(** The prompt names the user. *)
Definition drac_input (opt : gmap string pyval) : M D (gmap string pyval) :=
  match opt !! "--username" with
  | Some v => x ← as_str v; default_prompt ["\[" +:+ x +:+ "\]# "]
  | None => default_prompt ["\[username\]# "]
  end ;;
  mret opt.

Definition drac_agent : console_agent D := ConsoleAgent (mret tt)
  ["ipaddr"; "login"; "passwd"; "cmd_prompt"; "telnet"] drac_input
  (mret tt) (mret tt) drac_docs default_re_login (mret tt)
  drac_set_power_status drac_get_power_status None None (fence_logout "exit" 0).

Definition rsa_agent : console_agent D := ConsoleAgent
  (allopt_set "login_timeout" (Default (VInt 10)) ;; default_prompt [">"] ;;
   allopt_set "ssh_options" (Default (VStr "-F /dev/null")))
  ["ipaddr"; "login"; "passwd"; "cmd_prompt"; "secure"; "telnet"] no_change
  (mret tt) (mret tt) rsa_docs default_re_login (mret tt)
  rsa_set_power_status rsa_get_power_status None None (fence_logout "exit" 0).

(** The port of telnet is 3172, unless it is given. *)
Definition rsb_input (opt : gmap string pyval) : M D (gmap string pyval) :=
  if bool_decide (opt !! "--ssh" = None) && bool_decide (opt !! "--ipport" = None) then
    allopt_set "ipport" (Default (VStr "3172")) ;;
    mret (<["--ipport" := VStr "3172"]> opt)
  else mret opt.

Definition rsb_agent : console_agent D := ConsoleAgent
  (default_prompt ["to quit:"])
  ["ipaddr"; "login"; "passwd"; "secure"; "cmd_prompt"; "telnet"] rsb_input
  (mret tt) (mret tt) rsb_docs default_re_login (mret tt)
  rsb_set_power_status rsb_get_power_status None None (fence_logout "0" 0).

Definition moonshot_agent : console_agent D := ConsoleAgent
  (allopt_set "secure" (Default (VStr "1")) ;; default_prompt ["MP>"; "hpiLO->"])
  ["ipaddr"; "login"; "passwd"; "secure"; "cmd_prompt"; "port"] no_change
  (mret tt) (mret tt) moonshot_docs default_re_login (mret tt)
  moonshot_set_power_status (as_status moonshot_get_power_status)
  (Some (as_outlets moonshot_get_power_status)) None (fence_logout "exit" 0).

Definition cyberpower_agent : console_agent D := ConsoleAgent
  (default_prompt [nl +:+ ">"; nl +:+ "CyberPower >"])
  ["ipaddr"; "login"; "passwd"; "cmd_prompt"; "secure"; "port"] no_change
  (mret tt) (mret tt) cyberpower_docs default_re_login (mret tt)
  cyberpower_set_power_status (as_status cyberpower_get_power_status)
  (Some (as_outlets cyberpower_get_power_status)) None (fence_logout "exit" 0).

Definition brocade_agent : console_agent D := ConsoleAgent
  (default_prompt ["> "])
  ["ipaddr"; "login"; "passwd"; "cmd_prompt"; "secure"; "port"; "fabric_fencing"; "telnet"] no_change
  (opt_set "eol" (VStr nl)) (mret tt) brocade_docs default_re_login (mret tt)
  brocade_set_power_status (as_status brocade_get_power_status)
  (Some (as_outlets brocade_get_power_status)) None (fence_logout "exit" 0).
End Mains.
