(* ===== verification/HostAgents.v ===== *)
(** * Agents on the console for domains, blades and outlets

    [agents/virsh], [ldom], [bladecenter], [hpblade], [sanbox2], [netio] and [raritan]:
    what each sends and how it reads the screens. *)

From S2P Require Import Prelude PyStr PyRe OptionDefs Effects Fail Host Input Process CheckInput.
From S2P Require Import Login Metadata Action Console ConsoleAgents.

Local Open Scope string_scope.

Definition is_pexpect_timeout (e : exn) : bool :=
  match e with PexpectTIMEOUT _ => true | _ => false end.

(** [\w] on ASCII. *)
Definition is_word_char (c : ascii) : bool :=
  is_digit c || is_lower c || is_upper c || bool_decide (c = "_"%char).

Section Agents.
Context `{Terminal D}.

(** ** fence_virsh *)

Definition get_name_or_uuid : M D string :=
  u ← opt_find "--uuid";
  match u with Some v => as_str v | None => opt_str "--plug" end.

Definition sudo_prefix : M D string :=
  sudo ← opt_has "--use-sudo";
  if (sudo : bool) then path ← opt_str "--sudo-path"; mret (path +:+ " ") else mret "".

Definition running_states : list string := ["running"; "blocked"; "idle"; "no state"; "paused"].

(** Three words at the start of a line. *)
Definition domain_re : re :=
  Seqs [Bos; Many Space; Group 1 (Plus NonSpace); Plus Space; Group 2 (Plus NonSpace); Plus Space;
        Group 3 (Plus NonSpace); Many Any; Eos].

(** [fa_status] becomes true at the header; the lines after it are domains. *)
Definition virsh_line (acc : outlets * bool) (line : string) : outlets * bool :=
  let '(result, fa_status) := acc in
  match search domain_re line with
  | None => acc
  | Some m =>
      if fa_status then
        (dict_insert (m_group 2 m)
           ("", Some (if bool_decide (lower (m_group 3 m) ∈ running_states) then "on" else "off")) result,
         true)
      else (result, bool_decide (lower (m_group 1 m) = "id") && bool_decide (lower (m_group 2 m) = "name"))
  end.

Definition virsh_get_outlets_status : M D outlets :=
  prefix ← sudo_prefix;
  sendline (prefix +:+ "virsh list --all") ;;
  screen ← expect_prompt "--shell-timeout";
  mret (foldl virsh_line ([], false) (splitlines screen)).1.

(** The first line that tells. *)
Fixpoint virsh_state (missing_as_off : bool) (lines : list string) : M D pyval :=
  match lines with
  | [] => mret (VStr "off")
  | line :: lines' =>
      if bool_decide (strip line ∈ running_states) then mret (VStr "on")
      else if contains "error: failed to get domain" (strip line) && missing_as_off then mret (VStr "off")
      else
        mwhen (contains "error:" (strip line))
          (fail_usage "Failed: You have to enter existing name/UUID of virtual machine!" true) ;;
        virsh_state missing_as_off lines'
  end.

Definition virsh_get_power_status : M D pyval :=
  prefix ← sudo_prefix;
  name ← get_name_or_uuid;
  sendline (prefix +:+ "virsh domstate " +:+ name) ;;
  screen ← expect_prompt "--shell-timeout";
  missing_as_off ← opt_has "--missing-as-off";
  virsh_state missing_as_off (splitlines screen).

Definition virsh_set_power_status : M D unit :=
  prefix ← sudo_prefix;
  command ← action_on_off "start" "destroy";
  name ← get_name_or_uuid;
  sendline (prefix +:+ "virsh " +:+ command +:+ " " +:+ name) ;;
  expect_prompt "--power-timeout" ;;
  t ← opt_int "--power-wait"; sleep t.

(** ** fence_ldom *)

Definition COMMAND_PROMPT_REG : string := "\[PEXPECT\]$".
Definition COMMAND_PROMPT_NEW : string := "[PEXPECT]".

(** [conn.expect([pexpect.TIMEOUT, COMMAND_PROMPT_REG], t) == 0] *)
Definition prompt_timed_out : M D bool :=
  t ← opt_int "--shell-timeout";
  try_except (device_op (t_expect [PText COMMAND_PROMPT_REG] (Some t)) ;; mret false)
    (λ e, if is_pexpect_timeout e then Some (mret true) else None).

Definition start_communication : M D unit :=
  send_eol ("PS1='" +:+ COMMAND_PROMPT_NEW +:+ "'") ;;
  csh ← prompt_timed_out;
  mwhen csh
    (send_eol ("set prompt='" +:+ COMMAND_PROMPT_NEW +:+ "'") ;;
     expect_one (PText COMMAND_PROMPT_REG) "--shell-timeout" ;; mret tt).

(** The text before the prompt of the shell. *)
Definition ldom_ask (command timeout : string) : M D string :=
  send_eol command ;;
  t ← opt_int timeout;
  r ← log_expect [PText COMMAND_PROMPT_REG] t;
  mret r.1.2.

Definition ldom_re : re :=
  Seqs [Bos; Group 1 (Plus NonSpace); Plus Space; Group 2 (Plus NonSpace); Plus Space; Many Any; Eos].

Definition ldom_line (acc : outlets * bool) (line : string) : outlets * bool :=
  let '(result, fa_status) := acc in
  match search ldom_re line with
  | None => acc
  | Some m =>
      if fa_status then
        (dict_insert (m_group 1 m)
           ("", Some (if bool_decide (lower (m_group 2 m) = "bound") then "off" else "on")) result, true)
      else (result, bool_decide (m_group 1 m = "NAME") && bool_decide (m_group 2 m = "STATE"))
  end.

Definition ldom_get_power_status : M D (pyval + outlets) :=
  start_communication ;;
  screen ← ldom_ask "ldm ls" "--shell-timeout";
  let result := (foldl ldom_line ([], false) (splitlines screen)).1 in
  listing ← listing_action;
  if (listing : bool) then mret (inr result)
  else
    plug ← opt_str "--plug";
    match dict_get plug result with
    | Some (_, status) => mret (inl (VStr (default "" status)))
    | None => fail_usage "Failed: You have to enter existing logical domain!" true ;; mret (inl VNone)
    end.

Definition ldom_set_power_status : M D unit :=
  start_communication ;;
  command ← action_on_off "start" "stop -f";
  plug ← opt_str "--plug";
  ldom_ask ("ldm " +:+ command +:+ " " +:+ dq +:+ plug +:+ dq) "--power-timeout" ;;
  mret tt.

(** ** fence_bladecenter *)

(** Goes to the blade; false when there is none of that number. *)
Definition enter_blade : M D (string * bool) :=
  plug ← opt_str "--plug";
  let node_cmd := "system:blade\[" +:+ plug +:+ "\]>" in
  send_eol ("env -T system:blade[" +:+ plug +:+ "]") ;;
  t ← opt_int "--shell-timeout";
  i ← expect_index [PText node_cmd; PText "system>"] t;
  mret (node_cmd, negb (bool_decide (i = 1))).

Definition leave_blade : M D unit := ask "env -T system" "--shell-timeout" ;; mret tt.

Definition bladecenter_get_power_status : M D pyval :=
  '(node_cmd, exists_) ← enter_blade;
  if (exists_ : bool) then
    send_eol "power -state" ;;
    t ← opt_int "--shell-timeout";
    r ← log_expect [PText node_cmd] t;
    status ← match last (splitlines r.1.2) with Some l => mret l | None => raise IndexError end;
    leave_blade ;;
    mret (VStr (strip (lower status)))
  else
    missing_as_off ← opt_has "--missing-as-off";
    if (missing_as_off : bool) then mret (VStr "off") else fail EC_STATUS true ;; mret VNone.

Definition bladecenter_set_power_status : M D unit :=
  '(node_cmd, exists_) ← enter_blade;
  if (exists_ : bool) then
    action ← opt_str "--action";
    send_eol ("power -" +:+ action) ;;
    expect_one (PText node_cmd) "--shell-timeout" ;;
    leave_blade
  else
    missing_as_off ← opt_has "--missing-as-off";
    if (missing_as_off : bool) then mret tt else fail EC_GENERIC_ERROR true.

(** A blade, its number in brackets and its name. *)
Definition filter_re : re :=
  Seqs [Bos; Many Space; Lit "blade["; Group 1 (Plus Digit); Lit "]"; Plus Space;
        Group 2 (ManyLazy Any); Many Space; Eos].

Definition blade_line (result : outlets) (line : string) : outlets :=
  match search filter_re line with
  | Some m => dict_insert (m_group 1 m) (m_group 2 m, Some "") result
  | None => result
  end.

Definition bladecenter_get_blades_list : M D outlets :=
  send_eol "env -T system" ;;
  expect_one (PText "system>") "--shell-timeout" ;;
  send_eol "list -l 2" ;;
  t ← opt_int "--shell-timeout";
  r ← log_expect [PText "system>"] t;
  mret (foldl blade_line [] (split_go (str1 CR +:+ nl) r.1.2 0)).

(** ** fence_hpblade *)

Definition type_re : re :=
  Seqs [Bos; Many Space; Lit "Enclosure Type: "; Group 1 (Plus (Chr is_word_char)); Group 2 (ManyLazy Any);
        Many Space; Eos].

(** The last line that matches counts. *)
Definition last_match (r : re) (read : rematch → string) (initial : string) (lines : list string) : string :=
  foldl (λ status line, match search r line with Some m => read m | None => status end) initial lines.

(** The code for an unknown type is not imported: a NameError. *)
Definition get_enclosure_type : M D string :=
  screen ← ask "show enclosure info" "--shell-timeout";
  let enclosure := last_match type_re (m_group 1) "unknown" (splitlines screen) in
  mwhen (bool_decide (enclosure = "unknown"))
    (raise (OtherError "name 'EC_GENERIC_ERROR' is not defined")) ;;
  mret (strip (lower enclosure)).

Definition is_superdome : M D bool :=
  enc_type ← opt_get "enc_type"; mret (bool_decide (enc_type = VStr "superdome")).

Definition superdome_power_re : re :=
  Seqs [Bos; Lit "partition:"; Digit; Plus Space; Lit ":"; Plus (Chr is_word_char); Plus Space; Lit "/";
        Group 1 (Plus (Chr is_word_char)); Space; Many Any; Eos].

Definition server_power_re : re :=
  Seqs [Bos; Many Space; Lit "Power: "; Group 1 (ManyLazy Any); Many Space; Eos].

Definition hpblade_get_power_status : M D pyval :=
  superdome ← is_superdome;
  plug ← opt_str "--plug";
  screen ← ask (if (superdome : bool) then "parstatus -M -p " +:+ plug else "show server status " +:+ plug)
             "--shell-timeout";
  let lines := splitlines screen in
  let status :=
    if (superdome : bool) then
      last_match superdome_power_re
        (λ m, if bool_decide (m_group 1 m = "DOWN") then "off" else "on") "unknown" lines
    else last_match server_power_re (m_group 1) "unknown" lines in
  if bool_decide (status = "unknown") then
    missing_as_off ← opt_has "--missing-as-off";
    if (missing_as_off : bool) then mret (VStr "off")
    else fail EC_STATUS true ;; mret (VStr (strip (lower status)))
  else mret (VStr (strip (lower status))).

(** For an action that is neither on nor off nothing is sent. *)
Definition hpblade_set_power_status : M D unit :=
  superdome ← is_superdome;
  let dev := if (superdome : bool) then "partition " else "server " in
  action ← opt_get "--action";
  (if decide (action = VStr "on") then
     plug ← opt_str "--plug"; send_eol ("poweron " +:+ dev +:+ plug)
   else if decide (action = VStr "off") then
     plug ← opt_str "--plug"; send_eol ("poweroff " +:+ dev +:+ plug +:+ " force")
   else mret tt) ;;
  expect_prompt "--shell-timeout" ;;
  mret tt.

Definition word_char : re := Chr is_word_char.

Definition superdome_list_re : re :=
  Seqs [Bos; Lit "partition:"; Group 1 (Plus Digit); Plus Space; Lit ":"; Plus word_char; Plus Space; Lit "/";
        Group 2 (Plus word_char); Plus Space; Lit ":OK"; ManyLazy Any; Lit ":"; Group 3 (Plus word_char);
        Many Space; Eos].

Definition server_list_re : re :=
  Seqs [Bos; Many Space; Group 1 (Plus Digit); Plus Space; Group 2 (ManyLazy Any); Plus Space;
        Group 3 (ManyLazy Any); Plus Space; Lit "OK"; Plus Space; Group 4 (ManyLazy Any); Plus Space;
        Group 5 (ManyLazy Any); Many Space; Eos].

Definition hpblade_line (superdome : bool) (result : outlets) (line : string) : outlets :=
  match search (if superdome then superdome_list_re else server_list_re) line with
  | Some m =>
      if superdome then dict_insert (m_group 1 m) (m_group 3 m, Some (lower (m_group 2 m))) result
      else dict_insert (m_group 1 m) (m_group 2 m, Some (lower (m_group 4 m))) result
  | None => result
  end.

Definition hpblade_get_instances_list : M D outlets :=
  superdome ← is_superdome;
  screen ← ask (if (superdome : bool) then "parstatus -P -M" else "show server list") "--shell-timeout";
  mret (foldl (hpblade_line superdome) [] (splitlines screen)).

(** ** fence_sanbox2 *)

(** After a timeout the session is ended as well as can be. *)
Definition leave_on_timeout {A} (m : M D A) (after : A) : M D A :=
  try_except m (λ e,
    if is_pexpect_timeout e then
      Some (try_except (send_eol "admin end" ;; send_eol "exit" ;; conn_close)
              (λ e, if is_Exception e then Some (log ERROR ("Failed: " +:+ exn_str e)) else None) ;;
            fail EC_TIMED_OUT true ;; mret after)
    else None).

(** The state online or offline after AdminState, ignoring case. *)
Definition admin_state_re : re :=
  Seqs [Many Any; LitI "AdminState"; Plus Space; Group 1 (Alt (LitI "online") (LitI "offline")); Plus Space].

Definition sanbox2_get_power_status : M D pyval :=
  screen ← leave_on_timeout (plug ← opt_str "--plug"; ask ("show port " +:+ plug) "--shell-timeout") "";
  status ← search_group admin_state_re 1 screen;
  mret (VStr (default "PROBLEM" (dict_get (strip (lower status)) [("online", "on"); ("offline", "off")]))).

(** The command is sent twice. *)
Definition sanbox2_set_power_status : M D unit :=
  action ← opt_str "--action";
  action ← dict_item [("on", "online"); ("off", "offline")] action;
  let command := plug ← opt_str "--plug";
                 ask ("set port " +:+ plug +:+ " state " +:+ action) "--power-timeout" in
  leave_on_timeout command "" ;;
  leave_on_timeout command "" ;;
  mret tt.

Definition port_re : re :=
  Seqs [Bos; Plus Space; Group 1 (Seq Digit (ManyLazy Digit)); Plus Space;
        Group 2 (Alt (LitI "Online") (LitI "Offline")); Plus Space].

Definition sanbox2_line (result : outlets) (line : string) : M D outlets :=
  match search port_re line with
  | Some m =>
      status ← dict_item [("online", "ON"); ("offline", "OFF")] (lower (m_group 2 m));
      mret (dict_insert (m_group 1 m) ("", Some status) result)
  | None => mret result
  end.

Definition sanbox2_get_list_devices : M D outlets :=
  leave_on_timeout
    (screen ← ask "show port" "--shell-timeout"; mfold sanbox2_line [] (splitlines screen)) [].

(** Nobody else may be in the admin section. *)
Definition sanbox2_enter : M D unit :=
  screen ← ask "admin start" "--shell-timeout";
  mwhen (negb (found (Lit "(admin)") screen))
    (log ERROR ("Failed: Unable to switch to admin section" +:+ nl) ;; sys_exit EC_GENERIC_ERROR).

Definition sanbox2_leave : M D unit :=
  try_except (send_eol "admin end" ;; send_eol ("exit" +:+ nl) ;; conn_close)
    (λ e, match e with
          | OSError _ | PexpectEOF _ | PexpectTIMEOUT _ | PexpectError _ => Some (mret tt)
          | _ => None
          end).

(** ** fence_netio *)

Definition netio_re : re := Seqs [Lit "250 "; Chr (λ c, bool_decide (c ∈ ["0"; "1"; "i"; "m"; "t"]%char))].

Definition netio_states : list (string * string) :=
  [("0", "off"); ("1", "on"); ("i", "reboot"); ("m", "manual"); ("t", "timer")].

Definition netio_get_power_status : M D pyval :=
  plug ← opt_show "--plug";
  send_eol ("port " +:+ plug) ;;
  matched ← expect_one (PRe netio_re) "--shell-timeout";
  key ← list_item (split_ws matched) 1;
  status ← dict_item netio_states key;
  mret (VStr status).

Definition netio_set_power_status : M D unit :=
  action ← opt_str "--action";
  action ← dict_item [("on", "1"); ("off", "0"); ("reboot", "i")] action;
  plug ← opt_show "--plug";
  send_eol ("port " +:+ plug +:+ " " +:+ action) ;;
  expect_one (PText "250 OK") "--shell-timeout" ;;
  mret tt.

(** [s[1:-1]] *)
Definition without_ends (s : string) : string := String.substring 1 (String.length s - 2) s.

Definition netio_name (plug : string) : M D string :=
  send_eol ("port setup " +:+ plug) ;;
  matched ← expect_one (PText "250 .+") "--shell-timeout";
  name ← list_item (split_ws matched) 1;
  mret (without_ends name).

(** An exception ends the list; what is there so far is the result. *)
Fixpoint netio_outlets (plugs : list string) (result : outlets) : M D outlets :=
  match plugs with
  | [] => mret result
  | plug :: plugs' =>
      name ← try_except (x ← netio_name plug; mret (Some x))
               (λ e, if is_Exception e then Some (py_print (exn_str e) ;; mret None) else None);
      match name with
      | Some x => netio_outlets plugs' (dict_insert plug (x, Some "unknown") result)
      | None => mret result
      end
  end.

Definition netio_get_outlet_list : M D outlets := netio_outlets ["1"; "2"; "3"; "4"] [].

(** ** Logins on one line *)

(** A refused or silent login. *)
Definition login_denied (m : M D unit) : M D unit :=
  try_except m (λ e,
    match e with
    | PexpectEOF _ | PexpectTIMEOUT _ => Some (fail EC_LOGIN_DENIED true)
    | _ => None
    end).

(** Opens the connection with telnet. *)
Definition open_telnet : M D unit :=
  path ← opt_str "--telnet-path";
  fspawn path ;;
  send ("set binary" +:+ nl) ;;
  ip ← opt_show "--ip";
  port ← opt_show "--ipport";
  send ("open " +:+ ip +:+ " -" +:+ port +:+ nl) ;;
  t ← shell_timeout;
  read_nonblocking 100 t ;;
  mret tt.

Definition netio_login : M D unit :=
  login_denied
    (open_telnet ;;
     expect_one (PText "100 HELLO .*") "--shell-timeout" ;;
     user ← opt_show "--username";
     password ← opt_show "--password";
     send_eol ("login " +:+ user +:+ " " +:+ password) ;;
     expect_one (PText "250 OK") "--shell-timeout" ;; mret tt).

(** ** fence_raritan *)

Definition raritan_re : re :=
  Seqs [Many Any; Lit "powerState is "; Chr (λ c, bool_decide (c ∈ ["1"; "2"]%char)); Many Any].

Definition raritan_get_power_status : M D pyval :=
  plug ← opt_show "--plug";
  send_eol ("show -d properties=powerState " +:+ plug) ;;
  matched ← expect_one (PRe raritan_re) "--shell-timeout";
  key ← list_item (split_ws matched) 2;
  status ← dict_item [("1", "on"); ("2", "off")] key;
  mret (VStr status).

(** The answer is not waited for. *)
Definition raritan_set_power_status : M D unit :=
  action ← opt_str "--action";
  action ← dict_item [("on", "on"); ("off", "off")] action;
  plug ← opt_show "--plug";
  send_eol ("set " +:+ plug +:+ " powerState=" +:+ action).

(** A number becomes the path of the outlet. *)
Definition raritan_plug : M D unit :=
  try_except
    (plug_int ← opt_int "--plug"; opt_set "--plug" (VStr ("/system1/outlet" +:+ str_of_Z plug_int)))
    (λ e, match e with ValueError _ => Some (mret tt) | _ => None end).

Definition raritan_login : M D unit :=
  login_denied
    (open_telnet ;;
     expect_one (PText "Login.*") "--shell-timeout" ;;
     user ← opt_show "--username"; send_eol user ;;
     expect_one (PText "Password.*") "--shell-timeout" ;;
     password ← opt_show "--password"; send_eol password ;;
     expect_one (PText "clp.*") "--shell-timeout" ;; mret tt).
End Agents.

(** ** Documentation *)

Definition virsh_docs : docs := Docs
  ("fence_virsh is a Power Fencing agent which can be used with the virtual machines managed by libvirt. It logs via ssh to a dom0 and there run virsh command, which does all work. " +:+ nl +:+ ".P" +:+ nl +:+ "By default, virsh needs root account to do properly work. So you must allow ssh login in your sshd_config.")
  ("Fence agent for virsh") (Some ("http://libvirt.org")) [] None.

Definition ldom_docs : docs := Docs
  ("fence_ldom is a Power Fencing agent which can be used with LDoms virtual machines. This agent works so, that run ldm command on host machine. So ldm must be directly runnable." +:+ nl +:+ ".P" +:+ nl +:+ "Very useful parameter is -c (or cmd_prompt in stdin mode). This must be set to something, what is displayed after successful login to host machine. Default string is space on end of string (default for root in bash). But (for example) csh use ], so in that case you must use parameter -c with argument ]. Very similar situation is, if you use bash and login to host machine with other user than root. Than prompt is $, so again, you must use parameter -c.")
  ("Fence agent for Sun LDOM") (Some ("http://www.sun.com")) [] None.

Definition bladecenter_docs : docs := Docs
  ("fence_bladecenter is a Power Fencing agent which can be used with IBM Bladecenters with recent enough firmware that includes telnet support. It logs into a Brocade chasis via telnet or ssh and uses the command line interface to power on and off blades.")
  ("Fence agent for IBM BladeCenter") (Some ("http://www.ibm.com")) [] None.

Definition hpblade_docs : docs := Docs
  ("fence_hpblade is a Power Fencing agent which can be used with HP BladeSystem and HP Integrity Superdome X. It logs into the onboard administrator of an enclosure via telnet or ssh and uses the command line interface to power blades or partitions on or off.")
  ("Fence agent for HP BladeSystem") (Some ("http://www.hp.com")) [] None.

Definition sanbox2_docs : docs := Docs
  ("fence_sanbox2 is an I/O Fencing agent which can be used with QLogic SANBox2 FC switches.  It logs into a SANBox2 switch via telnet and disables a specified port. Disabling  the port which a machine is connected to effectively fences that machine. Lengthy telnet connections to the switch should be avoided while a GFS cluster is running because the connection will block any necessary fencing actions.")
  ("Fence agent for QLogic SANBox2 FC switches") (Some ("http://www.qlogic.com")) [] None.

Definition netio_docs : docs := Docs
  ("fence_netio is a Power Fencing agent which can be used with the Koukaam NETIO-230B Power Distribution Unit. It logs into device via telnet and reboots a specified outlet. Lengthy telnet connections should be avoided while a GFS cluster is running because the connection will block any necessary fencing actions.")
  ("Power Fencing agent for Koukaam NETIO-230B") (Some ("http://www.koukaam.se/")) [] None.

Definition raritan_docs : docs := Docs
  ("fence_raritan is a Power Fencing agent which can be used with the Raritan DPXS12-20 Power Distribution Unit. It logs into device via telnet and reboots a specified outlet. Lengthy telnet connections should be avoided while a GFS cluster is running because the connection will block any necessary fencing actions.")
  ("Power Fencing agent for Raritan Dominion PX") (Some ("http://www.raritan.com/")) [] None.

(** ** The programs *)

Section Mains.
Context `{Host D, Terminal D}.

Definition virsh_agent : console_agent D := ConsoleAgent
  (allopt_set "secure" (Default (VStr "1")) ;; default_prompt ["\[EXPECT\]#"] ;;
   allopt_set "ssh_options" (Default (VStr ("-t '/bin/bash -c " +:+ dq +:+ "PS1=\\[EXPECT\\]# " +:+
                                            "/bin/bash --noprofile --norc" +:+ dq +:+ "'"))))
  ["ipaddr"; "login"; "passwd"; "cmd_prompt"; "secure"; "port"; "sudo"; "missing_as_off"] no_change
  (mret tt) (mret tt) virsh_docs default_re_login (mret tt)
  virsh_set_power_status virsh_get_power_status (Some virsh_get_outlets_status) None
  (fence_logout "quit" 0).

Definition ldom_agent : console_agent D := ConsoleAgent
  (allopt_set "secure" (Default (VStr "1")) ;; default_prompt ["\ $"])
  ["ipaddr"; "login"; "passwd"; "cmd_prompt"; "secure"; "port"] no_change
  (mret tt) (mret tt) ldom_docs default_re_login (mret tt)
  ldom_set_power_status (as_status ldom_get_power_status) (Some (as_outlets ldom_get_power_status)) None
  (fence_logout "logout" 0).

(** The word username and a colon, with white space around the colon; ignoring case. *)
Definition blade_re_login : re :=
  Group 1 (Seqs [LitI "username"; Many Space; Lit ":"; Many Space]).

Definition bladecenter_agent : console_agent D := ConsoleAgent
  (allopt_set "power_wait" (Default (VStr "10")) ;; default_prompt ["system>"])
  ["ipaddr"; "login"; "passwd"; "cmd_prompt"; "secure"; "port"; "missing_as_off"; "telnet"] no_change
  (mret tt) (mret tt) bladecenter_docs blade_re_login (mret tt)
  bladecenter_set_power_status bladecenter_get_power_status (Some bladecenter_get_blades_list) None
  (fence_logout "exit" 0).

Definition hpblade_agent : console_agent D := ConsoleAgent
  (default_prompt ["c7000oa>"] ;; allopt_set "login_timeout" (Default (VStr "10")))
  ["ipaddr"; "login"; "passwd"; "cmd_prompt"; "secure"; "port"; "missing_as_off"; "telnet"] no_change
  (mret tt) (opt_set "eol" (VStr nl)) hpblade_docs default_re_login
  (enc_type ← get_enclosure_type; opt_set "enc_type" (VStr enc_type))
  hpblade_set_power_status hpblade_get_power_status (Some hpblade_get_instances_list) None
  (fence_logout "exit" 0).

Definition sanbox2_agent : console_agent D := ConsoleAgent
  (default_prompt [" #> "])
  ["fabric_fencing"; "ipaddr"; "login"; "passwd"; "cmd_prompt"; "port"; "telnet"] no_change
  (mret tt) (mret tt) sanbox2_docs default_re_login sanbox2_enter
  sanbox2_set_power_status sanbox2_get_power_status (Some sanbox2_get_list_devices) None
  sanbox2_leave.

(** The two agents that log in on their own. *)
Definition line_options (ipport : string) (late : bool) (inv : invocation) : M D unit :=
  mwhen (negb late) (allopt_set "ipport" (Default (VStr ipport))) ;;
  '(avail_opt, opt) ← process_input inv ["ipaddr"; "login"; "passwd"; "port"; "telnet"];
  mwhen late (allopt_set "ipport" (Default (VStr ipport))) ;;
  check_input (inv_env inv) avail_opt (<["eol" := VStr (str1 CR +:+ nl)]> opt) false ;;
  mret tt.

Definition fence_netio_main (fuel : nat) (time_start : Z) (inv : invocation)
    (set_order : list string → list string) : M D unit :=
  line_options "1234" false inv ;;
  show_docs (inv_prog inv) set_order (Some netio_docs) ;;
  run_delay time_start 0 0 ;;
  netio_login ;;
  result ← fence_action fuel (Some netio_set_power_status) (Some netio_get_power_status)
             (Some netio_get_outlet_list) None None;
  fence_logout ("quit" +:+ nl) 0 ;;
  sys_exit result.

(** A monitor is content with the login. *)
Definition fence_raritan_main (fuel : nat) (time_start : Z) (inv : invocation)
    (set_order : list string → list string) : M D unit :=
  line_options "23" true inv ;;
  show_docs (inv_prog inv) set_order (Some raritan_docs) ;;
  run_delay time_start 0 0 ;;
  raritan_plug ;;
  raritan_login ;;
  action ← opt_get "--action";
  result ← (if decide (action = VStr "monitor") then mret 0%Z
            else fence_action fuel (Some raritan_set_power_status) (Some raritan_get_power_status)
                   None None None);
  fence_logout ("exit" +:+ nl) 0 ;;
  sys_exit result.
End Mains.
