(* ===== verification/MenuAgents.v ===== *)
(** * Agents that walk through menus: fence_apc, fence_hds_cb, fence_vbox and fence_drac5

    [agents/apc], [hds_cb], [vbox] and [drac5]: what each sends and how it reads the
    screens. Two of them also look at what the session read during the login. *)

From S2P Require Import Prelude PyStr PyRe OptionDefs Effects Fail Host Input Process CheckInput.
From S2P Require Import Login Metadata Action Console ConsoleAgents HostAgents.

Local Open Scope string_scope.

(** What pexpect keeps of the last match ([conn.before], [conn.after]), and its
    [readline]. *)
Class Session (D : Type) := {
  t_before : D → string;
  t_after : D → string;
  t_readline : D → (string + exn) * D
}.

Definition conn_before `{Session D} : M D string := λ s, (Ret (t_before (s_dev s)), s).
Definition conn_after `{Session D} : M D string := λ s, (Ret (t_after (s_dev s)), s).
Definition readline `{Session D} : M D unit := device_op t_readline ;; mret tt.

(** New entries of the option table. *)
Definition add_options {D} (l : list (string * optdef)) : M D unit :=
  mfor l (λ kd, modify (λ s, set_allopt (<[kd.1 := kd.2]> (s_allopt s)) s)).

Section Agents.
Context `{Terminal D}.

(** ** fence_apc *)

(** Half a second. *)
Definition TIMEDOUT_DELAY : Z := 500000.

(** A text anywhere on the screen, ignoring case. *)
Definition mentions (text screen : string) : bool :=
  bool_decide (is_Some (re_match (Seqs [Many AnyS; LitI text; Many AnyS]) screen)).

(** [send_eol] of an option that may be a number: adding text to it is a TypeError. *)
Definition send_switch : M D unit :=
  v ← opt_get "--switch";
  match v with
  | VStr x => send_eol x
  | _ => raise (TypeError "unsupported operand type(s) for +: 'int' and 'str'")
  end.

(** A MasterSwitch plus has several switches; number 2 must be told which is meant. *)
Definition master_switch (first : pyval) (screen : string) : M D bool :=
  if mentions " MasterSwitch plus" screen then
    given ← opt_has "--switch";
    mwhen (negb given)
      (if mentions " MasterSwitch plus 2" screen
       then fail_usage "Failed: You have to enter physical switch number" true
       else opt_set "--switch" first) ;;
    mret true
  else mret false.

(** An outlet at the start of the line or after a carriage return: number, name, state. *)
Definition apc_re : re :=
  Seqs [Group 1 (Alt Bos (same_char CR)); Many Space; Group 2 (Plus Digit); Lit "- ";
        Group 3 (ManyLazy Any); Plus Space; Group 4 (Alt (Lit "ON") (Lit "OFF")); Many Space].

Definition apc_outlet (os : outlets) (line : string) : outlets :=
  match search apc_re line with
  | Some m => dict_insert (m_group 2 m) (m_group 3 m, Some (m_group 4 m)) os
  | None => os
  end.

(** The list comes in pages; the device says when there is another one. *)
Definition expect_page : M D (bool * string) :=
  prompt ← command_prompt;
  t ← opt_int "--shell-timeout";
  r ← log_expect (PText "Press <ENTER>" :: prompt) t;
  mret (bool_decide (r.1.1 = 0), r.1.2).

Fixpoint apc_pages (fuel : nat) (os : outlets) : M D outlets :=
  match fuel with
  | O => out_of_fuel
  | S n =>
      '(more, screen) ← expect_page;
      let os := foldl apc_outlet os (split_go nl screen 0) in
      sleep_us TIMEDOUT_DELAY ;;
      send_eol "" ;;
      if (more : bool) then apc_pages n os else mret os
  end.

Fixpoint skip_pages (fuel : nat) : M D unit :=
  match fuel with
  | O => out_of_fuel
  | S n =>
      '(more, _) ← expect_page;
      if (more : bool) then sleep_us TIMEDOUT_DELAY ;; send_eol "" ;; skip_pages n else mret tt
  end.

(** Control-C and the main menu. *)
Definition apc_main_menu : M D unit :=
  send (str1 "003"%char) ;;
  expect_one (PText "- Logout") "--shell-timeout" ;;
  expect_prompt "--shell-timeout" ;; mret tt.

Definition apc_get_power_status (fuel : nat) : M D (pyval + outlets) :=
  screen ← ask "1" "--shell-timeout";
  switch ← master_switch (VStr "1") screen;
  (if (switch : bool) then send_switch
   else if mentions "Outlet Management" screen then ask "2" "--shell-timeout" ;; send_eol "1"
   else send_eol (if mentions "Outlet Control/Configuration" screen then "3" else "2")) ;;
  os ← apc_pages fuel [];
  apc_main_menu ;;
  listing ← listing_action;
  if (listing : bool) then mret (inr os)
  else v ← status_of_plug true (λ s, strip (lower s)) os; mret (inl v).

(** One more menu. *)
Definition choose_one : M D unit := ask "1" "--shell-timeout" ;; mret tt.

Definition apc_set_power_status (fuel : nat) : M D unit :=
  requested ← opt_str "--action";
  action ← dict_item [("on", "1"); ("off", "2")] requested;
  screen ← ask "1" "--shell-timeout";
  switch ← master_switch (VInt 1) screen;
  let action := if (switch : bool) && bool_decide (requested = "off") then "3" else action in
  let admin2 := mentions "Outlet Control/Configuration" screen in
  admin3 ← (if (switch : bool) then send_switch ;; mret false
            else if mentions "Outlet Management" screen then
              screen ← ask "2" "--shell-timeout";
              send_eol "1" ;;
              mret (mentions "2- Outlet Restriction" screen)
            else send_eol (if admin2 then "3" else "2") ;; mret false);
  skip_pages fuel ;;
  plug ← opt_str "--plug";
  ask plug "--shell-timeout" ;;
  (if (switch : bool) then choose_one
   else mwhen admin2 choose_one ;; mwhen admin3 choose_one) ;;
  send_eol action ;;
  expect_one (PText "Enter 'YES' to continue or <ENTER> to cancel :") "--shell-timeout" ;;
  send_eol "YES" ;;
  expect_one (PText "Press <ENTER> to continue...") "--power-timeout" ;;
  sleep_us TIMEDOUT_DELAY ;;
  ask "" "--power-timeout" ;;
  apc_main_menu.

(** Newer firmware has a command line. *)
Definition apc5_re : re :=
  Seqs [Bos; Many Space; Group 1 (Plus Digit); Lit ": "; Group 2 (Many Any); Lit ": ";
        Group 3 (Alt (LitI "On") (LitI "Off")); Many Space; Eos].

Definition apc5_outlet (os : outlets) (line : string) : outlets :=
  match search apc5_re line with
  | Some m => dict_insert (m_group 1 m) (m_group 2 m, Some (m_group 3 m)) os
  | None => os
  end.

Definition apc_get_power_status5 : M D (pyval + outlets) :=
  screen ← ask "olStatus all" "--shell-timeout";
  let os := foldl apc5_outlet [] (split_go nl screen 0) in
  listing ← listing_action;
  if (listing : bool) then mret (inr os)
  else v ← status_of_plug true (λ s, strip (lower s)) os; mret (inl v).

Definition apc_set_power_status5 : M D unit :=
  action ← opt_str "--action";
  action ← dict_item [("on", "olOn"); ("off", "olOff")] action;
  plug ← opt_str "--plug";
  ask (action +:+ " " +:+ plug) "--power-timeout" ;; mret tt.

(** A plug may be written with its switch before a colon. *)
Definition split_switch : M D unit :=
  v ← opt_find "--plug";
  match v with
  | None => mret tt
  | Some v =>
      x ← as_str v;
      match split1 ":"%char x with
      | Some (switch, plug) => opt_set "--switch" (VStr switch) ;; opt_set "--plug" (VStr plug)
      | None => mret tt
      end
  end.

Definition firmware_re : re := Seqs [Many Space; Lit "v"; Many (Group 1 Digit); Lit "."].

(** The last digit before the dot of the version decides. *)
Definition has_command_line (screen : string) : bool :=
  match search firmware_re screen with
  | Some m => bool_decide (m_group 1 m ∈ ["5"; "6"; "7"])
  | None => false
  end.

(** ** fence_hds_cb *)

(** A line and the prompt after it. *)
Definition hds_ask (line : string) : M D string := sendline line ;; expect_prompt "--shell-timeout".
Definition hds_command_mode (line : string) : M D unit :=
  sendline line ;; expect_one (PText "SVP>") "--shell-timeout" ;; mret tt.

Definition RE_STATUS_LINE : re :=
  Seqs [Bos; Group 1 (Plus Digit); Plus Space; Group 2 (Plus NonSpace); Plus Space;
        Group 3 (Plus NonSpace); Plus Space; Group 4 (Plus NonSpace); Plus Space;
        Group 5 (Plus NonSpace); Plus Space; Group 6 (Plus NonSpace); Many Any; Eos].

(** Into the partition control, where the screen lists the partitions, and back out. *)
Definition hds_enter : M D string := hds_command_mode "S" ;; hds_ask "PC".
Definition hds_leave : M D unit := hds_command_mode "Q" ;; hds_ask "EX" ;; mret tt.

(** The empty dictionary of an unknown plug is, like [None], neither on nor off. *)
Definition hds_status (result : pyval) (line : string) : M D pyval :=
  match search RE_STATUS_LINE line with
  | Some m =>
      plug ← opt_get "--plug";
      mret (if decide (plug = VStr (m_group 1 m)) then VStr (lower (m_group 2 m)) else result)
  | None => mret result
  end.

Definition hds_get_power_status : M D pyval :=
  screen ← hds_enter;
  result ← mfold hds_status VNone (splitlines screen);
  hds_leave ;;
  mret result.

Definition hds_set_power_status : M D unit :=
  action ← opt_str "--action";
  action ← dict_item [("on", "P"); ("off", "F"); ("reboot", "H")] action;
  hds_enter ;;
  hds_ask "P" ;;
  hds_ask action ;;
  plug ← opt_str "--plug";
  hds_ask plug ;;
  sendline "Y" ;;
  expect_one (PText "Hit enter key.") "--shell-timeout" ;;
  hds_ask "" ;;
  hds_ask "Q" ;;
  hds_leave.

Definition hds_blade (os : outlets) (line : string) : outlets :=
  match search RE_STATUS_LINE line with
  | Some m => dict_insert (m_group 1 m) (m_group 2 m, Some "") os
  | None => os
  end.

Definition hds_get_blades_list : M D outlets :=
  screen ← hds_enter;
  let os := foldl hds_blade [] (splitlines screen) in
  hds_leave ;;
  mret os.

(** ** fence_vbox *)

Definition invoke (cmd : list string) : M D string :=
  prefix ← sudo_prefix;
  path ← opt_str "--vboxmanage-path";
  ask (prefix +:+ path +:+ " " +:+ join " " cmd) "--shell-timeout".

Definition vbox_re : re :=
  Seqs [Bos; same_char DQ; Group 1 (Many Any); same_char DQ; Lit " {"; Group 2 (Many Any); Lit "}"; Eos].

Definition vbox_domain (state : string) (os : outlets) (line : string) : outlets :=
  match search vbox_re (strip line) with
  | Some m => dict_insert (m_group 1 m) (m_group 2 m, Some state) os
  | None => os
  end.

Definition vbox_get_outlets_status : M D outlets :=
  screen ← invoke ["list"; "vms"];
  let os := foldl (vbox_domain "off") [] (splitlines screen) in
  screen ← invoke ["list"; "runningvms"];
  mret (foldl (vbox_domain "on") os (splitlines screen)).

(** By name, and then by UUID. *)
Definition vbox_get_power_status : M D pyval :=
  os ← vbox_get_outlets_status;
  plug ← opt_get "--plug";
  match dict_get (py_str plug) os with
  | Some (_, status) => mret (VStr (default "" status))
  | None =>
      match filter (λ o : string * (string * option string), o.2.1 = py_str plug) os with
      | (_, (_, status)) :: _ => mret (VStr (default "" status))
      | [] =>
          missing_as_off ← opt_has "--missing-as-off";
          if (missing_as_off : bool) then mret (VStr "off")
          else
            fail_usage "Failed: You have to enter existing name/UUID of virtual machine!" true ;; mret VNone
      end
  end.

Definition vbox_set_power_status : M D unit :=
  action ← opt_get "--action";
  plug ← opt_show "--plug";
  invoke (if decide (action = VStr "on")
          then ["startvm"; dq +:+ plug +:+ dq; "--type"; "headless"]
          else ["controlvm"; dq +:+ plug +:+ dq; "poweroff"]) ;;
  mret tt.

(** Where the program is and how to leave depends on the system of the host. *)
Definition vbox_input (opt : gmap string pyval) : M D (gmap string pyval) :=
  let opt := <["logout_string" := VStr "quit"]> opt in
  mret (match opt !! "--host-os" with
        | Some os =>
            if bool_decide (opt !! "--vboxmanage-path" = None) then
              if decide (os = VStr "linux") then <["--vboxmanage-path" := VStr "VBoxManage"]> opt
              else if decide (os = VStr "macos") then
                <["logout_string" := VStr "exit"]>
                  (<["--vboxmanage-path" :=
                     VStr "/Applications/VirtualBox.app/Contents/MacOS/VBoxManage"]> opt)
              else if decide (os = VStr "windows") then
                <["--ssh-options" := VStr ""]>
                  (<["--command-prompt" := VStr ""]>
                    (<["--vboxmanage-path" :=
                       VStr (dq +:+ "/Program Files/Oracle/VirtualBox/VBoxManage.exe")]> opt))
              else opt
            else opt
        | None => opt
        end).

(** ** fence_drac5 *)

Definition CMC : string := "DRAC CMC".
Definition DRAC5 : string := "DRAC 5".
Definition MC : string := "DRAC MC".

(** The names of a module that is present and its state. *)
Definition cmc_re : re :=
  Seqs [Bos; Group 1 (ManyLazy NonSpace); Plus Space; Lit "Present"; Many Space;
        Group 2 (Alt (Lit "ON") (Lit "OFF")); Many Space; Many Any; Eos].

Definition mc_re : re :=
  Seqs [Bos; Many Space; Group 1 (Many NonSpace); Many Space; Lit "---->"; Many Space;
        Group 2 (ManyLazy Any); Plus Space; Lit "Present"; Many Space;
        Group 3 (Alt (Lit "ON") (Lit "OFF")); Many Space; Many Any; Eos].

Definition drac5_device (r : re) (name state : nat) (os : outlets) (line : string) : outlets :=
  match search r line with
  | Some m => dict_insert (m_group name m) ("", Some (m_group state m)) os
  | None => os
  end.

Definition drac5_get_list_devices : M D outlets :=
  version ← opt_get "--drac-version";
  if decide (version = VStr CMC) then
    screen ← ask "getmodinfo" "--power-timeout";
    mret (foldl (drac5_device cmc_re 1 2) [] (splitlines screen))
  else if decide (version = VStr MC) then
    screen ← ask "getmodinfo" "--power-timeout";
    mret (foldl (drac5_device mc_re 2 3) [] (splitlines screen))
  else if decide (version = VStr DRAC5) then py_print "N/A" ;; mret []
  else mret [].

(** A state at the end of a line, at its start or after a colon; ignoring case. *)
Definition drac5_re : re :=
  Seqs [Group 1 (Alt Bol (Lit ": "));
        Group 2 (Alt (LitI "ON") (Alt (LitI "OFF") (Alt (LitI "Powering ON") (LitI "Powering OFF"))));
        Many Space; Eol].

Definition drac5_status : M D string :=
  version ← opt_get "--drac-version";
  if decide (version = VStr MC) then
    os ← drac5_get_list_devices;
    plug ← opt_str "--plug";
    match dict_get plug os with
    | Some (_, status) => mret (default "" status)
    | None => raise (KeyError plug)
    end
  else
    (if decide (version = VStr CMC) then
       plug ← opt_str "--plug"; send_eol ("racadm serveraction powerstatus -m " +:+ plug)
     else mwhen (bool_decide (version = VStr DRAC5)) (send_eol "racadm serveraction powerstatus")) ;;
    screen ← expect_prompt "--shell-timeout";
    search_group drac5_re 2 screen.

Definition drac5_get_power_status : M D pyval :=
  status ← drac5_status;
  mret (VStr (if bool_decide (strip (lower status) ∈ ["on"; "powering on"; "powering off"])
              then "on" else "off")).

(** [s[:-1]] *)
Definition without_last (s : string) : string := String.substring 0 (String.length s - 1) s.

(** An empty answer: the device took CR and LF for two ends of line. Only one of them is
    sent from then on, and the prompts that are still to come are read. *)
Definition fix_double_enter (screen : string) : M D unit :=
  mwhen (bool_decide (strip screen = ""))
    (eol ← opt_str "eol";
     opt_set "eol" (VStr (without_last eol)) ;;
     expect_prompt "--power-timeout" ;;
     expect_prompt "--power-timeout" ;; mret tt).

Definition drac5_set_power_status : M D unit :=
  action ← opt_str "--action";
  action ← dict_item [("on", "powerup"); ("off", "powerdown")] action;
  version ← opt_get "--drac-version";
  (if decide (version = VStr CMC) then
     plug ← opt_str "--plug"; send_eol ("racadm serveraction " +:+ action +:+ " -m " +:+ plug)
   else if decide (version = VStr DRAC5) then send_eol ("racadm serveraction " +:+ action)
   else mwhen (bool_decide (version = VStr MC))
     (plug ← opt_str "--plug"; send_eol ("racadm serveraction -s " +:+ plug +:+ " " +:+ action))) ;;
  screen ← expect_prompt "--power-timeout";
  fix_double_enter screen.

(** The version is told, or read off the text around the prompt of the login. *)
Definition drac5_version (before after : string) : string :=
  if contains "CMC" before then CMC
  else if contains "DRAC 5" before then DRAC5
  else if contains "DRAC/MC" after then MC
  else DRAC5.

Definition detect_version `{Session D} : M D unit :=
  given ← opt_has "--drac-version";
  mwhen (negb given)
    (before ← conn_before; after ← conn_after;
     opt_set "--drac-version" (VStr (drac5_version before after))).

(** Modules need a name, except in a listing. *)
Definition module_given : M D unit :=
  version ← opt_get "--drac-version";
  mwhen (bool_decide (version ∈ [VStr MC; VStr CMC]))
    (plug ← opt_has "--plug";
     mwhen (negb plug)
       (listing ← listing_action;
        mwhen (negb listing) (fail_usage "Failed: You have to enter module name (-n)" true))).
End Agents.

(** ** Options and documentation *)

Definition vbox_opts : list (string * optdef) := [
  ("vboxmanage_path", opt [Getopt ":";
     Longopt "vboxmanage-path";
     Help "--vboxmanage-path=[path]  Path to VBoxManage on the host";
     Required "0";
     Shortdesc "Path to VBoxManage on the host";
     Default (VStr "VBoxManage");
     Order 200]);
  ("host_os", opt [Getopt ":";
     Longopt "host-os";
     Help "--host-os=[os]  Operating system of the host";
     Required "0";
     Shortdesc "Operating system of the host";
     Choices ["linux"; "macos"; "windows"];
     Default (VStr "linux");
     Order 200])
].

Definition drac5_opts : list (string * optdef) := [
  ("drac_version", opt [Getopt "d:";
     Longopt "drac-version";
     Help "-d, --drac-version=[version]   Force DRAC version to use (DRAC 5|DRAC CMC|DRAC MC)";
     Required "0";
     Shortdesc "Force DRAC version to use";
     Choices ["DRAC CMC"; "DRAC MC"; "DRAC 5"];
     Order 1])
].

Definition apc_docs : docs := Docs
  ("fence_apc is a Power Fencing agent which can be used with the APC network power switch. It logs into device via telnet/ssh  and reboots a specified outlet. Lengthy telnet/ssh connections should be avoided while a GFS cluster  is  running  because  the  connection will block any necessary fencing actions.")
  ("Fence agent for APC over telnet/ssh") (Some ("http://www.apc.com")) [] None.

Definition hds_cb_docs : docs := Docs
  ("fence_hds_cb is a Power Fencing agent which can be used with Hitachi Compute Blades with recent enough firmware that includes telnet support.")
  ("Fence agent for Hitachi Compute Blade systems") (Some ("http://www.hds.com")) [] None.

Definition vbox_docs : docs := Docs
  ("fence_vbox is a Power Fencing agent which can be used with the virtual machines managed by VirtualBox. It logs via ssh to a dom0 where it runs VBoxManage to do all of the work. " +:+ nl +:+ ".P" +:+ nl +:+ "By default, vbox needs to log in as a user that is a member of the vboxusers group. Also, you must allow ssh login in your sshd_config.")
  ("Fence agent for VirtualBox") (Some ("https://www.virtualbox.org/")) [] None.

Definition drac5_docs : docs := Docs
  ("fence_drac5 is a Power Fencing agent which can be used with the Dell Remote Access Card v5 or CMC (DRAC). This device provides remote access to controlling  power to a server. It logs into the DRAC through the telnet/ssh interface of the card. By default, the telnet interface is not  enabled.")
  ("Fence agent for Dell DRAC CMC/5") (Some ("http://www.dell.com")) [] None.

(** ** The programs *)

Section Mains.
Context `{Host D, Terminal D}.

Definition hds_cb_agent : console_agent D := ConsoleAgent
  (allopt_set "power_wait" (Default (VStr "5")) ;; default_prompt ["\) :"])
  ["ipaddr"; "login"; "passwd"; "cmd_prompt"; "secure"; "port"; "missing_as_off"; "telnet"] no_change
  (mret tt) (mret tt) hds_cb_docs default_re_login (mret tt)
  hds_set_power_status hds_get_power_status (Some hds_get_blades_list) None
  (fence_logout "X" 0).

Definition vbox_agent : console_agent D := ConsoleAgent
  (add_options vbox_opts ;;
   allopt_set "secure" (Default (VStr "1")) ;; default_prompt ["\[EXPECT\]#"] ;;
   allopt_set "ssh_options" (Default (VStr ("-t '/bin/bash -c " +:+ dq +:+
     "PS1=\\[EXPECT\\]# HISTFILE=/dev/null " +:+ "/bin/bash --noprofile --norc" +:+ dq +:+ "'"))))
  ["ipaddr"; "login"; "passwd"; "cmd_prompt"; "secure"; "port"; "sudo"; "missing_as_off";
   "vboxmanage_path"; "host_os"] vbox_input
  (opt_set "eol" (VStr nl)) (mret tt) vbox_docs default_re_login (mret tt)
  vbox_set_power_status vbox_get_power_status (Some vbox_get_outlets_status) None
  (logout ← opt_str "logout_string"; fence_logout logout 0).

Definition drac5_agent `{Session D} : console_agent D := ConsoleAgent
  (add_options drac5_opts ;; default_prompt ["\$"; "DRAC\/MC:"])
  ["ipaddr"; "login"; "passwd"; "cmd_prompt"; "secure"; "drac_version"; "port"; "no_port"; "telnet"]
  no_change (mret tt) (mret tt) drac5_docs default_re_login
  (detect_version ;; module_given)
  drac5_set_power_status drac5_get_power_status (Some drac5_get_list_devices) None
  (fence_logout "exit" 1).

(** The version of the firmware is on the screen of the login. *)
Definition fence_apc_main `{Session D} (fuel : nat) (time_start : Z) (inv : invocation)
    (set_order : list string → list string) : M D unit :=
  default_prompt [nl +:+ ">"; nl +:+ "apc>"] ;;
  allopt_set "ssh_options" (Default (VStr "-1 -c blowfish")) ;;
  '(avail_opt, opt) ← process_input inv
    ["ipaddr"; "login"; "passwd"; "cmd_prompt"; "secure"; "port"; "switch"; "telnet"];
  check_input (inv_env inv) avail_opt opt false ;;
  show_docs (inv_prog inv) set_order (Some apc_docs) ;;
  split_switch ;;
  fence_login time_start default_re_login ;;
  screen ← conn_before;
  result ← (if has_command_line screen then
              fence_action fuel (Some apc_set_power_status5) (Some (as_status apc_get_power_status5))
                (Some (as_outlets apc_get_power_status5)) None None
            else
              fence_action fuel (Some (apc_set_power_status fuel))
                (Some (as_status (apc_get_power_status fuel)))
                (Some (as_outlets (apc_get_power_status fuel))) None None);
  fence_logout "4" 0 ;;
  sys_exit result.
End Mains.
