(* ===== verification/TableAgents.v ===== *)
(** * Agents that read tables: fence_lpar, fence_wti, fence_cdu and fence_eaton_ssh

    [agents/lpar], [wti], [cdu] and [eaton_ssh]: what each sends and how it reads the
    tables the device prints. *)

From S2P Require Import Prelude PyStr PyRe OptionDefs Effects Fail Host Input Process CheckInput.
From S2P Require Import Login Metadata Action Console ConsoleAgents HostAgents MenuAgents.

Local Open Scope string_scope.

(** A pattern under [re.IGNORECASE]. *)
Fixpoint ignore_case (r : re) : re :=
  match r with
  | Chr p => Chr (λ c, p c || p (char_lower c) || p (char_upper c))
  | Seq r1 r2 => Seq (ignore_case r1) (ignore_case r2)
  | Alt r1 r2 => Alt (ignore_case r1) (ignore_case r2)
  | Star g r1 => Star g (ignore_case r1)
  | Group n r1 => Group n (ignore_case r1)
  | NotAhead r1 => NotAhead (ignore_case r1)
  | Eps | Bos | Bol | Eos | Eol => r
  end.

(** [l[i]] with an index that may count from the end. *)
Definition py_nth {D A} (l : list A) (i : Z) : M D A :=
  if (i <? 0)%Z then
    if (Z.of_nat (length l) + i <? 0)%Z then raise IndexError
    else list_item l (Z.to_nat (Z.of_nat (length l) + i))
  else list_item l (Z.to_nat i).

(** [l.index(x)] *)
Fixpoint index_of (x : string) (l : list string) : option nat :=
  match l with
  | [] => None
  | y :: l' => if decide (y = x) then Some O else S <$> index_of x l'
  end.

Definition py_index {D} (x : string) (l : list string) : M D Z :=
  match index_of x l with
  | Some n => mret (Z.of_nat n)
  | None => raise (ValueError ("'" +:+ x +:+ "' is not in list"))
  end.

Section Agents.
Context `{Terminal D}.

(** ** fence_lpar *)

Definition normalize_status (status : string) : string :=
  if bool_decide (status ∈ ["Running"; "Open Firmware"; "Shutting Down"; "Starting"]) then "on" else "off".

Section Lpar.
Context `{Session D}.
(** [re.compile] for partition names with special characters. *)
Variable compile : bool → string → option re.

(** A command; the line that echoes it, and what comes before the next prompt. *)
Definition hmc_ask (command : string) : M D string :=
  send command ;; readline ;; expect_prompt "--power-timeout".

Definition hmc_version : M D string := opt_str "--hmc-version".
Definition newer_hmc (version : string) : bool := bool_decide (version ∈ ["4"; "IVM"]).

Definition state_re : re := Seqs [LitI ",state="; Group 1 (ManyLazy Any); Lit ","].

(** The second field of the line of the partition, ignoring case. *)
Definition named_state_re (plug : string) : option re :=
  interpolated compile true plug
    (λ r, Seqs [Bol; ignore_case r; Lit ","; Group 1 (ManyLazy Any); Lit ","; Many Any; Eol])
    ("(?i)^" +:+ plug +:+ ",(.*?),.*$").

Definition status_command (version : string) : M D string :=
  if decide (version = "3") then
    managed ← opt_str "--managed";
    plug ← opt_str "--plug";
    mret ("lssyscfg -r lpar -m " +:+ managed +:+ " -n " +:+ plug +:+ " -F name,state" +:+ nl)
  else if newer_hmc version then
    managed ← opt_str "--managed";
    plug ← opt_str "--plug";
    mret ("lssyscfg -r lpar -m " +:+ managed +:+ " --filter 'lpar_names=" +:+ plug +:+ "'" +:+ nl)
  else fail EC_STATUS_HMC true ;; mret "".

Definition is_AttributeError (e : exn) : bool :=
  match e with AttributeError _ => true | _ => false end.

Definition lpar_get_power_status : M D pyval :=
  version ← hmc_version;
  command ← status_command version;
  screen ← hmc_ask command;
  status ← try_except
    (if decide (version = "3") then
       plug ← opt_str "--plug";
       match named_state_re plug with
       | Some r => search_group r 1 screen
       | None => raise (OtherError "re.error")
       end
     else search_group state_re 1 screen)
    (λ e, if is_AttributeError e then
            Some (log DEBUG ("Command on HMC failed: " +:+ command +:+ nl +:+ exn_str e) ;;
                  fail EC_STATUS_HMC true ;; mret "")
          else None);
  mret (VStr (normalize_status status)).

(** The master of a managed system that has one; the empty text is like none. *)
Definition master_re : re := Seqs [LitI ",curr_master_mtms="; Group 1 (ManyLazy Any); Lit ","].

Definition is_comanaged : M D bool :=
  managed ← opt_str "--managed";
  screen ← hmc_ask ("lscomgmt -m " +:+ managed +:+ nl);
  mret (match search master_re screen with
        | Some m => negb (bool_decide (m_group 1 m = ""))
        | None => false
        end).

Definition lpar_set_power_status : M D unit :=
  version ← hmc_version;
  if decide (version = "3") then
    action ← opt_str "--action";
    managed ← opt_str "--managed";
    plug ← opt_str "--plug";
    hmc_ask ("chsysstate -o " +:+ action +:+ " -r lpar -m " +:+ managed +:+ " -n " +:+ plug +:+ nl) ;;
    mret tt
  else mwhen (newer_hmc version)
    (action ← opt_get "--action";
     command ← (if decide (action = VStr "on") then
                  comanaged ← is_comanaged;
                  managed ← opt_str "--managed";
                  plug ← opt_str "--plug";
                  let profile :=
                    if (comanaged : bool) then ""
                    else " -f `lssyscfg -r lpar -F curr_profile " +:+ " -m " +:+ managed +:+
                         " --filter " +:+ dq +:+ "lpar_names=" +:+ plug +:+ dq +:+ "`" in
                  mret ("chsysstate -o on -r lpar" +:+ " -m " +:+ managed +:+ " -n " +:+ plug +:+
                        profile +:+ nl)
                else
                  managed ← opt_str "--managed";
                  plug ← opt_str "--plug";
                  mret ("chsysstate -o shutdown -r lpar --immed" +:+ " -m " +:+ managed +:+
                        " -n " +:+ plug +:+ nl));
     hmc_ask command ;; mret tt).

(** Without the two lines of the header and the beginning of the new prompt. *)
Definition header_line : re := Group 1 (Seqs [AnyS; ManyLazy AnyS; same_char NL]).
Definition hmc3_re : re :=
  Seqs [Bos; header_line; header_line; Group 2 (Many AnyS); same_char NL; Many AnyS; Eos].
Definition hmc_re : re := Seqs [Bos; Group 1 (Many AnyS); same_char NL; Many AnyS; Eos].

Definition lines_of_output (r : re) (n : nat) (screen : string) : M D (list string) :=
  match search r screen with
  | Some m => mret (split_go nl (m_group n m) 0)
  | None => fail_usage "Unable to parse output of list command" true ;; mret []
  end.

(** A name and its state around the separator. *)
Definition lpar_line (sep : string) (os : outlets) (line : string) : M D outlets :=
  match split_go sep (rstrip line) 0 with
  | [port; status] => mret (dict_insert port ("", Some (normalize_status status)) os)
  | _ => fail_usage "Output does not match expected HMC version, try different one" true ;; mret os
  end.

Definition get_lpar_list : M D outlets :=
  version ← hmc_version;
  if decide (version = "3") then
    managed ← opt_str "--managed";
    screen ← hmc_ask ("query_partition_names -m " +:+ managed +:+ nl);
    lines ← lines_of_output hmc3_re 2 screen;
    mret (foldl (λ os line, dict_insert (rstrip line) ("", Some "") os) [] lines)
  else if newer_hmc version then
    let sep := if decide (version = "4") then ":" else "," in
    managed ← opt_str "--managed";
    screen ← hmc_ask ("lssyscfg -r lpar -m " +:+ managed +:+ " -F name" +:+ sep +:+ "state" +:+ nl);
    lines ← lines_of_output hmc_re 1 screen;
    mfold (lpar_line sep) [] lines
  else mret [].
End Lpar.

(** ** fence_wti *)

(** The prompt, which may be one pattern or a list of them. *)
Definition any_prompt : M D (list pattern) :=
  v ← opt_get "--command-prompt";
  mret (match v with VList l => map PText l | v => [PText (py_str v)] end).

Definition wti_expect (timeout : string) : M D string :=
  prompt ← any_prompt; t ← opt_int timeout; r ← log_expect prompt t; mret r.1.2.

(** A listing may stop once for the enter key. *)
Definition get_listing (listing_command : string) : M D string :=
  send_eol listing_command ;;
  prompt ← any_prompt;
  t ← opt_int "--shell-timeout";
  r ← log_expect (prompt ++ [PRe (LitI "Enter: ")])%list t;
  if bool_decide (r.1.1 = length prompt) then
    send_eol "" ;;
    rest ← wti_expect "--shell-timeout";
    mret (r.1.2 +:+ rest)
  else mret r.1.2.

(** The fields of a line of a table. *)
Definition fields (line : string) : list string := map (λ x, lower (strip x)) (split_go "|" line 0).

(** Where the columns of a table are; -1, the last one, until its header is read. *)
Record columns := Columns { col_name : Z; col_plug : Z; col_status : Z; col_count : nat }.
Definition no_columns : columns := Columns (-1) (-1) (-1) 0.

Definition plug_header (line : string) : M D columns :=
  let header := fields line in
  plug ← py_index "plug" header;
  name ← py_index "name" header;
  status ← py_index "status" header;
  mret (Columns name plug status (length header)).

Definition group_header (line : string) : M D columns :=
  let header := fields line in
  name ← py_index "group name" header;
  plug ← py_index "plug" header;
  status ← py_index "status" header;
  mret (Columns name plug status (length header)).

Definition asked_for (x : string) : M D bool :=
  plug ← opt_str "--plug"; mret (bool_decide (lower plug = x)).

(** A row of the table of plugs: the status if it is the plug asked for. *)
Definition plug_row (cols : columns) (listing : bool) (os : outlets) (row : list string)
    : M D (string + outlets) :=
  mine ← (if listing then mret false else x ← py_nth row (col_plug cols); asked_for x);
  if (mine : bool) then status ← py_nth row (col_status cols); mret (inl status)
  else
    first ← list_item row 0;
    if decide (first = "") then mret (inr os)
    else
      name ← py_nth row (col_name cols);
      status ← py_nth row (col_status cols);
      mret (inr (dict_insert first (name, Some status) os)).

(** The table begins two lines after its header ([section] 2) and ends with a row that is
    too short ([section] -1), which is still read. *)
Fixpoint plug_table (listing : bool) (lines : list string) (section : Z) (cols : columns) (os : outlets)
    : M D (string + outlets) :=
  match lines with
  | [] => mret (inr os)
  | line :: lines' =>
      if (section =? 2)%Z && contains "|" line && negb (startswith "PLUG" line) then
        let row := fields line in
        r ← plug_row cols listing os row;
        match r with
        | inl status => mret (inl status)
        | inr os =>
            plug_table listing lines'
              (if Nat.ltb (length row) (col_count cols) then -1 else section)%Z cols os
        end
      else if (section =? 1)%Z then plug_table listing lines' 2 cols os
      else if startswith "PLUG" (upper line) then
        cols ← plug_header line;
        plug_table listing lines' 1 cols os
      else plug_table listing lines' section cols os
  end.

(** What was found, or all of it; [inl PROBLEM] when there is nothing. *)
Definition found_or_problem (listing : bool) (r : string + outlets) : pyval + outlets :=
  match r with
  | inl status => inl (VStr status)
  | inr os => if listing then inr os else inl (VStr "PROBLEM")
  end.

Definition get_plug_status : M D (pyval + outlets) :=
  screen ← get_listing "/S";
  listing ← listing_action;
  r ← plug_table listing (splitlines screen) 0 no_columns [];
  mret (found_or_problem listing r).

Definition get_plug_group_status_from_list (status_list : list string) : string :=
  if bool_decide ("on" ∈ status_list) then "on" else "off".

(** The rows of the group asked for: from its own row up to the next named one. *)
Fixpoint group_rows (cols : columns) (lines : list string) : M D (list string) :=
  match lines with
  | [] => mret []
  | line :: lines' =>
      let row := fields line in
      belongs ←
        (if (Z.max (col_name cols) (col_status cols) <=? Z.of_nat (length row))%Z then
           plug ← py_nth row (col_plug cols);
           if decide (plug = "") then mret false
           else
             name ← py_nth row (col_name cols);
             if decide (name = "") then mret true else asked_for name
         else mret false);
      if (belongs : bool) then
        status ← py_nth row (col_status cols);
        rest ← group_rows cols lines';
        mret (if contains "---" status then rest else status :: rest)
      else mret []
  end.

(** The rows under the row of a listed group, up to the next named one. *)
Fixpoint unnamed_rows (cols : columns) (lines : list string) : M D (list string) :=
  match lines with
  | [] => mret []
  | line :: lines' =>
      let row := fields line in
      name ← py_nth row (col_name cols);
      if decide (name = "") then
        plug ← py_nth row (col_plug cols);
        if decide (plug = "") then mret []
        else
          status ← py_nth row (col_status cols);
          rest ← unnamed_rows cols lines';
          mret (status :: rest)
      else mret []
  end.

(** [skip] lines are passed over after a header. *)
Fixpoint group_table (listing : bool) (lines : list string) (skip : nat) (cols : columns) (os : outlets)
    : M D (string + outlets) :=
  match lines with
  | [] => mret (inr os)
  | line :: lines' =>
      match skip with
      | S n => group_table listing lines' n cols os
      | O =>
          if contains "|" line && negb (startswith "GROUP NAME" (lstrip line)) then
            let row := fields line in
            mine ← (if listing then mret false else x ← py_nth row (col_name cols); asked_for x);
            if (mine : bool) then
              statuses ← group_rows cols lines;
              mret (inl (get_plug_group_status_from_list statuses))
            else
              name ← list_item row 0;
              if decide (name = "") then group_table listing lines' 0 cols os
              else
                statuses ← unnamed_rows cols lines';
                group_table listing lines' 0 cols
                  (dict_insert name (name, Some (get_plug_group_status_from_list statuses)) os)
          else if startswith "GROUP NAME" (lstrip (upper line)) then
            cols ← group_header line;
            group_table listing lines' 1 cols os
          else group_table listing lines' 0 cols os
      end
  end.

(** Of the pair of a group's name and status, a listing takes the first: the name. *)
Definition listed_group (o : string * (string * option string)) : string * (string * option string) :=
  (o.1, (o.1, Some (o.2.1))).

Definition get_plug_group_status : M D (pyval + outlets) :=
  screen ← get_listing "/SG";
  listing ← listing_action;
  r ← group_table listing (splitlines screen) 0 no_columns [];
  mret (found_or_problem listing
          (match r with inl status => inl status | inr os => inr (map listed_group os) end)).

(** [dict(list(a.items()) + list(b.items()))] *)
Definition dict_union (a b : outlets) : outlets := foldl (λ os kv, dict_insert kv.1 kv.2 os) a b.

Definition wti_get_power_status : M D (pyval + outlets) :=
  action ← opt_get "--action";
  if decide (action = VStr "list") then
    plugs ← as_outlets get_plug_status;
    groups ← as_outlets get_plug_group_status;
    mret (inr (dict_union plugs groups))
  else
    r ← get_plug_status;
    match r with
    | inl v => if decide (v = VStr "PROBLEM") then get_plug_group_status else mret (inl v)
    | inr os => mret (inr os)
    end.

Definition wti_set_power_status : M D unit :=
  action ← opt_str "--action";
  action ← dict_item [("on", "/on"); ("off", "/off")] action;
  plug ← opt_str "--plug";
  send_eol (action +:+ " " +:+ plug +:+ ",y") ;;
  wti_expect "--power-timeout" ;; mret tt.

Section WtiLogin.
(** [re.compile] for prompts with special characters. *)
Variable compile : bool → string → option re.

Definition wti_re_login : re :=
  Alt (Group 1 (LitI "login: "))
   (Alt (Group 2 (LitI "Login Name:  ")) (Alt (Group 3 (LitI "username: ")) (Group 4 (LitI "User Name :")))).

(** The characters of one prompt are taken for a list of prompts. *)
Definition prompt_parts (v : pyval) : list string :=
  match v with
  | VList l => l
  | v => map str1 (String.list_ascii_of_string (py_str v))
  end.

Fixpoint simple_prompts (n : nat) (parts : list string) : option re :=
  match parts with
  | [] => Some Eps
  | x :: parts' =>
      match simple_pattern x with
      | None => None
      | Some r =>
          match parts' with
          | [] => Some (Group n (ignore_case r))
          | _ => Alt (Group n (ignore_case r)) <$> simple_prompts (S n) parts'
          end
      end
  end.

Definition wti_re_prompt : M D re :=
  v ← opt_get "--command-prompt";
  let parts := prompt_parts v in
  match simple_prompts 1 parts with
  | Some r => mret r
  | None =>
      match compile false ("(?i)" +:+ join "|" (map (λ x, "(" +:+ x +:+ ")") parts)) with
      | Some r => mret r
      | None => raise (OtherError "re.error")
      end
  end.

(** User name and password are sent if the device asks for them. *)
Definition wti_login : M D unit :=
  login_denied
    (action ← opt_get "--action";
     mwhen (bool_decide (action ∈ [VStr "off"; VStr "reboot"])) (t ← opt_int "--delay"; sleep t) ;;
     opt_set "eol" (VStr (str1 CR +:+ nl)) ;;
     path ← opt_str "--telnet-path";
     fspawn path ;;
     send ("set binary" +:+ nl) ;;
     ip ← opt_show "--ip";
     port ← opt_show "--ipport";
     send ("open " +:+ ip +:+ " -" +:+ port +:+ nl) ;;
     re_prompt ← wti_re_prompt;
     let patterns := [PRe wti_re_login; PText "Password: "; PRe re_prompt] in
     t ← opt_int "--shell-timeout";
     result ← expect_index patterns t;
     result ← (if bool_decide (result = 0%nat) then
                 given ← opt_has "--username";
                 if (given : bool) then
                   user ← opt_str "--username"; send_eol user ;; expect_index patterns t
                 else fail_usage "Failed: You have to set login name" true ;; mret result
               else mret result);
     mwhen (bool_decide (result = 1%nat))
       (given ← opt_has "--password";
        if (given : bool) then
          password ← opt_str "--password"; send_eol password ;;
          wti_expect "--shell-timeout" ;; mret tt
        else fail_usage "Failed: You have to enter password or password script" true)).
End WtiLogin.

(** ** fence_cdu *)

Definition cdu_crlf : string := str1 CR +:+ nl.

(** The end of the session: [EC_CONNECTION_LOST] is not imported, a NameError. *)
Definition cdu_guard {A} (m : M D A) (after : A) : M D A :=
  try_except m (λ e,
    match e with
    | PexpectEOF _ => Some (raise (OtherError "name 'EC_CONNECTION_LOST' is not defined"))
    | PexpectTIMEOUT _ => Some (fail EC_TIMED_OUT true ;; mret after)
    | _ => None
    end).

Definition word : re := Chr is_word_char.
Definition non_word : re := Chr (λ c, negb (is_word_char c)).
Definition cdu_on_off : re := Alt (Lit "On") (Lit "Off").

(** A name of one word, or of two around one other character. *)
Definition cdu_name (n : nat) : re := Group n (Alt (Plus word) (Seqs [Plus word; non_word; Plus word])).

Definition cdu8_re : re :=
  Seqs [Group 1 (Plus word); Plus Space; Group 2 (Plus NonSpace); Plus Space;
        Group 3 (Alt (Lit "On") (Alt (Lit "Idle On") (Alt (Lit "Off") (Lit "Wake On"))));
        Plus Space; Group 4 cdu_on_off].

Definition cdu_re : re :=
  Seqs [Group 1 (Seqs [Lit "."; Plus word]); Plus Space; cdu_name 2; Plus Space; Group 3 cdu_on_off;
        Plus Space; Group 4 (Alt (Lit "On") (Alt (Lit "Idle On") (Alt (Lit "Off") (Lit "Wake On"))))].

Definition cdu_line (api8 : bool) (os : outlets) (line : string) : M D outlets :=
  match search (if api8 then cdu8_re else cdu_re) line with
  | Some m =>
      py_print (m_group 2 m) ;;
      mret (dict_insert (m_group 2 m) (m_group 1 m, Some (m_group (if api8 then 4 else 3) m)) os)
  | None => mret os
  end.

(** Also used for the list of outlets, where no plug is given. *)
Definition cdu_get_power_status : M D pyval :=
  os ← cdu_guard
    (version ← opt_get "api-version";
     let api8 := bool_decide (version = VStr "8") in
     send ((if api8 then "STATUS ALL" else "STATUS") +:+ cdu_crlf) ;;
     screen ← expect_prompt "--shell-timeout";
     mfold (cdu_line api8) [] (split_go nl screen 0)) [];
  try_except
    (plug ← opt_str "--plug";
     match dict_get plug os with
     | Some (_, status) => mret (VStr (strip (lower (default "" status))))
     | None => raise (KeyError plug)
     end)
    (λ e, if is_KeyError e then Some (fail EC_STATUS true ;; mret VNone) else None).

Definition outlet_re : re := Seqs [Group 1 (Plus NonSpace); Plus Space; cdu_name 2; Plus Space].

Definition cdu_set_power_status : M D unit :=
  action ← opt_str "--action";
  action ← dict_item [("on", "on"); ("off", "off")] action;
  cdu_guard
    (send ("LIST OUTLETS" +:+ cdu_crlf) ;;
     screen ← expect_prompt "--shell-timeout";
     let ids := foldl (λ ids line,
                  match search outlet_re line with
                  | Some m => dict_insert (m_group 2 m) (m_group 1 m) ids
                  | None => ids
                  end) [] (split_go nl screen 0) in
     plug ← opt_str "--plug";
     id ← dict_item ids plug;
     send (action +:+ " " +:+ id +:+ cdu_crlf) ;;
     expect_prompt "--shell-timeout" ;; mret tt) tt.

Definition version_re : re :=
  Seqs [Lit "Sentry Switched "; Chr (λ c, bool_decide (c ∈ ["P"; "C"]%char)); Lit "DU Version ";
        Group 1 Digit; Group 2 (Alt (Seq Any Digit) Eps); Group 3 word; same_char CR].

(** The number before the dot in the last line that has one; 6 by default. *)
Definition get_version : M D string :=
  send ("VERSION" +:+ cdu_crlf) ;;
  screen ← expect_prompt "--shell-timeout";
  mret (last_match version_re (m_group 1) "6" (split_go nl screen 0)).

(** Leaves when the program ends; its exit status stays. *)
Definition at_exit (m : M D unit) : M D unit := try_except m (λ _, Some (mret tt)).
Definition cdu_disconnect : M D unit := sendline "LOGOUT" ;; conn_close.

(** ** fence_eaton_ssh *)

Inductive power_action := ERROR_ | OFF | ON | PENDING_OFF | PENDING_ON.

#[export] Instance power_action_eq_dec : EqDecision power_action.
Proof. solve_decision. Defined.

(** The command, its answer and an empty line. *)
Definition eaton_answer (command : string) : M D string :=
  screen ← ask command "--shell-timeout";
  match split_go nl screen 0 with
  | [_; answer; _] => mret (strip answer)
  | _ => fail EC_STATUS true ;; mret ""
  end.

(** The lines, and not one of them, are split at the bars: an AttributeError. *)
Definition get_plug_names : M D (list (Z * string)) :=
  eaton_answer "get PDU.OutletSystem.Outlet[x].iName" ;;
  raise (AttributeError "'list' object has no attribute 'split'").

Definition get_plug_count : M D Z :=
  x ← eaton_answer "get PDU.OutletSystem.Outlet.Count"; as_int (VStr x).

Definition eaton_get_plug_status (plug_id : Z) : M D power_action :=
  x ← eaton_answer ("get PDU.OutletSystem.Outlet[" +:+ str_of_Z plug_id +:+ "].PresentStatus.SwitchOnOff");
  mret (if decide (x = "0") then OFF else if decide (x = "1") then ON else ERROR_).

Definition power_plug (what : string) (plug_id : Z) : M D unit :=
  ask ("set PDU.OutletSystem.Outlet[" +:+ str_of_Z plug_id +:+ "]." +:+ what +:+ " 0") "--shell-timeout" ;;
  mret tt.
Definition power_on_plug : Z → M D unit := power_plug "DelayBeforeStartup".
Definition power_off_plug : Z → M D unit := power_plug "DelayBeforeShutdown".

(** [options.get(k, d)], which must not be empty. *)
Definition truthy (v : pyval) : bool :=
  match v with VNone => false | VStr x => negb (bool_decide (x = "")) | VInt n => negb (n =? 0)%Z
             | VList l => negb (bool_decide (l = [])) end.

Definition requested (k : string) : M D pyval :=
  v ← opt_find k;
  let v := default (VStr "") v in
  mwhen (negb (truthy v)) (fail EC_STATUS true) ;;
  mret v.

Definition eaton_ssh_get_power_status : M D pyval :=
  plug ← requested "--plug";
  id ← as_int plug;
  status ← eaton_get_plug_status id;
  mret (VStr (match status with OFF => "off" | ON => "on" | _ => "error" end)).

Definition eaton_ssh_set_power_status : M D unit :=
  plug ← requested "--plug";
  action ← requested "--action";
  if decide (action = VStr "off") then id ← as_int plug; power_off_plug id
  else if decide (action = VStr "on") then id ← as_int plug; power_on_plug id
  else fail EC_STATUS true.

(** [range(1, plug_count)]: the last plug is left out. *)
Fixpoint eaton_outlets (counters : list Z) (os : outlets) : M D outlets :=
  match counters with
  | [] => mret os
  | counter :: counters' =>
      names ← get_plug_names;
      status ← eaton_get_plug_status counter;
      name ← match list_find (λ kv, kv.1 = counter) names with
             | Some (_, kv) => mret kv.2
             | None => raise (KeyError (str_of_Z counter))
             end;
      eaton_outlets counters'
        (dict_insert (str_of_Z counter)
           (name, match status with OFF => Some "OFF" | ON => Some "ON" | _ => None end) os)
  end.

Definition eaton_get_outlet_list : M D outlets :=
  count ← get_plug_count;
  eaton_outlets (map (λ n, Z.of_nat n) (seq 1 (Z.to_nat (count - 1)))) [].

(** Nothing is returned, which counts as a failure. *)
Definition eaton_reboot_cycle : M D bool :=
  plug ← requested "--plug";
  id ← as_int plug;
  power_off_plug id ;;
  power_on_plug id ;;
  mret false.
End Agents.

(** ** Options and documentation *)

Definition lpar_opts : list (string * optdef) := [
  ("managed", opt [Getopt "s:";
     Longopt "managed";
     Help "-s, --managed=[id]             Name of the managed system";
     Required "1";
     Shortdesc "Managed system name";
     Order 1]);
  ("hmc_version", opt [Getopt "H:";
     Longopt "hmc-version";
     Help "-H, --hmc-version=[version]    Force HMC version to use: (3|4|ivm) (default: 4)";
     Required "0";
     Shortdesc "Force HMC version to use";
     Default (VStr "4");
     Choices ["3"; "4"; "ivm"];
     Order 1])
].

Definition lpar_docs : docs := Docs
  ("fence_lpar is a Power Fencing agent for IBM LPAR.")
  ("Fence agent for IBM LPAR") (Some ("http://www.ibm.com")) [] None.

Definition wti_docs : docs := Docs
  ("fence_wti is a Power Fencing agent which can be used with the WTI Network Power Switch (NPS). It logs into an NPS via telnet or ssh and boots a specified plug. Lengthy telnet connections to the NPS should be avoided while a GFS cluster is running because the connection will block any necessary fencing actions.")
  ("Fence agent for WTI") (Some ("http://www.wti.com")) [] None.

Definition cdu_docs : docs := Docs
  ("fence_cdu is a Power Fencing agent which can be used with the Sentry Switch CDU. It logs into the device via telnet and power's on/off an outlet.")
  ("Fence agent for a Sentry Switch CDU over telnet") (Some ("http://www.servertech.com")) [] None.

Definition eaton_ssh_docs : docs := Docs
  ("fence_eaton_ssh is a Power Fencing agent that connects to Eaton ePDU devices. It logs into device via ssh and reboot a specified outlet.")
  ("Fence agent for Eaton ePDU G3 over SSH") (Some ("https://www.eaton.com/")) [] None.

(** ** The programs *)

Section Mains.
Context `{Host D, Terminal D}.

Definition fence_lpar_main `{Session D} (compile : bool → string → option re) (fuel : nat)
    (time_start : Z) (inv : invocation) (set_order : list string → list string) : M D unit :=
  add_options lpar_opts ;;
  allopt_set "login_timeout" (Default (VStr "15")) ;;
  allopt_set "secure" (Default (VStr "1")) ;;
  default_prompt [":~>"; "]\$"; "\$ "] ;;
  '(avail_opt, opt) ← process_input inv
    ["ipaddr"; "login"; "passwd"; "secure"; "cmd_prompt"; "port"; "managed"; "hmc_version"];
  check_input (inv_env inv) avail_opt opt true ;;
  show_docs (inv_prog inv) set_order (Some lpar_docs) ;;
  managed ← opt_has "--managed";
  mwhen (negb managed) (fail_usage "Failed: You have to enter name of managed system" true) ;;
  action ← opt_get "--action";
  mwhen (bool_decide (action = VStr "validate-all")) (sys_exit 0) ;;
  fence_login time_start default_re_login ;;
  result ← fence_action fuel (Some lpar_set_power_status) (Some (lpar_get_power_status compile))
             (Some get_lpar_list) None None;
  fence_logout ("quit" +:+ cdu_crlf) 0 ;;
  sys_exit result.

(** Without ssh the agent logs in on its own. *)
Definition fence_wti_main (compile : bool → string → option re) (fuel : nat)
    (time_start : Z) (inv : invocation) (set_order : list string → list string) : M D unit :=
  default_prompt ["RSM>"; "MPC>"; "IPS>"; "TPS>"; "NBB>"; "NPS>"; "VMR>"] ;;
  allopt_set "login_timeout" (Default (VStr "10")) ;;
  '(avail_opt, opt) ← process_input inv
    ["ipaddr"; "login"; "passwd"; "no_login"; "no_password"; "cmd_prompt"; "secure"; "port"; "telnet"];
  check_input (inv_env inv) avail_opt opt false ;;
  show_docs (inv_prog inv) set_order (Some wti_docs) ;;
  ssh ← opt_has "--ssh";
  (if (ssh : bool) then fence_login time_start default_re_login else wti_login compile) ;;
  result ← fence_action fuel (Some wti_set_power_status) (Some (as_status wti_get_power_status))
             (Some (as_outlets wti_get_power_status)) None None;
  fence_logout "/X" 0 ;;
  sys_exit result.

Definition page_setup (version : string) : M D unit :=
  mwhen (bool_decide (version = "7"))
    (sendline "set option more disabled" ;; expect_prompt "--login-timeout" ;; mret tt).

Definition fence_cdu_main (fuel : nat) (time_start : Z) (inv : invocation)
    (set_order : list string → list string) : M D unit :=
  '(avail_opt, opt) ← process_input inv ["ipaddr"; "login"; "port"; "switch"; "passwd"; "telnet"];
  check_input (inv_env inv) avail_opt opt false ;;
  opt_set "--command-prompt" (VStr "Switched [PC]DU: ") ;;
  show_docs (inv_prog inv) set_order (Some cdu_docs) ;;
  split_switch ;;
  fence_login time_start default_re_login ;;
  version ← get_version;
  opt_set "api-version" (VStr version) ;;
  log DEBUG ("Using API version: " +:+ version) ;;
  page_setup version ;;
  result ← fence_action fuel (Some cdu_set_power_status) (Some cdu_get_power_status)
             (Some (as_outlets (v ← cdu_get_power_status; mret (inl v)))) None None;
  at_exit cdu_disconnect ;;
  sys_exit result.

Definition eaton_ssh_agent : console_agent D := ConsoleAgent (mret tt)
  ["secure"; "ipaddr"; "login"; "passwd"; "port"; "cmd_prompt"] no_change
  (opt_set "--ssh" VNone ;; opt_set "--ipport" (VInt 22) ;; opt_set "--command-prompt" (VStr "pdu#0>"))
  (mret tt) eaton_ssh_docs default_re_login (mret tt)
  eaton_ssh_set_power_status eaton_ssh_get_power_status (Some eaton_get_outlet_list)
  (Some eaton_reboot_cycle) (fence_logout "quit" 0).
End Mains.
