(* ===== verification/CommandAgents.v ===== *)
(** * Agents that run a program for each request: fence_vmware and fence_amt

    [agents/vmware/fence_vmware.py] runs vmrun or a helper of its own under pexpect,
    [agents/amt/fence_amt.py] runs amttool. *)

From S2P Require Import Prelude PyStr PyRe OptionDefs Effects Fail Host Input Process CheckInput.
From S2P Require Import Login Metadata Action Snmp Ipmilan Console HostAgents MenuAgents TableAgents.

Local Open Scope string_scope.

(** ** fence_vmware: texts *)

Inductive vmware_type := VMWARE_TYPE_ESX | VMWARE_TYPE_SERVER1 | VMWARE_TYPE_SERVER2.

#[export] Instance vmware_type_eq_dec : EqDecision vmware_type.
Proof. solve_decision. Defined.

Definition VMRUN_MINIMUM_REQUIRED_VERSION : Z := 2.
Definition VMHELPER_COMMAND : string := "fence_vmware_helper".
Definition VMRUN_COMMAND : string := "/usr/bin/vmrun".
Definition VMWARE_DEFAULT_TYPE : string := "esx".
(** A disconnected machine keeps its last state. *)
Definition vmware_disconnected_hack : bool := false.

(** One character of a text of fields: [escaped] after a backslash; the finished fields
    come last first. *)
Definition dsv_step (acc : bool * list string * string) (x : ascii) : bool * list string * string :=
  let '(escaped, res, tmp) := acc in
  if escaped then
    (false, res,
     if decide (x = ":"%char) then tmp +:+ ":"
     else if decide (x = BS) then tmp +:+ str1 BS
     else tmp +:+ str1 BS +:+ str1 x)
  else if decide (x = ":"%char) then (false, tmp :: res, "")
  else if decide (x = BS) then (true, res, tmp)
  else (false, res, tmp +:+ str1 x).

(** An empty field at the end is dropped. *)
Definition dsv_split (dsv_str : string) : list string :=
  let '(_, res, tmp) := foldl dsv_step (false, [], "") (String.list_ascii_of_string dsv_str) in
  reverse (if decide (tmp = "") then res else tmp :: res).

Section Vmware.
Context `{Terminal D}.
(** The module variable, set once before anything is run. *)
Variable vmware_internal_type : vmware_type.

(** [quote_for_run(options[k])] *)
Definition quoted (k : string) : M D string := x ← opt_str k; mret (quote_for_run x).

Definition login_params : M D string :=
  match vmware_internal_type with
  | VMWARE_TYPE_ESX =>
      ip ← quoted "--ip"; user ← quoted "--username"; password ← quoted "--password";
      mret (" --server '" +:+ ip +:+ "' --username '" +:+ user +:+ "' --password '" +:+ password +:+ "' ")
  | VMWARE_TYPE_SERVER2 =>
      ip ← quoted "--ip"; user ← quoted "--username"; password ← quoted "--password";
      mret (" -h 'https://" +:+ ip +:+ "/sdk' -u '" +:+ user +:+ "' -p '" +:+ password +:+ "' -T server ")
  | VMWARE_TYPE_SERVER1 =>
      ip ← opt_str "--ip";
      let parts := split_go ":" ip 0 in
      user ← quoted "--username"; password ← quoted "--password";
      mret (" -h '" +:+ quote_for_run (default "" (head parts)) +:+ "' -u '" +:+ user +:+ "' -p '" +:+
            password +:+ "' -T server1 " +:+
            match parts !! 1%nat with
            | Some port => "-P '" +:+ quote_for_run port +:+ "' "
            | None => ""
            end)
  end.

Definition vmware_prepare_command (add_login_params : bool) (additional_params : string) : M D string :=
  exec ← opt_str "--exec";
  login ← (if add_login_params then login_params else mret "");
  center ← opt_find "--vmware-datacenter";
  datacenter ←
    match center with
    | Some v =>
        if decide (vmware_internal_type = VMWARE_TYPE_ESX) then
          x ← as_str v; mret ("--datacenter '" +:+ quote_for_run x +:+ "' ")
        else mret ""
    | None => mret ""
    end;
  mret (exec +:+ login +:+ datacenter +:+ additional_params).

Definition is_pexpect (e : exn) : bool :=
  match e with PexpectEOF _ | PexpectTIMEOUT _ | PexpectError _ => true | _ => false end.

Definition vmware_run_command (add_login_params : bool) (additional_params : string)
    (additional_timeout : Z) : M D string :=
  command ← vmware_prepare_command add_login_params additional_params;
  try_except
    (log DEBUG (command +:+ nl) ;;
     shell ← opt_int "--shell-timeout";
     login ← opt_int "--login-timeout";
     '(res_output, res_code) ← frun command (shell + login + additional_timeout)%Z;
     mwhen (bool_decide (res_code = None)) (fail EC_TIMED_OUT true) ;;
     log DEBUG (res_output +:+ nl) ;;
     (if negb (bool_decide (res_code = Some 0%Z)) && add_login_params then
        exec ← opt_show "--exec"; fail_usage (exec +:+ " returned " +:+ res_output) true
      else mret tt) ;;
     mret res_output)
    (λ e, if is_pexpect e then
            Some (exec ← opt_show "--exec"; fail_usage ("Cannot run command " +:+ exec) true ;; mret "")
          else None).

(** Name, unused, power and connection of a machine; a name may come once only. *)
Definition vi_machine (os : outlets) (machine : string) : M D outlets :=
  match dsv_split machine with
  | [name; _; power; connection] =>
      mwhen (bool_decide (is_Some (dict_get name os)))
        (fail_usage ("Failed. More machines with same name " +:+ name +:+ " found!") true) ;;
      let on := bool_decide (lower power = "poweredon") &&
                (negb vmware_disconnected_hack || bool_decide (lower connection = "connected")) in
      mret (dict_insert name ("", Some (if on then "on" else "off")) os)
  | _ => mret os
  end.

Definition vmware_get_outlets_vi (add_vm_name : bool) : M D outlets :=
  all_machines ←
    (if add_vm_name then
       plug ← quoted "--plug";
       vmware_run_command true ("--operation status --vmname '" +:+ plug +:+ "'") 0
     else t ← opt_int "--power-timeout"; vmware_run_command true "--operation list" t);
  mfold vi_machine [] (splitlines all_machines).

(** The lines after the first. *)
Definition vix_lines (output : string) : list string := tail (splitlines output).

Definition vix_machine (running : list string) (os : outlets) (machine : string) : outlets :=
  if decide (machine = "") then os
  else dict_insert machine ("", Some (if bool_decide (machine ∈ running) then "on" else "off")) os.

(** A server of type 1 lists the running machines only. *)
Definition vmware_get_outlets_vix : M D outlets :=
  output ← vmware_run_command true "list" 0;
  let running := vix_lines output in
  all_machines ←
    (if decide (vmware_internal_type = VMWARE_TYPE_SERVER2) then
       output ← vmware_run_command true "listRegisteredVM" 0; mret (vix_lines output)
     else mret running);
  mret (foldl (vix_machine running) [] all_machines).

Definition vmware_get_outlets_status : M D outlets :=
  if decide (vmware_internal_type = VMWARE_TYPE_ESX) then vmware_get_outlets_vi false
  else vmware_get_outlets_vix.

Definition vmware_get_power_status : M D pyval :=
  os ← (if decide (vmware_internal_type = VMWARE_TYPE_ESX) then vmware_get_outlets_vi true
        else vmware_get_outlets_status);
  plug ← opt_get "--plug";
  match dict_get (py_str plug) os with
  | Some (_, status) =>
      mret (VStr (if decide (vmware_internal_type = VMWARE_TYPE_SERVER1) then "on" else default "" status))
  | None =>
      if decide (vmware_internal_type = VMWARE_TYPE_SERVER1) then mret (VStr "off")
      else
        fail_usage "Failed: You have to enter existing name of virtual machine!" true ;; mret VNone
  end.

Definition vmware_set_power_status : M D unit :=
  action ← opt_get "--action";
  plug ← quoted "--plug";
  let additional_params :=
    if decide (vmware_internal_type = VMWARE_TYPE_ESX) then
      "--operation " +:+ (if decide (action = VStr "on") then "on" else "off") +:+
      " --vmname '" +:+ plug +:+ "'"
    else
      (if decide (action = VStr "on") then "start" else "stop") +:+ " '" +:+ plug +:+ "'" +:+
      (if decide (action = VStr "off") then " hard" else "") in
  t ← opt_int "--power-timeout";
  vmware_run_command true additional_params t ;; mret tt.

(** A digit, a dot, and digits that may each be followed by dots. *)
Definition vmrun_version_re : re :=
  Seqs [Lit "vmrun version ";
        Group 1 (Seqs [Digit; Lit "."; Many (Group 2 (Seqs [Digit; Many (same_char "."%char)]))])].

Definition vmware_is_supported_vmrun_version : M D bool :=
  help ← vmware_run_command false "" 0;
  mret (match search vmrun_version_re (lower help) with
        | Some m =>
            match split_go "." (m_group 1 m) 0 with
            | first :: _ =>
                match int_of_str first with
                | Some n => negb (n <? VMRUN_MINIMUM_REQUIRED_VERSION)%Z
                | None => false
                end
            | [] => false
            end
        | None => false
        end).
End Vmware.

Section VmwareType.
Context {D : Type}.

(** The program to run, unless it is given. *)
Definition default_exec (path : string) : M D unit :=
  given ← opt_has "--exec"; mwhen (negb given) (opt_set "--exec" (VStr path)).

Definition vmware_check_vmware_type : M D vmware_type :=
  x ← opt_str "--vmware_type";
  let x := lower x in
  opt_set "--vmware_type" (VStr x) ;;
  if decide (x = "esx") then default_exec VMHELPER_COMMAND ;; mret VMWARE_TYPE_ESX
  else if decide (x = "server2") then default_exec VMRUN_COMMAND ;; mret VMWARE_TYPE_SERVER2
  else if decide (x = "server1") then default_exec VMRUN_COMMAND ;; mret VMWARE_TYPE_SERVER1
  else fail_usage "vmware_type can be esx,server2 or server1!" true ;; mret VMWARE_TYPE_ESX.
End VmwareType.

(** ** fence_amt *)

Section Amt.
Context `{Host D}.
(** The environment of the agent. *)
Variable env : gmap string string.

(** The command for amttool; it is told yes through a pipe. *)
Definition amt_create_command (action : string) : M D string :=
  cmd ← opt_str "--amttool-path";
  ip ← opt_str "--ip";
  let cmd := cmd +:+ " " +:+ ip in
  let piped (what : string) := "echo " +:+ dq +:+ "y" +:+ dq +:+ "|" +:+ cmd +:+ " " +:+ what in
  let cmd :=
    if decide (action = "status") then cmd +:+ " info"
    else if decide (action = "on") then piped "powerup"
    else if decide (action = "off") then piped "powerdown"
    else if decide (action = "cycle") then piped "powercycle"
    else cmd in
  boot ← opt_find "--boot-option";
  cmd ← (match boot with
         | Some v =>
             if bool_decide (action ∈ ["on"; "off"; "cycle"]) then x ← concat_str v; mret (cmd +:+ x)
             else mret cmd
         | None => mret cmd
         end);
  sudo ← opt_has "--use-sudo";
  if (sudo : bool) then path ← opt_str "--sudo-path"; mret (path +:+ " " +:+ cmd) else mret cmd.

(** Without one single quote at each end. *)
Definition strip_quote (x : string) : string :=
  let x := if endswith "'" x then without_last x else x in
  if startswith "'" x then String.substring 1 (String.length x - 1) x else x.

(** The password is in the environment of a shell that runs the command. *)
Definition amt_run_command (command : string) : M D (Z * string * string) :=
  password ← opt_str "--password";
  run_command ("sh -c " +:+ dq +:+ "(" +:+ command +:+ ")" +:+ dq) None
    (Some (map_to_list (<["AMT_PASSWORD" := strip_quote (quote password)]> env))) None.

Definition powerstate_re : re :=
  Seqs [Lit "Powerstate:"; Many Space; Group 1 (Seq Any Any)].

Definition amt_get_power_status : M D pyval :=
  command ← amt_create_command "status";
  output ← amt_run_command command;
  mret (VStr (match search powerstate_re (result_str output) with
              | None => "fail"
              | Some m => if decide (m_group 1 m = "S0") then "on" else "off"
              end)).

Definition amt_set_power_status : M D unit :=
  action ← opt_str "--action";
  command ← amt_create_command action;
  amt_run_command command ;; mret tt.

(** Run without the shell and without the password. *)
Definition amt_reboot_cycle : M D bool :=
  command ← amt_create_command "cycle";
  r ← run_command command None None None;
  mret (bool_decide (r.1.1 = 0%Z)).
End Amt.

(** ** Options and documentation *)

Definition amt_opts : list (string * optdef) := [
  ("boot_option", opt [Getopt "b:";
     Longopt "boot-option";
     Help "-b, --boot-option=[option]     Change the default boot behavior of the machine. (pxe|hd|hdsafe|cd|diag)";
     Required "0";
     Shortdesc "Change the default boot behavior of the machine.";
     Choices ["pxe"; "hd"; "hdsafe"; "cd"; "diag"];
     Order 1]);
  ("amttool_path", opt [Getopt ":";
     Longopt "amttool-path";
     Help "--amttool-path=[path]          Path to amttool binary";
     Required "0";
     Shortdesc "Path to amttool binary";
     Default (VStr "@AMTTOOL_PATH@");
     Order 200])
].

Definition vmware_docs : docs := Docs
  ("fence_vmware is a Power Fencing agent which can be used with the VMware ESX, VMware ESXi or VMware Server to fence virtual machines." +:+ nl +:+ ".P" +:+ nl +:+ "Before you can use this agent, it must be installed VI Perl Toolkit or vmrun command on every node you want to make fencing." +:+ nl +:+ ".P" +:+ nl +:+ "VI Perl Toolkit is preferred for VMware ESX/ESXi and Virtual Center. Vmrun command is only solution for VMware Server 1/2 (this command will works against ESX/ESXi 3.5 up2 and VC up2 too, but not cluster aware!) and is available as part of VMware VIX API SDK package. VI Perl and VIX API SDK are both available from VMware web pages (not int RHEL repository!). " +:+ nl +:+ ".P" +:+ nl +:+ "You can specify type of VMware you are connecting to with \fB-d\fP switch (or \fIvmware_type\fR for stdin). Possible values are esx, server2 and server1.Default value is esx, which will use VI Perl. With server1 and server2, vmrun command is used." +:+ nl +:+ ".P" +:+ nl +:+ "After you have successfully installed VI Perl Toolkit or VIX API, you should be able to run fence_vmware_helper (part of this agent) or vmrun command. This agent supports only vmrun from version 2.0.0 (VIX API 1.6.0).")
  ("Fence agent for VMWare") (Some ("http://www.vmware.com")) [] None.

Definition amt_docs : docs := Docs
  ("fence_amt is a Power Fencing agent which can be used with Intel AMT. This agent calls support software amttool(http://www.kraxel.org/cgit/amtterm/).")
  ("Fence agent for AMT") (Some ("http://www.intel.com/")) [] None.

(** ** The programs *)

Section Mains.
Context `{Host D, Terminal D}.

Definition fence_vmware_main (fuel : nat) (time_start : Z) (inv : invocation)
    (set_order : list string → list string) : M D unit :=
  allopt_set "secure" (Default (VStr "1")) ;;
  allopt_set "vmware_type" (Default (VStr VMWARE_DEFAULT_TYPE)) ;;
  '(avail_opt, opt) ← process_input inv
    ["ipaddr"; "login"; "passwd"; "secure"; "exec"; "vmware_type"; "vmware_datacenter"];
  check_input (inv_env inv) avail_opt opt false ;;
  show_docs (inv_prog inv) set_order (Some vmware_docs) ;;
  run_delay time_start 0 0 ;;
  ty ← vmware_check_vmware_type;
  mwhen (negb (bool_decide (ty = VMWARE_TYPE_ESX)))
    (ok ← vmware_is_supported_vmrun_version ty;
     mwhen (negb ok)
       (fail_usage ("Unsupported version of vmrun command! You must use at least version " +:+
                    str_of_Z VMRUN_MINIMUM_REQUIRED_VERSION +:+ "!") true)) ;;
  result ← fence_action fuel (Some (vmware_set_power_status ty)) (Some (vmware_get_power_status ty))
             (Some (vmware_get_outlets_status ty)) None None;
  sys_exit result.

Definition fence_amt_main (fuel : nat) (time_start : Z) (inv : invocation)
    (set_order : list string → list string) : M D unit :=
  add_options amt_opts ;;
  allopt_set "ipport" (Default (VStr "16994")) ;;
  '(avail_opt, opt) ← process_input inv
    ["ipaddr"; "no_login"; "passwd"; "boot_option"; "no_port"; "sudo"; "amttool_path"; "method"];
  check_input (inv_env inv) avail_opt opt false ;;
  show_docs (inv_prog inv) set_order (Some amt_docs) ;;
  run_delay time_start 0 0 ;;
  path ← opt_str "--amttool-path";
  executable ← is_executable path;
  mwhen (negb executable) (fail_usage "Amttool not found or not accessible" true) ;;
  result ← fence_action fuel (Some (amt_set_power_status (inv_env inv)))
             (Some (amt_get_power_status (inv_env inv))) None (Some amt_reboot_cycle) None;
  sys_exit result.
End Mains.
