(* ===== verification/OutletAgents.v ===== *)
(** * Two agents for one kind of device: fence_raritan_px3 and fence_ibmblade

    [agents/raritan_px3/fence_raritan_px3.py] keeps what it read of outlets and groups in
    the attributes of a class, [agents/ibmblade/fence_ibmblade.py] is a table of object
    identifiers over SNMP. *)

From S2P Require Import Prelude PyStr PyRe OptionDefs Effects Fail Host Input Process CheckInput.
From S2P Require Import Login Metadata Action Snmp Console ConsoleAgents Globals PduSnmp SnmpAgents.
From S2P Require Import MenuAgents TableAgents.

Local Open Scope string_scope.

(** ** fence_raritan_px3 *)

(** Outlets or groups of outlets by number, with name and state. *)
Definition px3_table : Type := list (string * (string * string)).

(** The attributes of the class [FenceRaritanPX3]. *)
Record FenceRaritanPX3 := Px3 {
  px3_outlets : px3_table;
  px3_plug : pyval;
  px3_outletgroups : px3_table;
  px3_group_name : pyval
}.

Definition no_px3 : FenceRaritanPX3 := Px3 [] VNone [] VNone.

(** [str] of a dictionary whose values are lists of two texts. *)
Definition table_repr (t : px3_table) : string :=
  "{" +:+ join ", " (map (λ r, py_repr r.1 +:+ ": [" +:+ py_repr r.2.1 +:+ ", " +:+ py_repr r.2.2 +:+ "]") t)
  +:+ "}".

Definition unbound {D A} : M D A := raise (OtherError "UnboundLocalError").

Section Px3.
Context `{Terminal D}.

Definition set_outlets (t : px3_table) : M (FenceRaritanPX3 * D) unit :=
  g ← globals; set_globals (Px3 t (px3_plug g) (px3_outletgroups g) (px3_group_name g)).
Definition set_plug (v : pyval) : M (FenceRaritanPX3 * D) unit :=
  g ← globals; set_globals (Px3 (px3_outlets g) v (px3_outletgroups g) (px3_group_name g)).
Definition set_outletgroups (t : px3_table) : M (FenceRaritanPX3 * D) unit :=
  g ← globals; set_globals (Px3 (px3_outlets g) (px3_plug g) t (px3_group_name g)).
Definition set_group_name (v : pyval) : M (FenceRaritanPX3 * D) unit :=
  g ← globals; set_globals (Px3 (px3_outlets g) (px3_plug g) (px3_outletgroups g) v).

(** The lines of the text that matched the prompt. *)
Definition px3_ask (command : string) : M (FenceRaritanPX3 * D) (list string) :=
  send_eol command ;;
  prompt ← command_prompt;
  t ← opt_int "--shell-timeout";
  r ← device_op (t_expect prompt (Some t));
  mret (splitlines r.2).

(** The group that the last title named, until its state comes. *)
Definition group_line (current : option (string * string)) (line : string)
    : M (FenceRaritanPX3 * D) (option (string * string)) :=
  let split_line := split_go " " line 0 in
  let current :=
    match split_line with
    | ["Outlet"; "Group"; group_no; _; name] => Some (group_no, without_last name)
    | _ => current
    end in
  (if bool_decide (head split_line = Some "State:") then
     match current with
     | Some (group_no, group_name) =>
         g ← globals;
         set_outletgroups
           (dict_insert group_no (group_name, default "" (last split_line)) (px3_outletgroups g))
     | None => unbound
     end
   else mret tt) ;;
  mret current.

Definition px3_get_outlet_group : M (FenceRaritanPX3 * D) unit :=
  lines ← px3_ask "show outletgroups";
  mfold group_line None lines ;;
  g ← globals;
  log DEBUG ("Outletgroups found:" +:+ nl +:+ table_repr (px3_outletgroups g)).

(** The same for outlets, with or without a name. *)
Definition outlet_line (current : option (string * string)) (line : string)
    : M (FenceRaritanPX3 * D) (option (string * string)) :=
  let split_line := split_go " " line 0 in
  let current :=
    match split_line with
    | ["Outlet"; outlet_no] => Some (without_last outlet_no, "")
    | ["Outlet"; outlet_no; _; name] => Some (outlet_no, without_last name)
    | _ => current
    end in
  match split_line with
  | ["Power"; "state:"; outlet_state] =>
      match current with
      | Some (outlet_no, outlet_name) =>
          g ← globals;
          set_outlets (dict_insert outlet_no (outlet_name, outlet_state) (px3_outlets g))
      | None => unbound
      end
  | _ => mret tt
  end ;;
  mret current.

Definition px3_get_outlet_list : M (FenceRaritanPX3 * D) outlets :=
  lines ← px3_ask "show outlets";
  mfold outlet_line None lines ;;
  g ← globals;
  log DEBUG ("Outlets found:" +:+ nl +:+ table_repr (px3_outlets g)) ;;
  mret (map (λ r, (r.1, (r.2.1, Some (r.2.2)))) (px3_outlets g)).

Definition state_of (k : string) (t : px3_table) : M (FenceRaritanPX3 * D) pyval :=
  match dict_get k t with
  | Some (_, state) => mret (VStr (lower state))
  | None => raise (KeyError k)
  end.

Definition px3_get_power_status : M (FenceRaritanPX3 * D) pyval :=
  g ← globals;
  if truthy (px3_plug g) then state_of (py_str (px3_plug g)) (px3_outlets g)
  else if truthy (px3_group_name g) then state_of (py_str (px3_group_name g)) (px3_outletgroups g)
  else sys_exit EC_STATUS.

Definition px3_set_power_status : M (FenceRaritanPX3 * D) unit :=
  action ← opt_str "--action";
  action ← dict_item [("on", "on"); ("off", "off"); ("reboot", "cycle")] action;
  g ← globals;
  (if truthy (px3_plug g) then
     send_eol ("power outlets " +:+ py_str (px3_plug g) +:+ " " +:+ action)
   else mwhen (truthy (px3_group_name g))
     (send_eol ("power outletgroup " +:+ py_str (px3_group_name g) +:+ " " +:+ action))) ;;
  expect_one (PText "Do you wish to turn.*") "--shell-timeout" ;;
  send_eol "y" ;;
  py_print "YYYYY" ;;
  expect_prompt "--shell-timeout" ;;
  py_print "XXXXXXXX".

(** Nothing is returned, which counts as a failure. *)
Definition px3_reboot_cycle : M (FenceRaritanPX3 * D) bool := px3_set_power_status ;; mret false.

(** [for no, values in table.items(): if values[0] == options["--plug"]] *)
Definition number_of (name : pyval) (t : px3_table) : option string :=
  fst <$> head (filter (λ r : string * (string * string), VStr (r.2.1) = name) t).

(** A number must not be too high; any other text is the name of an outlet. *)
Definition px3_find_outlet : M (FenceRaritanPX3 * D) unit :=
  try_except
    (n ← opt_int "--plug";
     set_plug (VInt n) ;;
     g ← globals;
     mwhen (Z.of_nat (length (px3_outlets g)) <? n)%Z
       (log ERROR "Plug no exceeds no of outlets" ;; sys_exit EC_STATUS))
    (λ e, match e with
          | ValueError _ =>
              Some (name ← opt_get "--plug";
                    g ← globals;
                    match number_of name (px3_outlets g) with
                    | Some no => set_plug (VStr no)
                    | None => mret tt
                    end)
          | _ => None
          end).

(** Only if there is no such outlet the groups are asked for. *)
Definition px3_find_group : M (FenceRaritanPX3 * D) unit :=
  g ← globals;
  mwhen (negb (truthy (px3_plug g)))
    (px3_get_outlet_group ;;
     name ← opt_get "--plug";
     g ← globals;
     match number_of name (px3_outletgroups g) with
     | Some no => set_group_name (VStr no)
     | None => mret tt
     end ;;
     g ← globals;
     mwhen (negb (truthy (px3_group_name g)))
       (log ERROR ("Plug " +:+ py_str name +:+ " not found") ;; sys_exit EC_STATUS)).

Definition px3_disconnect : M (FenceRaritanPX3 * D) unit := sendline "EXIT" ;; conn_close.
End Px3.

Definition px3_docs : docs := Docs
  ("fence_raritan_px3 is a Power Fencing agent which can be used with the Raritan PX2 and PX3 Power Distribution Unit series. It logs into device via telnet or ssh and reboots a specified outlet. Single outlets and grouped outlets are supported. The fence is tested on this model: PX3-5466V. There have been issues seen with the telnet prompt on 3.4.x and 3.5.x Raritan firmware versions. It's recommended to update to at least version 3.6.x")
  ("Power Fencing agent for Raritan Dominion PX2 and PX3") (Some ("http://www.raritan.com/")) [] None.

(** ** fence_ibmblade *)

Definition IBM_STATUSES_OID : string := ".1.3.6.1.4.1.2.3.51.2.22.1.5.1.1.4".
Definition IBM_CONTROL_OID : string := ".1.3.6.1.4.1.2.3.51.2.22.1.6.1.1.7".
Definition IBM_STATUS_UP : Z := 1.
Definition IBM_SET_OFF : Z := 0.
Definition IBM_SET_ON : Z := 1.

Section Ibm.
Context `{Terminal D}.

Definition ibm_get_power_status : M D pyval :=
  plug ← opt_show "--plug";
  status ← get_value (IBM_STATUSES_OID +:+ "." +:+ plug);
  mret (VStr (on_if (bool_decide (status = str_of_Z IBM_STATUS_UP)))).

Definition ibm_set_power_status : M D unit :=
  plug ← opt_show "--plug";
  on ← action_is_on;
  snmp_set (IBM_CONTROL_OID +:+ "." +:+ plug) (VInt (and_or on IBM_SET_ON IBM_SET_OFF)) 0.

Definition ibm_blade (result : outlets) (blade_info : list string) : M D outlets :=
  oid ← column blade_info 0;
  status ← column blade_info 1;
  mret (dict_insert (last_part oid)
          ("", Some (on_if (bool_decide (status = str_of_Z IBM_STATUS_UP)))) result).

Definition ibm_get_outlets_status : M D outlets :=
  res_blades ← snmp_walk IBM_STATUSES_OID 30;
  mfold ibm_blade [] res_blades.
End Ibm.

Definition ibmblade_docs : docs := Docs
  ("fence_ibmblade is a Power Fencing agent which can be used with IBM BladeCenter chassis. It issues SNMP Set request to BladeCenter chassis, rebooting, powering up or down the specified Blade Server.")
  ("Fence agent for IBM BladeCenter over SNMP") (Some ("http://www.ibm.com")) [] None.

(** ** The programs *)

Section Mains.
Context `{Host D, Terminal D}.

(** A monitor is content with having found the plug. *)
Definition fence_raritan_px3_main (fuel : nat) (time_start : Z) (inv : invocation)
    (set_order : list string → list string) : M (FenceRaritanPX3 * D) unit :=
  '(avail_opt, opt) ← process_input inv
    ["ipaddr"; "login"; "passwd"; "port"; "telnet"; "cmd_prompt"; "secure"];
  allopt_set "cmd_prompt" (Default (VStr ".*\[My PDU\] #")) ;;
  allopt_set "ipport" (Default (VStr "23")) ;;
  allopt_set "shell_timeout" (Default (VStr "8")) ;;
  check_input (inv_env inv) avail_opt (<["eol" := VStr (str1 CR +:+ nl)]> opt) false ;;
  show_docs (inv_prog inv) set_order (Some px3_docs) ;;
  fence_login time_start (Seqs [LitI "Username"; Many Any]) ;;
  px3_get_outlet_list ;;
  px3_find_outlet ;;
  px3_find_group ;;
  g ← globals;
  log DEBUG (nl +:+ "Single outlet: " +:+ py_str (px3_plug g) +:+ nl +:+
             "Group outlet: " +:+ py_str (px3_group_name g)) ;;
  action ← opt_get "--action";
  result ← (if decide (action = VStr "monitor") then mret 0%Z
            else fence_action fuel (Some px3_set_power_status) (Some px3_get_power_status)
                   (Some px3_get_outlet_list) (Some px3_reboot_cycle) None);
  at_exit px3_disconnect ;;
  sys_exit result.

Definition fence_ibmblade_main (fuel : nat) (time_start : Z) (inv : invocation)
    (set_order : list string → list string) : M D unit :=
  allopt_set "snmp_version" (Default (VStr "1")) ;;
  checked_options inv snmp_device_opt ;;
  show_docs (inv_prog inv) set_order (Some ibmblade_docs) ;;
  snmp_init time_start ;;
  result ← fence_action fuel (Some ibm_set_power_status) (Some ibm_get_power_status)
             (Some ibm_get_outlets_status) None None;
  sys_exit result.
End Mains.
