(* ===== verification/MoonshotSpec.v ===== *)
(** * Nodes on a command line

    A chassis that is driven over a session, and fence_ilo_moonshot on it. *)

From S2P Require Import Prelude PyStr PyRe OptionDefs Effects Fail Host Input Process Login.
From S2P Require Import Metadata MetadataSpec Action Power PowerSpec TextFacts Console.
From S2P Require Import ConsoleAgents.

Local Open Scope string_scope.

(** [view] is what can be known of the device, [reply] the screen for a command and
    [step] what the command does; both depend on the view alone. *)
Class CommandLine {D V : Type} `{Terminal D} (eol : string) (prompts : list string)
    (idle : D → Prop) (view : D → V) (reply : V → string → string)
    (step : V → string → V) : Prop := {
  serve_command : ∀ command x, idle x → ∃ x1 x2 i after,
    t_send (command +:+ eol) x = (inl tt, x1) ∧
    (∀ t, t_expect (map PText prompts) t x1 = (inl (i, reply (view x) command, after), x2)) ∧
    idle x2 ∧ view x2 = step (view x) command
}.

(** The options of a session after the login. *)
Record logged_in {D} (eol : string) (prompts : list string) (s : st D) : Prop := LoggedIn {
  li_eol : s_opts s !! "eol" = Some (VStr eol);
  li_prompt : s_opts s !! "--command-prompt" = Some (VList prompts);
  li_shell : ∃ v n, s_opts s !! "--shell-timeout" = Some v ∧ py_int v = inl n;
  li_power : ∃ v n, s_opts s !! "--power-timeout" = Some v ∧ py_int v = inl n
}.

Lemma logged_in_same {D} eol prompts (s s' : st D) :
  (∀ k, k ∉ loop_keys → s_opts s' !! k = s_opts s !! k) →
  logged_in eol prompts s → logged_in eol prompts s'.
Proof. intros Hk [H1 H2 H3 H4]. split; rewrite Hk; first [done|closed_dec]. Qed.

Section Served.
Context `{Terminal D} {V : Type} {eol : string} {prompts : list string} {idle : D → Prop}
  {view : D → V} {reply : V → string → string} {step : V → string → V}
  {Line : CommandLine eol prompts idle view reply step}.
Implicit Types s : st D.

(** A command at the prompt: the screen of the device is the result. *)
Lemma ask_served command timeout s :
  logged_in eol prompts s → idle (s_dev s) →
  (∃ v n, s_opts s !! timeout = Some v ∧ py_int v = inl n) →
  total (ask command timeout) s (λ screen s',
    screen = reply (view (s_dev s)) command ∧ s_opts s' = s_opts s ∧ idle (s_dev s') ∧
    view (s_dev s') = step (view (s_dev s)) command).
Proof using Line.
  intros [Heol Hp _ _] Hidle (v & n & Hv & Hn).
  destruct (serve_command command (s_dev s) Hidle) as (x1 & x2 & i & after & Hsend & Hexp & Hi & Hview).
  set (s1 := set_dev x1 (add_event (EvLog DEBUG ("Sent: " +:+ command +:+ eol)) s)).
  unfold ask. apply (total_step _ _ s tt s1).
  { unfold send_eol. rewrite (bind_Ret _ _ _ _ _ (opt_str_eq _ _ _ Heol)). unfold send, log, modify.
    unfold mbind, M_bind, device_op. cbn [s_dev add_event]. by rewrite Hsend. }
  assert (command_prompt s1 = (Ret (map PText prompts), s1)) as Hprompt.
  { unfold command_prompt. by rewrite (bind_Ret _ _ _ _ _ (opt_list_eq _ prompts s1 Hp)). }
  unfold expect_prompt. eapply total_step; [exact Hprompt|].
  eapply total_step; [by apply (opt_int_eq _ v n)|].
  set (s2 := set_dev x2 s1).
  assert (log_expect (map PText prompts) n s1 =
    (Ret (i, reply (view (s_dev s)) command, after),
     add_event (EvLog DEBUG ("Received: " +:+ reply (view (s_dev s)) command +:+ after)) s2)) as Hlog.
  { unfold log_expect. unfold mbind, M_bind, device_op. cbn [s_dev s1 set_dev]. by rewrite Hexp. }
  eapply total_step; [exact Hlog|]. apply total_ret. done.
Qed.
End Served.

(** ** The lines of a screen *)

Definition no_break (l : string) : Prop := all_chars (λ c, negb (is_linebreak c)) l = true.

(** Each line ends with a carriage return and a line feed. *)
Definition screen_of (lines : list string) : string :=
  foldr (λ l rest, l +:+ String CR (String NL rest)) "" lines.

Lemma splitlines_line l rest b :
  no_break l →
  splitlines_go (l +:+ String CR (String NL rest)) b = l :: splitlines_go rest false.
Proof.
  revert b. induction l as [|c l IH]; intros b Hl.
  { change (splitlines_go (String CR (String NL rest)) b = "" :: splitlines_go rest false).
    cbn [splitlines_go]. by destruct b. }
  apply andb_true_iff in Hl as [Hc Hl]. apply negb_true_iff in Hc.
  change (String c l +:+ String CR (String NL rest)) with (String c (l +:+ String CR (String NL rest))).
  cbn [splitlines_go]. replace (b && bool_decide (c = NL)) with false.
  - assert (bool_decide (c = CR) = false) as -> by (apply bool_decide_eq_false; by intros ->).
    by rewrite IH, Hc.
  - symmetry. apply andb_false_intro2, bool_decide_eq_false. by intros ->.
Qed.

Lemma splitlines_screen lines :
  Forall no_break lines → splitlines (screen_of lines) = lines.
Proof.
  intros Hl. unfold splitlines.
  assert (splitlines_go (screen_of lines) false = (lines ++ [""])%list) as ->.
  { induction Hl as [|l lines Hl _ IH]; [done|]. cbn [screen_of foldr].
    rewrite splitlines_line by done. cbn. by f_equal. }
  unfold drop_trailing_empty. rewrite last_snoc, length_app. cbn [length].
  rewrite Nat.add_sub. apply take_app_length.
Qed.

(** ** Rows of words *)

Lemma all_chars_weaken p q s :
  (∀ c, p c = true → q c = true) → all_chars p s = true → all_chars q s = true.
Proof.
  intros Hpq. induction s as [|c s IH]; [done|]. intros [Hc Hs]%andb_true_iff.
  apply andb_true_iff. split; [by apply Hpq|by apply IH].
Qed.

Lemma not_space_no_break c : negb (is_space c) = true → negb (is_linebreak c) = true.
Proof.
  destruct c as [[] [] [] [] [] [] [] []]; vm_compute; congruence.
Qed.

Lemma row_no_break ws : Forall is_word ws → no_break (join " " ws).
Proof.
  assert (∀ w, is_word w → no_break w) as Hw.
  { intros w [_ Hw]. eapply all_chars_weaken; [exact not_space_no_break|exact Hw]. }
  induction 1 as [|w ws Hword Hws IH]; [done|]. destruct ws as [|w' ws]; [by apply Hw|].
  change (no_break (w +:+ " " +:+ join " " (w' :: ws))). unfold no_break.
  rewrite !all_chars_app. rewrite (Hw w) by done. exact IH.
Qed.

Lemma split_ws_row ws : Forall is_word ws → split_ws (join " " ws) = ws.
Proof.
  induction 1 as [|w ws Hword Hws IH]; [done|]. destruct ws as [|w' ws]; [by apply split_ws_last|].
  change (split_ws (w +:+ String " " (join " " (w' :: ws))) = w :: w' :: ws).
  by rewrite split_ws_word, IH.
Qed.

(** * fence_ilo_moonshot, from the command to the node

    The callbacks of the agent, run against a chassis that answers commands at its
    prompt, implement the interface [Obedient] for any set of its nodes: [fence_action]
    then does with the nodes what it does with the plugs of any obedient device. *)

(** ** The list of nodes *)

Definition nodes : Type := list (string * bool).

Definition node_on (v : nodes) (name : string) : bool := default false (dict_get name v).

(** The nodes after a command for one of them. *)
Definition switch_node (name : string) (b : bool) (v : nodes) : nodes :=
  map (λ kv, if decide (kv.1 = name) then (name, b) else kv) v.

Lemma switch_node_names name b v : (switch_node name b v).*1 = v.*1.
Proof.
  induction v as [|[n c] v IH]; [done|].
  change ((if decide (n = name) then (name, b) else (n, c)).1 :: (switch_node name b v).*1 = n :: v.*1).
  rewrite IH. by destruct (decide (n = name)) as [->|].
Qed.

Lemma switch_node_cons name b n c v :
  switch_node name b ((n, c) :: v) =
  (if decide (n = name) then (name, b) else (n, c)) :: switch_node name b v.
Proof. done. Qed.

Lemma dict_get_switch name b v q :
  dict_get q (switch_node name b v) =
  if decide (q = name) then (λ _, b) <$> dict_get name v else dict_get q v.
Proof.
  induction v as [|[n c] v IH]; [by destruct (decide (q = name))|]. rewrite switch_node_cons.
  destruct (decide (n = name)) as [->|Hn]; cbn [dict_get].
  - rewrite IH. destruct (decide (q = name)) as [->|Hq]; [by rewrite !decide_True by done|].
    by rewrite !(decide_False (P := name = q)) by done.
  - rewrite IH. destruct (decide (q = name)) as [->|Hq]; [by rewrite !(decide_False (P := n = name))|].
    done.
Qed.

Lemma dict_get_named {A} (v : list (string * A)) q : q ∈ v.*1 → is_Some (dict_get q v).
Proof.
  induction v as [|[n c] v IH]; [by intros ?%not_elem_of_nil|].
  intros [->|Hin]%elem_of_cons; cbn; [by rewrite decide_True|]. destruct (decide (n = q)); eauto.
Qed.

Lemma node_on_switch name b v q :
  name ∈ v.*1 → node_on (switch_node name b v) q = if decide (q = name) then b else node_on v q.
Proof.
  intros [c Hc]%dict_get_named. unfold node_on. rewrite dict_get_switch, Hc. by case_decide.
Qed.

(** A row has ten words; [cell] gives those that are neither the name nor the state. *)
Section Screen.
Variable cell : string → nat → string.

Definition state_word (b : bool) : string := if b then "On" else "Off".

Definition node_row (kv : string * bool) : list string :=
  let c := cell kv.1 in
  [c 0%nat; kv.1; c 2%nat; c 3%nat; c 4%nat; c 5%nat; c 6%nat; c 7%nat; state_word kv.2; c 9%nat].

Definition node_screen (header : list string) (v : nodes) : string :=
  screen_of (header ++ map (λ kv, join " " (node_row kv)) v)%list.

Hypothesis Hcell : ∀ name k, is_word (cell name k).

Lemma node_row_words kv : is_word kv.1 → Forall is_word (node_row kv).
Proof using Hcell.
  intros Hk. unfold node_row. repeat constructor; try apply Hcell; try apply Hk.
  all: by destruct kv.2.
Qed.

Lemma read_node_row acc kv :
  is_word kv.1 →
  moonshot_node acc (join " " (node_row kv)) = dict_insert kv.1 ("", Some (on_off kv.2)) acc.
Proof using Hcell.
  intros Hk. unfold moonshot_node. rewrite split_ws_row by by apply node_row_words.
  unfold node_row. by destruct kv.2.
Qed.

Lemma read_other_line acc l : length (split_ws l) ≠ 10%nat → moonshot_node acc l = acc.
Proof.
  unfold moonshot_node. generalize (split_ws l). intros ws Hl.
  do 11 (destruct ws as [|? ws]; [done|]). done.
Qed.

Lemma read_rows acc v p :
  Forall is_word v.*1 → NoDup v.*1 →
  dict_get p (foldl moonshot_node acc (map (λ kv, join " " (node_row kv)) v)) =
  match dict_get p v with Some b => Some ("", Some (on_off b)) | None => dict_get p acc end.
Proof using Hcell.
  revert acc. induction v as [|[n b] v IH]; intros acc Hw Hn; [done|].
  apply Forall_cons in Hw as [Hw Hws]. apply NoDup_cons in Hn as [Hin Hn]. cbn [map foldl].
  rewrite read_node_row by done. rewrite IH by done. cbn [dict_get fst snd].
  destruct (decide (n = p)) as [->|Hp].
  - assert (dict_get p v = None) as ->; [|by rewrite dict_get_insert].
    clear -Hin. induction v as [|[m c] v IH]; [done|]. apply not_elem_of_cons in Hin as [Hm Hin].
    cbn. rewrite decide_False by (by intros ->). by apply IH.
  - destruct (dict_get p v); [done|]. by rewrite dict_get_insert_ne.
Qed.

(** What the agent finds on the screen. *)
Lemma moonshot_nodes_screen header v p b :
  Forall no_break header → Forall (λ l, length (split_ws l) ≠ 10%nat) header →
  Forall is_word v.*1 → NoDup v.*1 → dict_get p v = Some b →
  dict_get p (moonshot_nodes (node_screen header v)) = Some ("", Some (on_off b)).
Proof using Hcell.
  intros Hb Hh Hw Hn Hp. unfold moonshot_nodes, node_screen. rewrite splitlines_screen.
  - rewrite foldl_app. assert (∀ acc, foldl moonshot_node acc header = acc) as ->.
    { clear -Hh. induction Hh as [|l header Hl _ IH]; intros acc; [done|]. cbn.
      by rewrite read_other_line. }
    rewrite read_rows by done. by rewrite Hp.
  - apply Forall_app. split; [done|]. clear -Hw Hcell. induction v as [|kv v IH]; [constructor|].
    apply Forall_cons in Hw as [Hw Hws]. constructor; [|by apply IH].
    apply row_no_break. by apply node_row_words.
Qed.
End Screen.

(** ** The callbacks *)

Section Chassis.
Context `{Terminal D} {eol : string} {prompts : list string} {idle : D → Prop}
  {view : D → nodes} {reply : nodes → string → string} {step : nodes → string → nodes}
  {Line : CommandLine eol prompts idle view reply step}.
Variables (cell : string → nat → string) (header : list string).

(** The words of a row and the lines above the rows. *)
Hypotheses (Hcell : ∀ name k, is_word (cell name k)) (Hbreak : Forall no_break header)
  (Hheader : Forall (λ l, length (split_ws l) ≠ 10%nat) header).

Definition power_command (b : bool) (name : string) : string :=
  (if b then "set node power on " else "set node power off force ") +:+ name.

(** The commands that the agent uses, as the device understands them. *)
Hypotheses (Hlist : ∀ v, reply v "show node list" = node_screen cell header v)
  (Hsame : ∀ v, step v "show node list" = v)
  (Hpower : ∀ v b name, step v (power_command b name) = switch_node name b v).

(** The names of the nodes do not change. *)
Record chassis_ok (ps : list string) (s : st D) : Prop := ChassisOk {
  ch_session : logged_in eol prompts s;
  ch_idle : idle (s_dev s);
  ch_names : (view (s_dev s)).*1 = ps
}.

Lemma moonshot_get_total ps s p :
  Forall is_word ps → NoDup ps → chassis_ok ps s → fencing s →
  s_opts s !! "--plug" = Some (VStr p) → p ∈ ps →
  total (as_status moonshot_get_power_status) s (λ v s',
    v = VStr (on_off (node_on (view (s_dev s)) p)) ∧ s_opts s' = s_opts s ∧
    idle (s_dev s') ∧ view (s_dev s') = view (s_dev s)).
Proof using Line Hcell Hbreak Hheader Hlist Hsame.
  intros Hw Hn [Hs Hi Hnames] (a & Ha & Hin) Hp Hpin. rewrite <- Hnames in Hw, Hn, Hpin.
  destruct (dict_get_named _ _ Hpin) as [b Hb].
  unfold as_status, moonshot_get_power_status. apply total_bind.
  eapply total_then; [apply ask_served; [done|done|apply Hs]|].
  cbv beta. intros screen s1 (-> & Hopt & Hi1 & Hv1). rewrite Hlist. rewrite Hsame in Hv1.
  rewrite <- Hopt in Ha, Hp.
  assert (listing_action s1 = (Ret false, s1)) as Hl.
  { unfold listing_action. rewrite (bind_Ret _ _ _ _ _ (opt_get_eq _ _ _ Ha)).
    rewrite !elem_of_cons in Hin. by destruct Hin as [-> |[-> |[-> |[]%not_elem_of_nil]]]. }
  eapply total_step; [exact Hl|].
  assert (status_of_plug true lower (moonshot_nodes (node_screen cell header (view (s_dev s)))) s1 =
    (Ret (VStr (on_off b)), s1)) as Hstatus.
  { unfold status_of_plug. rewrite (bind_Ret _ _ _ _ _ (opt_str_eq _ _ _ Hp)).
    rewrite (moonshot_nodes_screen cell Hcell header _ p b) by done. by destruct b. }
  eapply total_step; [exact Hstatus|]. apply total_ret. apply total_ret.
  unfold node_on. by rewrite Hb.
Qed.

Lemma moonshot_set_total s p b :
  logged_in eol prompts s → idle (s_dev s) → s_opts s !! "--plug" = Some (VStr p) →
  s_opts s !! "--action" = Some (VStr (on_off b)) →
  total moonshot_set_power_status s (λ _ s', s_opts s' = s_opts s ∧ idle (s_dev s') ∧
    view (s_dev s') = switch_node p b (view (s_dev s))).
Proof using Line Hpower.
  intros Hs Hi Hp Ha. unfold moonshot_set_power_status, opt_show.
  eapply total_step; [rewrite (bind_Ret _ _ _ _ _ (opt_get_eq _ _ _ Hp)); reflexivity|].
  unfold action_on_off.
  eapply total_step; [rewrite (bind_Ret _ _ _ _ _ (opt_get_eq _ _ _ Ha)); reflexivity|].
  eapply total_then; [apply ask_served; [done|done|apply Hs]|].
  cbv beta. intros screen s1 (_ & Hopt & Hi1 & Hv1). apply total_ret. split_and!; [done|done|].
  rewrite Hv1, <- Hpower. f_equal. by destruct b.
Qed.

#[local] Instance chassis_obedient ps :
  Forall is_word ps → NoDup ps →
  Obedient ps 0 (chassis_ok ps) (λ x, node_on (view x)) (λ _, O)
    (as_status moonshot_get_power_status) moonshot_set_power_status.
Proof using Line Hcell Hbreak Hheader Hlist Hsame Hpower.
  intros Hw Hn. split.
  - intros s s' [Hs Hi Hnames] [Hdev Hk]. split; [by eapply logged_in_same|by rewrite Hdev..].
  - intros s p Hok Hfe Hp Hpin. pose proof Hok as [Hs Hi Hnames].
    eapply total_weaken; [by apply (moonshot_get_total ps)|]. cbv beta.
    intros v s' (-> & Hopt & Hi' & Hv). rewrite Hv. split_and!; [|by apply frame_opts|done|lia|done].
    split; [|done|by rewrite Hv]. eapply logged_in_same; [|done]. intros k _. by rewrite Hopt.
  - intros s p a [Hs Hi Hnames] Hp Hpin Ha.
    eapply total_weaken; [by apply (moonshot_set_total s p a)|]. cbv beta.
    intros u s' (Hopt & Hi' & Hv). rewrite Hv. split_and!; [|by apply frame_opts|lia|].
    + split; [|done|by rewrite Hv, switch_node_names].
      eapply logged_in_same; [|done]. intros k _. by rewrite Hopt.
    + intros q _. apply node_on_switch. by rewrite Hnames.
Qed.

(** C5. From the command line to the nodes of a chassis: on a session whose device lists
    its nodes and obeys its power commands, on, off and reboot of any of its nodes by
    fence_ilo_moonshot return 0. After off and reboot, and after "on" of nodes that were
    all on or all off, exactly the requested nodes have been brought into the requested
    state; after "on" of nodes of which some were on and some off, none has changed. *)
Theorem moonshot_switches_nodes plugs T a fuel lst sync s :
  Forall is_word (view (s_dev s)).*1 → NoDup (view (s_dev s)).*1 →
  logged_in eol prompts s → idle (s_dev s) → settings T s →
  requested_plugs s = Some plugs → plugs ≠ [] →
  (∀ q, q ∈ plugs → q ∈ (view (s_dev s)).*1) →
  s_opts s !! "--action" = Some (VStr a) → a ∈ ["on"; "off"; "reboot"] → (0 < fuel)%nat →
  ∃ s', fence_action fuel (Some moonshot_set_power_status)
          (Some (as_status moonshot_get_power_status)) lst None sync s = (Ret EC_OK, s') ∧
    (view (s_dev s')).*1 = (view (s_dev s)).*1 ∧
    ((a = "on" → mixed plugs (node_on (view (s_dev s))) = false) →
       ∀ q, q ∈ (view (s_dev s)).*1 →
       node_on (view (s_dev s')) q = requested_states a plugs (node_on (view (s_dev s))) q) ∧
    (a = "on" → mixed plugs (node_on (view (s_dev s))) = true →
       ∀ q, q ∈ (view (s_dev s)).*1 →
       node_on (view (s_dev s')) q = node_on (view (s_dev s)) q).
Proof using Line Hcell Hbreak Hheader Hlist Hsame Hpower.
  intros Hw Hn Hs Hi Hset Hreq Hne Hin Ha Hact Hfuel.
  destruct (fence_action_leaves (Obey := chassis_obedient _ Hw Hn) T plugs a fuel lst None sync s)
    as (s' & Hrun & [_ _ Hnames] & Hpw); try done; [lia|].
  exists s'. split_and!; [done..| |]; apply (left_outcome a plugs _ _ _ Hpw).
Qed.
End Chassis.

(** ** A chassis for the examples *)
Module Sim.

(** The nodes, and the screen that waits to be read. *)
Record chassis := Chassis { ch_nodes : nodes; ch_screen : string }.

Definition cell (name : string) (k : nat) : string := "-".
Definition header : list string := ["show node list"; "Slot ID    Proc Manufacturer"; ""].

(** The name after the words of a command, if it starts with them. *)
Definition argument (words command : string) : option string :=
  if String.prefix words command
  then Some (String.substring (String.length words) (String.length command - String.length words) command)
  else None.

Definition reply (v : nodes) (command : string) : string :=
  if decide (command = "show node list") then node_screen cell header v else "".

Definition step (v : nodes) (command : string) : nodes :=
  match argument "set node power on " command, argument "set node power off force " command with
  | Some name, _ => switch_node name true v
  | None, Some name => switch_node name false v
  | None, None => v
  end.

Definition without_eol (line : string) : string := String.substring 0 (String.length line - 2) line.

#[export] Instance chassis_terminal : Terminal chassis := {|
  t_spawn _ x := (inl tt, x);
  t_expect _ _ x := (inl (0%nat, ch_screen x, "hpiLO->"), Chassis (ch_nodes x) "");
  t_read _ _ x := (inl "", x);
  t_send line x :=
    let command := without_eol line in
    (inl tt, Chassis (step (ch_nodes x) command) (reply (ch_nodes x) command));
  t_close x := (inl tt, x);
  t_run _ _ x := (inr (OSError "no program"), x)
|}.

Lemma argument_app words name : argument words (words +:+ name) = Some name.
Proof. unfold argument. by rewrite prefix_of_app, substring_after. Qed.

Lemma power_step v b name : step v (power_command b name) = switch_node name b v.
Proof.
  unfold step, power_command. destruct b; [by rewrite argument_app|].
  assert (argument "set node power on " ("set node power off force " +:+ name) = None) as -> by done.
  by rewrite argument_app.
Qed.

#[export] Instance chassis_line :
  CommandLine (str1 CR +:+ nl) ["MP>"; "hpiLO->"] (λ _, True) ch_nodes reply step.
Proof.
  split. intros command x _.
  assert (without_eol (command +:+ str1 CR +:+ nl) = command) as Hc.
  { unfold without_eol. rewrite length_app_str. change (String.length (str1 CR +:+ nl)) with 2%nat.
    rewrite Nat.add_sub. apply substring_prefix. }
  eexists _, (Chassis (step (ch_nodes x) command) ""), _, _.
  split; [cbn [t_send chassis_terminal]; by rewrite Hc|]. split_and!; [|done|done].
  intros t. reflexivity.
Qed.

Lemma cell_word name k : is_word (cell name k).
Proof. by split. Qed.

Lemma header_no_break : Forall no_break header.
Proof. repeat constructor. Qed.

Lemma header_short : Forall (λ l, length (split_ws l) ≠ 10%nat) header.
Proof. repeat constructor; vm_compute; lia. Qed.

Definition start (action plug : string) (v : nodes) : st chassis :=
  St (list_to_map
        [("--action", VStr action); ("--plug", VStr plug); ("--plug-separator", VStr ",");
         ("--power-wait", VStr "0"); ("--power-timeout", VStr "20");
         ("--stonith-status-sleep", VStr "1"); ("--retry-on", VStr "1");
         ("--shell-timeout", VStr "3"); ("eol", VStr (str1 CR +:+ nl));
         ("--command-prompt", VList ["MP>"; "hpiLO->"]);
         ("device_opt", VList ["ipaddr"; "login"; "passwd"; "secure"; "cmd_prompt"; "port"])])
     ∅ [] 0 (Chassis v "").

Lemma start_session a p v : logged_in (str1 CR +:+ nl) ["MP>"; "hpiLO->"] (start a p v).
Proof. split; [done|done|by exists (VStr "3"), 3%Z|by exists (VStr "20"), 20%Z]. Qed.

Lemma chassis_start_settings a p v : settings 20 (start a p v).
Proof.
  split; unfold start; cbn [s_opts].
  - by exists (VStr "20").
  - by exists (VStr "1"), 1%Z.
  - by exists (VStr "0"), 0%Z.
  - by exists (VStr "1"), 1%Z.
  - by exists "".
  - eexists. split; [reflexivity|]. split; closed_dec.
Qed.
End Sim.

#[local] Existing Instance Sim.chassis_terminal.

(** Three nodes, two of them on. *)
Definition three_nodes : nodes := [("c1n1", true); ("c2n1", true); ("c3n1", false)].

(** Nodes 1 and 3 are switched off, node 2 is left alone. *)
Lemma moonshot_switches_nodes_witness :
  ∃ s', fence_action 1 (Some moonshot_set_power_status)
          (Some (as_status moonshot_get_power_status)) None None None
          (Sim.start "off" "c1n1,c3n1" three_nodes) = (Ret EC_OK, s') ∧
    node_on (Sim.ch_nodes (s_dev s')) "c1n1" = false ∧
    node_on (Sim.ch_nodes (s_dev s')) "c2n1" = true ∧
    node_on (Sim.ch_nodes (s_dev s')) "c3n1" = false.
Proof.
  destruct (moonshot_switches_nodes (Line := Sim.chassis_line) Sim.cell Sim.header
    Sim.cell_word Sim.header_no_break Sim.header_short
    (λ v, eq_refl) (λ v, eq_refl) Sim.power_step
    ["c1n1"; "c3n1"] 20 "off" 1 None None (Sim.start "off" "c1n1,c3n1" three_nodes))
    as (s' & Hrun & _ & Hpw & _).
  - repeat constructor; done.
  - closed_dec.
  - apply Sim.start_session.
  - exact I.
  - apply Sim.chassis_start_settings.
  - reflexivity.
  - discriminate.
  - intros q [->|[->|[]%not_elem_of_nil]%elem_of_cons]%elem_of_cons; closed_dec.
  - reflexivity.
  - closed_dec.
  - lia.
  - exists s'. split; [exact Hrun|]. split_and!.
    + etransitivity; [apply (Hpw ltac:(discriminate) "c1n1"); closed_dec|vm_compute; reflexivity].
    + etransitivity; [apply (Hpw ltac:(discriminate) "c2n1"); closed_dec|vm_compute; reflexivity].
    + etransitivity; [apply (Hpw ltac:(discriminate) "c3n1"); closed_dec|vm_compute; reflexivity].
Defined.
