(* ===== verification/TypeSpec.v ===== *)
(** * The types of options

    A table of options is well typed when its defaults satisfy its own types and choices.
    With such a table, of which [all_opt] is one, options that were given with the right
    types stay right when the defaults are filled in, and no check complains of them. *)

From S2P Require Import Prelude PyStr OptionDefs Effects Fail Host Input CheckInput CheckSpec.
From S2P Require Import Ipmilan MenuAgents TableAgents CommandAgents.

Local Open Scope string_scope.

(** ** Well-typed tables *)

Definition numeric (d : optdef) : bool :=
  bool_decide (od_type d ∈ [Some "integer"; Some "second"]).

Definition is_number (v : pyval) : bool :=
  match py_int v with inl _ => true | inr _ => false end.

Definition is_choice (choices : list string) (v : pyval) : bool :=
  match v with VStr x => bool_decide (upper x ∈ upper <$> choices) | _ => false end.

Definition typed_value (d : optdef) (v : pyval) : bool :=
  (negb (numeric d) || is_number v) &&
  match od_choices d with Some choices => is_choice choices v | None => true end.

(** The default has the type of the option; a type or choices need a long name, and are
    not combined; the port has no choices. *)
Definition typed_def (o : string) (d : optdef) : bool :=
  match od_default d with Some v => typed_value d v | None => true end &&
  (bool_decide (is_Some (od_longopt d)) || bool_decide (od_type d = None) && bool_decide (od_choices d = None)) &&
  (bool_decide (od_choices d = None) || negb (numeric d)) &&
  (negb (bool_decide (o = "ipport")) || bool_decide (od_choices d = None) && bool_decide (od_longopt d = Some "ipport")).

(** The long names of the table. *)
Definition long_names (table : gmap string optdef) : list string :=
  omap (λ kd, od_longopt kd.2) (map_to_list table).

Definition checked_table (table : gmap string optdef) : Prop :=
  Forall (λ kd, typed_def kd.1 kd.2 = true) (map_to_list table) ∧ NoDup (long_names table) ∧
  long_name_in table "ipport" = Some "ipport".

#[export] Instance checked_table_dec table : Decision (checked_table table).
Proof. unfold checked_table. apply _. Defined.

(** Every entry is typed, long names are unique, and the port has its own. *)
Definition well_typed (table : gmap string optdef) : Prop :=
  (∀ o d, table !! o = Some d → typed_def o d = true) ∧
  (∀ o1 o2 d1 d2 l, table !! o1 = Some d1 → table !! o2 = Some d2 →
     od_longopt d1 = Some l → od_longopt d2 = Some l → o1 = o2) ∧
  long_name_in table "ipport" = Some "ipport".

(** The table of the library, and those of the agents that add options to it. *)
Definition extended (l : list (string * optdef)) : gmap string optdef :=
  list_to_map l ∪ all_opt.

Lemma omap_unique {A} (f : A → option string) l x y n :
  NoDup (omap f l) → x ∈ l → y ∈ l → f x = Some n → f y = Some n → x = y.
Proof.
  induction l as [|z l IH]; [by intros _ ?%not_elem_of_nil|]. cbn [omap list_omap].
  assert (∀ u, u ∈ l → f u = Some n → n ∈ omap f l) as Hin.
  { intros u Hu Hn. apply list_elem_of_omap. eauto. }
  destruct (f z) as [m|] eqn:Hz.
  - intros [Hm Hnd]%NoDup_cons. rewrite !elem_of_cons. intros [->|Hx] [->|Hy] Hfx Hfy; [done| | |by apply IH].
    + rewrite Hfx in Hz. injection Hz as ->. by apply Hin in Hfy.
    + rewrite Hfy in Hz. injection Hz as ->. by apply Hin in Hfx.
  - intros Hnd. rewrite !elem_of_cons. intros [->|Hx] [->|Hy] Hfx Hfy; try congruence. by apply IH.
Qed.

Lemma checked_table_well_typed table : checked_table table → well_typed table.
Proof.
  intros (Hall & Hnd & Hp). split_and!; [| |done].
  - intros o d Hd. rewrite Forall_forall in Hall. by apply (Hall (o, d)), elem_of_map_to_list.
  - intros o1 o2 d1 d2 l H1 H2 Hl1 Hl2. assert ((o1, d1) = (o2, d2)) as [= ? ?]; [|done].
    by eapply (omap_unique (λ kd : string * optdef, od_longopt kd.2) (map_to_list table));
      [exact Hnd|apply elem_of_map_to_list..| |].
Qed.

Lemma all_opt_well_typed : well_typed all_opt.
Proof. apply checked_table_well_typed. closed_dec. Qed.

Lemma agent_tables_well_typed :
  Forall (λ l, well_typed (extended l)) [ipmi_opts; drac5_opts; vbox_opts; lpar_opts; amt_opts].
Proof. repeat (constructor; [apply checked_table_well_typed; closed_dec|]). constructor. Qed.

(** Giving the port a default changes neither the type nor the choices of any option. *)
Lemma typed_value_update f d v :
  (∀ x, f ≠ Choices x) → (∀ x, f ≠ Type_ x) → typed_value (set_field d f) v = typed_value d v.
Proof. intros Hc Ht. destruct d, f; try done; [by destruct (Hc l)|by destruct (Ht s)]. Qed.

(** Changing the default of the port to a typed value keeps the table well typed. *)
Lemma well_typed_port_default table d v :
  well_typed table → table !! "ipport" = Some d → typed_value d v = true →
  well_typed (opt_update "ipport" (Default v) table).
Proof.
  intros (Hdef & Huniq & Hp) Hd Hv. unfold opt_update.
  assert (∀ o e, alter (λ d0, set_field d0 (Default v)) "ipport" table !! o = Some e →
    ∃ e0, table !! o = Some e0 ∧ od_longopt e = od_longopt e0) as Hback.
  { intros o e. destruct (decide (o = "ipport")) as [->|Hne].
    - rewrite lookup_alter_eq, Hd. cbn. intros [= <-]. eexists. split; [done|]. by destruct d.
    - rewrite lookup_alter_ne by done. eauto. }
  split_and!.
  - intros o e. destruct (decide (o = "ipport")) as [->|Hne].
    + rewrite lookup_alter_eq, Hd. cbn. intros [= <-]. specialize (Hdef _ _ Hd).
      unfold typed_def in *. replace (od_default (set_field d (Default v))) with (Some v) by by destruct d.
      rewrite typed_value_update, Hv by done. apply andb_true_iff in Hdef as [[[_ H1]%andb_true_iff H2]%andb_true_iff H3].
      destruct d. apply andb_true_iff. split; [|exact H3]. apply andb_true_iff. split; [|exact H2].
      exact H1.
    + rewrite lookup_alter_ne by done. apply Hdef.
  - intros o1 o2 d1 d2 l H1 H2 Hl1 Hl2.
    apply Hback in H1 as (e1 & H1 & E1), H2 as (e2 & H2 & E2). apply (Huniq o1 o2 e1 e2 l); congruence.
  - unfold long_name_in in *. rewrite lookup_alter_eq. rewrite Hd in Hp |- *. by destruct d.
Qed.

Lemma port_no_choices table d : well_typed table → table !! "ipport" = Some d → od_choices d = None.
Proof.
  intros Hw Hd. pose proof (proj1 Hw _ _ Hd) as Ht. unfold typed_def in Ht.
  rewrite (bool_decide_true ("ipport" = "ipport")) in Ht by done. cbn in Ht. by bool_hyps.
Qed.

(** ** Typed options *)

Section Typed.
Context {D : Type}.
Implicit Types s : st D.

(** Every available option that has a value has one of its type. *)
Definition typed_options (os : list string) (s : st D) : Prop :=
  ∀ o d l v, o ∈ os → s_allopt s !! o = Some d → od_longopt d = Some l →
    s_opts s !! ("--" +:+ l) = Some v → typed_value d v = true.

(** A typed value under the long name of one option. *)
Lemma typed_options_insert os s o d l v :
  well_typed (s_allopt s) → s_allopt s !! o = Some d → od_longopt d = Some l →
  typed_value d v = true → typed_options os s →
  typed_options os (set_opts (<["--" +:+ l := v]> (s_opts s)) s).
Proof.
  intros Hw Hd Hl Hv Hs o' d' l' v' Ho' Hd' Hl' Hv'. cbn in Hd', Hv'.
  destruct (decide (l' = l)) as [->|Hne].
  - assert (o' = o) as -> by (by eapply (proj1 (proj2 Hw))). simplify_eq.
    rewrite lookup_insert_eq in Hv'. by simplify_eq.
  - rewrite lookup_insert_ne in Hv'; [by eapply Hs|]. intros [= Heq]. by apply Hne.
Qed.

Lemma set_option_default_typed os o s u s' :
  well_typed (s_allopt s) → typed_options os s → set_option_default o s = (Ret u, s') →
  typed_options os s' ∧ s_allopt s' = s_allopt s.
Proof.
  intros Hw Hs (d & s1 & [Hd ->]%allopt_get_Ret_inv & Hr)%bind_Ret_inv.
  destruct (od_default d) as [v|] eqn:Hv; [|by minv Hr]. case_decide; [by minv Hr|].
  apply bind_Ret_inv in Hr as (l & s1 & [(d2 & ? & Hl) ->]%longopt_of_Ret_inv & Hr).
  simplify_eq. apply bind_Ret_inv in Hr as (b & s1 & Hb & Hr). minv Hb.
  case_bool_decide; minv Hr; [done|]. split; [|done].
  apply (typed_options_insert os s o d l v); try done.
  pose proof (proj1 Hw _ _ Hd) as Ht. unfold typed_def in Ht. rewrite Hv in Ht. by bool_hyps.
Qed.

Lemma option_defaults_typed os l s u s' :
  well_typed (s_allopt s) → typed_options os s → mfor l set_option_default s = (Ret u, s') →
  typed_options os s' ∧ s_allopt s' = s_allopt s.
Proof.
  revert s. induction l as [|o l IH]; intros s Hw Hs Hr; [cbn [mfor] in Hr; by minv Hr|].
  apply mfor_cons_Ret_inv in Hr as (u1 & s1 & H1 & H2).
  destruct (set_option_default_typed os _ _ _ _ Hw Hs H1) as [Hs1 Ha]. rewrite <- Ha in Hw |- *.
  by apply IH.
Qed.

Lemma option_defaults_device_opt l s u s' :
  mfor l set_option_default s = (Ret u, s') → s_opts s' !! "device_opt" = s_opts s !! "device_opt".
Proof.
  revert s. induction l as [|o l IH]; intros s Hr; [cbn [mfor] in Hr; by minv Hr|].
  apply mfor_cons_Ret_inv in Hr as (u1 & s1 & (d & s2 & [Hd ->]%allopt_get_Ret_inv & Hr)%bind_Ret_inv & H2).
  rewrite (IH _ H2). clear IH H2.
  destruct (od_default d) as [v|]; [|by minv Hr]. case_decide; [by minv Hr|].
  apply bind_Ret_inv in Hr as (n & s2 & [_ ->]%longopt_of_Ret_inv & Hr).
  apply bind_Ret_inv in Hr as (b & s2 & Hb & Hr). minv Hb.
  case_bool_decide; minv Hr; [done|]. cbn. by rewrite lookup_insert_ne.
Qed.

(** The default of the port is the configured one or a number. *)
Lemma default_ipport_value os s v s' :
  default_ipport os s = (Ret (Some v), s') →
  (∃ d, s_allopt s !! "ipport" = Some d ∧ od_default d = Some v) ∨ is_number v = true.
Proof.
  unfold default_ipport.
  intros (c & s1 & (d & s2 & [Hd ->]%allopt_get_Ret_inv & Hc)%bind_Ret_inv & Hr)%bind_Ret_inv.
  minv Hc. destruct (od_default d) as [x|] eqn:Hx; [minv Hr; eauto|]. right.
  repeat match goal with
  | H : (if ?b then _ else _) _ = _ |- _ => destruct b; [by minv H; vm_compute|]
  | H : mbind _ _ _ = _ |- _ => apply bind_Ret_inv in H as ([] & ? & _ & H); [by minv H; vm_compute|]
  end.
  by minv Hr.
Qed.

Lemma port_default_typed os s d v :
  well_typed (s_allopt s) → s_allopt s !! "ipport" = Some d → typed_value d v = true →
  typed_options os s →
  typed_options os (set_allopt (opt_update "ipport" (Default v) (s_allopt s))
                     (set_opts (<["--ipport" := v]> (s_opts s)) s)).
Proof.
  intros Hw Hd Hv Hs.
  assert (od_longopt d = Some "ipport") as Hl.
  { destruct Hw as (_ & _ & Hp). unfold long_name_in in Hp. by rewrite Hd in Hp. }
  pose proof (typed_options_insert os s "ipport" d "ipport" v Hw Hd Hl Hv Hs) as Hs1.
  intros o' d' l' v' Ho' Hd' Hl' Hv'. cbn in Hd', Hv'. unfold opt_update in Hd'.
  destruct (decide (o' = "ipport")) as [->|Hne].
  - rewrite lookup_alter_eq, Hd in Hd'. cbn in Hd'. simplify_eq.
    rewrite typed_value_update by done. eapply Hs1; [exact Ho'|exact Hd| |exact Hv']. by destruct d.
  - rewrite lookup_alter_ne in Hd' by done. by eapply Hs1.
Qed.

Lemma set_ipport_default_typed os l s u s' :
  well_typed (s_allopt s) → typed_options os s → set_ipport_default l s = (Ret u, s') →
  typed_options os s' ∧ well_typed (s_allopt s') ∧
  (∀ o, is_Some (s_allopt s !! o) → is_Some (s_allopt s' !! o)) ∧
  s_opts s' !! "device_opt" = s_opts s !! "device_opt".
Proof.
  intros Hw Hs. unfold set_ipport_default. intros (b & s1 & Hb & Hr)%bind_Ret_inv. minv Hb.
  case_bool_decide; [by minv Hr|].
  apply bind_Ret_inv in Hr as (p & s1 & Hp & Hr).
  pose proof (default_ipport_reads l s) as Heq. rewrite Hp in Heq. cbn in Heq. subst s1.
  destruct p as [v|]; [|by minv Hr].
  pose proof (proj2 (proj2 Hw)) as Hport.
  unfold long_name_in in Hport. destruct (s_allopt s !! "ipport") as [d|] eqn:Hd; [|done].
  pose proof (proj1 Hw _ _ Hd) as Ht. unfold typed_def in Ht.
  assert (typed_value d v = true) as Hv.
  { apply default_ipport_value in Hp as [(d' & Hd' & Hv)|Hv].
    - simplify_eq. rewrite Hv in Ht. by bool_hyps.
    - unfold typed_value. by rewrite Hv, orb_true_r, (port_no_choices _ _ Hw Hd). }
  unfold allopt_set in Hr. minv Hr. split; [by apply (port_default_typed os s d v)|].
  split; [by apply (well_typed_port_default _ d)|]. split; [|cbn; by rewrite lookup_insert_ne].
  intros o Ho. cbn. unfold opt_update. destruct (decide (o = "ipport")) as [->|Hne].
  - rewrite lookup_alter_eq, Hd. by eexists.
  - by rewrite lookup_alter_ne.
Qed.

(** ** The checks accept what is typed *)

Lemma typed_def_longopt o d :
  typed_def o d = true → is_Some (od_type d) ∨ is_Some (od_choices d) → is_Some (od_longopt d).
Proof.
  unfold typed_def. intros [[[_ Hl]%andb_true_iff _]%andb_true_iff _]%andb_true_iff Hsome.
  apply orb_true_iff in Hl as [Hl|Hl]; bool_hyps; [done|].
  by destruct Hsome as [[? ?]|[? ?]]; congruence.
Qed.

Lemma allopt_get_known o s d : s_allopt s !! o = Some d → allopt_get o s = (Ret d, s).
Proof. intros Hd. unfold allopt_get. by rewrite Hd. Qed.

Lemma longopt_of_known o s d l :
  s_allopt s !! o = Some d → od_longopt d = Some l → longopt_of o s = (Ret l, s).
Proof.
  intros Hd Hl. unfold longopt_of. rewrite (bind_Ret _ _ _ _ _ (allopt_get_known o s d Hd)).
  by rewrite Hl.
Qed.

Lemma check_type_accepts os s o failed :
  well_typed (s_allopt s) → typed_options os s → o ∈ os → is_Some (s_allopt s !! o) →
  check_type failed o s = (Ret failed, s).
Proof.
  intros Hw Hs Ho [d Hd]. unfold check_type. rewrite (bind_Ret _ _ _ _ _ (allopt_get_known o s d Hd)).
  destruct (od_type d) as [t|] eqn:Ht; [|done].
  destruct (typed_def_longopt o d (proj1 Hw _ _ Hd)) as [l Hl]; [left; rewrite Ht; by eexists|].
  rewrite (bind_Ret _ _ _ _ _ (longopt_of_known o s d l Hd Hl)).
  rewrite (bind_Ret _ _ _ _ _ (eq_refl : opt_find _ s = (Ret (s_opts s !! _), s))).
  destruct (s_opts s !! ("--" +:+ l)) as [v|] eqn:Hv; [|done].
  pose proof (Hs o d l v Ho Hd Hl Hv) as Hty. unfold typed_value, numeric in Hty. rewrite Ht in Hty.
  destruct (bool_decide (t ∈ _)) eqn:Hn; [|done]. apply bool_decide_eq_true in Hn.
  rewrite (bool_decide_true (Some t ∈ _)) in Hty by exact (list_elem_of_fmap_2 Some _ t Hn). cbn in Hty.
  apply andb_true_iff in Hty as [Hty _].
  unfold is_number in *. by destruct (py_int v).
Qed.

(** A check of the choices stores the value in upper case, which is as well typed. *)
Lemma check_choice_accepts os s o failed :
  well_typed (s_allopt s) → typed_options os s → o ∈ os → is_Some (s_allopt s !! o) →
  ∃ s', check_choice failed o s = (Ret failed, s') ∧ typed_options os s' ∧ s_allopt s' = s_allopt s.
Proof.
  intros Hw Hs Ho [d Hd]. unfold check_choice. rewrite (bind_Ret _ _ _ _ _ (allopt_get_known o s d Hd)).
  destruct (od_choices d) as [choices|] eqn:Hc; [|by exists s].
  destruct (typed_def_longopt o d (proj1 Hw _ _ Hd)) as [l Hl]; [right; rewrite Hc; by eexists|].
  rewrite (bind_Ret _ _ _ _ _ (longopt_of_known o s d l Hd Hl)).
  rewrite (bind_Ret _ _ _ _ _ (eq_refl : opt_find _ s = (Ret (s_opts s !! _), s))).
  destruct (s_opts s !! ("--" +:+ l)) as [v|] eqn:Hv; [|by exists s].
  pose proof (Hs o d l v Ho Hd Hl Hv) as Hty. unfold typed_value in Hty. rewrite Hc in Hty.
  bool_hyps. destruct v as [|x| |]; try done. cbn in *. bool_hyps.
  exists (set_opts (<["--" +:+ l := VStr (upper x)]> (s_opts s)) s).
  split; [unfold mbind, M_bind; cbn; by rewrite bool_decide_true|]. split; [|done].
  apply (typed_options_insert os s o d l); try done.
  unfold typed_value. rewrite Hc. cbn. rewrite upper_idem, (bool_decide_true (upper x ∈ _)) by done.
  rewrite andb_true_r. pose proof (proj1 Hw _ _ Hd) as Ht. unfold typed_def in Ht.
  rewrite Hc in Ht. apply andb_true_iff in Ht as [[_ Ht]%andb_true_iff _].
  by destruct (numeric d).
Qed.

Lemma check_types_accept os l s failed :
  well_typed (s_allopt s) → typed_options os s → l ⊆ os → (∀ o, o ∈ os → is_Some (s_allopt s !! o)) →
  mfold check_type failed l s = (Ret failed, s).
Proof.
  intros Hw Hs Hl Hin. induction l as [|o l IH]; [done|]. cbn [mfold].
  rewrite (bind_Ret _ _ _ _ _ (check_type_accepts os s o failed Hw Hs ltac:(set_solver) ltac:(set_solver))).
  apply IH. set_solver.
Qed.

Lemma check_choices_accept os l s failed :
  well_typed (s_allopt s) → typed_options os s → l ⊆ os → (∀ o, o ∈ os → is_Some (s_allopt s !! o)) →
  ∃ s', mfold check_choice failed l s = (Ret failed, s') ∧ typed_options os s'.
Proof.
  revert s. induction l as [|o l IH]; intros s Hw Hs Hl Hin; [by exists s|]. cbn [mfold].
  destruct (check_choice_accepts os s o failed Hw Hs) as (s1 & H1 & Hs1 & Ha); [set_solver..|].
  rewrite (bind_Ret _ _ _ _ _ H1). apply IH; rewrite ?Ha; set_solver.
Qed.

(** C23. Over a well-typed table, options given with their types keep them when the
    defaults are filled in: the result passes the checks of types and of choices, and
    still has its types after them. *)
Theorem options_stay_typed os s u s' :
  well_typed (s_allopt s) → s_opts s !! "device_opt" = Some (VList os) →
  (∀ o, o ∈ os → is_Some (s_allopt s !! o)) → typed_options os s →
  set_default_values s = (Ret u, s') →
  typed_options os s' ∧ get_opts_with_invalid_types s' = (Ret [], s') ∧
  ∃ s2, get_opts_with_invalid_choices s' = (Ret [], s2) ∧ typed_options os s2.
Proof.
  intros Hw Hos Hin Hs (l & s1 & Hl & Hr)%bind_Ret_inv.
  assert (opt_list "device_opt" s = (Ret os, s)) as Hlist.
  { unfold opt_list, opt_get, mbind, M_bind. by rewrite Hos. }
  rewrite Hlist in Hl. injection Hl as <- <-.
  apply bind_Ret_inv in Hr as (u1 & s1 & H1 & H2).
  assert (typed_options os s1 ∧ well_typed (s_allopt s1) ∧
    (∀ o, is_Some (s_allopt s !! o) → is_Some (s_allopt s1 !! o)) ∧
    s_opts s1 !! "device_opt" = s_opts s !! "device_opt") as (Hs1 & Hw1 & Hin1 & Hos1).
  { apply mwhen_Ret_inv in H1 as [[_ H1]|[_ ->]]; [by eapply set_ipport_default_typed|by split_and!]. }
  pose proof (option_defaults_device_opt os _ _ _ H2) as Hos2.
  destruct (option_defaults_typed os os _ _ _ Hw1 Hs1 H2) as [Hs2 Ha]. rewrite <- Ha in Hw1, Hin1.
  assert (opt_list "device_opt" s' = (Ret os, s')) as Hlist'.
  { unfold opt_list, opt_get, mbind, M_bind. by rewrite Hos2, Hos1, Hos. }
  unfold get_opts_with_invalid_types, get_opts_with_invalid_choices.
  rewrite !(bind_Ret _ _ _ _ _ Hlist'). split_and!; [done| |].
  - eapply check_types_accept; eauto.
  - eapply check_choices_accept; eauto.
Qed.
End Typed.

(** ** An example: SNMP options over the table of the library *)

(** Typed options can be checked one by one. *)
Definition option_typed (s : st Mem.host) (o : string) : bool :=
  match s_allopt s !! o with
  | Some d =>
      match od_longopt d with
      | Some l => match s_opts s !! ("--" +:+ l) with Some v => typed_value d v | None => true end
      | None => true
      end
  | None => true
  end.

Lemma typed_options_checked os s : forallb (option_typed s) os = true → typed_options os s.
Proof.
  intros Hall%Is_true_true%forallb_True o d l v Ho Hd Hl Hv. rewrite Forall_forall in Hall.
  specialize (Hall o Ho). unfold option_typed in Hall. rewrite Hd, Hl, Hv in Hall.
  by destruct (typed_value d v).
Qed.

Definition snmp_os : list string :=
  ["ipaddr"; "ipport"; "snmp_version"; "snmp_auth_prot"; "power_timeout"; "action"; "port"].

Definition snmp_given : st Mem.host :=
  St (<["device_opt" := VList snmp_os]> {["--snmp-version" := VStr "2C"; "--snmp-auth-prot" := VStr "md5";
        "--power-timeout" := VStr "30"]}) all_opt [] 0 Mem.empty.

Lemma options_stay_typed_witness :
  ∃ s', set_default_values snmp_given = (Ret tt, s') ∧ typed_options snmp_os s' ∧
    s_opts s' !! "--snmp-version" = Some (VStr "2C") ∧
    get_opts_with_invalid_types s' = (Ret [], s').
Proof.
  exists (set_default_values snmp_given).2.
  assert (set_default_values snmp_given = (Ret tt, (set_default_values snmp_given).2)) as Hr
    by (vm_compute; reflexivity).
  destruct (options_stay_typed snmp_os snmp_given tt _ all_opt_well_typed eq_refl
    ltac:(apply Forall_forall; closed_dec) ltac:(apply typed_options_checked; vm_compute; reflexivity) Hr)
    as (Ht & Hty & _).
  split_and!; [exact Hr|exact Ht|vm_compute; reflexivity|exact Hty].
Defined.
