(* ===== verification/Json.v ===== *)
(** * JSON

    Values of JSON: reading and printing texts, access to members, and equality of values as
    Python has it for the keys of a dictionary. This is the module json of Python and the
    behaviour of the values it gives, as the agents use them. *)

From S2P Require Import Prelude PyStr OptionDefs Effects Fail Metadata Action.

Local Open Scope string_scope.

(** ** Values *)

(** A float is the text of its literal. A dictionary keeps the order of its keys. *)
#[local] Unset Elimination Schemes.
Inductive json :=
| JNull
| JBool (b : bool)
| JInt (n : Z)
| JFloat (literal : string)
| JStr (s : string)
| JList (l : list json)
| JDict (d : list (string * json)).
#[local] Set Elimination Schemes.

(** ** UTF-8 *)

Definition chr (n : Z) : ascii := ascii_of_N (Z.to_N n).
Definition ord (c : ascii) : Z := Z.of_N (code c).

Definition utf8_encode (n : Z) : string :=
  if (n <? 128)%Z then str1 (chr n)
  else if (n <? 2048)%Z then String (chr (192 + n / 64)) (str1 (chr (128 + n mod 64)))
  else if (n <? 65536)%Z then
    String (chr (224 + n / 4096)) (String (chr (128 + n / 64 mod 64)) (str1 (chr (128 + n mod 64))))
  else
    String (chr (240 + n / 262144)) (String (chr (128 + n / 4096 mod 64))
      (String (chr (128 + n / 64 mod 64)) (str1 (chr (128 + n mod 64))))).

Definition continues (c : ascii) : bool := ((128 <=? ord c) && (ord c <? 192))%Z.

(** The code points of a text; a byte that is not UTF-8 is a lone surrogate, as in names
    that Python takes from its environment. *)
Fixpoint code_points (s : string) : list Z :=
  match s with
  | "" => []
  | String c t =>
      let n := ord c in
      if (n <? 128)%Z then n :: code_points t
      else
        match t with
        | String c1 t1 =>
            if ((194 <=? n) && (n <? 224) && continues c1)%Z
            then ((n - 192) * 64 + (ord c1 - 128))%Z :: code_points t1
            else
              match t1 with
              | String c2 t2 =>
                  if ((224 <=? n) && (n <? 240) && continues c1 && continues c2)%Z
                  then ((n - 224) * 4096 + (ord c1 - 128) * 64 + (ord c2 - 128))%Z :: code_points t2
                  else
                    match t2 with
                    | String c3 t3 =>
                        if ((240 <=? n) && (n <? 245) && continues c1 && continues c2 && continues c3)%Z
                        then ((n - 240) * 262144 + (ord c1 - 128) * 4096 + (ord c2 - 128) * 64 + (ord c3 - 128))%Z
                             :: code_points t3
                        else (56320 + n)%Z :: code_points t
                    | _ => (56320 + n)%Z :: code_points t
                    end
              | _ => (56320 + n)%Z :: code_points t
              end
        | _ => (56320 + n)%Z :: code_points t
        end
  end.

(** [len(s)] *)
Definition py_len (s : string) : nat := length (code_points s).

(** ** [json.loads] *)

(** What was read and the text after it, or a message and the text from the error on;
    [None] is the end of a bounded unrolling. *)
Definition scanned (A : Type) : Type := option (A * string + string * string).

Definition unexpected {A} (msg rest : string) : scanned A := Some (inr (msg, rest)).

Definition scan_bind {A B} (m : scanned A) (f : A → string → scanned B) : scanned B :=
  match m with
  | Some (inl (a, rest)) => f a rest
  | Some (inr e) => Some (inr e)
  | None => None
  end.

Definition is_json_space (c : ascii) : bool :=
  bool_decide (c ∈ [" "%char; TAB; NL; CR]).
Definition skip_space : string → string := lstrip_by is_json_space.

(** The text after its first character, if that is [c]. *)
Definition front (c : ascii) (s : string) : option string :=
  match s with
  | String d t => if decide (d = c) then Some t else None
  | "" => None
  end.

Definition hex4 (a b c d : ascii) : option Z :=
  a' ← digit_val 16 a; b' ← digit_val 16 b; c' ← digit_val 16 c; d' ← digit_val 16 d;
  Some (((a' * 16 + b') * 16 + c') * 16 + d')%Z.

Definition high_surrogate (n : Z) : bool := ((55296 <=? n) && (n <? 56320))%Z.
Definition low_surrogate (n : Z) : bool := ((56320 <=? n) && (n <? 57344))%Z.
Definition join_surrogates (high low : Z) : Z :=
  (65536 + (high - 55296) * 1024 + (low - 56320))%Z.

Definition unescaped (c : ascii) : option ascii :=
  if decide (c = DQ) then Some DQ
  else if decide (c = BS) then Some BS
  else if decide (c = "/"%char) then Some "/"%char
  else if decide (c = "b"%char) then Some "008"%char
  else if decide (c = "f"%char) then Some "012"%char
  else if decide (c = "n"%char) then Some NL
  else if decide (c = "r"%char) then Some CR
  else if decide (c = "t"%char) then Some TAB
  else None.

Definition put {A} (x : string) (m : string * A + string * string) : string * A + string * string :=
  match m with inl (y, rest) => inl (x +:+ y, rest) | inr e => inr e end.

Definition UNTERMINATED : string := "Unterminated string starting at".
Definition INVALID_ESCAPE : string := "Invalid " +:+ str1 BS +:+ "escape".
Definition INVALID_UNICODE : string := "Invalid " +:+ str1 BS +:+ "uXXXX escape".

(** The text up to the closing quote; [begin] is the text from the opening one on. *)
Fixpoint scan_string (begin s : string) : string * string + string * string :=
  match s with
  | "" => inr (UNTERMINATED, begin)
  | String c t =>
      if decide (c = DQ) then inl ("", t)
      else if decide (c = BS) then
        match t with
        | "" => inr (UNTERMINATED, begin)
        | String e u =>
            if decide (e = "u"%char) then
              match u with
              | String h1 (String h2 (String h3 (String h4 ((String _ _) as v)))) =>
                  match hex4 h1 h2 h3 h4 with
                  | None => inr (INVALID_UNICODE, t)
                  | Some n =>
                      if high_surrogate n then
                        match v with
                        | String b2 ((String u2 (String g1 (String g2 (String g3 (String g4
                            ((String _ _) as w)))))) as v') =>
                            if decide (b2 = BS ∧ u2 = "u"%char) then
                              match hex4 g1 g2 g3 g4 with
                              | None => inr (INVALID_UNICODE, v')
                              | Some m =>
                                  if low_surrogate m
                                  then put (utf8_encode (join_surrogates n m)) (scan_string begin w)
                                  else put (utf8_encode n) (scan_string begin v)
                              end
                            else put (utf8_encode n) (scan_string begin v)
                        | _ => put (utf8_encode n) (scan_string begin v)
                        end
                      else put (utf8_encode n) (scan_string begin v)
                  end
              | _ => inr (INVALID_UNICODE, t)
              end
            else
              match unescaped e with
              | Some x => put (str1 x) (scan_string begin u)
              | None => inr (INVALID_ESCAPE, s)
              end
        end
      else if (ord c <? 32)%Z then inr ("Invalid control character at", s)
      else put (str1 c) (scan_string begin t)
  end.

(** The digits at the front of a text. *)
Fixpoint digits_of (s : string) : string * string :=
  match s with
  | String c t => if is_digit c then let '(d, r) := digits_of t in (String c d, r) else ("", s)
  | "" => ("", "")
  end.

(** [.5] and [e-7] after the digits of a number, if complete. *)
Definition fraction_of (s : string) : string * string :=
  match front "." s with
  | Some t =>
      match digits_of t with
      | ("", _) => ("", s)
      | (ds, r) => ("." +:+ ds, r)
      end
  | None => ("", s)
  end.

Definition exponent_of (s : string) : string * string :=
  match s with
  | String e t =>
      if bool_decide (e ∈ ["e"%char; "E"%char]) then
        let '(sign, t') :=
          match t with
          | String g t' => if bool_decide (g ∈ ["+"%char; "-"%char]) then (str1 g, t') else ("", t)
          | "" => ("", t)
          end in
        match digits_of t' with
        | ("", _) => ("", s)
        | (ds, r) => (String e (sign +:+ ds), r)
        end
      else ("", s)
  | "" => ("", s)
  end.

(** The integer part: no further digit follows a zero. *)
Definition integer_of (s : string) : option (string * string) :=
  let '(sign, t) := match front "-" s with Some t => ("-", t) | None => ("", s) end in
  match front "0" t with
  | Some u => Some (sign +:+ "0", u)
  | None =>
      match digits_of t with
      | ("", _) => None
      | (ds, r) => Some (sign +:+ ds, r)
      end
  end.

Definition scan_number (s : string) : scanned json :=
  match integer_of s with
  | None => unexpected "Expecting value" s
  | Some (i, r) =>
      let '(f, r1) := fraction_of r in
      let '(e, r2) := exponent_of r1 in
      if decide (f = "" ∧ e = "") then
        Some (inl (match int_of_str i with Some n => JInt n | None => JFloat i end, r))
      else Some (inl (JFloat (i +:+ f +:+ e), r2))
  end.

(** The words that are values. *)
Definition keywords : list (string * json) :=
  [("null", JNull); ("true", JBool true); ("false", JBool false); ("NaN", JFloat "NaN");
   ("Infinity", JFloat "Infinity"); ("-Infinity", JFloat "-Infinity")].

Definition keyword_of (s : string) : option (json * string) :=
  match list_find (λ kv, startswith kv.1 s = true) keywords with
  | Some (_, kv) =>
      Some (kv.2, String.substring (String.length kv.1) (String.length s - String.length kv.1) s)
  | None => None
  end.

(** One value; the members of a dictionary from a key on; the elements of a list from a
    value on. *)
Fixpoint scan_value (fuel : nat) (s : string) {struct fuel} : scanned json :=
  match fuel with
  | O => None
  | S k =>
      match s with
      | "" => unexpected "Expecting value" s
      | String c t =>
          if decide (c = DQ) then
            match scan_string s t with
            | inl (x, r) => Some (inl (JStr x, r))
            | inr e => Some (inr e)
            end
          else if decide (c = "{"%char) then
            let u := skip_space t in
            match front "}" u with
            | Some r => Some (inl (JDict [], r))
            | None => scan_members k [] u
            end
          else if decide (c = "["%char) then
            let u := skip_space t in
            match front "]" u with
            | Some r => Some (inl (JList [], r))
            | None => scan_elements k [] u
            end
          else
            match keyword_of s with
            | Some (v, r) => Some (inl (v, r))
            | None => scan_number s
            end
      end
  end
with scan_members (fuel : nat) (d : list (string * json)) (s : string) {struct fuel} : scanned json :=
  match fuel with
  | O => None
  | S k =>
      match front DQ s with
      | None => unexpected "Expecting property name enclosed in double quotes" s
      | Some t =>
          match scan_string s t with
          | inr e => Some (inr e)
          | inl (key, r) =>
              let r1 := skip_space r in
              match front ":" r1 with
              | None => unexpected "Expecting ':' delimiter" r1
              | Some r2 =>
                  scan_bind (scan_value k (skip_space r2)) (λ v r3,
                    let d' := dict_insert key v d in
                    let r4 := skip_space r3 in
                    match front "}" r4 with
                    | Some r5 => Some (inl (JDict d', r5))
                    | None =>
                        match front "," r4 with
                        | Some r5 => scan_members k d' (skip_space r5)
                        | None => unexpected "Expecting ',' delimiter" r4
                        end
                    end)
              end
          end
      end
  end
with scan_elements (fuel : nat) (l : list json) (s : string) {struct fuel} : scanned json :=
  match fuel with
  | O => None
  | S k =>
      scan_bind (scan_value k s) (λ v r,
        let l' := (l ++ [v])%list in
        let r1 := skip_space r in
        match front "]" r1 with
        | Some r2 => Some (inl (JList l', r2))
        | None =>
            match front "," r1 with
            | Some r2 => scan_elements k l' (skip_space r2)
            | None => unexpected "Expecting ',' delimiter" r1
            end
        end)
  end.

(** The message of a [JSONDecodeError]: what, and where in the text. *)
Definition decode_error (doc msg rest : string) : string :=
  let before := String.substring 0 (String.length doc - String.length rest) doc in
  let lines := split_go nl before 0 in
  msg +:+ ": line " +:+ str_of_Z (Z.of_nat (length lines)) +:+
  " column " +:+ str_of_Z (Z.of_nat (S (py_len (default "" (last lines))))) +:+
  " (char " +:+ str_of_Z (Z.of_nat (py_len before)) +:+ ")".

Definition json_fuel (s : string) : nat := 2 * String.length s + 2.

(** The value of a text, or a message. *)
Definition BOM : string := String (chr 239) (String (chr 187) (str1 (chr 191))).

Definition json_loads (s : string) : option (json + string) :=
  if startswith BOM s
  then Some (inr (decode_error s "Unexpected UTF-8 BOM (decode using utf-8-sig)" s))
  else match scan_value (json_fuel s) (skip_space s) with
  | Some (inl (v, r)) =>
      Some (match skip_space r with "" => inl v | r1 => inr (decode_error s "Extra data" r1) end)
  | Some (inr (msg, r)) => Some (inr (decode_error s msg r))
  | None => None
  end.

(** [json.loads(s)]; a [JSONDecodeError] is a ValueError. *)
Definition loads {D} (s : string) : M D json :=
  match json_loads s with
  | Some (inl v) => mret v
  | Some (inr msg) => raise (ValueError msg)
  | None => out_of_fuel
  end.

(** ** [json.dumps] *)

Definition u_escape (n : Z) : string :=
  String BS (String "u" (hex_digits 4 n "")).

(** A character of a text in ASCII. *)
Definition escape_char (n : Z) : string :=
  if (n =? 34)%Z then String BS dq
  else if (n =? 92)%Z then String BS (str1 BS)
  else if (n =? 10)%Z then String BS "n"
  else if (n =? 13)%Z then String BS "r"
  else if (n =? 9)%Z then String BS "t"
  else if (n =? 12)%Z then String BS "f"
  else if (n =? 8)%Z then String BS "b"
  else if ((32 <=? n) && (n <? 127))%Z then str1 (chr n)
  else if (n <? 65536)%Z then u_escape n
  else u_escape (55296 + (n - 65536) / 1024) +:+ u_escape (56320 + (n - 65536) mod 1024).

Definition dump_string (s : string) : string :=
  dq +:+ join "" (map escape_char (code_points s)) +:+ dq.

Section Dumps.
(** What Python prints for the literal of a float. *)
Variable float_repr : string → string.

(** A line break and the indentation of a level, with [indent] columns a level. *)
Definition line_at (indent : option nat) (level : nat) : string :=
  match indent with Some n => nl +:+ repeat_str " " (n * level) | None => "" end.

Definition enclosed (indent : option nat) (level : nat) (open close : string) (items : list string) : string :=
  match items with
  | [] => open +:+ close
  | _ =>
      let separator := match indent with Some _ => "," +:+ line_at indent (S level) | None => ", " end in
      open +:+ line_at indent (S level) +:+ join separator items +:+ line_at indent level +:+ close
  end.

(** [json.dumps(v)], and with [indent] set [json.dumps(v, indent=...)]. *)
Fixpoint dump (indent : option nat) (level : nat) (v : json) : string :=
  match v with
  | JNull => "null"
  | JBool b => if b then "true" else "false"
  | JInt n => str_of_Z n
  | JFloat x => float_repr x
  | JStr s => dump_string s
  | JList l => enclosed indent level "[" "]" (map (dump indent (S level)) l)
  | JDict d =>
      enclosed indent level "{" "}"
        (map (λ kv, dump_string kv.1 +:+ ": " +:+ dump indent (S level) kv.2) d)
  end.

Definition json_dumps (v : json) : string := dump None 0 v.
Definition json_dumps_indent (n : nat) (v : json) : string := dump (Some n) 0 v.

(** [repr(v)], which is [str(v)] for all but texts. *)
Fixpoint json_repr (v : json) : string :=
  match v with
  | JNull => "None"
  | JBool b => if b then "True" else "False"
  | JInt n => str_of_Z n
  | JFloat x => float_repr x
  | JStr s => py_repr s
  | JList l => "[" +:+ join ", " (map json_repr l) +:+ "]"
  | JDict d => "{" +:+ join ", " (map (λ kv, py_repr kv.1 +:+ ": " +:+ json_repr kv.2) d) +:+ "}"
  end.

Definition json_str (v : json) : string :=
  match v with JStr s => s | _ => json_repr v end.
End Dumps.

(** ** Use of values *)

Definition json_type (v : json) : string :=
  match v with
  | JNull => "NoneType" | JBool _ => "bool" | JInt _ => "int" | JFloat _ => "float"
  | JStr _ => "str" | JList _ => "list" | JDict _ => "dict"
  end.

(** The literal is a zero: digits before any exponent are all zeros. *)
Definition zero_literal (x : string) : bool :=
  negb (existsb (λ c, is_digit c && negb (bool_decide (c = "0"%char)))
          (String.list_ascii_of_string (default "" (head (split_go "e" (lower x) 0))))) &&
  existsb is_digit (String.list_ascii_of_string x).

(** [bool(v)] *)
Definition json_truthy (v : json) : bool :=
  match v with
  | JNull => false
  | JBool b => b
  | JInt n => negb (n =? 0)%Z
  | JFloat x => negb (zero_literal x)
  | JStr s => bool_decide (s ≠ "")
  | JList l => match l with [] => false | _ => true end
  | JDict d => match d with [] => false | _ => true end
  end.

Section Access.
Context {D : Type}.

(** [v[k]] for a text [k] *)
Definition json_item (v : json) (k : string) : M D json :=
  match v with
  | JDict d => match dict_get k d with Some x => mret x | None => raise (KeyError k) end
  | JList _ => raise (TypeError "list indices must be integers or slices, not str")
  | JStr _ => raise (TypeError "string indices must be integers")
  | _ => raise (TypeError ("'" +:+ json_type v +:+ "' object is not subscriptable"))
  end.

(** [v[n]] for a number [n] that is not negative *)
Definition json_nth (v : json) (n : nat) : M D json :=
  match v with
  | JList l => match l !! n with Some x => mret x | None => raise IndexError end
  | JDict _ => raise (KeyError (str_of_Z (Z.of_nat n)))
  | JStr s =>
      match String.get n s with
      | Some c => mret (JStr (str1 c))
      | None => raise (OtherError "string index out of range")
      end
  | _ => raise (TypeError ("'" +:+ json_type v +:+ "' object is not subscriptable"))
  end.

(** [k in v] *)
Definition json_in (k : string) (v : json) : M D bool :=
  match v with
  | JDict d => mret (bool_decide (is_Some (dict_get k d)))
  | JList l => mret (existsb (λ x, match x with JStr s => bool_decide (s = k) | _ => false end) l)
  | JStr s => mret (contains k s)
  | _ => raise (TypeError ("argument of type '" +:+ json_type v +:+ "' is not iterable"))
  end.

(** What a [for] loop over [v] goes through. *)
Definition json_iter (v : json) : M D (list json) :=
  match v with
  | JList l => mret l
  | JDict d => mret (map (λ kv, JStr kv.1) d)
  | JStr s => mret (map (λ n, JStr (utf8_encode n)) (code_points s))
  | _ => raise (TypeError ("'" +:+ json_type v +:+ "' object is not iterable"))
  end.

(** [len(v)] *)
Definition json_length (v : json) : M D nat :=
  match v with
  | JList l => mret (length l)
  | JDict d => mret (length d)
  | JStr s => mret (py_len s)
  | _ => raise (TypeError ("object of type '" +:+ json_type v +:+ "' has no len()"))
  end.

(** A value as a key of a dictionary; keys that are not texts are shown as [str] does. *)
Definition json_key (v : json) : M D string :=
  match v with
  | JList _ | JDict _ => raise (TypeError ("unhashable type: '" +:+ json_type v +:+ "'"))
  | _ => mret (json_str (λ x, x) v)
  end.

(** A text for [+]. *)
Definition json_concat (v : json) : M D string :=
  match v with
  | JStr s => mret s
  | _ => raise (TypeError ("can only concatenate str (not '" +:+ json_type v +:+ "') to str"))
  end.

(** [d[v]] of a dictionary with texts for keys *)
Definition dict_of_text {A} (d : list (string * A)) (v : json) : M D A :=
  match v with
  | JStr s => match dict_get s d with Some x => mret x | None => raise (KeyError s) end
  | JList _ | JDict _ => raise (TypeError ("unhashable type: '" +:+ json_type v +:+ "'"))
  | _ => raise (KeyError (json_repr (λ x, x) v))
  end.

(** [{True: t, False: f}[v]]: the numbers 1 and 0 are equal to the truth values. *)
Definition dict_of_bool {A} (t f : A) (v : json) : M D A :=
  match v with
  | JBool true => mret t
  | JBool false => mret f
  | JInt 1 => mret t
  | JInt 0 => mret f
  | JList _ | JDict _ => raise (TypeError ("unhashable type: '" +:+ json_type v +:+ "'"))
  | JStr s => raise (KeyError s)
  | _ => raise (KeyError (json_repr (λ x, x) v))
  end.
End Access.

(** * Values of JSON as keys

    Equality of values as Python has it, where [1], [1.0] and [True] are one key, and
    dictionaries with any keys. *)

(** [str] of a list of texts *)
Definition strs (l : list string) : string := "[" +:+ join ", " (map py_repr l) +:+ "]".

(** A number with its decimal exponent; not for the infinities. *)
Definition decimal_of (v : json) : option (Z * Z) :=
  match v with
  | JBool b => Some (Z.b2z b, 0%Z)
  | JInt n => Some (n, 0%Z)
  | JFloat x =>
      let '(m, e) := default (x, "0") (split1 "e"%char (lower x)) in
      let '(i, f) := default (m, "") (split1 "."%char m) in
      match int_of_str (i +:+ f), int_of_str e with
      | Some n, Some k => Some (n, (k - Z.of_nat (String.length f))%Z)
      | _, _ => None
      end
  | _ => None
  end.

(** [a == b] of values that can be keys. *)
Definition same_key_value (a b : json) : bool :=
  match a, b with
  | JStr s, JStr t => bool_decide (s = t)
  | JNull, JNull => true
  | _, _ =>
      match decimal_of a, decimal_of b with
      | Some (m, e), Some (n, k) => (m * 10 ^ (e - Z.min e k) =? n * 10 ^ (k - Z.min e k))%Z
      | _, _ => match a, b with JFloat x, JFloat y => bool_decide (x = y) | _, _ => false end
      end
  end.

Definition hashable (v : json) : bool := match v with JList _ | JDict _ => false | _ => true end.

(** A dictionary with any keys. *)
Fixpoint vdict_get {A} (k : json) (d : list (json * A)) : option A :=
  match d with
  | [] => None
  | (k', v) :: d => if same_key_value k k' then Some v else vdict_get k d
  end.

Fixpoint vdict_insert {A} (k : json) (v : A) (d : list (json * A)) : list (json * A) :=
  match d with
  | [] => [(k, v)]
  | (k', w) :: d => if same_key_value k k' then (k', v) :: d else (k', w) :: vdict_insert k v d
  end.

Definition check_hashable {D} (v : json) : M D unit :=
  if hashable v then mret tt else raise (TypeError ("unhashable type: '" +:+ json_type v +:+ "'")).
