(* ===== verification/JsonSpec.v ===== *)
(** * Reading JSON: termination, and the round trip with writing

    The reader ends on every text ([json_loads_total]), and a value without floats whose
    texts are ASCII is read back from what was written ([json_roundtrip]). *)

From S2P Require Import Prelude PyStr OptionDefs Effects Fail Metadata Action Json TextFacts.

Local Open Scope string_scope.

(** ** The reader consumes what it reads *)

Lemma skip_space_length s : (String.length (skip_space s) ≤ String.length s)%nat.
Proof.
  unfold skip_space. induction s as [|c s IH]; [done|]. cbn [lstrip_by String.length].
  destruct (is_json_space c); cbn [String.length]; lia.
Qed.

Lemma put_shorter {A} x (m : string * A + string * string) y r :
  put x m = inl (y, r) → ∃ z, m = inl (z, r).
Proof. destruct m as [[z r']|]; cbn; [|done]. intros [= _ ->]. eauto. Qed.

(** Each way through the reader of texts goes on with a shorter text or ends. *)
Ltac scan_string_step IH H :=
  repeat match type of H with
  | context [if decide ?P then _ else _] => destruct (decide P)
  | context [if ?b then _ else _] => destruct b eqn:?
  | context [match ?x with "" => _ | String _ _ => _ end] => is_var x; destruct x
  | context [match hex4 ?a ?b ?c ?d with Some _ => _ | None => _ end] => destruct (hex4 a b c d)
  | context [match unescaped ?a with Some _ => _ | None => _ end] => destruct (unescaped a)
  | inr _ = inl _ => discriminate H
  | put _ _ = inl _ => apply put_shorter in H as [? H]
  end.

Lemma scan_string_shorter_le n begin s x r :
  (String.length s ≤ n)%nat → scan_string begin s = inl (x, r) → (String.length r < String.length s)%nat.
Proof.
  revert s x. induction n as [|n IH]; intros [|c t] x Hn H; cbn [String.length] in Hn; try done; [lia|].
  cbn [scan_string] in H.
  scan_string_step IH H;
    first [injection H as _ <-; cbn; lia | apply IH in H; cbn [String.length] in *; lia].
Qed.

Lemma scan_string_shorter begin s x r :
  scan_string begin s = inl (x, r) → (String.length r < String.length s)%nat.
Proof. by apply (scan_string_shorter_le (String.length s)). Qed.

Lemma digits_of_length s d r :
  digits_of s = (d, r) → (String.length d + String.length r = String.length s)%nat.
Proof.
  revert d r. induction s as [|c s IH]; intros d r; cbn [digits_of]; [by intros [= <- <-]|].
  destruct (is_digit c); [|by intros [= <- <-]].
  destruct (digits_of s) as [d' r'] eqn:E. intros [= <- <-]. specialize (IH _ _ eq_refl). cbn. lia.
Qed.

Lemma front_Some c s r : front c s = Some r ↔ s = String c r.
Proof.
  destruct s as [|d s]; [done|]. cbn. case_decide; split; [by intros [= ->]; subst|by intros [= _ ->]|done|by intros [= ?]].
Qed.

Lemma integer_of_shorter s i r : integer_of s = Some (i, r) → (String.length r < String.length s)%nat.
Proof.
  assert (∀ sign t, match front "0" t with
    | Some u => Some (sign +:+ "0", u)
    | None => match digits_of t with ("", _) => None | (ds, r0) => Some (sign +:+ ds, r0) end
    end = Some (i, r) → (String.length r < String.length t)%nat) as Ht.
  { intros sign t. destruct (front "0" t) as [u|] eqn:Hf.
    - apply front_Some in Hf as ->. intros [= _ <-]. cbn. lia.
    - destruct (digits_of t) as [[|c d] r0] eqn:E; [done|]. apply digits_of_length in E.
      intros [= _ <-]. cbn in E. lia. }
  unfold integer_of. destruct (front "-" s) as [t|] eqn:Hf; [|apply Ht].
  apply front_Some in Hf as ->. intros H%Ht. cbn. lia.
Qed.

Lemma fraction_of_length s f r : fraction_of s = (f, r) → (String.length r ≤ String.length s)%nat.
Proof.
  unfold fraction_of. destruct (front "." s) as [t|] eqn:Hf; [|by intros [= _ <-]].
  apply front_Some in Hf as ->. destruct (digits_of t) as [[|c d] r0] eqn:E; intros [= _ <-]; [done|].
  apply digits_of_length in E. cbn in *. lia.
Qed.

Lemma exponent_of_length s e r : exponent_of s = (e, r) → (String.length r ≤ String.length s)%nat.
Proof.
  destruct s as [|c s]; cbn; [by intros [= _ <-]|]. case_bool_decide; [|by intros [= _ <-]].
  destruct s as [|g s]; [by intros [= _ <-]|].
  assert (∀ sign t' r', (match digits_of t' with ("", _) => ("", String c (String g s)) | (ds, r0) => (String c (sign +:+ ds), r0) end) = (e, r') →
    (String.length t' ≤ S (String.length s))%nat → (String.length r' ≤ S (S (String.length s)))%nat) as Ht.
  { intros sign t' r' H' Hl. destruct (digits_of t') as [ds r0] eqn:E. apply digits_of_length in E.
    destruct ds; injection H' as _ <-; cbn in *; lia. }
  case_bool_decide; intros H'; eapply Ht; try exact H'; cbn; lia.
Qed.

Lemma scan_number_shorter s v r :
  scan_number s = Some (inl (v, r)) → (String.length r < String.length s)%nat.
Proof.
  unfold scan_number. destruct (integer_of s) as [[i r0]|] eqn:Ei; [|done].
  apply integer_of_shorter in Ei.
  destruct (fraction_of r0) as [f r1] eqn:Ef. apply fraction_of_length in Ef.
  destruct (exponent_of r1) as [e r2] eqn:Ee. apply exponent_of_length in Ee.
  case_decide; intros [= _ <-]; lia.
Qed.

Lemma scan_number_total s : scan_number s ≠ None.
Proof.
  unfold scan_number, unexpected. destruct (integer_of s) as [[i r0]|]; [|done].
  destruct (fraction_of r0), (exponent_of _). by case_decide.
Qed.

Lemma length_substring n m s : (String.length (String.substring n m s) ≤ m)%nat.
Proof.
  revert n m. induction s as [|c s IH]; intros [|n] [|m]; cbn; try lia; [apply le_n_S, IH|apply (IH n 0%nat)|apply (IH n)].
Qed.

Lemma keyword_of_shorter s v r :
  keyword_of s = Some (v, r) → (String.length r < String.length s)%nat.
Proof.
  unfold keyword_of. destruct (list_find _ _) as [[i kv]|] eqn:E; [|done]. intros [= _ <-].
  apply list_find_Some in E as (Hi & Hp & _).
  assert (kv ∈ keywords) as Hin by (by eapply list_elem_of_lookup_2).
  assert (Forall (λ kv, (0 < String.length kv.1)%nat) keywords) as Hpos by closed_dec.
  rewrite Forall_forall in Hpos. specialize (Hpos _ Hin).
  apply prefix_app in Hp as [rest ->]. rewrite length_app_str.
  eapply Nat.le_lt_trans; [apply length_substring|]. lia.
Qed.

(** ** The reader ends *)

(** A bounded unrolling that gives something, and a shorter text if a value. *)
Definition ends {A} (m : scanned A) (n : nat) : Prop :=
  m ≠ None ∧ ∀ a r, m = Some (inl (a, r)) → (String.length r < n)%nat.

Lemma ends_error {A} msg rest n : ends (A := A) (unexpected msg rest) n.
Proof. by split. Qed.

Lemma ends_value {A} (a : A) r n : (String.length r < n)%nat → ends (Some (inl (a, r))) n.
Proof. split; [done|]. by intros a' r' [= _ <-]. Qed.

Lemma ends_mono {A} (m : scanned A) n n' : ends m n → (n ≤ n')%nat → ends m n'.
Proof. intros [H1 H2] Hn. split; [done|]. intros a r H%H2. lia. Qed.

Lemma ends_bind {A B} (m : scanned A) (f : A → string → scanned B) n n' :
  ends m n → (∀ a r, (String.length r < n)%nat → ends (f a r) n') → ends (scan_bind m f) n'.
Proof.
  intros [Hm Hr] Hf. destruct m as [[[a r]|e]|]; cbn; [|by split|done]. apply Hf. by eapply Hr.
Qed.

(** A choice on the first character of a text, after white space. *)
Lemma ends_front {A} c (m1 : string → scanned A) (m2 : scanned A) s n :
  (∀ r, (String.length r < String.length s)%nat → ends (m1 r) n) → ends m2 n →
  ends (match front c s with Some r => m1 r | None => m2 end) n.
Proof.
  intros H1 H2. destruct (front c s) as [r|] eqn:Hf; [|done]. apply front_Some in Hf as ->.
  apply H1. cbn. lia.
Qed.

Lemma scan_ends k :
  (∀ s, (2 * String.length s < k)%nat → ends (scan_value k s) (String.length s)) ∧
  (∀ d s, (2 * String.length s < k)%nat → ends (scan_members k d s) (String.length s)) ∧
  (∀ l s, (2 * String.length s + 1 < k)%nat → ends (scan_elements k l s) (String.length s)).
Proof.
  induction k as [|k (IHv & IHm & IHe)]; [split_and!; intros; lia|].
  split_and!.
  - intros [|c t] Hk; [apply ends_error|]. cbn [scan_value String.length] in *.
    pose proof (skip_space_length t) as Hs.
    repeat case_decide.
    + destruct (scan_string _ t) as [[x r]|e] eqn:E; [|by split].
      apply ends_value. apply scan_string_shorter in E. lia.
    + apply ends_front; [intros r Hr; apply ends_value; lia|].
      eapply ends_mono; [apply IHm|]; lia.
    + apply ends_front; [intros r Hr; apply ends_value; lia|].
      eapply ends_mono; [apply IHe|]; lia.
    + destruct (keyword_of _) as [[v r]|] eqn:E; [apply ends_value; by apply keyword_of_shorter in E|].
      split; [apply scan_number_total|]. intros v r. apply scan_number_shorter.
  - intros d s Hk. cbn [scan_members]. destruct (front DQ s) as [t|] eqn:Hf; [|apply ends_error].
    apply front_Some in Hf as ->. cbn [String.length] in *.
    destruct (scan_string _ t) as [[key r]|e] eqn:E; [|by split]. apply scan_string_shorter in E.
    pose proof (skip_space_length r) as Hs.
    apply ends_front; [|apply ends_error]. intros r2 Hr2. pose proof (skip_space_length r2) as Hs2.
    eapply ends_bind; [apply IHv; lia|]. intros v r3 Hr3. pose proof (skip_space_length r3) as Hs3.
    apply ends_front; [intros r5 Hr5; apply ends_value; lia|].
    apply ends_front; [|apply ends_error]. intros r5 Hr5. pose proof (skip_space_length r5) as Hs5.
    eapply ends_mono; [apply IHm|]; lia.
  - intros l s Hk. cbn [scan_elements]. eapply ends_bind; [apply IHv; lia|].
    intros v r Hr. pose proof (skip_space_length r) as Hs.
    apply ends_front; [intros r2 Hr2; apply ends_value; lia|].
    apply ends_front; [|apply ends_error]. intros r2 Hr2. pose proof (skip_space_length r2) as Hs2.
    eapply ends_mono; [apply IHe|]; lia.
Qed.

(** The bound of [json_loads] is always enough. *)
Theorem json_loads_total s : json_loads s ≠ None.
Proof.
  unfold json_loads. destruct (startswith BOM s); [done|].
  destruct (proj1 (scan_ends (json_fuel s)) (skip_space s)) as [Hn _].
  { pose proof (skip_space_length s). unfold json_fuel. lia. }
  by destruct (scan_value _ _) as [[[v r]|[msg r]]|].
Qed.

(** ** Reading what was written *)

(** Induction over the values in lists and dictionaries. *)
Section Induction.
Variable P : json → Prop.
Hypothesis P_null : P JNull.
Hypothesis P_bool : ∀ b, P (JBool b).
Hypothesis P_int : ∀ n, P (JInt n).
Hypothesis P_float : ∀ x, P (JFloat x).
Hypothesis P_str : ∀ s, P (JStr s).
Hypothesis P_list : ∀ l, Forall P l → P (JList l).
Hypothesis P_dict : ∀ d, Forall (λ kv, P kv.2) d → P (JDict d).

Fixpoint json_ind (v : json) : P v :=
  match v with
  | JNull => P_null
  | JBool b => P_bool b
  | JInt n => P_int n
  | JFloat x => P_float x
  | JStr s => P_str s
  | JList l =>
      P_list l ((fix go (l : list json) : Forall P l :=
        match l with [] => Forall_nil_2 _ | x :: l' => Forall_cons_2 _ _ _ (json_ind x) (go l') end) l)
  | JDict d =>
      P_dict d ((fix go (d : list (string * json)) : Forall (λ kv, P kv.2) d :=
        match d with [] => Forall_nil_2 _ | kv :: d' => Forall_cons_2 _ _ _ (json_ind kv.2) (go d') end) d)
  end.
End Induction.

Definition ascii_char (c : ascii) : bool := (ord c <? 128)%Z.

(** Values without floats, with texts in ASCII and every key once. *)
Fixpoint plain (v : json) : bool :=
  match v with
  | JFloat _ => false
  | JStr s => all_chars ascii_char s
  | JList l => forallb plain l
  | JDict d =>
      forallb (λ kv, all_chars ascii_char kv.1 && plain kv.2) d && bool_decide (NoDup d.*1)
  | _ => true
  end.

(** A text goes on with a character that ends any value. *)
Definition delimited (rest : string) : Prop :=
  stops (λ c, is_digit c || bool_decide (c ∈ ["."%char; "e"%char; "E"%char])) rest = true.

(** Characters. *)
Lemma scan_escaped begin c rest :
  ascii_char c = true → rest ≠ "" →
  scan_string begin (escape_char (ord c) +:+ rest) = put (str1 c) (scan_string begin rest).
Proof.
  intros Hc Hr. destruct rest as [|d rest]; [done|].
  destruct c as [[][][][][][][][]]; try discriminate Hc; reflexivity.
Qed.

Lemma code_points_cons c s :
  ascii_char c = true → code_points (String c s) = ord c :: code_points s.
Proof. unfold ascii_char. cbn [code_points]. by intros ->. Qed.

Lemma scan_dumped_string begin s rest :
  all_chars ascii_char s = true →
  scan_string begin (join "" (map escape_char (code_points s)) +:+ dq +:+ rest) = inl (s, rest).
Proof.
  induction s as [|c s IH]; intros Hs.
  - reflexivity.
  - apply andb_true_iff in Hs as [Hc Hs]. rewrite code_points_cons by done. cbn [map].
    rewrite join_empty_cons, <- str_app_assoc, scan_escaped; [by rewrite IH|done|].
    by destruct (join _ _).
Qed.

(** Numbers. *)
Definition all_digits : string → bool := all_chars is_digit.

Lemma digits_of_all s rest :
  all_digits s = true → stops is_digit rest = true → digits_of (s +:+ rest) = (s, rest).
Proof.
  intros Hs Hr. induction s as [|c s IH].
  - destruct rest as [|c rest]; [done|]. apply negb_true_iff in Hr.
    change ("" +:+ String c rest) with (String c rest). cbn [digits_of]. by rewrite Hr.
  - apply andb_true_iff in Hs as [Hc Hs].
    change (String c s +:+ rest) with (String c (s +:+ rest)). cbn [digits_of]. by rewrite Hc, IH.
Qed.

Lemma digit_char_is_digit n : (0 ≤ n < 10)%Z →
  is_digit (digit_char n) = true ∧ (digit_char n = "0"%char → n = 0%Z).
Proof.
  intros Hn.
  assert (n = 0 ∨ n = 1 ∨ n = 2 ∨ n = 3 ∨ n = 4 ∨ n = 5 ∨ n = 6 ∨ n = 7 ∨ n = 8 ∨ n = 9)%Z as H by lia.
  repeat destruct H as [->|H]; subst; by vm_compute.
Qed.

Lemma digits_go_all fuel n acc :
  (0 ≤ n)%Z → all_digits acc = true → all_digits (digits_go fuel n acc) = true.
Proof.
  revert n acc. induction fuel as [|fuel IH]; intros n acc Hn Ha; [done|]. cbn [digits_go].
  assert (all_digits (String (digit_char (n mod 10)) acc) = true) as Ha'.
  { apply andb_true_iff. split; [|exact Ha]. apply digit_char_is_digit, Z.mod_pos_bound. lia. }
  destruct (n <? 10)%Z; [done|]. apply IH; [apply Z.div_pos; lia|done].
Qed.

(** The first digit of a positive number is not zero. *)
Lemma digits_go_front fuel n acc : (0 < n < 10 * 2 ^ Z.of_nat fuel)%Z →
  ∃ c s, digits_go (S fuel) n acc = String c s ∧ c ≠ "0"%char ∧ is_digit c = true.
Proof.
  revert n acc. induction fuel as [|fuel IH]; intros n acc Hn.
  - cbn [digits_go]. cbn in Hn. rewrite (proj2 (Z.ltb_lt n 10)) by lia. rewrite Z.mod_small by lia.
    destruct (digit_char_is_digit n) as [Hd Hz]; [lia|]. eexists _, _. split; [done|].
    split; [|done]. intros H%Hz. lia.
  - remember (S fuel) as f eqn:Ef. cbn [digits_go]. destruct (n <? 10)%Z eqn:E.
    + rewrite Z.mod_small by lia. destruct (digit_char_is_digit n) as [Hd Hz]; [lia|].
      eexists _, _. split; [done|]. split; [|done]. intros H%Hz. lia.
    + subst f. apply Z.ltb_ge in E. apply IH. rewrite Nat2Z.inj_succ, Z.pow_succ_r in Hn by lia.
      split; [apply Z.div_str_pos; lia|]. apply Z.div_lt_upper_bound; lia.
Qed.

Lemma nonneg_digits n : (0 ≤ n)%Z →
  let s := digits_go (S (Z.to_nat (Z.log2 n))) n "" in
  all_digits s = true ∧ (s = "0" ∨ ∃ c t, s = String c t ∧ c ≠ "0"%char ∧ is_digit c = true).
Proof.
  intros Hn. cbv zeta. split; [by apply digits_go_all|].
  destruct (decide (n = 0)%Z) as [->|Hz]; [by left|]. right. apply digits_go_front.
  split; [lia|]. rewrite Z2Nat.id by apply Z.log2_nonneg.
  pose proof (proj2 (Z.log2_spec n ltac:(lia))) as Hl. rewrite Z.pow_succ_r in Hl by apply Z.log2_nonneg. lia.
Qed.

Lemma delimited_stops rest : delimited rest → stops is_digit rest = true.
Proof. unfold delimited. destruct rest as [|c rest]; [done|]. cbn [stops]. intros H. bool_hyps. by rewrite H. Qed.

Lemma digit_not_minus c : is_digit c = true → c ≠ "-"%char.
Proof. by intros H ->. Qed.

Lemma front_ne c d s : d ≠ c → front c (String d s) = None.
Proof. intros H. cbn. by rewrite decide_False. Qed.

Lemma integer_digits sign n rest : (0 ≤ n)%Z → delimited rest →
  match front "0" (digits_go (S (Z.to_nat (Z.log2 n))) n "" +:+ rest) with
  | Some u => Some (sign +:+ "0", u)
  | None =>
      match digits_of (digits_go (S (Z.to_nat (Z.log2 n))) n "" +:+ rest) with
      | ("", _) => None
      | (ds, r) => Some (sign +:+ ds, r)
      end
  end = Some (sign +:+ digits_go (S (Z.to_nat (Z.log2 n))) n "", rest).
Proof.
  intros Hn Hr. destruct (nonneg_digits n Hn) as [Hall [->|(c & t & Hs & Hc & Hd)]]; [done|].
  rewrite (digits_of_all _ _ Hall (delimited_stops _ Hr)). rewrite Hs.
  change (String c t +:+ rest) with (String c (t +:+ rest)). by rewrite front_ne.
Qed.

Lemma integer_of_str n rest : delimited rest → integer_of (str_of_Z n +:+ rest) = Some (str_of_Z n, rest).
Proof.
  intros Hr. unfold integer_of, str_of_Z. destruct (n <? 0)%Z eqn:E.
  - change (front "-" _) with (Some (digits_go (S (Z.to_nat (Z.log2 (- n)))) (- n) "" +:+ rest)).
    apply (integer_digits "-"); [lia|done].
  - apply Z.ltb_ge in E.
    assert (front "-" (digits_go (S (Z.to_nat (Z.log2 n))) n "" +:+ rest) = None) as ->.
    { destruct (nonneg_digits n E) as [_ [->|(c & t & -> & _ & Hd%digit_not_minus)]]; [done|].
      change (String c t +:+ rest) with (String c (t +:+ rest)). by apply front_ne. }
    by apply (integer_digits "").
Qed.

Lemma scan_dumped_number n rest :
  delimited rest → scan_number (str_of_Z n +:+ rest) = Some (inl (JInt n, rest)).
Proof.
  intros Hr. unfold scan_number. rewrite integer_of_str by done.
  assert (fraction_of rest = ("", rest)) as ->.
  { destruct rest as [|c rest]; [done|]. unfold fraction_of. rewrite front_ne; [done|].
    intros ->. by vm_compute in Hr. }
  assert (exponent_of rest = ("", rest)) as ->.
  { destruct rest as [|c rest]; [done|]. unfold exponent_of. rewrite bool_decide_false; [done|].
    intros Hc. unfold delimited, stops in Hr. rewrite (bool_decide_true (c ∈ _)) in Hr by (apply elem_of_cons; by right).
    by rewrite orb_true_r in Hr. }
  rewrite decide_True by done. by rewrite int_of_str_of_Z.
Qed.

Lemma scan_value_other k c t :
  c ≠ DQ → c ≠ "{"%char → c ≠ "["%char →
  scan_value (S k) (String c t) =
    match keyword_of (String c t) with Some vr => Some (inl vr) | None => scan_number (String c t) end.
Proof.
  intros. cbn [scan_value]. rewrite !decide_False by done. by destruct (keyword_of _) as [[? ?]|].
Qed.

Lemma keyword_of_word w v rest :
  (w, v) ∈ [("null", JNull); ("true", JBool true); ("false", JBool false)] →
  keyword_of (w +:+ rest) = Some (v, rest).
Proof.
  assert (∀ i, startswith w (w +:+ rest) = true →
    list_find (λ kv, startswith kv.1 (w +:+ rest) = true) keywords = Some (i, (w, v)) →
    keyword_of (w +:+ rest) = Some (v, rest)) as Hw.
  { intros i _ Hf. unfold keyword_of. rewrite Hf. cbn [fst snd]. by rewrite substring_after. }
  rewrite !elem_of_cons, elem_of_nil. intros [[= -> ->]|[[= -> ->]|[[= -> ->]|[]]]];
    (eapply Hw; [apply prefix_of_app|by destruct rest]).
Qed.

Lemma scan_word k w v rest :
  (w, v) ∈ [("null", JNull); ("true", JBool true); ("false", JBool false)] →
  scan_value (S k) (w +:+ rest) = Some (inl (v, rest)).
Proof.
  intros Hin. pose proof (keyword_of_word w v rest Hin) as Hk. revert Hk Hin.
  rewrite !elem_of_cons, elem_of_nil. intros Hk [[= -> ->]|[[= -> ->]|[[= -> ->]|[]]]];
    match goal with |- scan_value _ (String ?c ?w +:+ rest) = _ =>
      change (String c w +:+ rest) with (String c (w +:+ rest)) in * end;
    rewrite scan_value_other by done; by rewrite Hk.
Qed.

Lemma keyword_of_digit c t : is_digit c = true → keyword_of (String c t) = None.
Proof. intros Hc. by destruct c as [[][][][][][][][]]. Qed.

Lemma keyword_of_negative c t : is_digit c = true → keyword_of (String "-" (String c t)) = None.
Proof. intros Hc. by destruct c as [[][][][][][][][]]. Qed.

Lemma all_digits_front s c t : all_digits s = true → s = String c t → is_digit c = true.
Proof. intros Hs ->. by apply andb_true_iff in Hs as [? _]. Qed.

Lemma scan_value_number k n rest :
  delimited rest → scan_value (S k) (str_of_Z n +:+ rest) = Some (inl (JInt n, rest)).
Proof.
  intros Hr. rewrite <- (scan_dumped_number n rest Hr).
  assert (∀ m, (0 ≤ m)%Z → ∃ c t, digits_go (S (Z.to_nat (Z.log2 m))) m "" = String c t ∧ is_digit c = true) as Hfront.
  { intros m Hm. destruct (nonneg_digits m Hm) as [_ [->|(c & t & -> & _ & Hd)]]; eauto. }
  unfold str_of_Z. destruct (n <? 0)%Z eqn:E.
  - destruct (Hfront (- n)%Z) as (c & t & -> & Hd); [lia|].
    change (("-" +:+ String c t) +:+ rest) with (String "-" (String c (t +:+ rest))).
    rewrite scan_value_other by done. by rewrite keyword_of_negative.
  - apply Z.ltb_ge in E. destruct (Hfront n) as (c & t & -> & Hd); [done|].
    change (String c t +:+ rest) with (String c (t +:+ rest)).
    rewrite scan_value_other by (by intros ->). by rewrite keyword_of_digit.
Qed.

Section RoundTrip.
Variable float_repr : string → string.
#[local] Abbreviation dump := (dump float_repr None 0).

Lemma dump_level n v : Json.dump float_repr None n v = dump v.
Proof.
  assert (∀ n m, Json.dump float_repr None n v = Json.dump float_repr None m v) as H; [|apply H].
  induction v as [| | | | |l IH|d IH] using json_ind; intros n' m; try done; cbn [Json.dump]; unfold enclosed.
  - enough (map (Json.dump float_repr None (S n')) l = map (Json.dump float_repr None (S m)) l) as -> by done.
    apply Forall_fmap_ext_1. by eapply Forall_impl.
  - match goal with |- context [map ?f d] =>
      match goal with |- context [map ?g d] => enough (map f d = map g d) as -> by done end
    end.
    apply Forall_fmap_ext_1. eapply Forall_impl; [exact IH|]. intros kv Hkv. cbn. by rewrite (Hkv _ (S m)).
Qed.

(** What is read back. *)
Definition reads_back (v : json) : Prop :=
  ∀ k rest, plain v = true → delimited rest → (2 * String.length (dump v +:+ rest) < k)%nat →
    scan_value k (dump v +:+ rest) = Some (inl (v, rest)).

(** The front of a written value: no white space, and no end of a list. *)
Lemma dump_front v : plain v = true →
  ∃ c t, dump v = String c t ∧ is_json_space c = false ∧ c ≠ "]"%char ∧ ascii_char c = true.
Proof.
  intros Hv.
  destruct v as [|[]|n| |s|l|d]; try done; cbn [Json.dump];
    try (eexists _, _; split; [reflexivity|by vm_compute]).
  - unfold str_of_Z. destruct (n <? 0)%Z eqn:E; [eexists _, _; split; [reflexivity|by vm_compute]|].
    apply Z.ltb_ge in E. destruct (nonneg_digits n E) as [_ [->|(c & t & -> & _ & Hd)]].
    + eexists _, _. split; [reflexivity|by vm_compute].
    + exists c, t. split; [done|]. by destruct c as [[][][][][][][][]].
  - unfold enclosed. destruct (map _ l); eexists _, _; (split; [reflexivity|by vm_compute]).
  - unfold enclosed. destruct (map _ d); eexists _, _; (split; [reflexivity|by vm_compute]).
Qed.

Lemma skip_space_front c t : is_json_space c = false → skip_space (String c t) = String c t.
Proof. intros H. unfold skip_space. cbn [lstrip_by]. by rewrite H. Qed.

Lemma skip_space_dump v rest : plain v = true → skip_space (dump v +:+ rest) = dump v +:+ rest.
Proof. intros (c & t & -> & Hc & _)%dump_front. by apply (skip_space_front c (t +:+ rest)). Qed.

Lemma length_cons_str c s : String.length (String c s) = S (String.length s).
Proof. done. Qed.

(** Linear arithmetic over the lengths of texts. *)
Ltac str_lia := repeat first [rewrite length_cons_str in * | rewrite length_app_str in *]; lia.

Lemma front_self c s : front c (String c s) = Some s.
Proof. cbn. by rewrite decide_True. Qed.

Lemma skip_one_space s : skip_space (String " " s) = skip_space s.
Proof. done. Qed.

Lemma scan_list l k acc rest :
  l ≠ [] → Forall reads_back l → forallb plain l = true →
  (2 * String.length (join ", " (map dump l) +:+ String "]" rest) + 1 < k)%nat →
  scan_elements k acc (join ", " (map dump l) +:+ String "]" rest) = Some (inl (JList (acc ++ l), rest)).
Proof.
  revert k acc. induction l as [|v l IH]; intros k acc Hne Hl Hp Hk; [done|]. clear Hne.
  apply Forall_cons in Hl as [Hv Hl]. cbn [forallb] in Hp. apply andb_true_iff in Hp as [Hpv Hp].
  destruct k as [|k]; [lia|]. cbn [scan_elements]. destruct l as [|v2 l].
  - cbn [map join] in *. rewrite (Hv k) by (done || lia). cbn [scan_bind].
    rewrite skip_space_front, front_self by done. done.
  - change (join ", " (map dump (v :: v2 :: l))) with (dump v +:+ ", " +:+ join ", " (map dump (v2 :: l))) in *.
    rewrite <- !str_app_assoc in *.
    change (", " +:+ ?x) with (String "," (String " " x)) in *.
    rewrite (Hv k) by (done || lia). cbn [scan_bind].
    rewrite skip_space_front, front_ne, front_self by done. rewrite skip_one_space.
    assert (skip_space (join ", " (map dump (v2 :: l)) +:+ String "]" rest) =
            join ", " (map dump (v2 :: l)) +:+ String "]" rest) as ->.
    { cbn [map]. destruct l; cbn [map join]; [|rewrite <- str_app_assoc]; apply skip_space_dump;
        cbn [forallb] in Hp; by apply andb_true_iff in Hp as [? _]. }
    rewrite IH; [by rewrite <- app_assoc|done..|].
    str_lia.
Qed.

Definition dump_member (kv : string * json) : string := dump_string kv.1 +:+ ": " +:+ dump kv.2.

Lemma scan_member k key v rest acc :
  all_chars ascii_char key = true → plain v = true → reads_back v → delimited rest →
  (2 * String.length (dump_member (key, v) +:+ rest) < S k)%nat →
  scan_members (S k) acc (dump_member (key, v) +:+ rest) =
    let d' := dict_insert key v acc in
    let r4 := skip_space rest in
    match front "}" r4 with
    | Some r5 => Some (inl (JDict d', r5))
    | None =>
        match front "," r4 with
        | Some r5 => scan_members k d' (skip_space r5)
        | None => unexpected "Expecting ',' delimiter" r4
        end
    end.
Proof.
  intros Hkey Hpv Hv Hr Hk. unfold dump_member, dump_string in *. cbn [fst snd] in *.
  rewrite <- !str_app_assoc in *. change (dq +:+ ?x) with (String DQ x) in Hk |- *.
  change (": " +:+ ?x) with (String ":" (String " " x)) in Hk |- *.
  cbn [scan_members]. rewrite front_self.
  change (String DQ (String ":" ?x)) with (dq +:+ String ":" x). rewrite scan_dumped_string by done.
  rewrite skip_space_front, front_self by done. rewrite skip_one_space, skip_space_dump by done.
  rewrite (Hv k); [done|done|done|].
  str_lia.
Qed.

Lemma scan_dict d k acc rest :
  d ≠ [] → Forall (λ kv, reads_back kv.2) d →
  forallb (λ kv, all_chars ascii_char kv.1 && plain kv.2) d = true → NoDup ((acc ++ d)%list).*1 →
  (2 * String.length (join ", " (map dump_member d) +:+ String "}" rest) < k)%nat →
  scan_members k acc (join ", " (map dump_member d) +:+ String "}" rest) =
    Some (inl (JDict (acc ++ d), rest)).
Proof.
  revert k acc. induction d as [|[key v] d IH]; intros k acc Hne Hd Hp Hn Hk; [done|]. clear Hne.
  apply Forall_cons in Hd as [Hv Hd]. cbn [forallb fst snd] in Hp.
  apply andb_true_iff in Hp as [[Hkey Hpv]%andb_true_iff Hp].
  assert (dict_insert key v acc = (acc ++ [(key, v)])%list) as Hins.
  { apply dict_insert_fresh. intros Hin. rewrite fmap_app, NoDup_app in Hn.
    destruct Hn as (_ & Hn & _). apply (Hn key Hin). by left. }
  destruct k as [|k]; [lia|]. destruct d as [|kv d].
  - cbn [map join] in *. rewrite scan_member by done. cbv zeta.
    rewrite skip_space_front, front_self by done. by rewrite Hins.
  - change (join ", " (map dump_member ((key, v) :: kv :: d))) with
      (dump_member (key, v) +:+ ", " +:+ join ", " (map dump_member (kv :: d))) in *.
    rewrite <- !str_app_assoc in *. change (", " +:+ ?x) with (String "," (String " " x)) in *.
    rewrite scan_member by done. cbv zeta.
    rewrite skip_space_front, front_ne, front_self by done. rewrite skip_one_space, Hins.
    assert (skip_space (join ", " (map dump_member (kv :: d)) +:+ String "}" rest) =
            join ", " (map dump_member (kv :: d)) +:+ String "}" rest) as -> by (by destruct d).
    rewrite IH; [by rewrite <- app_assoc|done|done|done|by rewrite <- app_assoc|].
    str_lia.
Qed.

Lemma reads_back_all v : reads_back v.
Proof.
  induction v as [|[]|n| |s|l IH|d IH] using json_ind; intros [|k] rest Hp Hr Hk; try (done || lia);
    cbn [Json.dump] in *; try (apply scan_word; rewrite !elem_of_cons; tauto).
  - by apply scan_value_number.
  - unfold dump_string in *. rewrite <- !str_app_assoc. change (dq +:+ ?x) with (String DQ x) at 1.
    cbn [scan_value]. rewrite decide_True by done.
    change (String DQ rest) with (dq +:+ rest). by rewrite scan_dumped_string.
  - unfold enclosed in *. destruct l as [|v l]; [done|].
    assert (∀ l, map (Json.dump float_repr None 1) l = map dump l) as Hm.
    { intros l'. apply map_ext. intros x. apply dump_level. }
    rewrite Hm in *. cbn [map] in Hk |- *. change (?a :: map dump l) with (map dump (v :: l)) in *.
    cbn [line_at] in *. change ("" +:+ ?x) with x in *. rewrite <- !str_app_assoc in *.
    change ("" +:+ ?x) with x in *. change ("]" +:+ ?x) with (String "]" x) in *. change ("[" +:+ ?x) with (String "[" x) in *.
    cbn [scan_value]. rewrite decide_False, decide_False, decide_True by done. cbv zeta.
    cbn [plain] in Hp. destruct (dump_front v) as (c & t & Ht & Hc & Hne & _).
    { cbn [forallb] in Hp. by apply andb_true_iff in Hp as [? _]. }
    assert (∃ t', join ", " (map dump (v :: l)) +:+ String "]" rest = String c t') as [t' Ht'].
    { cbn [map]. rewrite Ht. destruct l; eexists; reflexivity. }
    rewrite Ht', skip_space_front, front_ne, <- Ht' by done.
    rewrite (scan_list (v :: l)); try done. str_lia.
  - unfold enclosed in *. destruct d as [|kv d]; [done|].
    assert (∀ d, map (λ kv, dump_string kv.1 +:+ ": " +:+ Json.dump float_repr None 1 kv.2) d = map dump_member d) as Hm.
    { intros d'. apply map_ext. intros x. by rewrite dump_level. }
    rewrite Hm in *. cbn [map] in Hk |- *. change (?a :: map dump_member d) with (map dump_member (kv :: d)) in *.
    cbn [line_at] in *. change ("" +:+ ?x) with x in *. rewrite <- !str_app_assoc in *.
    change ("" +:+ ?x) with x in *. change ("}" +:+ ?x) with (String "}" x) in *. change ("{" +:+ ?x) with (String "{" x) in *.
    cbn [scan_value]. rewrite decide_False, decide_True by done. cbv zeta.
    cbn [plain] in Hp. apply andb_true_iff in Hp as [Hp Hn%bool_decide_eq_true].
    assert (∃ t', join ", " (map dump_member (kv :: d)) +:+ String "}" rest = String DQ t') as [t' Ht'].
    { destruct d; eexists; reflexivity. }
    rewrite Ht', skip_space_front, front_ne, <- Ht' by done.
    rewrite (scan_dict (kv :: d)); try done. str_lia.
Qed.

(** A value without floats, with ASCII texts and every key once, is what is read back from
    its text. *)
Theorem json_roundtrip v : plain v = true → json_loads (json_dumps float_repr v) = Some (inl v).
Proof.
  intros Hp. unfold json_loads, json_dumps. destruct (dump_front v Hp) as (c & t & Hd & _ & _ & Hc).
  assert (startswith BOM (dump v) = false) as ->.
  { rewrite Hd. by destruct c as [[][][][][][][][]]. }
  rewrite <- (str_app_nil (dump v)), skip_space_dump by done.
  rewrite (reads_back_all v); [done|done|done|]. unfold json_fuel. lia.
Qed.
End RoundTrip.

Definition vm_listing : json :=
  JDict [("value", JList [JDict [("vm", JStr "vm-42"); ("name", JStr ("tab" +:+ tab +:+ "and" +:+ dq +:+ "quote"));
    ("power_state", JStr "POWERED_ON"); ("cpu_count", JInt (-4)); ("tags", JList []); ("template", JBool false)];
    JNull])].

Lemma json_roundtrip_witness :
  json_loads (json_dumps (λ x, x) vm_listing) = Some (inl vm_listing).
Proof. apply (json_roundtrip (λ x, x)). vm_compute. reflexivity. Defined.
