(* ===== verification/Http.v ===== *)
(** * HTTP requests of the agents: pycurl

    The agents that talk to a web service set options on a handle of pycurl and perform the
    transfer. The library is not part of the repository: class [Pycurl] says what a
    transfer gives for the options set so far, in the order they were set. *)

From S2P Require Import Prelude PyStr OptionDefs Effects Fail Host Input Process Login Metadata Action Json Globals.

Local Open Scope string_scope.

(** ** The library *)

(** [pycurl.error], or the status, the decoded body or the message of its
    [UnicodeDecodeError], and the list of cookies. *)
Inductive transfer :=
| CurlFailed (message : string)
| CurlDone (code : Z) (body : string + string) (cookies : list string).

(** What was set, first to last: names of pycurl and values. *)
Definition curl_settings : Type := list (string * pyval).

Class Pycurl (D : Type) := {
  curl_perform : curl_settings → D → transfer * D;
  (** What Python prints for the literal of a float. *)
  float_repr : string → string
}.

(** A handle, with the attribute that agents keep at it. *)
Record curl := Curl { base_url : string; c_settings : curl_settings }.

Definition no_curl : curl := Curl "" [].

#[export] Instance lift_pycurl {G D} `{Pycurl D} : Pycurl (G * D) := {|
  curl_perform o := lift_op (curl_perform o);
  float_repr := float_repr (D := D)
|}.

(** ** Python around it *)

(** [except Exception as e] *)
Definition except_Exception {D A} (m : M D A) (h : exn → M D A) : M D A :=
  try_except m (λ e, if is_Exception e then Some (h e) else None).

(** A name that no statement has assigned. *)
Definition unassigned {D A} (name : string) : M D A :=
  raise (OtherError ("local variable '" +:+ name +:+ "' referenced before assignment")).

(** [fail(code)] where a value is expected *)
Definition fails {D A} (code : Z) : M D A := fail code true ;; unassigned "result".

(** What [atexit.register] leaves to do, however the program ends; the exit status stays. *)
Definition finally {D A} (m : M D A) (h : M D unit) : M D A := λ s,
  match m s with
  | (OutOfFuel, s') => (OutOfFuel, s')
  | (o, s') =>
      match h s' with
      | (OutOfFuel, s2) => (OutOfFuel, s2)
      | (_, s2) => (o, s2)
      end
  end.

(** The first character that is not ASCII and how many follow it. *)
Fixpoint not_ascii (i : nat) (l : list Z) : option (nat * Z * nat) :=
  match l with
  | [] => None
  | n :: l' =>
      if (n <? 128)%Z then not_ascii (S i) l'
      else
        Some (i, n,
          (fix run (l : list Z) : nat :=
             match l with n :: l' => if (n <? 128)%Z then 0 else S (run l') | [] => 0 end) l')
  end.

Definition char_escape (n : Z) : string :=
  if (n <? 256)%Z then String BS ("x" +:+ hex_digits 2 n "")
  else if (n <? 65536)%Z then u_escape n
  else String BS ("U" +:+ hex_digits 8 n "").

(** [s.encode("ascii")]: a [UnicodeEncodeError] is a ValueError. *)
Definition encode_ascii {D} (s : string) : M D string :=
  match not_ascii 0 (code_points s) with
  | None => mret s
  | Some (i, n, more) =>
      let position := str_of_Z (Z.of_nat i) in
      raise (ValueError ("'ascii' codec can't encode character" +:+
        (if decide (more = 0)%nat
         then " '" +:+ char_escape n +:+ "' in position " +:+ position
         else "s in position " +:+ position +:+ "-" +:+ str_of_Z (Z.of_nat (i + more))) +:+
        ": ordinal not in range(128)"))
  end.

(** [logging.getLogger().getEffectiveLevel() < logging.WARNING] *)
Definition verbose_level {D} : M D bool :=
  s ← get_st;
  mret (existsb (λ e, match e with EvLogging w => bool_decide (w = "level DEBUG") | _ => false end)
          (s_trace s)).

(** [str(v)] and [repr(v)] of a value; [format] is [str]. *)
Definition show_json {D} `{Pycurl D} (v : json) : string := json_str float_repr v.

(** [conn.perform()] on a handle with these curl_settings. *)
Definition perform {D} `{Pycurl D} (o : curl_settings) : M D (Z * (string + string) * list string) := λ s,
  match curl_perform o (s_dev s) with
  | (CurlFailed msg, d) => (Raise (PycurlError msg), set_dev d s)
  | (CurlDone code body cookies, d) => (Ret (code, body, cookies), set_dev d s)
  end.

(** [buffer.getvalue().decode()] *)
Definition decoded {D} (body : string + string) : M D string :=
  match body with inl x => mret x | inr msg => raise (ValueError msg) end.

(** [json.loads(result)] of a text that is not empty, or the empty text. *)
Definition loads_if_any {D} (result : string) : M D json :=
  if decide (result = "") then mret (JStr "") else loads result.

(** ** A handle that is kept *)

Section Handle.
Context {D : Type} `{Pycurl D}.

Definition setopt (name : string) (v : pyval) : M (curl * D) unit :=
  c ← globals; set_globals (Curl (base_url c) (c_settings c ++ [(name, v)])%list).

Definition set_base_url (url : string) : M (curl * D) unit :=
  c ← globals; set_globals (Curl url (c_settings c)).

Definition get_base_url : M (curl * D) string := c ← globals; mret (base_url c).

Definition perform_handle : M (curl * D) (Z * (string + string)) :=
  c ← globals; r ← perform (c_settings c); mret r.1.
End Handle.

(** "https:" with either option of TLS, else "http:" *)
Definition url_scheme {D} : M D string :=
  secure ← opt_has "--ssl-secure";
  insecure ← opt_has "--ssl-insecure";
  mret (if (secure : bool) || insecure then "https:" else "http:").

(** The curl_settings for the certificate of the service. *)
Definition ssl_settings {D} : M D curl_settings :=
  secure ← opt_has "--ssl-secure";
  insecure ← opt_has "--ssl-insecure";
  mret (if (secure : bool) then [("SSL_VERIFYPEER", VInt 1); ("SSL_VERIFYHOST", VInt 2)]
        else if (insecure : bool) then [("SSL_VERIFYPEER", VInt 0); ("SSL_VERIFYHOST", VInt 0)]
        else []).

Definition setopts {D} (o : curl_settings) : M (curl * D) unit := mfor o (λ kv, setopt kv.1 kv.2).
