(* ===== verification/WebAgents.v ===== *)
(** * Agents for web services that keep a connection: fence_shelly_gen2, fence_vmware_rest
    and fence_hetzner_cloud

    [agents/shelly/fence_shelly_gen2.py], [agents/vmware_rest/fence_vmware_rest.py] and
    [agents/hetzner_cloud/fence_hetzner_cloud.py]: JSON over HTTP with one handle of pycurl
    for the whole run, which is part of the state. *)

From S2P Require Import Prelude PyStr OptionDefs Effects Fail Host Input Process CheckInput.
From S2P Require Import Login Metadata Action Ipmilan Console MenuAgents SnmpAgents Json Globals Http.

Local Open Scope string_scope.

(** [conn.close()] *)
Definition close_handle {D} : M (curl * D) unit := set_globals no_curl.

(** ** fence_shelly_gen2 *)

Section Shelly.
Context {D : Type} `{Pycurl D}.

Definition shelly_send_command (payload : json) : M (curl * D) json :=
  url ← get_base_url;
  ascii_url ← encode_ascii url;
  setopt "URL" (VStr ascii_url) ;;
  setopt "POSTFIELDS" (VStr (json_dumps float_repr payload)) ;;
  '(rc, body) ← perform_handle;
  result ← decoded body;
  if decide (rc = 200)%Z then
    result ← loads_if_any result;
    log DEBUG ("url: " +:+ url) ;;
    log DEBUG ("POST method payload: " +:+ show_json payload) ;;
    log DEBUG ("response code: " +:+ str_of_Z rc) ;;
    log DEBUG ("result: " +:+ show_json result +:+ nl) ;;
    mret result
  else if decide (result = "") then
    raise (OtherError ("Remote returned " +:+ str_of_Z rc +:+ " for request to " +:+ url))
  else raise (OtherError ("Remote returned " +:+ str_of_Z rc +:+ ": " +:+ result)).

Definition gen_payload (method : string) (output : option bool) : M (curl * D) json :=
  plug ← opt_str "--plug";
  mret (JDict [("id", JInt 1); ("method", JStr method);
               ("params", JDict (("id", JStr plug) ::
                  match output with Some b => [("on", JBool b)] | None => [] end))]).

(** The parameters as documented, or the result as observed. *)
Definition status_key (result : json) : M (curl * D) string :=
  documented ← json_in "params" result;
  if (documented : bool) then mret "params"
  else
    observed ← json_in "result" result;
    if (observed : bool) then mret "result" else unassigned "subkey".

Definition shelly_get_power_status : M (curl * D) pyval :=
  result ← except_Exception
    (payload ← gen_payload "Switch.GetStatus" None; shelly_send_command payload)
    (λ _, fails EC_STATUS);
  subkey ← status_key result;
  status ← json_item result subkey;
  output ← json_item status "output";
  dict_of_bool (VStr "on") (VStr "off") output.

Definition shelly_set_power_status : M (curl * D) unit :=
  action ← opt_str "--action";
  output ← (if decide (action = "on") then mret true
            else if decide (action = "off") then mret false
            else raise (KeyError action));
  except_Exception
    (payload ← gen_payload "Switch.Set" (Some output); shelly_send_command payload ;; mret tt)
    (λ _, fail EC_STATUS true).

Definition shelly_connect : M (curl * D) unit :=
  set_globals no_curl ;;
  scheme ← url_scheme;
  ip ← opt_str "--ip";
  ipport ← opt_show "--ipport";
  set_base_url (scheme +:+ "//" +:+ ip +:+ ":" +:+ ipport +:+ "/rpc") ;;
  setopt "HTTPHEADER" (VList ["Accept: application/json"]) ;;
  has_password ← opt_has "--password";
  mwhen has_password
    (setopt "HTTPAUTH" (VStr "HTTPAUTH_ANY") ;;
     password ← opt_str "--password";
     setopt "USERPWD" (VStr ("admin:" +:+ password))) ;;
  t ← opt_int "--shell-timeout";
  setopt "TIMEOUT" (VInt t) ;;
  ssl ← ssl_settings;
  setopts ssl ;;
  except_Exception
    (shelly_send_command (JDict [("id", JInt 1); ("method", JStr "Shelly.GetDeviceInfo")]) ;; mret tt)
    (λ e, log DEBUG ("Failed: " +:+ exn_str e) ;; fail EC_LOGIN_DENIED true) ;;
  except_Exception
    (payload ← gen_payload "Switch.GetStatus" None; shelly_send_command payload ;; mret tt)
    (λ e, log DEBUG ("Invalid Authentication: " +:+ exn_str e)).
End Shelly.

(** ** fence_vmware_rest *)

(** [urllib.quote(s)]: letters, digits and [_.-~/] stay. *)
Definition url_safe (c : ascii) : bool :=
  is_lower c || is_upper c || is_digit c ||
  bool_decide (c ∈ ["_"%char; "."%char; "-"%char; "~"%char]).

Definition percent_byte (c : ascii) : string := String "%" (upper (hex_digits 2 (ord c) "")).

Definition url_quote_by (safe : ascii → bool) (space : string) (s : string) : string :=
  join "" (map (λ c, if safe c then str1 c
                     else if decide (c = " "%char) then space else percent_byte c)
             (String.list_ascii_of_string s)).

Definition url_quote : string → string :=
  url_quote_by (λ c, url_safe c || bool_decide (c = "/"%char)) "%20".

(** [urllib.urlencode]: a space becomes a plus sign. *)
Definition quote_plus : string → string := url_quote_by url_safe "+".
Definition urlencode (l : list (string * string)) : string :=
  join "&" (map (λ kv, quote_plus kv.1 +:+ "=" +:+ quote_plus kv.2) l).

Section VmwareRest.
Context {D : Type} `{Pycurl D}.

Definition vmware_states : list (string * string) :=
  [("POWERED_ON", "on"); ("POWERED_OFF", "off"); ("SUSPENDED", "off")].

(** An answer that is not 200 must hold a message in JSON. *)
Definition rest_send_command (command method : string) : M (curl * D) json :=
  base ← get_base_url;
  let url := base +:+ command in
  ascii_url ← encode_ascii url;
  setopt "URL" (VStr ascii_url) ;;
  mwhen (bool_decide (method = "GET")) (setopt "POST" (VInt 0)) ;;
  mwhen (bool_decide (method = "POST")) (setopt "POSTFIELDS" (VStr "")) ;;
  mwhen (bool_decide (method = "DELETE")) (setopt "CUSTOMREQUEST" (VStr "DELETE")) ;;
  '(rc, body) ← perform_handle;
  text ← decoded body;
  result ← loads_if_any text;
  if decide (rc = 200)%Z then
    log DEBUG ("url: " +:+ url) ;;
    log DEBUG ("method: " +:+ method) ;;
    log DEBUG ("response code: " +:+ str_of_Z rc) ;;
    log DEBUG ("result: " +:+ show_json result +:+ nl) ;;
    mret result
  else
    has_result ← json_length result;
    if decide (has_result = 0)%nat then
      raise (OtherError ("Remote returned " +:+ str_of_Z rc +:+ " for request to " +:+ url))
    else
      value ← json_item result "value";
      messages ← json_item value "messages";
      first ← json_nth messages 0;
      message ← json_item first "default_message";
      raise (OtherError (str_of_Z rc +:+ ": " +:+ show_json message)).

Definition rest_get_power_status : M (curl * D) pyval :=
  res ← except_Exception
    (plug ← opt_str "--plug";
     r ← rest_send_command ("vcenter/vm?filter.names=" +:+ url_quote plug) "GET";
     json_item r "value")
    (λ e, log DEBUG ("Failed: " +:+ exn_str e) ;; fails EC_STATUS);
  n ← json_length res;
  mwhen (bool_decide (n = 0)%nat) (fail EC_STATUS true) ;;
  first ← json_nth res 0;
  vm ← json_item first "vm";
  opt_set "id" (VStr (show_json vm)) ;;
  first ← json_nth res 0;
  result ← json_item first "power_state";
  state ← dict_of_text vmware_states result;
  mret (VStr state).

Definition rest_set_power_status : M (curl * D) unit :=
  action ← opt_str "--action";
  command ← dict_item [("on", "start"); ("off", "stop")] action;
  except_Exception
    (id ← opt_show "id";
     rest_send_command ("vcenter/vm/" +:+ id +:+ "/power/" +:+ command) "POST" ;; mret tt)
    (λ e, log DEBUG ("Failed: " +:+ exn_str e) ;; fail EC_STATUS true).

(** One machine of a listing, by name. *)
Definition rest_outlet (os : outlets) (r : json) : M (curl * D) outlets :=
  name ← json_item r "name";
  state ← json_item r "power_state";
  state ← dict_of_text vmware_states state;
  key ← json_key name;
  mret (dict_insert key ("", Some state) os).

Definition rest_monitored : M (curl * D) bool :=
  original ← opt_find "--original-action"; mret (bool_decide (original = Some (VStr "monitor"))).

(** More than 1000 machines are an error of the service, which a monitor accepts. *)
Definition rest_get_list : M (curl * D) outlets :=
  res ← except_Exception
    (filter ← opt_find "--filter";
     command ← (match filter with
                | Some v => x ← concat_str v; mret ("vcenter/vm?" +:+ x)
                | None => mret "vcenter/vm"
                end);
     r ← rest_send_command command "GET"; mret (Some r))
    (λ e, log DEBUG ("Failed: " +:+ exn_str e) ;;
          if startswith "400" (exn_str e) then
            monitored ← rest_monitored;
            if (monitored : bool) then mret None
            else
              log ERROR ("More than 1000 VMs returned. Use --filter parameter to limit which VMs to list.") ;;
              fails EC_STATUS
          else fails EC_STATUS);
  match res with
  | None => mret []
  | Some res =>
      monitored ← rest_monitored;
      mwhen monitored
        (value ← json_item res "value";
         mwhen (negb (json_truthy value))
           (log ERROR ("API user does not have sufficient rights to manage the power status.") ;;
            fail EC_STATUS true)) ;;
      value ← json_item res "value";
      vms ← json_iter value;
      mfold rest_outlet [] vms
  end.

Definition rest_connect : M (curl * D) unit :=
  set_globals no_curl ;;
  scheme ← url_scheme;
  api_path ← opt_find "--api-path";
  api_path ← (match api_path with Some v => as_str v | None => mret "/rest" end);
  ip ← opt_str "--ip";
  ipport ← opt_show "--ipport";
  set_base_url (scheme +:+ "//" +:+ ip +:+ ":" +:+ ipport +:+ api_path +:+ "/") ;;
  setopt "HTTPHEADER" (VList ["Accept: application/json"]) ;;
  setopt "HTTPAUTH" (VStr "HTTPAUTH_BASIC") ;;
  username ← opt_str "--username";
  password ← opt_str "--password";
  setopt "USERPWD" (VStr (username +:+ ":" +:+ password)) ;;
  t ← opt_int "--shell-timeout";
  setopt "TIMEOUT" (VInt t) ;;
  ssl ← ssl_settings;
  setopts ssl ;;
  result ← except_Exception (rest_send_command "com/vmware/cis/session" "POST")
    (λ e, log DEBUG ("Failed: " +:+ exn_str e) ;; fails EC_LOGIN_DENIED);
  value ← json_item result "value";
  setopt "HTTPHEADER" (VList ["Accept: application/json"; "vmware-api-session-id: " +:+ show_json value]).

Definition rest_disconnect : M (curl * D) unit :=
  except_Exception (rest_send_command "com/vmware/cis/session" "DELETE" ;; mret tt)
    (λ e, log DEBUG ("Failed: " +:+ exn_str e)) ;;
  close_handle.
End VmwareRest.

(** ** fence_hetzner_cloud *)

Section Hetzner.
Context {D : Type} `{Pycurl D}.

(** [str(options)], in the order of the map and not of the assignments. *)
Definition pyval_repr (v : pyval) : string :=
  match v with VStr x => py_repr x | _ => py_str v end.
Definition options_repr {W} : M W string :=
  s ← get_st;
  mret ("{" +:+ join ", " (map (λ kv, py_repr kv.1 +:+ ": " +:+ pyval_repr kv.2) (map_to_list (s_opts s)))
        +:+ "}").

Definition hetzner_send_request (path method : string) (query : list (string * string))
    : M (curl * D) json :=
  base ← get_base_url;
  let url := base +:+ path +:+ "?" +:+ urlencode query in
  log DEBUG ("REQUEST " +:+ method +:+ " " +:+ url) ;;
  ascii_url ← encode_ascii url;
  setopt "URL" (VStr ascii_url) ;;
  (if decide (method = "GET") then setopt "POST" (VInt 0)
   else mwhen (bool_decide (method = "POST")) (setopt "POSTFIELDS" (VStr ""))) ;;
  '(result_status, body) ← perform_handle;
  text ← decoded body;
  result_body ← loads_if_any text;
  let told := "RESULT " +:+ str_of_Z result_status +:+ " " +:+ show_json result_body in
  if ((200 <=? result_status) && (result_status <? 300))%Z
  then log DEBUG told ;; mret result_body
  else raise (OtherError told).

(** The pages of an answer, from page [page] on, [left] of them at most. The dictionary of
    the query is shared by the calls that give none; all they find in it is the page, which
    is set before each request. *)
Fixpoint hetzner_pages (fuel : nat) (path method : string) (query : list (string * string))
    (page : json) (left : option nat) : M (curl * D) (list json) :=
  match fuel with
  | O => out_of_fuel
  | S k =>
      if negb (json_truthy page) || bool_decide (left = Some O) then mret []
      else
        result ← hetzner_send_request path method (dict_insert "page" (show_json page) query);
        if decide (method = "GET") then
          meta ← json_item result "meta";
          pagination ← json_item meta "pagination";
          next ← json_item pagination "next_page";
          results ← hetzner_pages k path method query next (pred <$> left);
          mret (result :: results)
        else mret [result]
  end.

Definition hetzner_send_command (fuel : nat) (path method : string) (query : list (string * string))
    (pages_max : option nat) : M (curl * D) (list json) :=
  hetzner_pages fuel path method query (JInt 1) pages_max.

Variable fuel : nat.

Definition hetzner_ip (net : json) : M (curl * D) json := json_item net "ip".

Definition hetzner_ips (server : json) : M (curl * D) (list json) :=
  public ← json_item server "public_net";
  ipv4 ← json_item public "ipv4"; ip4 ← hetzner_ip ipv4;
  public ← json_item server "public_net";
  ipv6 ← json_item public "ipv6"; ip6 ← hetzner_ip ipv6;
  private ← json_item server "private_net";
  nets ← json_iter private;
  ips ← mfold (λ ips net, ip ← hetzner_ip net; mret (ips ++ [ip])%list) [] nets;
  mret (ip4 :: ip6 :: ips).

Definition text_is (x : string) (v : json) : bool :=
  match v with JStr y => bool_decide (y = x) | _ => false end.

(** The first server of a page with the plug among its addresses. *)
Fixpoint server_by_ip (servers : list json) : M (curl * D) (option json) :=
  match servers with
  | [] => mret None
  | server :: servers' =>
      ips ← hetzner_ips server;
      plug ← opt_str "--plug";
      if existsb (text_is plug) ips then mret (Some server) else server_by_ip servers'
  end.

(** A plug that is no name is looked for by address; the program fails after the first
    page without it. *)
Definition get_server : M (curl * D) json :=
  results ← except_Exception
    (plug ← opt_str "--plug";
     hetzner_send_command fuel "/servers" "GET" [("name", plug)] (Some 1%nat))
    (λ e, log ERROR (exn_str e) ;; fails EC_STATUS);
  match results with
  | [result] =>
      servers ← json_item result "servers";
      n ← json_length servers;
      if decide (n = 1)%nat then json_nth servers 0
      else
        log WARNING ("SCANNING over all servers! For better performance, set Hetzner Cloud server name to Fencing Agent plug (i.e. Pacemaker node name).") ;;
        results ← except_Exception (hetzner_send_command fuel "/servers" "GET" [] None)
          (λ e, log ERROR (exn_str e) ;; fails EC_STATUS);
        match results with
        | [] => mret JNull
        | result :: _ =>
            has_servers ← json_in "servers" result;
            mwhen (negb has_servers) (fail EC_STATUS true) ;;
            servers ← json_item result "servers";
            servers ← json_iter servers;
            server ← server_by_ip servers;
            match server with Some server => mret server | None => fails EC_STATUS end
        end
  | _ => fails EC_STATUS
  end.

(** [FENCE_STATUS_MAP[server["status"] not in HETZNER_STATUSES_OFF]], which is logged. *)
Definition server_status (server : json) : M (curl * D) string :=
  state ← json_item server "status";
  let status := if text_is "off" state then "off" else "on" in
  id ← json_item server "id";
  log DEBUG (show_json id +:+ " " +:+ show_json state +:+ " -> " +:+ status) ;;
  mret status.

Definition hetzner_get_power_status : M (curl * D) pyval :=
  server ← get_server; status ← server_status server; mret (VStr status).

Definition hetzner_set_power_status : M (curl * D) unit :=
  server ← get_server;
  log DEBUG (show_json server) ;;
  options ← options_repr;
  log DEBUG options ;;
  id ← json_item server "id";
  action ← opt_str "--action";
  command ← dict_item [("on", "poweron"); ("off", "poweroff")] action;
  except_Exception
    (hetzner_send_command fuel ("/servers/" +:+ show_json id +:+ "/actions/" +:+ command) "POST" [] None ;; mret tt)
    (λ e, log ERROR (exn_str e) ;; fail EC_STATUS true).

Definition hetzner_outlet (os : outlets) (server : json) : M (curl * D) outlets :=
  status ← server_status server;
  name ← json_item server "name";
  key ← json_key name;
  mret (dict_insert key ("", Some status) os).

Definition hetzner_get_list : M (curl * D) outlets :=
  results ← except_Exception (hetzner_send_command fuel "/servers" "GET" [] None)
    (λ e, log ERROR (exn_str e) ;; fails EC_STATUS);
  mfold (λ os result,
    has_servers ← json_in "servers" result;
    mwhen (negb has_servers) (fail EC_STATUS true) ;;
    servers ← json_item result "servers";
    servers ← json_iter servers;
    mfold hetzner_outlet os servers) [] results.

Definition hetzner_connect : M (curl * D) unit :=
  set_globals no_curl ;;
  url ← opt_str "--api-url";
  set_base_url url ;;
  token ← opt_show "--api-token";
  setopt "HTTPHEADER" (VList ["Authorization: Bearer " +:+ token]) ;;
  t ← opt_int "--shell-timeout";
  setopt "TIMEOUT" (VInt t) ;;
  except_Exception
    (hetzner_send_command fuel "/server_types" "GET" [("per_page", "1")] (Some 1%nat) ;; mret tt)
    (λ e, log ERROR (exn_str e) ;; fail EC_LOGIN_DENIED true).
End Hetzner.

(** ** Options and documentation *)

Definition vmware_rest_opts : list (string * optdef) := [
  ("api_path", opt [Getopt ":";
     Longopt "api-path";
     Help "--api-path=[path]              The path part of the API URL";
     Default (VStr "/rest");
     Required "0";
     Shortdesc "The path part of the API URL";
     Order 2]);
  ("filter", opt [Getopt ":";
     Longopt "filter";
     Help ("--filter=[filter]              Filter to only return relevant VMs (e.g. " +:+ dq +:+ "filter.names=node1&filter.names=node2" +:+ dq +:+ ").");
     Required "0";
     Shortdesc "Filter to only return relevant VMs. It can be used to avoid the agent failing when more than 1000 VMs should be returned.";
     Order 2])
].

Definition hetzner_opts : list (string * optdef) := [
  ("api_url", opt [Getopt ":";
     Longopt "api-url";
     Help "--api-url=[url]                API URL";
     Default (VStr "https://api.hetzner.cloud/v1");
     Required "0";
     Shortdesc "API URL";
     Order 0]);
  ("api_token", opt [Getopt ":";
     Longopt "api-token";
     Help "--api-token=[token]            API token";
     Required "1";
     Shortdesc "API token";
     Order 0])
].

Definition shelly_docs : docs := Docs
  ("fence_shelly_gen2 is a Power Fencing agent which can be used with Shelly Switches supporting the gen 2+ API to fence attached hardware.")
  ("Fence agent for Shelly Gen 2+ Switches") (Some ("https://shelly-api-docs.shelly.cloud/gen2/")) [] None.

Definition vmware_rest_docs : docs := Docs
  ("fence_vmware_rest is a Power Fencing agent which can be used with VMware API to fence virtual machines." +:+ nl +:+ nl +:+ "NOTE: If there's more than 1000 VMs there is a filter parameter to work around the API limit. See https://code.vmware.com/apis/62/vcenter-management#/VM%20/get_vcenter_vm for full list of filters.")
  ("Fence agent for VMware REST API") (Some ("https://www.vmware.com")) [] None.

Definition hetzner_docs : docs := Docs
  ("fence_hetzner_cloud is a Power Fencing agent which can be used with Hetzner Cloud via its API to fence cloud servers.")
  ("Fence agent for Hetzner Cloud") (Some ("https://www.hetzner.com")) [] None.

(** ** The programs *)

Section Mains.
Context {D : Type} `{Host D, Pycurl D}.

Definition fence_shelly_gen2_main (fuel : nat) (time_start : Z) (inv : invocation)
    (set_order : list string → list string) : M (curl * D) unit :=
  allopt_set "shell_timeout" (Default (VStr "5")) ;;
  allopt_set "power_wait" (Default (VStr "1")) ;;
  checked_options inv ["ipaddr"; "passwd"; "ssl"; "notls"; "web"; "port"] ;;
  show_docs (inv_prog inv) set_order (Some shelly_docs) ;;
  run_delay time_start 0 0 ;;
  shelly_connect ;;
  finally
    (result ← fence_action fuel (Some shelly_set_power_status) (Some shelly_get_power_status)
                None None None;
     sys_exit result)
    close_handle.

Definition fence_vmware_rest_main (fuel : nat) (time_start : Z) (inv : invocation)
    (set_order : list string → list string) : M (curl * D) unit :=
  add_options vmware_rest_opts ;;
  allopt_set "shell_timeout" (Default (VStr "5")) ;;
  allopt_set "power_wait" (Default (VStr "1")) ;;
  checked_options inv
    ["ipaddr"; "api_path"; "login"; "passwd"; "ssl"; "notls"; "web"; "port"; "filter"] ;;
  show_docs (inv_prog inv) set_order (Some vmware_rest_docs) ;;
  run_delay time_start 0 0 ;;
  rest_connect ;;
  finally
    (result ← fence_action fuel (Some rest_set_power_status) (Some rest_get_power_status)
                (Some rest_get_list) None None;
     sys_exit result)
    rest_disconnect.

Definition fence_hetzner_cloud_main (fuel : nat) (time_start : Z) (inv : invocation)
    (set_order : list string → list string) : M (curl * D) unit :=
  add_options hetzner_opts ;;
  allopt_set "shell_timeout" (Default (VStr "5")) ;;
  allopt_set "power_wait" (Default (VStr "5")) ;;
  checked_options inv ["api_url"; "api_token"; "no_password"; "port"; "web"] ;;
  show_docs (inv_prog inv) set_order (Some hetzner_docs) ;;
  run_delay time_start 0 0 ;;
  hetzner_connect fuel ;;
  finally
    (result ← fence_action fuel (Some (hetzner_set_power_status fuel))
                (Some (hetzner_get_power_status fuel)) (Some (hetzner_get_list fuel)) None None;
     sys_exit result)
    close_handle.
End Mains.
