(* ===== verification/ServiceAgents.v ===== *)
(** * Agents for web services that make a handle for each request: fence_pve, fence_docker,
    fence_cisco_ucs and fence_rhevm

    [agents/pve/fence_pve.py], [agents/docker/fence_docker.py],
    [agents/cisco_ucs/fence_cisco_ucs.py] and [agents/rhevm/fence_rhevm.py]: the first two
    speak JSON, the others XML, which they read with regular expressions. *)

From S2P Require Import Prelude PyStr PyRe OptionDefs Effects Fail Host Input Process CheckInput.
From S2P Require Import Login Metadata Action Ipmilan Console MenuAgents TableAgents SnmpAgents Json Http WebAgents.

Local Open Scope string_scope.

(** [x is not None and type(x) is dict and k in x] *)
Definition dict_with (k : string) (v : json) : bool :=
  match v with JDict d => bool_decide (is_Some (dict_get k d)) | _ => false end.

(** [v[k]] where the key is known to be there *)
Definition item_of (k : string) (v : json) : json :=
  match v with JDict d => default JNull (dict_get k d) | _ => JNull end.

Definition is_list (v : json) : bool := match v with JList _ => true | _ => false end.

(** A value in the options; those that no text can be joined with are alike. *)
Definition option_of_json (v : json) : pyval :=
  match v with JStr s => VStr s | JNull => VNone | JInt n => VInt n | _ => VList [] end.

(** ** fence_pve *)

Section Pve.
Context {D : Type} `{Pycurl D}.

(** The ticket and the token, once there, are the list under [auth]. A value of JSON is
    [None] when the transfer or the reading failed. *)
Definition pve_send_cmd (cmd : string) (post : option (list (string * string))) : M D json :=
  base ← opt_str "url";
  let url := base +:+ cmd in
  verbose ← verbose_level;
  ascii_url ← encode_ascii url;
  auth ← opt_find "auth";
  let auth_settings :=
    match auth with
    | Some (VList [ticket; token]) => [("COOKIE", VStr ticket); ("HTTPHEADER", VList [token])]
    | _ => []
    end in
  let post_settings :=
    match post with
    | Some l =>
        if bool_decide (is_Some (dict_get "skiplock" l)) then [("CUSTOMREQUEST", VStr "POST")]
        else [("POSTFIELDS", VStr (urlencode l))]
    | None => []
    end in
  t ← opt_int "--shell-timeout";
  insecure ← opt_has "--ssl-insecure";
  let ssl := if (insecure : bool) then [("SSL_VERIFYPEER", VInt 0); ("SSL_VERIFYHOST", VInt 0)]
             else [("SSL_VERIFYPEER", VInt 1); ("SSL_VERIFYHOST", VInt 2)] in
  log DEBUG ("URL: " +:+ url) ;;
  try_except
    (r ← perform ((if (verbose : bool) then [("VERBOSE", VInt 1)] else []) ++
                  [("HTTPGET", VInt 1); ("URL", VStr ascii_url)] ++ auth_settings ++
                  post_settings ++ [("TIMEOUT", VInt t)] ++ ssl)%list;
     result ← decoded r.1.2;
     log DEBUG ("RESULT [" +:+ str_of_Z r.1.1 +:+ "]: " +:+ result) ;;
     loads result)
    (λ e, Some (log ERROR (match e with PycurlError _ => "Connection failed" | _ => "Cannot parse json" end) ;;
                mret JNull)).

Definition pve_path (node : pyval) (command : string) : M D string :=
  node ← concat_str node;
  vmtype ← opt_str "--vmtype";
  plug ← opt_str "--plug";
  mret ("nodes/" +:+ node +:+ "/" +:+ vmtype +:+ "/" +:+ plug +:+ "/status/" +:+ command).

(** The state of the machine on the node of the options. *)
Definition pve_state (result : json) : M D pyval :=
  if dict_with "data" result && dict_with "status" (item_of "data" result) then
    match item_of "status" (item_of "data" result) with
    | JStr "running" => mret (VStr "on")
    | JStr "stopped" => mret (VStr "off")
    | JList _ | JDict _ => raise (TypeError "unhashable type")
    | _ => mret VNone
    end
  else mret VNone.

(** The first node that knows the machine, which stays in the options; [None] when an
    entry is no node. *)
Fixpoint find_node (status_on : M D pyval) (nodes : list json) : M D (option pyval) :=
  match nodes with
  | [] => unassigned "status"
  | node :: nodes' =>
      if negb (dict_with "node" node) then mret None
      else
        opt_set "--pve-node" (option_of_json (item_of "node" node)) ;;
        status ← status_on;
        if decide (status = VNone) then
          opt_set "--pve-node" VNone ;;
          match nodes' with [] => mret (Some VNone) | _ => find_node status_on nodes' end
        else
          name ← opt_get "--pve-node";
          name ← concat_str name;
          log INFO ("vm found on node: " +:+ name) ;;
          mret (Some status)
  end.

(** A node that is named null is looked for again. *)
Fixpoint pve_get_power_status (fuel : nat) : M D pyval :=
  match fuel with
  | O => out_of_fuel
  | S k =>
      node ← opt_get "--pve-node";
      if decide (node = VNone) then
        nodes ← pve_send_cmd "nodes" None;
        if negb (dict_with "data" nodes && is_list (item_of "data" nodes)) then mret VNone
        else
          l ← json_iter (item_of "data" nodes);
          status ← find_node (pve_get_power_status k) l;
          mret (default VNone status)
      else
        cmd ← pve_path node "current";
        result ← pve_send_cmd cmd None;
        pve_state result
  end.

Definition skiplock : list (string * string) := [("skiplock", "1")].

Definition pve_set_power_status : M D unit :=
  action ← opt_str "--action";
  action ← dict_item [("on", "start"); ("off", "stop")] action;
  node ← opt_get "--pve-node";
  cmd ← pve_path node action;
  pve_send_cmd cmd (Some skiplock) ;; mret tt.

Definition pve_reboot_cycle : M D bool :=
  node ← opt_get "--pve-node";
  cmd ← pve_path node "reset";
  result ← pve_send_cmd cmd (Some skiplock);
  mret (dict_with "data" result).

Definition pve_machine (os : outlets) (vm : json) : M D outlets :=
  vmid ← json_item vm "vmid";
  name ← json_item vm "name";
  status ← json_item vm "status";
  key ← json_key vmid;
  mret (dict_insert key (show_json name, Some (show_json status)) os).

Fixpoint pve_nodes (nodes : list json) (os : outlets) : M D (option outlets) :=
  match nodes with
  | [] => mret (Some os)
  | node :: nodes' =>
      if negb (dict_with "node" node) then mret None
      else
        name ← json_concat (item_of "node" node);
        vmtype ← opt_str "--vmtype";
        vms ← pve_send_cmd ("nodes/" +:+ name +:+ "/" +:+ vmtype) None;
        if negb (dict_with "data" vms && is_list (item_of "data" vms)) then mret None
        else
          l ← json_iter (item_of "data" vms);
          os ← mfold pve_machine os l;
          pve_nodes nodes' os
  end.

(** [None] when the service does not know the request. *)
Definition pve_get_outlet_list : M D (option outlets) :=
  nodes ← pve_send_cmd "nodes" None;
  if negb (dict_with "data" nodes && is_list (item_of "data" nodes)) then mret None
  else l ← json_iter (item_of "data" nodes); pve_nodes l [].

(** Where outlets are expected. *)
Definition pve_list : M D outlets :=
  os ← pve_get_outlet_list;
  match os with
  | Some os => mret os
  | None => raise (AttributeError "'NoneType' object has no attribute 'keys'")
  end.

Definition get_ticket : M D (option (list string)) :=
  username ← opt_str "--username";
  password ← opt_str "--password";
  result ← pve_send_cmd "access/ticket" (Some [("username", username); ("password", password)]);
  if dict_with "data" result && dict_with "ticket" (item_of "data" result) &&
     dict_with "CSRFPreventionToken" (item_of "data" result)
  then
    ticket ← json_concat (item_of "ticket" (item_of "data" result));
    ip ← opt_str "--ip";
    ipport ← opt_show "--ipport";
    token ← json_concat (item_of "CSRFPreventionToken" (item_of "data" result));
    mret (Some ["PVEAuthCookie=" +:+ ticket +:+ "; version=0; path=/; domain=" +:+ ip +:+ "; port=" +:+
                ipport +:+ "; path_spec=0; secure=1; expires=7200; discard=0";
                "CSRFPreventionToken: " +:+ token])
  else mret None.
End Pve.

(** ** fence_docker *)

Section Docker.
Context {D : Type} `{Pycurl D}.

(** A value of JSON is [None] when the transfer or the reading failed, or the status is
    not 200. *)
Definition docker_send_cmd (cmd : string) (post : bool) : M D json :=
  secure ← opt_has "--ssl-secure";
  insecure ← opt_has "--ssl-insecure";
  ip ← opt_show "--ip";
  ipport ← opt_show "--ipport";
  version ← opt_show "--api-version";
  let url := "http" +:+ (if (secure : bool) || insecure then "s" else "") +:+ "://" +:+ ip +:+ ":" +:+
             ipport +:+ "/v" +:+ version +:+ "/" +:+ cmd in
  verbose ← verbose_level;
  socket ← opt_find "--unix-socket";
  ascii_url ← encode_ascii url;
  t ← opt_int "--shell-timeout";
  ssl ← (if (secure : bool) then
           cert ← opt_find "--tlscert"; key ← opt_find "--tlskey"; cacert ← opt_find "--tlscacert";
           match cert, key, cacert with
           | Some cert, Some key, Some cacert =>
               mret [("SSL_VERIFYPEER", VInt 1); ("SSLCERT", cert); ("SSLKEY", key); ("CAINFO", cacert)]
           | _, _, _ =>
               fail_usage ("Failed. If --ssl option is used, You have to also specify: --tlscert, --tlskey and --tlscacert") true ;;
               mret []
           end
         else if (insecure : bool) then mret [("SSL_VERIFYPEER", VInt 0); ("SSL_VERIFYHOST", VInt 0)]
         else mret []);
  log DEBUG ("URL: " +:+ url) ;;
  try_except
    (r ← perform ((if (verbose : bool) then [("VERBOSE", VInt 1)] else []) ++
                  match socket with Some v => [("UNIX_SOCKET_PATH", v)] | None => [] end ++
                  [("HTTPGET", VInt 1); ("URL", VStr ascii_url)] ++
                  (if post then [("POST", VInt 1); ("POSTFIELDSIZE", VInt 0)] else []) ++
                  [("TIMEOUT", VInt t)] ++ ssl)%list;
     result ← match r.1.2 with inl x => mret x | inr _ => unassigned "result" end;
     log DEBUG ("RESULT [" +:+ str_of_Z r.1.1 +:+ "]: " +:+ result) ;;
     if decide (r.1.1 = 200)%Z then
       try_except (loads result)
         (λ _, Some (log ERROR result ;; log ERROR "Cannot parse json" ;; mret JNull))
     else mret JNull)
    (λ e, match e with
          | PycurlError _ => Some (log ERROR "Connection failed" ;; mret JNull)
          | _ => None
          end).

Definition docker_get_power_status : M D pyval :=
  plug ← opt_show "--plug";
  status ← docker_send_cmd ("containers/" +:+ plug +:+ "/json") false;
  match status with
  | JNull => mret VNone
  | _ =>
      state ← json_item status "State";
      running ← json_item state "Running";
      mret (VStr (if json_truthy running then "on" else "off"))
  end.

Definition docker_set_power_status : M D unit :=
  action ← opt_get "--action";
  plug ← opt_show "--plug";
  docker_send_cmd ("containers/" +:+ plug +:+ (if decide (action = VStr "on") then "/start" else "/kill")) true ;;
  mret tt.

(** The status after the restart counts for the success: "off" does, [None] does not. *)
Definition docker_reboot_cycle : M D bool :=
  plug ← opt_show "--plug";
  docker_send_cmd ("containers/" +:+ plug +:+ "/restart") true ;;
  status ← docker_get_power_status;
  mret (truthy status).

(** A container is off when its status begins with "Exit". *)
Definition docker_container (os : outlets) (container : json) : M D outlets :=
  id ← json_item container "Id";
  names ← json_item container "Names";
  first ← json_nth names 0;
  name ← json_concat first;
  status ← json_item container "Status";
  status ← json_concat status;
  key ← json_key id;
  mret (dict_insert key
    (if startswith "/" name then String.substring 1 (String.length name - 1) name else name,
     Some (if decide (lower (String.substring 0 4 status) = "exit") then "off" else "on")) os).

Definition docker_get_list : M D outlets :=
  output ← docker_send_cmd "containers/json?all=1" false;
  l ← json_iter output;
  mfold docker_container [] l.

(** [del options[k]] for the options of TLS that are there *)
Definition docker_disable_ssl : M D unit :=
  disabled ← opt_has "--disable-ssl";
  off ← (if (disabled : bool) then mret true
         else ssl ← opt_get "--ssl"; mret (bool_decide (ssl = VStr "0")));
  mwhen off (mfor ["--ssl"; "--ssl-secure"; "--ssl-insecure"] (λ k,
    there ← opt_has k; mwhen there (opt_del k))).
End Docker.

(** ** fence_cisco_ucs *)

Section CiscoUcs.
Context {D : Type} `{Pycurl D}.

(** [ name="(.*?)"] under re.IGNORECASE *)
Definition attribute_re (name : string) : re :=
  Seqs [LitI (" " +:+ name +:+ "=" +:+ dq); Group 1 (ManyLazy Any); Lit dq].

Definition RE_COOKIE : re :=
  Seqs [LitI "<aaaLogin "; Many Any; LitI (" outCookie=" +:+ dq); Group 1 (ManyLazy Any); Lit dq].
Definition RE_GET_DN : re := attribute_re "dn".
Definition RE_GET_PNDN : re := attribute_re "pndn".
Definition RE_GET_DESC : re := attribute_re "descr".
Definition RE_GET_OPERPOWER : re := attribute_re "operPower".
Definition RE_GET_PRESENCE : re := attribute_re "presence".

Definition ucs_send_command (command : string) (timeout : M D Z) : M D string :=
  t ← timeout;
  scheme ← url_scheme;
  ip ← opt_str "--ip";
  ipport ← opt_show "--ipport";
  url ← encode_ascii (scheme +:+ "//" +:+ ip +:+ ":" +:+ ipport +:+ "/nuova");
  ascii_command ← encode_ascii command;
  ssl ← ssl_settings;
  r ← perform ([("URL", VStr url); ("HTTPHEADER", VList ["Content-type: text/xml"]);
                ("POSTFIELDS", VStr ascii_command); ("TIMEOUT", VInt t)] ++ ssl)%list;
  result ← decoded r.1.2;
  log DEBUG (command +:+ nl) ;;
  log DEBUG (result +:+ nl) ;;
  mret result.

(** [<element cookie="..." inHierarchical="false" attribute="value"/>] *)
Definition ucs_query (element attribute value : string) : M D string :=
  cookie ← opt_str "cookie";
  mret ("<" +:+ element +:+ " cookie=" +:+ dq +:+ cookie +:+ dq +:+ " inHierarchical=" +:+ dq +:+ "false" +:+ dq
        +:+ " " +:+ attribute +:+ "=" +:+ dq +:+ value +:+ dq +:+ "/>").

Definition ucs_get_power_status : M D pyval :=
  suborg ← opt_str "--suborg";
  plug ← opt_str "--plug";
  query ← ucs_query "configResolveDn" "dn" ("org-root" +:+ suborg +:+ "/ls-" +:+ plug);
  res ← ucs_send_command query shell_timeout;
  let pndn := match search RE_GET_PNDN res with Some m => m_group 1 m | None => "" end in
  if decide (strip pndn = "") then
    missing_as_off ← opt_has "--missing-as-off";
    if (missing_as_off : bool) then mret (VStr "off") else fails EC_STATUS
  else
    query ← ucs_query "configResolveDn" "dn" pndn;
    res ← ucs_send_command query shell_timeout;
    match search RE_GET_PRESENCE res with
    | None => fails EC_STATUS
    | Some m =>
        if bool_decide (m_group 1 m ∈ ["missing"; "mismatch"]) then mret (VStr "off")
        else
          match search RE_GET_OPERPOWER res with
          | None => fails EC_STATUS
          | Some m => mret (VStr (if decide (m_group 1 m = "on") then "on" else "off"))
          end
    end.

Definition ucs_set_power_status : M D unit :=
  action ← opt_str "--action";
  action ← dict_item [("on", "admin-up"); ("off", "admin-down")] action;
  cookie ← opt_str "cookie";
  suborg ← opt_str "--suborg";
  plug ← opt_str "--plug";
  ucs_send_command
    ("<configConfMos cookie=" +:+ dq +:+ cookie +:+ dq +:+ " inHierarchical=" +:+ dq +:+ "no" +:+ dq +:+ ">" +:+
     "<inConfigs><pair key=" +:+ dq +:+ "org-root" +:+ suborg +:+ "/ls-" +:+ plug +:+ "/power" +:+ dq +:+ ">" +:+
     "<lsPower dn=" +:+ dq +:+ "org-root/ls-" +:+ plug +:+ "/power" +:+ dq +:+ " state=" +:+ dq +:+ action +:+ dq
     +:+ " status=" +:+ dq +:+ "modified" +:+ dq +:+ " />" +:+ "</pair></inConfigs></configConfMos>")
    shell_timeout ;;
  mret tt.

(** [except AttributeError: return {}], the same for IndexError *)
Definition or_no_outlets (m : M D outlets) : M D outlets :=
  try_except m (λ e, match e with AttributeError _ | IndexError => Some (mret []) | _ => None end).

Definition ucs_server (os : outlets) (line : string) : M D outlets :=
  node_name ← search_group RE_GET_DN 1 line;
  desc ← search_group RE_GET_DESC 1 line;
  mret (dict_insert node_name (desc, None) os).

Definition ucs_get_list : M D outlets :=
  or_no_outlets
    (query ← ucs_query "configResolveClass" "classId" "lsServer";
     res ← ucs_send_command query shell_timeout;
     mfold ucs_server [] (tail (split_go "<lsServer " res 0))).

Definition ucs_logout : M D unit :=
  except_Exception
    (cookie ← opt_str "cookie";
     ucs_send_command ("<aaaLogout inCookie=" +:+ dq +:+ cookie +:+ dq +:+ " />") shell_timeout ;; mret tt)
    (λ _, mret tt).

Definition ucs_login : M D unit :=
  except_Exception
    (username ← opt_str "--username";
     password ← opt_str "--password";
     res ← ucs_send_command ("<aaaLogin inName=" +:+ dq +:+ username +:+ dq +:+ " inPassword=" +:+ dq +:+
                             password +:+ dq +:+ " />") (opt_int "--login-timeout");
     match search RE_COOKIE res with
     | Some m => mret (m_group 1 m)
     | None => fails EC_LOGIN_DENIED
     end)
    (λ e, log ERROR ("Failed: " +:+ exn_str e) ;; fails EC_LOGIN_DENIED) ≫= λ cookie,
  opt_set "cookie" (VStr cookie).

Definition ucs_suborg : M D unit :=
  suborg ← opt_str "--suborg";
  mwhen (bool_decide (suborg ≠ ""))
    (opt_set "--suborg" (VStr ("/" +:+ rstrip_char "/" (lstrip_char "/" suborg)))).
End CiscoUcs.

(** ** fence_rhevm *)

(** [repr(s.encode("UTF-8"))] *)
Definition byte_char (quote c : ascii) : string :=
  if (128 <=? ord c)%Z then String BS ("x" +:+ hex_digits 2 (ord c) "") else repr_char quote c.
Definition bytes_repr (s : string) : string :=
  let quote := if contains "'" s && negb (contains dq s) then DQ else "'"%char in
  "b" +:+ str1 quote +:+ join "" (map (byte_char quote) (String.list_ascii_of_string s)) +:+ str1 quote.

Section Rhevm.
Context {D : Type} `{Pycurl D}.
(** [tempfile.gettempdir()] *)
Variable tempdir : string.

Definition RE_GET_ID : re :=
  Seqs [LitI "<vm"; Opt (Group 1 (Seq (Lit " ") (Many Any))); LitI (" id=" +:+ dq);
        Group 2 (ManyLazy Any); Lit dq].
Definition element_re (name : string) : re :=
  Seqs [LitI ("<" +:+ name +:+ ">"); Group 1 (ManyLazy Any); LitI ("</" +:+ name +:+ ">")].
Definition RE_STATUS : re := element_re "status".
Definition RE_STATE : re := element_re "state".
Definition RE_GET_NAME : re := element_re "name".

(** The sixth and the seventh item_of of each cookie *)
Definition cookie_text (cookies : list string) : M D string :=
  mfold (λ cookie c,
    let tokens := split_go tab c 0 in
    name ← list_item tokens 5; value ← list_item tokens 6;
    mret (cookie +:+ name +:+ "=" +:+ value +:+ ";")) "" cookies.

(** One transfer; [method] is GET or POST. *)
Definition rhevm_request (command method : string) : M D string :=
  scheme ← url_scheme;
  api_path ← opt_find "--api-path";
  api_path ← (match api_path with Some v => as_str v | None => mret "/ovirt-engine/api" end);
  no_filter ← opt_has "--disable-http-filter";
  ip ← opt_str "--ip";
  ipport ← opt_show "--ipport";
  let url := scheme +:+ "//" +:+ ip +:+ ":" +:+ ipport +:+ api_path +:+ "/" +:+ command in
  version ← opt_show "--api-version";
  cookie ← opt_find "cookie";
  use_cookies ← opt_has "--use-cookies";
  login ← (match cookie with
           | Some c => mret [("COOKIE", c)]
           | None =>
               username ← opt_str "--username";
               password ← opt_str "--password";
               let basic := [("HTTPAUTH", VStr "HTTPAUTH_BASIC"); ("USERPWD", VStr (username +:+ ":" +:+ password))] in
               if (use_cookies : bool) then
                 file ← opt_find "--cookie-file";
                 let file :=
                   default (VStr (tempdir +:+ "/fence_rhevm_" +:+ ip +:+ "_" +:+ username +:+ "_cookie.dat")) file in
                 mret (basic ++ [("COOKIEFILE", file); ("COOKIEJAR", file)])%list
               else mret basic
           end);
  t ← opt_int "--shell-timeout";
  ssl ← ssl_settings;
  r ← perform ([("URL", VStr url);
                ("HTTPHEADER", VList ["Version: " +:+ version; "Content-type: application/xml";
                   "Accept: application/xml"; "Prefer: persistent-auth";
                   "Filter: " +:+ (if (no_filter : bool) then "false" else "true")])] ++
               login ++ [("TIMEOUT", VInt t)] ++ ssl ++
               (if decide (method = "POST") then [("POSTFIELDS", VStr "<action />")] else []))%list;
  mwhen (negb (bool_decide (is_Some cookie)) && use_cookies)
    (text ← cookie_text r.2; opt_set "cookie" (VStr text)) ;;
  result ← decoded r.1.2;
  log DEBUG ("url: " +:+ bytes_repr url +:+ nl) ;;
  log DEBUG ("command: " +:+ bytes_repr command +:+ nl) ;;
  log DEBUG ("result: " +:+ bytes_repr result +:+ nl) ;;
  mret result.

(** The version of the service is found out with the first request. *)
Definition rhevm_send_command (command method : string) : M D string :=
  version ← opt_get "--api-version";
  (if decide (version = VStr "auto") then
     opt_set "--api-version" (VStr "4") ;;
     res ← rhevm_request "" "GET";
     mwhen (bool_decide (is_Some (search (Lit "<title>Error</title>") res)))
       (opt_set "--api-version" (VStr "3")) ;;
     version ← opt_str "--api-version";
     log DEBUG ("auto-detected API version: " +:+ version)
   else mret tt) ;;
  rhevm_request command method.

(** [tuple(map(int, options["--api-version"].split(".")))[0] > 3] *)
Definition recent_api : M D bool :=
  version ← opt_str "--api-version";
  numbers ← mfold (λ l x, n ← as_int (VStr x); mret (l ++ [n])%list) [] (split_go "." version 0);
  major ← list_item numbers 0;
  mret (3 <? major)%Z.

Definition status_re : M D re :=
  recent ← recent_api; mret (if (recent : bool) then RE_STATUS else RE_STATE).

Definition rhevm_get_power_status : M D pyval :=
  plug ← opt_str "--plug";
  res ← rhevm_send_command ("vms/?search=name%3D" +:+ plug) "GET";
  match search RE_GET_ID res with
  | None => fails EC_FETCH_VM_UUID
  | Some m =>
      opt_set "id" (VStr (m_group 2 m)) ;;
      r ← status_re;
      mret (VStr (match search r res with
                  | None => "off"
                  | Some m => if decide (lower (m_group 1 m) = "down") then "off" else "on"
                  end))
  end.

Definition rhevm_set_power_status : M D unit :=
  action ← opt_str "--action";
  action ← dict_item [("on", "start"); ("off", "stop")] action;
  id ← opt_str "id";
  rhevm_send_command ("vms/" +:+ id +:+ "/" +:+ action) "POST" ;; mret tt.

Definition rhevm_vm (os : outlets) (line : string) : M D outlets :=
  name ← search_group RE_GET_NAME 1 line;
  r ← status_re;
  status ← search_group r 1 line;
  mret (dict_insert name ("", Some status) os).

Definition rhevm_get_list : M D outlets :=
  or_no_outlets
    (res ← rhevm_send_command "vms" "GET"; mfold rhevm_vm [] (tail (split_go "<vm " res 0))).
End Rhevm.

(** ** Options and documentation *)

Definition pve_opts : list (string * optdef) := [
  ("pve_node_auto", opt [Getopt "A";
     Longopt "pve-node-auto";
     Help "-A, --pve-node-auto            Automatically select proxmox node";
     Required "0";
     Shortdesc "Automatically select proxmox node. (This option overrides --pve-node)";
     Type_ "boolean";
     Order 2]);
  ("pve_node", opt [Getopt "N:";
     Longopt "pve-node";
     Help "-N, --pve-node=[node_name]     Proxmox node name on which machine is located";
     Required "0";
     Shortdesc "Proxmox node name on which machine is located. (Must be specified if not using --pve-node-auto)";
     Order 2]);
  ("node_name", opt [Getopt ":";
     Longopt "nodename";
     Help "--nodename                     Replaced by --pve-node";
     Required "0";
     Shortdesc "Replaced by --pve-node";
     Order 3]);
  ("vmtype", opt [Getopt ":";
     Longopt "vmtype";
     Default (VStr "qemu");
     Help "--vmtype                       Virtual machine type lxc or qemu (default: qemu)";
     Required "1";
     Shortdesc "Virtual machine type lxc or qemu. (Default: qemu)";
     Order 2])
].

Definition docker_opts : list (string * optdef) := [
  ("tlscert", opt [Getopt ":";
     Longopt "tlscert";
     Help "--tlscert                      Path to client certificate for TLS authentication";
     Required "0";
     Shortdesc "Path to client certificate (PEM format) for TLS authentication. Required if --ssl option is used.";
     Order 2]);
  ("tlskey", opt [Getopt ":";
     Longopt "tlskey";
     Help "--tlskey                       Path to client key for TLS authentication";
     Required "0";
     Shortdesc "Path to client key (PEM format) for TLS authentication.  Required if --ssl option is used.";
     Order 2]);
  ("tlscacert", opt [Getopt ":";
     Longopt "tlscacert";
     Help "--tlscacert                    Path to CA certificate for TLS authentication";
     Required "0";
     Shortdesc "Path to CA certificate (PEM format) for TLS authentication.  Required if --ssl option is used.";
     Order 2]);
  ("api_version", opt [Getopt ":";
     Longopt "api-version";
     Help "--api-version                  Version of Docker Remote API (default: 1.11)";
     Required "0";
     Order 2;
     Default (VStr "1.11")]);
  ("unix_socket", opt [Getopt ":";
     Longopt "unix-socket";
     Help "--unix-socket                  Path to Docker's unix socket. Use this with --disable-ssl.";
     Required "0";
     Order 2]);
  ("disable_ssl", opt [Getopt "";
     Longopt "disable-ssl";
     Help "--disable-ssl                  Don't use SSL connection";
     Required "0";
     Shortdesc "Don't use SSL";
     Order 2])
].

Definition ucs_opts : list (string * optdef) := [
  ("suborg", opt [Getopt ":";
     Longopt "suborg";
     Help "--suborg=[path]                Additional path needed to access suborganization";
     Required "0";
     Shortdesc "Additional path needed to access suborganization";
     Default (VStr "");
     Order 1])
].

Definition rhevm_opts : list (string * optdef) := [
  ("port", opt [Getopt "n:";
     Longopt "plug";
     Help "-n, --plug=[name]              VM name in RHV";
     Required "1";
     Order 1]);
  ("use_cookies", opt [Getopt "";
     Longopt "use-cookies";
     Help "--use-cookies                  Reuse cookies for authentication";
     Required "0";
     Shortdesc "Reuse cookies for authentication";
     Order 1]);
  ("cookie_file", opt [Getopt ":";
     Longopt "cookie-file";
     Help ("--cookie-file                  Path to cookie file for authentication" +:+ nl +:+ "				  (Default: /tmp/fence_rhevm_ip_username_cookie.dat)");
     Required "0";
     Shortdesc "Path to cookie file for authentication";
     Order 2]);
  ("api_version", opt [Getopt ":";
     Longopt "api-version";
     Help "--api-version                  Version of RHEV API (default: auto)";
     Required "0";
     Order 2;
     Default (VStr "auto")]);
  ("api_path", opt [Getopt ":";
     Longopt "api-path";
     Help "--api-path=[path]              The path part of the API URL";
     Default (VStr "/ovirt-engine/api");
     Required "0";
     Shortdesc "The path part of the API URL";
     Order 3]);
  ("disable_http_filter", opt [Getopt "";
     Longopt "disable-http-filter";
     Help "--disable-http-filter          Set HTTP Filter header to false";
     Required "0";
     Shortdesc "Set HTTP Filter header to false";
     Order 4])
].

Definition pve_docs : docs := Docs
  ("fence_pve is a Power Fencing agent for virtual machines acting as nodes in a virtualized cluster.")
  ("Fencing agent for the Proxmox Virtual Environment") (Some ("http://www.proxmox.com/")) [] None.

Definition docker_docs : docs := Docs
  ("fence_docker is a Power Fencing agent which can be used with the Docker Engine containers. You can use this fence-agent without any authentication, or you can use TLS authentication (use --ssl option, more info about TLS authentication in docker: http://docs.docker.com/examples/https/).")
  ("Fence agent for Docker") (Some ("www.docker.io")) [] None.

Definition ucs_docs : docs := Docs
  ("fence_cisco_ucs is a Power Fencing agent which can be used with Cisco UCS to fence machines.")
  ("Fence agent for Cisco UCS") (Some ("http://www.cisco.com")) [] None.

Definition rhevm_docs : docs := Docs
  ("fence_rhevm is a Power Fencing agent which can be used with RHEV-M REST API to fence virtual machines.")
  ("Fence agent for RHEV-M REST API") (Some ("http://www.redhat.com")) [] None.

(** ** The programs *)

Section Mains.
Context {D : Type} `{Host D, Pycurl D}.

(** [k in options and options[k]] *)
Definition given_value {W} (k : string) : M W (option pyval) :=
  v ← opt_find k; mret (match v with Some v => if truthy v then Some v else None | None => None end).

Definition pve_node_option {W} : M W unit :=
  auto ← opt_has "--pve-node-auto";
  if (auto : bool) then opt_set "--pve-node" VNone
  else
    node ← given_value "--pve-node";
    match node with
    | Some _ => mret tt
    | None =>
        name ← given_value "--nodename";
        match name with
        | Some v => opt_set "--pve-node" v
        | None => fail_usage "At least one of pve-node-auto or pve-node must be supplied" true
        end
    end.

Definition pve_device_opt : list string :=
  ["ipaddr"; "login"; "passwd"; "ssl"; "web"; "port"; "pve_node"; "pve_node_auto"; "node_name"; "vmtype"; "method"].

Definition fence_pve_main (fuel : nat) (time_start : Z) (inv : invocation)
    (set_order : list string → list string) : M D unit :=
  add_options pve_opts ;;
  allopt_set "login" (Required "0") ;;
  allopt_set "login" (Default (VStr "root@pam")) ;;
  allopt_set "ipport" (Default (VStr "8006")) ;;
  allopt_set "ssl" (Default (VStr "1")) ;;
  allopt_set "port" (Shortdesc "Id of the virtual machine.") ;;
  allopt_set "ipaddr" (Shortdesc "IP Address or Hostname of a node within the Proxmox cluster.") ;;
  checked_options inv pve_device_opt ;;
  show_docs (inv_prog inv) set_order (Some pve_docs) ;;
  run_delay time_start 0 0 ;;
  pve_node_option ;;
  vmtype ← opt_get "--vmtype";
  mwhen (bool_decide (vmtype ≠ VStr "qemu")) (opt_set "--method" (VStr "onoff")) ;;
  ip ← opt_str "--ip";
  ipport ← opt_show "--ipport";
  opt_set "url" (VStr ("https://" +:+ ip +:+ ":" +:+ ipport +:+ "/api2/json/")) ;;
  ticket ← get_ticket;
  match ticket with
  | Some auth => opt_set "auth" (VList auth)
  | None => opt_set "auth" VNone ;; fail EC_LOGIN_DENIED true
  end ;;
  known ← pve_get_outlet_list;
  result ← fence_action fuel (Some pve_set_power_status) (Some (pve_get_power_status fuel))
             (match known with Some _ => Some pve_list | None => None end) (Some pve_reboot_cycle) None;
  sys_exit result.

Definition docker_device_opt : list string :=
  ["ipaddr"; "no_password"; "no_login"; "port"; "method"; "web"; "tlscert"; "tlskey"; "tlscacert"; "ssl";
   "api_version"; "unix_socket"; "disable_ssl"].

Definition fence_docker_main (fuel : nat) (time_start : Z) (inv : invocation)
    (set_order : list string → list string) : M D unit :=
  add_options docker_opts ;;
  allopt_set "ssl" (Default (VStr "1")) ;;
  checked_options inv docker_device_opt ;;
  docker_disable_ssl ;;
  show_docs (inv_prog inv) set_order (Some docker_docs) ;;
  run_delay time_start 0 0 ;;
  result ← fence_action fuel (Some docker_set_power_status) (Some docker_get_power_status)
             (Some docker_get_list) (Some docker_reboot_cycle) None;
  sys_exit result.

(** The session is left however the program ends. *)
Definition fence_cisco_ucs_main (fuel : nat) (time_start : Z) (inv : invocation)
    (set_order : list string → list string) : M D unit :=
  finally
    (add_options ucs_opts ;;
     checked_options inv ["ipaddr"; "login"; "passwd"; "ssl"; "notls"; "port"; "web"; "suborg"; "missing_as_off"] ;;
     show_docs (inv_prog inv) set_order (Some ucs_docs) ;;
     run_delay time_start 0 0 ;;
     ucs_login ;;
     ucs_suborg ;;
     result ← fence_action fuel (Some ucs_set_power_status) (Some ucs_get_power_status)
                (Some ucs_get_list) None None;
     sys_exit result)
    ucs_logout.

Definition rhevm_device_opt : list string :=
  ["ipaddr"; "login"; "passwd"; "ssl"; "notls"; "web"; "port"; "use_cookies"; "cookie_file"; "api_version";
   "api_path"; "disable_http_filter"].

Definition fence_rhevm_main (tempdir : string) (fuel : nat) (time_start : Z) (inv : invocation)
    (set_order : list string → list string) : M D unit :=
  add_options rhevm_opts ;;
  allopt_set "power_wait" (Default (VStr "1")) ;;
  allopt_set "shell_timeout" (Default (VStr "5")) ;;
  checked_options inv rhevm_device_opt ;;
  show_docs (inv_prog inv) set_order (Some rhevm_docs) ;;
  run_delay time_start 0 0 ;;
  result ← fence_action fuel (Some (rhevm_set_power_status tempdir))
             (Some (rhevm_get_power_status tempdir)) (Some (rhevm_get_list tempdir)) None None;
  sys_exit result.
End Mains.
