(* ===== verification/IbmAgents.v ===== *)
(** * The agents for the IBM cloud: fence_ibm_powervs and fence_ibm_vpc

    [agents/ibm_powervs/fence_ibm_powervs.py] and [agents/ibm_vpc/fence_ibm_vpc.py]: JSON
    over HTTP with a token, which the second keeps in a file. *)

From S2P Require Import Prelude PyStr PyRe OptionDefs Effects Fail Host Input Process CheckInput.
From S2P Require Import Scsi.
From S2P Require Import Login Metadata Action Ipmilan Console MenuAgents TableAgents SnmpAgents.
From S2P Require Import Json Globals Http WebAgents ServiceAgents Verify.

Local Open Scope string_scope.

(** [v[0] == '@'] *)
Definition names_a_file {D} (v : string) : M D bool :=
  match v with
  | "" => raise (OtherError "string index out of range")
  | String c _ => mret (bool_decide (c = "@"%char))
  end.

(** [v.get(k, "")] *)
Definition json_get {D} (v : json) (k : string) : M D json :=
  match v with
  | JDict d => mret (default (JStr "") (dict_get k d))
  | _ => raise (AttributeError ("'" +:+ json_type v +:+ "' object has no attribute 'get'"))
  end.

(** The key of the API in a text: an item of a dictionary in JSON, or the text itself. *)
Definition api_key_of {D} (text : string) : M D json :=
  try_except
    (keys ← loads text;
     key ← json_get keys "Apikey";
     if json_truthy key then mret key else json_get keys "apikey")
    (λ e, match e with ValueError _ => Some (mret (JStr (strip text))) | _ => None end).

(** [open(path, "r").read()], or that there is no such file. *)
Definition read_or_missing {D} `{Host D} (path : string) : M D (option string) :=
  exists_ ← host_test h_exists path;
  if (exists_ : bool) then
    s ← get_st;
    match h_readfile (s_dev s) path with
    | Some text => mret (Some text)
    | None => raise (OSError ("cannot read " +:+ path))
    end
  else mret None.

Definition verbose_over {D} (n : Z) : M D bool :=
  v ← opt_int "--verbose-level"; mret (n <? v)%Z.

(** The method of a request. *)
Definition set_method {D} `{Pycurl D} (method : string) (action : string) : M (curl * D) unit :=
  mwhen (bool_decide (method = "GET")) (setopt "POST" (VInt 0)) ;;
  mwhen (bool_decide (method = "POST")) (setopt "POSTFIELDS" (VStr action)) ;;
  mwhen (bool_decide (method = "DELETE")) (setopt "CUSTOMREQUEST" (VStr "DELETE")).

(** ** fence_ibm_powervs *)

Section Powervs.
Context {D : Type} `{Host D, Pycurl D}.

Definition powervs_states : list (string * string) :=
  [("ACTIVE", "on"); ("SHUTOFF", "off"); ("HARD_REBOOT", "on"); ("SOFT_REBOOT", "on"); ("ERROR", "unknown")].

Definition powervs_send_command (command method action : string) (print_result : bool)
    : M (curl * D) json :=
  base ← get_base_url;
  let url := base +:+ command in
  ascii_url ← encode_ascii url;
  setopt "URL" (VStr ascii_url) ;;
  set_method method action ;;
  '(rc, body) ← except_Exception perform_handle
    (λ e, log ERROR ("send_command(): " +:+ exn_str e) ;; raise e);
  text ← decoded body;
  if decide (rc = 200)%Z then
    result ← loads_if_any text;
    log DEBUG ("url: " +:+ url) ;;
    log DEBUG ("method: " +:+ method) ;;
    log DEBUG ("response code: " +:+ str_of_Z rc) ;;
    mwhen print_result (log DEBUG ("result: " +:+ show_json result +:+ nl)) ;;
    mret result
  else if decide (text = "") then
    raise (OtherError ("Remote returned " +:+ str_of_Z rc +:+ " for request to " +:+ url))
  else raise (OtherError (str_of_Z rc +:+ ": " +:+ text)).

Definition NO_TOKEN : json := JStr "TOKEN_IS_MISSING_OR_WRONG".

Definition powervs_api_key : M (curl * D) (option json) :=
  token ← opt_str "--token";
  file ← names_a_file token;
  if (file : bool) then
    let key_file := String.substring 1 (String.length token - 1) token in
    text ← read_or_missing key_file;
    match text with
    | Some text => key ← api_key_of text; mret (Some key)
    | None => log DEBUG ("Failed: Cannot open file " +:+ key_file) ;; mret None
    end
  else mret (Some (JStr token)).

Definition get_token : M (curl * D) json :=
  res ← except_Exception
    (key ← powervs_api_key;
     match key with
     | None => mret None
     | Some key =>
         res ← powervs_send_command "identity/token" "POST"
           ("grant_type=urn%3Aibm%3Aparams%3Aoauth%3Agrant-type%3Aapikey&apikey=" +:+ show_json key) false;
         mret (Some res)
     end)
    (λ e, log DEBUG ("Failed: " +:+ exn_str e) ;; mret None);
  match res with
  | None => mret NO_TOKEN
  | Some res => json_item res "access_token"
  end.

Definition instance_path (rest : string) : M (curl * D) string :=
  instance ← opt_show "--instance";
  mret ("cloud-instances/" +:+ instance +:+ "/pvm-instances" +:+ rest).

Definition log_instance (r : json) : M (curl * D) unit :=
  verbose ← verbose_over 1;
  mwhen verbose (log DEBUG (json_dumps_indent float_repr 2 r)).

(** [state.get(r["status"], "unknown")] *)
Definition state_or_unknown (v : json) : M (curl * D) string :=
  match v with
  | JList _ | JDict _ => raise (TypeError ("unhashable type: '" +:+ json_type v +:+ "'"))
  | JStr s => mret (default "unknown" (dict_get s powervs_states))
  | _ => mret "unknown"
  end.

Definition powervs_outlet (os : outlets) (r : json) : M (curl * D) outlets :=
  log_instance r ;;
  name ← json_item r "serverName";
  status ← json_item r "status";
  state ← state_or_unknown status;
  id ← json_item r "pvmInstanceID";
  key ← json_key id;
  mret (dict_insert key (show_json name, Some state) os).

(** A listing that fails is empty. *)
Definition powervs_get_list : M (curl * D) outlets :=
  res ← except_Exception
    (command ← instance_path "";
     res ← powervs_send_command command "GET" "" true; mret (Some res))
    (λ e, log DEBUG ("Failed: " +:+ exn_str e) ;; mret None);
  match res with
  | None => mret []
  | Some res =>
      instances ← json_item res "pvmInstances";
      l ← json_iter instances;
      mfold powervs_outlet [] l
  end.

(** [outlets[k][1]] *)
Definition status_in (os : outlets) (k : string) : M (curl * D) string :=
  match dict_get k os with
  | Some (_, status) => mret (default "" status)
  | None => raise (KeyError k)
  end.

(** The status of the instance itself; a KeyError sends the agent to the listing. *)
Definition powervs_get_power_status : M (curl * D) pyval :=
  plug ← opt_str "--plug";
  instance ← opt_str "--instance";
  log DEBUG ("Info: getting power status for LPAR " +:+ plug +:+ " instance " +:+ instance) ;;
  result ← try_except
    (command ← instance_path ("/" +:+ plug);
     res ← powervs_send_command command "GET" "" true;
     name ← json_item res "serverName";
     status ← json_item res "status";
     state ← dict_of_text powervs_states status;
     id ← json_item res "pvmInstanceID";
     key ← json_key id;
     log_instance res ;;
     result ← status_in [(key, (show_json name, Some state))] plug;
     log DEBUG ("Info: Status: " +:+ result) ;;
     mret result)
    (λ e, match e with
          | KeyError _ =>
              Some (try_except
                (os ← powervs_get_list; status_in os plug)
                (λ ex, match ex with
                       | KeyError _ =>
                           Some (log DEBUG ("Failed: Unable to get status for " +:+ exn_str ex) ;; fails EC_STATUS)
                       | _ => None
                       end))
          | _ => None
          end);
  mret (VStr result).

Definition powervs_action (action : string) : M (curl * D) unit :=
  plug ← opt_show "--plug";
  command ← instance_path ("/" +:+ plug +:+ "/action");
  powervs_send_command command "POST" action true ;; mret tt.

Definition json_action (what : string) : string :=
  "{" +:+ dq +:+ "action" +:+ dq +:+ " : " +:+ dq +:+ what +:+ dq +:+ "}".

Definition powervs_set_power_status : M (curl * D) unit :=
  option_action ← opt_str "--action";
  action ← dict_item [("on", json_action "start"); ("off", json_action "immediate-shutdown")] option_action;
  plug ← opt_str "--plug";
  instance ← opt_str "--instance";
  log DEBUG ("Info: set power status to " +:+ option_action +:+ " for LPAR " +:+ plug +:+ " instance " +:+ instance) ;;
  except_Exception (powervs_action action)
    (λ e, log DEBUG ("Failed: Unable to set power to " +:+ option_action +:+ " for " +:+ exn_str e) ;;
          fail EC_STATUS true).

(** A failed cycle of a machine that is off counts as done. *)
Definition powervs_reboot_cycle : M (curl * D) bool :=
  option_action ← opt_str "--action";
  action ← dict_item [("reboot", json_action "hard-reboot")] option_action;
  plug ← opt_str "--plug";
  instance ← opt_str "--instance";
  log DEBUG ("Info: start reboot cycle with action " +:+ option_action +:+ " for LPAR " +:+ plug +:+ " instance " +:+ instance) ;;
  except_Exception (powervs_action action)
    (λ e, result ← powervs_get_power_status;
          log DEBUG ("Info: Status " +:+ py_str result) ;;
          if decide (result = VStr "off") then mret tt
          else
            log DEBUG ("Failed: Unable to cycle with " +:+ option_action +:+ " for " +:+ exn_str e) ;;
            fail EC_STATUS true) ;;
  mret true.

Definition timeouts_and_proxy : M (curl * D) unit :=
  t ← opt_int "--shell-timeout";
  setopt "CONNECTTIMEOUT" (VInt t) ;;
  setopt "TIMEOUT" (VInt t) ;;
  setopt "SSL_VERIFYPEER" (VInt 1) ;;
  setopt "SSL_VERIFYHOST" (VInt 2) ;;
  proxy ← opt_show "--proxy";
  setopt "PROXY" (VStr proxy).

Definition powervs_connect (token : json) : M (curl * D) unit :=
  set_globals no_curl ;;
  region ← opt_str "--region";
  set_base_url ("https://" +:+ region +:+ ".power-iaas.cloud.ibm.com/pcloud/v1/") ;;
  api_type ← opt_get "--api-type";
  mwhen (bool_decide (api_type = VStr "private"))
    (set_base_url ("https://private." +:+ region +:+ ".power-iaas.cloud.ibm.com/pcloud/v1/")) ;;
  verbose ← verbose_over 2;
  mwhen (negb verbose) (setopt "VERBOSE" (VInt 0)) ;;
  timeouts_and_proxy ;;
  crn ← opt_show "--crn";
  setopt "HTTPHEADER" (VList ["Content-Type: application/json"; "Authorization: Bearer " +:+ show_json token;
                              "CRN: " +:+ crn; "User-Agent: curl"]).

Definition auth_connect : M (curl * D) unit :=
  set_globals no_curl ;;
  api_type ← opt_get "--api-type";
  set_base_url (if decide (api_type = VStr "private") then "https://private.iam.cloud.ibm.com/"
                else "https://iam.cloud.ibm.com/") ;;
  verbose ← verbose_over 1;
  mwhen verbose (setopt "VERBOSE" (VInt 1)) ;;
  timeouts_and_proxy ;;
  setopt "HTTPHEADER" (VList ["Content-type: application/x-www-form-urlencoded"; "Accept: application/json";
                              "User-Agent: curl"]).
End Powervs.

(** ** fence_ibm_vpc *)

(** Removing a file, and creating one that must be new with mode 0600; an OSError tells
    its message. *)
Class TokenFiles (D : Type) := {
  f_remove : string → D → D;
  f_create : string → D → option (bool * string) * D   (* whether it exists, str(e) *)
}.

#[export] Instance lift_token_files {G D} `{TokenFiles D} : TokenFiles (G * D) := {|
  f_remove path := lift_step (f_remove path);
  f_create path := lift_op (f_create path)
|}.

Section Vpc.
Context {D : Type} `{Host D, Pycurl D, TokenFiles D}.

Definition vpc_states : list (string * string) :=
  [("running", "on"); ("stopped", "off"); ("starting", "unknown"); ("stopping", "unknown");
   ("restarting", "unknown"); ("pending", "unknown"); ("deleting", "unknown"); ("failed", "unknown")].

(** After a token has expired the variable [opt], which the function does not have, is
    used; an unexpected status ends in an index of the text of the answer. *)
Definition vpc_send_command (command method action : string) (expected_rc : Z) : M (curl * D) json :=
  base ← get_base_url;
  let url := if startswith "https" command then command else base +:+ command in
  ascii_url ← encode_ascii url;
  setopt "URL" (VStr ascii_url) ;;
  set_method method action ;;
  '(rc, body) ← perform_handle;
  if bool_decide (rc ∈ [400; 401; 415])%Z then raise (OtherError "name 'opt' is not defined")
  else
    text ← decoded body;
    if decide (rc = expected_rc) then
      result ← loads_if_any text;
      log DEBUG ("url: " +:+ url) ;;
      log DEBUG ("method: " +:+ method) ;;
      log DEBUG ("response code: " +:+ str_of_Z rc) ;;
      log DEBUG ("result: " +:+ show_json result +:+ nl) ;;
      mret result
    else
      log DEBUG ("rc: " +:+ str_of_Z rc +:+ ", result: " +:+ text) ;;
      if decide (text = "") then
        raise (OtherError ("Remote returned " +:+ str_of_Z rc +:+ " for request to " +:+ url))
      else raise (TypeError "string indices must be integers").

Definition vpc_outlet (os : outlets) (r : json) : M (curl * D) outlets :=
  verbose ← verbose_over 1;
  mwhen verbose
    (log DEBUG ("Node:" +:+ nl +:+ json_dumps_indent float_repr 2 r) ;;
     status ← json_item r "status";
     state ← dict_of_text vpc_states status;
     log DEBUG ("Status: " +:+ state)) ;;
  name ← json_item r "name";
  status ← json_item r "status";
  state ← dict_of_text vpc_states status;
  id ← json_item r "id";
  key ← json_key id;
  mret (dict_insert key (show_json name, Some state) os).

Definition vpc_get_list : M (curl * D) outlets :=
  res ← except_Exception
    (limit ← opt_show "--limit";
     res ← vpc_send_command ("instances?version=2021-05-25&generation=2&limit=" +:+ limit) "GET" "" 200;
     mret (Some res))
    (λ e, log DEBUG ("Failed: Unable to get list: " +:+ exn_str e) ;; mret None);
  match res with
  | None => mret []
  | Some res =>
      instances ← json_item res "instances";
      l ← json_iter instances;
      mfold vpc_outlet [] l
  end.

Definition vpc_get_power_status : M (curl * D) pyval :=
  except_Exception
    (plug ← opt_show "--plug";
     res ← vpc_send_command ("instances/" +:+ plug +:+ "?version=2021-05-25&generation=2") "GET" "" 200;
     status ← json_item res "status";
     result ← dict_of_text vpc_states status;
     verbose ← verbose_over 1;
     mwhen verbose
       (log DEBUG ("Result:" +:+ nl +:+ json_dumps_indent float_repr 2 res) ;;
        log DEBUG ("Status: " +:+ result)) ;;
     mret (VStr result))
    (λ e, plug ← opt_show "--plug";
          log DEBUG ("Failed: Unable to get status for " +:+ plug +:+ ": " +:+ exn_str e) ;;
          fails EC_STATUS).

Definition json_type_action (what : string) : string :=
  "{" +:+ dq +:+ "type" +:+ dq +:+ " : " +:+ dq +:+ what +:+ dq +:+ "}".

Definition vpc_set_power_status : M (curl * D) unit :=
  option_action ← opt_str "--action";
  action ← dict_item [("on", json_type_action "start"); ("off", json_type_action "stop")] option_action;
  except_Exception
    (plug ← opt_show "--plug";
     vpc_send_command ("instances/" +:+ plug +:+ "/actions?version=2021-05-25&generation=2") "POST" action 201 ;;
     mret tt)
    (λ e, log DEBUG ("Failed: Unable to set power to " +:+ option_action +:+ " for " +:+ exn_str e) ;;
          fail EC_STATUS true).

Definition token_path : M (curl * D) string :=
  apikey ← opt_str "--apikey";
  file ← opt_str "--token-file";
  mret (replace "[hash]" (sha256_hex apikey) file).

Definition make_dir (path : string) : M (curl * D) unit :=
  isdir ← host_test h_isdir (dirname path);
  mwhen (negb isdir) (makedirs (dirname path)).

(** A new file for the token. *)
Definition create_token_file (path : string) : M (curl * D) unit := λ s,
  let '(error, d) := f_create path (f_remove path (s_dev s)) in
  match error with
  | None => (Ret tt, set_dev d s)
  | Some (there, msg) =>
      ((log ERROR ((if (there : bool) then "Failed: File already exists: " else "Failed: Unable to open file: ") +:+ msg) ;;
        sys_exit EC_GENERIC_ERROR) (set_dev d s))
  end.

Definition write_token_file (path token : string) : M (curl * D) unit := λ s,
  match h_writefile path token (s_dev s) with
  | Some d => (Ret tt, set_dev d s)
  | None => (Raise (OSError path), s)
  end.

Definition get_bearer_token : M (curl * D) json :=
  path ← token_path;
  make_dir path ;;
  create_token_file path ;;
  token ← except_Exception
    (setopt "HTTPHEADER" (VList ["Content-Type: application/x-www-form-urlencoded"; "User-Agent: curl"]) ;;
     apikey ← opt_show "--apikey";
     res ← vpc_send_command "https://iam.cloud.ibm.com/identity/token" "POST"
       ("grant_type=urn:ibm:params:oauth:grant-type:apikey&apikey=" +:+ apikey) 200;
     json_item res "access_token")
    (λ e, log ERROR ("Failed: Unable to authenticate: " +:+ exn_str e) ;; fails EC_LOGIN_DENIED);
  n ← json_length token;
  mwhen (bool_decide (n = 0)%nat) (fail EC_LOGIN_DENIED true) ;;
  match token with
  | JStr text => write_token_file path text
  | _ => raise (TypeError ("write() argument must be str, not " +:+ json_type token))
  end ;;
  mret token.

Definition set_bearer_token (token : string) : M (curl * D) unit :=
  setopt "HTTPHEADER" (VList ["Content-Type: application/json"; "Authorization: Bearer " +:+ token; "User-Agent: curl"]).

Definition fresh_token : M (curl * D) string := token ← get_bearer_token; mret (show_json token).

(** The token of the file, or a new one; if the service does not like it, a new one. *)
Definition vpc_connect : M (curl * D) unit :=
  set_globals no_curl ;;
  region ← opt_str "--region";
  set_base_url ("https://" +:+ region +:+ ".iaas.cloud.ibm.com/v1/") ;;
  verbose ← verbose_over 1;
  mwhen verbose (setopt "VERBOSE" (VInt 1)) ;;
  t ← opt_int "--shell-timeout";
  setopt "TIMEOUT" (VInt t) ;;
  setopt "SSL_VERIFYPEER" (VInt 1) ;;
  setopt "SSL_VERIFYHOST" (VInt 2) ;;
  proxy ← opt_show "--proxy";
  setopt "PROXY" (VStr proxy) ;;
  path ← token_path;
  s ← get_st;
  token ← (match h_readfile (s_dev s) path with
           | Some text => mret text
           | None => fresh_token
           end);
  set_bearer_token token ;;
  except_Exception
    (vpc_send_command "instances?version=2021-05-25&generation=2&limit=1" "GET" "" 200 ;; mret tt)
    (λ e, log WARNING "Failed to login/connect. Updating bearer-token." ;;
          token ← fresh_token;
          set_bearer_token token).

(** A key that names a file is replaced by what the file holds. *)
Definition vpc_api_key : M (curl * D) unit :=
  apikey ← opt_str "--apikey";
  file ← names_a_file apikey;
  if (file : bool) then
    let key_file := String.substring 1 (String.length apikey - 1) apikey in
    text ← read_or_missing key_file;
    match text with
    | Some text => key ← api_key_of text; opt_set "--apikey" (option_of_json key)
    | None => log ERROR ("Failed: Cannot open file " +:+ key_file) ;; sys_exit EC_BAD_ARGS
    end
  else mret tt.
End Vpc.

(** ** Options and documentation *)

Definition powervs_opts : list (string * optdef) := [
  ("token", opt [Getopt ":";
     Longopt "token";
     Help "--token=[token]                API Token";
     Required "1";
     Shortdesc "API Token";
     Order 0]);
  ("crn", opt [Getopt ":";
     Longopt "crn";
     Help "--crn=[crn]                    CRN";
     Required "1";
     Shortdesc "CRN";
     Order 0]);
  ("instance", opt [Getopt ":";
     Longopt "instance";
     Help "--instance=[instance]          PowerVS Instance";
     Required "1";
     Shortdesc "PowerVS Instance";
     Order 0]);
  ("region", opt [Getopt ":";
     Longopt "region";
     Help "--region=[region]              Region";
     Required "1";
     Shortdesc "Region";
     Order 0]);
  ("api-type", opt [Getopt ":";
     Longopt "api-type";
     Help "--api-type=[private|public]          API-type: 'private' (default) or 'public'";
     Required "0";
     Shortdesc "API-type (private|public)";
     Default (VStr "private");
     Order 0]);
  ("proxy", opt [Getopt ":";
     Longopt "proxy";
     Help "--proxy=[http://<URL>:<PORT>]          Proxy: 'http://<URL>:<PORT>'";
     Required "0";
     Shortdesc "Network proxy";
     Order 0])
].

Definition vpc_opts : list (string * optdef) := [
  ("apikey", opt [Getopt ":";
     Longopt "apikey";
     Help "--apikey=[key]                 API Key";
     Required "1";
     Shortdesc "API Key";
     Order 0]);
  ("region", opt [Getopt ":";
     Longopt "region";
     Help "--region=[region]              Region";
     Required "1";
     Shortdesc "Region";
     Order 0]);
  ("proxy", opt [Getopt ":";
     Longopt "proxy";
     Help "--proxy=[http://<URL>:<PORT>]  Proxy: 'http://<URL>:<PORT>'";
     Required "0";
     Default (VStr "");
     Shortdesc "Network proxy";
     Order 0]);
  ("limit", opt [Getopt ":";
     Longopt "limit";
     Help "--limit=[number]               Limit number of nodes returned by API";
     Required "0";
     Default (VInt 50);
     Shortdesc "Number of nodes returned by API";
     Order 0]);
  ("token_file", opt [Getopt ":";
     Longopt "token-file";
     Help ("--token-file=[path]            Path to the token cache file" +:+ nl +:+ "				  (Default: @FENCETMPDIR@/fence_ibm_vpc/[hash].token)" +:+ nl +:+ "				  [hash] will be replaced by a hashed value");
     Required "0";
     Default (VStr "@FENCETMPDIR@/fence_ibm_vpc/[hash].token");
     Shortdesc "Path to the token cache file";
     Order 0])
].

Definition powervs_docs : docs := Docs
  ("fence_ibm_powervs is a power fencing agent for IBM Power Virtual Server (IBM PowerVS) to fence virtual server instances.")
  ("Fence agent for IBM PowerVS") (Some ("https://www.ibm.com")) [] None.

Definition vpc_docs : docs := Docs
  ("fence_ibm_vpc is a Power Fencing agent which can be used with IBM Cloud VPC to fence virtual machines.")
  ("Fence agent for IBM Cloud VPC") (Some ("https://www.ibm.com")) [] None.

(** ** The programs *)

Section Mains.
Context {D : Type} `{Host D, Pycurl D}.

Definition fence_ibm_powervs_main (fuel : nat) (time_start : Z) (inv : invocation)
    (set_order : list string → list string) : M (curl * D) unit :=
  add_options powervs_opts ;;
  allopt_set "shell_timeout" (Default (VStr "500")) ;;
  allopt_set "power_timeout" (Default (VStr "120")) ;;
  allopt_set "power_wait" (Default (VStr "15")) ;;
  allopt_set "stonith_status_sleep" (Default (VStr "10")) ;;
  allopt_set "proxy" (Default (VStr "")) ;;
  checked_options inv
    ["token"; "crn"; "instance"; "region"; "api-type"; "proxy"; "port"; "no_password"; "method"] ;;
  show_docs (inv_prog inv) set_order (Some powervs_docs) ;;
  run_delay time_start 0 0 ;;
  auth_connect ;;
  token ← get_token;
  close_handle ;;
  powervs_connect token ;;
  finally
    (result ← fence_action fuel (Some powervs_set_power_status) (Some powervs_get_power_status)
                (Some powervs_get_list) (Some powervs_reboot_cycle) None;
     sys_exit result)
    close_handle.

Definition fence_ibm_vpc_main `{TokenFiles D} (fuel : nat) (time_start : Z) (inv : invocation)
    (set_order : list string → list string) : M (curl * D) unit :=
  add_options vpc_opts ;;
  allopt_set "shell_timeout" (Default (VStr "15")) ;;
  allopt_set "power_timeout" (Default (VStr "30")) ;;
  allopt_set "power_wait" (Default (VStr "1")) ;;
  checked_options inv ["apikey"; "region"; "proxy"; "limit"; "token_file"; "port"; "no_password"] ;;
  show_docs (inv_prog inv) set_order (Some vpc_docs) ;;
  run_delay time_start 0 0 ;;
  vpc_api_key ;;
  vpc_connect ;;
  finally
    (result ← fence_action fuel (Some vpc_set_power_status) (Some vpc_get_power_status)
                (Some vpc_get_list) None None;
     sys_exit result)
    close_handle.
End Mains.
