(* ===== verification/RequestsAgents.v ===== *)
(** * Agents that ask with requests and with http.client: fence_redfish, fence_ecloud,
    fence_skalar and fence_eps

    [agents/redfish/fence_redfish.py], [agents/ecloud/fence_ecloud.py],
    [agents/skalar/fence_skalar.py] and [agents/eps/fence_eps.py]. What a request gives is
    a class, as for pycurl; for the exchanges of http.client see class [HttpClient]. The
    traceback that [logging.exception] adds to its message is left out. *)

From S2P Require Import Prelude PyStr PyRe OptionDefs Effects Fail Host Input Process CheckInput.
From S2P Require Import Login Metadata Action Ipmilan Console MenuAgents TableAgents SnmpAgents.
From S2P Require Import Json Globals Http WebAgents ServiceAgents.

Local Open Scope string_scope.

(** ** The libraries *)

Record request := Request {
  rq_headers : list (string * string);
  rq_params : list (string * string);
  rq_data : option string;
  rq_verify : bool;
  rq_auth : option (string * string);
  rq_cookies : list (string * string)
}.

Record response := Response {
  status_code : Z;
  r_text : string;
  r_cookies : list (string * string)
}.

(** A method, an address and a request; the message of a RequestException, which is an
    OSError, or the answer. *)
Class Requests (D : Type) := {
  r_request : string → string → request → D → (string + response) * D;
  (** What Python prints for the literal of a float. *)
  float_text : string → string
}.

#[export] Instance lift_requests {G D} `{Requests D} : Requests (G * D) := {|
  r_request method url rq := lift_op (r_request method url rq);
  float_text := float_text (D := D)
|}.

Section Request.
Context {D : Type} `{Requests D}.

Definition requests_do (method url : string) (rq : request) : M D response := λ s,
  match r_request method url rq (s_dev s) with
  | (inl msg, d) => (Raise (OSError msg), set_dev d s)
  | (inr r, d) => (Ret r, set_dev d s)
  end.

(** [resp.json()] *)
Definition resp_json (r : response) : M D json := loads (r_text r).

Definition shown (v : json) : string := json_str float_text v.
End Request.

(** ** fence_redfish *)

Section Redfish.
Context {D : Type} `{Requests D}.

Definition GET_HEADERS : list (string * string) :=
  [("accept", "application/json"); ("OData-Version", "4.0")].
Definition POST_HEADERS : list (string * string) := ("content-type", "application/json") :: GET_HEADERS.

Definition full_uri (uri : string) : M D string :=
  ip ← opt_str "--ip"; ipport ← opt_show "--ipport"; mret ("https://" +:+ ip +:+ ":" +:+ ipport +:+ uri).

Definition redfish_request (headers : list (string * string)) (data : option string) : M D request :=
  insecure ← opt_has "--ssl-insecure";
  username ← opt_str "--username";
  password ← opt_str "--password";
  mret (Request headers [] data (negb insecure) (Some (username, password)) []).

(** The dictionary returned always says that there are data. *)
Definition send_get_request (uri : string) : M D json :=
  url ← full_uri uri;
  except_Exception
    (rq ← redfish_request GET_HEADERS None; resp ← requests_do "GET" url rq; resp_json resp)
    (λ e, fail_usage ("Failed: send_get_request: " +:+ exn_str e) true ;; unassigned "data").

Definition send_post_request (uri : string) (payload : json) : M D unit :=
  url ← full_uri uri;
  except_Exception
    (rq ← redfish_request POST_HEADERS (Some (json_dumps float_text payload));
     requests_do "POST" url rq ;; mret tt)
    (λ e, fail_usage ("Failed: send_post_request: " +:+ exn_str e) true).

Definition redfish_get_power_status : M D pyval :=
  uri ← opt_str "--systems-uri";
  data ← send_get_request uri;
  except_Exception
    (state ← json_item data "PowerState"; text ← json_concat state;
     log DEBUG ("PowerState is: " +:+ text))
    (λ _, ip ← opt_str "--ip"; ipport ← opt_show "--ipport"; uri ← opt_str "--systems-uri";
          fail_usage ("Unable to get PowerState: https://" +:+ ip +:+ ":" +:+ ipport +:+ uri) true) ;;
  state ← json_item data "PowerState";
  text ← json_concat state;
  mret (VStr (if decide (strip text = "Off") then "off" else "on")).

(** [options.get("original-action") or options["--action"]] *)
Definition redfish_action : M D string :=
  original ← opt_find "original-action";
  match original with
  | Some v => if truthy v then mret (py_str v) else opt_show "--action"
  | None => opt_show "--action"
  end.

(** Only as a reboot, for the action diag, is the result used, and it is true. *)
Definition redfish_set_power_status : M D bool :=
  action ← redfish_action;
  action ← dict_item [("on", "On"); ("off", "ForceOff"); ("reboot", "ForceRestart"); ("diag", "Nmi")] action;
  uri ← opt_str "--systems-uri";
  data ← send_get_request uri;
  actions ← json_item data "Actions";
  reset ← json_item actions "#ComputerSystem.Reset";
  target ← json_item reset "target";
  action_uri ← json_concat target;
  send_post_request action_uri (JDict [("ResetType", JStr action)]) ;;
  original ← opt_find "original-action";
  mret (bool_decide (original = Some (VStr "diag"))).

(** The last member of the systems; [None] when the service has none. *)
Definition find_systems_resource : M D (option pyval) :=
  uri ← opt_str "--redfish-uri";
  data ← send_get_request uri;
  there ← json_in "Systems" data;
  if negb there then mret None
  else
    systems ← json_item data "Systems";
    id ← json_item systems "@odata.id";
    uri ← json_concat id;
    data ← send_get_request uri;
    members ← json_item data "Members";
    l ← json_iter members;
    uri ← mfold (λ _ member, x ← json_item member "@odata.id"; mret (Some x)) None l;
    match uri with
    | Some v => mret (Some (option_of_json v))
    | None => unassigned "system_uri"
    end.

(** [<ip>:<port>] in the address *)
Definition split_address : M D unit :=
  ip ← opt_str "--ip";
  match split_go ":" ip 0 with
  | [host; port] => opt_set "--ip" (VStr host) ;; opt_set "--ipport" (VStr port)
  | _ => mret tt
  end.

Definition systems_uri (opt : gmap string pyval) : M D unit :=
  if bool_decide (is_Some (opt !! "--systems-uri")) then mret tt
  else
    uri ← find_systems_resource;
    match uri with
    | Some uri => opt_set "--systems-uri" uri
    | None => sys_exit 1
    end.

(** The action diag is run as a reboot by cycle. *)
Definition diag_as_reboot : M D (option (M D bool)) :=
  action ← opt_get "--action";
  if decide (action = VStr "diag") then
    opt_set "original-action" action ;;
    opt_set "--action" (VStr "reboot") ;;
    opt_set "--method" (VStr "cycle") ;;
    mret (Some redfish_set_power_status)
  else mret None.
End Redfish.

(** ** fence_ecloud *)

Section Ecloud.
Context {D : Type} `{Requests D}.

Definition API_BASE : string := "https://api.ukfast.io/ecloud".

(** [url.replace(':ID', plug)] in an address of either version *)
Definition api_url (vpc : bool) (plug rest : string) : string :=
  replace ":ID" plug (API_BASE +:+ (if vpc then "/v2/instances/:ID" else "/v1/vms/:ID") +:+ rest).

Definition ecloud_vpc : M D bool := v ← opt_get "--ecloud-vpc"; mret (truthy v).

Definition ecloud_headers : M D (list (string * string)) :=
  apikey ← opt_show "--apikey"; mret [("Authorization", apikey); ("User-Agent", "fence_ecloud")].

Definition fence_url (vpc : bool) (action plug : string) : M D string :=
  if decide (action = "on") then mret (api_url vpc plug "/power-on")
  else if decide (action = "off") then mret (api_url vpc plug "/power-off")
  else fail_usage ("no available API configured for action '" +:+ action +:+ "'") true ;; unassigned "url".

Definition unexpected_status (code url text : string) : M D unit :=
  log ERROR ("unexpected status code " +:+ code +:+ " from endpoint '" +:+ url +:+ "': " +:+ text).

(** A conflict, while a former task still runs, is tried again after two seconds, [left]
    times. The message of the failure has a field that the arguments of logging do not
    fill, so that it is not logged. *)
Fixpoint put_request (left : nat) (url : string) (rq : request) : M D unit :=
  resp ← requests_do "PUT" url rq;
  if decide (status_code resp = 409)%Z then
    match left with
    | O => fail EC_TIMED_OUT true
    | S k => sleep 2 ;; put_request k url rq
    end
  else
    mwhen (negb (bool_decide (status_code resp = 202)%Z))
      (unexpected_status ("'" +:+ str_of_Z (status_code resp) +:+ "'") url (r_text resp)).

Definition ecloud_set_power : M D unit :=
  action ← opt_show "--action";
  log DEBUG ("setting power " +:+ action) ;;
  vpc ← ecloud_vpc;
  plug ← opt_str "--plug";
  url ← fence_url vpc action plug;
  hdrs ← ecloud_headers;
  log INFO ("executing '" +:+ action +:+ "' action on '" +:+ plug +:+ "'") ;;
  put_request 6 url (Request hdrs [] None true None []).

Definition ecloud_get_power : M D pyval :=
  log DEBUG "getting power state" ;;
  vpc ← ecloud_vpc;
  plug ← opt_str "--plug";
  let url := api_url vpc plug "" in
  hdrs ← ecloud_headers;
  resp ← requests_do "GET" url (Request hdrs [] None true None []);
  if decide (status_code resp = 200)%Z then
    answer ← resp_json resp;
    instance ← json_item answer "data";
    if vpc then
      online ← json_item instance "online";
      log DEBUG ("power state return value: " +:+ shown online) ;;
      mret (VStr (if json_truthy online then "on" else "off"))
    else
      status ← json_item instance "power_status";
      mret (match status with
            | JStr "Online" => VStr "on"
            | JStr "Offline" => VStr "off"
            | v => option_of_json v
            end)
  else
    unexpected_status ("('" +:+ str_of_Z (status_code resp) +:+ "')") url (r_text resp) ;;
    mret (VStr ("bad status " +:+ str_of_Z (status_code resp))).

(** An identifier of an instance of the newer version begins with [i-]. *)
Definition ecloud_version : M D unit :=
  action ← opt_get "--action";
  mwhen (bool_decide (action ∈ [VStr "on"; VStr "off"; VStr "reboot"; VStr "status"]))
    (plug ← opt_str "--plug";
     opt_set "--ecloud-vpc" (VInt (if startswith "i-" plug then 1 else 0))).
End Ecloud.

(** ** fence_skalar *)

(** The globals of the module. *)
Record skalar := Skalar {
  sk_cookie : list (string * string);
  sk_proto : string;
  ssl_verify : bool
}.

Definition text_dict_repr (d : list (string * string)) : string :=
  "{" +:+ join ", " (map (λ kv, py_repr kv.1 +:+ ": " +:+ py_repr kv.2) d) +:+ "}".

(** [sort_keys=True] *)
Fixpoint sort_keys (v : json) : json :=
  match v with
  | JList l => JList (map sort_keys l)
  | JDict d => JDict (stable_sort (λ x y, str_leb x.1 y.1) (map (λ kv, (kv.1, sort_keys kv.2)) d))
  | _ => v
  end.

Definition wrong_parameters : list string :=
  ["Wrong parameters! ";
   "command(str) – Command for vm: ‘vm_start’, ‘vm_stop’, ";
   "‘vm_restart’,‘vm_suspend’, ‘vm_resume’, ‘vm_pause’, ‘vm_reset’ ";
   "graceful(bool) – vm_stop command parameter, graceful or not, default false ";
   "force(bool) – vm_stop command parameter, force stop or not, default false ";
   ""].

Section Skalar.
Context {D : Type} `{Requests D}.

Definition skalar_request (method url : string) (params : list (string * string)) (data : option string)
    : M (skalar * D) response :=
  g ← globals;
  requests_do method url (Request [] params data (ssl_verify g) None (sk_cookie g)).

(** The cookies of the session must hold a token. *)
Definition authorize_and_get_cookie (ip login password : string) : M (skalar * D) unit :=
  g ← globals;
  cookie ← try_except
    (resp ← skalar_request "POST" (sk_proto g +:+ ip +:+ "/api/0/auth") []
              (Some (urlencode [("login", login); ("password", password)]));
     mret (r_cookies resp))
    (λ _, Some (log ERROR "Exception occured." ;; fails EC_LOGIN_DENIED));
  if bool_decide (is_Some (dict_get "api_token" cookie))
  then set_globals (Skalar cookie (sk_proto g) (ssl_verify g))
  else fail EC_LOGIN_DENIED true.

Definition skalar_logout (ip : string) : M (skalar * D) unit :=
  try_except
    (g ← globals; skalar_request "POST" (sk_proto g +:+ ip +:+ "/api/0/logout") [] None ;; mret tt)
    (λ _, Some (mret tt)).

(** The first machine with a uuid; none is a NameError. *)
Definition machine_by_uuid (path uuid : string) : M (skalar * D) json :=
  g ← globals;
  ip ← opt_show "--ip";
  resp ← skalar_request "GET" (sk_proto g +:+ ip +:+ path) [("uuid", uuid)] None;
  info ← resp_json resp;
  vms ← json_item info "vm_list";
  items ← json_item vms "items";
  match items with
  | JList [] => raise (OtherError "Can not find VM by uuid.")
  | _ =>
      again ← resp_json resp;
      log DEBUG ("VM_INFO:" +:+ nl +:+ json_dumps_indent float_text 4 (sort_keys again)) ;;
      json_nth items 0
  end.

Definition get_vm_id (uuid : string) : M (skalar * D) json :=
  vm ← machine_by_uuid "/api/0/vm" uuid; json_item vm "vm_id".

Definition bool_text (b : bool) : string := if b then "True" else "False".

(** An identifier that is not a number is reported, and then the parameters are missing. *)
Definition vm_task (vm_id : json) (command : string) : M (skalar * D) unit :=
  graceful ← opt_has "--graceful";
  force ← opt_has "--force";
  g ← globals;
  ip ← opt_show "--ip";
  log DEBUG ("vm_task skala_ip: " +:+ ip) ;;
  log DEBUG ("vm_task vm_id: " +:+ shown vm_id) ;;
  log DEBUG ("vm_task command: " +:+ command) ;;
  log DEBUG ("vm_task cookie: " +:+ text_dict_repr (sk_cookie g)) ;;
  match vm_id with
  | JInt _ =>
      resp ← skalar_request "POST" (sk_proto g +:+ ip +:+ "/api/0/vm/" +:+ shown vm_id +:+ "/task")
        [("command", command); ("graceful", bool_text graceful); ("force", bool_text force)] None;
      mwhen (negb (bool_decide (status_code resp = 200)%Z))
        (raise (OtherError ("Invalid response code from server: " +:+ str_of_Z (status_code resp) +:+ ".")))
  | _ => mfor wrong_parameters py_print ;; unassigned "parameters"
  end.

Definition skalar_states : list (string * string) :=
  [("RUNNING", "on"); ("PAUSED", "on"); ("STOPPED", "off"); ("SUSPENDED", "off"); ("ERROR", "off");
   ("DELETED", "off"); ("CREATING", "off"); ("FAILED_TO_CREATE", "off"); ("NODE_OFFLINE", "off");
   ("STARTING", "off"); ("STOPPING", "on")].

Definition skalar_get_power_status : M (skalar * D) pyval :=
  plug ← opt_show "--plug";
  vm ← machine_by_uuid "/api/0/vm/" plug;
  status ← json_item vm "status";
  match status with
  | JStr s =>
      match dict_get s skalar_states with
      | Some state => mret (VStr state)
      | None => raise (OtherError ("Unknown VM state: " +:+ s +:+ "."))
      end
  | JList _ | JDict _ => raise (TypeError ("unhashable type: '" +:+ json_type status +:+ "'"))
  | _ => raise (OtherError ("Unknown VM state: " +:+ shown status +:+ "."))
  end.

Definition skalar_set_power_status : M (skalar * D) unit :=
  plug ← opt_show "--plug";
  vm_id ← get_vm_id plug;
  action ← opt_str "--action";
  command ← dict_item [("on", "vm_start"); ("reboot", "vm_restart"); ("off", "vm_stop")] action;
  vm_task vm_id command.

Definition skalar_outlet (os : outlets) (elem : json) : M (skalar * D) outlets :=
  uuid ← json_item elem "uuid";
  name ← json_item elem "name";
  key ← json_key name;
  mret (dict_insert key (shown uuid, None) os).

Definition skalar_get_list : M (skalar * D) outlets :=
  g ← globals;
  ip ← opt_str "--ip";
  resp ← skalar_request "GET" (sk_proto g +:+ ip +:+ "/api/0/vm") [] None;
  info ← resp_json resp;
  vms ← json_item info "vm_list";
  items ← json_item vms "items";
  l ← json_iter items;
  mfold skalar_outlet [] l.

(** The protocol and whether certificates are looked at. *)
Definition skalar_proto : M (skalar * D) unit :=
  secure ← opt_has "--ssl-secure";
  insecure ← opt_has "--ssl-insecure";
  set_globals (if (secure : bool) then Skalar [] "https://" true
               else if (insecure : bool) then Skalar [] "https://" false
               else Skalar [] "http://" false).
End Skalar.

(** ** fence_eps *)

(** The library http.client: [HTTPConnection(host)] refuses some hosts; an exchange raises,
    or gives the status, the reason and then the body. *)
Class HttpClient (D : Type) := {
  hc_refuses : string → option exn;
  hc_exchange : string → string → list (string * string) → D →
                (exn + (Z * string * (exn + string))) * D
}.

(** [base64.encodebytes]: 57 bytes make one line. *)
Definition base64_digit (n : Z) : ascii :=
  default "="%char (String.list_ascii_of_string
    "ABCDEFGHIJKLMNOPQRSTUVWXYZabcdefghijklmnopqrstuvwxyz0123456789+/" !! Z.to_nat n).

Fixpoint base64_groups (l : list Z) : string :=
  match l with
  | [] => ""
  | [a] => String (base64_digit (Z.shiftr a 2))
             (String (base64_digit (Z.shiftl (Z.land a 3) 4)) "==")
  | [a; b] => String (base64_digit (Z.shiftr a 2))
                (String (base64_digit (Z.lor (Z.shiftl (Z.land a 3) 4) (Z.shiftr b 4)))
                   (String (base64_digit (Z.shiftl (Z.land b 15) 2)) "="))
  | a :: b :: c :: l' =>
      String (base64_digit (Z.shiftr a 2))
        (String (base64_digit (Z.lor (Z.shiftl (Z.land a 3) 4) (Z.shiftr b 4)))
           (String (base64_digit (Z.lor (Z.shiftl (Z.land b 15) 2) (Z.shiftr c 6)))
              (String (base64_digit (Z.land c 63)) (base64_groups l'))))
  end.

Fixpoint base64_lines (n : nat) (l : list Z) : string :=
  match n, l with
  | S n', _ :: _ => base64_groups (take 57 l) +:+ nl +:+ base64_lines n' (drop 57 l)
  | _, _ => ""
  end.

Definition encodebytes (s : string) : string :=
  let l := map ord (String.list_ascii_of_string s) in base64_lines (length l) l.

Definition basic_authorization (username password : string) : string :=
  "Basic " +:+ strip (encodebytes (username +:+ ":" +:+ password)).

(** [putrequest] takes no space and no control character in the target. *)
Definition target_forbidden (c : ascii) : bool := ((ord c <=? 32) || (ord c =? 127))%Z.

Definition putrequest {D} (target : string) : M D unit :=
  match list_find (λ c, target_forbidden c = true) (String.list_ascii_of_string target) with
  | Some (_, c) =>
      raise (OtherError ("URL can't contain control characters. " +:+ py_repr target +:+
                         " (found at least " +:+ py_repr (str1 c) +:+ ")"))
  | None => encode_ascii target ;; mret tt
  end.

(** [putheader] takes no newline in a value unless a space follows, and no carriage return. *)
Fixpoint illegal_value (s : string) : bool :=
  match s with
  | "" => false
  | String c t =>
      (bool_decide (c = NL) && negb (startswith " " t || startswith tab t)) ||
      (bool_decide (c = CR) && negb (startswith " " t || startswith tab t || startswith nl t)) ||
      illegal_value t
  end.

Definition putheader {D} (value : string) : M D unit :=
  mwhen (illegal_value value) (raise (ValueError ("Invalid header value " +:+ bytes_repr value))).

(** [decode("utf-8", "ignore")] *)
Definition byte_between (a b : Z) (c : ascii) : bool := ((a <=? ord c) && (ord c <=? b))%Z.

Definition second_byte (c c1 : ascii) : bool :=
  if decide (ord c = 224)%Z then byte_between 160 191 c1
  else if decide (ord c = 237)%Z then byte_between 128 159 c1
  else if decide (ord c = 240)%Z then byte_between 144 191 c1
  else if decide (ord c = 244)%Z then byte_between 128 143 c1
  else byte_between 128 191 c1.

Fixpoint utf8_ignore (s : string) : string :=
  match s with
  | "" => ""
  | String c t =>
      if byte_between 0 127 c then String c (utf8_ignore t)
      else
        match t with
        | String c1 t1 =>
            if byte_between 194 223 c && second_byte c c1
            then String c (String c1 (utf8_ignore t1))
            else
              match t1 with
              | String c2 t2 =>
                  if byte_between 224 239 c && second_byte c c1 && byte_between 128 191 c2
                  then String c (String c1 (String c2 (utf8_ignore t2)))
                  else
                    match t2 with
                    | String c3 t3 =>
                        if byte_between 240 244 c && second_byte c c1 && byte_between 128 191 c2
                           && byte_between 128 191 c3
                        then String c (String c1 (String c2 (String c3 (utf8_ignore t3))))
                        else utf8_ignore t
                    | "" => utf8_ignore t
                    end
              | "" => utf8_ignore t
              end
        | "" => utf8_ignore t
        end
  end.

Section Eps.
Context {D : Type} `{HttpClient D}.
(** [os.path.basename(sys.argv[0])] *)
Variable program : string.

Definition exchange (host target : string) (headers : list (string * string))
    : M D (Z * string * (exn + string)) := λ s,
  match hc_exchange host target headers (s_dev s) with
  | (inl e, d) => (Raise e, set_dev d s)
  | (inr r, d) => (Ret r, set_dev d s)
  end.

Definition socket_errors (e : exn) : option (M D string) :=
  match e with
  | SocketTimeout _ => Some (fails EC_TIMED_OUT)
  | OSError msg => Some (log ERROR ("Failed: " +:+ msg) ;; fails EC_LOGIN_DENIED)
  | _ => None
  end.

(** The header with the credentials, when there is a user name. *)
Definition eps_headers : M D (list (string * string)) :=
  has_username ← opt_has "--username";
  if negb has_username then mret []
  else
    has_password ← opt_has "--password";
    mwhen (negb has_password) (opt_set "--password" (VStr "")) ;;
    username ← opt_str "--username";
    password ← opt_str "--password";
    let auth_str := basic_authorization username password in
    log DEBUG ("Authorization: " +:+ auth_str +:+ nl) ;;
    putheader auth_str ;;
    mret [("Authorization", auth_str)].

(** One connection per command, to the address alone. *)
Definition eps_run_command (params : string) : M D string :=
  result ← try_except
    (ip ← opt_str "--ip";
     match hc_refuses ip with Some e => raise e | None => mret tt end ;;
     page ← opt_str "--page";
     let request_str := "/" +:+ page +:+ (if decide (params = "") then "" else "?" +:+ params) in
     log DEBUG ("GET " +:+ request_str +:+ nl) ;;
     putrequest request_str ;;
     headers ← eps_headers;
     '(status, reason, body) ← exchange ip request_str headers;
     log DEBUG (str_of_Z status +:+ " " +:+ reason +:+ nl) ;;
     mwhen (negb (bool_decide (status = 200)%Z)) (fail EC_LOGIN_DENIED true) ;;
     result ← (match body with inl e => raise e | inr x => mret x end);
     log DEBUG (bytes_repr result +:+ " " +:+ nl) ;;
     mret result)
    socket_errors;
  mret (utf8_ignore result).

Definition eps_re : re :=
  Seqs [Lit "p"; Group 1 (Seq Digit Digit); Lit "="; Group 2 (Alt (Lit "0") (Lit "1"));
        Many Space; Lit "<br>"].
Definition epsr2_re : re :=
  Seqs [Lit "m0:o"; Group 1 Digit; Lit "="; Group 2 (Alt (Lit "on") (Lit "off")); Many Space].

Definition eps_outlet (os : outlets) (m : string * string) : outlets :=
  dict_insert m.1 ("", Some (if decide (program = "fence_eps")
                             then if decide (m.2 = "1") then "on" else "off" else m.2)) os.

(** The outlets of the page for a listing, else the state of the plug. *)
Definition eps_get_power_status : M D (pyval + outlets) :=
  ret_val ← eps_run_command "";
  status ← (if decide (program = "fence_eps") then mret (findall2 eps_re (lower ret_val))
            else if decide (program = "fence_epsr2") then mret (findall2 epsr2_re (lower ret_val))
            else unassigned "status");
  let result := foldl eps_outlet [] status in
  action ← opt_get "--action";
  if bool_decide (action ∈ [VStr "monitor"; VStr "list"]) then mret (inr result)
  else
    plug ← opt_str "--plug";
    match dict_get plug result with
    | Some (_, Some state) => mret (inl (VStr state))
    | _ => fail_usage "Failed: You have to enter existing physical plug!" true ;;
           mret (inl VNone)
    end.

Definition eps_set_power_status : M D unit :=
  if decide (program = "fence_eps") then
    plug ← opt_show "--plug";
    action ← opt_get "--action";
    eps_run_command ("P" +:+ plug +:+ "=" +:+ (if decide (action = VStr "on") then "1" else "0")) ;;
    mret tt
  else if decide (program = "fence_epsr2") then
    action ← opt_get "--action";
    mwhen (bool_decide (action = VStr "reboot")) (opt_set "--action" (VStr "off")) ;;
    plug ← opt_show "--plug";
    action ← opt_show "--action";
    eps_run_command ("M0:O" +:+ plug +:+ "=" +:+ action) ;;
    mret tt
  else mret tt.
End Eps.

(** ** Options and documentation *)

Definition redfish_opts : list (string * optdef) := [
  ("redfish-uri", opt [Getopt ":";
     Longopt "redfish-uri";
     Help "--redfish-uri=[uri]            Base or starting Redfish URI";
     Required "0";
     Default (VStr "/redfish/v1");
     Shortdesc "Base or starting Redfish URI";
     Order 1]);
  ("systems-uri", opt [Getopt ":";
     Longopt "systems-uri";
     Help "--systems-uri=[uri]            Redfish Systems resource URI";
     Required "0";
     Shortdesc "Redfish Systems resource URI, i.e. /redfish/v1/Systems/System.Embedded.1";
     Order 1])
].

Definition ecloud_opts : list (string * optdef) := [
  ("apikey", opt [Getopt ":";
     Longopt "apikey";
     Help "--apikey=[key]                 eCloud API Key";
     Required "1";
     Shortdesc "API Key";
     Order 0])
].

Definition skalar_opts : list (string * optdef) := [
  ("graceful", opt [Getopt "";
     Longopt "graceful";
     Help "--graceful                     vm_stop command parameter, graceful stop or not, default false";
     Required "0";
     Shortdesc "vm_stop command parameter, graceful stop or not, default false";
     Order 1]);
  ("force", opt [Getopt "";
     Longopt "force";
     Help "--force                        vm_stop command parameter, force stop or not, default false";
     Required "0";
     Shortdesc "vm_stop command parameter, force stop or not, default false";
     Order 1])
].

Definition eps_opts : list (string * optdef) := [
  ("hidden_page", opt [Getopt "c:";
     Longopt "page";
     Help "-c, --page=[page]              Name of hidden page (default: hidden.htm)";
     Required "0";
     Shortdesc "Name of hidden page";
     Default (VStr "hidden.htm");
     Order 1])
].


Definition redfish_docs : docs := Docs
  ("fence_redfish is a Power Fencing agent which can be used with Out-of-Band controllers that support Redfish APIs. These controllers provide remote access to control power on a server.")
  ("Power Fencing agent for Redfish") (Some ("http://www.dmtf.org")) [] None.

Definition ecloud_docs : docs := Docs
  ("fence_ecloud is a Power Fencing agent for use with the ANS eCloud platform which is compatible with eCloud VPC and eCloud v1.")
  ("Fence Agent for ANS eCloud") (Some ("https://www.ans.co.uk")) [] None.

Definition skalar_docs : docs := Docs
  ("fence_skalar is a Power Fencing agent for Skala-R.")
  ("Skala-R Fence agent") (Some ("https://www.skala-r.ru/")) [] None.


Definition eps_docs (prog : string) : docs := Docs
  (basename prog +:+ " is a Power Fencing agent which can be used with the ePowerSwitch 8M+ power switch to fence connected machines. It ONLY works on 8M+ devices, as they support the hidden page feature. " +:+ nl +:+ ".TP" +:+ nl +:+ "The agent works by connecting to the hidden page and pass the appropriate arguments to GET request. This means, that the hidden page feature must be enabled and properly configured. " +:+ nl +:+ ".TP" +:+ nl +:+ "NOTE: In most cases you want to use fence_epsr2, as fence_eps only works with older hardware.")
  "Fence agent for ePowerSwitch" (Some "https://www.neol.com")
  [("fence_epsr2", "Fence agent for ePowerSwitch R2 and newer")] (Some "fence_eps").

(** ** The programs *)

Section Mains.
Context {D : Type} `{Host D, Requests D}.
Variable fuel : nat.
Variable time_start : Z.
Variable inv : invocation.
Variable set_order : list string → list string.

Definition fence_redfish_main : M D unit :=
  add_options redfish_opts ;;
  '(avail_opt, opt) ← process_input inv
    ["ipaddr"; "login"; "passwd"; "redfish-uri"; "systems-uri"; "ssl"; "diag"];
  allopt_set "ssl" (Default (VStr "1")) ;;
  check_input (inv_env inv) avail_opt opt false ;;
  show_docs (inv_prog inv) set_order (Some redfish_docs) ;;
  run_delay time_start 0 0 ;;
  split_address ;;
  systems_uri opt ;;
  reboot_fn ← diag_as_reboot;
  result ← fence_action fuel (Some (redfish_set_power_status ;; mret tt))
             (Some redfish_get_power_status) None reboot_fn None;
  sys_exit result.

(** The result of the action is not handed to [sys.exit]. *)
Definition fence_ecloud_main : M D unit :=
  add_options ecloud_opts ;;
  allopt_set "port" (Help "-n, --plug=[instance]          Instance ID (VPC) or server ID (v1)") ;;
  checked_options inv ["apikey"; "port"; "no_login"; "no_password"] ;;
  show_docs (inv_prog inv) set_order (Some ecloud_docs) ;;
  ecloud_version ;;
  run_delay time_start 0 0 ;;
  fence_action fuel (Some ecloud_set_power) (Some ecloud_get_power) None None None ;;
  mret tt.

Definition fence_skalar_main : M (skalar * D) unit :=
  add_options skalar_opts ;;
  checked_options inv
    ["ipaddr"; "login"; "passwd"; "port"; "web"; "ssl"; "verbose"; "graceful"; "force"] ;;
  show_docs (inv_prog inv) set_order (Some skalar_docs) ;;
  opt_set "eol" (VStr (str1 CR)) ;;
  run_delay time_start 0 0 ;;
  skalar_proto ;;
  ip ← opt_show "--ip";
  username ← opt_show "--username";
  password ← opt_show "--password";
  authorize_and_get_cookie ip username password ;;
  finally
    (options ← options_repr;
     log DEBUG ("OPTIONS: " +:+ options +:+ nl) ;;
     except_Exception
       (result ← fence_action fuel (Some skalar_set_power_status) (Some skalar_get_power_status)
                   (Some skalar_get_list) None None;
        sys_exit result)
       (λ _, log ERROR "Exception occured." ;; fail EC_STATUS true))
    (skalar_logout ip).
End Mains.

Section EpsMain.
Context {D : Type} `{Host D, HttpClient D}.

Definition fence_eps_main (fuel : nat) (time_start : Z) (inv : invocation)
    (set_order : list string → list string) : M D unit :=
  let program := basename (inv_prog inv) in
  add_options eps_opts ;;
  checked_options inv
    ["ipaddr"; "login"; "passwd"; "no_login"; "no_password"; "port"; "hidden_page"; "web"] ;;
  show_docs (inv_prog inv) set_order (Some (eps_docs (inv_prog inv))) ;;
  run_delay time_start 0 0 ;;
  result ← fence_action fuel (Some (eps_set_power_status program))
             (Some (as_status (eps_get_power_status program)))
             (Some (as_outlets (eps_get_power_status program))) None None;
  sys_exit result.
End EpsMain.
