(* ===== verification/WebSpec.v ===== *)
(** * Agents on services of JSON

    fence_shelly_gen2 switches exactly the requested outlets; the listing of
    fence_hetzner_cloud has every machine. *)

From S2P Require Import Prelude PyStr PyRe OptionDefs Effects Fail Host Input Process Login.
From S2P Require Import Metadata MetadataSpec Action Power PowerSpec TextFacts Globals Console.
From S2P Require Import ConsoleAgents MoonshotSpec Json JsonSpec Http WebAgents.

Local Open Scope string_scope.

(** ** Requests *)

(** What the last [setopt] of a name set. *)
Definition last_setting (name : string) (o : curl_settings) : option pyval :=
  foldl (λ acc kv, if decide (kv.1 = name) then Some kv.2 else acc) None o.

Lemma last_setting_app name o k v :
  last_setting name (o ++ [(k, v)])%list = if decide (k = name) then Some v else last_setting name o.
Proof. unfold last_setting. by rewrite foldl_app. Qed.

Definition rpc_request (method : string) (plug : string) (output : option bool) : json :=
  JDict [("id", JInt 1); ("method", JStr method);
         ("params", JDict (("id", JStr plug) ::
            match output with Some b => [("on", JBool b)] | None => [] end))].

Lemma plain_rpc_request method plug output :
  all_chars ascii_char method = true → all_chars ascii_char plug = true →
  plain (rpc_request method plug output) = true.
Proof. intros Hm Hp. destruct output as [b|]; cbn; by rewrite Hm, Hp. Qed.

(** An answer that tells the state of a switch. *)
Definition reports (b : bool) (answer : json) : Prop :=
  plain answer = true ∧ ∃ r d key,
    answer = JDict r ∧ key = (if decide (is_Some (dict_get "params" r)) then "params" else "result") ∧
    dict_get key r = Some (JDict d) ∧ dict_get "output" d = Some (JBool b).

(** A service of JSON at an address: [view] is what can be known of it, [reply] the answer
    to a request and [step] what the request does. *)
Class JsonService {D V : Type} `{Pycurl D} (url : string) (idle : D → Prop) (view : D → V)
    (reply : V → json → json) (step : V → json → V) : Prop := {
  serve_request : ∀ o d v, idle d → plain v = true →
    last_setting "URL" o = Some (VStr url) →
    last_setting "POSTFIELDS" o = Some (VStr (json_dumps float_repr v)) →
    ∃ d' cookies,
      curl_perform o d = (CurlDone 200 (inl (json_dumps float_repr (reply (view d) v))) cookies, d') ∧
      idle d' ∧ view d' = step (view d) v
}.

(** A text in ASCII as an address. *)
Lemma encode_ascii_text {D} s (t : st D) :
  all_chars ascii_char s = true → encode_ascii s t = (Ret s, t).
Proof.
  intros Hs. unfold encode_ascii. enough (∀ i, not_ascii i (code_points s) = None) as -> by done.
  induction s as [|c s IH]; intros i; [done|]. cbn in Hs. apply andb_prop in Hs as [Hc Hs].
  unfold ascii_char in Hc. cbn [code_points]. rewrite Hc. cbn [not_ascii]. rewrite Hc. by apply IH.
Qed.

Lemma perform_done {D} `{Pycurl D} (s : st (curl * D)) c d d' code body cookies :
  s_dev s = (c, d) → curl_perform (c_settings c) d = (CurlDone code body cookies, d') →
  perform_handle s = (Ret (code, body), set_dev (c, d') s).
Proof.
  intros Hs Hc. unfold perform_handle, globals, perform, mbind, M_bind. rewrite Hs.
  cbn [curl_perform lift_pycurl fst]. unfold lift_op. cbn [fst snd]. by rewrite Hc.
Qed.

(** The handle is connected to a service at an address. *)
Definition connected {D} (url : string) (idle : D → Prop) (s : st (curl * D)) : Prop :=
  base_url (s_dev s).1 = url ∧ idle (s_dev s).2.

Lemma connected_same {D} url idle (s s' : st (curl * D)) :
  s_dev s' = s_dev s → connected url idle s → connected url idle s'.
Proof. unfold connected. by intros ->. Qed.

Section Served.
Context {D V : Type} `{Pycurl D} {url : string} {idle : D → Prop} {view : D → V}
  {reply : V → json → json} {step : V → json → V} {Service : JsonService url idle view reply step}.

(** A request to the service: its answer is the result. *)
Lemma rpc_served payload s :
  all_chars ascii_char url = true → connected url idle s → plain payload = true →
  plain (reply (view (s_dev s).2) payload) = true →
  total (shelly_send_command payload) s (λ result s',
    result = reply (view (s_dev s).2) payload ∧ s_opts s' = s_opts s ∧ connected url idle s' ∧
    view (s_dev s').2 = step (view (s_dev s).2) payload).
Proof using Service.
  intros Hurl [Hbase Hidle] Hplain Hreply. destruct s as [opts allopt trace clock [c d]].
  cbn [s_dev fst snd] in *. subst url.
  set (c1 := Curl (base_url c) (c_settings c ++ [("URL", VStr (base_url c))])%list).
  set (c2 := Curl (base_url c) (c_settings c1 ++ [("POSTFIELDS", VStr (json_dumps float_repr payload))])%list).
  destruct (serve_request (c_settings c2) d payload) as (d' & cookies & Hperform & Hi & Hv); try done.
  { cbn [c2 c1 c_settings]. by rewrite !last_setting_app. }
  { cbn [c2 c1 c_settings]. by rewrite !last_setting_app. }
  unfold shelly_send_command.
  eapply total_step; [reflexivity|].
  eapply total_step; [by apply encode_ascii_text|].
  do 2 (eapply total_step; [reflexivity|]).
  eapply total_step; [by eapply perform_done|]. cbv beta iota.
  destruct (dump_front float_repr _ Hreply) as (ch & t & Hd & _).
  assert (json_dumps float_repr (reply (view d) payload) ≠ "") as Hne.
  { unfold json_dumps. by rewrite Hd. }
  eapply total_step; [reflexivity|]. rewrite decide_True by done.
  eapply total_step.
  { unfold loads_if_any, loads. rewrite decide_False by done.
    rewrite (json_roundtrip float_repr _ Hreply). reflexivity. }
  do 4 (eapply total_step; [reflexivity|]). apply total_ret.
  split_and!; [done|done|by split|done].
Qed.
End Served.

(** ** fence_shelly_gen2 *)

Lemma gen_payload_eq {D} `{Pycurl D} method output (s : st (curl * D)) p :
  s_opts s !! "--plug" = Some (VStr p) →
  gen_payload method output s = (Ret (rpc_request method p output), s).
Proof. intros Hp. unfold gen_payload. by rewrite (bind_Ret _ _ _ _ _ (opt_str_eq _ _ _ Hp)). Qed.

Section Shelly.
Context {D : Type} `{Pycurl D} {url : string} {idle : D → Prop} {view : D → nodes}
  {reply : nodes → json → json} {step : nodes → json → nodes}
  {Service : JsonService url idle view reply step}.

(** The two methods that the agent calls, as the switch understands them. *)
Hypotheses (Hurl : all_chars ascii_char url = true)
  (Hstatus : ∀ v p b, dict_get p v = Some b → all_chars ascii_char p = true →
     reports b (reply v (rpc_request "Switch.GetStatus" p None)))
  (Hsame : ∀ v p, all_chars ascii_char p = true → step v (rpc_request "Switch.GetStatus" p None) = v)
  (Hanswer : ∀ v p b, all_chars ascii_char p = true →
     plain (reply v (rpc_request "Switch.Set" p (Some b))) = true)
  (Hset : ∀ v p b, all_chars ascii_char p = true →
     step v (rpc_request "Switch.Set" p (Some b)) = switch_node p b v).

(** The names of the switches do not change. *)
Record shelly_ok (ps : list string) (s : st (curl * D)) : Prop := ShellyOk {
  sh_connected : connected url idle s;
  sh_names : (view (s_dev s).2).*1 = ps
}.

Lemma reported_state b answer (s : st (curl * D)) :
  reports b answer →
  (subkey ← status_key answer; status ← json_item answer subkey; output ← json_item status "output";
   dict_of_bool (VStr "on") (VStr "off") output) s = (Ret (VStr (on_off b)), s).
Proof.
  intros (_ & r & d & key & -> & Hkey & Hd & Ho).
  assert (status_key (JDict r) s = (Ret key, s)) as Hs.
  { assert (∀ k, json_in k (JDict r) s = (Ret (bool_decide (is_Some (dict_get k r))), s)) as Hin by done.
    unfold status_key. subst key. rewrite (bind_Ret _ _ _ _ _ (Hin "params")). case_decide as Hr.
    - by rewrite bool_decide_true.
    - rewrite bool_decide_false by done. rewrite (bind_Ret _ _ _ _ _ (Hin "result")).
      by rewrite bool_decide_true by (by eexists). }
  rewrite (bind_Ret _ _ _ _ _ Hs).
  rewrite (bind_Ret _ _ s (JDict d) s) by (cbn; by rewrite Hd).
  rewrite (bind_Ret _ _ s (JBool b) s) by (cbn; by rewrite Ho). by destruct b.
Qed.

Lemma shelly_get_total ps s p :
  Forall (λ q, all_chars ascii_char q = true) ps → shelly_ok ps s →
  s_opts s !! "--plug" = Some (VStr p) → p ∈ ps →
  total shelly_get_power_status s (λ v s',
    v = VStr (on_off (node_on (view (s_dev s).2) p)) ∧ s_opts s' = s_opts s ∧
    connected url idle s' ∧ view (s_dev s').2 = view (s_dev s).2).
Proof using Service Hurl Hstatus Hsame.
  intros Hascii [Hcon Hnames] Hp Hin. pose proof (proj1 (Forall_forall _ _) Hascii p Hin) as Hpa.
  rewrite <- Hnames in Hin. destruct (dict_get_named _ _ Hin) as [b Hb].
  pose proof (Hstatus _ p b Hb Hpa) as Hrep. unfold shelly_get_power_status, except_Exception.
  eapply total_then.
  { apply total_try. eapply total_step; [by apply gen_payload_eq|].
    apply (rpc_served (Service := Service)); [done|done|by apply plain_rpc_request|apply Hrep]. }
  cbv beta. intros result s1 (-> & Hopt & Hcon1 & Hv). rewrite Hsame in Hv by done.
  eexists _, s1. split; [by apply reported_state|]. unfold node_on. by rewrite Hb.
Qed.

Lemma shelly_set_total s p b :
  connected url idle s → s_opts s !! "--plug" = Some (VStr p) → all_chars ascii_char p = true →
  s_opts s !! "--action" = Some (VStr (on_off b)) →
  total shelly_set_power_status s (λ _ s', s_opts s' = s_opts s ∧ connected url idle s' ∧
    view (s_dev s').2 = switch_node p b (view (s_dev s).2)).
Proof using Service Hurl Hanswer Hset.
  intros Hcon Hp Hpa Ha. unfold shelly_set_power_status.
  eapply total_step; [by apply opt_str_eq|].
  eapply (total_step _ _ _ b); [by destruct b|]. unfold except_Exception. apply total_try.
  eapply total_step; [by apply gen_payload_eq|].
  eapply total_then.
  { apply (rpc_served (Service := Service)); [done|done|by apply plain_rpc_request|by apply Hanswer]. }
  cbv beta. intros result s1 (_ & Hopt & Hcon1 & Hv). apply total_ret.
  by rewrite Hv, Hset.
Qed.

#[local] Instance shelly_obedient ps :
  Forall (λ q, all_chars ascii_char q = true) ps →
  Obedient ps 0 (shelly_ok ps) (λ w, node_on (view w.2)) (λ _, O)
    shelly_get_power_status shelly_set_power_status.
Proof using Service Hurl Hstatus Hsame Hanswer Hset.
  intros Hascii. split.
  - intros s s' [Hcon Hnames] [Hdev _]. split; [by eapply connected_same|by rewrite Hdev].
  - intros s p Hok Hfe Hp Hin.
    eapply total_weaken; [by apply (shelly_get_total ps)|]. cbv beta.
    intros v s' (-> & Hopt & Hcon & Hv). rewrite Hv.
    split_and!; [|by apply frame_opts|done|lia|done]. split; [done|]. rewrite Hv. apply Hok.
  - intros s p a [Hcon Hnames] Hp Hin Ha.
    assert (all_chars ascii_char p = true) as Hpa by by eapply (proj1 (Forall_forall _ _) Hascii).
    eapply total_weaken; [by apply (shelly_set_total s p a)|]. cbv beta.
    intros u s' (Hopt & Hcon' & Hv). rewrite Hv. split_and!; [|by apply frame_opts|lia|].
    + split; [done|]. by rewrite Hv, switch_node_names.
    + intros q _. apply node_on_switch. by rewrite Hnames.
Qed.

(** C6. From the JSON of a request to the switches: on a handle that is connected to a
    service which reads what [json.dumps] wrote and answers so that [json.loads] can read
    it, on, off and reboot of any of its switches by fence_shelly_gen2 return 0. After off
    and reboot, and after "on" of switches that were all on or all off, exactly the
    requested switches have been brought into the requested state; after "on" of switches
    of which some were on and some off, none has changed. *)
Theorem shelly_switches_outlets plugs T a fuel lst sync s :
  Forall (λ q, all_chars ascii_char q = true) (view (s_dev s).2).*1 →
  connected url idle s → settings T s →
  requested_plugs s = Some plugs → plugs ≠ [] →
  (∀ q, q ∈ plugs → q ∈ (view (s_dev s).2).*1) →
  s_opts s !! "--action" = Some (VStr a) → a ∈ ["on"; "off"; "reboot"] → (0 < fuel)%nat →
  ∃ s', fence_action fuel (Some shelly_set_power_status) (Some shelly_get_power_status)
          lst None sync s = (Ret EC_OK, s') ∧
    (view (s_dev s').2).*1 = (view (s_dev s).2).*1 ∧
    ((a = "on" → mixed plugs (node_on (view (s_dev s).2)) = false) →
       ∀ q, q ∈ (view (s_dev s).2).*1 →
       node_on (view (s_dev s').2) q = requested_states a plugs (node_on (view (s_dev s).2)) q) ∧
    (a = "on" → mixed plugs (node_on (view (s_dev s).2)) = true →
       ∀ q, q ∈ (view (s_dev s).2).*1 →
       node_on (view (s_dev s').2) q = node_on (view (s_dev s).2) q).
Proof using Service Hurl Hstatus Hsame Hanswer Hset.
  intros Hascii Hcon Hsettings Hreq Hne Hin Ha Hact Hfuel.
  destruct (fence_action_leaves (Obey := shelly_obedient _ Hascii) T plugs a fuel lst None sync s)
    as (s' & Hrun & [_ Hnames] & Hpw); try done; [lia|].
  exists s'. split_and!; [done..| |]; apply (left_outcome a plugs _ _ _ Hpw).
Qed.
End Shelly.

(** ** A service for the examples *)
Module Rpc.

Definition address : string := "http://switch:80/rpc".

(** The method and the parameters of a request. *)
Definition called (v : json) : option (string * string * option bool) :=
  match v with
  | JDict d =>
      match dict_get "method" d, dict_get "params" d with
      | Some (JStr method), Some (JDict params) =>
          match dict_get "id" params with
          | Some (JStr id) =>
              Some (method, id, match dict_get "on" params with Some (JBool b) => Some b | _ => None end)
          | _ => None
          end
      | _, _ => None
      end
  | _ => None
  end.

Definition answer (result : list (string * json)) : json :=
  JDict [("id", JInt 1); ("src", JStr "shellyplus1"); ("result", JDict result)].

Definition reply (v : nodes) (request : json) : json :=
  match called request with
  | Some ("Switch.GetStatus", id, _) =>
      answer [("source", JStr "init"); ("output", JBool (node_on v id))]
  | Some ("Switch.Set", id, _) => answer [("was_on", JBool (node_on v id))]
  | _ => JDict [("error", JInt 404)]
  end.

Definition step (v : nodes) (request : json) : nodes :=
  match called request with
  | Some ("Switch.Set", id, Some b) => switch_node id b v
  | _ => v
  end.

#[export] Instance rpc_pycurl : Pycurl nodes := {|
  curl_perform o v :=
    match last_setting "URL" o, last_setting "POSTFIELDS" o with
    | Some (VStr url), Some (VStr text) =>
        if decide (url = address) then
          match json_loads text with
          | Some (inl request) =>
              (CurlDone 200 (inl (json_dumps (λ x, x) (reply v request))) [], step v request)
          | _ => (CurlDone 500 (inl "") [], v)
          end
        else (CurlDone 404 (inl "") [], v)
    | _, _ => (CurlFailed "No URL set", v)
    end;
  float_repr x := x
|}.

#[export] Instance rpc_service : JsonService address (λ _, True) id reply step.
Proof.
  split. intros o v request _ Hplain Hurl Hpost. eexists _, []. split_and!; [|done|reflexivity].
  cbn [curl_perform rpc_pycurl]. rewrite Hurl, Hpost, decide_True by done.
  by rewrite (json_roundtrip float_repr _ Hplain).
Qed.

Definition start (action plug : string) (v : nodes) : st (curl * nodes) :=
  St (list_to_map
        [("--action", VStr action); ("--plug", VStr plug); ("--plug-separator", VStr ",");
         ("--power-wait", VStr "1"); ("--power-timeout", VStr "20");
         ("--stonith-status-sleep", VStr "1"); ("--retry-on", VStr "1");
         ("device_opt", VList ["ipaddr"; "passwd"; "ssl"; "notls"; "web"; "port"])])
     ∅ [] 0 (Curl address [], v).

Lemma switch_start_settings a p v : settings 20 (start a p v).
Proof.
  split; unfold start; cbn [s_opts].
  - by exists (VStr "20").
  - by exists (VStr "1"), 1%Z.
  - by exists (VStr "1"), 1%Z.
  - by exists (VStr "1"), 1%Z.
  - by exists "".
  - eexists. split; [reflexivity|]. split; closed_dec.
Qed.

Lemma status_reported v p b :
  dict_get p v = Some b → all_chars ascii_char p = true →
  reports b (reply v (rpc_request "Switch.GetStatus" p None)).
Proof.
  intros Hb _. unfold reply. cbn. split; [done|].
  eexists _, _, "result". split_and!; [reflexivity|done|reflexivity|].
  unfold node_on. by rewrite Hb.
Qed.
End Rpc.

#[local] Existing Instance Rpc.rpc_pycurl.

Definition two_switches : nodes := [("0", true); ("1", true)].

(** Switch 0 is switched off, switch 1 is left alone. *)
Lemma shelly_switches_outlets_witness :
  ∃ s', fence_action 1 (Some shelly_set_power_status) (Some shelly_get_power_status) None None None
          (Rpc.start "off" "0" two_switches) = (Ret EC_OK, s') ∧
    node_on (s_dev s').2 "0" = false ∧ node_on (s_dev s').2 "1" = true.
Proof.
  destruct (shelly_switches_outlets (Service := Rpc.rpc_service)
    eq_refl Rpc.status_reported (λ v p _, eq_refl) (λ v p b _, eq_refl) (λ v p b _, eq_refl)
    ["0"] 20 "off" 1 None None (Rpc.start "off" "0" two_switches))
    as (s' & Hrun & _ & Hpw & _).
  - repeat constructor.
  - by split.
  - apply Rpc.switch_start_settings.
  - reflexivity.
  - discriminate.
  - intros q [->|[]%not_elem_of_nil]%elem_of_cons; closed_dec.
  - reflexivity.
  - closed_dec.
  - lia.
  - exists s'. split; [exact Hrun|]. split.
    + etransitivity; [apply (Hpw ltac:(discriminate) "0"); closed_dec|vm_compute; reflexivity].
    + etransitivity; [apply (Hpw ltac:(discriminate) "1"); closed_dec|vm_compute; reflexivity].
Defined.

(** * fence_hetzner_cloud: the pages of a listing

    The service hands out its servers page by page, each page naming the next one. The
    agent asks for as many pages as there are ([hetzner_pages] ends with that much fuel),
    and its listing has the servers of all of them. *)

(** ** Addresses *)

Lemma all_chars_join p sep l :
  all_chars p sep = true → Forall (λ x, all_chars p x = true) l → all_chars p (join sep l) = true.
Proof.
  intros Hsep. induction 1 as [|x l Hx Hl IH]; [done|]. destruct l as [|y l]; [done|].
  change (all_chars p (x +:+ sep +:+ join sep (y :: l)) = true).
  by rewrite !all_chars_app, Hx, Hsep, IH.
Qed.

Lemma url_quote_ascii safe space s :
  (∀ c, safe c = true → ascii_char c = true) → all_chars ascii_char space = true →
  all_chars ascii_char (url_quote_by safe space s) = true.
Proof.
  intros Hsafe Hspace. apply all_chars_join; [done|]. apply Forall_map, Forall_true. intros c. cbn.
  destruct (safe c) eqn:Hc; [by cbn; rewrite Hsafe|]. case_decide; [done|].
  by destruct c as [[][][][][][][][]].
Qed.

Lemma urlencode_ascii l : all_chars ascii_char (urlencode l) = true.
Proof.
  assert (∀ s, all_chars ascii_char (quote_plus s) = true) as Hq.
  { intros s. apply url_quote_ascii; [|done]. intros c. by destruct c as [[][][][][][][][]]. }
  apply all_chars_join; [done|]. apply Forall_map, Forall_true. intros kv. cbn beta.
  by rewrite !all_chars_app, !Hq.
Qed.

(** ** Pages *)

Definition page_url (base : string) (n : Z) : string :=
  base +:+ "/servers" +:+ "?" +:+ urlencode [("page", str_of_Z n)].

(** A machine as a page shows it: its identifier, name and status. *)
Record machine := Machine { mc_id : Z; mc_name : string; mc_status : string }.

Definition shows (v : json) (x : machine) : Prop :=
  ∃ d, v = JDict d ∧ dict_get "id" d = Some (JInt (mc_id x)) ∧
       dict_get "name" d = Some (JStr (mc_name x)) ∧ dict_get "status" d = Some (JStr (mc_status x)).

(** A page with its machines, and with the number of the next page if there is one. *)
Definition page_of (next : json) (xs : list machine) (p : json) : Prop :=
  plain p = true ∧ ∃ r m q vs, p = JDict r ∧
    dict_get "meta" r = Some (JDict m) ∧ dict_get "pagination" m = Some (JDict q) ∧
    dict_get "next_page" q = Some next ∧
    dict_get "servers" r = Some (JList vs) ∧ Forall2 shows vs xs.

(** Pages from number [n] on. *)
Fixpoint linked (n : Z) (ps : list json) (xss : list (list machine)) : Prop :=
  match ps, xss with
  | [], [] => True
  | p :: ps', xs :: xss' =>
      page_of (match ps' with [] => JNull | _ => JInt (n + 1) end) xs p ∧ linked (n + 1) ps' xss'
  | _, _ => False
  end.

(** A service that answers the request for a page with its text. *)
Class PageService {D : Type} `{Pycurl D} (base : string) (pages : list json) (idle : D → Prop) : Prop := {
  serve_page : ∀ o d n p, idle d → pages !! n = Some p →
    last_setting "URL" o = Some (VStr (page_url base (Z.of_nat n + 1))) →
    last_setting "POST" o = Some (VInt 0) →
    ∃ d' code cookies, (200 ≤ code < 300)%Z ∧
      curl_perform o d = (CurlDone code (inl (json_dumps float_repr p)) cookies, d') ∧ idle d'
}.

Section Hetzner.
Context {D : Type} `{Pycurl D} {base : string} {pages : list json} {idle : D → Prop}
  {Service : PageService base pages idle}.
Hypothesis Hbase : all_chars ascii_char base = true.

Lemma page_served n p s :
  connected base idle s → pages !! n = Some p → plain p = true →
  total (hetzner_send_request "/servers" "GET" [("page", str_of_Z (Z.of_nat n + 1))]) s
    (λ r s', r = p ∧ s_opts s' = s_opts s ∧ connected base idle s').
Proof using Service Hbase.
  intros [Hurl Hidle] Hn Hplain. destruct s as [opts allopt trace clock [c d]].
  cbn [s_dev fst snd] in *.
  set (url := page_url base (Z.of_nat n + 1)).
  assert (all_chars ascii_char url = true) as Hascii.
  { unfold url, page_url. by rewrite !all_chars_app, Hbase, urlencode_ascii. }
  set (c1 := Curl base (c_settings c ++ [("URL", VStr url)])%list).
  set (c2 := Curl base (c_settings c1 ++ [("POST", VInt 0)])%list).
  destruct (serve_page (c_settings c2) d n p) as (d' & code & cookies & Hcode & Hperform & Hi); try done.
  { cbn [c2 c1 c_settings]. by rewrite !last_setting_app. }
  { cbn [c2 c1 c_settings]. by rewrite !last_setting_app. }
  destruct c as [b o]. cbn [base_url c_settings] in *. subst b. unfold hetzner_send_request.
  do 2 (eapply total_step; [reflexivity|]).
  eapply total_step; [by apply (encode_ascii_text url)|].
  do 2 (eapply total_step; [reflexivity|]).
  eapply total_step; [by eapply (perform_done _ c2)|]. cbv beta iota.
  destruct (dump_front float_repr _ Hplain) as (ch & t & Hd & _).
  assert (json_dumps float_repr p ≠ "") as Hne by (unfold json_dumps; by rewrite Hd).
  eapply total_step; [reflexivity|].
  eapply total_step.
  { unfold loads_if_any, loads. rewrite decide_False by done.
    rewrite (json_roundtrip float_repr _ Hplain). reflexivity. }
  assert ((200 <=? code) && (code <? 300) = true)%Z as -> by lia.
  eapply total_step; [reflexivity|]. apply total_ret. by split_and!.
Qed.

(** All pages, with as much fuel as there are pages and one more for the end. *)
Lemma hetzner_pages_total fuel n ps xss s :
  connected base idle s → ps ≠ [] → drop n pages = ps → linked (Z.of_nat n + 1) ps xss →
  (length ps < fuel)%nat →
  total (hetzner_pages fuel "/servers" "GET" [] (JInt (Z.of_nat n + 1)) None) s
    (λ r s', r = ps ∧ s_opts s' = s_opts s ∧ connected base idle s').
Proof using Service Hbase.
  revert fuel n xss s. induction ps as [|p ps IH]; intros [|fuel] n [|xs xss] s Hcon Hne Hdrop Hlink Hfuel;
    try done; [cbn in Hfuel; lia|].
  destruct Hlink as [(Hplain & r & m & q & vs & -> & Hm & Hq & Hnext & _) Hlink].
  assert (pages !! n = Some (JDict r) ∧ drop (S n) pages = ps) as [Hn Hdrop'].
  { split; [by rewrite <- (Nat.add_0_r n), <- lookup_drop, Hdrop|].
    by rewrite <- Nat.add_1_r, <- drop_drop, Hdrop. }
  cbn [hetzner_pages]. rewrite bool_decide_false by done.
  assert (json_truthy (JInt (Z.of_nat n + 1)) = true) as ->.
  { unfold json_truthy. by destruct (Z.eqb_spec (Z.of_nat n + 1) 0); [lia|]. }
  cbn [negb orb].
  eapply total_then; [by apply (page_served n)|]. cbv beta. intros r1 s1 (-> & Hopt & Hcon1).
  rewrite decide_True by done.
  eapply (total_step _ _ _ (JDict m)); [cbn; by rewrite Hm|].
  eapply (total_step _ _ _ (JDict q)); [cbn; by rewrite Hq|].
  eapply total_step; [cbn; by rewrite Hnext|].
  destruct ps as [|p' ps].
  - destruct fuel as [|fuel]; [cbn in Hfuel; lia|]. eapply total_step; [reflexivity|].
    apply total_ret. done.
  - replace (Z.of_nat n + 1 + 1)%Z with (Z.of_nat (S n) + 1)%Z in * by lia.
    eapply total_then; [apply (IH fuel (S n) xss s1); [done|done|done|done|cbn in *; lia]|].
    cbv beta. intros rs s2 (-> & Hopt2 & Hcon2). apply total_ret. by rewrite Hopt2.
Qed.

(** What the listing says of a machine. *)
Definition machine_state (x : machine) : string := if decide (mc_status x = "off") then "off" else "on".
Definition machine_outlet (x : machine) : string * (string * option string) :=
  (mc_name x, ("", Some (machine_state x))).

Lemma hetzner_outlet_total os v x s :
  shows v x → total (hetzner_outlet os v) s (λ os' s',
    os' = dict_insert (mc_name x) ("", Some (machine_state x)) os ∧
    s_opts s' = s_opts s ∧ s_dev s' = s_dev s).
Proof.
  intros (d & -> & Hid & Hname & Hstatus). unfold hetzner_outlet.
  eapply (total_step _ _ _ (machine_state x)).
  { unfold server_status.
    rewrite (bind_Ret _ _ s (JStr (mc_status x)) s) by (cbn; by rewrite Hstatus).
    rewrite (bind_Ret _ _ s (JInt (mc_id x)) s) by (cbn; by rewrite Hid).
    assert ((if text_is "off" (JStr (mc_status x)) then "off" else "on") = machine_state x) as ->.
    { unfold text_is, machine_state. case_bool_decide; case_decide; done. }
    reflexivity. }
  eapply (total_step _ _ _ (JStr (mc_name x))); [cbn; by rewrite Hname|].
  eapply total_step; [reflexivity|]. by apply total_ret.
Qed.

Lemma hetzner_outlets_total os vs xs s :
  Forall2 shows vs xs → total (mfold hetzner_outlet os vs) s (λ os' s',
    os' = foldl (λ os x, dict_insert (mc_name x) ("", Some (machine_state x)) os) os xs ∧
    s_opts s' = s_opts s ∧ s_dev s' = s_dev s).
Proof.
  intros Hs. revert os s. induction Hs as [|v x vs xs Hx _ IH]; intros os s; [by apply total_ret|].
  cbn [mfold foldl]. eapply total_then; [by apply (hetzner_outlet_total os v x)|]. cbv beta.
  intros os1 s1 (-> & Hopt & Hdev). eapply total_weaken; [apply IH|]. cbv beta.
  intros os2 s2 (-> & Hopt2 & Hdev2). by rewrite Hopt2, Hdev2.
Qed.
End Hetzner.

Lemma foldl_machine_outlet os xs :
  NoDup (os.*1 ++ map mc_name xs)%list →
  foldl (λ os x, dict_insert (mc_name x) ("", Some (machine_state x)) os) os xs =
  (os ++ map machine_outlet xs)%list.
Proof.
  revert os. induction xs as [|x xs IH]; intros os Hn; [by rewrite app_nil_r|].
  cbn [foldl map] in *. apply NoDup_app in Hn as (Ho & Hdis & Hxs).
  rewrite dict_insert_fresh by (intros Hin; by eapply Hdis, elem_of_cons; [|left]).
  rewrite IH, <- app_assoc; [done|]. rewrite fmap_app, <- app_assoc. cbn.
  apply NoDup_app. by split_and!.
Qed.

Section Listing.
Context {D : Type} `{Pycurl D} {base : string} {pages : list json} {idle : D → Prop}
  {Service : PageService base pages idle}.
Hypothesis Hbase : all_chars ascii_char base = true.

(** The servers of pages that were read. *)
Definition read_page (os : outlets) (result : json) : M (curl * D) outlets :=
  has_servers ← json_in "servers" result;
  mwhen (negb has_servers) (fail EC_STATUS true) ;;
  servers ← json_item result "servers";
  servers ← json_iter servers;
  mfold hetzner_outlet os servers.

Lemma read_pages_total n ps xss os s :
  linked n ps xss → total (mfold read_page os ps) s (λ os' s',
    os' = foldl (λ os x, dict_insert (mc_name x) ("", Some (machine_state x)) os) os (concat xss) ∧
    s_opts s' = s_opts s).
Proof.
  revert n xss os s. induction ps as [|p ps IH]; intros n [|xs xss] os s Hl; try done; [by apply total_ret|].
  destruct Hl as [(_ & r & m & q & vs & -> & _ & _ & _ & Hservers & Hxs) Hl].
  cbn [mfold concat]. eapply total_then.
  { unfold read_page.
    eapply (total_step _ _ _ true); [cbn; by rewrite bool_decide_true by (by eexists)|].
    eapply total_step; [reflexivity|].
    eapply (total_step _ _ _ (JList vs)); [cbn; by rewrite Hservers|].
    eapply total_step; [reflexivity|]. by apply (hetzner_outlets_total os vs xs). }
  cbv beta. intros os1 s1 (-> & Hopt & _). eapply total_weaken; [by apply (IH (n + 1)%Z xss)|].
  cbv beta. intros os2 s2 (-> & Hopt2). by rewrite foldl_app, Hopt2.
Qed.

(** C38. The listing of fence_hetzner_cloud is complete: against a service that hands out
    its machines page by page, each page with the number of the next, the agent asks for
    all pages and its listing names every machine once, in order, with its state; fuel
    for one request more than there are pages is enough. *)
Theorem hetzner_list_complete fuel xss s :
  connected base idle s → pages ≠ [] → linked 1 pages xss →
  NoDup (map mc_name (concat xss)) → (length pages < fuel)%nat →
  ∃ s', hetzner_get_list fuel s = (Ret (map machine_outlet (concat xss)), s') ∧
        s_opts s' = s_opts s.
Proof using Service Hbase.
  intros Hcon Hne Hlink Hdup Hfuel.
  enough (total (hetzner_get_list fuel) s (λ os s',
    os = map machine_outlet (concat xss) ∧ s_opts s' = s_opts s)) as (os & s' & Hrun & -> & Hopt)
    by (by exists s').
  unfold hetzner_get_list, except_Exception. eapply total_then.
  { apply total_try. by apply (hetzner_pages_total (Service := Service) Hbase fuel 0 pages xss). }
  cbv beta. intros results s1 (-> & Hopt & _).
  eapply total_weaken; [by apply (read_pages_total 1 pages xss [])|]. cbv beta.
  intros os s2 (-> & Hopt2). split; [by apply foldl_machine_outlet|by rewrite Hopt2].
Qed.
End Listing.

(** ** A service for the examples *)
Module Cloud.

Definition machine_doc (x : machine) : json :=
  JDict [("id", JInt (mc_id x)); ("name", JStr (mc_name x)); ("status", JStr (mc_status x))].

Definition page_doc (next : json) (xs : list machine) : json :=
  JDict [("servers", JList (map machine_doc xs));
         ("meta", JDict [("pagination", JDict [("page", JInt 0); ("next_page", next)])])].

Definition first_page : list machine := [Machine 42 "web-1" "running"; Machine 43 "web-2" "off"].
Definition second_page : list machine := [Machine 51 "db" "starting"].
Definition docs_served : list json := [page_doc (JInt 2) first_page; page_doc JNull second_page].

Definition address : string := "https://api.hetzner.cloud/v1".

#[export] Instance cloud_pycurl : Pycurl unit := {|
  curl_perform o d :=
    (match last_setting "URL" o with
     | Some (VStr url) =>
         if decide (url = page_url address 1) then
           CurlDone 200 (inl (json_dumps (λ x, x) (page_doc (JInt 2) first_page))) []
         else if decide (url = page_url address 2) then
           CurlDone 200 (inl (json_dumps (λ x, x) (page_doc JNull second_page))) []
         else CurlDone 404 (inl "") []
     | _ => CurlFailed "No URL set"
     end, d);
  float_repr x := x
|}.

#[export] Instance cloud_service : PageService address docs_served (λ _, True).
Proof.
  split. intros o [] n p _ Hp Hurl _. cbn [curl_perform cloud_pycurl]. rewrite Hurl.
  exists (), 200%Z, []. split; [lia|]. split; [|done].
  destruct n as [|[|n]]; cbn in Hp; [by injection Hp as <-..|done].
Qed.

Lemma shows_doc x : shows (machine_doc x) x.
Proof. eexists. by split_and!. Qed.

Lemma page_of_doc next xs :
  plain next = true → forallb (λ x, plain (machine_doc x)) xs = true → page_of next xs (page_doc next xs).
Proof.
  intros Hnext Hxs. split.
  - cbn. rewrite Hnext, !andb_true_r. cbn. clear -Hxs. induction xs as [|x xs IH]; [done|].
    cbn in Hxs |- *. apply andb_prop in Hxs as [-> Hxs]. by apply IH.
  - eexists _, _, _, _. split_and!; [reflexivity..|].
    clear. induction xs; constructor; [apply shows_doc|done].
Qed.
End Cloud.

#[local] Existing Instance Cloud.cloud_pycurl.

Lemma hetzner_list_complete_witness :
  ∃ s', hetzner_get_list 3 (St ∅ ∅ [] 0 (Curl Cloud.address [], tt)) =
    (Ret [("web-1", ("", Some "on")); ("web-2", ("", Some "off")); ("db", ("", Some "on"))], s') ∧
    s_opts s' = ∅.
Proof.
  apply (hetzner_list_complete (Service := Cloud.cloud_service) eq_refl 3
    [Cloud.first_page; Cloud.second_page] (St ∅ ∅ [] 0 (Curl Cloud.address [], tt))).
  - by split.
  - discriminate.
  - split; [by apply Cloud.page_of_doc|]. split; [by apply Cloud.page_of_doc|exact I].
  - closed_dec.
  - cbn. lia.
Defined.
