(* ===== verification/AgentsSpec.v ===== *)
(** * Single agents at the edges

    Sessions that break, screens that are not what an agent expects, credentials that are
    too long. *)

From S2P Require Import Prelude PyStr PyRe OptionDefs Effects Fail Host Input Process Login.
From S2P Require Import Metadata MetadataSpec Action TextFacts Console ConsoleAgents HostAgents.
From S2P Require Import TableAgents CommandAgents Json JsonSpec Http WebAgents ServiceAgents.
From S2P Require Import RequestsAgents WebSpec.

Import Host.Mem.
Local Open Scope string_scope.

(** ** fence_brocade *)

Section Brocade.
Context {D : Type}.
Implicit Types s : st D.

(** Once the header was seen, a blank line ends the run with an IndexError. *)
Lemma brocade_blank_line os line lines s :
  lstrip line = "" → found (LitI "=========") line = false →
  mfold brocade_line (os, true) (line :: lines) s = (Raise IndexError, s).
Proof.
  intros Hb Hf. cbn [mfold]. apply bind_Raise. unfold brocade_line. rewrite Hf. apply bind_Raise.
  unfold first_is_digit. by rewrite Hb.
Qed.

(** ** fence_raritan *)

(** The plug is looked up whatever the action, so that [monitor], which needs no plug,
    fails without one. *)
Lemma raritan_needs_plug s :
  s_opts s !! "--plug" = None → raritan_plug s = (Raise (KeyError "--plug"), s).
Proof.
  intros Hp. unfold raritan_plug, try_except, opt_int, opt_get, mbind, M_bind. by rewrite Hp.
Qed.
End Brocade.

(** ** fence_virsh: a domain in no state *)

(** A listing takes the third word for the state, and a domain whose state has two words
    is off there, while the status of the same domain is on. *)
Definition virsh_listing : list string :=
  [" Id   Name       State"; "------------------------"; " 1    db1        running";
   " 2    web        no state"; " -    spare      shut off"].

Example virsh_list_no_state :
  (foldl virsh_line ([], false) virsh_listing).1 =
    [("db1", ("", Some "on")); ("web", ("", Some "off")); ("spare", ("", Some "off"))] ∧
  ∀ s : st host, virsh_state false ["no state"; ""] s = (Ret (VStr "on"), s).
Proof. split; [vm_compute; reflexivity|intros s; reflexivity]. Qed.

(** ** fence_wti: groups in a listing *)

(** A group is listed with its own name in the place of its status. *)
Lemma wti_group_status_is_name name status :
  listed_group (name, (name, status)) = (name, (name, Some name)).
Proof. done. Qed.

(** ** fence_eaton_ssh *)

Section Eaton.
Context `{Terminal D}.
Implicit Types s : st D.

(** The names are never read, so that no listing of plugs returns. *)
Lemma eaton_names_never s v s' : get_plug_names s ≠ (Ret v, s').
Proof. intros (x & s1 & _ & Hr)%bind_Ret_inv. by minv Hr. Qed.

Lemma eaton_listing_needs_names counter counters os s v s' :
  eaton_outlets (counter :: counters) os s ≠ (Ret v, s').
Proof. cbn [eaton_outlets]. intros (names & s1 & Hr & _)%bind_Ret_inv. by eapply eaton_names_never. Qed.

(** A reboot cycle that was carried out is reported as failed. *)
Lemma eaton_cycle_fails s v s' : eaton_reboot_cycle s = (Ret v, s') → v = false.
Proof.
  unfold eaton_reboot_cycle. intros Hr.
  repeat (let u := fresh in let s1 := fresh in apply bind_Ret_inv in Hr as (u & s1 & _ & Hr)).
  by minv Hr.
Qed.
End Eaton.

(** ** fence_amt: the command of a power cycle *)

(** The reboot cycle is given to run_command without a shell: the program that runs is
    echo, which always succeeds. *)
Definition amt_options : st host :=
  St {["--amttool-path" := VStr "/usr/bin/amttool"; "--ip" := VStr "10.0.0.7"; "--boot-option" := VStr "pxe"]}
    ∅ [] 0 Mem.empty.

Example amt_cycle_runs_echo :
  ∃ c, amt_create_command "cycle" amt_options = (Ret c, amt_options) ∧
    shlex_split c = inl ["echo"; "y|/usr/bin/amttool"; "10.0.0.7"; "powercyclepxe"].
Proof. eexists. split; [vm_compute; reflexivity|vm_compute; reflexivity]. Qed.

(** * Sessions end in an orderly way

    Whatever the device does, the exceptions of pexpect stay inside the login and the
    logout: a login that fails on them ends the run with an error message and status 1. *)

(** End of file, or a timeout, of the session. *)
Definition session_lost (e : exn) : bool :=
  match e with PexpectEOF _ | PexpectTIMEOUT _ => true | _ => false end.

(** Everything that closing a session may raise. *)
Definition session_error (e : exn) : bool :=
  match e with
  | OSError _ | PexpectEOF _ | PexpectTIMEOUT _ | PexpectError _ => true
  | _ => false
  end.

Section Spares.
Context {D : Type}.
Implicit Types s : st D.

(** [m] never raises an exception of the class [p]. *)
Definition spares {A} (p : exn → bool) (m : M D A) : Prop :=
  ∀ s, match (m s).1 with Raise e => p e = false | _ => True end.

Lemma spares_bind {A B} p (m : M D A) (f : A → M D B) :
  spares p m → (∀ a, spares p (f a)) → spares p (m ≫= f).
Proof.
  intros Hm Hf s. specialize (Hm s). unfold mbind, M_bind.
  destruct (m s) as [[a|e|] s1]; [apply Hf|done|done].
Qed.

Lemma spares_when p b (m : M D unit) : spares p m → spares p (mwhen b m).
Proof. by destruct b. Qed.

Lemma spares_opt_get p k : (∀ k, p (KeyError k) = false) → spares p (opt_get (D := D) k).
Proof. intros Hp s. unfold opt_get. destruct (s_opts s !! k); cbn; auto. Qed.

(** A handler of every exception of a class, and exits otherwise. *)
Lemma spares_try {A} p (m : M D A) h :
  (∀ e, p e = true → ∃ k, h e = Some k ∧ spares p k) →
  (∀ e k, p e = false → h e = Some k → spares p k) →
  spares p (try_except m h).
Proof.
  intros Hh Hh' s. unfold try_except. destruct (m s) as [[a|e|] s1]; cbn; [done| |done].
  destruct (p e) eqn:Hp.
  - destruct (Hh e Hp) as (k & -> & Hk). apply Hk.
  - destruct (h e) as [k|] eqn:Hk; [by apply (Hh' e k)|done].
Qed.

Lemma spares_exit p code :
  is_Some (fail_message code) → p (SystemExit EC_GENERIC_ERROR) = false →
  spares p (fail (D := D) code true).
Proof. intros Hc Hp s. by rewrite fail_exits. Qed.
End Spares.

Section Sessions.
Context `{Terminal D}.
Variable time_start : Z.
Implicit Types s : st D.

Lemma run_delay_spares reserve result : spares session_lost (run_delay (D := D) time_start reserve result).
Proof.
  unfold run_delay. apply spares_bind; [by apply spares_opt_get|]. intros action.
  destruct (bool_decide _); [|done]. apply spares_bind; [by apply spares_opt_get|]. intros delay.
  destruct (_ && _); [|done]. apply spares_bind.
  { intros s. unfold as_int. destruct delay as [| x| |]; cbn; try done. by destruct (int_of_str x). }
  intros n. apply spares_bind; [done|]. intros now. cbv zeta. apply spares_when.
  apply spares_bind; [done|]. intros u s. unfold sleep_us. by destruct (_ <? 0)%Z.
Qed.

(** A session that is lost does not escape as an exception of pexpect: whatever the
    device does, [fence_login] does not raise an end of file or a timeout, and
    [fence_logout] raises no error of the session or of the operating system. *)
Theorem sessions_end_in_order re_login logout_string pause :
  (∀ s e, (fence_login time_start re_login s).1 = Raise e → session_lost e = false) ∧
  (∀ s e, (fence_logout logout_string pause s).1 = Raise e → session_error e = false).
Proof.
  assert (∀ A p (m : M D A), spares p m → ∀ s e, (m s).1 = Raise e → p e = false) as Hspares.
  { intros A p m Hm s e He. specialize (Hm s). by rewrite He in Hm. }
  split; apply Hspares.
  - unfold fence_login. apply spares_bind; [apply run_delay_spares|]. intros [].
    apply spares_bind; [done|]. intros eol. apply spares_bind; [by destruct eol|]. intros [].
    apply spares_bind; [done|]. intros prompt.
    apply spares_bind; [by destruct prompt as [[]|]|]. intros [].
    do 3 (apply spares_bind; [done|]; intros ?).
    apply spares_try; [|intros e k Hk He; by destruct e].
    intros e He. destruct e; try done; eexists; (split; [reflexivity|]);
      (apply spares_bind; [done|]; intros []; apply spares_exit; [by vm_compute; eauto|done]).
  - unfold fence_logout. apply spares_try; [|intros e k Hk He; by destruct e].
    intros e He. by destruct e; try done; eexists.
Qed.
End Sessions.

(** * The limits of fence_eps and fence_ecloud

    The header with the credentials of fence_eps fits in one line of base64 up to 56 bytes
    of user name and password; fence_ecloud repeats a request six times at most. *)

(** ** Base64 *)

Lemma base64_digit_unspaced n : is_space (base64_digit n) = false.
Proof.
  unfold base64_digit. destruct (_ !! _) as [c|] eqn:Hc; [|done].
  apply list_elem_of_lookup_2 in Hc. cbn [default]. revert c Hc. apply Forall_forall.
  repeat (constructor; [done|]). constructor.
Qed.

Lemma base64_groups_unspaced l : unspaced (base64_groups l) = true.
Proof.
  revert l. fix IH 1. intros [|a [|b [|c l]]]; cbn [base64_groups]; [done|..];
    unfold unspaced, all_chars; cbn [String.list_ascii_of_string forallb];
    rewrite ?base64_digit_unspaced; [done|done|]. apply IH.
Qed.

Lemma base64_groups_nonempty l : l ≠ [] → ∃ c t, base64_groups l = String c t ∧ is_space c = false.
Proof.
  destruct l as [|a [|b [|c l]]]; intros Hl; [done|..];
    (eexists _, _; split; [reflexivity|apply base64_digit_unspaced]).
Qed.

Lemma rstrip_keeps a c t : is_space c = false → rstrip (a +:+ String c t) = a +:+ String c (rstrip t).
Proof.
  intros Hc. unfold rstrip. induction a as [|d a IH].
  - change ("" +:+ ?x) with x. cbn. by rewrite Hc.
  - change (String d a +:+ ?x) with (String d (a +:+ x)). cbn [rstrip_by]. rewrite IH.
    assert (bool_decide (a +:+ String c (rstrip_by is_space t) = "") = false) as ->
      by (by apply bool_decide_false; destruct a).
    by rewrite andb_false_r.
Qed.

Lemma rstrip_nl s : rstrip (s +:+ nl) = rstrip s.
Proof.
  unfold rstrip. induction s as [|c s IH]; [done|].
  change (String c s +:+ nl) with (String c (s +:+ nl)). cbn [rstrip_by]. by rewrite IH.
Qed.

Lemma lstrip_keeps c t : is_space c = false → lstrip (String c t) = String c t.
Proof. unfold lstrip. cbn. by intros ->. Qed.

Definition bytes_of (s : string) : list Z := map ord (String.list_ascii_of_string s).

Lemma bytes_of_length s : length (bytes_of s) = String.length s.
Proof. unfold bytes_of. rewrite length_map. induction s; cbn; congruence. Qed.

Lemma base64_lines_cons n l :
  l ≠ [] → base64_lines (S n) l = base64_groups (take 57 l) +:+ nl +:+ base64_lines n (drop 57 l).
Proof. by destruct l. Qed.

(** Credentials that fit in a line. *)
Lemma encodebytes_short s :
  s ≠ "" → (String.length s ≤ 57)%nat → strip (encodebytes s) = base64_groups (bytes_of s).
Proof.
  intros Hne Hlen. unfold encodebytes. fold (bytes_of s). rewrite <- bytes_of_length in Hlen.
  assert (bytes_of s ≠ []) as Hl by (by destruct s).
  destruct (length (bytes_of s)) as [|n] eqn:En; [by destruct (bytes_of s)|].
  rewrite base64_lines_cons by done. rewrite take_ge, drop_ge by lia.
  assert (base64_lines n [] = "") as -> by (by destruct n). rewrite str_app_nil.
  unfold strip. rewrite rstrip_nl. apply strip_unspaced, base64_groups_unspaced.
Qed.

(** Credentials that do not: a line break stays inside. *)
Lemma encodebytes_long s :
  (57 < String.length s)%nat → ∃ a c t, strip (encodebytes s) = a +:+ nl +:+ String c t ∧ is_space c = false.
Proof.
  intros Hlen. unfold encodebytes. fold (bytes_of s). rewrite <- bytes_of_length in *.
  set (l := bytes_of s) in *.
  destruct (length l) as [|[|n]] eqn:En; [lia..|].
  assert (l ≠ []) as Hl by (by intros ->).
  assert (drop 57 l ≠ []) as Hd.
  { intros Hd. apply (f_equal length) in Hd. rewrite length_drop in Hd. cbn [length] in Hd. lia. }
  rewrite base64_lines_cons by done. rewrite (base64_lines_cons n (drop 57 l)) by done.
  destruct (base64_groups_nonempty (take 57 l)) as (c0 & t0 & -> & Hc0).
  { destruct l; [done|]. by rewrite firstn_cons. }
  destruct (base64_groups_nonempty (take 57 (drop 57 l))) as (c & t & -> & Hc).
  { destruct (drop 57 l); [done|]. by rewrite firstn_cons. }
  set (rest := base64_lines n (drop 57 (drop 57 l))).
  exists (String c0 t0), c, (rstrip (t +:+ nl +:+ rest)). split; [|done]. unfold strip.
  change (String c t +:+ nl +:+ rest) with (String c (t +:+ nl +:+ rest)).
  rewrite str_app_assoc, rstrip_keeps, <- str_app_assoc by done.
  change (String c0 t0 +:+ ?x) with (String c0 (t0 +:+ x)). by rewrite lstrip_keeps.
Qed.

(** What a header may not hold. *)
Lemma illegal_value_inside a c t :
  is_space c = false → illegal_value (a +:+ nl +:+ String c t) = true.
Proof.
  intros Hc. induction a as [|d a IH].
  - cbn. by destruct c as [[][][][][][][][]].
  - change (String d a +:+ ?x) with (String d (a +:+ x)). cbn [illegal_value].
    rewrite IH. by rewrite !orb_true_r.
Qed.

Lemma legal_value s :
  all_chars (λ c, negb (bool_decide (c ∈ [NL; CR]))) s = true → illegal_value s = false.
Proof.
  induction s as [|c s IH]; [done|]. intros [Hc Hs]%andb_prop. cbn [illegal_value].
  rewrite IH by done. apply negb_true_iff, bool_decide_eq_false in Hc.
  rewrite !not_elem_of_cons in Hc. destruct Hc as (Hn & Hr & _).
  by rewrite !bool_decide_false by done.
Qed.

Lemma unspaced_legal s : unspaced s = true → all_chars (λ c, negb (bool_decide (c ∈ [NL; CR]))) s = true.
Proof.
  unfold unspaced, all_chars. rewrite !forallb_forall. intros Hs c Hc. specialize (Hs c Hc).
  by destruct c as [[][][][][][][][]].
Qed.

(** The header of user name and password is one line up to 56 bytes. *)
Lemma authorization_fits username password :
  illegal_value (basic_authorization username password) =
  negb (bool_decide (String.length username + String.length password ≤ 56)%nat).
Proof.
  unfold basic_authorization. set (s := username +:+ ":" +:+ password).
  assert (String.length s = S (String.length username + String.length password)) as Hlen.
  { unfold s. rewrite !length_app_str. cbn. lia. }
  case_bool_decide as Hfit; cbn [negb].
  - assert (s ≠ "") as Hne by (intros Hs; by rewrite Hs in Hlen).
    rewrite encodebytes_short by (done || lia). apply legal_value. rewrite all_chars_app.
    rewrite (unspaced_legal (base64_groups _)) by apply base64_groups_unspaced. done.
  - destruct (encodebytes_long s) as (a & c & t & -> & Hc); [lia|].
    rewrite str_app_assoc. by apply illegal_value_inside.
Qed.

(** ** fence_eps *)

Definition visible (c : ascii) : bool := ((33 <=? ord c) && (ord c <=? 126))%Z.

Lemma putrequest_visible {D} target (s : st D) :
  all_chars visible target = true → putrequest target s = (Ret tt, s).
Proof.
  intros Ht. unfold putrequest.
  assert (list_find (λ c, target_forbidden c = true) (String.list_ascii_of_string target) = None) as ->.
  { apply list_find_None, Forall_forall. intros c Hc. apply not_true_iff_false.
    pose proof (proj1 (forallb_forall _ _) Ht c (proj1 (list_elem_of_In _ _) Hc)) as Hv.
    unfold visible, target_forbidden in *. lia. }
  rewrite (bind_Ret _ _ s target s); [done|]. apply encode_ascii_text.
  unfold all_chars in *. rewrite forallb_forall in *. intros c Hc. specialize (Ht c Hc).
  unfold visible, ascii_char in *. lia.
Qed.

Definition request_target (page params : string) : string :=
  "/" +:+ page +:+ (if decide (params = "") then "" else "?" +:+ params).

Section Eps.
Context {D : Type} `{HttpClient D}.

(** The header with both credentials given. *)
Lemma eps_headers_eq username password (s : st D) :
  s_opts s !! "--username" = Some (VStr username) → s_opts s !! "--password" = Some (VStr password) →
  eps_headers s =
  (let auth_str := basic_authorization username password in
   log DEBUG ("Authorization: " +:+ auth_str +:+ nl) ;; putheader auth_str ;;
   mret [("Authorization", auth_str)]) s.
Proof.
  intros Hu Hp. unfold eps_headers.
  rewrite (bind_Ret _ _ s true s) by (unfold opt_has; by rewrite Hu). cbn [negb].
  rewrite (bind_Ret _ _ s true s) by (unfold opt_has; by rewrite Hp). cbn [negb].
  rewrite (bind_Ret _ _ s tt s) by done.
  by rewrite (bind_Ret _ _ _ _ _ (opt_str_eq _ _ _ Hu)), (bind_Ret _ _ _ _ _ (opt_str_eq _ _ _ Hp)).
Qed.

(** C36. The credentials of fence_eps: a user name and a password of 56 bytes together make
    the header of the request; one byte more, and [encodebytes] breaks the line, the
    header is refused, and the command ends in a ValueError that nothing catches before
    the device was asked anything. *)
Theorem eps_credentials_bound ip page username password params (s : st D) :
  s_opts s !! "--ip" = Some (VStr ip) → s_opts s !! "--page" = Some (VStr page) →
  s_opts s !! "--username" = Some (VStr username) → s_opts s !! "--password" = Some (VStr password) →
  hc_refuses ip = None → all_chars visible (request_target page params) = true →
  if decide (String.length username + String.length password ≤ 56)%nat
  then ∃ s', eps_headers s = (Ret [("Authorization", basic_authorization username password)], s')
  else ∃ msg s', eps_run_command params s = (Raise (ValueError msg), s') ∧ s_dev s' = s_dev s.
Proof.
  intros Hip Hpage Hu Hp Hhost Htarget.
  pose proof (authorization_fits username password) as Hfits. case_decide as Hlen.
  - rewrite bool_decide_true in Hfits by done. rewrite (eps_headers_eq _ _ s Hu Hp).
    eexists. unfold putheader. rewrite Hfits. reflexivity.
  - rewrite bool_decide_false in Hfits by done.
    set (s1 := add_event (EvLog DEBUG ("GET " +:+ request_target page params +:+ nl)) s).
    eexists _, _. split.
    { unfold eps_run_command, try_except, mbind, M_bind.
      rewrite (opt_str_eq _ _ _ Hip), Hhost. cbn [mret M_ret].
      rewrite (opt_str_eq _ _ _ Hpage). fold (request_target page params).
      change (log DEBUG ("GET " +:+ request_target page params +:+ nl) s) with (Ret tt, s1).
      cbv beta iota. rewrite putrequest_visible by done.
      rewrite (eps_headers_eq username password s1) by done.
      cbv zeta. unfold putheader. rewrite Hfits. reflexivity. }
    reflexivity.
Qed.
End Eps.

(** A switch that answers no exchange, and a long password. *)
#[local] Instance mute_client : HttpClient nat := {|
  hc_refuses _ := None;
  hc_exchange _ _ _ n := (inl (SocketTimeout "timed out"), S n)
|}.

Definition eps_start (password : string) : st nat :=
  St (list_to_map [("--ip", VStr "eps.example"); ("--page", VStr "hidden.htm");
                   ("--username", VStr "admin"); ("--password", VStr password)]) ∅ [] 0 0%nat.

Lemma eps_credentials_bound_witness :
  ∃ msg s', eps_run_command "P01=0" (eps_start (repeat_str "x" 52)) = (Raise (ValueError msg), s') ∧
    s_dev s' = 0%nat.
Proof.
  apply (eps_credentials_bound "eps.example" "hidden.htm" "admin" (repeat_str "x" 52) "P01=0"
    (eps_start (repeat_str "x" 52))); vm_compute; reflexivity.
Defined.

(** ** fence_ecloud *)

Section Ecloud.
Context {D : Type} `{Requests D}.

(** Requests that are all answered by a conflict. *)
Variables (url : string) (rq : request) (next : D → D).
Hypothesis Hconflict : ∀ d, ∃ text cookies, r_request "PUT" url rq d = (inr (Response 409 text cookies), next d).

(** The program gives up after [left] more requests, two seconds apart. *)
Lemma put_request_gives_up left (s : st D) :
  ∃ s', put_request left url rq s = (Raise (SystemExit EC_GENERIC_ERROR), s') ∧
    s_clock s' = (s_clock s + Z.of_nat left * 2 * USEC)%Z ∧ s_dev s' = Nat.iter (S left) next (s_dev s).
Proof using Hconflict.
  revert s. induction left as [|left IH]; intros s;
    destruct (Hconflict (s_dev s)) as (text & cookies & Hr).
  - eexists. cbn [put_request]. unfold requests_do at 1, mbind, M_bind. rewrite Hr.
    split; [reflexivity|]. split; [cbn; lia|done].
  - set (s1 := set_clock (s_clock s + 2 * USEC)%Z (add_event (EvSleep (2 * USEC)) (set_dev (next (s_dev s)) s))).
    destruct (IH s1) as (s' & Hrun & Hclock & Hdev). exists s'. cbn [put_request].
    unfold requests_do at 1, mbind, M_bind. rewrite Hr. cbn [status_code]. rewrite decide_True by done.
    split; [exact Hrun|]. split; [rewrite Hclock; cbn -[USEC Z.of_nat]; lia|].
    by rewrite Hdev, (Nat.iter_succ_r (S left)).
Qed.
End Ecloud.
