(* ===== verification/Judgments.v ===== *)
(** * Judgments about runs

    [only]: what a computation may raise; [triple]: what holds when it returns or raises. *)

From S2P Require Import Prelude PyStr OptionDefs Effects Fail Metadata Globals Json JsonSpec.
From S2P Require Import Http.

Local Open Scope string_scope.

Definition only {D A} (P : exn → Prop) (m : M D A) : Prop :=
  ∀ s, match (m s).1 with Ret _ => True | Raise e => P e | OutOfFuel => False end.

(** The exceptions of the library of Python are all allowed. *)
Definition python (P : exn → Prop) : Prop :=
  ∀ e, match e with CustomError _ _ => True | _ => P e end.

Section Only.
Context {D : Type} (P : exn → Prop).

Lemma only_mret {A} (a : A) : only P (mret (M := M D) a).
Proof. by intros s. Qed.

Lemma only_raise {A} e : P e → only P (raise (D := D) (A := A) e).
Proof. by intros He s. Qed.

Lemma only_bind {A B} (m : M D A) (f : A → M D B) :
  only P m → (∀ a, only P (f a)) → only P (m ≫= f).
Proof.
  intros Hm Hf s. specialize (Hm s). unfold mbind, M_bind.
  destruct (m s) as [[a|e|] s1]; cbn in *; [apply Hf|done|done].
Qed.

Lemma only_when b (m : M D unit) : only P m → only P (mwhen b m).
Proof. intros Hm. destruct b; [exact Hm|apply only_mret]. Qed.

Lemma only_mfor {A} (l : list A) (f : A → M D unit) : (∀ x, only P (f x)) → only P (mfor l f).
Proof.
  intros Hf. induction l as [|x l IH]; [apply only_mret|]. apply only_bind; [apply Hf|done].
Qed.

Lemma only_mfold {A B} (f : B → A → M D B) b l : (∀ b x, only P (f b x)) → only P (mfold f b l).
Proof.
  intros Hf. revert b. induction l as [|x l IH]; intros b; [apply only_mret|].
  apply only_bind; [apply Hf|done].
Qed.

(** The handlers of a [try] see what [m] may raise. *)
Lemma only_try {A} (Q : exn → Prop) (m : M D A) h :
  only Q m → (∀ e, Q e → match h e with Some k => only P k | None => P e end) →
  only P (try_except m h).
Proof.
  intros Hm Hh s. specialize (Hm s). unfold try_except.
  destruct (m s) as [[a|e|] s1]; cbn in *; [done| |done].
  specialize (Hh e Hm). destruct (h e) as [k|]; [apply Hh|exact Hh].
Qed.

Lemma only_weaken {A} (Q : exn → Prop) (m : M D A) : (∀ e, Q e → P e) → only Q m → only P m.
Proof. intros HQ Hm s. specialize (Hm s). destruct (m s).1; auto. Qed.

Lemma only_modify f : only P (modify (D := D) f).
Proof. by intros s. Qed.
Lemma only_log l msg : only P (log (D := D) l msg).
Proof. by intros s. Qed.
Lemma only_opt_find k : only P (opt_find (D := D) k).
Proof. by intros s. Qed.
Lemma only_opt_has k : only P (opt_has (D := D) k).
Proof. by intros s. Qed.
Lemma only_opt_set k v : only P (opt_set (D := D) k v).
Proof. by intros s. Qed.

Hypothesis library : python P.

Ltac by_library := unfold sys_exit, raise; cbn; match goal with |- P ?e => exact (library e) end.

Lemma only_opt_get k : only P (opt_get (D := D) k).
Proof using library. intros s. unfold opt_get. destruct (s_opts s !! k); [done|]. by_library. Qed.

Lemma only_as_str v : only P (as_str (D := D) v).
Proof using library. intros s. destruct v; cbn; first [done|by_library]. Qed.

Lemma only_opt_str k : only P (opt_str (D := D) k).
Proof using library. apply only_bind; [apply only_opt_get|apply only_as_str]. Qed.

Lemma only_sleep n : only P (sleep (D := D) n).
Proof using library.
  intros s. unfold sleep, sleep_us. destruct (_ <? _)%Z; [by_library|done].
Qed.

Lemma only_fail code : only P (fail (D := D) code true).
Proof using library.
  unfold fail. destruct (fail_message code).
  - apply only_bind; [apply only_log|]. intros _. apply only_when, only_raise; by_library.
  - apply only_raise; by_library.
Qed.

Lemma only_fails {A} code : only P (fails (D := D) (A := A) code).
Proof using library.
  apply only_bind; [apply only_fail|]. intros _. apply only_raise; by_library.
Qed.

(** Values of JSON. *)
Ltac json_only :=
  repeat first [apply only_mret | apply only_raise; by_library | case_match].

Lemma only_json_item v k : only P (json_item (D := D) v k).
Proof using library. unfold json_item. json_only. Qed.
Lemma only_json_nth v n : only P (json_nth (D := D) v n).
Proof using library. unfold json_nth. json_only. Qed.
Lemma only_json_in k v : only P (json_in (D := D) k v).
Proof using library. unfold json_in. json_only. Qed.
Lemma only_json_iter v : only P (json_iter (D := D) v).
Proof using library. unfold json_iter. json_only. Qed.
Lemma only_json_key v : only P (json_key (D := D) v).
Proof using library. unfold json_key. json_only. Qed.
Lemma only_dict_of_text {A} (d : list (string * A)) v : only P (dict_of_text (D := D) d v).
Proof using library. unfold dict_of_text. json_only. Qed.

(** Reading a text of JSON ends. *)
Lemma only_loads text : only P (loads (D := D) text).
Proof using library.
  intros s. unfold loads. pose proof (json_loads_total text).
  destruct (json_loads text) as [[v|msg]|]; [done|by_library|done].
Qed.
End Only.

(** The code ends, whatever it raises. *)
Definition anything (e : exn) : Prop := True.

Lemma anything_library : python anything.
Proof. by intros []. Qed.

#[export] Hint Resolve anything_library : fence.

(** Exceptions of the agent's own classes [l] only, beside those of Python. *)
Definition own (l : list string) (e : exn) : Prop :=
  match e with CustomError cls _ => cls ∈ l | _ => True end.

Lemma own_library l : python (own l).
Proof. by intros []. Qed.

Lemma only_own {D A} l l' (m : M D A) :
  only (own l) m → Forall (.∈ l') l → only (own l') m.
Proof.
  intros Hm Hl. eapply only_weaken; [|exact Hm]. intros [] He; try done.
  by apply (proj1 (Forall_forall _ _) Hl).
Qed.

#[export] Hint Resolve only_mret only_log only_modify only_opt_find only_opt_has only_opt_set
  own_library : fence.
#[export] Hint Resolve only_opt_get only_opt_str only_sleep only_fail only_fails only_json_item
  only_json_nth only_json_in only_json_iter only_json_key only_dict_of_text only_loads : fence.

(** The class of an exception is among those allowed. *)
Ltac own_class :=
  lazymatch goal with
  | |- own ?l ?e => let e' := eval hnf in e in change (own l e'); cbn [own]; first [exact I|closed_dec]
  end.

(** One syntax-directed step towards [only P m]; [raise] is left when its class is not
    among those allowed. *)
Ltac only_step :=
  lazymatch goal with
  | |- ∀ _, _ => intros ?
  | |- only _ (mbind _ _) => apply only_bind
  | |- only _ (mwhen _ _) => apply only_when
  | |- only _ (mfor _ _) => apply only_mfor
  | |- only _ (mfold _ _ _) => apply only_mfold
  | |- only _ (raise _) => apply only_raise; first [exact I | solve [own_class] | idtac]
  | |- only _ (let '(_, _) := ?x in _) => destruct x
  | |- only _ (match ?x with _ => _ end) => destruct x
  | |- only (own _) _ =>
      first [ solve [auto with fence nocore]
            | eapply only_own; [solve [auto with fence nocore]|closed_dec] ]
  | |- only _ _ => solve [auto with fence nocore]
  end.

Ltac only_tac := repeat only_step.

(** * Triples

    [triple P m Q E]: run from a state with [P], the computation [m] returns with [Q] or
    raises with [E]; a loop that does not end satisfies it. For the agents that report a
    result by ending the program, where the inversion of successful runs says nothing. *)

Section Triples.
Context {D : Type}.
Implicit Types (P : st D → Prop) (E : exn → st D → Prop).

Definition triple {A} P (m : M D A) (Q : A → st D → Prop) E : Prop :=
  ∀ s, P s → match m s with
             | (Ret a, s') => Q a s'
             | (Raise e, s') => E e s'
             | (OutOfFuel, _) => True
             end.

Lemma triple_mret {A} P (a : A) Q E : (∀ s, P s → Q a s) → triple P (mret a) Q E.
Proof. intros HQ s. apply HQ. Qed.

Lemma triple_raise {A} P e (Q : A → st D → Prop) E : (∀ s, P s → E e s) → triple P (raise e) Q E.
Proof. intros HE s. apply HE. Qed.

Lemma triple_bind {A B} P (m : M D A) (f : A → M D B) R Q E :
  triple P m R E → (∀ a, triple (R a) (f a) Q E) → triple P (m ≫= f) Q E.
Proof.
  intros Hm Hf s Hs. specialize (Hm s Hs). unfold mbind, M_bind.
  destruct (m s) as [[a|e|] s1]; [by apply Hf|done|done].
Qed.

Lemma triple_pre {A} P P' (m : M D A) Q E : (∀ s, P s → P' s) → triple P' m Q E → triple P m Q E.
Proof. intros HP Hm s Hs. apply Hm, HP, Hs. Qed.

Lemma triple_post {A} P (m : M D A) (Q Q' : A → st D → Prop) E :
  (∀ a s, Q' a s → Q a s) → triple P m Q' E → triple P m Q E.
Proof. intros HQ Hm s Hs. specialize (Hm s Hs). destruct (m s) as [[a|e|] s1]; auto. Qed.

Lemma triple_weaken {A} P (m : M D A) Q E E' :
  (∀ e s, E' e s → E e s) → triple P m Q E' → triple P m Q E.
Proof. intros HE Hm s Hs. specialize (Hm s Hs). destruct (m s) as [[a|e|] s1]; auto. Qed.

Lemma triple_when P b (m : M D unit) Q E :
  (b = true → triple P m (λ _, Q) E) → (b = false → ∀ s, P s → Q s) → triple P (mwhen b m) (λ _, Q) E.
Proof. destruct b; [by auto|]. intros _ H. by apply triple_mret, H. Qed.

(** The handler sees the state that the exception was raised in. *)
Lemma triple_try {A} P (m : M D A) h Q R E :
  triple P m Q R →
  (∀ e, match h e with Some k => triple (R e) k Q E | None => ∀ s, R e s → E e s end) →
  triple P (try_except m h) Q E.
Proof.
  intros Hm Hh s Hs. specialize (Hm s Hs). unfold try_except.
  destruct (m s) as [[a|e|] s1]; [done| |done]. specialize (Hh e).
  destruct (h e) as [k|]; by apply Hh.
Qed.

(** What a computation keeps, whatever its outcome *)
Lemma triple_keeps {A} P (m : M D A) R E :
  keeps R m → (∀ s s', P s → R s s' → P s') → (∀ e s, P s → E e s) → triple P m (λ _, P) E.
Proof.
  intros Hm HP HE s Hs. specialize (Hm s). destruct (m s) as [[a|e|] s1]; cbn in Hm; [by eapply HP| |done].
  by eapply HE, HP.
Qed.

(** ** Steps that only read or write messages

    [quiet m]: the options and the device stay, and the program does not end here. *)
Definition quiet {A} (m : M D A) : Prop :=
  ∀ s, s_opts (m s).2 = s_opts s ∧ s_dev (m s).2 = s_dev s ∧ ∀ c, (m s).1 ≠ Raise (SystemExit c).

(** What depends on the options and the device alone. *)
Definition steady P : Prop := ∀ s s', s_opts s' = s_opts s → s_dev s' = s_dev s → P s → P s'.

Lemma triple_quiet {A} P (m : M D A) E :
  steady P → quiet m → (∀ e s, is_Exception e = true → P s → E e s) → triple P m (λ _, P) E.
Proof.
  intros HP Hm HE s Hs. destruct (Hm s) as (Ho & Hd & Hr). pose proof (HP _ _ Ho Hd Hs) as Hs'.
  destruct (m s) as [[a|e|] s1]; [done| |done]. apply HE; [|done].
  destruct e; try reflexivity. by destruct (Hr code).
Qed.

Lemma triple_quiet_bind {A B} P (m : M D A) (f : A → M D B) Q E :
  steady P → quiet m → (∀ e s, is_Exception e = true → P s → E e s) →
  (∀ a, triple P (f a) Q E) → triple P (m ≫= f) Q E.
Proof. intros HP Hm HE Hf. apply triple_bind with (R := λ _, P); [by apply triple_quiet|done]. Qed.

Lemma steady_and P Q : steady P → steady Q → steady (λ s, P s ∧ Q s).
Proof. intros HP HQ s s' Ho Hd [??]. split; eauto. Qed.

Lemma steady_dev (P : D → Prop) : steady (λ s, P (s_dev s)).
Proof. intros s s' _ Hd. by rewrite Hd. Qed.

Lemma steady_opts (P : gmap string pyval → Prop) : steady (λ s, P (s_opts s)).
Proof. intros s s' Ho _. by rewrite Ho. Qed.

Lemma quiet_mret {A} (a : A) : quiet (mret a).
Proof. by intros s. Qed.
Lemma quiet_raise {A} e : is_Exception e = true → quiet (raise (A := A) e).
Proof. intros He s. split_and!; [done..|]. intros c [= ->]. done. Qed.
Lemma quiet_bind {A B} (m : M D A) (f : A → M D B) : quiet m → (∀ a, quiet (f a)) → quiet (m ≫= f).
Proof.
  intros Hm Hf s. destruct (Hm s) as (Ho & Hd & Hr). unfold mbind, M_bind.
  destruct (m s) as [[a|e|] s1]; cbn in *.
  2: { split_and!; [done..|]. intros c [= ->]. by apply (Hr c). }
  2: by split_and!.
  destruct (Hf a s1) as (Ho1 & Hd1 & Hr1). rewrite Ho1, Hd1. by split_and!.
Qed.
Lemma quiet_when b (m : M D unit) : quiet m → quiet (mwhen b m).
Proof. intros Hm. destruct b; [exact Hm|apply quiet_mret]. Qed.
Lemma quiet_log l msg : quiet (log l msg).
Proof. by intros s. Qed.
Lemma quiet_opt_find k : quiet (opt_find k).
Proof. by intros s. Qed.
Lemma quiet_opt_has k : quiet (opt_has k).
Proof. by intros s. Qed.
Lemma quiet_opt_get k : quiet (opt_get k).
Proof. intros s. unfold opt_get. by destruct (s_opts s !! k). Qed.
Lemma quiet_as_str v : quiet (as_str v).
Proof. intros s. by destruct v. Qed.
Lemma quiet_as_int v : quiet (as_int v).
Proof.
  intros s. unfold as_int. destruct v as [|x|n|l]; cbn; [done| |done|done]. by destruct (int_of_str x).
Qed.
Lemma quiet_opt_str k : quiet (opt_str k).
Proof. apply quiet_bind; [apply quiet_opt_get|apply quiet_as_str]. Qed.
Lemma quiet_opt_int k : quiet (opt_int k).
Proof. apply quiet_bind; [apply quiet_opt_get|apply quiet_as_int]. Qed.
Lemma quiet_sleep n : quiet (sleep n).
Proof. intros s. unfold sleep, sleep_us. by case_match. Qed.
End Triples.

#[export] Hint Resolve quiet_mret quiet_log quiet_opt_find quiet_opt_has quiet_opt_get quiet_as_str
  quiet_as_int quiet_opt_str quiet_opt_int quiet_sleep : fence.

(** Closes [quiet m] where [m] is made of quiet steps. *)
Ltac quiet_step :=
  lazymatch goal with
  | |- ∀ _, _ => intros ?
  | |- quiet (mbind _ _) => apply quiet_bind
  | |- quiet (mwhen _ _) => apply quiet_when
  | |- quiet (raise _) => apply quiet_raise; first [reflexivity | idtac]
  | |- quiet (match ?x with _ => _ end) => destruct x
  | |- quiet _ => solve [auto with fence nocore]
  end.
Ltac quiet_tac := repeat quiet_step.
