(* ===== verification/LocalAgents.v ===== *)
(** * Agents on local programs and lines

    [agents/powerman/fence_powerman.py], [agents/lindy_pdu/fence_lindypdu.py],
    [agents/crosslink/fence_crosslink.py], [agents/ironic/fence_ironic.py] and
    [agents/rcd_serial/fence_rcd_serial.py]. *)

From S2P Require Import Prelude PyStr PyRe OptionDefs Effects Fail Host Input Process CheckInput.
From S2P Require Import Login Snmp Metadata Action Globals PduSnmp SnmpAgents Console Ipmilan MenuAgents.
From S2P Require Import TableAgents Json Http WebAgents.

Local Open Scope string_scope.

(** ** fence_powerman *)

Section Powerman.
Context `{Host D}.
(** What Python says about a program that cannot be started. *)
Variable os_error_text : list string → string.

(** A [PowerMan]: its [base_cmd] *)
Definition power_man : M D (list string) :=
  path ← opt_str "--powerman-path";
  server ← opt_str "--ip";
  port ← opt_show "--ipport";
  mret [path; "--server-host"; server +:+ ":" +:+ port].

(** [communicate] waits without limit; the error output is not taken. *)
Definition pm_run (base_cmd cmd : list string) : M D (string * Z) :=
  let run_this := (base_cmd ++ cmd)%list in
  p ← (λ s, let '(p, d) := h_spawn None run_this (s_dev s) in (Ret p, set_dev d s));
  match p with
  | None => log ERROR ("_run command error: " +:+ os_error_text run_this +:+ nl) ;; sys_exit 1
  | Some p => join_process p None ;; mret (p_out p, p_status p)
  end.

(** Its first line only: the text without space around it. *)
Definition pm_run_text (base_cmd cmd : list string) : M D (string * Z) :=
  '(out, ret_code) ← pm_run base_cmd cmd; mret (strip out, ret_code).

Definition pm_is_running (base_cmd : list string) : M D bool :=
  '(_, ret_code) ← pm_run_text base_cmd ["-q"]; mret (ret_code =? 0)%Z.

(** [on] and [off]; [failed] is what they say of the command when it raises. *)
Definition pm_switch (name failed : string) (base_cmd : list string) (host : string) : M D Z :=
  log DEBUG ("PowerMan " +:+ name +:+ ": " +:+ host +:+ nl) ;;
  try_except
    ('(result, ret_code) ← pm_run_text base_cmd ["--" +:+ name; host];
     log DEBUG ("pm." +:+ name +:+ " result: " +:+ result +:+ " ret_code: " +:+ str_of_Z ret_code +:+ nl) ;;
     mret ret_code)
    (λ e,
       match e with
       | OSError msg =>
           Some (log ERROR ("PowerMan Error: The command '" +:+ failed +:+ "' failed: " +:+ msg +:+ nl) ;; mret (-1)%Z)
       | ValueError msg =>
           Some (log ERROR ("PowerMan Error: Popen: invalid arguments: " +:+ msg +:+ nl) ;; mret (-1)%Z)
       | _ => None
       end).

Definition pm_on (base_cmd : list string) (host : string) : M D Z := pm_switch "on" "--on" base_cmd host.
Definition pm_off (base_cmd : list string) (host : string) : M D Z :=
  pm_switch "off" (strs ["--off"; host]) base_cmd host.

(** The output is bytes, which cannot be split at a text; a number has no keys. *)
Definition pm_list (base_cmd : list string) : M D outlets :=
  '(_, ret_code) ← pm_run base_cmd ["-q"; "--exprange"];
  if (ret_code <? 0)%Z then raise (AttributeError "'int' object has no attribute 'keys'")
  else raise (TypeError "a bytes-like object is required, not 'str'").

(** The lines of the answer, in words; -1 without a line for the host. *)
Fixpoint find_host (host : string) (res : list (list string)) : M D pyval :=
  match res with
  | [] => mret (VInt (-1))
  | lst :: res =>
      first ← list_item lst 0;
      unknown ←
        (if decide (first = "No") then
           second ← list_item lst 1;
           if decide (second = "such") then third ← list_item lst 2; mret (bool_decide (third = "nodes:"))
           else mret false
         else mret false);
      if (unknown : bool) then mret (VInt (-1))
      else if bool_decide (host ∈ lst) then mret (VStr (without_last first))
      else find_host host res
  end.

Definition pm_query (base_cmd : list string) (host : string) : M D pyval :=
  '(result, ret_code) ← pm_run_text base_cmd ["--query"; host];
  if (ret_code <? 0)%Z then mret (VInt ret_code)
  else find_host host (map split_ws (split_go nl result 0)).

(** The test for a number of an error is never true: the number is the status. *)
Definition powerman_get_power_status : M D pyval :=
  options ← options_repr;
  log DEBUG ("get_power_status function:" +:+ nl +:+ "options: " +:+ options +:+ nl) ;;
  pm ← power_man;
  action ← opt_get "--action";
  if decide (action = VStr "monitor") then
    running ← pm_is_running pm;
    if (running : bool) then log DEBUG ("Powerman is running" +:+ nl) ;; mret (VStr "on")
    else log DEBUG ("Powerman is NOT running" +:+ nl) ;; mret (VStr "error")
  else plug ← opt_str "--plug"; pm_query pm plug.

Definition powerman_set_power_status : M D unit :=
  options ← options_repr;
  log DEBUG ("set_power_status function:" +:+ nl +:+ "options: " +:+ options) ;;
  pm ← power_man;
  action ← opt_get "--action";
  if decide (action = VStr "on") then plug ← opt_str "--plug"; pm_on pm plug ;; mret tt
  else if decide (action = VStr "off") then plug ← opt_str "--plug"; pm_off pm plug ;; mret tt
  else mret tt.

Definition powerman_get_list : M D outlets :=
  options ← options_repr;
  log DEBUG ("get_list function:" +:+ nl +:+ "options: " +:+ options) ;;
  pm ← power_man;
  pm_list pm.

Definition powerman_opts : list (string * optdef) := [
  ("powerman_path", opt [Getopt ":";
     Longopt "powerman-path";
     Help "--powerman-path=[path]         Path to powerman binary";
     Required "0";
     Shortdesc "Path to powerman binary";
     Default (VStr "@POWERMAN_PATH@");
     Order 200])
].

Definition powerman_docs : docs := Docs
  "fence_powerman is a Power Fence Agent for the Powerman management utility that was designed for LLNL systems."
  "Fence Agent for Powerman" (Some "https://github.com/chaos/powerman") [] None.

Definition fence_powerman_main (fuel : nat) (time_start : Z) (inv : invocation)
    (set_order : list string → list string) : M D unit :=
  add_options powerman_opts ;;
  allopt_set "ipport" (Default (VStr "10101")) ;;
  allopt_set "delay" (Default (VStr "3")) ;;
  allopt_set "power_wait" (Default (VStr "3")) ;;
  checked_options inv ["ipaddr"; "no_password"; "no_login"; "powerman_path"] ;;
  show_docs (inv_prog inv) set_order (Some powerman_docs) ;;
  run_delay time_start 0 0 ;;
  path ← opt_str "--powerman-path";
  executable ← is_executable path;
  mwhen (negb executable) (fail_usage ("Powerman not found or not executable at path " +:+ path) true) ;;
  result ← fence_action fuel (Some powerman_set_power_status) (Some powerman_get_power_status)
             (Some powerman_get_list) None None;
  sys_exit result.
End Powerman.

(** ** fence_lindypdu *)

Record lindy_pdu := LindyPdu { lp_pdu : pdu; pdu_table_oid : string; attached_pdus : string }.

Definition LindyPDU : lindy_pdu := LindyPdu
  (MkPdu ".1.3.6.1.4.1.17420.1.2.9.%d.13.0" ".1.3.6.1.4.1.17420.1.2.9.%d.13.0"
     ".1.3.6.1.4.1.17420.1.2.9.%d.14" "Lindy  32657 PDU" 1 0 1 0 true)
  ".1.3.6.1.4.1.17420.1.2.9" ".1.3.6.1.4.1.17420.1.2.5.0".

Definition lpdu_agents_dir : list (string * lindy_pdu) := [(".1.3.6.1.4.1.17420", LindyPDU)].

(** The global [device] *)
Section Lindy.
Context {D : Type} `{Terminal D}.

Definition lpdu_set_device : M (option lindy_pdu * D) unit :=
  rows ← snmp_walk OID_SYS_OBJECT_ID 0;
  known ← (match rows with
           | [row] => t ← column row 1; mret (dict_get t lpdu_agents_dir)
           | _ => mret None
           end);
  match known with
  | None => raise (KeyError "None")
  | Some d => set_globals (Some d) ;; log DEBUG ("Trying " +:+ ident_str (lp_pdu d))
  end.

Definition lindy_device : M (option lindy_pdu * D) lindy_pdu :=
  g ← globals;
  match g with
  | Some d => mret d
  | None =>
      lpdu_set_device ;;
      g ← globals;
      match g with Some d => mret d | None => raise (AttributeError "'NoneType' object has no attribute") end
  end.

(** The parts of a value that is a list in quotes *)
Definition quoted_list (x : string) : list string := split_go "," (strip_quotes x) 0.

(** A row of the table: the last one with the name of the plug counts. *)
Definition lindy_row (d : lindy_pdu) (plug : string) (ids : option Z * option Z) (x : list string)
    : M (option lindy_pdu * D) (option Z * option Z) :=
  value ← column x 1;
  name ← list_item (quoted_list value) 0;
  if decide (name = plug) then
    oid ← column x 0;
    let t := split_go "." oid 0 in
    port ← py_nth t (Z.of_nat (length t) - 1);
    port_id ← as_int (VStr port);
    if has_switches (lp_pdu d) then
      switch ← py_nth t (Z.of_nat (length t) - 3);
      switch_id ← as_int (VStr switch);
      mret (Some switch_id, Some port_id)
    else mret (ids.1, Some port_id)
  else mret ids.

(** A plug and, on a device with switches, a switch that are numbers *)
Definition lindy_by_number (d : lindy_pdu) (plug : string) : M (option lindy_pdu * D) bool :=
  if isdigit plug then
    if has_switches (lp_pdu d) then switch ← opt_str "--switch"; mret (isdigit switch) else mret true
  else mret false.

Definition lpdu_resolv_port_id : M (option lindy_pdu * D) (option Z * Z) :=
  d ← lindy_device;
  plug ← opt_str "--plug";
  numeric ← lindy_by_number d plug;
  ids ←
    (if (numeric : bool) then
       port_id ← as_int (VStr plug);
       switch_id ← (if has_switches (lp_pdu d) then n ← opt_int "--switch"; mret (Some n) else mret None);
       mret (switch_id, Some port_id)
     else
       table ← snmp_walk (pdu_table_oid d) 30;
       mfold (lindy_row d plug) (None, None) table);
  match ids with
  | (switch_id, Some port_id) => mret (switch_id, port_id)
  | (_, None) =>
      fail_usage ("Can't find port with name " +:+ plug +:+ "!") true ;; raise (TypeError "not reached")
  end.

Definition lindy_oid (fmt : pdu → string) (d : lindy_pdu) (switch_id : option Z) (port_id : Z)
    : M (option lindy_pdu * D) string :=
  match (if has_switches (lp_pdu d) then switch_id ≫= λ n, percent_d (fmt (lp_pdu d)) [n]
         else percent_d (fmt (lp_pdu d)) [port_id]) with
  | Some oid => mret oid
  | None => raise (TypeError "%d format: a real number is required, not NoneType")
  end.

(** Any error of the reading is an unknown status. *)
Definition lindy_get_power_status : M (option lindy_pdu * D) pyval :=
  '(switch_id, port_id) ← lpdu_resolv_port_id;
  d ← lindy_device;
  oid ← lindy_oid status_oid d switch_id port_id;
  except_Exception
    (status ← get_value oid;
     state ← py_nth (quoted_list status) (port_id - 1);
     mret (if decide (state = str_of_Z (state_on (lp_pdu d))) then VStr "on"
           else if decide (state = str_of_Z (state_off (lp_pdu d))) then VStr "off"
           else VNone))
    (λ _, mret VNone).

(** [l[i] = x] with an index that may count from the end. *)
Definition py_set_nth {W A} (l : list A) (i : Z) (x : A) : M W (list A) :=
  py_nth l i ;;
  mret (<[Z.to_nat (if (i <? 0)%Z then Z.of_nat (length l) + i else i) := x]> l).

(** The states of all outlets are written back together. *)
Definition lindy_set_power_status : M (option lindy_pdu * D) unit :=
  '(switch_id, port_id) ← lpdu_resolv_port_id;
  d ← lindy_device;
  oid ← lindy_oid control_oid d switch_id port_id;
  status ← get_value oid;
  action ← opt_get "--action";
  state ← py_set_nth (quoted_list status) (port_id - 1)
            (str_of_Z (and_or (bool_decide (action = VStr "on")) (turn_on (lp_pdu d)) (turn_off (lp_pdu d))));
  snmp_set oid (VStr (join "," state)) 0.

Definition lindy_outlet (d : lindy_pdu) (state : list string) (result : outlets) (x : list string)
    : M (option lindy_pdu * D) outlets :=
  oid ← column x 0;
  let t := split_go "." oid 0 in
  let n := Z.of_nat (length t) in
  port_num ← (if has_switches (lp_pdu d) then
                switch ← py_nth t (n - 4); port ← py_nth t (n - 2); mret (switch +:+ ":" +:+ port)
              else py_nth t (n - 2));
  value ← column x 1;
  port_name ← list_item (quoted_list value) 0;
  port ← py_nth t (n - 2);
  k ← as_int (VStr port);
  on ← py_nth state (k - 1);
  mret (dict_insert port_num (port_name, Some (on_if (bool_decide (on = "1")))) result).

Definition lindy_switch (d : lindy_pdu) (result : outlets) (switch : string)
    : M (option lindy_pdu * D) outlets :=
  n ← as_int (VStr switch);
  table_oid ← lindy_oid outlet_table_oid d (Some n) n;
  res_ports ← snmp_walk table_oid 30;
  oid ← lindy_oid status_oid d (Some n) n;
  port_status ← snmp_walk oid 30;
  row ← list_item port_status 0;
  value ← column row 1;
  mfold (lindy_outlet d (quoted_list value)) result res_ports.

Definition lindy_get_outlets_status : M (option lindy_pdu * D) outlets :=
  d ← lindy_device;
  pdu_id ←
    (if has_switches (lp_pdu d) then
       switch ← opt_str "--switch";
       if isdigit switch then mret [switch]
       else
         pdus ← snmp_walk (attached_pdus d) 30;
         row ← list_item pdus 0;
         value ← column row 1;
         mret (tail (quoted_list value))
     else mret []);
  mfold (lindy_switch d) [] pdu_id.
End Lindy.

Definition lindy_docs : docs := Docs
  "fence_lindypdu is a Power Fencing agent which can be used with the Lindy PDU network power switch. It logs into a device via SNMP and reboots a specified outlet. It supports SNMP v1 with all combinations of authenticity/privacy settings."
  "Fence agent for Lindy over SNMP" (Some "http://www.lindy.co.uk") [] None.

(** The device is set before it is asked. *)
Definition fence_lindypdu_main {D} `{Host D, Terminal D} (fuel : nat) (time_start : Z) (inv : invocation)
    (set_order : list string → list string) : M (option lindy_pdu * D) unit :=
  allopt_set "snmp_version" (Default (VStr "1")) ;;
  allopt_set "community" (Default (VStr "public")) ;;
  allopt_set "switch" (Default (VStr "1")) ;;
  set_globals (Some LindyPDU) ;;
  checked_options inv (snmp_device_opt ++ ["switch"])%list ;;
  show_docs (inv_prog inv) set_order (Some lindy_docs) ;;
  snmp_init time_start ;;
  result ← fence_action fuel (Some lindy_set_power_status) (Some lindy_get_power_status)
             (Some lindy_get_outlets_status) None None;
  sys_exit result.

(** ** fence_crosslink *)

Section Crosslink.
Context `{Host D}.

(** The logger of the agent shows warnings and errors only. *)
Definition crosslink_get_power_status : M D pyval :=
  ip ← opt_show "--crosscableip";
  timeout ← opt_show "--timeout";
  r ← run_command ("ping -w" +:+ timeout +:+ " -n " +:+ ip) None None None;
  mret (VStr (if decide (r.1.1 = 0%Z) then "on" else "off")).

(** Nothing can be switched over a cable: the program ends with 1. *)
Definition crosslink_set_power_status : M D unit :=
  ip ← opt_show "--crosscableip";
  action ← opt_show "--action";
  log ERROR
    (if decide (action = "off") then
       "We've been asked to turn off the node at " +:+ ip +:+ " but the cross-cable link is up so erroring out"
     else if decide (action = "on") then
       "We've been asked to turn on the node at " +:+ ip +:+ " but the cross-cable link is off so erroring out"
     else "set_power_status() was called with action " +:+ action +:+ " which is not supported") ;;
  sys_exit 1.

Definition crosslink_opts : list (string * optdef) := [
  ("crosscableip", opt [Getopt "a:";
     Longopt "crosscableip";
     Help "-a, --crosscableip=[IP]      IP over the cross-cable link";
     Required "1";
     Shortdesc "Cross-cable IP";
     Order 1]);
  ("timeout", opt [Getopt "T:";
     Longopt "timeout";
     Help "-T, --timeout=[seconds]      timeout in seconds";
     Required "0";
     Shortdesc "No ICMP reply in 5 seconds -> Node is considered dead";
     Default (VStr "5");
     Order 1])
].

Definition crosslink_docs : docs := Docs
  "This agent helps two-node clusters to tackle the situation where one node lost power, cannot be fenced by telling pacemaker that if the node is not reachable over the crosslink cable, we can assume it is dead"
  "Fence agent for cross-link two-node clusters" (Some "") [] None.

Definition fence_crosslink_main (fuel : nat) (time_start : Z) (inv : invocation)
    (set_order : list string → list string) : M D unit :=
  add_options crosslink_opts ;;
  checked_options inv ["crosscableip"; "timeout"; "no_password"; "no_login"; "port"] ;;
  show_docs (inv_prog inv) set_order (Some crosslink_docs) ;;
  run_delay time_start 0 0 ;;
  result ← fence_action fuel (Some crosslink_set_power_status) (Some crosslink_get_power_status) None None None;
  sys_exit result.

(** ** fence_ironic *)

Definition ironic_name_or_uuid : M D string :=
  uuid ← opt_has "--uuid"; if (uuid : bool) then opt_show "--uuid" else opt_show "--plug".

(** An option in the environment of the command *)
Definition option_in_env (name key : string) (env : gmap string string) : M D (gmap string string) :=
  v ← opt_find key;
  match v with
  | Some v => x ← as_str v; mret (<[name := x]> env)
  | None => mret env
  end.

Variable environ : gmap string string.

Definition ironic_run_command (action : string) : M D (Z * string * string) :=
  path ← opt_str "--openstack-path";
  username ← opt_find "--username";
  env ← (match username with
         | Some v => x ← as_str v; mret (if decide (x = "") then environ else <["OS_USERNAME" := x]> environ)
         | None => mret environ
         end);
  env ← option_in_env "OS_PASSWORD" "--password" env;
  env ← option_in_env "OS_TENANT_NAME" "--tenant-name" env;
  env ← option_in_env "OS_AUTH_URL" "--auth-url" env;
  tail ← (if decide (action = "status") then
            node ← ironic_name_or_uuid; mret (" show " +:+ node +:+ " -c power_state --format value")
          else if bool_decide (action ∈ ["on"; "off"]) then
            node ← ironic_name_or_uuid; mret (" power " +:+ action +:+ " " +:+ node)
          else if decide (action = "list") then
            mret " list -c 'Instance UUID' -c Name -c 'Power State' --format csv --quote minimal"
          else mret "");
  let cmd := path +:+ " baremetal" +:+ tail in
  log DEBUG ("cmd -> " +:+ cmd) ;;
  run_command cmd None (Some (map_to_list env)) None.

(** [power[\s]*([a-zA-Z]{2,3})] *)
Definition power_re : re :=
  let letter := Chr (λ c, is_upper c || is_lower c) in
  Seqs [Lit "power"; Many Space; Group 1 (Seqs [letter; letter; Opt letter])].

Definition power_word (text : string) : option string := m_group 1 <$> search power_re text.

Definition ironic_get_power_status : M D pyval :=
  r ← ironic_run_command "status";
  mret (match power_word r.1.2 with Some x => VStr x | None => VNone end).

Definition ironic_set_power_status : M D unit :=
  action ← opt_str "--action"; ironic_run_command action ;; mret tt.

(** A line of three fields that is no header *)
Definition ironic_node (nodes : outlets) (line : string) : outlets :=
  match split_go "," line 0 with
  | [uuid; name; state] =>
      if contains "UUID" uuid then nodes else dict_insert uuid (name, power_word state) nodes
  | _ => nodes
  end.

Definition ironic_get_devices_list : M D outlets :=
  r ← ironic_run_command "list"; mret (foldl ironic_node [] (splitlines r.1.2)).

Definition ironic_opts : list (string * optdef) := [
  ("auth-url", opt [Getopt ":";
     Longopt "auth-url";
     Help "--auth-url=[authurl]            Auth URL";
     Required "1";
     Shortdesc "Keystone Admin Auth URL";
     Order 1]);
  ("tenant-name", opt [Getopt "t:";
     Longopt "tenant-name";
     Help "-t, --tenant-name=[tenant]      Tenantname";
     Required "0";
     Shortdesc "Keystone Admin Tenant";
     Default (VStr "admin");
     Order 1]);
  ("openstack-path", opt [Getopt ":";
     Longopt "openstack-path";
     Help "--openstack-path=[path]       Path to openstack binary";
     Required "0";
     Shortdesc "Path to the OpenStack binary";
     Default (VStr "@OPENSTACK_PATH@");
     Order 200])
].

Definition ironic_docs : docs := Docs
  "fence_ironic is a Power Fencing agent which can be used with machines controlled by the Ironic service. This agent calls the openstack CLI. WARNING! This fence agent is not intended for production use. Relying on a functional ironic service for fencing is not a good design choice."
  "Fence agent for OpenStack's Ironic (Bare Metal as a service) service"
  (Some "https://wiki.openstack.org/wiki/Ironic") [] None.

Definition fence_ironic_main (fuel : nat) (time_start : Z) (inv : invocation)
    (set_order : list string → list string) : M D unit :=
  add_options ironic_opts ;;
  checked_options inv ["login"; "passwd"; "port"; "auth-url"; "tenant-name"; "openstack-path"] ;;
  show_docs (inv_prog inv) set_order (Some ironic_docs) ;;
  run_delay time_start 0 0 ;;
  path ← opt_str "--openstack-path";
  executable ← is_executable path;
  mwhen (negb executable) (fail_usage "openstack tool not found or not accessible" true) ;;
  result ← fence_action fuel (Some ironic_set_power_status) (Some ironic_get_power_status)
             (Some ironic_get_devices_list) None None;
  sys_exit result.
End Crosslink.

(** ** fence_rcd_serial *)

(** A serial device: [os.open] gives a descriptor or the message of an OSError; the lines of
    [TIOCMBIS] go high and those of [TIOCMBIC] low. *)
Class Serial (D : Type) := {
  serial_open : string → D → (string + Z) * D;
  serial_lines : bool → Z → D → D;
  serial_close : D → D
}.

(** Of termios on Linux *)
Definition TIOCM_DTR : Z := 2.
Definition TIOCM_RTS : Z := 4.

Section Serial.
Context `{Host D, Serial D}.

Definition serial_ioctl (high : bool) (lines : Z) : M D unit :=
  modify (λ s, set_dev (serial_lines high lines (s_dev s)) s).

Definition rcd_serial (port : string) : M D unit :=
  r ← (λ s, let '(r, d) := serial_open port (s_dev s) in (Ret r, set_dev d s));
  match r with
  | inl msg => raise (OSError msg)
  | inr fd =>
      log DEBUG ("Opened " +:+ port +:+ " on fd " +:+ str_of_Z fd) ;;
      serial_ioctl false (Z.lor TIOCM_RTS TIOCM_DTR)
  end.

Definition rcd_close : M D unit :=
  log DEBUG "Closing serial device" ;; modify (λ s, set_dev (serial_close (s_dev s)) s).

(** [time] is in milliseconds. *)
Definition toggle_pin (pin : Z) (time : pyval) : M D unit :=
  log DEBUG "Set pin high" ;;
  serial_ioctl true pin ;;
  n ← as_int time;
  sleep_us (n * 1000)%Z ;;
  log DEBUG "Set pin low" ;;
  serial_ioctl false pin.

(** The seconds of the option are taken for milliseconds. *)
Definition reboot_device : M D bool :=
  time ← opt_get "--power-wait"; toggle_pin TIOCM_DTR time ;; mret true.

Definition rcd_opts : list (string * optdef) := [
  ("serial_port", opt [Getopt ":";
     Longopt "serial-port";
     Help "--serial-port=[port]           Port of the serial device (e.g. /dev/ttyS0)";
     Required "1";
     Shortdesc "Port of the serial device";
     Default (VStr "/dev/ttyS0");
     Order 1])
].

Definition rcd_docs : docs := Docs
  "fence_rcd_serial is a Power Fencing agent that operates a serial cable that toggles a reset of an opposing server using the reset switch on its motherboard. The cable itself is simple with no power, network or moving parts. An example of the cable is available here: https://smcleod.net/rcd-stonith/ and the circuit design is available in the fence-agents src as SVG"
  "rcd_serial fence agent" (Some "https://github.com/sammcj/fence_rcd_serial") [] None.

Definition fence_rcd_serial_main (fuel : nat) (inv : invocation)
    (set_order : list string → list string) : M D unit :=
  add_options rcd_opts ;;
  allopt_set "method" (Default (VStr "cycle")) ;;
  allopt_set "power_wait" (Default (VStr "2")) ;;
  allopt_set "method" (Help "-m, --method=[method]          Method to fence (onoff|cycle) (Default: cycle)") ;;
  checked_options inv ["serial_port"; "no_status"; "no_password"; "no_login"; "method"; "no_on"; "no_off"] ;;
  show_docs (inv_prog inv) set_order (Some rcd_docs) ;;
  action ← opt_get "--action";
  mwhen (bool_decide (action ∈ [VStr "off"; VStr "reboot"])) (delay ← opt_int "--delay"; sleep delay) ;;
  port ← opt_str "--serial-port";
  rcd_serial port ;;
  result ← fence_action fuel None None None (Some reboot_device) None;
  rcd_close ;;
  sys_exit result.
End Serial.
