(* ===== verification/Sessions.v ===== *)
(** * Sessions of requests, and fence_ovm

    Agents that make a session of the library requests, set it up once and send their
    requests through it. What a request gives is a class over the settings of the session;
    the texts of JSON are read by [loads]. [agents/ovm/fence_ovm.py] is the first of them;
    fence_ibmz and fence_nutanix_ahv have files of their own. *)

From S2P Require Import Prelude PyStr OptionDefs Effects Fail Host Input Process CheckInput.
From S2P Require Import Login Metadata Action Ipmilan Console MenuAgents SnmpAgents Json Globals Http WebAgents.
From S2P Require Import ServiceAgents IbmAgents.

Local Open Scope string_scope.

(** ** The library *)

(** What is mounted for addresses that begin with a prefix. *)
Inductive adapter :=
| Retrying (settings : list (string * json))
| ClientCertificate (certfile : string) (password : option string).

Record session := Session {
  ss_auth : option (string * option string);
  ss_headers : list (string * string);
  ss_verify : bool;
  ss_mounts : list (string * adapter)
}.

Definition new_session : session := Session None [] true [].

(** One request: the timeouts are for connecting and for reading. *)
Record http_call := HttpCall {
  call_method : string;
  call_url : string;
  call_json : option json;
  call_headers : list (string * string);
  call_verify : option bool;
  call_timeout : option (Z * Z)
}.

(** The subclasses of [RequestException] that the agents tell apart. A [ConnectTimeout]
    is caught as a [ConnectionError]. *)
Inductive requests_error :=
| SSLError (msg : string)
| ConnectionError (msg : string)
| Timeout_ (msg : string)
| OtherRequestError (msg : string).

Definition requests_message (e : requests_error) : string :=
  match e with SSLError m | ConnectionError m | Timeout_ m | OtherRequestError m => m end.

(** An answer, with the names of its headers in lower case and the request it answers. *)
Record http_reply := Reply {
  rp_status : Z;
  rp_reason : string;
  rp_text : string;
  rp_headers : list (string * string);
  rp_method : string;
  rp_url : string
}.

Class Sessions (D : Type) := {
  ses_request : session → http_call → D → (requests_error + http_reply) * D;
  (** [SSLContext.load_cert_chain]: the message of the error, of TLS or of the system. *)
  load_cert_chain : string → option string → D → option (string + string);
  (** [str(uuid.uuid1())] *)
  uuid1 : D → string * D;
  (** What Python prints for the literal of a float. *)
  float_literal : string → string
}.

#[export] Instance lift_sessions {G D} `{Sessions D} : Sessions (G * D) := {|
  ses_request s c := lift_op (ses_request s c);
  load_cert_chain f p w := load_cert_chain f p w.2;
  uuid1 := lift_op uuid1;
  float_literal := float_literal (D := D)
|}.

Section Requests.
Context {D : Type} `{Sessions D}.

(** The request itself; its error is a value, for the handlers that tell them apart. *)
Definition try_request (s : session) (c : http_call) : M D (requests_error + http_reply) := λ st,
  let '(r, d) := ses_request s c (s_dev st) in (Ret r, set_dev d st).

(** A [RequestException] is an OSError. *)
Definition session_request (s : session) (c : http_call) : M D http_reply :=
  r ← try_request s c;
  match r with inl e => raise (OSError (requests_message e)) | inr a => mret a end.

(** [response.json()] *)
Definition reply_json (r : http_reply) : M D json := loads (rp_text r).

Definition json_text (v : json) : string := json_str float_literal v.
End Requests.

(** ** fence_ovm *)

Section Ovm.
Context {D : Type} `{Sessions D}.

Definition ovm_states : list (string * string) :=
  [("RUNNING", "on"); ("STOPPED", "off"); ("SUSPENDED", "off")].

(** [state.get(v)] *)
Definition ovm_state (v : json) : M D (option string) :=
  match v with
  | JStr s => mret (dict_get s ovm_states)
  | JList _ | JDict _ => raise (TypeError ("unhashable type: '" +:+ json_type v +:+ "'"))
  | _ => mret None
  end.

Definition base_uri : M D string :=
  ip ← opt_show "--ip"; ipport ← opt_show "--ipport";
  mret ("https://" +:+ ip +:+ ":" +:+ ipport +:+ "/ovm/core/wsapi/rest").

(** The certificate of the client, loaded when the adapter is made. *)
Definition ssl_adapter (certfile : string) (password : option string) : M D adapter :=
  st ← get_st;
  match load_cert_chain certfile password (s_dev st) with
  | None => mret (ClientCertificate certfile password)
  | Some (inl _) =>
      log ERROR "Failed: The private key doesn't match with the certificate" ;;
      fail EC_GENERIC_ERROR true ;; unassigned "context"
  | Some (inr msg) =>
      log ERROR (certfile +:+ ": " +:+ msg) ;; fail EC_GENERIC_ERROR true ;; unassigned "context"
  end.

Definition ovm_connect : M D session :=
  password ← opt_find "--password";
  let password := py_str <$> password in
  has_username ← opt_has "--username";
  '(auth, mounts) ← (if (has_username : bool) then
                       username ← opt_show "--username"; mret (Some (username, password), [])
                     else
                       uri ← base_uri;
                       certfile ← opt_str "--ssl-client-certificate-file";
                       a ← ssl_adapter certfile password;
                       mret (None, [(uri, a)]));
  secure ← opt_has "--ssl-secure";
  insecure ← opt_has "--ssl-insecure";
  let verify := (secure : bool) || negb insecure in
  mwhen (verify && insecure) (log WARNING "The option '--ssl-insecure' is ignored") ;;
  mret (Session auth [("Accept", "application/json"); ("Content-Type", "application/json")] verify mounts).

Variable connection : session.

Definition failed_request (e : requests_error) : M D http_reply :=
  match e with
  | ConnectionError m | SSLError m => log ERROR m ;; fails EC_CONNECTION_LOST
  | Timeout_ m => log ERROR m ;; fails EC_TIMED_OUT
  | OtherRequestError m => log ERROR m ;; fails EC_GENERIC_ERROR
  end.

(** An answer that is not a success tells its message, if it has one. *)
Definition ovm_send_command (resources_path method : string) : M D json :=
  base ← base_uri;
  let uri := base +:+ resources_path in
  timeout ← opt_int "--shell-timeout";
  let timeout := if decide (timeout = 0)%Z then None else Some (timeout, timeout) in
  r ← try_request connection (HttpCall method uri None [] None timeout);
  response ← (match r with inl e => failed_request e | inr a => mret a end);
  result ← try_except (reply_json response)
    (λ e, match e with
          | ValueError _ =>
              Some (log ERROR (py_repr (rp_text response) +:+ " is not valid JSON. Status code is " +:+
                               str_of_Z (rp_status response)) ;; fails EC_GENERIC_ERROR)
          | _ => None
          end);
  log DEBUG (json_text result) ;;
  mwhen (bool_decide (method = "GET" ∧ rp_status response ≠ 200%Z) ||
         bool_decide (method = "PUT" ∧ rp_status response ≠ 201%Z))
    (let message := match result with JDict d => default JNull (dict_get "message" d) | _ => JNull end in
     (match message with
      | JNull => log ERROR ("Failed: Remote returned " +:+ str_of_Z (rp_status response) +:+ " for '" +:+
                            method +:+ "' request to " +:+ uri)
      | _ => log ERROR ("Failed: " +:+ method +:+ ": " +:+ str_of_Z (rp_status response) +:+ ": " +:+
                        json_text message)
      end) ;;
     fail EC_GENERIC_ERROR true) ;;
  mret result.

Definition opt_state (s : option string) : pyval := match s with Some x => VStr x | None => VNone end.

Definition ovm_get_power_status : M D pyval :=
  plug ← opt_show "--plug";
  vm ← ovm_send_command ("/Vm/" +:+ plug) "GET";
  v ← json_item vm "vmRunState";
  s ← ovm_state v;
  mret (opt_state s).

(** [v.upper()] *)
Definition json_upper (v : json) : M D string :=
  match v with
  | JStr s => mret (upper s)
  | _ => raise (AttributeError ("'" +:+ json_type v +:+ "' object has no attribute 'upper'"))
  end.

(** What a job that is done says: whether the command succeeded, or that nothing is known
    yet. *)
Definition job_result (job : json) : M D (option bool) :=
  v ← json_item job "jobRunState";
  run_state ← json_upper v;
  if decide (run_state = "FAILURE") then
    error ← json_item job "error";
    log ERROR ("Job failed: " +:+ json_text error) ;; mret (Some false)
  else if decide (run_state = "SUCCESS") then
    status ← ovm_get_power_status;
    action ← opt_get "--action";
    if decide (status = action) then mret (Some true)
    else
      plug ← opt_show "--plug";
      log DEBUG ("Job succeed, but '" +:+ plug +:+ "' power status is " +:+ py_str status) ;; mret None
  else mret None.

(** The rounds from number [n] on. *)
Fixpoint wait_for_job (fuel : nat) (n : Z) (job : json) : M D bool :=
  match fuel with
  | O => out_of_fuel
  | S k =>
      done ← json_item job "summaryDone";
      job ← (if json_truthy done then mret job
             else
               id ← json_item job "id"; id ← json_item id "value";
               ovm_send_command ("/Job/" +:+ json_text id) "GET");
      done ← json_item job "summaryDone";
      r ← (if json_truthy done then job_result job else mret None);
      match r with
      | Some b => mret b
      | None =>
          t ← opt_int "--stonith-status-sleep";
          sleep t ;;
          limit ← opt_int "--power-timeout";
          if ((0 <? limit) && (limit <=? n))%Z then
            plug ← opt_show "--plug"; action ← opt_show "--action";
            log ERROR ("Job failed: Timed out waiting for " +:+ plug +:+ " to power " +:+ action) ;;
            mret false
          else wait_for_job k (n + 1) job
      end
  end.

Definition sync_set_power_status (fuel : nat) : M D bool :=
  action ← opt_str "--action";
  action ← dict_item [("on", "start"); ("off", "kill")] action;
  plug ← opt_show "--plug";
  job ← ovm_send_command ("/Vm/" +:+ plug +:+ "/" +:+ action) "PUT";
  wait_for_job fuel 1 job.

Definition ovm_machine (os : outlets) (vm : json) : M D outlets :=
  v ← json_item vm "vmRunState";
  status ← ovm_state v;
  name ← json_item vm "name";
  id ← json_item vm "id"; id ← json_item id "value";
  key ← json_key id;
  mret (dict_insert key (json_text name, status) os).

Definition ovm_get_outlet_list : M D outlets :=
  virtual_machines ← ovm_send_command "/Vm" "GET";
  vms ← json_iter virtual_machines;
  mfold ovm_machine [] vms.
End Ovm.

(** The checks before those of [check_input]; with [stop] off all of them are made. *)
Definition ovm_validate_input {D} (opt : gmap string pyval) (stop : bool) : M D bool :=
  let has k := bool_decide (is_Some (opt !! k)) in
  let check (wrong : bool) (message : string) : M D bool :=
    mwhen wrong (fail_usage message stop) ;; mret (negb wrong) in
  a ← check (negb (has "--username") && negb (has "--ssl-client-certificate-file"))
        "Failed: You have to enter username or ssl client certificate file";
  b ← check (has "--username" && has "--ssl-client-certificate-file")
        "Failed: You have to enter eather username or ssl client certificate file";
  c ← check (has "--username" && (negb (has "--password") && negb (has "--password-script")))
        "Failed: You have to enter password or password script";
  d ← (match opt !! "--shell-timeout" with
       | Some v =>
           match py_int v with
           | inl t =>
               check (t <? 0)%Z ("Failed: Attempted to set --shell-timeout to " +:+ str_of_Z t +:+
                 ", but the timeout cannot be set to a value less than 0")
           | inr _ => mret true
           end
       | None => mret true
       end);
  mret (a && b && c && d).

Definition ovm_opts : list (string * optdef) := [
  ("ssl_client_certificate_file", opt [Getopt ":";
     Longopt "ssl-client-certificate-file";
     Help "--ssl-client-certificate-file=[filename]   SSL client certificate file";
     Required "0";
     Order 1])
].

Definition ovm_docs : docs := Docs
  ("fence_ovm is a Power Fencing agent which can be used with the virtual machines managed by Oracle VM Manager.")
  ("Fence agent for Oracle VM") (Some ("https://www.oracle.com/virtualization/technologies/vm/")) [] None.

Definition documentation_asked (opt : gmap string pyval) : bool :=
  bool_decide (opt !! "--action" ∈ [Some (VStr "metadata"); Some (VStr "manpage")]) ||
  bool_decide (is_Some (opt !! "--help")) || bool_decide (is_Some (opt !! "--version")).

Definition ovm_checked {D} (opt : gmap string pyval) : M D unit :=
  if documentation_asked opt then mret tt
  else if decide (opt !! "--action" = Some (VStr "validate-all")) then
    ok ← ovm_validate_input opt false;
    mwhen (negb ok) (fail_usage "validate-all failed" true)
  else ovm_validate_input opt true ;; mret tt.

Definition fence_ovm_main {D} `{Host D, Sessions D} (fuel : nat) (time_start : Z) (inv : invocation)
    (set_order : list string → list string) : M D unit :=
  add_options ovm_opts ;;
  allopt_set "ipport" (Default (VStr "7002")) ;;
  '(avail_opt, opt) ← process_input inv
    ["ipaddr"; "ipport"; "login"; "no_login"; "passwd"; "no_password"; "port"; "ssl";
     "ssl_client_certificate_file"];
  ovm_checked opt ;;
  check_input (inv_env inv) avail_opt opt false ;;
  show_docs (inv_prog inv) set_order (Some ovm_docs) ;;
  run_delay time_start 0 0 ;;
  connection ← ovm_connect;
  result ← fence_action fuel None (Some (ovm_get_power_status connection))
             (Some (ovm_get_outlet_list connection)) None
             (Some (sync_set_power_status connection fuel));
  sys_exit result.
