(* ===== verification/Ibmz.v ===== *)
(** * The agent fence_ibmz

    [agents/ibmz/fence_ibmz.py]: a client of the HMC Web Services API with a session, a
    cache of the machines it has met, and operations that run as jobs of the HMC. The
    client is the state of the agent (Globals.v). *)

From S2P Require Import Prelude PyStr OptionDefs Effects Fail Host Input Process CheckInput.
From S2P Require Import Login Metadata Action Ipmilan Console MenuAgents SnmpAgents Json Globals Http WebAgents.
From S2P Require Import ServiceAgents IbmAgents Sessions.

Local Open Scope string_scope.

(** ** The client *)

(** [DEFAULT_CONFIG] with the values of the options in place. *)
Record hmc_config := HmcConfig {
  hmc_host : string;
  hmc_user : string;
  hmc_passwd : string;
  connect_retries : Z;
  read_retries : Z;
  connect_timeout : Z;
  operation_timeout : Z;
  read_timeout : Z;
  hmc_port : Z;
  hmc_ssl_verify : bool;
  load_on_activate : bool
}.

(** The headers of the open session, and for the name of a machine its address and its
    mode. *)
Record hmc_client := HmcClient {
  hmc_session : option (list (string * string));
  cpc_cache : list (string * (json * json))
}.

Definition logged_off : hmc_client := HmcClient None [].

Record mode_labels := ModeLabels { lb_nodes : string; lb_state_on : string; lb_start : string; lb_stop : string }.

Definition LABEL_BY_OP_MODE (dpm : bool) : mode_labels :=
  if dpm then ModeLabels "partitions" "active" "start" "stop"
  else ModeLabels "logical-partitions" "operating" "load" "deactivate".

Definition ERROR_NOT_FOUND (obj_type obj_name : string) : string :=
  obj_type +:+ " " +:+ obj_name +:+ " not found in this HMC. Attention: names are case-sensitive.".

(** [text[:n]] *)
Definition text_prefix (n : nat) (text : string) : string :=
  join "" (map utf8_encode (take n (code_points text))).

(** [str(ApiClientRequestError(...))] *)
Definition api_request_error (req_method req_uri status reason message : string) : exn :=
  CustomError "ApiClientRequestError"
    ("API request failed, details:" +:+ nl +:+
     "HTTP Request : " +:+ req_method +:+ " " +:+ req_uri +:+ nl +:+
     "HTTP Response status: " +:+ status +:+ nl +:+
     "Error reason: " +:+ reason +:+ nl +:+
     "Error message: " +:+ message +:+ nl).

(** [v.get(k, d)] *)
Definition json_get_or {D} (v : json) (k : string) (d : json) : M D json :=
  match v with
  | JDict l => mret (default d (dict_get k l))
  | _ => raise (AttributeError ("'" +:+ json_type v +:+ "' object has no attribute 'get'"))
  end.

(** [v.lower()] *)
Definition json_lower {D} (v : json) : M D string :=
  match v with
  | JStr s => mret (lower s)
  | _ => raise (AttributeError ("'" +:+ json_type v +:+ "' object has no attribute 'lower'"))
  end.

Section Client.
Context {D : Type} `{Sessions D}.
Variable cfg : hmc_config.

Definition create_session (headers : list (string * string)) : session :=
  let retry_obj := Retrying
    [("total", JInt (Z.max (connect_retries cfg) (read_retries cfg)));
     ("connect", JInt (connect_retries cfg)); ("read", JInt (read_retries cfg));
     ("method_whitelist", JList [JStr "HEAD"; JStr "GET"; JStr "OPTIONS"]); ("redirect", JInt 5)] in
  Session None headers true [("http://", retry_obj); ("https://", retry_obj)].

(** The reason and the message of an answer with an unexpected status. *)
Definition error_details (response : http_reply) : M (hmc_client * D) (string * string) :=
  if decide (dict_get "content-type" (rp_headers response) = Some "application/json") then
    json_resp ← try_except (v ← reply_json response; mret (Some v))
      (λ e, match e with ValueError _ => Some (mret None) | _ => None end);
    match json_resp with
    | None => mret ("(no reason)", "(no message)")
    | Some v =>
        reason ← json_get_or v "reason" (JStr "(no reason)");
        message ← json_get_or v "message" (JStr "(no message)");
        mret (json_text reason, json_text message)
    end
  else mret ("(no reason)", text_prefix 500 (rp_text response) +:+ "...").

Definition hmc_request (method uri : string) (body : option json) (valid_codes : list Z)
    : M (hmc_client * D) json :=
  let url := "https://" +:+ hmc_host cfg +:+ ":" +:+ str_of_Z (hmc_port cfg) +:+ uri in
  client ← globals;
  match hmc_session client with
  | None => raise (ValueError "You need to log on first")
  | Some headers =>
      response ← session_request (create_session headers)
        (HttpCall method url body [] (Some (hmc_ssl_verify cfg))
           (Some (connect_timeout cfg, read_timeout cfg)));
      let error := api_request_error (rp_method response) (rp_url response)
                     (str_of_Z (rp_status response)) in
      mwhen (bool_decide (valid_codes ≠ []) && negb (bool_decide (rp_status response ∈ valid_codes)))
        ('(reason, message) ← error_details response; raise (error reason message)) ;;
      if decide (rp_status response = 204)%Z then mret (JDict [])
      else
        try_except (reply_json response)
          (λ e, match e with
                | ValueError _ => Some (raise (error "(no reason)" "Invalid JSON content in response"))
                | _ => None
                end)
  end.

Definition update_cpc_cache (cpc_props : json) : M (hmc_client * D) unit :=
  object_uri ← json_item cpc_props "object-uri";
  dpm_enabled ← json_get_or cpc_props "dpm-enabled" (JBool false);
  name ← json_item cpc_props "name";
  key ← json_key name;
  client ← globals;
  set_globals (HmcClient (hmc_session client) (dict_insert key (object_uri, dpm_enabled) (cpc_cache client))).

(** [self._cpc_cache[cpc]] *)
Definition cached (cpc : string) : M (hmc_client * D) (json * json) :=
  client ← globals;
  match dict_get cpc (cpc_cache client) with Some x => mret x | None => raise (KeyError cpc) end.

Definition is_dpm_enabled (cpc : string) : M (hmc_client * D) bool :=
  client ← globals;
  if bool_decide (is_Some (dict_get cpc (cpc_cache client))) then
    x ← cached cpc; mret (json_truthy x.2)
  else
    list_resp ← hmc_request "get" ("/api/cpcs?name=" +:+ cpc) None [200%Z];
    cpcs ← json_item list_resp "cpcs";
    if json_truthy cpcs then
      first ← json_nth cpcs 0;
      update_cpc_cache first ;;
      x ← cached cpc; mret (json_truthy x.2)
    else raise (ValueError (ERROR_NOT_FOUND "CPC" cpc)).

Definition get_mode_labels (cpc : string) : M (hmc_client * D) mode_labels :=
  dpm ← is_dpm_enabled cpc; mret (LABEL_BY_OP_MODE dpm).

(** A machine in classic mode answers 404 when no partition has the name. *)
Definition get_partition (cpc partition : string) : M (hmc_client * D) json :=
  label_map ← get_mode_labels cpc;
  x ← cached cpc;
  resp ← hmc_request "get" (json_text x.1 +:+ "/" +:+ lb_nodes label_map +:+ "?name=" +:+ partition)
           None [200; 404]%Z;
  there ← json_in (lb_nodes label_map) resp;
  let not_found : M (hmc_client * D) json :=
    raise (ValueError (ERROR_NOT_FOUND "LPAR/Partition" partition)) in
  if negb there then not_found
  else
    nodes ← json_item resp (lb_nodes label_map);
    if json_truthy nodes then json_nth nodes 0 else not_found.

Definition completed (v : json) : bool :=
  existsb (λ code, same_key_value v (JInt code)) [200; 201; 204]%Z.

(** Rounds until the time [op_timeout]; each waits for a second. *)
Fixpoint hmc_wait (fuel : nat) (req_method req_uri : string) (job_uri : json) (op_timeout : Z)
    : M (hmc_client * D) unit :=
  match fuel with
  | O => out_of_fuel
  | S k =>
      now ← time;
      if (now <? op_timeout)%Z then
        job_resp ← hmc_request "get" (json_text job_uri) None [];
        status ← json_item job_resp "status";
        if text_is "complete" status then
          code ← json_item job_resp "job-status-code";
          if completed code then mret tt
          else
            code ← json_get_or job_resp "job-status-code" (JStr "(no status)");
            reason ← json_get_or job_resp "job-reason-code" (JStr "(no reason)");
            results ← json_get_or job_resp "job-results" (JDict []);
            message ← json_get_or results "message" (JStr "(no message)");
            raise (api_request_error req_method req_uri (json_text code) (json_text reason)
                     (json_text message))
        else sleep 1 ;; hmc_wait k req_method req_uri job_uri op_timeout
      else raise (CustomError "ApiClientError" "Timed out while waiting for job completion")
  end.

(** A timeout of [timeout] seconds is over after as many rounds. *)
Definition hmc_wait_for_job (req_method req_uri : string) (job_uri : json) (timeout : Z)
    : M (hmc_client * D) unit :=
  now ← time;
  hmc_wait (S (Z.to_nat timeout)) req_method req_uri job_uri (now + timeout * USEC)%Z.

(** In classic mode a partition is activated before it is started. The result says
    whether anything is left to do. *)
Definition activate (part_uri : string) : M (hmc_client * D) bool :=
  let op_uri := part_uri +:+ "/operations/activate" in
  job_resp ← hmc_request "post" op_uri (Some (JDict [("force", JBool true)])) [202%Z];
  let timeout := if decide (operation_timeout cfg = 0)%Z then 900%Z else operation_timeout cfg in
  log DEBUG ("waiting for activate (timeout " +:+ str_of_Z timeout +:+ " secs)") ;;
  job_uri ← json_item job_resp "job-uri";
  hmc_wait_for_job "post" op_uri job_uri timeout ;;
  mret (negb (load_on_activate cfg)).

Definition partition_switch_power (cpc partition : string) (start : bool) : M (hmc_client * D) unit :=
  props ← get_partition cpc partition;
  part_uri ← json_item props "object-uri";
  let part_uri := json_text part_uri in
  label_map ← get_mode_labels cpc;
  dpm ← is_dpm_enabled cpc;
  let body := if (dpm : bool) then None else Some (JDict [("force", JBool true)]) in
  go_on ← (if negb dpm && start then activate part_uri else mret true);
  mwhen go_on
    (let label := if start then lb_start label_map else lb_stop label_map in
     let op_uri := part_uri +:+ "/operations/" +:+ label in
     job_resp ← hmc_request "post" op_uri body [202%Z];
     mwhen (negb (bool_decide (operation_timeout cfg = 0%Z)))
       (log DEBUG ("waiting for " +:+ label +:+ " (timeout " +:+ str_of_Z (operation_timeout cfg) +:+ " secs)") ;;
        job_uri ← json_item job_resp "job-uri";
        hmc_wait_for_job "post" op_uri job_uri (operation_timeout cfg))).

Definition partition_status (cpc partition : string) : M (hmc_client * D) string :=
  label_map ← get_mode_labels cpc;
  part_props ← get_partition cpc partition;
  v ← json_item part_props "status";
  status ← json_lower v;
  mret (if decide (status = lb_state_on label_map) then "on" else "off").

(** The names of the machines, which are remembered. *)
Definition cpc_list : M (hmc_client * D) (list json) :=
  list_resp ← hmc_request "get" "/api/cpcs" None [200%Z];
  cpcs ← json_item list_resp "cpcs";
  l ← json_iter cpcs;
  mfold (λ names cpc_props,
    update_cpc_cache cpc_props ;;
    name ← json_item cpc_props "name";
    json_item cpc_props "status" ;;
    mret (names ++ [name])%list) [] l.

(** The partitions of a machine with their states. *)
Definition partition_list (cpc : string) : M (hmc_client * D) (list (json * string)) :=
  label_map ← get_mode_labels cpc;
  x ← cached cpc;
  list_resp ← hmc_request "get" (json_text x.1 +:+ "/" +:+ lb_nodes label_map) None [200%Z];
  parts ← json_item list_resp (lb_nodes label_map);
  l ← json_iter parts;
  mfold (λ parts part,
    name ← json_item part "name";
    v ← json_item part "status";
    status ← json_lower v;
    mret (parts ++ [(name, if decide (status = lb_state_on label_map) then "on" else "off")])%list) [] l.

(** A logon on a new session. *)
Definition logon : M (hmc_client * D) unit :=
  client ← globals;
  set_globals (HmcClient (Some []) (cpc_cache client)) ;;
  logon_resp ← hmc_request "post" "/api/sessions"
    (Some (JDict [("userid", JStr (hmc_user cfg)); ("password", JStr (hmc_passwd cfg))])) [200; 201]%Z;
  v ← json_item logon_resp "api-session";
  client ← globals;
  set_globals (HmcClient (Some [("X-API-Session", json_text v)]) (cpc_cache client)).

Definition logoff : M (hmc_client * D) unit :=
  client ← globals;
  match hmc_session client with
  | None => mret tt
  | Some _ =>
      hmc_request "delete" "/api/sessions/this-session" None [204%Z] ;;
      set_globals logged_off
  end.

Definition ibmz_disconnect : M (hmc_client * D) unit :=
  except_Exception logoff (λ _, log ERROR "Logoff failed: " ;; sys_exit 1).

(** ** The callbacks *)

(** Only the part before the slash is stripped of its spaces. *)
Definition parse_plug : M (hmc_client * D) (string * string) :=
  plug ← opt_str "--plug";
  match split1 "/"%char (strip plug) with
  | None => fail_usage "Please specify nodename in format cpc/partition" true ;; unassigned "cpc"
  | Some (cpc, partition) =>
      let cpc := strip cpc in
      mwhen (bool_decide (cpc = "") || bool_decide (partition = ""))
        (fail_usage "Please specify nodename in format cpc/partition" true) ;;
      mret (cpc, partition)
  end.

Definition ibmz_get_power_status : M (hmc_client * D) pyval :=
  log DEBUG "executing get_power_status" ;;
  '(cpc, partition) ← parse_plug;
  status ← partition_status cpc partition;
  mret (VStr status).

Definition ibmz_set_power_status : M (hmc_client * D) unit :=
  log DEBUG "executing set_power_status" ;;
  action ← opt_get "--action";
  if decide (action = VStr "on") then
    '(cpc, partition) ← parse_plug; partition_switch_power cpc partition true
  else if decide (action = VStr "off") then
    '(cpc, partition) ← parse_plug; partition_switch_power cpc partition false
  else fail_usage ("Invalid action " +:+ py_str action) true.

Definition ibmz_get_outlet_list : M (hmc_client * D) outlets :=
  log DEBUG "executing get_outlet_list" ;;
  cpcs ← cpc_list;
  mfold (λ os cpc,
    key ← json_key cpc;
    parts ← partition_list key;
    mret (foldl (λ os part,
      dict_insert (json_text cpc +:+ "/" +:+ json_text part.1) (json_text part.1, Some part.2) os) os parts))
    [] cpcs.
End Client.

(** ** Options and documentation *)

Definition ibmz_opts : list (string * optdef) := [
  ("connect_retries", opt [Getopt ":";
     Longopt "connect-retries";
     Help "--connect-retries=[number]     How many times to retry on connection errors";
     Default (VInt 3);
     Type_ "integer";
     Required "0";
     Shortdesc "How many times to retry on connection errors";
     Order 2]);
  ("read_retries", opt [Getopt ":";
     Longopt "read-retries";
     Help "--read-retries=[number]        How many times to retry on errors related to reading from server";
     Default (VInt 3);
     Type_ "integer";
     Required "0";
     Shortdesc "How many times to retry on read errors";
     Order 2]);
  ("connect_timeout", opt [Getopt ":";
     Longopt "connect-timeout";
     Help "--connect-timeout=[seconds]    How long to wait to establish a connection";
     Default (VInt 30);
     Type_ "second";
     Required "0";
     Shortdesc "How long to wait to establish a connection";
     Order 2]);
  ("operation_timeout", opt [Getopt ":";
     Longopt "operation-timeout";
     Help "--operation-timeout=[seconds]  How long to wait for power operation to complete (0 = do not wait)";
     Default (VInt 900);
     Type_ "second";
     Required "0";
     Shortdesc "How long to wait for power operation to complete";
     Order 2]);
  ("read_timeout", opt [Getopt ":";
     Longopt "read-timeout";
     Help "--read-timeout=[seconds]       How long to wait to read data from server";
     Default (VInt 300);
     Type_ "second";
     Required "0";
     Shortdesc "How long to wait for server data";
     Order 2]);
  ("load_on_activate", opt [Getopt "";
     Longopt "load-on-activate";
     Help "--load-on-activate             Rely on the HMC to perform a load operation on activation";
     Required "0";
     Order 3])
].

Definition port_desc : string := "Physical plug id in the format cpc-name/partition-name (case-sensitive)".

Definition ibmz_set_opts {D} : M D (list string) :=
  allopt_set "ipport" (Default (VInt 6794)) ;;
  allopt_set "power_timeout" (Default (VStr "300")) ;;
  allopt_set "port" (Shortdesc port_desc) ;;
  allopt_set "port" (Help ("-n, --plug=[id]                " +:+ port_desc)) ;;
  add_options ibmz_opts ;;
  mret ["ipaddr"; "ipport"; "login"; "passwd"; "port"; "connect_retries"; "connect_timeout";
        "operation_timeout"; "read_retries"; "read_timeout"; "ssl_secure"; "load_on_activate"].

Definition ibmz_docs : docs := Docs
  "fence_ibmz is a Power Fencing agent which uses the HMC Web Services API to fence IBM z LPARs."
  "Fence agent for IBM z LPARs" (Some "http://www.ibm.com") [] None.

(** ** The program *)

Section Main.
Context {D : Type} `{Host D, Sessions D}.

(** The configuration from the options. *)
Definition read_config : M (hmc_client * D) hmc_config :=
  hmc_address ← opt_show "--ip";
  hmc_userid ← opt_show "--username";
  hmc_password ← opt_show "--password";
  connect_retries ← opt_int "--connect-retries";
  read_retries ← opt_int "--read-retries";
  operation_timeout ← opt_int "--operation-timeout";
  connect_timeout ← opt_int "--connect-timeout";
  read_timeout ← opt_int "--read-timeout";
  port ← opt_int "--ipport";
  insecure ← opt_has "--ssl-insecure";
  load ← opt_has "--load-on-activate";
  mret (HmcConfig hmc_address hmc_userid hmc_password connect_retries read_retries connect_timeout
          operation_timeout read_timeout port (negb insecure) load).

(** [APIClient(...)] and the logon *)
Definition new_client (cfg : hmc_config) : M (hmc_client * D) unit :=
  mwhen (bool_decide (hmc_passwd cfg = "")) (raise (ValueError "Password cannot be empty")) ;;
  mwhen (bool_decide (hmc_user cfg = "")) (raise (ValueError "Username cannot be empty")) ;;
  set_globals logged_off ;;
  logon cfg.

(** The log level of urllib3 is left out. *)
Definition fence_ibmz_main (fuel : nat) (time_start : Z) (inv : invocation)
    (set_order : list string → list string) : M (hmc_client * D) unit :=
  device_opt ← ibmz_set_opts;
  checked_options inv device_opt ;;
  show_docs (inv_prog inv) set_order (Some ibmz_docs) ;;
  run_delay time_start 0 0 ;;
  cfg ← read_config;
  let failed : M (hmc_client * D) Z := log ERROR "Exception occurred: " ;; mret EC_GENERIC_ERROR in
  connected ← except_Exception (new_client cfg ;; mret None) (λ _, r ← failed; mret (Some r));
  match connected with
  | Some result => sys_exit result
  | None =>
      finally
        (result ← except_Exception
           (fence_action fuel (Some (ibmz_set_power_status cfg)) (Some (ibmz_get_power_status cfg))
              (Some (ibmz_get_outlet_list cfg)) None None)
           (λ _, failed);
         sys_exit result)
        (ibmz_disconnect cfg)
  end.
End Main.
