(* ===== verification/Dummy.v ===== *)
(** * fence_dummy

    [agents/dummy/fence_dummy.py]: a status in a file, failures that are made up, and the
    recorder, which leaves a request in a directory and waits for the response of another
    program. *)

From S2P Require Import Prelude PyStr OptionDefs Effects Fail Host Input Process CheckInput.
From S2P Require Import Sbd Metadata Action Login Globals SnmpAgents MenuAgents Json Http Sessions Ibmz.

Local Open Scope string_scope.

(** What the recorder asks of the system. A [string] is the message of an exception. *)
Class Recorder (D : Type) := {
  rec_uuid4 : D → string * D;
  rec_now : D → string;                 (* the time with its zone, as text *)
  rec_hostname : D → string;
  rec_randint : Z → Z → D → Z * D;
  rec_write : string → string → D → option string * D;
  rec_rename : string → string → D → option string * D;
  rec_remove : string → D → option string * D;
  rec_exists : D → string → bool;
  rec_getsize : D → string → string + Z;
  rec_read : D → string → string + string;
  (** [float(s)], in microseconds; [None] is its ValueError. *)
  float_us : string → option Z;
  (** What Python prints for the literal of a float. *)
  rec_float : string → string
}.

Definition dummy_plug_status : string := "on".

(** ** The status in a file *)

Section File.
Context `{Host D}.

Definition get_power_status_file : M D pyval :=
  path ← opt_str "--status-file";
  s ← get_st;
  mret (VStr match h_readfile (s_dev s) path with Some text => lower text | None => "off" end).

Definition write_status_file (path text : string) : M D unit := λ s,
  match h_writefile path text (s_dev s) with
  | Some d => (Ret tt, set_dev d s)
  | None => (Raise (OSError path), s)
  end.

Definition set_power_status_file : M D unit :=
  action ← opt_str "--action";
  if negb (bool_decide (action ∈ ["on"; "off"])) then mret tt
  else path ← opt_str "--status-file"; write_status_file path action.
End File.

(** ** Failures *)

(** The global [plug_status] *)
Section Failing.
Context {D : Type}.

(** The outlets are lists of the status and the word fake. *)
Definition get_outlets_fail : M (string * D) outlets :=
  action ← opt_get "--action";
  mwhen (bool_decide (action = VStr "on")) (set_globals "off") ;;
  plug_status ← globals;
  listed ← opt_find "--action";
  if decide (listed = Some (VStr "list")) then
    mret [("fake_port_1", (plug_status, Some "fake")); ("fake_port_2", (plug_status, Some "fake"))]
  else
    plug ← opt_find "--plug";
    match plug with
    | None => fail_usage "Failed: You have to enter existing machine!" true ;; mret []
    | Some v => port ← as_str v; mret [(port, (plug_status, Some "fake"))]
    end.

Definition get_power_status_fail : M (string * D) pyval :=
  outlets ← get_outlets_fail;
  plug ← opt_find "--plug";
  match outlets, plug with
  | [], _ | _, None => fail_usage "Failed: You have to enter existing machine!" true ;; mret VNone
  | _, Some v =>
      port ← as_str v;
      match dict_get port outlets with
      | Some o => mret (VStr o.1)
      | None => raise (KeyError port)
      end
  end.

Definition set_power_status_fail : M (string * D) unit :=
  set_globals "unknown" ;;
  action ← opt_get "--action";
  mwhen (bool_decide (action = VStr "on")) (set_globals "off").
End Failing.

(** ** The recorder *)

Section Recording.
Context {D : Type} `{Host D, Recorder D}.

Definition setup_recorder_logging (log_path : string) : M D unit :=
  makedirs log_path ;;
  let fence_log := path_join log_path "fence-events.log" in
  verbose ← verbose_level;
  mwhen (negb verbose) (logging_setup "level INFO") ;;
  logging_setup ("file " +:+ fence_log).

Definition record_fence_event (action target_node status details : string) : M D unit :=
  log INFO ("Fence event: action=" +:+ action +:+ ", target=" +:+ target_node +:+ ", status=" +:+ status +:+
            ", details=" +:+ details).

(** An operation on files; its message is that of an OSError. *)
Definition file_op (f : D → option string * D) : M D unit := λ s,
  match f (s_dev s) with
  | (None, d) => (Ret tt, set_dev d s)
  | (Some msg, d) => (Raise (OSError msg), set_dev d s)
  end.

Definition file_value {A} (f : D → string + A) : M D A := λ s,
  match f (s_dev s) with
  | inr a => (Ret a, s)
  | inl msg => (Raise (OSError msg), s)
  end.

Definition request_name (target_node request_id : string) : string :=
  target_node +:+ "-" +:+ request_id +:+ ".json".

(** The request is written under a temporary name and renamed. *)
Definition write_fence_request_recorder (action target_node request_dir : string) : M D (option string) :=
  makedirs request_dir ;;
  request_id ← (λ s, let '(id, d) := rec_uuid4 (s_dev s) in (Ret id, set_dev d s));
  let filename := request_name target_node request_id in
  let temp_file := path_join request_dir ("." +:+ filename +:+ ".tmp") in
  let final_file := path_join request_dir filename in
  s ← get_st;
  let request_data := JDict
    [("request_id", JStr request_id); ("timestamp", JStr (rec_now (s_dev s))); ("action", JStr action);
     ("target_node", JStr target_node); ("recorder_node", JStr (rec_hostname (s_dev s)))] in
  except_Exception
    (file_op (rec_write temp_file (json_dumps_indent rec_float 2 request_data)) ;;
     file_op (rec_rename temp_file final_file) ;;
     log INFO ("Wrote fence request: " +:+ final_file) ;;
     mret (Some request_id))
    (λ e,
       log ERROR ("Failed to write fence request: " +:+ exn_str e) ;;
       try_except (file_op (rec_remove temp_file)) (λ e, match e with OSError _ => Some (mret tt) | _ => None end) ;;
       mret None).

(** One megabyte *)
Definition RESPONSE_LIMIT : Z := 1024 * 1024.

(** [f"{v}"] *)
Definition rec_text (v : json) : string := json_str rec_float v.

(** One look at the response: an answer, or nothing yet. Any exception is nothing yet. *)
Definition look_for_response (response_file : string) : M D (option (bool * json)) :=
  except_Exception
    (present ← host_test rec_exists response_file;
     if negb present then mret None
     else
       file_size ← file_value (λ d, rec_getsize d response_file);
       if (RESPONSE_LIMIT <? file_size)%Z then
         log ERROR ("Response file too large: " +:+ str_of_Z file_size +:+ " bytes") ;;
         mret (Some (false, JStr "Response file exceeds size limit"))
       else
         text ← file_value (λ d, rec_read d response_file);
         response_data ← loads text;
         success ← json_get_or response_data "success" (JBool false);
         message ← json_get_or response_data "message" (JStr "Fence operation completed");
         timestamp ← json_get_or response_data "timestamp" (JStr "unknown");
         response_target ← json_get_or response_data "target_node" (JStr "unknown");
         response_recorder ← json_get_or response_data "recorder_node" (JStr "unknown");
         log INFO ("Fence response received: success=" +:+ rec_text success +:+ ", message=" +:+ rec_text message +:+
                   ", timestamp=" +:+ rec_text timestamp) ;;
         log INFO ("Response metadata: target=" +:+ rec_text response_target +:+ ", recorder=" +:+
                   rec_text response_recorder) ;;
         mret (Some (json_truthy success, message)))
    (λ e, log DEBUG ("Waiting for response: " +:+ exn_str e) ;; mret None).

(** [start_time] and the interval are in microseconds, the timeout in seconds. *)
Fixpoint response_rounds (fuel : nat) (response_file : string) (start_time timeout poll_interval : Z)
    : M D (bool * json) :=
  match fuel with
  | O => out_of_fuel
  | S k =>
      now ← time;
      if (now - start_time <? timeout * USEC)%Z then
        r ← look_for_response response_file;
        match r with
        | Some answer => mret answer
        | None => sleep_us poll_interval ;; response_rounds k response_file start_time timeout poll_interval
        end
      else
        log ERROR ("Fence response timeout after " +:+ str_of_Z timeout +:+ "s") ;;
        mret (false, JStr ("Fence operation timed out after " +:+ str_of_Z timeout +:+ "s"))
  end.

Definition wait_for_fence_response_recorder (fuel : nat) (request_id target_node response_dir : string)
    (timeout poll_interval : Z) : M D (bool * json) :=
  makedirs response_dir ;;
  let response_file := path_join response_dir (request_name target_node request_id) in
  start_time ← time;
  log INFO ("Waiting for fence response: " +:+ response_file +:+ " (timeout=" +:+ str_of_Z timeout +:+ "s)") ;;
  response_rounds fuel response_file start_time timeout poll_interval.

Definition get_power_status_recorder : M D pyval := mret (VStr "on").

(** [float(v)] of an option, in microseconds *)
Definition opt_float (k : string) : M D Z :=
  v ← opt_get k;
  match v with
  | VInt n => mret (n * USEC)%Z
  | VStr x =>
      match float_us x with
      | Some t => mret t
      | None => raise (ValueError ("could not convert string to float: " +:+ py_repr x))
      end
  | _ => raise (TypeError "float() argument must be a string or a real number")
  end.

Definition sync_set_power_status_recorder (fuel : nat) : M D bool :=
  action ← opt_show "--action";
  target_node ← opt_show "--plug";
  request_path ← opt_str "--request-path";
  response_path ← opt_str "--response-path";
  timeout ← opt_int "--recorder-timeout";
  poll_interval ← opt_float "--recorder-poll-interval";
  if negb (bool_decide (action ∈ ["off"; "reboot"])) then mret true
  else
    record_fence_event action target_node "requested" ("Fence action " +:+ action +:+ " requested") ;;
    request_id ← write_fence_request_recorder action target_node request_path;
    match request_id with
    | None | Some "" =>
        record_fence_event action target_node "failed" "Failed to create fence request file" ;; mret false
    | Some request_id =>
        '(success, message) ← wait_for_fence_response_recorder fuel request_id target_node response_path timeout
                                poll_interval;
        if negb success then
          log ERROR ("Fence operation failed: " +:+ rec_text message) ;;
          record_fence_event action target_node "failed"
            ("Fence action " +:+ action +:+ " failed: " +:+ rec_text message) ;;
          mret false
        else
          record_fence_event action target_node "completed"
            ("Fence action " +:+ action +:+ " completed successfully: " +:+ rec_text message) ;;
          mret true
    end.
End Recording.

(** ** Options and the program *)

Definition DEFAULT_REQUEST_PATH : string := "@FENCETMPDIR@/fence_dummy/requests".
Definition DEFAULT_RESPONSE_PATH : string := "@FENCETMPDIR@/fence_dummy/responses".
Definition DEFAULT_RECORDER_TIMEOUT : string := "60".
Definition DEFAULT_RECORDER_POLL_INTERVAL : string := "0.5".
Definition DEFAULT_LOG_PATH : string := "@LOGDIR@".

Definition dummy_opts : list (string * optdef) := [
  ("status_file", opt [Getopt ":";
     Longopt "status-file";
     Help "--status-file=[file]           Name of file that holds current status";
     Required "0";
     Shortdesc "File with status";
     Default (VStr "/tmp/fence_dummy.status");
     Order 1]);
  ("random_sleep_range", opt [Getopt ":";
     Longopt "random_sleep_range";
     Help "--random_sleep_range=[seconds] Issue a sleep between 1 and [seconds]";
     Required "0";
     Shortdesc "Issue a sleep between 1 and X seconds. Used for testing.";
     Order 1]);
  ("type", opt [Getopt ":";
     Longopt "type";
     Help "--type=[type]                  Possible types are: file, fail, and recorder";
     Required "0";
     Shortdesc "Type of the dummy fence agent";
     Default (VStr "file");
     Order 1]);
  ("request_path", opt [Getopt ":";
     Longopt "request-path";
     Help "--request-path=[path]          Directory for fence request files (recorder mode)";
     Required "0";
     Shortdesc "Request directory path for recorder mode";
     Default (VStr DEFAULT_REQUEST_PATH);
     Order 1]);
  ("response_path", opt [Getopt ":";
     Longopt "response-path";
     Help "--response-path=[path]         Directory for fence response files (recorder mode)";
     Required "0";
     Shortdesc "Response directory path for recorder mode";
     Default (VStr DEFAULT_RESPONSE_PATH);
     Order 1]);
  ("recorder_timeout", opt [Getopt ":";
     Longopt "recorder-timeout";
     Help "--recorder-timeout=[seconds]   Timeout for external response (recorder mode)";
     Required "0";
     Shortdesc "Response timeout for recorder mode";
     Default (VStr DEFAULT_RECORDER_TIMEOUT);
     Order 1]);
  ("recorder_poll_interval", opt [Getopt ":";
     Longopt "recorder-poll-interval";
     Help "--recorder-poll-interval=[sec] Poll interval for response check (recorder mode)";
     Required "0";
     Shortdesc "Poll interval for recorder mode";
     Default (VStr DEFAULT_RECORDER_POLL_INTERVAL);
     Order 1]);
  ("log_path", opt [Getopt ":";
     Longopt "log-path";
     Help "--log-path=[path]              Directory for fence event logs (recorder mode)";
     Required "0";
     Shortdesc "Log directory path for fence events";
     Default (VStr DEFAULT_LOG_PATH);
     Order 1])
].

Definition dummy_device_opt : list string :=
  ["no_password"; "status_file"; "random_sleep_range"; "type"; "port"; "no_port"; "request_path";
   "response_path"; "recorder_timeout"; "recorder_poll_interval"; "log_path"].

Definition dummy_docs : docs := Docs
  "fence_dummy is a fake fence agent for testing. It supports three modes: 'file' (status in file), 'fail' (simulated failures), and 'recorder' (request/response coordination with external systems)."
  "Dummy fence agent" (Some "http://www.example.com") [] None.

#[export] Instance lift_recorder {G D} `{Recorder D} : Recorder (G * D) := {|
  rec_uuid4 := lift_op rec_uuid4;
  rec_now w := rec_now w.2;
  rec_hostname w := rec_hostname w.2;
  rec_randint a b := lift_op (rec_randint a b);
  rec_write path text := lift_op (rec_write path text);
  rec_rename a b := lift_op (rec_rename a b);
  rec_remove path := lift_op (rec_remove path);
  rec_exists w := rec_exists w.2;
  rec_getsize w := rec_getsize w.2;
  rec_read w := rec_read w.2;
  float_us := float_us (D := D);
  rec_float := rec_float (D := D)
|}.

Section Main.
Context {D : Type} `{Host D, Recorder D}.

(** [random.randint(1, val)]: an empty range is a ValueError. *)
Definition random_sleep : M (string * D) unit :=
  given ← opt_has "--random_sleep_range";
  if (given : bool) then
    val ← opt_int "--random_sleep_range";
    mwhen (val <? 1)%Z (raise (ValueError "empty range for randrange()")) ;;
    ran ← (λ s, let '(n, d) := rec_randint 1 val (s_dev s) in (Ret n, set_dev d s));
    log INFO ("Random sleep for " +:+ str_of_Z ran +:+ " seconds" +:+ nl) ;;
    sleep ran
  else mret tt.

Definition dummy_action (fuel : nat) : M (string * D) Z :=
  type ← opt_get "--type";
  if decide (type = VStr "fail") then
    fence_action fuel (Some set_power_status_fail) (Some get_power_status_fail) (Some get_outlets_fail) None None
  else if decide (type = VStr "recorder") then
    fence_action fuel None (Some get_power_status_recorder) None None (Some (sync_set_power_status_recorder fuel))
  else fence_action fuel (Some set_power_status_file) (Some get_power_status_file) None None None.

Definition fence_dummy_main (fuel : nat) (time_start : Z) (inv : invocation)
    (set_order : list string → list string) : M (string * D) unit :=
  allopt_set "port" (Required "0") ;;
  add_options dummy_opts ;;
  checked_options inv dummy_device_opt ;;
  show_docs (inv_prog inv) set_order (Some dummy_docs) ;;
  type ← opt_find "--type";
  mwhen (bool_decide (type = Some (VStr "recorder")))
    (log_path ← opt_str "--log-path"; setup_recorder_logging log_path) ;;
  run_delay time_start 0 0 ;;
  random_sleep ;;
  result ← dummy_action fuel;
  sys_exit result.
End Main.
