(* ===== verification/Nutanix.v ===== *)
(** * The agent fence_nutanix_ahv

    [agents/nutanix_ahv/fence_nutanix_ahv.py]: a client of the API of Prism Central. Each
    layer of the client logs the exceptions of the one below and raises its own; the
    headers of the session, which are its state, keep what former requests put there. *)

From S2P Require Import Prelude PyStr OptionDefs Effects Fail Host Input Process CheckInput.
From S2P Require Import Login Metadata Action Ipmilan Console MenuAgents SnmpAgents Json Globals Http WebAgents.
From S2P Require Import TableAgents ServiceAgents IbmAgents Sessions Ibmz.

Local Open Scope string_scope.

(** ** Exceptions *)

Definition NutanixClientException (msg : string) : exn := CustomError "NutanixClientException" msg.
Definition AHVFenceAgentException (msg : string) : exn := CustomError "AHVFenceAgentException" msg.
Definition TaskTimedOutException (msg : string) : exn := CustomError "TaskTimedOutException" msg.
Definition InvalidArgsException (msg : string) : exn := CustomError "InvalidArgsException" msg.

(** A [try] with a handler for each of some classes. *)
Definition except_classes {D A} (m : M D A) (handlers : list (string * (string → M D A))) : M D A :=
  try_except m (λ e,
    match e with
    | CustomError cls msg => (λ h, h msg) <$> dict_get cls handlers
    | _ => None
    end).

(** Handlers that log and raise [AHVFenceAgentException from err]. *)
Definition as_ahv {D A} (m : M D A) (handlers : list (string * M D unit)) : M D A :=
  except_classes m (map (λ ch, (ch.1, λ _, ch.2 ;; raise (AHVFenceAgentException ""))) handlers).

Definition on_client_error {D} (message : string) : string * M D unit :=
  ("NutanixClientException", log ERROR message).
Definition on_agent_error {D} (message : string) : string * M D unit :=
  ("AHVFenceAgentException", log ERROR message).

(** ** The client *)

Record nutanix := Nutanix {
  nx_host : string;
  nx_username : string;
  nx_password : string;
  nx_verify : bool
}.

(** The headers of the session. *)
Definition nx_headers : Type := list (string * string).

Definition nutanix_states : list (string * string) :=
  [("ON", "on"); ("OFF", "off"); ("PAUSED", "off"); ("UNKNOWN", "unknown")].

(** [raise_for_status]: the message of the HTTPError. *)
Definition http_error (r : http_reply) : option string :=
  let kind := if (400 <=? rp_status r)%Z && (rp_status r <? 500)%Z then Some "Client"
              else if (500 <=? rp_status r)%Z && (rp_status r <? 600)%Z then Some "Server" else None in
  (λ k, str_of_Z (rp_status r) +:+ " " +:+ k +:+ " Error: " +:+ rp_reason r +:+ " for url: " +:+ rp_url r)
    <$> kind.

Section Client.
Context {D : Type} `{Sessions D}.
Variable cfg : nutanix.

Definition nx_base_url : string := "https://" +:+ nx_host cfg +:+ ":9440/api".
Definition nx_vm_url : string := nx_base_url +:+ "/vmm/v4.0/ahv/config/vms".
Definition nx_task_url : string := nx_base_url +:+ "/prism/v4.0/config/tasks".

Definition nutanix_session (headers : nx_headers) : session :=
  Session (Some (nx_username cfg, Some (nx_password cfg))) headers true
    [("https://", Retrying [("total", JInt 5); ("backoff_factor", JInt 1);
                            ("status_forcelist", JList [JInt 429; JInt 500; JInt 503])])].

(** The handlers look at the text of a response that is not there when the request itself
    failed. *)
Definition nutanix_request (url method : string) (headers : nx_headers) : M (nx_headers * D) http_reply :=
  kept ← globals;
  let sent := foldl (λ h kv, dict_insert kv.1 kv.2 h) kept headers in
  set_globals sent ;;
  log DEBUG ("Sending " +:+ method +:+ " request to " +:+ url) ;;
  r ← try_request (nutanix_session sent) (HttpCall method url None [] (Some (nx_verify cfg)) None);
  match r with
  | inl (SSLError err) =>
      log ERROR "Secure connection failed, verify SSL certificate" ;;
      log ERROR ("Error message: " +:+ err) ;;
      raise (NutanixClientException "Secure connection failed")
  | inl _ => raise (AttributeError "'NoneType' object has no attribute 'text'")
  | inr response =>
      match http_error response with
      | Some err =>
          log ERROR ("API call failed: " +:+ rp_text response) ;;
          log ERROR ("Error message: " +:+ err) ;;
          raise (NutanixClientException ("API call failed: " +:+ err))
      | None =>
          if decide (rp_status response ∈ [200; 202]%Z) then mret response
          else
            log ERROR ("API call returned status code " +:+ str_of_Z (rp_status response)) ;;
            raise (NutanixClientException ("API call failed: <Response [" +:+ str_of_Z (rp_status response) +:+ "]>"))
      end
  end.

(** [_get_headers()] *)
Definition base_headers : nx_headers :=
  [("Accept", "application/json"); ("Content-Type", "application/json")].

(** An identifier is a value of JSON; the agent tests it for truth. *)
Definition nutanix_get_vm (vm_uuid : json) : M (nx_headers * D) http_reply :=
  if negb (json_truthy vm_uuid) then
    log ERROR "VM UUID was not provided" ;; raise (AHVFenceAgentException "VM UUID not provided")
  else
    log DEBUG ("Getting config information for VM, " +:+ json_text vm_uuid) ;;
    as_ahv (nutanix_request (nx_vm_url +:+ "/" +:+ json_text vm_uuid) "GET" base_headers)
      [on_client_error ("Failed to retrieve VM details for VM UUID: " +:+ json_text vm_uuid);
       on_agent_error "Failed to retrieve etag from headers"].

Definition new_uuid : M (nx_headers * D) string := λ s : st (nx_headers * D),
  let '(u, d) := uuid1 (D := nx_headers * D) (s_dev s) in (Ret u, set_dev d s).

(** [_get_headers(vm_uuid)]: what a change of the machine must be sent with. *)
Definition etag_headers (vm_uuid : json) : M (nx_headers * D) nx_headers :=
  resp ← as_ahv (nutanix_get_vm vm_uuid) [on_agent_error "Unable to retrieve etag"];
  match dict_get "etag" (rp_headers resp) with
  | None => raise (KeyError "etag")
  | Some etag_str =>
      request_id ← new_uuid;
      mret (base_headers ++ [("If-Match", etag_str); ("Ntnx-Request-Id", request_id)])%list
  end.

Definition get_all_vms (filter_str limit : string) : M (nx_headers * D) json :=
  let vm_url := nx_vm_url +:+
    (if decide (filter_str ≠ "") then
       "?$filter=" +:+ filter_str +:+ (if decide (limit ≠ "") then "&$limit=" +:+ limit else "")
     else if decide (limit ≠ "") then "?$limit=" +:+ limit else "") in
  log DEBUG ("Getting info for all VMs, " +:+ vm_url) ;;
  resp ← as_ahv (nutanix_request vm_url "GET" base_headers) [on_client_error "Unable to retrieve VM info"];
  reply_json resp.

Definition is_dict (v : json) : bool := match v with JDict _ => true | _ => false end.

(** The identifier of the first machine with the name, or none. *)
Fixpoint ext_id_of (vm_name : string) (vms : list json) : M (nx_headers * D) json :=
  match vms with
  | [] => mret JNull
  | vm :: vms' =>
      name ← json_item vm "name";
      if text_is vm_name name then json_item vm "extId" else ext_id_of vm_name vms'
  end.

Definition get_vm_uuid (vm_name : string) : M (nx_headers * D) json :=
  if decide (vm_name = "") then
    log ERROR "VM name was not provided" ;; raise (AHVFenceAgentException "VM name not provided")
  else
    resp ← as_ahv (get_all_vms ("name eq '" +:+ vm_name +:+ "'") "")
             [on_agent_error ("Failed to get VM info for VM " +:+ vm_name)];
    let unsuccessful (err : string) : M (nx_headers * D) json :=
      log ERROR ("Failed to retrieve VM UUID for VM " +:+ vm_name) ;; raise (AHVFenceAgentException err) in
    if negb (json_truthy resp) || negb (is_dict resp) then
      unsuccessful ("Failed to get VM UUID for " +:+ vm_name)
    else
      there ← json_in "data" resp;
      if negb there then unsuccessful ("Error: Unsuccessful match for VM name: " +:+ vm_name)
      else
        data ← json_item resp "data";
        vms ← json_iter data;
        ext_id_of vm_name vms.

(** A command for a machine, with its etag. *)
Definition vm_action (vm_uuid : json) (action failure : string) : M (nx_headers * D) http_reply :=
  as_ahv
    (headers_str ← etag_headers vm_uuid;
     nutanix_request (nx_vm_url +:+ "/" +:+ json_text vm_uuid +:+ "/$actions/" +:+ action) "POST" headers_str)
    [on_client_error (failure +:+ " VM " +:+ json_text vm_uuid);
     on_agent_error "Failed to retrieve etag from headers"].

Definition power_on_off_vm (power_state : string) (vm_uuid : json) : M (nx_headers * D) http_reply :=
  if negb (json_truthy vm_uuid) then
    log ERROR "VM UUID was not provided" ;; raise (AHVFenceAgentException "VM UUID not provided")
  else if decide (power_state = "") then
    log ERROR "Requested VM power state is None" ;; raise (InvalidArgsException "")
  else if decide (lower power_state = "on") then
    log DEBUG ("Sending request to power on VM, " +:+ json_text vm_uuid) ;;
    vm_action vm_uuid "power-on" "Failed to power off"
  else if decide (lower power_state = "off") then
    log DEBUG ("Sending request to power off VM, " +:+ json_text vm_uuid) ;;
    vm_action vm_uuid "power-off" "Failed to power off"
  else
    log ERROR ("Invalid power state specified: " +:+ lower power_state) ;; raise (InvalidArgsException "").

Definition power_cycle_request (vm_uuid : json) : M (nx_headers * D) http_reply :=
  if negb (json_truthy vm_uuid) then
    log ERROR "VM UUID was not provided" ;; raise (AHVFenceAgentException "VM UUID not provided")
  else
    log DEBUG ("Sending request to power cycle VM, " +:+ json_text vm_uuid) ;;
    vm_action vm_uuid "power-cycle" "Failed to power on".

(** ** Tasks *)

(** The status of a task; every exception becomes one of the agent. *)
Definition task_status (task_url : string) : M (nx_headers * D) json :=
  try_except
    (task_resp ← nutanix_request task_url "GET" base_headers;
     v ← reply_json task_resp; data ← json_item v "data"; json_item data "status")
    (λ e,
      if negb (is_Exception e) then None
      else
        let message := match e with
                       | CustomError cls _ =>
                           if decide (cls = "NutanixClientException") then "Unable to retrieve task status"
                           else "Unknown error"
                       | _ => "Unknown error"
                       end in
        Some (log ERROR message ;; raise (AHVFenceAgentException ""))).

(** Rounds of five seconds while time is left. *)
Fixpoint task_rounds (fuel : nat) (task_uuid : json) (timeout : Z) : M (nx_headers * D) unit :=
  match fuel with
  | O => out_of_fuel
  | S k =>
      if (timeout <=? 0)%Z then raise (TaskTimedOutException ("Task timed out: " +:+ json_text task_uuid))
      else
        sleep 5 ;;
        status ← task_status (nx_task_url +:+ "/" +:+ json_text task_uuid);
        if text_is "FAILED" status then
          raise (AHVFenceAgentException ("Task failed, task uuid: " +:+ json_text task_uuid))
        else if text_is "SUCCEEDED" status then mret tt
        else task_rounds k task_uuid (timeout - 5)
  end.

(** [int(timeout)], or the least timeout when there is none or no number. *)
Definition MIN_TIMEOUT : Z := 60.
Definition task_timeout (timeout : option pyval) : Z :=
  match timeout with
  | None => MIN_TIMEOUT
  | Some v => if truthy v then match py_int v with inl n => n | inr _ => MIN_TIMEOUT end else MIN_TIMEOUT
  end.

Definition nutanix_wait_for_task (task_uuid : json) (timeout : option pyval) : M (nx_headers * D) unit :=
  if negb (json_truthy task_uuid) then
    log ERROR "Task UUID was not provided" ;; raise (AHVFenceAgentException "Task UUID not provided")
  else
    let timeout := task_timeout timeout in
    task_rounds (S (Z.to_nat timeout)) task_uuid timeout.

Definition task_of (resp : http_reply) : M (nx_headers * D) json :=
  v ← reply_json resp; data ← json_item v "data"; json_item data "extId".

(** A wait whose failures are logged and raised again. *)
Definition wait_logged (resp : http_reply) (timeout : option pyval) (failed : list string) (late : string)
    : M (nx_headers * D) unit :=
  task_id ← task_of resp;
  except_classes (nutanix_wait_for_task task_id timeout)
    [("AHVFenceAgentException", λ _, mfor failed (log ERROR) ;; raise (AHVFenceAgentException ""));
     ("TaskTimedOutException", λ _, log ERROR late ;; raise (TaskTimedOutException ""))].

(** ** Machines *)

Definition nutanix_machine (os : outlets) (vm : json) : M (nx_headers * D) outlets :=
  vm_name ← json_item vm "name";
  ext_id ← json_item vm "extId";
  power_state ← json_item vm "powerState";
  key ← json_key vm_name;
  mret (dict_insert key (json_text ext_id,
          match power_state with JNull => None | v => Some (json_text v) end) os).

Definition list_vms (filter_str limit : string) : M (nx_headers * D) outlets :=
  vms ← as_ahv (get_all_vms filter_str limit) [on_client_error "Failed to retrieve VM list"];
  if negb (json_truthy vms) || negb (is_dict vms) then
    log ERROR "Failed to retrieve VM list" ;; raise (AHVFenceAgentException "Unable to get VM list")
  else
    there ← json_in "data" vms;
    if negb there then log DEBUG "Got invalid or empty VM list" ;; mret []
    else data ← json_item vms "data"; l ← json_iter data; mfold nutanix_machine [] l.

(** A name and an identifier of which one may be missing. *)
Definition nothing_given (vm_name : string) (vm_uuid : json) : bool :=
  bool_decide (vm_name = "") && negb (json_truthy vm_uuid).

Definition no_arguments {A} : M (nx_headers * D) A :=
  log ERROR "Require at least one of VM name or VM UUID" ;; raise (InvalidArgsException "No arguments provided").

Definition get_power_state (vm_name : string) (vm_uuid : json) : M (nx_headers * D) string :=
  if nothing_given vm_name vm_uuid then no_arguments
  else
    vm_uuid ← (if json_truthy vm_uuid then mret vm_uuid
               else as_ahv (get_vm_uuid vm_name)
                      [on_agent_error ("Unable to retrieve UUID of VM, " +:+ vm_name)]);
    resp ← as_ahv (nutanix_get_vm vm_uuid)
             [on_agent_error ("Unable to retrieve power state of VM " +:+ json_text vm_uuid)];
    v ← reply_json resp; data ← json_item v "data"; power_state ← json_item data "powerState";
    dict_of_text nutanix_states power_state.

(** The machine is not found: its identifier is [None], and [get_power_state] is given
    neither name nor identifier. *)
Definition set_power_state (vm_name : string) (vm_uuid : json) (power_state : string)
    (timeout : option pyval) : M (nx_headers * D) unit :=
  let power_state := lower power_state in
  if nothing_given vm_name vm_uuid then no_arguments
  else
    vm_uuid ← (if json_truthy vm_uuid then mret vm_uuid else get_vm_uuid vm_name);
    current_power_state ← as_ahv (get_power_state "" vm_uuid) [("AHVFenceAgentException", mret tt)];
    if decide (lower current_power_state = power_state) then
      log DEBUG ("VM already powered " +:+ power_state)
    else
      resp ← (if decide (power_state = "on" ∨ power_state = "off") then power_on_off_vm power_state vm_uuid
              else raise (AttributeError "'NoneType' object has no attribute 'json'"));
      wait_logged resp timeout
        ["Failed to power " +:+ power_state +:+ " VM"; "VM power " +:+ power_state +:+ " task failed"]
        ("Timed out powering " +:+ power_state +:+ " VM " +:+ json_text vm_uuid) ;;
      log DEBUG ("Powered " +:+ power_state +:+ " VM, " +:+ json_text vm_uuid +:+ " successfully").

Definition power_cycle_vm (vm_name : string) (vm_uuid : json) (timeout : option pyval)
    : M (nx_headers * D) unit :=
  if nothing_given vm_name vm_uuid then no_arguments
  else
    vm_uuid ← (if json_truthy vm_uuid then mret vm_uuid else get_vm_uuid vm_name);
    resp ← power_cycle_request vm_uuid;
    wait_logged resp timeout
      ["Failed to power-cycle VM " +:+ json_text vm_uuid; "VM power-cycle task failed with status, None"]
      ("Timed out power-cycling VM " +:+ json_text vm_uuid) ;;
    log DEBUG ("Power-cycled VM, " +:+ json_text vm_uuid).
End Client.

(** ** The callbacks *)

Section Callbacks.
Context {D : Type} `{Sessions D}.

(** [fail(code)] for each class; the message is logged first where the source does. *)
Definition failing {A} (m : M (nx_headers * D) A) (codes : list (string * (bool * Z))) : M (nx_headers * D) A :=
  except_classes m (map (λ kc, (kc.1, λ msg, mwhen kc.2.1 (log ERROR msg) ;; fails kc.2.2)) codes).

Definition nutanix_connect : M (nx_headers * D) nutanix :=
  host ← opt_show "--ip";
  username ← opt_show "--username";
  password ← opt_show "--password";
  insecure ← opt_has "--ssl-insecure";
  let cfg := Nutanix host username password (negb insecure) in
  set_globals [] ;;
  except_classes (list_vms cfg "" "1" ;; mret tt)
    [("AHVFenceAgentException", λ msg, log ERROR "Connection to Prism Central Failed" ;;
                                       log ERROR msg ;; fail EC_LOGIN_DENIED true)] ;;
  mret cfg.

(** [options.get(k)] as a text, empty for none *)
Definition text_option (k : string) : M (nx_headers * D) string :=
  v ← opt_find k; mret (match v with Some v => if truthy v then py_str v else "" | None => "" end).

(** The name and the identifier; [message] is logged when there is neither. *)
Definition name_and_uuid (message : string) : M (nx_headers * D) (string * json) :=
  vmid ← text_option "--uuid";
  name ← text_option "--plug";
  mwhen (bool_decide (vmid = "" ∧ name = "")) (log ERROR message ;; fail EC_BAD_ARGS true) ;;
  mret (name, if decide (vmid = "") then JNull else JStr vmid).

Variable client : nutanix.

Definition nutanix_get_list : M (nx_headers * D) outlets :=
  filter_str ← text_option "--filter";
  limit ← text_option "--limit";
  except_classes (list_vms client filter_str limit)
    [("AHVFenceAgentException", λ msg, log ERROR "Failed to list VMs" ;; log ERROR msg ;;
                                       fails EC_GENERIC_ERROR)].

Definition nutanix_get_power_status : M (nx_headers * D) pyval :=
  '(name, vmid) ← name_and_uuid "Need VM name or VM UUID for power op";
  state ← failing (get_power_state client name vmid)
            [("AHVFenceAgentException", (false, EC_GENERIC_ERROR)); ("InvalidArgsException", (false, EC_BAD_ARGS))];
  mret (VStr state).

Definition change_failures : list (string * (bool * Z)) :=
  [("AHVFenceAgentException", (true, EC_GENERIC_ERROR)); ("TaskTimedOutException", (true, EC_TIMED_OUT));
   ("InvalidArgsException", (false, EC_BAD_ARGS))].

Definition nutanix_set_power_status : M (nx_headers * D) unit :=
  action ← opt_str "--action";
  timeout ← opt_find "--power-timeout";
  '(name, vmid) ← name_and_uuid "Need VM name or VM UUID to set power state of a VM";
  failing (set_power_state client name vmid (lower action) timeout) change_failures.

(** The function returns [None], which [fence_action] takes for a cycle that failed. *)
Definition power_cycle : M (nx_headers * D) bool :=
  timeout ← opt_find "--power-timeout";
  '(name, vmid) ← name_and_uuid "Need VM name or VM UUID to set power cycling a VM";
  failing (power_cycle_vm client name vmid timeout) change_failures ;;
  mret false.
End Callbacks.

(** ** Options, documentation and the program *)

Definition nutanix_opts : list (string * optdef) := [
  ("filter", opt [Getopt ":";
     Longopt "filter";
     Help (nl +:+ "            --filter=[filter]	Filter list, list VMs actions." +:+ nl +:+ "            --filter=" +:+ dq +:+ "name eq 'node1-vm'" +:+ dq +:+ nl +:+ "            --filter=" +:+ dq +:+ "startswith(name,'node')" +:+ dq +:+ nl +:+ "            --filter=" +:+ dq +:+ "name in ('node1-vm','node-3-vm')" +:+ dq +:+ " ");
     Required "0";
     Shortdesc ("Filter list, get_liste.g: " +:+ dq +:+ "name eq 'node1-vm'" +:+ dq);
     Order 2])
].


Definition nutanix_docs : docs := Docs
  ("fence_nutanix_ahv is a Power Fencing agent for virtual machines deployed on Nutanix AHV cluster with the AHV cluster being managed by Prism Central.")
  ("Fence agent for Nutanix AHV Cluster VMs.") (Some ("https://www.nutanix.com")) [] None.


Definition fence_nutanix_ahv_main {D} `{Host D, Sessions D} (fuel : nat) (time_start : Z)
    (inv : invocation) (set_order : list string → list string) : M (nx_headers * D) unit :=
  add_options nutanix_opts ;;
  allopt_set "power_timeout" (Default (VStr "60")) ;;
  checked_options inv
    ["ipaddr"; "login"; "passwd"; "ssl"; "notls"; "web"; "port"; "filter"; "method";
     "disable_timeout"; "power_timeout"] ;;
  show_docs (inv_prog inv) set_order (Some nutanix_docs) ;;
  run_delay time_start 0 0 ;;
  client ← nutanix_connect;
  result ← fence_action fuel (Some (nutanix_set_power_status client))
             (Some (nutanix_get_power_status client)) (Some (nutanix_get_list client))
             (Some (power_cycle client)) None;
  sys_exit result.
