(* ===== verification/ServicesSpec.v ===== *)
(** * Jobs, tasks and responses

    Agents that hand a request to a service and wait for it: fence_ibmz returns only after
    its job is done, the exceptions of fence_nutanix_ahv stay inside, and the recorder of
    fence_dummy believes nothing but the response to its own request. *)

From S2P Require Import Prelude PyStr OptionDefs Effects Fail Host Input Process Login Metadata.
From S2P Require Import Action Globals Json JsonSpec Http WebAgents ServiceAgents Judgments.
From S2P Require Import Sessions Ibmz Sbd Dummy Nutanix.

Local Open Scope string_scope.

Lemma loads_same_clock {D} text : keeps same_clock (loads (D := D) text).
Proof. intros s. unfold loads. by destruct (json_loads text) as [[?|?]|]. Qed.

Lemma loads_Ret_inv {D} text (s : st D) v s' : loads text s = (Ret v, s') → json_loads text = Some (inl v) ∧ s' = s.
Proof. unfold loads. destruct (json_loads text) as [[w|msg]|]; [|done|done]. by intros [= -> <-]. Qed.

Section Jobs.
Context {D : Type} `{Sessions D}.
Variable cfg : hmc_config.
Implicit Types s : st (hmc_client * D).

(** The document that the last request of a run was answered with. *)
Definition last_answer (P : json → Prop) s : Prop :=
  ∃ ses c d r v, ses_request ses c d = (inr r, (s_dev s).2) ∧
    json_loads (rp_text r) = Some (inl v) ∧ P v.

(** A job that is complete, with one of the codes of success. The code is compared as
    Python compares numbers: 200.0 counts as 200. *)
Definition job_done (v : json) : Prop :=
  ∃ d code n, v = JDict d ∧ dict_get "status" d = Some (JStr "complete") ∧
    dict_get "job-status-code" d = Some code ∧
    same_key_value code (JInt n) = true ∧ n ∈ [200; 201; 204]%Z.

Lemma session_request_Ret_inv ses c s r s' :
  session_request ses c s = (Ret r, s') → ses_request ses c (s_dev s) = (inr r, s_dev s').
Proof.
  unfold session_request. intros (x & s1 & Ht & Hr)%bind_Ret_inv.
  unfold try_request in Ht. destruct (ses_request ses c (s_dev s)) as [y d] eqn:E.
  injection Ht as <- <-. destruct y as [e|y]; [discriminate Hr|].
  rewrite mret_eq in Hr. injection Hr as -> <-. done.
Qed.

Lemma hmc_request_Ret_inv method uri body codes s v s' :
  hmc_request cfg method uri body codes s = (Ret v, s') → v = JDict [] ∨ last_answer (eq v) s'.
Proof.
  unfold hmc_request. intros (client & s1 & Hg & Hr)%bind_Ret_inv.
  destruct (hmc_session client) as [headers|]; [|discriminate Hr].
  apply bind_Ret_inv in Hr as (response & s2 & Hreq & Hr). apply session_request_Ret_inv in Hreq.
  apply bind_Ret_inv in Hr as (u & s3 & Hw & Hr).
  assert (s3 = s2) as ->.
  { destruct (_ && _) in Hw; [|by injection Hw]. apply bind_Ret_inv in Hw as ([] & sx & _ & Hw). discriminate Hw. }
  case_decide as H204; [rewrite mret_eq in Hr; injection Hr as <- <-; by left|].
  right. unfold try_except in Hr. destruct (reply_json response s2) as [[w|e|] s4] eqn:El; [|by destruct e|done].
  injection Hr as -> ->. apply loads_Ret_inv in El as [El ->].
  cbn [ses_request lift_sessions] in Hreq. unfold lift_op in Hreq.
  destruct (ses_request _ _ (s_dev s1).2) as [y d] eqn:E. injection Hreq as -> Hd.
  eexists _, _, _, _, _. split; [|by split]. rewrite E, <- Hd. done.
Qed.

Lemma json_item_Ret_inv v k s w s' :
  json_item v k s = (Ret w, s') → ∃ d, v = JDict d ∧ dict_get k d = Some w ∧ s' = s.
Proof.
  destruct v as [| | | | | |d]; try done. unfold json_item.
  destruct (dict_get k d) as [x|] eqn:E; [|done]. rewrite mret_eq. intros [= <- <-]. eauto.
Qed.

Lemma hmc_wait_Ret_inv fuel req_method req_uri job_uri limit s u s' :
  hmc_wait cfg fuel req_method req_uri job_uri limit s = (Ret u, s') → last_answer job_done s'.
Proof.
  revert s. induction fuel as [|fuel IH]; intros s; [done|]. cbn [hmc_wait].
  intros (now & s1 & Ht & Hr)%bind_Ret_inv. destruct (now <? limit)%Z; [|discriminate Hr].
  apply bind_Ret_inv in Hr as (job & s2 & Hreq & Hr). apply hmc_request_Ret_inv in Hreq.
  apply bind_Ret_inv in Hr as (status & s3 & (d & -> & Hstatus & ->)%json_item_Ret_inv & Hr).
  destruct (text_is "complete" status) eqn:Hc.
  - apply bind_Ret_inv in Hr as (code & s4 & (d' & [= <-] & Hcode & ->)%json_item_Ret_inv & Hr).
    destruct (completed code) eqn:Hok; last first.
    { do 4 apply bind_Ret_inv in Hr as (? & ? & _ & Hr). discriminate Hr. }
    rewrite mret_eq in Hr. injection Hr as _ <-.
    destruct Hreq as [[= ->]|(ses & c & r & x & v & Ha & Hl & <-)]; [done|].
    exists ses, c, r, x, (JDict d). split_and!; [done|done|].
    destruct status as [| | | |w| |]; try done. cbn in Hc. apply bool_decide_eq_true in Hc as ->.
    unfold completed in Hok. apply existsb_exists in Hok as (n & Hn%list_elem_of_In & Hok).
    by exists d, code, n.
  - apply bind_Ret_inv in Hr as (? & ? & _ & Hr). by apply IH in Hr.
Qed.

Lemma activate_Ret_inv part_uri s b s' : activate cfg part_uri s = (Ret b, s') → last_answer job_done s'.
Proof.
  unfold activate. intros (r & s1 & _ & Hr)%bind_Ret_inv.
  apply bind_Ret_inv in Hr as (? & s2 & _ & Hr). apply bind_Ret_inv in Hr as (uri & s3 & _ & Hr).
  apply bind_Ret_inv in Hr as (? & s4 & Hw & Hr). rewrite mret_eq in Hr. injection Hr as _ <-.
  unfold hmc_wait_for_job in Hw. apply bind_Ret_inv in Hw as (now & s5 & _ & Hw).
  by apply hmc_wait_Ret_inv in Hw.
Qed.

Lemma switch_power_Ret_inv cpc partition start s u s' :
  operation_timeout cfg ≠ 0%Z →
  partition_switch_power cfg cpc partition start s = (Ret u, s') → last_answer job_done s'.
Proof.
  intros Ht. unfold partition_switch_power. intros (props & s1 & _ & Hr)%bind_Ret_inv.
  do 3 apply bind_Ret_inv in Hr as (? & ? & _ & Hr).
  apply bind_Ret_inv in Hr as (go_on & s2 & Hgo & Hr). destruct go_on; cbn [mwhen] in Hr.
  - apply bind_Ret_inv in Hr as (job & s3 & _ & Hr). rewrite bool_decide_false in Hr by done.
    cbn [negb mwhen] in Hr. apply bind_Ret_inv in Hr as (? & s4 & _ & Hr).
    apply bind_Ret_inv in Hr as (uri & s5 & _ & Hr).
    unfold hmc_wait_for_job in Hr. apply bind_Ret_inv in Hr as (now & s6 & _ & Hr).
    by apply hmc_wait_Ret_inv in Hr.
  - rewrite mret_eq in Hr. injection Hr as _ <-. destruct (_ && _) in Hgo; [|discriminate Hgo].
    by apply activate_Ret_inv in Hgo.
Qed.

(** ** The end of the waits *)

Lemma hmc_request_clock method uri body codes : keeps same_clock (hmc_request cfg method uri body codes).
Proof.
  unfold hmc_request. apply keeps_bind; [exact _|by intros ?|]. intros client.
  destruct (hmc_session client); [|by intros ?]. apply keeps_bind; [exact _| |intros response].
  { apply keeps_bind; [exact _| |intros []; by intros ?]. intros s. unfold try_request.
    by destruct (ses_request _ _ _). }
  apply keeps_bind; [exact _| |intros _].
  - apply keeps_when; [exact _|]. apply keeps_bind; [exact _| |intros []; by intros ?].
    unfold error_details. case_decide; [|by intros ?]. apply keeps_bind; [exact _| |].
    + apply keeps_try; [exact _| |intros [] ?; try done; intros [= <-]; by intros ?].
      apply keeps_bind; [exact _|apply loads_same_clock|by intros ? ?].
    + intros [v|]; [|by intros ?]. unfold json_get_or. destruct v; by intros ?.
  - case_decide; [by intros ?|]. apply keeps_try; [exact _|apply loads_same_clock|].
    intros [] ?; try done; intros [= <-]; by intros ?.
Qed.

Lemma ends_globals : only anything (globals (G := hmc_client) (D := D)).
Proof. by intros s. Qed.
Lemma ends_set_globals (c : hmc_client) : only anything (set_globals (D := D) c).
Proof. by intros s. Qed.
Lemma ends_json_get_or v k d : only anything (json_get_or (D := hmc_client * D) v k d).
Proof. unfold json_get_or. only_tac. Qed.

Lemma ends_session_request ses c : only anything (session_request (D := hmc_client * D) ses c).
Proof.
  apply only_bind; [intros s; unfold try_request; by destruct (ses_request _ _ _)|]. intros []; only_tac.
Qed.

#[local] Hint Resolve ends_globals ends_set_globals ends_json_get_or ends_session_request : fence.

Lemma ends_hmc_request method uri body codes : only anything (hmc_request cfg method uri body codes).
Proof.
  unfold hmc_request, error_details, reply_json. only_tac.
  all: apply (only_try _ anything); [only_tac|]; intros [] ?; cbn; first [exact I|only_tac].
Qed.

#[local] Hint Resolve ends_hmc_request : fence.

Lemma runs_bind {A B} (m : M (hmc_client * D) A) (f : A → M (hmc_client * D) B) s :
  only anything m → (∀ a s1, m s = (Ret a, s1) → (f a s1).1 ≠ OutOfFuel) → ((m ≫= f) s).1 ≠ OutOfFuel.
Proof.
  intros Hm Hf. specialize (Hm s). unfold mbind, M_bind.
  destruct (m s) as [[a|e|] s1] eqn:E; [by apply Hf|done|done].
Qed.

Lemma ends_only {A} (m : M (hmc_client * D) A) : (∀ s, (m s).1 ≠ OutOfFuel) → only anything m.
Proof. intros Hm s. specialize (Hm s). by destruct (m s).1. Qed.

Lemma ends_here {A} (m : M (hmc_client * D) A) s : only anything m → (m s).1 ≠ OutOfFuel.
Proof. intros Hm. specialize (Hm s). by destruct (m s).1. Qed.

(** A round for every second that is left, and one to see that the time is over. *)
Lemma hmc_wait_ends fuel req_method req_uri job_uri limit s :
  (0 < fuel)%nat → (limit - s_clock s ≤ (Z.of_nat fuel - 1) * USEC)%Z →
  (hmc_wait cfg fuel req_method req_uri job_uri limit s).1 ≠ OutOfFuel.
Proof.
  revert s. induction fuel as [|fuel IH]; intros s H0 Hf; [lia|]. cbn [hmc_wait].
  apply runs_bind; [by intros ?|]. intros now s0 [= <- <-].
  destruct (s_clock s <? limit)%Z eqn:E; [|done].
  apply runs_bind; [auto with fence|]. intros job s1 Hreq.
  assert (s_clock s1 = s_clock s) as Hc.
  { pose proof (hmc_request_clock "get" (json_text job_uri) None [] s) as Hc. by rewrite Hreq in Hc. }
  apply runs_bind; [auto with fence|]. intros status s2 (d & -> & _ & ->)%json_item_Ret_inv.
  destruct (text_is "complete" status).
  { apply ends_here. only_tac. }
  apply runs_bind; [auto with fence|]. intros u s3. rewrite sleep_eq by done. intros [= <- <-].
  apply IH; cbn [s_clock set_clock add_event]; unfold USEC in *; lia.
Qed.

Lemma ends_hmc_wait_for_job req_method req_uri job_uri timeout :
  only anything (hmc_wait_for_job cfg req_method req_uri job_uri timeout).
Proof.
  apply ends_only. intros s. unfold hmc_wait_for_job. apply runs_bind; [by intros ?|].
  intros now s0 [= <- <-]. apply hmc_wait_ends; unfold USEC; lia.
Qed.

#[local] Hint Resolve ends_hmc_wait_for_job : fence.

Lemma ends_is_dpm_enabled cpc : only anything (is_dpm_enabled cfg cpc).
Proof. unfold is_dpm_enabled, cached, update_cpc_cache. only_tac. Qed.

Lemma ends_cached cpc : only anything (cached (D := D) cpc).
Proof. unfold cached. only_tac. Qed.

#[local] Hint Resolve ends_is_dpm_enabled ends_cached : fence.

Lemma ends_get_partition cpc partition : only anything (get_partition cfg cpc partition).
Proof. unfold get_partition, get_mode_labels. only_tac. Qed.

#[local] Hint Resolve ends_get_partition : fence.

Lemma ends_switch_power cpc partition start :
  only anything (partition_switch_power cfg cpc partition start).
Proof. unfold partition_switch_power, get_mode_labels, activate. only_tac. Qed.

Lemma ends_parse_plug : only anything (parse_plug (D := D)).
Proof. unfold parse_plug, fail_usage, unassigned. only_tac. Qed.

#[local] Hint Resolve ends_switch_power ends_parse_plug : fence.

(** C12. The callback of fence_ibmz that changes the power ends, whatever the HMC answers:
    every wait for a job is over when its timeout is. *)
Theorem ibmz_power_ends s : (ibmz_set_power_status cfg s).1 ≠ OutOfFuel.
Proof. apply ends_here. unfold ibmz_set_power_status, fail_usage. only_tac. Qed.


(** C11. fence_ibmz reports a change of power only when its job is done: when the callback
    returns for on or off, and a timeout for operations is set, the last thing that was
    read of the HMC is a job with the status complete and a code of success. *)
Theorem ibmz_power_confirmed s u s' :
  operation_timeout cfg ≠ 0%Z → ibmz_set_power_status cfg s = (Ret u, s') → last_answer job_done s'.
Proof.
  intros Ht. unfold ibmz_set_power_status. intros (? & s1 & _ & Hr)%bind_Ret_inv.
  apply bind_Ret_inv in Hr as (action & s2 & _ & Hr).
  repeat case_decide.
  - apply bind_Ret_inv in Hr as ([cpc partition] & s3 & _ & Hr). by apply switch_power_Ret_inv in Hr.
  - apply bind_Ret_inv in Hr as ([cpc partition] & s3 & _ & Hr). by apply switch_power_Ret_inv in Hr.
  - exfalso. unfold fail_usage in Hr. apply bind_Ret_inv in Hr as (? & s3 & _ & Hr).
    apply bind_Ret_inv in Hr as (? & s4 & _ & Hr). discriminate Hr.
Qed.
End Jobs.

(** ** An example: an LPAR in classic mode that is deactivated *)

(** A console that answers with the replies of a script, in order. *)
Definition script : Type := list (Z * string).

#[local] Instance scripted : Sessions script := {|
  ses_request _ c d :=
    match d with
    | [] => (inl (ConnectionError "Connection refused"), [])
    | (status, text) :: d =>
        (inr (Reply status "" text [("content-type", "application/json")] (call_method c) (call_url c)), d)
    end;
  load_cert_chain _ _ _ := None;
  uuid1 d := ("", d);
  float_literal x := x
|}.

Definition hmc : hmc_config := HmcConfig "hmc" "hmcuser" "secret" 3 3 30 900 300 6794 true false.

Definition answers : script :=
  map (λ c, (c.1, json_dumps (λ x, x) (JDict c.2)))
    [(200, [("cpcs", JList [JDict [("object-uri", JStr "/api/cpcs/1"); ("name", JStr "CPC1")]])]);
     (200, [("logical-partitions", JList [JDict [("object-uri", JStr "/api/lpars/7")]])]);
     (202, [("job-uri", JStr "/api/jobs/3")]);
     (200, [("status", JStr "running")]);
     (200, [("status", JStr "complete"); ("job-status-code", JInt 204)])]%Z.

Definition hmc_start : st (hmc_client * script) :=
  St (list_to_map [("--action", VStr "off"); ("--plug", VStr "CPC1/LP01")]) ∅ [] 0
    (HmcClient (Some [("X-API-Session", "4711")]) [], answers).

Lemma ibmz_power_confirmed_witness :
  ∃ s', ibmz_set_power_status hmc hmc_start = (Ret tt, s') ∧ last_answer job_done s' ∧
    s_clock s' = USEC ∧ (s_dev s').2 = [].
Proof.
  assert ((ibmz_set_power_status hmc hmc_start).1 = Ret tt ∧
          s_clock (ibmz_set_power_status hmc hmc_start).2 = USEC ∧
          (s_dev (ibmz_set_power_status hmc hmc_start).2).2 = []) as (Hr & Hc & Hd)
    by (vm_compute; by split_and!).
  destruct (ibmz_set_power_status hmc hmc_start) as [r s'] eqn:E. cbn in Hr, Hc, Hd. subst r.
  exists s'. split; [done|]. split; [|by split].
  apply (ibmz_power_confirmed hmc hmc_start tt s'); [done|exact E].
Defined.

(** * The exceptions and the waits of fence_nutanix_ahv

    The client is built in layers, and each raises exceptions of its own: what a layer lets
    through is proved with the judgment [only], layer by layer. The callbacks end whatever
    the service answers. *)

(** ** Layers *)

(** Each class is handled, or let through. *)
Ltac handlers_tac :=
  repeat (apply Forall_cons_2;
    [cbn [dict_get map fst snd]; repeat first [rewrite decide_True by done | rewrite decide_False by done];
     first [closed_dec|only_tac]|]);
  apply Forall_nil_2.

Section Layers.
Context {D : Type}.

Lemma only_except_classes {A} (l l' : list string) (m : M D A) handlers :
  only (own l) m →
  Forall (λ cls, match dict_get cls handlers with
                 | Some h => ∀ msg, only (own l') (h msg)
                 | None => cls ∈ l'
                 end) l →
  only (own l') (except_classes m handlers).
Proof.
  intros Hm Hl. apply (only_try _ (own l)); [done|]. intros [] He; try done.
  cbn in He. apply (proj1 (Forall_forall _ _) Hl) in He. destruct (dict_get cls handlers) as [h|]; [apply He|exact He].
Qed.

Lemma only_as_ahv {A} (l l' : list string) (m : M D A) handlers :
  only (own l) m → Forall (λ ch, ∀ P, only P ch.2) handlers →
  "AHVFenceAgentException" ∈ l' → Forall (λ cls, cls ∈ handlers.*1 ∨ cls ∈ l') l →
  only (own l') (as_ahv m handlers).
Proof.
  intros Hm Hh Hahv Hl. apply (only_except_classes l); [done|].
  eapply Forall_impl; [exact Hl|]. cbn. intros cls Hcls.
  destruct (dict_get cls (map _ handlers)) as [h|] eqn:E.
  - intros msg. assert (∃ ch, ch ∈ handlers ∧ h = λ _, ch.2 ;; raise (AHVFenceAgentException "")) as (ch & Hin & ->).
    { clear -E. induction handlers as [|ch handlers IH]; [done|]. cbn in E. case_decide.
      - injection E as <-. exists ch. split; [by left|done].
      - destruct IH as (ch' & ? & ->); [done|]. exists ch'. split; [by right|done]. }
    apply only_bind; [by apply (proj1 (Forall_forall _ _) Hh)|]. intros _. by apply only_raise.
  - destruct Hcls as [Hin|]; [|done]. exfalso. clear -E Hin.
    induction handlers as [|ch handlers IH]; [by apply not_elem_of_nil in Hin|]. cbn in E.
    case_decide as Hc; [done|]. apply elem_of_cons in Hin as [->|Hin]; [done|]. by apply IH.
Qed.
End Layers.

Section Client.
Context {D : Type} `{Sessions D} {cfg : nutanix}.

Lemma only_globals {G} P : only P (globals (G := G) (D := D)).
Proof. by intros s. Qed.
Lemma only_set_globals {G} P (g : G) : only P (set_globals (D := D) g).
Proof. by intros s. Qed.
Lemma only_try_request P s c : only P (try_request (D := nx_headers * D) s c).
Proof. intros st. unfold try_request. by destruct (ses_request _ _ _). Qed.
Lemma only_new_uuid P : only P (new_uuid (D := D)).
Proof. intros s. unfold new_uuid. by destruct (uuid1 _). Qed.

#[local] Hint Resolve only_globals only_set_globals only_try_request only_new_uuid : fence.

Lemma request_raises url method headers :
  only (own ["NutanixClientException"]) (nutanix_request (D := D) cfg url method headers).
Proof. unfold nutanix_request. only_tac. Qed.

#[local] Hint Resolve request_raises : fence.

Ltac layer l := apply (only_as_ahv l);
  [|repeat (apply Forall_cons_2; [cbn; intros; auto with fence nocore|]); apply Forall_nil_2|closed_dec
   |repeat (constructor; [first [left; closed_dec|right; closed_dec]|]); constructor].

Lemma get_vm_raises uuid : only (own ["AHVFenceAgentException"]) (nutanix_get_vm (D := D) cfg uuid).
Proof. unfold nutanix_get_vm. only_tac. layer ["NutanixClientException"]. only_tac. Qed.

#[local] Hint Resolve get_vm_raises : fence.

Lemma etag_headers_raises uuid : only (own ["AHVFenceAgentException"]) (etag_headers (D := D) cfg uuid).
Proof. unfold etag_headers. only_tac. layer ["AHVFenceAgentException"]. only_tac. Qed.

#[local] Hint Resolve etag_headers_raises : fence.

Lemma get_all_vms_raises filter_str limit :
  only (own ["AHVFenceAgentException"]) (get_all_vms (D := D) cfg filter_str limit).
Proof. unfold get_all_vms. only_tac; [layer ["NutanixClientException"]; only_tac|unfold reply_json; only_tac]. Qed.

Lemma ext_id_of_raises name vms : only (own []) (ext_id_of (D := D) name vms).
Proof. induction vms as [|vm vms IH]; cbn [ext_id_of]; only_tac. Qed.

#[local] Hint Resolve get_all_vms_raises ext_id_of_raises : fence.

Lemma get_vm_uuid_raises name : only (own ["AHVFenceAgentException"]) (get_vm_uuid (D := D) cfg name).
Proof. unfold get_vm_uuid. only_tac. layer ["AHVFenceAgentException"]. only_tac. Qed.

Lemma vm_action_raises uuid action failure :
  only (own ["AHVFenceAgentException"]) (vm_action (D := D) cfg uuid action failure).
Proof.
  unfold vm_action. layer ["NutanixClientException"; "AHVFenceAgentException"]. only_tac.
Qed.

#[local] Hint Resolve get_vm_uuid_raises vm_action_raises : fence.

Lemma power_on_off_raises b uuid :
  only (own ["AHVFenceAgentException"; "InvalidArgsException"]) (power_on_off_vm (D := D) cfg b uuid).
Proof. unfold power_on_off_vm. only_tac. Qed.

Lemma power_cycle_request_raises uuid :
  only (own ["AHVFenceAgentException"]) (power_cycle_request (D := D) cfg uuid).
Proof. unfold power_cycle_request. only_tac. Qed.

(** Tasks. *)
Lemma task_status_raises url : only (own ["AHVFenceAgentException"]) (task_status (D := D) cfg url).
Proof.
  unfold task_status. apply (only_try _ (own ["NutanixClientException"])); [unfold reply_json; only_tac|].
  intros e He. destruct (is_Exception e) eqn:E; cbn [negb]; [|by destruct e].
  only_tac.
Qed.

#[local] Hint Resolve power_on_off_raises power_cycle_request_raises task_status_raises : fence.

Lemma task_rounds_raises fuel uuid timeout :
  (0 < fuel)%nat → (timeout < Z.of_nat fuel)%Z →
  only (own ["AHVFenceAgentException"; "TaskTimedOutException"]) (task_rounds (D := D) cfg fuel uuid timeout).
Proof.
  revert timeout. induction fuel as [|fuel IH]; intros timeout H0 Hf; [lia|]. cbn [task_rounds].
  destruct (timeout <=? 0)%Z eqn:E; only_tac. apply IH; lia.
Qed.

Lemma wait_for_task_raises uuid timeout :
  only (own ["AHVFenceAgentException"; "TaskTimedOutException"])
    (nutanix_wait_for_task (D := D) cfg uuid timeout).
Proof. unfold nutanix_wait_for_task. only_tac. apply task_rounds_raises; lia. Qed.

Lemma wait_logged_raises resp timeout failed late :
  only (own ["AHVFenceAgentException"; "TaskTimedOutException"])
    (wait_logged (D := D) cfg resp timeout failed late).
Proof.
  unfold wait_logged, task_of, reply_json. only_tac.
  apply (only_except_classes ["AHVFenceAgentException"; "TaskTimedOutException"]);
    [apply wait_for_task_raises|handlers_tac].
Qed.

#[local] Hint Resolve wait_logged_raises : fence.

(** Machines. *)
Lemma list_vms_raises filter_str limit :
  only (own ["AHVFenceAgentException"]) (list_vms (D := D) cfg filter_str limit).
Proof.
  unfold list_vms. only_tac; [layer ["AHVFenceAgentException"]; only_tac|unfold nutanix_machine; only_tac].
Qed.

Lemma get_power_state_raises name uuid :
  only (own ["AHVFenceAgentException"; "InvalidArgsException"]) (get_power_state (D := D) cfg name uuid).
Proof.
  unfold get_power_state, no_arguments, reply_json. only_tac; layer ["AHVFenceAgentException"]; only_tac.
Qed.

#[local] Hint Resolve list_vms_raises get_power_state_raises : fence.

Definition change_classes : list string :=
  ["AHVFenceAgentException"; "TaskTimedOutException"; "InvalidArgsException"].

Lemma set_power_state_raises name uuid state timeout :
  only (own change_classes) (set_power_state (D := D) cfg name uuid state timeout).
Proof.
  unfold set_power_state, no_arguments. only_tac.
  layer ["AHVFenceAgentException"; "InvalidArgsException"]. only_tac.
Qed.

Lemma power_cycle_vm_raises name uuid timeout :
  only (own change_classes) (power_cycle_vm (D := D) cfg name uuid timeout).
Proof. unfold power_cycle_vm, no_arguments. only_tac. Qed.
End Client.

(** ** The callbacks *)

Section Callbacks.
Context {D : Type} `{Sessions D}.

Lemma failing_contained {A} l (m : M (nx_headers * D) A) codes :
  only (own l) m → Forall (.∈ codes.*1) l → only (own []) (failing m codes).
Proof.
  intros Hm Hl. apply (only_except_classes l); [done|]. eapply Forall_impl; [exact Hl|].
  cbn. intros cls Hin. clear -Hin. induction codes as [|kc codes IH]; [by apply not_elem_of_nil in Hin|].
  cbn [map dict_get fst snd]. case_decide as Hk; [intros msg; only_tac|].
  apply elem_of_cons in Hin as [->|Hin]; [done|]. by apply IH.
Qed.

Lemma text_option_contained k : only (own []) (text_option (D := D) k).
Proof. unfold text_option. only_tac. Qed.

#[local] Hint Resolve text_option_contained : fence.

Lemma name_and_uuid_contained msg : only (own []) (name_and_uuid (D := D) msg).
Proof. unfold name_and_uuid. only_tac. Qed.

#[local] Hint Resolve name_and_uuid_contained : fence.

(** C13. The errors of fence_nutanix_ahv stay inside: whatever Prism Central answers, each
    callback ends - the waits for tasks are bounded by their timeout - and none of the four
    classes of exceptions that the agent declares leaves it; the layers hand each one on to
    a handler. *)
Theorem nutanix_errors_contained (client : nutanix) :
  only (own []) (nutanix_get_power_status (D := D) client) ∧
  only (own []) (nutanix_set_power_status (D := D) client) ∧
  only (own []) (nutanix_get_list (D := D) client) ∧
  only (own []) (power_cycle (D := D) client).
Proof.
  split_and!.
  - unfold nutanix_get_power_status. only_tac.
    apply (failing_contained ["AHVFenceAgentException"; "InvalidArgsException"]);
      [apply get_power_state_raises|closed_dec].
  - unfold nutanix_set_power_status. only_tac.
    apply (failing_contained change_classes); [apply set_power_state_raises|closed_dec].
  - unfold nutanix_get_list. only_tac.
    apply (only_except_classes ["AHVFenceAgentException"]); [apply list_vms_raises|].
    handlers_tac.
  - unfold power_cycle. only_tac.
    apply (failing_contained change_classes); [apply power_cycle_vm_raises|closed_dec].
Qed.

(** Without a limit, [--power-timeout=0], no task is waited for at all. *)
Lemma zero_timeout_is_over (client : nutanix) uuid (s : st (nx_headers * D)) :
  json_truthy uuid = true →
  nutanix_wait_for_task client uuid (Some (VStr "0")) s =
  (Raise (TaskTimedOutException ("Task timed out: " +:+ json_text uuid)), s).
Proof. intros Hu. unfold nutanix_wait_for_task. rewrite Hu. reflexivity. Qed.

(** A request that gets no answer ends in an exception of Python, since the handler reads
    the text of an answer that is not there. *)
Lemma no_answer_escapes (client : nutanix) url method headers (s : st (nx_headers * D)) :
  (∀ ses c d, ∃ msg d', ses_request ses c d = (inl (ConnectionError msg), d')) →
  ∃ s', nutanix_request client url method headers s =
    (Raise (AttributeError "'NoneType' object has no attribute 'text'"), s').
Proof.
  intros Hno. unfold nutanix_request, globals, set_globals, modify, log, mbind, M_bind, try_request.
  cbn. unfold lift_op. cbn.
  match goal with |- context[ses_request ?x ?y ?z] => destruct (Hno x y z) as (msg & d' & ->) end.
  by eexists.
Qed.
End Callbacks.

(** * The recorder of fence_dummy *)

Section Recorder.
Context {D : Type} `{Host D, Recorder D}.
Implicit Types s : st D.

(** A response that says success *)
Definition says_success (v : json) : Prop :=
  ∃ d x, v = JDict d ∧ dict_get "success" d = Some x ∧ json_truthy x = true.

(** The file holds such a response. *)
Definition confirmed_by (path : string) s : Prop :=
  ∃ text v, rec_read (s_dev s) path = inr text ∧ json_loads text = Some (inl v) ∧ says_success v.

Lemma json_get_or_Ret_inv v k d s w s' :
  json_get_or v k d s = (Ret w, s') → ∃ l, v = JDict l ∧ w = default d (dict_get k l) ∧ s' = s.
Proof. destruct v; try done. unfold json_get_or. rewrite mret_eq. intros [= <- <-]. eauto. Qed.

Lemma file_value_Ret_inv {A} (f : D → string + A) s a s' :
  file_value f s = (Ret a, s') → f (s_dev s) = inr a ∧ s' = s.
Proof. unfold file_value. destruct (f (s_dev s)); naive_solver. Qed.

Lemma look_Ret_inv path s message s' :
  look_for_response path s = (Ret (Some (true, message)), s') → confirmed_by path s'.
Proof.
  unfold look_for_response. intros [Hr|(e & s1 & k & _ & Hk & Hr)]%try_Ret_inv; last first.
  { destruct (is_Exception e); [|done]. injection Hk as <-. minv Hr; done. }
  apply bind_Ret_inv in Hr as (present & s1 & [= <- <-] & Hr).
  destruct (rec_exists (s_dev s) path); cbn [negb] in Hr; [|minv Hr; done].
  apply bind_Ret_inv in Hr as (size & s1 & [_ ->]%file_value_Ret_inv & Hr).
  destruct (_ <? size)%Z; [minv Hr; done|].
  apply bind_Ret_inv in Hr as (text & s1 & [Ht ->]%file_value_Ret_inv & Hr).
  apply bind_Ret_inv in Hr as (v & s1 & [Hl ->]%loads_Ret_inv & Hr).
  apply bind_Ret_inv in Hr as (success & s1 & (d & -> & -> & ->)%json_get_or_Ret_inv & Hr).
  do 4 apply bind_Ret_inv in Hr as (? & s1 & (? & _ & _ & ->)%json_get_or_Ret_inv & Hr).
  minv Hr. exists text, (JDict d). split_and!; [done..|].
  destruct (dict_get "success" d) as [w|] eqn:Hw; [by exists d, w|done].
Qed.

Lemma response_rounds_Ret_inv fuel path start timeout poll s message s' :
  response_rounds fuel path start timeout poll s = (Ret (true, message), s') → confirmed_by path s'.
Proof.
  revert s. induction fuel as [|fuel IH]; intros s; [done|]. cbn [response_rounds].
  intros (now & s1 & _ & Hr)%bind_Ret_inv. destruct (_ <? _)%Z; [|minv Hr; done].
  apply bind_Ret_inv in Hr as ([[ok m]|] & s2 & Hlook & Hr).
  - rewrite mret_eq in Hr. injection Hr as -> -> <-. by apply look_Ret_inv in Hlook.
  - apply bind_Ret_inv in Hr as (? & s3 & _ & Hr). by apply IH in Hr.
Qed.

Lemma opt_float_Ret_inv k s t s' : opt_float (D := D) k s = (Ret t, s') → s' = s.
Proof.
  unfold opt_float. intros (v & s1 & [_ ->]%opt_get_Ret_inv & Hr)%bind_Ret_inv.
  destruct v as [|x| |]; [done| |by injection Hr|done].
  destruct (float_us x); [by injection Hr|done].
Qed.

(** The request for an action on a node, under an identifier that was drawn for it: written
    to a temporary file and renamed into the directory of the requests. [w] and [w'] are
    the world before and after. *)
Definition request_placed (request_path action plug id : string) (w w' : D) : Prop :=
  ∃ w0 w1 w2 fields,
    let temp := path_join request_path ("." +:+ request_name plug id +:+ ".tmp") in
    h_makedirs request_path w = Some w0 ∧ rec_uuid4 w0 = (id, w1) ∧
    rec_write temp (json_dumps_indent rec_float 2 (JDict fields)) w1 = (None, w2) ∧
    rec_rename temp (path_join request_path (request_name plug id)) w2 = (None, w') ∧
    dict_get "request_id" fields = Some (JStr id) ∧
    dict_get "action" fields = Some (JStr action) ∧
    dict_get "target_node" fields = Some (JStr plug).

Lemma makedirs_Ret_inv path s u s' :
  makedirs path s = (Ret u, s') → h_makedirs path (s_dev s) = Some (s_dev s').
Proof. unfold makedirs. destruct (h_makedirs path (s_dev s)); [by intros [= _ <-]|done]. Qed.

Lemma file_op_Ret_inv (f : D → option string * D) s u s' :
  file_op f s = (Ret u, s') → f (s_dev s) = (None, s_dev s').
Proof. unfold file_op. destruct (f (s_dev s)) as [[m|] d]; [done|by intros [= _ <-]]. Qed.

(** A request that was written is in its place, under the identifier that is returned. *)
Lemma write_request_Ret_inv action target dir s id s' :
  write_fence_request_recorder action target dir s = (Ret (Some id), s') →
  request_placed dir action target id (s_dev s) (s_dev s').
Proof.
  unfold write_fence_request_recorder. intros (? & s1 & Hdir%makedirs_Ret_inv & Hr)%bind_Ret_inv.
  apply bind_Ret_inv in Hr as (i & s2 & Hid & Hr).
  assert (rec_uuid4 (s_dev s1) = (i, s_dev s2)) as Huuid
    by (destruct (rec_uuid4 _); by injection Hid as -> <-).
  apply bind_Ret_inv in Hr as (? & s3 & [= <- <-] & Hr).
  apply try_Ret_inv in Hr as [Hr|(e & s4 & k & _ & Hk & Hr)].
  - apply bind_Ret_inv in Hr as (? & s5 & Hwrite%file_op_Ret_inv & Hr).
    apply bind_Ret_inv in Hr as (? & s6 & Hname%file_op_Ret_inv & Hr). minv Hr.
    by eexists (s_dev s1), (s_dev s2), (s_dev s5), _.
  - destruct (is_Exception e); [|done]. injection Hk as <-.
    do 2 apply bind_Ret_inv in Hr as (? & ? & _ & Hr). minv Hr.
Qed.

(** C14. The recorder of fence_dummy believes only the response to its own request: when it
    reports that a node is fenced by off or reboot, it has placed a request for this action
    on this node, under an identifier that it drew for it, and the last thing it has read
    is the file for this node and for the very same identifier in the directory of the
    responses, which holds an object whose success is true. *)
Theorem recorder_confirmed fuel plug request_path response_path action s s' :
  s_opts s !! "--plug" = Some (VStr plug) → s_opts s !! "--request-path" = Some (VStr request_path) →
  s_opts s !! "--response-path" = Some (VStr response_path) →
  s_opts s !! "--action" = Some (VStr action) → action ∈ ["off"; "reboot"] →
  sync_set_power_status_recorder fuel s = (Ret true, s') →
  ∃ id w, request_placed request_path action plug id (s_dev s) w ∧
    confirmed_by (path_join response_path (request_name plug id)) s'.
Proof.
  intros Hp Hreq Hresp Ha Hin. unfold sync_set_power_status_recorder, opt_show.
  rewrite (bind_Ret _ _ s action s) by (by rewrite (bind_Ret _ _ _ _ _ (opt_get_eq _ _ _ Ha))).
  rewrite (bind_Ret _ _ s plug s) by (by rewrite (bind_Ret _ _ _ _ _ (opt_get_eq _ _ _ Hp))).
  rewrite (bind_Ret _ _ _ _ _ (opt_str_eq _ _ _ Hreq)), (bind_Ret _ _ _ _ _ (opt_str_eq _ _ _ Hresp)).
  intros (timeout & s1 & [_ ->]%opt_int_Ret_inv & Hr)%bind_Ret_inv.
  apply bind_Ret_inv in Hr as (poll & s2 & ->%opt_float_Ret_inv & Hr).
  rewrite bool_decide_true in Hr by done. cbn [negb] in Hr.
  apply bind_Ret_inv in Hr as (? & s3 & [= _ <-] & Hr). apply bind_Ret_inv in Hr as (id & s4 & Hid & Hr).
  destruct id as [id|]; [|minv Hr; done]. apply write_request_Ret_inv in Hid. exists id, (s_dev s4).
  destruct id as [|c id]; [minv Hr; done|]. split; [exact Hid|].
  apply bind_Ret_inv in Hr as ([[] message] & s5 & Hw & Hr); [|minv Hr; done].
  unfold wait_for_fence_response_recorder in Hw. do 3 apply bind_Ret_inv in Hw as (? & ? & _ & Hw).
  apply response_rounds_Ret_inv in Hw. cbn [negb] in Hr.
  unfold record_fence_event in Hr. minv Hr. exact Hw.
Qed.

(** ** The end of the wait *)

Lemma file_value_ends {A} (f : D → string + A) : only anything (file_value f).
Proof. intros s. unfold file_value. by destruct (f (s_dev s)). Qed.

Lemma host_test_ends (f : D → string → bool) path : only anything (host_test f path).
Proof. by intros s. Qed.

Lemma json_get_or_ends v k d : only anything (json_get_or (D := D) v k d).
Proof. unfold json_get_or. only_tac. Qed.

#[local] Hint Resolve file_value_ends host_test_ends json_get_or_ends : fence.

Lemma look_ends path : only anything (look_for_response path).
Proof.
  unfold look_for_response, except_Exception.
  apply only_try with (Q := anything); [only_tac|intros e _; destruct (is_Exception e); [only_tac|done]].
Qed.

Lemma file_value_same_clock {A} (f : D → string + A) : keeps same_clock (file_value f).
Proof. intros s. unfold file_value. by destruct (f (s_dev s)). Qed.

Lemma host_test_same_clock (f : D → string → bool) path : keeps same_clock (host_test f path).
Proof. by intros s. Qed.

Lemma json_get_or_same_clock v k d : keeps same_clock (json_get_or (D := D) v k d).
Proof. by destruct v; intros ?. Qed.

#[local] Hint Resolve file_value_same_clock host_test_same_clock json_get_or_same_clock loads_same_clock : fence.

Lemma look_same_clock path : keeps same_clock (look_for_response path).
Proof.
  unfold look_for_response, except_Exception. apply keeps_try; [exact _|keeps_tac|].
  intros e k. destruct (is_Exception e); [|done]. intros [= <-]. keeps_tac.
Qed.

(** Every round takes the interval. *)
Lemma response_rounds_end fuel path start timeout poll s :
  (0 < poll)%Z → (timeout * USEC - (s_clock s - start) ≤ Z.of_nat fuel * poll)%Z →
  (response_rounds (S fuel) path start timeout poll s).1 ≠ OutOfFuel.
Proof.
  intros Hpos. revert s. induction fuel as [|fuel IH]; intros s Hleft; cbn [response_rounds].
  all: apply bind_no_fuel; [done|]; intros now s1 [= <- <-].
  all: destruct (_ <? _)%Z eqn:Hlt; [|done].
  { apply Z.ltb_lt in Hlt. lia. }
  apply bind_no_fuel.
  { pose proof (look_ends path s) as Hl. by destruct (look_for_response path s) as [[]]. }
  intros r s1 Hlook. pose proof (look_same_clock path s) as Hc. rewrite Hlook in Hc. cbn in Hc.
  destruct r as [answer|]; [done|]. apply bind_no_fuel; [unfold sleep_us; by case_match|].
  intros u s2 [_ ->]%sleep_us_Ret_inv. apply IH. cbn. unfold same_clock in Hc. rewrite Hc. lia.
Qed.

Lemma file_op_ends (f : D → option string * D) : only anything (file_op f).
Proof. intros s. unfold file_op. by destruct (f (s_dev s)) as [[msg|] d]. Qed.

#[local] Hint Resolve file_op_ends : fence.

Lemma makedirs_ends path : only anything (makedirs (D := D) path).
Proof. intros s. unfold makedirs. by destruct (h_makedirs _ _). Qed.

Lemma write_request_ends action target dir :
  only anything (write_fence_request_recorder (D := D) action target dir).
Proof.
  unfold write_fence_request_recorder, except_Exception.
  apply only_bind; [apply makedirs_ends|intros ?].
  apply only_bind; [intros s; by destruct (rec_uuid4 _)|intros id].
  apply only_bind; [by intros s|intros s0]. apply only_try with (Q := anything); [only_tac|].
  intros e _. destruct (is_Exception e); [|done].
  apply only_bind; [only_tac|intros _]. apply only_bind; [|only_tac].
  apply only_try with (Q := anything); [only_tac|]. intros [] _; try done; only_tac.
Qed.

(** C15. The recorder of fence_dummy does not wait for ever: with an interval above zero it
    ends, whatever the directories hold, within one look more than the timeout has
    intervals. *)
Theorem recorder_ends fuel v timeout x poll s :
  s_opts s !! "--recorder-timeout" = Some v → py_int v = inl timeout →
  s_opts s !! "--recorder-poll-interval" = Some (VStr x) → float_us (D := D) x = Some poll → (0 < poll)%Z →
  (0 ≤ timeout)%Z → (timeout * USEC / poll + 1 < Z.of_nat fuel)%Z →
  (sync_set_power_status_recorder fuel s).1 ≠ OutOfFuel.
Proof.
  intros Ht Hv Hx Hp Hpos Hge Hfuel. unfold sync_set_power_status_recorder, opt_show.
  apply bind_no_fuel; [apply bind_no_fuel; [apply opt_get_no_fuel|done]|]. intros action s1 Ha. minv Ha.
  apply bind_no_fuel; [apply bind_no_fuel; [apply opt_get_no_fuel|done]|]. intros target s1 Htg. minv Htg.
  apply bind_no_fuel; [apply opt_str_no_fuel|]. intros request_path s1 Hq. minv Hq.
  apply bind_no_fuel; [apply opt_str_no_fuel|]. intros response_path s1 Hr. minv Hr.
  rewrite (bind_Ret _ _ _ _ _ (opt_int_eq _ _ _ _ Ht Hv)).
  rewrite (bind_Ret _ _ s poll s); last first.
  { unfold opt_float. rewrite (bind_Ret _ _ _ _ _ (opt_get_eq _ _ _ Hx)). by rewrite Hp. }
  destruct (negb _); [done|]. apply bind_no_fuel; [done|]. intros ? s1 _.
  apply bind_no_fuel.
  { pose proof (write_request_ends (py_str a) (py_str a0) request_path s1) as Hl. by destruct (write_fence_request_recorder _ _ _ s1) as [[]]. }
  intros [[|c id]|] s2 _; [done| |done]. apply bind_no_fuel; [|intros [[] ?] ? _; done].
  unfold wait_for_fence_response_recorder.
  apply bind_no_fuel; [unfold makedirs; by case_match|intros [] s3 _].
  apply bind_no_fuel; [done|intros now s4 [= <- <-]].
  apply bind_no_fuel; [done|intros [] s5 [= <-]].
  destruct fuel as [|k]; [pose proof (Z.div_pos (timeout * USEC) poll); unfold USEC in *; lia|].
  apply response_rounds_end; [done|]. cbn [s_clock add_event].
  pose proof (Z.mul_succ_div_gt (timeout * USEC) poll Hpos). nia.
Qed.
End Recorder.

(** ** An example: the response of node-2 is in its place *)

Record inbox := Inbox { ib_text : string }.

#[local] Instance inbox_recorder : Recorder (inbox * Mem.host) := {|
  rec_uuid4 d := ("8a7e", d);
  rec_now _ := "2026-01-01T00:00:00+00:00";
  rec_hostname _ := "node-1";
  rec_randint a _ d := (a, d);
  rec_write _ _ d := (None, d);
  rec_rename _ _ d := (None, d);
  rec_remove _ d := (None, d);
  rec_exists d path := bool_decide (path = "/r/node-2-8a7e.json");
  rec_getsize d _ := inr 20%Z;
  rec_read d _ := inr (ib_text d.1);
  float_us x := if decide (x = "0.5") then Some 500000%Z else None;
  rec_float x := x
|}.

#[local] Existing Instance Mem.mem_host.

Definition recorder_start (text : string) : st (inbox * Mem.host) :=
  St (list_to_map [("--action", VStr "off"); ("--plug", VStr "node-2"); ("--request-path", VStr "/q");
                   ("--response-path", VStr "/r"); ("--recorder-timeout", VStr "2");
                   ("--recorder-poll-interval", VStr "0.5")]) ∅ [] 0 (Inbox text, Mem.empty).

Definition success_text : string := json_dumps (λ x, x) (JDict [("success", JBool true)]).

Lemma recorder_confirmed_witness :
  ∃ id w s', sync_set_power_status_recorder 6 (recorder_start success_text) = (Ret true, s') ∧
    request_placed "/q" "off" "node-2" id (s_dev (recorder_start success_text)) w ∧
    confirmed_by (path_join "/r" (request_name "node-2" id)) s'.
Proof.
  assert ((sync_set_power_status_recorder 6 (recorder_start success_text)).1 = Ret true) as Hr by (vm_compute; reflexivity).
  destruct (recorder_confirmed 6 "node-2" "/q" "/r" "off" (recorder_start success_text)
              (sync_set_power_status_recorder 6 (recorder_start success_text)).2) as (id & w & Hd).
  1-4: vm_compute; reflexivity.
  - apply list_elem_of_here.
  - by apply run_outcome.
  - exists id, w, (sync_set_power_status_recorder 6 (recorder_start success_text)).2. split; [by apply run_outcome|exact Hd].
Defined.

(** A response that never says success is waited for until the timeout. *)
Lemma recorder_ends_witness :
  (sync_set_power_status_recorder 6 (recorder_start "{")).1 = Ret false ∧
  s_clock (sync_set_power_status_recorder 6 (recorder_start "{")).2 = (2 * USEC)%Z ∧
  (sync_set_power_status_recorder 6 (recorder_start "{")).1 ≠ OutOfFuel.
Proof.
  split; [vm_compute; reflexivity|]. split; [vm_compute; reflexivity|].
  apply (recorder_ends 6 (VStr "2") 2 "0.5" 500000); vm_compute; first [reflexivity|by intros].
Defined.
