(* ===== verification/Aws.v ===== *)
(** * Amazon EC2: the library boto3, and the agent fence_aws

    [agents/aws/fence_aws.py], and what it shares with fence_aws_vpc_net (VpcNet.v): the
    client of EC2, the metadata service of an instance, the listing of the instances. What
    a call to the service gives is a class; an answer has the members of the service's
    model, any of which may be missing. *)

From S2P Require Import Prelude PyStr OptionDefs Effects Fail Host Input Process CheckInput.
From S2P Require Import Login Metadata Action Console Ipmilan MenuAgents SnmpAgents TableAgents Json Globals Http Sessions.

Local Open Scope string_scope.

(** ** The library *)

(** The exceptions of botocore that the agents tell apart. An [EndpointConnectionError] is
    a [ConnectionError]. *)
Inductive boto_error :=
| BotoClientError (msg : string)
| BotoEndpointError (msg : string)
| BotoConnectionError (msg : string)
| BotoParamError (msg : string)
| BotoOther (msg : string).

Definition boto_exn (e : boto_error) : exn :=
  match e with
  | BotoClientError m => CustomError "ClientError" m
  | BotoEndpointError m => CustomError "EndpointConnectionError" m
  | BotoConnectionError m => CustomError "ConnectionError" m
  | BotoParamError m => CustomError "ParamValidationError" m
  | BotoOther m => OtherError m
  end.

Record ec2_tag := Tag { tg_key : option string; tg_value : option string }.

Record ec2_nic := Nic { nic_id : option string; nic_groups : option (list (option string)) }.

(** An instance of [describe_instances], and one of the collection [instances]. *)
Record ec2_instance := Instance_ {
  in_state : option (option string);
  in_vpc : option string;
  in_nics : option (list ec2_nic)
}.

Record ec2_listed := Listed {
  ls_id : string;
  ls_tags : option (list ec2_tag);
  ls_state : option string
}.

Class Ec2 (D : Type) := {
  (** [boto3.resource('ec2', ...)] with region, key and secret *)
  boto_resource : option pyval → option pyval → option pyval → D → option boto_error * D;
  boto_version : string;
  (** The collection of the instances that pass the filters: what a loop over it sees
      before it ends or fails. *)
  list_instances : list (string * option string) → D → (list ec2_listed * option boto_error) * D;
  (** [filter(InstanceIds=[id])], stopped with [Force] and, if given, [SkipOsShutdown], or
      started *)
  filter_stop : string → option bool → D → option boto_error * D;
  filter_start : string → D → option boto_error * D;
  (** Calls of the client; tags are asked for by their resource and a pattern of keys. *)
  describe_instances : string → D → (boto_error + option (list (option (list ec2_instance)))) * D;
  describe_network_interfaces : string → D → (boto_error + option (list ec2_nic)) * D;
  describe_tags : string → string → D → (boto_error + option (list ec2_tag)) * D;
  create_tag : string → string → string → D → option boto_error * D;
  delete_tags : string → list string → D → option boto_error * D;
  modify_network_interface_attribute : string → list string → D → option boto_error * D;
  stop_instances : string → D → option boto_error * D
}.

(** ** Python around it *)

Section Calls.
Context {D : Type}.

Definition boto_call {A} (f : D → (boto_error + A) * D) : M D A := λ s,
  match f (s_dev s) with
  | (inl e, d) => (Raise (boto_exn e), set_dev d s)
  | (inr a, d) => (Ret a, set_dev d s)
  end.

Definition boto_do (f : D → option boto_error * D) : M D unit := λ s,
  match f (s_dev s) with
  | (Some e, d) => (Raise (boto_exn e), set_dev d s)
  | (None, d) => (Ret tt, set_dev d s)
  end.

(** [r[k]] where the member may be missing *)
Definition member {A} (k : string) (o : option A) : M D A :=
  match o with Some x => mret x | None => raise (KeyError k) end.

(** What [try] ended with; a [SystemExit] passes. *)
Definition attempt {A} (m : M D A) : M D (A + exn) :=
  except_Exception (a ← m; mret (inl a)) (λ e, mret (inr e)).

(** [e] is of a class of botocore. *)
Definition of_class (cls : string) (e : exn) : bool :=
  match e with CustomError c _ => bool_decide (c = cls) | _ => false end.

(** [logging.FileHandler(path)], added to a logger *)
Definition log_to_file `{Host D} (path : string) : M D unit :=
  s ← get_st;
  match h_appendfile path "" (s_dev s) with
  | Some d => modify (set_dev d) ;; logging_setup ("handler file " +:+ path)
  | None => raise (OSError path)
  end.
End Calls.

Definition outlets_repr (os : outlets) : string :=
  "{" +:+ join ", " (map (λ kv,
    py_repr kv.1 +:+ ": (" +:+ py_repr kv.2.1 +:+ ", " +:+
    match kv.2.2 with Some s => py_repr s | None => "None" end +:+ ")") os) +:+ "}".

Definition instance_states : list (string * string) :=
  [("running", "on"); ("stopped", "off"); ("pending", "unknown"); ("stopping", "unknown");
   ("shutting-down", "unknown"); ("terminated", "unknown")].

Section Shared.
Context {D : Type} `{Host D, Sessions D, Ec2 D}.

(** The metadata service of the instance that the agent runs on. *)
Definition metadata_instance_id : M D string :=
  token ← session_request new_session
    (HttpCall "put" "http://169.254.169.254/latest/api/token" None
       [("X-aws-ec2-metadata-token-ttl-seconds", "21600")] None None);
  r ← session_request new_session
    (HttpCall "get" "http://169.254.169.254/latest/meta-data/instance-id" None
       [("X-aws-ec2-metadata-token", rp_text token)] None None);
  mret (rp_text r).

(** [list(conn.instances.filter(...))] *)
Definition instances_where (filters : list (string * option string)) : M D (list ec2_listed) :=
  boto_call (λ d,
    let '(l, e, d) := list_instances filters d in
    (match e with Some e => inl e | None => inr l end, d)).

Definition state_where (filters : list (string * option string)) : M D string :=
  l ← instances_where filters;
  first ← list_item l 0;
  member "Name" (ls_state first).

(** [ok] and [alert] say whether the agent's own instance runs. *)
Definition get_self_power_status (instance_id : option string) : M D string :=
  let shown := default "None" instance_id in
  try_except
    (state ← state_where [("instance-id", instance_id)];
     if decide (state = "running") then
       log DEBUG ("Captured my (" +:+ shown +:+ ") state and it " +:+ upper state +:+
                  " - returning OK - Proceeding with fencing") ;;
       mret "ok"
     else
       log DEBUG ("Captured my (" +:+ shown +:+ ") state it is " +:+ upper state +:+
                  " - returning Alert - Unable to fence other nodes") ;;
       mret "alert")
    (λ e,
       if of_class "ClientError" e then
         Some (fail_usage "Failed: Incorrect Access Key or Secret Key." true ;; unassigned "result")
       else if of_class "EndpointConnectionError" e then
         Some (fail_usage "Failed: Incorrect Region." true ;; unassigned "result")
       else match e with IndexError => Some (mret "fail") | _ => None end).

(** ** Listing *)

Definition nodes_filter : M D (list (string * option string)) :=
  given ← opt_has "--filter";
  if (given : bool) then
    filter ← opt_str "--filter";
    let parts := split_go "=" filter 0 in
    key ← list_item parts 0;
    value ← list_item parts 1;
    log DEBUG ("Filter: [{'Name': " +:+ py_repr (strip key) +:+ ", 'Values': [" +:+
               py_repr (strip value) +:+ "]}]") ;;
    mret [(strip key, Some (strip value))]
  else mret [].

(** The value of the last tag with the key Name. *)
Definition name_of (x : ec2_listed) : M D string :=
  mfold (λ name tag, if decide (tg_key tag = Some "Name") then member "Value" (tg_value tag) else mret name)
    "" (default [] (ls_tags x)).

Definition instance_node (x : ec2_listed) : M D (string * (string * option string)) :=
  name ← name_of x;
  try_except
    (state ← member "Name" (ls_state x);
     status ← dict_item instance_states state;
     mret (ls_id x, (name, Some status)))
    (λ e, match e with
          | KeyError _ => Some
              (original ← opt_find "--original-action";
               mwhen (bool_decide (original = Some (VStr "list-status")))
                 (state ← member "Name" (ls_state x);
                  log ERROR ("Unknown status " +:+ dq +:+ state +:+ dq +:+ " returned for " +:+
                             ls_id x +:+ " (" +:+ name +:+ ")")) ;;
               mret (ls_id x, (name, Some "unknown")))
          | _ => None
          end).

(** What was listed stays when the loop fails. *)
Fixpoint instance_nodes (l : list ec2_listed) (os : outlets) : M D (outlets * option exn) :=
  match l with
  | [] => mret (os, None)
  | x :: l =>
      r ← attempt (instance_node x);
      match r with
      | inl kv => instance_nodes l (dict_insert kv.1 kv.2 os)
      | inr e => mret (os, Some e)
      end
  end.

Definition listed_nodes : M D (outlets * option exn) :=
  r ← attempt (filters ← nodes_filter; boto_call (λ d, let '(x, d) := list_instances filters d in (inr x, d)));
  match r with
  | inr e => mret ([], Some e)
  | inl (l, failed) =>
      '(os, e) ← instance_nodes l [];
      mret (os, match e with Some e => Some e | None => boto_exn <$> failed end)
  end.

(** ** The logs of the library *)

Definition boto_logging (level boto_log : string) : M D unit :=
  given ← opt_has "--debug-file";
  mwhen given
    (file ← opt_str "--debug-file";
     logging_setup "file handlers removed" ;;
     log_to_file file) ;;
  if negb (py_in (lower level) truthy_words) then logging_setup "boto3 to stream"
  else
    log_to_file boto_log ;;
    log DEBUG ("Boto debug level is " +:+ level +:+ " and sending debug info to " +:+ boto_log).

(** No action that ends without a connection comes this far. *)
Definition aws_connect : M D unit :=
  region ← opt_find "--region";
  access_key ← opt_find "--access-key";
  secret_key ← opt_find "--secret-key";
  except_Exception (boto_do (boto_resource region access_key secret_key))
    (λ e, action ← opt_find "--action";
          mwhen (negb (bool_decide (default (VStr "") action ∈
                         [VStr "metadata"; VStr "manpage"; VStr "validate-all"])))
            (fail_usage ("Failed: Unable to connect to AWS: " +:+ exn_str e) true)).
End Shared.

(** ** fence_aws *)

Section Aws.
Context {D : Type} `{Host D, Sessions D, Ec2 D}.

Definition aws_instance_id : M D (option string) :=
  except_Exception (id ← metadata_instance_id; mret (Some id))
    (λ e,
       skip ← opt_has "--skip-race-check";
       log (if (skip : bool) then DEBUG else ERROR)
         ("A fatal error occurred while trying to access EC2 metadata server: " +:+ exn_str e) ;;
       mret None).

Definition aws_get_nodes_list : M D outlets :=
  log DEBUG "Starting monitor operation" ;;
  '(result, failed) ← listed_nodes;
  match failed with
  | None => mret tt
  | Some e =>
      if of_class "ClientError" e then fail_usage "Failed: Incorrect Access Key or Secret Key." true
      else if of_class "EndpointConnectionError" e then fail_usage "Failed: Incorrect Region." true
      else if of_class "ConnectionError" e then
        fail_usage ("Failed: Unable to connect to AWS: " +:+ exn_str e) true
      else log ERROR ("Failed to get node list: " +:+ exn_str e)
  end ;;
  log DEBUG ("Monitor operation OK: " +:+ outlets_repr result) ;;
  mret result.

(** The handlers of a status. *)
Definition status_handler (e : exn) : option (M D pyval) :=
  if of_class "ClientError" e then
    Some (fail_usage "Failed: Incorrect Access Key or Secret Key." true ;; unassigned "result")
  else if of_class "EndpointConnectionError" e then
    Some (fail_usage "Failed: Incorrect Region." true ;; unassigned "result")
  else
    match e with
    | IndexError => Some (fails EC_STATUS)
    | SystemExit _ => None
    | _ => Some (log ERROR ("Failed to get power status: " +:+ exn_str e) ;; fails EC_STATUS)
    end.

Definition aws_get_power_status : M D pyval :=
  log DEBUG "Starting status operation" ;;
  try_except
    (plug ← opt_str "--plug";
     state ← state_where [("instance-id", Some plug)];
     log DEBUG ("Status operation for EC2 instance " +:+ plug +:+ " returned state: " +:+ upper state) ;;
     match dict_get state instance_states with
     | Some status => mret (VStr status)
     | None => log ERROR ("Unknown status " +:+ dq +:+ state +:+ dq +:+ " returned") ;; mret (VStr "unknown")
     end)
    status_handler.

(** The instance is stopped when the agent's own one runs; a library that does not know
    [SkipOsShutdown] is asked again without it. *)
Definition aws_set_power_status : M D unit :=
  my_instance ← aws_instance_id;
  try_except
    (v ← opt_find "--skip-os-shutdown";
     text ← as_str (default (VStr "false") v);
     let skip_os := py_in (lower text) truthy_words in
     action ← opt_get "--action";
     if decide (action = VStr "off") then
       skip ← opt_has "--skip-race-check";
       go_on ← (if (skip : bool) then mret true
                else self ← get_self_power_status my_instance; mret (bool_decide (self = "ok")));
       if (go_on : bool) then
         plug ← opt_str "--plug";
         boto_do (filter_stop plug (Some skip_os)) ;;
         log DEBUG ("Called StopInstance API call for " +:+ plug)
       else log DEBUG "Skipping fencing as instance is not in running status"
     else if decide (action = VStr "on") then plug ← opt_str "--plug"; boto_do (filter_start plug)
     else mret tt)
    (λ e,
       if of_class "ParamValidationError" e then
         Some (action ← opt_get "--action";
               mwhen (bool_decide (action = VStr "off"))
                 (log WARNING ("SkipOsShutdown not supported with the current boto3 version " +:+
                               boto_version (D := D) +:+ " - falling back to graceful shutdown") ;;
                  plug ← opt_str "--plug";
                  boto_do (filter_stop plug None)))
       else if is_Exception e then
         Some (action ← opt_show "--action"; plug ← opt_show "--plug";
               log DEBUG ("Failed to power " +:+ action +:+ " " +:+ plug +:+ ": " +:+ exn_str e) ;;
               fail EC_STATUS true)
       else None).
End Aws.

Definition aws_opts : list (string * optdef) := [
  ("region", opt [Getopt "r:";
     Longopt "region";
     Help "-r, --region=[region]          Region, e.g. us-east-1";
     Shortdesc "Region.";
     Required "0";
     Order 2]);
  ("access_key", opt [Getopt "a:";
     Longopt "access-key";
     Help "-a, --access-key=[key]         Access Key";
     Shortdesc "Access Key.";
     Required "0";
     Order 3]);
  ("secret_key", opt [Getopt "s:";
     Longopt "secret-key";
     Help "-s, --secret-key=[key]         Secret Key";
     Shortdesc "Secret Key.";
     Required "0";
     Order 4]);
  ("filter", opt [Getopt ":";
     Longopt "filter";
     Help "--filter=[key=value]           Filter (e.g. vpc-id=[vpc-XXYYZZAA])";
     Shortdesc "Filter for list-action";
     Required "0";
     Order 5]);
  ("boto3_debug", opt [Getopt "b:";
     Longopt "boto3_debug";
     Help "-b, --boto3_debug=[option]     Boto3 and Botocore library debug logging";
     Shortdesc "Boto Lib debug";
     Required "0";
     Default (VStr "False");
     Order 6]);
  ("skip_race_check", opt [Getopt "";
     Longopt "skip-race-check";
     Help "--skip-race-check              Skip race condition check";
     Shortdesc "Skip race condition check";
     Required "0";
     Order 7]);
  ("skip_os_shutdown", opt [Getopt ":";
     Longopt "skip-os-shutdown";
     Help "--skip-os-shutdown=[true|false]    Uses SkipOsShutdown flag";
     Shortdesc "Use SkipOsShutdown flag to stop the EC2 instance";
     Required "0";
     Default (VStr "true");
     Order 8])
].

Definition aws_docs : docs := Docs
  ("fence_aws is a Power Fencing agent for AWS (Amazon WebServices). It uses the boto3 library to connect to AWS." +:+ nl +:+ ".P" +:+ nl +:+ "boto3 can be configured with AWS CLI or by creating ~/.aws/credentials." +:+ nl +:+ "For instructions see: https://boto3.readthedocs.io/en/latest/guide/quickstart.html#configuration")
  ("Fence agent for AWS (Amazon Web Services)") (Some ("http://www.amazon.com")) [] None.

Definition fence_aws_main {D} `{Host D, Sessions D, Ec2 D} (fuel : nat) (time_start : Z)
    (inv : invocation) (set_order : list string → list string) : M D unit :=
  add_options aws_opts ;;
  allopt_set "power_timeout" (Default (VStr "60")) ;;
  checked_options inv
    ["port"; "no_password"; "region"; "access_key"; "secret_key"; "filter"; "boto3_debug";
     "skip_race_check"; "skip_os_shutdown"] ;;
  show_docs (inv_prog inv) set_order (Some aws_docs) ;;
  run_delay time_start 0 0 ;;
  level ← opt_str "--boto3_debug";
  boto_logging level "/var/log/fence_aws_boto3.log" ;;
  aws_connect ;;
  result ← fence_action fuel (Some aws_set_power_status) (Some aws_get_power_status)
             (Some aws_get_nodes_list) None None;
  sys_exit result.
