(* ===== verification/VpcNet.v ===== *)
(** * The agent fence_aws_vpc_net

    [agents/aws_vpc_net/fence_aws_vpc_net.py]: an instance of EC2 is fenced by taking
    security groups off its network interfaces. The groups it had are kept in tags of the
    instance, split so that each fits, and are put back from there. *)

From S2P Require Import Prelude PyStr OptionDefs Effects Fail Host Input Process CheckInput.
From S2P Require Import Login Metadata Action Console Ipmilan MenuAgents SnmpAgents TableAgents Json Globals Http.
From S2P Require Import Sessions Ibmz Aws.

Local Open Scope string_scope.

(** ** Values *)

Record interface := Interface { if_id : string; if_groups : list string }.

(** [sorted(l)] *)
Definition py_sorted (l : list string) : list string := stable_sort String.leb l.
Definition same_groups (l l' : list string) : bool := bool_decide (py_sorted l = py_sorted l').

Definition comma_list (s : string) : list string := split_go "," s 0.

(** The groups of an option, without blanks and empty ones. *)
Definition listed_groups (s : string) : list string :=
  filter (λ g, g ≠ "") (map strip (comma_list s)).

Definition group_prefix (g : string) : string :=
  if startswith "sg-" g then String.substring 3 (String.length g - 3) g else g.
Definition with_prefix (g : string) : string := if startswith "sg-" g then g else "sg-" +:+ g.

(** ** The texts of the tags *)

Definition backup_of (interface_id : string) (chunk : list string) (index total : nat) (timestamp : Z) : json :=
  JDict
    [("n", JDict
       [("i", JStr interface_id); ("s", JList (map JStr chunk));
        ("c", JDict [("i", JInt (Z.of_nat index)); ("t", JInt (Z.of_nat total))])]);
     ("t", JInt timestamp)].

(** Texts only: the literals of floats do not matter. *)
Definition backup_text (v : json) : string := json_dumps (λ x, x) v.

Definition too_long (interface_id : string) (timestamp : Z) (chunks : list (list string)) (chunk : list string) : bool :=
  bool_decide (254 < py_len (backup_text (backup_of interface_id chunk (length chunks) 1 timestamp)))%nat.

(** One group more: to the current chunk, or to a new one. *)
Definition add_group (interface_id : string) (timestamp : Z) (acc : list (list string) * list string) (sg : string)
    : list (list string) * list string :=
  let '(sg_chunks, current_chunk) := acc in
  let test_chunk := (current_chunk ++ [sg])%list in
  if too_long interface_id timestamp sg_chunks test_chunk then
    match current_chunk with
    | [] => ((sg_chunks ++ [[sg]])%list, [])
    | _ => ((sg_chunks ++ [current_chunk])%list, [sg])
    end
  else (sg_chunks, test_chunk).

Definition unusual (interface_id : string) (timestamp : Z) (acc : list (list string) * list string) (sg : string) : bool :=
  bool_decide (acc.2 = []) && too_long interface_id timestamp acc.1 [sg].

Definition all_chunks (acc : list (list string) * list string) : list (list string) :=
  match acc.2 with [] => acc.1 | _ => (acc.1 ++ [acc.2])%list end.

(** ** Reading *)

Section Read.
Context {D : Type} `{Ec2 D}.

Definition nic_of (x : ec2_nic) : M D interface :=
  id ← member "NetworkInterfaceId" (nic_id x);
  groups ← member "Groups" (nic_groups x);
  sgs ← mfold (λ l g, id ← member "GroupId" g; mret (l ++ [id])%list) [] groups;
  mret (Interface id sgs).

Definition read_nics (l : list ec2_nic) : M D (list interface) :=
  mfold (λ interfaces x,
    try_except (i ← nic_of x; mret (interfaces ++ [i])%list)
      (λ e, match e with
            | KeyError _ => Some (log ERROR ("Malformed interface data: " +:+ exn_str e) ;; mret interfaces)
            | _ => None
            end)) [] l.

(** The state and the interfaces; the VPC is looked up too. *)
Definition get_instance_details (instance_id : string) : M D (string * string * list interface) :=
  except_Exception
    (response ← boto_call (describe_instances instance_id);
     reservations ← member "Reservations" response;
     first ← list_item reservations 0;
     instances ← member "Instances" first;
     instance ← list_item instances 0;
     state ← member "State" (in_state instance);
     instance_state ← member "Name" state;
     vpc_id ← member "VpcId" (in_vpc instance);
     network_interfaces ← member "NetworkInterfaces" (in_nics instance);
     interfaces ← read_nics network_interfaces;
     mret (instance_state, vpc_id, interfaces))
    (λ e,
       log ERROR
         ((if of_class "ClientError" e then "AWS API error while retrieving instance details: "
           else match e with
                | IndexError => "Instance " +:+ instance_id +:+ " not found or no instances returned: "
                | KeyError _ => "Unexpected response format from AWS API: "
                | _ => "Unexpected error while retrieving instance details: "
                end) +:+ exn_str e) ;;
       raise e).

(** [options.get("--secg", "").split(",") if options.get("--secg") else []] *)
Definition sg_option : M D (list string) :=
  v ← opt_find "--secg";
  match v with
  | Some v => if truthy v then s ← as_str v; mret (comma_list s) else mret []
  | None => mret []
  end.

(** The value of the option for an interface that is given and not empty, under either
    name, with that name. *)
Definition interface_option (i : nat) : M D (option (string * pyval)) :=
  let key1 := "interface" +:+ str_of_Z (Z.of_nat i) +:+ "-sg" in
  let key2 := "--" +:+ key1 in
  v1 ← opt_find key1;
  v2 ← opt_find key2;
  mret (match v1 with
        | Some v => if truthy v then Some (key1, v) else
            match v2 with Some w => if truthy w then Some (key2, w) else None | None => None end
        | None => match v2 with Some w => if truthy w then Some (key2, w) else None | None => None end
        end).

Definition interface_groups (i : nat) : M D (option (list string)) :=
  o ← interface_option i;
  match o with
  | None => mret None
  | Some (_, v) => s ← as_str v; mret (Some (listed_groups s))
  end.

Definition interface_sg_present : M D bool :=
  mfold (λ b i, o ← interface_option i; mret (b || bool_decide (is_Some o))) false (seq 0 16).

(** Whether the groups are gone from all interfaces or, inverted, are the only ones. *)
Fixpoint all_fenced (invert : bool) (sg_to_remove : list string) (interfaces : list interface) : M D bool :=
  match interfaces with
  | [] => mret true
  | x :: interfaces =>
      if invert then
        if same_groups (if_groups x) sg_to_remove then all_fenced invert sg_to_remove interfaces
        else log DEBUG ("Interface " +:+ if_id x +:+ " still has different security groups") ;; mret false
      else if existsb (λ sg, py_in sg (if_groups x)) sg_to_remove then
        log DEBUG ("Interface " +:+ if_id x +:+ " still has security groups that should be removed") ;;
        mret false
      else all_fenced invert sg_to_remove interfaces
  end.

Definition check_sg_modifications (instance_id : string) : M D bool :=
  except_Exception
    ('(_, _, interfaces) ← get_instance_details instance_id;
     sg_to_remove ← sg_option;
     match sg_to_remove with
     | [] => mret false
     | _ =>
         invert ← opt_has "--invert-sg-removal";
         all_interfaces_fenced ← all_fenced invert sg_to_remove interfaces;
         mwhen all_interfaces_fenced
           (log DEBUG "All interfaces have had their security groups successfully modified - considering instance fenced") ;;
         mret all_interfaces_fenced
     end)
    (λ e, log DEBUG ("Failed to check security group modifications: " +:+ exn_str e) ;; mret false).

Definition tags_where (instance_id key : string) : M D (list ec2_tag) :=
  response ← boto_call (describe_tags instance_id key);
  member "Tags" response.

Definition backup_keys (instance_id : string) : string := "Original_SG_Backup_" +:+ instance_id +:+ "*".
End Read.

Section ReadTags.
Context {D : Type} `{Sessions D, Ec2 D}.

(** A malformed tag is passed over. *)
Definition or_next {A} (tag : ec2_tag) (next : M D A) (m : M D A) : M D A :=
  try_except m (λ e,
    match e with
    | ValueError _ | KeyError _ => Some
        (key ← member "Key" (tg_key tag);
         log ERROR ("Failed to parse backup data for tag " +:+ key +:+ ": " +:+ exn_str e) ;;
         next)
    | _ => None
    end).

(** Some tag has the time of the last fencing. *)
Fixpoint some_backup (lastfence_timestamp : string) (tags : list ec2_tag) : M D bool :=
  match tags with
  | [] => mret false
  | tag :: tags =>
      found ← or_next tag (mret false)
        (value ← member "Value" (tg_value tag);
         backup_data ← loads value;
         backup_timestamp ← json_get_or backup_data "t" JNull;
         if negb (json_truthy backup_timestamp) then
           key ← member "Key" (tg_key tag);
           log DEBUG ("No timestamp found in backup data for tag " +:+ key) ;; mret false
         else if decide (json_text backup_timestamp = lastfence_timestamp) then
           key ← member "Key" (tg_key tag);
           log DEBUG ("Found matching backup tag " +:+ key +:+ " - instance is fenced") ;; mret true
         else mret false);
      if (found : bool) then mret true else some_backup lastfence_timestamp tags
  end.

Definition is_instance_fenced (instance_id : string) : M D bool :=
  except_Exception
    (modified ← check_sg_modifications instance_id;
     if (modified : bool) then
       log DEBUG "Security groups have been modified according to options - instance is considered fenced" ;;
       mret true
     else
       lastfence ← tags_where instance_id "lastfence";
       match lastfence with
       | [] => log DEBUG ("No lastfence tag found for instance " +:+ instance_id +:+ " - instance is not fenced") ;;
               mret false
       | tag :: _ =>
           lastfence_timestamp ← member "Value" (tg_value tag);
           tags ← tags_where instance_id (backup_keys instance_id);
           match tags with
           | [] => log DEBUG ("No backup tags found for instance " +:+ instance_id +:+ " - instance is not fenced") ;;
                   mret false
           | _ =>
               found ← some_backup lastfence_timestamp tags;
               mwhen (negb found)
                 (log DEBUG "No backup tags with matching timestamp found - instance is not fenced") ;;
               mret found
           end
       end)
    (λ e, log ERROR ("Error checking if instance is fenced: " +:+ exn_str e) ;; mret false).
End ReadTags.

(** ** Status *)

Section Status.
Context {D : Type} `{Sessions D, Ec2 D}.

(** The interfaces with an option have the groups it lists, and there is one. *)
Fixpoint options_match (idx : nat) (any_interface_option : bool) (interfaces : list interface) : M D bool :=
  match interfaces with
  | [] => mret any_interface_option
  | x :: interfaces =>
      desired ← interface_groups idx;
      match desired with
      | None => options_match (S idx) any_interface_option interfaces
      | Some desired_sgs =>
          if same_groups (if_groups x) desired_sgs then options_match (S idx) true interfaces
          else log DEBUG ("Interface " +:+ if_id x +:+ " security groups don't match desired state") ;;
               mret false
      end
  end.

Definition check_interface_sg_match (instance_id : string) : M D bool :=
  except_Exception
    ('(_, _, interfaces) ← get_instance_details instance_id;
     action ← opt_find "--action";
     if decide (default (VStr "on") action = VStr "off") then
       sg_to_remove ← sg_option;
       match sg_to_remove with
       | [] => log DEBUG "No --secg option for fencing, falling back to interface options check" ;;
               options_match 0 false interfaces
       | _ => invert ← opt_has "--invert-sg-removal"; all_fenced invert sg_to_remove interfaces
       end
     else options_match 0 false interfaces)
    (λ e, log ERROR ("Error checking interface security groups: " +:+ exn_str e) ;; mret false).

Definition handle_interface_options_with_ignore_instance_state (instance_id : string) : M D string :=
  log DEBUG "Interface security group options detected with --ignore-instance-state" ;;
  action ← opt_find "--action";
  sg_match ← check_interface_sg_match instance_id;
  if decide (default (VStr "on") action = VStr "on") then
    if (sg_match : bool) then
      log DEBUG "Action=on: All interfaces have the desired security groups - instance is considered 'on'" ;;
      mret "on"
    else
      log DEBUG "Action=on: Security groups don't match desired state - instance is considered 'off'" ;;
      mret "off"
  else
    if (sg_match : bool) then
      log DEBUG "Action=off: All interfaces have the desired security groups - instance is considered 'off'" ;;
      mret "off"
    else
      log DEBUG "Action=off: Security groups don't match desired state - instance is considered 'on'" ;;
      mret "on".

Definition net_get_power_status : M D pyval :=
  log DEBUG "Starting status operation" ;;
  try_except
    (instance_id ← opt_str "--plug";
     by_options ← except_Exception
       ('(state, _, _) ← get_instance_details instance_id;
        log DEBUG ("Current instance state: " +:+ state) ;;
        present ← interface_sg_present;
        ignore ← opt_has "--ignore-instance-state";
        if present && ignore
        then r ← handle_interface_options_with_ignore_instance_state instance_id; mret (Some r)
        else mret None)
       (λ e, log ERROR ("Error checking instance state: " +:+ exn_str e) ;; mret None);
     match by_options with
     | Some r => mret (VStr r)
     | None =>
         fenced ← is_instance_fenced instance_id;
         if (fenced : bool) then
           log DEBUG ("Instance " +:+ instance_id +:+ " is fenced - returning 'off'") ;; mret (VStr "off")
         else
           log DEBUG ("Instance " +:+ instance_id +:+ " is not fenced - returning 'on'") ;; mret (VStr "on")
     end)
    status_handler.
End Status.

(** ** Fencing *)

Section Fence.
Context {D : Type} `{Host D, Sessions D, Ec2 D}.

(** Log what went wrong, and go on raising it. *)
Definition logged {A} (client other : string) (m : M D A) : M D A :=
  except_Exception m
    (λ e, log ERROR ((if of_class "ClientError" e then client else other) +:+ exn_str e) ;; raise e).

Definition net_instance_id : M D (option string) :=
  except_Exception (id ← metadata_instance_id; mret (Some id))
    (λ e, log ERROR ("Failed to retrieve instance ID for self-check: " +:+ exn_str e) ;; mret None).

(** One tag, which is read back. *)
Definition create_chunk (instance_id interface_id : string) (timestamp : Z) (idx total chunk_idx : nat)
    (sg_chunk : list string) : M D unit :=
  let tag_value := backup_text (backup_of interface_id sg_chunk chunk_idx total timestamp) in
  let tag_key := "Original_SG_Backup_" +:+ instance_id +:+ "_" +:+ str_of_Z timestamp +:+ "_" +:+
                 str_of_Z (Z.of_nat idx) +:+ "_" +:+ str_of_Z (Z.of_nat chunk_idx) in
  boto_do (create_tag instance_id tag_key tag_value) ;;
  tags ← tags_where instance_id tag_key;
  match tags with
  | [] =>
      log ERROR ("Failed to verify creation of backup tag '" +:+ tag_key +:+ "' for instance " +:+ instance_id) ;;
      raise (OtherError "Backup tag creation could not be verified")
  | tag :: _ =>
      created_tag_value ← member "Value" (tg_value tag);
      mwhen (negb (bool_decide (created_tag_value = tag_value)))
        (log ERROR ("Created tag value does not match expected value for instance " +:+ instance_id) ;;
         raise (OtherError "Backup tag value mismatch")) ;;
      log INFO ("Backup tag '" +:+ tag_key +:+ "' chunk " +:+ str_of_Z (Z.of_nat (S chunk_idx)) +:+ "/" +:+
                str_of_Z (Z.of_nat total) +:+ " created and verified for interface " +:+ interface_id +:+ ".")
  end.

Definition chunks_of (interface_id : string) (timestamp : Z) (stripped_sgs : list string) : M D (list (list string)) :=
  acc ← mfold (λ acc sg,
    mwhen (unusual interface_id timestamp acc sg)
      (log WARNING ("Security group ID " +:+ sg +:+ " is unusually long")) ;;
    mret (add_group interface_id timestamp acc sg)) ([], []) stripped_sgs;
  mret (all_chunks acc).

Definition backup_interface (instance_id : string) (timestamp : Z) (idx : nat) (x : interface) : M D unit :=
  sg_chunks ← chunks_of (if_id x) timestamp (map group_prefix (if_groups x));
  mfor (zip (seq 0 (length sg_chunks)) sg_chunks) (λ '(chunk_idx, sg_chunk),
    create_chunk instance_id (if_id x) timestamp idx (length sg_chunks) chunk_idx sg_chunk).

Definition create_backup_tag (instance_id : string) (interfaces : list interface) (timestamp : Z) : M D unit :=
  logged "AWS API error while creating/verifying backup tag: " "Unexpected error while creating/verifying backup tag: "
    (mfor (zip (seq 1 (length interfaces)) interfaces)
       (λ '(idx, x), backup_interface instance_id timestamp idx x)).

Definition set_lastfence_tag (instance_id : string) (timestamp : Z) : M D unit :=
  except_Exception
    (boto_do (create_tag instance_id "lastfence" (str_of_Z timestamp)) ;;
     log INFO ("Set lastfence tag with timestamp " +:+ str_of_Z timestamp +:+ " on instance " +:+ instance_id))
    (λ e, log ERROR ("Failed to set lastfence tag: " +:+ exn_str e) ;; raise e).

(** A failure to write tags is passed over when the option says so. *)
Definition unless_ignored (what : string) (m : M D unit) : M D unit :=
  except_Exception m
    (λ e,
       ignore ← opt_has "--ignore-tag-write-failure";
       if (ignore : bool) then
         log WARNING ("Failed to " +:+ what +:+ " tag but continuing due to --ignore-tag-write-failure: " +:+ exn_str e) ;;
         log INFO "Will rely on security group state for fencing status"
       else log ERROR ("Failed to " +:+ what +:+ " tag: " +:+ exn_str e) ;; raise e).

(** The groups an interface is to have. *)
Definition updated_groups (keep_only : bool) (sg_list original_sgs : list string) : list string :=
  if keep_only then sg_list else filter (λ sg, py_in sg sg_list = false) original_sgs.

(** Whether something was changed so far. *)
Definition modify_interface (keep_only : bool) (sg_list : list string) (changed_any : bool) (x : interface) : M D bool :=
  let updated_sgs := updated_groups keep_only sg_list (if_groups x) in
  let operation_desc := (if keep_only then "keeping only " else "removing ") +:+ strs sg_list in
  if negb keep_only && bool_decide (updated_sgs = []) then
    log INFO ("Skipping interface " +:+ if_id x +:+ ": removal of " +:+ strs sg_list +:+ " would leave 0 SGs.") ;;
    mret changed_any
  else if decide (updated_sgs = if_groups x) then mret changed_any
  else
    log INFO ("Updating interface " +:+ if_id x +:+ " from " +:+ strs (if_groups x) +:+ " to " +:+
              strs updated_sgs +:+ " (" +:+ operation_desc +:+ ")") ;;
    try_except (boto_do (modify_network_interface_attribute (if_id x) updated_sgs) ;; mret true)
      (λ e, if of_class "ClientError" e then
              Some (log ERROR ("Failed to modify security groups for interface " +:+ if_id x +:+ ": " +:+ exn_str e) ;;
                    mret changed_any)
            else None).

(** The groups are not as they should be: nothing was changed because it failed. *)
Definition left_to_modify (keep_only : bool) (sg_list : list string) (interfaces : list interface) : bool :=
  existsb (λ x, if keep_only then negb (same_groups (if_groups x) sg_list)
                else existsb (λ sg, py_in sg (if_groups x)) sg_list) interfaces.

Definition modify_security_groups (instance_id : string) (sg_list : list string) (timestamp : Z)
    (keep_only skip_tags : bool) : M D unit :=
  logged "AWS API error: " "Unexpected error: "
    ('(_, _, interfaces) ← get_instance_details instance_id;
     (if skip_tags then log INFO "Skipping tag creation as interface options are specified"
      else unless_ignored "create backup"
             (create_backup_tag instance_id interfaces timestamp ;;
              unless_ignored "set lastfence" (set_lastfence_tag instance_id timestamp))) ;;
     changed_any ← mfold (modify_interface keep_only sg_list) false interfaces;
     mwhen (negb changed_any)
       (if left_to_modify keep_only sg_list interfaces then
          let error_msg :=
            if keep_only then "Security Groups " +:+ strs sg_list +:+ " could not be set on interfaces. No changes made."
            else "Security Groups " +:+ strs sg_list +:+
                 " found but could not be removed from interfaces. Removal may have left 0 SGs." in
          log ERROR error_msg ;;
          raise (OtherError ("Failed to modify security groups: " +:+ error_msg))
        else
          log INFO (if keep_only then "Interfaces already have the desired security groups. No changes needed."
                    else "Security Groups " +:+ strs sg_list +:+
                         " not found on any interface. Instance is already fenced.")) ;;
     sleep 5).

(** ** Restoring from the tags *)

(** What the tags said of an interface, and the interfaces that are complete. *)
Definition found_chunks : Type := list (json * list (json * json)).
Definition found_groups : Type := list (json * list string).

Definition restored_group (v : json) : M D string :=
  match v with
  | JStr g => mret (with_prefix g)
  | _ => raise (AttributeError ("'" +:+ json_type v +:+ "' object has no attribute 'startswith'"))
  end.

(** [range(total)] for a value that equals [n] *)
Definition range_of (total : json) (n : nat) : M D (list nat) :=
  match total with
  | JFloat _ => raise (TypeError "'float' object cannot be interpreted as an integer")
  | _ => mret (seq 0 n)
  end.

Definition combine_chunks (total_chunks : json) (chunks : list (json * json)) : M D (list string) :=
  indices ← range_of total_chunks (length chunks);
  mfold (λ combined_sgs i,
    chunk ← match vdict_get (JInt (Z.of_nat i)) chunks with
            | Some v => mret v
            | None => raise (KeyError (str_of_Z (Z.of_nat i)))
            end;
    chunk_sgs ← json_iter chunk;
    restored_sgs ← mfold (λ l v, g ← restored_group v; mret (l ++ [g])%list) [] chunk_sgs;
    mret (combined_sgs ++ restored_sgs)%list) [] indices.

(** One tag: the time must be that of the last fencing. The tables are changed as far as
    the reading comes. *)
Definition read_backup (lastfence_timestamp : string) (tag : ec2_tag) (acc : found_chunks * found_groups)
    : M D (found_chunks * found_groups * option exn) :=
  let '(interface_chunks, matching_backups) := acc in
  r ← attempt
    (value ← member "Value" (tg_value tag);
     backup_data ← loads value;
     backup_timestamp ← json_get_or backup_data "t" JNull;
     if negb (json_truthy backup_timestamp) || negb (bool_decide (json_text backup_timestamp = lastfence_timestamp))
     then mret None
     else
       key ← member "Key" (tg_key tag);
       log INFO ("Found matching backup tag " +:+ key) ;;
       interface_data ← json_get_or backup_data "n" JNull;
       if negb (json_truthy interface_data) then mret None
       else
         there ← json_in "i" interface_data;
         if negb there then mret None
         else
           interface_id ← json_item interface_data "i";
           chunk_info ← json_get_or interface_data "c" (JDict []);
           chunk_index ← json_get_or chunk_info "i" (JInt 0);
           total_chunks ← json_get_or chunk_info "t" (JInt 1);
           check_hashable interface_id ;;
           mret (Some (interface_data, interface_id, chunk_index, total_chunks)));
  match r with
  | inr e => mret (acc, Some e)
  | inl None => mret (acc, None)
  | inl (Some (interface_data, interface_id, chunk_index, total_chunks)) =>
      let chunks := default [] (vdict_get interface_id interface_chunks) in
      r ← attempt (s ← json_item interface_data "s"; check_hashable chunk_index ;; mret s);
      match r with
      | inr e => mret (vdict_insert interface_id chunks interface_chunks, matching_backups, Some e)
      | inl s =>
          let chunks := vdict_insert chunk_index s chunks in
          let interface_chunks := vdict_insert interface_id chunks interface_chunks in
          if same_key_value (JInt (Z.of_nat (length chunks))) total_chunks then
            r ← attempt (combine_chunks total_chunks chunks);
            mret (match r with
                  | inr e => (interface_chunks, matching_backups, Some e)
                  | inl combined_sgs =>
                      (interface_chunks, vdict_insert interface_id combined_sgs matching_backups, None)
                  end)
          else mret (interface_chunks, matching_backups, None)
      end
  end.

Definition read_backups (lastfence_timestamp : string) (tags : list ec2_tag) : M D found_groups :=
  acc ← mfold (λ acc tag,
    '(acc, failed) ← read_backup lastfence_timestamp tag acc;
    match failed with
    | None => mret acc
    | Some e => or_next tag (mret acc) (raise e)
    end) ([], []) tags;
  mret acc.2.

Definition restore_interface (backup_sg_map : found_groups) (changed_any : bool) (x : interface) : M D bool :=
  match vdict_get (JStr (if_id x)) backup_sg_map with
  | None => log WARNING ("No backup data found for interface " +:+ if_id x +:+ ". Skipping.") ;; mret changed_any
  | Some original_sgs =>
      if decide (original_sgs = if_groups x) then
        log INFO ("Interface " +:+ if_id x +:+ " already has original security groups. Skipping.") ;;
        mret changed_any
      else
        log INFO ("Restoring interface " +:+ if_id x +:+ " from " +:+ strs (if_groups x) +:+
                  " to original security groups " +:+ strs original_sgs) ;;
        try_except (boto_do (modify_network_interface_attribute (if_id x) original_sgs) ;; mret true)
          (λ e, if of_class "ClientError" e then
                  Some (log ERROR ("Failed to restore security groups for interface " +:+ if_id x +:+ ": " +:+ exn_str e) ;;
                        mret changed_any)
                else None)
  end.

(** The keys of the backup tags with the time of the last fencing. *)
Definition matching_keys (lastfence_timestamp : string) (tags : list ec2_tag) : M D (list string) :=
  mfold (λ keys tag,
    try_except
      (value ← member "Value" (tg_value tag);
       backup_data ← loads value;
       t ← json_get_or backup_data "t" JNull;
       if decide (json_text t = lastfence_timestamp) then
         key ← member "Key" (tg_key tag); mret (keys ++ [key])%list
       else mret keys)
      (λ e, match e with ValueError _ | KeyError _ => Some (mret keys) | _ => None end)) [] tags.

Definition restore_security_groups (instance_id : string) : M D unit :=
  logged "AWS API error: " "Unexpected error: "
    (lastfence ← tags_where instance_id "lastfence";
     match lastfence with
     | [] => log ERROR ("No lastfence tag found for instance " +:+ instance_id) ;; sys_exit EC_GENERIC_ERROR
     | tag :: _ =>
         lastfence_timestamp ← member "Value" (tg_value tag);
         tags ← tags_where instance_id (backup_keys instance_id);
         mwhen (bool_decide (length tags = 0%nat))
           (log ERROR ("No backup tags found for instance " +:+ instance_id) ;; sys_exit EC_GENERIC_ERROR) ;;
         backup_sg_map ← read_backups lastfence_timestamp tags;
         mwhen (bool_decide (length backup_sg_map = 0%nat))
           (log ERROR "No complete backup data found with matching timestamp" ;; sys_exit EC_GENERIC_ERROR) ;;
         '(_, _, current_interfaces) ← get_instance_details instance_id;
         changed_any ← mfold (restore_interface backup_sg_map) false current_interfaces;
         mwhen (negb changed_any)
           (log ERROR "No security groups were restored. All interfaces skipped." ;; sys_exit EC_GENERIC_ERROR) ;;
         sleep 5 ;;
         try_except
           (keys ← matching_keys lastfence_timestamp tags;
            mwhen (negb (bool_decide (keys = [])))
              (boto_do (delete_tags instance_id ("lastfence" :: keys)) ;;
               log INFO ("Removed matching backup tags " +:+ strs keys +:+ " and lastfence tag from instance " +:+ instance_id)))
           (λ e, if of_class "ClientError" e
                 then Some (log WARNING ("Failed to remove tags: " +:+ exn_str e)) else None)
     end).
End Fence.

(** ** Setting the groups of the options *)

Section Options.
Context {D : Type} `{Host D, Sessions D, Ec2 D}.

Definition shutdown_instance (instance_id : string) : M D unit :=
  except_Exception
    (log INFO ("Initiating shutdown for instance " +:+ instance_id +:+ "...") ;;
     boto_do (stop_instances instance_id) ;;
     log INFO ("Shutdown initiated for instance " +:+ instance_id +:+ ". Status checking will be handled by get_power_status."))
    (λ e,
       if of_class "ClientError" e then
         log ERROR ("AWS API error during instance shutdown: " +:+ exn_str e) ;;
         fail_usage ("Failed to shutdown instance: " +:+ exn_str e) true
       else
         log ERROR ("Unexpected error during instance shutdown: " +:+ exn_str e) ;;
         fail_usage ("Failed to shutdown instance due to unexpected error: " +:+ exn_str e) true).

Definition net_get_nodes_list : M D outlets :=
  log DEBUG "Starting monitor operation" ;;
  '(result, failed) ← listed_nodes;
  match failed with
  | None => mret tt
  | Some e => log ERROR ("Failed to get node list: " +:+ exn_str e)
  end ;;
  mret result.

Definition max_retries : nat := 3.
Definition retry_delay : Z := 2.

(** The attempts [left], with longer and longer pauses; the groups are read back. *)
Fixpoint apply_groups (left : nat) (interface_id : string) (sg_list : list string) : M D bool :=
  match left with
  | O => mret false
  | S k =>
      let attempt := (max_retries - left)%nat in
      let number := str_of_Z (Z.of_nat (S attempt)) +:+ "/" +:+ str_of_Z (Z.of_nat max_retries) in
      let pause := (retry_delay * Z.of_nat (S attempt))%Z in
      success ← try_except
        (boto_do (modify_network_interface_attribute interface_id sg_list) ;;
         log INFO ("Waiting for security group changes to propagate for interface " +:+ interface_id +:+
                   " (attempt " +:+ number +:+ ")") ;;
         sleep retry_delay ;;
         response ← boto_call (describe_network_interfaces interface_id);
         match default [] response with
         | [] =>
             log WARNING ("Could not verify security group changes - no interface data returned (attempt " +:+
                          number +:+ ")") ;;
             sleep retry_delay ;;
             mret false
         | x :: _ =>
             updated_sgs ← mfold (λ l g, id ← member "GroupId" g; mret (l ++ [id])%list) []
                             (default [] (nic_groups x));
             if same_groups updated_sgs sg_list then
               log INFO ("Successfully verified security group changes for interface " +:+ interface_id) ;;
               mret true
             else
               log WARNING ("Security group changes not fully applied for interface " +:+ interface_id +:+
                            " (attempt " +:+ number +:+ "). Expected: " +:+ strs (py_sorted sg_list) +:+
                            ", Got: " +:+ strs (py_sorted updated_sgs)) ;;
               sleep pause ;;
               mret false
         end)
        (λ e, if of_class "ClientError" e then
                Some (log ERROR ("Failed to set security groups for interface " +:+ interface_id +:+
                                 " (attempt " +:+ number +:+ "): " +:+ exn_str e) ;;
                      sleep pause ;;
                      mret false)
              else None);
      if (success : bool) then mret true else apply_groups k interface_id sg_list
  end.

(** The interfaces that were changed, one more. *)
Definition set_interface (modified_interfaces : list string) (ix : nat * interface) : M D (list string) :=
  let '(idx, x) := ix in
  o ← interface_option idx;
  match o with
  | None =>
      log INFO ("No interface option found for interface " +:+ str_of_Z (Z.of_nat idx) +:+ ": " +:+ if_id x +:+
                " - leaving unchanged") ;;
      mret modified_interfaces
  | Some (key, v) =>
      text ← as_str v;
      let sg_list := listed_groups text in
      log INFO ("Found " +:+ key +:+ "=" +:+ text +:+ " for interface " +:+ if_id x) ;;
      match sg_list with
      | [] =>
          log WARNING ("Empty security group list for interface " +:+ if_id x +:+ " - skipping") ;;
          mret modified_interfaces
      | _ =>
          if same_groups (if_groups x) sg_list then
            log INFO ("Interface " +:+ if_id x +:+ " already has desired SGs " +:+ strs sg_list +:+ ", skipping.") ;;
            mret modified_interfaces
          else
            log INFO ("Setting interface " +:+ if_id x +:+ " SGs from " +:+ strs (if_groups x) +:+ " to " +:+
                      strs sg_list +:+ " (bypassing tag logic)") ;;
            success ← apply_groups max_retries (if_id x) sg_list;
            if (success : bool) then mret (modified_interfaces ++ [if_id x])%list
            else
              log ERROR ("Failed to apply security group changes to interface " +:+ if_id x +:+ " after " +:+
                         str_of_Z (Z.of_nat max_retries) +:+ " attempts") ;;
              mret modified_interfaces
      end
  end.

(** The first interface with the identifier *)
Definition interface_index (interface_id : string) (interfaces : list interface) : option nat :=
  fst <$> list_find (λ x, if_id x = interface_id) interfaces.

Definition verify_interface (interfaces : list interface) (modified_interfaces : list string)
    (verification_failed : bool) (x : interface) : M D bool :=
  if negb (py_in (if_id x) modified_interfaces) then mret verification_failed
  else
    match interface_index (if_id x) interfaces with
    | None => mret verification_failed
    | Some interface_idx =>
        expected ← interface_groups interface_idx;
        match expected with
        | None => mret verification_failed
        | Some expected_sgs =>
            if same_groups (if_groups x) expected_sgs then
              log INFO ("Final verification successful for interface " +:+ if_id x) ;;
              mret verification_failed
            else
              log ERROR ("Final verification failed for interface " +:+ if_id x +:+ ": Expected SGs " +:+
                         strs (py_sorted expected_sgs) +:+ ", but found " +:+ strs (py_sorted (if_groups x))) ;;
              mret true
        end
    end.

Definition enumerate {A} (l : list A) : list (nat * A) := zip (seq 0 (length l)) l.

(** The interfaces that have no option. *)
Definition missing_options (interfaces : list interface) : M D (list (nat * interface)) :=
  mfold (λ missing ix,
    o ← interface_option ix.1;
    mret (match o with Some _ => missing | None => missing ++ [ix] end)%list) [] (enumerate interfaces).

Definition missing_message (missing : list (nat * interface)) : string :=
  "ERROR: When action=on, all interfaces must have corresponding interface options." +:+ nl +:+
  "The following interfaces are missing options:" +:+ nl +:+
  join "" (map (λ ix, "  Interface " +:+ str_of_Z (Z.of_nat ix.1) +:+ ": " +:+ if_id ix.2 +:+ nl) missing) +:+
  "Please define security groups for all interfaces using the interface{i}-sg option.".

Definition log_interface_options : M D unit :=
  found ← mfold (λ l i, o ← interface_option i; mret (match o with Some kv => l ++ [kv] | None => l end)%list) []
            (seq 0 16);
  log INFO ("Found " +:+ str_of_Z (Z.of_nat (length found)) +:+ " interface options:") ;;
  mfor found (λ kv, log INFO ("  " +:+ kv.1 +:+ "=" +:+ py_str kv.2)).

(** Whether something was changed, and found changed in the end. *)
Definition restore_security_groups_from_options (instance_id : string) : M D bool :=
  except_Exception
    (log INFO ("Using direct interface security group options for instance " +:+ instance_id +:+
               " (bypassing all tag logic)") ;;
     '(_, _, interfaces) ← get_instance_details instance_id;
     log INFO ("Instance " +:+ instance_id +:+ " has " +:+ str_of_Z (Z.of_nat (length interfaces)) +:+
               " network interfaces:") ;;
     mfor (enumerate interfaces) (λ ix,
       log INFO ("  Interface " +:+ str_of_Z (Z.of_nat ix.1) +:+ ": " +:+ if_id ix.2 +:+ " with SGs: " +:+
                 strs (if_groups ix.2))) ;;
     log_interface_options ;;
     action ← opt_find "--action";
     mwhen (bool_decide (action = Some (VStr "on")))
       (missing ← missing_options interfaces;
        mwhen (negb (bool_decide (length missing = 0%nat)))
          (log ERROR (missing_message missing) ;; fail_usage (missing_message missing) true)) ;;
     modified_interfaces ← mfold set_interface [] (enumerate interfaces);
     match modified_interfaces with
     | [] =>
         log WARNING ("No security groups were modified for instance " +:+ instance_id +:+ " using interface options") ;;
         mret false
     | _ =>
         log INFO ("Successfully modified security groups for instance " +:+ instance_id +:+ " using interface options") ;;
         log INFO ("Modified interfaces: " +:+ strs modified_interfaces) ;;
         log INFO "Performing final verification of all modified interfaces" ;;
         sleep 5 ;;
         '(_, _, updated_interfaces) ← get_instance_details instance_id;
         verification_failed ← mfold (verify_interface interfaces modified_interfaces) false updated_interfaces;
         if (verification_failed : bool) then
           log ERROR "Some interfaces failed final verification - security group changes may not be fully committed" ;;
           mret false
         else log INFO "All security group changes successfully verified and committed" ;; mret true
     end)
    (λ e, log ERROR ("Error in restore_security_groups_from_options: " +:+ exn_str e) ;; raise e).

(** ** Setting the status *)

Definition power_on (instance_id : string) (interface_sg_present : bool) : M D unit :=
  log INFO ("Executing ON action for instance " +:+ instance_id) ;;
  if interface_sg_present then
    log INFO "Using interface options to set security groups" ;;
    restore_security_groups_from_options instance_id ;; mret tt
  else
    skip ← opt_has "--unfence-ignore-restore";
    if (skip : bool) then log INFO "Skipping security group restoration as --unfence-ignore-restore is set"
    else
      log INFO "Restoring security groups from backup tags" ;;
      restore_security_groups instance_id.

Definition fence_by_groups (instance_id : string) (sg_to_remove : list string) (timestamp : Z)
    (interface_sg_present : bool) : M D unit :=
  log INFO ("Using --secg option to modify security groups: " +:+ strs sg_to_remove) ;;
  keep_only ← opt_has "--invert-sg-removal";
  except_Exception
    (modify_security_groups instance_id sg_to_remove timestamp keep_only interface_sg_present ;;
     poweroff ← opt_has "--onfence-poweroff";
     mwhen poweroff
       (log INFO "--onfence-poweroff is set, initiating instance shutdown" ;; shutdown_instance instance_id))
    (λ e,
       if of_class "ClientError" e then
         log ERROR ("AWS API error: " +:+ exn_str e) ;; fail_usage (exn_str e) true
       else
         ignore ← opt_has "--ignore-tag-write-failure";
         if (ignore : bool) then
           if contains "Failed to modify security groups" (exn_str e) then
             log ERROR ("Failed to modify security groups: " +:+ exn_str e) ;; fail EC_STATUS true
           else log WARNING ("Ignoring error due to ignore-tag-write-failure: " +:+ exn_str e)
         else log ERROR ("Failed to set power status: " +:+ exn_str e) ;; fail EC_STATUS true).

(** The groups of the options, or a failure. *)
Definition apply_options (instance_id : string) : M D unit :=
  success ← restore_security_groups_from_options instance_id;
  mwhen (negb success)
    (log ERROR "Failed to apply interface security group options" ;; fail EC_STATUS true).

Definition power_off (instance_id : string) (sg_to_remove : list string) (timestamp : Z)
    (interface_sg_present : bool) : M D unit :=
  log INFO ("Executing OFF action for instance " +:+ instance_id) ;;
  match sg_to_remove with
  | _ :: _ => fence_by_groups instance_id sg_to_remove timestamp interface_sg_present
  | [] =>
      if interface_sg_present then
        log INFO "No --secg option provided with interface options" ;;
        ignore ← opt_has "--ignore-instance-state";
        if (ignore : bool) then
          log INFO "--ignore-instance-state flag detected with interface options - applying interface options regardless of instance state" ;;
          apply_options instance_id
        else
          matching ← check_interface_sg_match instance_id;
          if (matching : bool)
          then log INFO "Current security groups already match desired state, no changes needed"
          else
            log INFO "Current security groups don't match desired state, applying interface options" ;;
            apply_options instance_id
      else log WARNING "No --secg option or interface options provided for OFF action, no changes will be made"
  end.

Definition net_set_power_status : M D unit :=
  now ← time;
  let timestamp := (now / USEC)%Z in
  instance_id ← opt_str "--plug";
  sg_to_remove ← sg_option;
  skip ← opt_has "--skip-race-check";
  mwhen (negb skip)
    (self_instance_id ← net_instance_id;
     mwhen (bool_decide (self_instance_id = Some instance_id))
       (fail_usage "Self-fencing detected. Exiting." true)) ;;
  except_Exception
    ('(instance_state, _, _) ← get_instance_details instance_id;
     mwhen (negb (bool_decide (instance_state = "running")))
       (ignore ← opt_has "--ignore-instance-state";
        if (ignore : bool) then
          log INFO ("Instance " +:+ instance_id +:+ " is in '" +:+ instance_state +:+
                    "' state but --ignore-instance-state is set, proceeding with fencing")
        else
          action ← opt_get "--action";
          mwhen (bool_decide (action = VStr "off"))
            (fail_usage ("Instance " +:+ instance_id +:+ " is not running. Exiting.") true)) ;;
     present ← interface_sg_present;
     action ← opt_get "--action";
     if decide (action = VStr "on") then power_on instance_id present
     else if decide (action = VStr "off") then power_off instance_id sg_to_remove timestamp present
     else mret tt)
    (λ e, log ERROR ("Unexpected error in set_power_status: " +:+ exn_str e) ;; fail EC_STATUS true).
End Options.

(** ** Options and the program *)

Definition interface_sg_opt (i : nat) : string * optdef :=
  let n := str_of_Z (Z.of_nat i) in
  ("interface" +:+ n +:+ "-sg", opt [Getopt ":";
     Longopt ("interface" +:+ n +:+ "-sg");
     Help ("--interface" +:+ n +:+ "-sg=[sg1,sg2,...]   Comma-separated list of Security Groups to restore for interface " +:+
           n +:+ " (bypasses tag logic)");
     Shortdesc ("Security Groups to restore for interface " +:+ n +:+ " (bypasses tag logic)");
     Required "0";
     Order (13 + Z.of_nat i)]).

Definition net_opts : list (string * optdef) := [
  ("region", opt [Getopt "r:";
     Longopt "region";
     Help "-r, --region=[region]          AWS region (e.g., us-east-1)";
     Shortdesc "AWS Region.";
     Required "0";
     Order 1]);
  ("access_key", opt [Getopt "a:";
     Longopt "access-key";
     Help "-a, --access-key=[key]         AWS access key.";
     Shortdesc "AWS Access Key.";
     Required "0";
     Order 2]);
  ("secret_key", opt [Getopt "s:";
     Longopt "secret-key";
     Help "-s, --secret-key=[key]         AWS secret key.";
     Shortdesc "AWS Secret Key.";
     Required "0";
     Order 3]);
  ("secg", opt [Getopt ":";
     Longopt "secg";
     Help "--secg=[sg1,sg2,...]           Comma-separated list of Security Groups to remove.";
     Shortdesc "Security Groups to remove.";
     Required "0";
     Order 4]);
  ("skip_race_check", opt [Getopt "";
     Longopt "skip-race-check";
     Help "--skip-race-check              Skip race condition check.";
     Shortdesc "Skip race condition check.";
     Required "0";
     Order 6]);
  ("invert-sg-removal", opt [Getopt "";
     Longopt "invert-sg-removal";
     Help "--invert-sg-removal            Remove all security groups except the specified one(s).";
     Shortdesc "Remove all security groups except specified..";
     Required "0";
     Order 7]);
  ("unfence-ignore-restore", opt [Getopt "";
     Longopt "unfence-ignore-restore";
     Help "--unfence-ignore-restore       Do not restore security groups from tag when unfencing (off).";
     Shortdesc "Remove all security groups except specified..";
     Required "0";
     Order 8]);
  ("filter", opt [Getopt ":";
     Longopt "filter";
     Help "--filter=[key=value]           Filter (e.g. vpc-id=[vpc-XXYYZZAA])";
     Shortdesc "Filter for list-action";
     Required "0";
     Order 9]);
  ("boto3_debug", opt [Getopt "b:";
     Longopt "boto3_debug";
     Help "-b, --boto3_debug=[option]     Boto3 and Botocore library debug logging";
     Shortdesc "Boto Lib debug";
     Required "0";
     Default (VStr "False");
     Order 10]);
  ("onfence-poweroff", opt [Getopt "";
     Longopt "onfence-poweroff";
     Help "--onfence-poweroff             Power off the machine async upon fence (this is a network fencing agent...)";
     Shortdesc "Power off the machine async..";
     Required "0";
     Order 11]);
  ("ignore-tag-write-failure", opt [Getopt "";
     Longopt "ignore-tag-write-failure";
     Help "--ignore-tag-write-failure     Continue to fence even if backup tag fails.  This ensures prioriization of fencing over AWS backplane access";
     Shortdesc "Continue to fence even if backup tag fails..";
     Required "0";
     Order 12]);
  ("ignore-instance-state", opt [Getopt "";
     Longopt "ignore-instance-state";
     Help "--ignore-instance-state         Fence regardless of what AWS returns re the power state of the instance, (this is a network fencing agent...)";
     Shortdesc "Fence regardless of AWS state";
     Required "0";
     Order 13])
].

Definition net_docs : docs := Docs
  ("fence_aws_vpc is a Network and Power Fencing agent for AWS VPC that works by manipulating security groups. It uses the boto3 library to connect to AWS." +:+ nl +:+ nl +:+ "boto3 can be configured with AWS CLI or by creating ~/.aws/credentials." +:+ nl +:+ "For instructions see: https://boto3.readthedocs.io/en/latest/guide/quickstart.html#configuration NOTE: If onfence-poweroff is set, the agent won't be able to power on the node again, it will have to be powered on manually or with other automation.")
  "Fence agent for AWS (Amazon Web Services) Net" (Some "http://www.amazon.com") [] None.

Definition net_set_opts {D} : M D unit :=
  allopt_set "port" (Help "-n, --plug=[id]                AWS Instance ID to perform action on ") ;;
  allopt_set "port" (Shortdesc "AWS Instance ID to perform action on ") ;;
  add_options (map interface_sg_opt (seq 0 16)) ;;
  add_options net_opts.

Definition net_device_opt : list string :=
  (["no_password"; "region"; "access_key"; "secret_key"; "secg"; "port"; "skip_race_check";
    "invert-sg-removal"; "unfence-ignore-restore"; "filter"; "boto3_debug"; "onfence-poweroff";
    "ignore-tag-write-failure"; "ignore-instance-state"] ++
   map (λ i, "interface" +:+ str_of_Z (Z.of_nat i) +:+ "-sg") (seq 0 16))%list.

Definition fence_aws_vpc_net_main {D} `{Host D, Sessions D, Ec2 D} (fuel : nat) (time_start : Z)
    (inv : invocation) (set_order : list string → list string) : M D unit :=
  net_set_opts ;;
  except_Exception (checked_options inv net_device_opt)
    (λ e, log ERROR ("Failed to process input options: " +:+ exn_str e) ;; sys_exit EC_GENERIC_ERROR) ;;
  run_delay time_start 0 0 ;;
  show_docs (inv_prog inv) set_order (Some net_docs) ;;
  action ← opt_find "--action";
  mwhen (bool_decide (action = Some (VStr "reboot"))) (opt_set "--action" (VStr "off")) ;;
  v ← opt_find "--boto3_debug";
  level ← as_str (default (VStr "") v);
  boto_logging level "/var/log/fence_aws_vpc_boto3.log" ;;
  aws_connect ;;
  result ← fence_action fuel (Some net_set_power_status) (Some net_get_power_status)
             (Some net_get_nodes_list) None None;
  sys_exit result.
