(* ===== verification/VpcSpec.v ===== *)
(** * The backups of fence_aws_vpc_net

    The security groups that an instance had are written to its tags in pieces and put
    together again from them. The pieces fit into a tag, and whatever order the tags come
    in, what is read is what was written. *)

From S2P Require Import Prelude PyStr OptionDefs Effects Fail Host Input Process Login Metadata Action TextFacts.
From S2P Require Import Json JsonSpec Globals Http Sessions Ibmz Aws VpcNet.

Local Open Scope string_scope.

(** ** Splitting *)

Section Split.
Variables (interface_id : string) (timestamp : Z).

Definition split_groups (l : list string) : list (list string) :=
  all_chunks (foldl (add_group interface_id timestamp) ([], []) l).

Lemma concat_all_chunks acc : concat (all_chunks acc) = (concat acc.1 ++ acc.2)%list.
Proof.
  destruct acc as [chunks [|x l]]; unfold all_chunks; cbn [fst snd]; [by rewrite app_nil_r|].
  rewrite concat_app. cbn. by rewrite app_nil_r.
Qed.

Lemma add_group_concat acc sg :
  concat (all_chunks (add_group interface_id timestamp acc sg)) = (concat (all_chunks acc) ++ [sg])%list.
Proof.
  destruct acc as [chunks current]. rewrite !concat_all_chunks. unfold add_group.
  destruct (too_long _ _ _ _).
  - destruct current as [|x l]; cbn [fst snd]; rewrite concat_app; cbn; rewrite ?app_nil_r; [done|].
    by rewrite <- !app_assoc.
  - cbn [fst snd]. by rewrite app_assoc.
Qed.

Lemma split_groups_concat l : concat (split_groups l) = l.
Proof.
  unfold split_groups.
  assert (∀ acc, concat (all_chunks (foldl (add_group interface_id timestamp) acc l)) =
    (concat (all_chunks acc) ++ l)%list) as H; [|by rewrite H].
  induction l as [|x l IH]; intros acc; cbn [foldl]; [by rewrite app_nil_r|].
  rewrite IH, add_group_concat, <- app_assoc. done.
Qed.

(** What the chunks and the one that is being filled satisfy, when it is kept by every
    group that is added. *)
Lemma split_groups_ind (P : nat → list string → Prop) :
  (∀ n sg, P n [sg]) →
  (∀ n c sg, c ≠ [] → P n c → too_long interface_id timestamp (replicate n []) (c ++ [sg]) = false → P n (c ++ [sg])%list) →
  ∀ l i c, split_groups l !! i = Some c → P i c ∧ c ≠ [].
Proof.
  intros Hone Hmore l.
  assert (∀ acc,
    (∀ i c, acc.1 !! i = Some c → P i c ∧ c ≠ []) → (acc.2 ≠ [] → P (length acc.1) acc.2) →
    ∀ i c, all_chunks (foldl (add_group interface_id timestamp) acc l) !! i = Some c → P i c ∧ c ≠ []) as H.
  { induction l as [|sg l IH]; intros [chunks cur] Hchunks Hcur; cbn [foldl fst snd] in *.
    - intros i c. unfold all_chunks. cbn [fst snd]. destruct cur as [|x cur]; [apply Hchunks|].
      intros Hi. apply lookup_snoc_Some in Hi as [[_ Hi]|[-> <-]]; [by apply Hchunks|]. split; [by apply Hcur|discriminate].
    - apply IH; unfold add_group; destruct (too_long _ _ _ _) eqn:E; cbn [fst snd]; [|exact Hchunks| |].
      + destruct cur as [|x cur]; cbn [fst]; intros i c Hi; apply lookup_snoc_Some in Hi as [[_ Hi]|[-> <-]];
          try (by apply Hchunks); split; first [apply Hone|by apply Hcur|discriminate].
      + destruct cur as [|x cur]; cbn [fst snd]; [done|]. intros _. apply Hone.
      + intros _. destruct cur as [|x cur]; [apply Hone|]. apply Hmore; [done|by apply Hcur|].
        unfold too_long in *. by rewrite length_replicate. }
  intros i c. apply H; [intros ? ?; cbn; by rewrite lookup_nil|done].
Qed.
End Split.

(** ** The length of a tag *)

Lemma py_len_ascii s : all_chars ascii_char s = true → py_len s = String.length s.
Proof.
  unfold py_len. induction s as [|c s IH]; intros Hs; [done|].
  apply andb_true_iff in Hs as [Hc Hs]. rewrite code_points_cons by done. cbn. f_equal. by apply IH.
Qed.

Lemma escape_char_ascii c : ascii_char c = true → all_chars ascii_char (escape_char (ord c)) = true.
Proof. by destruct c as [[] [] [] [] [] [] [] []]. Qed.

Lemma dump_string_ascii s : all_chars ascii_char s = true → all_chars ascii_char (dump_string s) = true.
Proof.
  intros Hs. unfold dump_string. rewrite !all_chars_app.
  assert (all_chars ascii_char (join "" (map escape_char (code_points s))) = true) as ->; [|done].
  induction s as [|c s IH]; [done|]. apply andb_true_iff in Hs as [Hc Hs].
  rewrite code_points_cons by done. specialize (IH Hs).
  destruct (code_points s) as [|d l]; cbn [map join] in *; [by apply escape_char_ascii|].
  rewrite all_chars_app, escape_char_ascii by done. exact IH.
Qed.

Lemma join_ascii sep l :
  all_chars ascii_char sep = true → forallb (all_chars ascii_char) l = true → all_chars ascii_char (join sep l) = true.
Proof.
  intros Hsep. induction l as [|x [|y l] IH]; intros Hl; [done|cbn in Hl; by rewrite andb_true_r in Hl|].
  cbn [forallb] in Hl. apply andb_true_iff in Hl as [Hx Hl].
  change (join sep (x :: y :: l)) with (x +:+ sep +:+ join sep (y :: l)).
  rewrite !all_chars_app, Hx, Hsep. by apply IH.
Qed.

Lemma str_of_Z_ascii n : all_chars ascii_char (str_of_Z n) = true.
Proof.
  assert (∀ s, all_digits s = true → all_chars ascii_char s = true) as H.
  { induction s as [|c s IH]; [done|]. intros [Hc Hs]%andb_true_iff. apply andb_true_iff. split; [|by apply IH].
    clear -Hc. by destruct c as [[] [] [] [] [] [] [] []]. }
  unfold str_of_Z. destruct (n <? 0)%Z eqn:E.
  - change ("-" +:+ ?x) with (String "-" x). apply (H (digits_go _ _ _)), nonneg_digits. lia.
  - apply H, nonneg_digits. lia.
Qed.

Lemma enclosed_ascii level open close items :
  all_chars ascii_char open = true → all_chars ascii_char close = true →
  forallb (all_chars ascii_char) items = true → all_chars ascii_char (enclosed None level open close items) = true.
Proof.
  intros Ho Hc Hi. destruct items as [|x items].
  - unfold enclosed. by rewrite all_chars_app, Ho, Hc.
  - unfold enclosed. cbn [line_at]. by rewrite !all_chars_app, Ho, Hc, join_ascii by done.
Qed.

(** What is written is ASCII. *)
Lemma dump_ascii f v level : plain v = true → all_chars ascii_char (dump f None level v) = true.
Proof.
  revert level. induction v as [|[]|n|x|s|l IH|d IH] using json_ind; intros level Hp; try done.
  - apply str_of_Z_ascii.
  - by apply dump_string_ascii.
  - cbn [dump]. apply enclosed_ascii; [done|done|]. cbn [plain] in Hp. revert Hp.
    induction IH as [|x l Hx _ IHl]; [done|]. cbn [forallb map]. intros [Hpx Hpl]%andb_true_iff.
    rewrite Hx by done. by apply IHl.
  - cbn [dump]. apply enclosed_ascii; [done|done|]. cbn [plain] in Hp. apply andb_true_iff in Hp as [Hp _]. revert Hp.
    induction IH as [|kv d Hx _ IHl]; [done|]. cbn [forallb map]. intros [Hpx Hpl]%andb_true_iff.
    apply andb_true_iff in Hpx as [Hk Hv].
    rewrite !all_chars_app, dump_string_ascii, Hx by done. by apply IHl.
Qed.

Lemma backup_plain interface_id chunk index total timestamp :
  all_chars ascii_char interface_id = true → forallb (all_chars ascii_char) chunk = true →
  plain (backup_of interface_id chunk index total timestamp) = true.
Proof.
  intros Hid Hc. cbn. rewrite Hid. cbn. rewrite andb_true_r.
  induction chunk as [|sg chunk IH]; [done|]. cbn in Hc |- *. apply andb_true_iff in Hc as [-> Hc]. by apply IH.
Qed.

Lemma backup_text_length interface_id chunk index total timestamp :
  (String.length (backup_text (backup_of interface_id chunk index total timestamp)) + 1 =
   String.length (backup_text (backup_of interface_id chunk index 1 timestamp)) +
   String.length (str_of_Z (Z.of_nat total)))%nat.
Proof.
  unfold backup_text, json_dumps, backup_of. cbn [dump map fst snd].
  set (l := enclosed None 2 "[" "]" _). unfold enclosed. cbn [join line_at].
  change (str_of_Z (Z.of_nat 1)) with "1". rewrite !length_app_str. cbn [String.length]. lia.
Qed.

Lemma substring_ascii n m s :
  all_chars ascii_char s = true → all_chars ascii_char (String.substring n m s) = true.
Proof.
  revert n m. induction s as [|c s IH]; intros n m Hs; [by destruct n, m|].
  apply andb_true_iff in Hs as [Hc Hs]. destruct n as [|n]; [|by apply IH].
  destruct m as [|m]; [done|]. apply andb_true_iff. split; [done|by apply IH].
Qed.

Lemma group_prefix_ascii g : all_chars ascii_char g = true → all_chars ascii_char (group_prefix g) = true.
Proof. unfold group_prefix. intros Hg. destruct (startswith _ g); [by apply substring_ascii|done]. Qed.

(** C35. The values of the tags stay small: one that holds more than one group is no longer
    than 253 characters and the digits of the number of tags of its interface. *)
Theorem backup_tag_fits interface_id timestamp groups i chunk :
  let chunks := split_groups interface_id timestamp (map group_prefix groups) in
  all_chars ascii_char interface_id = true → forallb (all_chars ascii_char) groups = true →
  chunks !! i = Some chunk → (1 < length chunk)%nat →
  (py_len (backup_text (backup_of interface_id chunk i (length chunks) timestamp)) ≤
   253 + String.length (str_of_Z (Z.of_nat (length chunks))))%nat.
Proof.
  intros chunks Hid Hg Hi Hlen.
  assert (forallb (all_chars ascii_char) chunk = true) as Hc.
  { apply forallb_forall. intros sg Hsg. apply list_elem_of_In in Hsg.
    assert (sg ∈ concat chunks) as Hin by (apply list_elem_of_In, in_concat; exists chunk; split; apply list_elem_of_In; [by eapply list_elem_of_lookup_2|done]).
    unfold chunks in Hin. rewrite split_groups_concat in Hin. apply list_elem_of_fmap in Hin as (g & -> & Hin).
    apply group_prefix_ascii. by apply (proj1 (forallb_forall _ _) Hg), list_elem_of_In. }
  assert (py_len (backup_text (backup_of interface_id chunk i 1 timestamp)) ≤ 254)%nat as Hfit.
  { revert i chunk Hi Hlen Hc. unfold chunks. intros i chunk Hi Hlen _.
    refine (proj1 (split_groups_ind interface_id timestamp
      (λ n c, (1 < length c)%nat → (py_len (backup_text (backup_of interface_id c n 1 timestamp)) ≤ 254)%nat)
      _ _ _ i chunk Hi) Hlen).
    - cbn. lia.
    - intros n c sg _ _ Hs _. unfold too_long in Hs. rewrite length_replicate in Hs.
      apply bool_decide_eq_false in Hs. lia. }
  rewrite py_len_ascii in Hfit |- * by (by apply dump_ascii, backup_plain).
  pose proof (backup_text_length interface_id chunk i (length chunks) timestamp). lia.
Qed.

Lemma filter_all {A} (P : A → Prop) `{∀ x, Decision (P x)} l : Forall P l → filter P l = l.
Proof. induction 1 as [|x l Hx _ IH]; [done|]. rewrite filter_cons, decide_True by done. by rewrite IH. Qed.

Lemma filter_none {A} (P : A → Prop) `{∀ x, Decision (P x)} l : Forall (λ x, ¬ P x) l → filter P l = [].
Proof. induction 1 as [|x l Hx _ IH]; [done|]. by rewrite filter_cons, decide_False. Qed.

(** ** Dictionaries whose keys are of one kind *)

Section Keyed.
Context {A : Type} `{EqDecision A} (f : A → json).
Hypothesis Hf : ∀ a b, same_key_value (f a) (f b) = bool_decide (a = b).

Definition keyed {B} (d : list (json * B)) : Prop := ∀ kv, kv ∈ d → ∃ a, kv.1 = f a.

Lemma keyed_nil {B} : keyed (B := B) [].
Proof. by intros kv ?%not_elem_of_nil. Qed.

Lemma keyed_cons {B} a (v : B) d : keyed ((f a, v) :: d) ↔ keyed d.
Proof.
  split; intros H kv Hkv; [by apply H; right|]. apply elem_of_cons in Hkv as [->|Hkv]; [by exists a|by apply H].
Qed.

Lemma keyed_inv {B} kv (d : list (json * B)) : keyed (kv :: d) → (∃ a v, kv = (f a, v)) ∧ keyed d.
Proof.
  intros H. split; [|intros x Hx; by apply H; right].
  destruct (H kv) as [a Ha]; [by left|]. destruct kv as [k v]. exists a, v. cbn in Ha. by rewrite Ha.
Qed.

Lemma vdict_get_insert {B} a b (v : B) d :
  keyed d → vdict_get (f b) (vdict_insert (f a) v d) = if decide (a = b) then Some v else vdict_get (f b) d.
Proof using Hf.
  induction d as [|kv d IH]; intros Hd.
  - cbn. rewrite Hf. repeat case_decide; try case_bool_decide; congruence.
  - apply keyed_inv in Hd as [(c & w & ->) Hd]. cbn [vdict_insert]. rewrite Hf. case_bool_decide as Hac.
    + subst c. cbn. rewrite Hf. case_decide as Hab; case_bool_decide as Hba; congruence.
    + cbn [vdict_get]. rewrite Hf, IH by done. case_bool_decide as Hbc; [|done]. subst c. by rewrite decide_False.
Qed.

Lemma vdict_insert_keyed {B} a (v : B) d : keyed d → keyed (vdict_insert (f a) v d).
Proof.
  induction d as [|kv d IH]; intros Hd; cbn [vdict_insert]; [by apply keyed_cons|].
  apply keyed_inv in Hd as [(c & w & ->) Hd]. destruct (same_key_value _ _); apply keyed_cons; auto.
Qed.

Lemma vdict_insert_length {B} a (v : B) d :
  keyed d → vdict_get (f a) d = None → length (vdict_insert (f a) v d) = S (length d).
Proof using Hf.
  induction d as [|kv d IH]; intros Hd Hg; [done|]. apply keyed_inv in Hd as [(c & w & ->) Hd].
  revert Hg. cbn [vdict_insert vdict_get]. destruct (same_key_value _ _); [done|]. intros Hg. cbn. by rewrite IH.
Qed.
End Keyed.

Definition index_key (i : nat) : json := JInt (Z.of_nat i).

Lemma text_keys a b : same_key_value (JStr a) (JStr b) = bool_decide (a = b).
Proof. done. Qed.

Lemma index_keys i j : same_key_value (index_key i) (index_key j) = bool_decide (i = j).
Proof.
  cbn. rewrite !Z.mul_1_r. destruct (Z.eqb_spec (Z.of_nat i) (Z.of_nat j)), (bool_decide_reflect (i = j)); lia || done.
Qed.

(** ** Reading one tag *)

Record piece := Piece { pc_id : string; pc_index : nat; pc_total : nat; pc_chunk : list string }.

Definition piece_tag (timestamp : Z) (kp : string * piece) : ec2_tag :=
  Tag (Some kp.1)
    (Some (backup_text (backup_of (pc_id kp.2) (pc_chunk kp.2) (pc_index kp.2) (pc_total kp.2) timestamp))).

Definition piece_ascii (p : piece) : Prop :=
  all_chars ascii_char (pc_id p) = true ∧ forallb (all_chars ascii_char) (pc_chunk p) = true.

Definition chunk_value (c : list string) : json := JList (map JStr c).

Section ReadPieces.
Context {D : Type} `{Sessions D}.

Lemma mfold_app {A B} (f : B → list A) (l : list B) acc (s : st D) :
  mfold (λ acc x, mret (acc ++ f x)%list) acc l s = (Ret (acc ++ concat (map f l))%list, s).
Proof.
  revert acc. induction l as [|x l IH]; intros acc; cbn [mfold map concat]; [by rewrite app_nil_r|].
  rewrite (bind_Ret _ _ s (acc ++ f x)%list s) by done. by rewrite IH, app_assoc.
Qed.

Lemma restored_chunk c acc (s : st D) :
  mfold (λ l v, g ← restored_group v; mret (l ++ [g])%list) acc (map JStr c) s =
    (Ret (acc ++ map with_prefix c)%list, s).
Proof.
  revert acc. induction c as [|sg c IH]; intros acc; cbn [mfold map]; [by rewrite app_nil_r|].
  rewrite (bind_Ret _ _ s (acc ++ [with_prefix sg])%list s) by done. by rewrite IH, <- app_assoc.
Qed.

(** All chunks are there. *)
Lemma combine_complete cs chunks (s : st D) :
  length chunks = length cs →
  (∀ i c, cs !! i = Some c → vdict_get (index_key i) chunks = Some (chunk_value c)) →
  combine_chunks (index_key (length cs)) chunks s = (Ret (concat (map (map with_prefix) cs)), s).
Proof.
  intros Hlen Hget. unfold combine_chunks, range_of, index_key. rewrite Hlen.
  rewrite (bind_Ret _ _ s (seq 0 (length cs)) s) by done.
  assert (∀ pre rest acc, cs = (pre ++ rest)%list →
    mfold (λ combined_sgs i,
      chunk ← match vdict_get (JInt (Z.of_nat i)) chunks with
              | Some v => mret v
              | None => raise (KeyError (str_of_Z (Z.of_nat i)))
              end;
      chunk_sgs ← json_iter chunk;
      restored_sgs ← mfold (λ l v, g ← restored_group v; mret (l ++ [g])%list) [] chunk_sgs;
      mret (combined_sgs ++ restored_sgs)%list) acc (seq (length pre) (length rest)) s =
    (Ret (acc ++ concat (map (map with_prefix) rest))%list, s)) as Hfold; [|by apply (Hfold [] cs [])].
  intros pre rest. revert pre. induction rest as [|c rest IH]; intros pre acc ->; cbn [seq length mfold map concat].
  { by rewrite app_nil_r. }
  fold (index_key (length pre)). rewrite (Hget (length pre) c) by (by apply list_lookup_middle).
  rewrite (bind_Ret _ _ s (acc ++ map with_prefix c)%list s).
  - specialize (IH (pre ++ [c])%list (acc ++ map with_prefix c)%list).
    rewrite length_app in IH. cbn [length] in IH. rewrite Nat.add_1_r, <- app_assoc in IH.
    rewrite IH by done. by rewrite <- app_assoc.
  - rewrite (bind_Ret _ _ s (chunk_value c) s) by done.
    rewrite (bind_Ret _ _ s (map JStr c) s) by done.
    rewrite (bind_Ret _ _ s (map with_prefix c) s) by (apply (restored_chunk c [])). done.
Qed.

Lemma attempt_eq {A} (m : M D A) s a s' : m s = (Ret a, s') → attempt m s = (Ret (inl a), s').
Proof. intros Hm. unfold attempt, except_Exception, try_except. by rewrite (bind_Ret _ _ _ _ _ Hm). Qed.

Definition tables_with (p : piece) (ic : found_chunks) : list (json * json) :=
  vdict_insert (index_key (pc_index p)) (chunk_value (pc_chunk p)) (default [] (vdict_get (JStr (pc_id p)) ic)).

(** A tag with the time of the last fencing. *)
Lemma read_piece timestamp key p ic mb (s : st D) :
  timestamp ≠ 0%Z → piece_ascii p →
  let chunks := tables_with p ic in
  let ic' := vdict_insert (JStr (pc_id p)) chunks ic in
  ∃ s1, s_dev s1 = s_dev s ∧ read_backup (str_of_Z timestamp) (piece_tag timestamp (key, p)) (ic, mb) s =
    (if same_key_value (index_key (length chunks)) (index_key (pc_total p)) then
       r ← attempt (combine_chunks (index_key (pc_total p)) chunks);
       mret (match r with
             | inr e => (ic', mb, Some e)
             | inl combined_sgs => (ic', vdict_insert (JStr (pc_id p)) combined_sgs mb, None)
             end)
     else mret (ic', mb, None)) s1.
Proof.
  intros Ht [Hid Hc] chunks ic'. unfold read_backup.
  set (s1 := add_event (EvLog INFO ("Found matching backup tag " +:+ key)) s). exists s1. split; [done|].
  pose proof (json_roundtrip (λ x, x) _ (backup_plain (pc_id p) (pc_chunk p) (pc_index p) (pc_total p) timestamp Hid Hc))
    as Hload.
  erewrite bind_Ret; [|apply (attempt_eq _ s (Some
    (JDict [("i", JStr (pc_id p)); ("s", chunk_value (pc_chunk p));
            ("c", JDict [("i", index_key (pc_index p)); ("t", index_key (pc_total p))])],
     JStr (pc_id p), index_key (pc_index p), index_key (pc_total p))) s1)].
  - cbv beta iota. rewrite (bind_Ret _ _ s1 (inl (chunk_value (pc_chunk p))) s1) by done. reflexivity.
  - cbn [piece_tag tg_value tg_key fst snd member].
    rewrite (bind_Ret _ _ s (backup_text (backup_of (pc_id p) (pc_chunk p) (pc_index p) (pc_total p) timestamp)) s) by done.
    rewrite (bind_Ret _ _ s (backup_of (pc_id p) (pc_chunk p) (pc_index p) (pc_total p) timestamp) s)
      by (unfold loads, backup_text; by rewrite Hload).
    rewrite (bind_Ret _ _ s (JInt timestamp) s) by done.
    cbn [json_truthy]. rewrite (proj2 (Z.eqb_neq _ _)) by done.
    change (json_text (JInt timestamp)) with (str_of_Z timestamp). rewrite bool_decide_true by done. reflexivity.
Qed.
End ReadPieces.

(** ** Reading all tags *)

Section Tables.
Context {D : Type} `{Sessions D}.
Variables (chunks_by : string → list (list string)) (timestamp : Z).
Hypothesis Htime : timestamp ≠ 0%Z.

Definition of_interface (id : string) (l : list piece) : list piece := filter (λ p, pc_id p = id) l.

Definition good_piece (p : piece) : Prop :=
  chunks_by (pc_id p) !! pc_index p = Some (pc_chunk p) ∧ pc_total p = length (chunks_by (pc_id p)) ∧ piece_ascii p.

Definition distinct (l : list piece) : Prop := NoDup (map (λ p, (pc_id p, pc_index p)) l).

Definition groups_by (id : string) : list string := concat (map (map with_prefix) (chunks_by id)).

Definition table_of (ic : found_chunks) (id : string) : list (json * json) := default [] (vdict_get (JStr id) ic).

(** What the tables hold after the pieces [seen]. *)
Record described (seen : list piece) (ic : found_chunks) (mb : found_groups) : Prop := {
  ds_chunks : keyed JStr ic;
  ds_groups : keyed JStr mb;
  ds_table id : keyed index_key (table_of ic id);
  ds_length id : length (table_of ic id) = length (of_interface id seen);
  ds_seen p : p ∈ seen → vdict_get (index_key (pc_index p)) (table_of ic (pc_id p)) = Some (chunk_value (pc_chunk p));
  ds_new id i : (∀ p, p ∈ seen → (pc_id p, pc_index p) ≠ (id, i)) → vdict_get (index_key i) (table_of ic id) = None;
  ds_done id : chunks_by id ≠ [] → length (of_interface id seen) = length (chunks_by id) →
    vdict_get (JStr id) mb = Some (groups_by id)
}.

Lemma described_nil : described [] [] [].
Proof.
  split; [apply keyed_nil|apply keyed_nil|intros id; apply keyed_nil|done|by intros p ?%not_elem_of_nil|done|].
  intros id Hne Hlen. by destruct (chunks_by id).
Qed.

Lemma distinct_indices id l : distinct l → NoDup (map pc_index (of_interface id l)).
Proof.
  unfold distinct, of_interface. induction l as [|p l IH]; cbn [map]; [constructor|].
  intros [Hp Hl]%NoDup_cons. rewrite filter_cons. case_decide as Hid; [|by apply IH].
  cbn [map]. apply NoDup_cons. split; [|by apply IH]. intros Hin. apply Hp.
  apply list_elem_of_fmap in Hin as (q & Hq & Hin). apply list_elem_of_filter in Hin as [Hqid Hin].
  apply list_elem_of_fmap. exists q. split; [|done]. by rewrite Hid, Hqid, Hq.
Qed.

(** As many pieces as there are chunks are all of them. *)
Lemma complete_pieces id l i c :
  distinct l → Forall good_piece l → length (of_interface id l) = length (chunks_by id) →
  chunks_by id !! i = Some c → ∃ p, p ∈ l ∧ pc_id p = id ∧ pc_index p = i ∧ pc_chunk p = c.
Proof.
  intros Hd Hg Hlen Hi.
  assert (incl (map pc_index (of_interface id l)) (seq 0 (length (chunks_by id)))) as Hincl.
  { intros j Hj%list_elem_of_In. apply list_elem_of_fmap in Hj as (p & -> & Hp).
    apply list_elem_of_filter in Hp as [<- Hp]. apply (proj1 (Forall_forall _ _) Hg) in Hp as (Hp & _).
    apply lookup_lt_Some in Hp. apply in_seq. lia. }
  apply NoDup_length_incl in Hincl; [|by apply NoDup_ListNoDup, distinct_indices|rewrite length_map, length_seq; lia].
  assert (In i (seq 0 (length (chunks_by id)))) as Hin by (apply lookup_lt_Some in Hi; apply in_seq; lia).
  apply Hincl, list_elem_of_In, list_elem_of_fmap in Hin as (p & -> & Hp).
  apply list_elem_of_filter in Hp as [<- Hp]. exists p. split_and!; [done..|].
  apply (proj1 (Forall_forall _ _) Hg) in Hp as (Hp & _). congruence.
Qed.

Lemma of_interface_cons id p l :
  of_interface id (p :: l) = if decide (pc_id p = id) then p :: of_interface id l else of_interface id l.
Proof. unfold of_interface. by rewrite filter_cons. Qed.

Lemma read_one key p seen ic mb (s : st D) :
  described seen ic mb → distinct (p :: seen) → Forall good_piece (p :: seen) →
  ∃ ic' mb' s', read_backup (str_of_Z timestamp) (piece_tag timestamp (key, p)) (ic, mb) s =
    (Ret (ic', mb', None), s') ∧ described (p :: seen) ic' mb' ∧ s_dev s' = s_dev s.
Proof using Htime.
  intros Hds Hdist Hgood.
  pose proof Hgood as [(Hchunk & Htotal & Hascii) Hg]%Forall_cons.
  destruct (read_piece timestamp key p ic mb s Htime Hascii) as (s1 & Hdev & Hread).
  set (chunks := tables_with p ic) in *. set (ic' := vdict_insert (JStr (pc_id p)) chunks ic) in *.
  assert (∀ id, table_of ic' id = if decide (pc_id p = id) then chunks else table_of ic id) as Htable.
  { intros id. unfold table_of, ic'. rewrite (vdict_get_insert JStr text_keys) by apply Hds. by case_decide. }
  assert (∀ q, q ∈ seen → (pc_id q, pc_index q) ≠ (pc_id p, pc_index p)) as Hnew.
  { intros q Hq Heq. apply NoDup_cons in Hdist as [Hp _]. apply Hp, list_elem_of_fmap. by exists q. }
  assert (∀ i, vdict_get (index_key i) chunks =
    if decide (pc_index p = i) then Some (chunk_value (pc_chunk p)) else vdict_get (index_key i) (table_of ic (pc_id p)))
    as Hget by (intros i; by apply (vdict_get_insert index_key index_keys), Hds).
  assert (length chunks = length (of_interface (pc_id p) (p :: seen))) as Hlen.
  { rewrite of_interface_cons, decide_True by done. cbn [length]. rewrite <- (ds_length _ _ _ Hds).
    apply (vdict_insert_length index_key index_keys); [apply Hds|]. by apply (ds_new _ _ _ Hds). }
  assert (∀ mb', keyed JStr mb' →
    (∀ id, chunks_by id ≠ [] → length (of_interface id (p :: seen)) = length (chunks_by id) →
       vdict_get (JStr id) mb' = Some (groups_by id)) → described (p :: seen) ic' mb') as Hdescribed.
  { intros mb' Hk Hdone. split; [by apply vdict_insert_keyed, Hds|done|..|done].
    - intros id. rewrite Htable. case_decide; [by apply vdict_insert_keyed, Hds|apply Hds].
    - intros id. rewrite Htable. case_decide as Hid; [by subst id|].
      rewrite of_interface_cons, decide_False by done. apply Hds.
    - intros q Hq. rewrite Htable. case_decide as Hid; [|].
      + rewrite Hget. apply elem_of_cons in Hq as [->|Hq]; [by rewrite decide_True|].
        rewrite decide_False; [rewrite Hid; by apply (ds_seen _ _ _ Hds)|].
        intros Hi. apply (Hnew q Hq). by rewrite Hid, Hi.
      + apply elem_of_cons in Hq as [->|Hq]; [done|]. by apply (ds_seen _ _ _ Hds).
    - intros id i Hno. rewrite Htable. case_decide as Hid.
      + rewrite Hget, decide_False by (intros Hi; apply (Hno p); [by left|by rewrite Hid, Hi]).
        apply (ds_new _ _ _ Hds). intros q Hq. rewrite Hid. apply Hno. by right.
      + apply (ds_new _ _ _ Hds). intros q Hq. apply Hno. by right. }
  rewrite index_keys in Hread. exists ic'. case_bool_decide as Hall.
  - rewrite Htotal in Hall.
    assert (combine_chunks (index_key (pc_total p)) chunks s1 = (Ret (groups_by (pc_id p)), s1)) as Hcombine.
    { rewrite Htotal. apply combine_complete; [done|]. intros i c Hi.
      destruct (complete_pieces (pc_id p) (p :: seen) i c) as (q & Hq & Hqid & <- & <-); [done|done|congruence|done|].
      rewrite Hget. apply elem_of_cons in Hq as [->|Hq]; [by rewrite decide_True|].
      rewrite decide_False; [rewrite <- Hqid; by apply (ds_seen _ _ _ Hds)|].
      intros Hi'. apply (Hnew q Hq). by rewrite Hqid, Hi'. }
    rewrite (bind_Ret _ _ _ _ _ (attempt_eq _ _ _ _ Hcombine)) in Hread.
    eexists _, _. split; [exact Hread|]. split; [|done]. apply Hdescribed; [by apply vdict_insert_keyed, Hds|].
    intros id Hne Hl. rewrite (vdict_get_insert JStr text_keys) by apply Hds. case_decide as Hid; [by subst id|].
    rewrite of_interface_cons, decide_False in Hl by done. by apply (ds_done _ _ _ Hds).
  - eexists _, _. split; [exact Hread|]. split; [|done]. apply Hdescribed; [apply Hds|].
    intros id Hne Hl. rewrite of_interface_cons in Hl. case_decide as Hid; [|by apply (ds_done _ _ _ Hds)].
    exfalso. apply Hall. rewrite Hlen, Htotal, of_interface_cons, decide_True by done. by rewrite Hid.
Qed.

Lemma distinct_perm l l' : l ≡ₚ l' → distinct l → distinct l'.
Proof. unfold distinct. intros Hp. by rewrite Hp. Qed.

Lemma read_all tags seen ic mb (s : st D) :
  described seen ic mb → distinct (tags.*2 ++ seen) → Forall good_piece (tags.*2 ++ seen) →
  ∃ l mb' s', l ≡ₚ (tags.*2 ++ seen)%list ∧ s_dev s' = s_dev s ∧
    (∃ ic', mfold (λ acc tag,
      '(acc, failed) ← read_backup (str_of_Z timestamp) tag acc;
      match failed with
      | None => mret acc
      | Some e => or_next tag (mret acc) (raise e)
      end) (ic, mb) (map (piece_tag timestamp) tags) s = (Ret (ic', mb'), s') ∧ described l ic' mb').
Proof using Htime.
  revert seen ic mb s. induction tags as [|[key p] tags IH]; intros seen ic mb s Hds Hdist Hgood.
  - exists seen, mb, s. split; [done|]. split; [done|]. exists ic. by split.
  - assert ((tags.*2 ++ p :: seen)%list ≡ₚ (((key, p) :: tags).*2 ++ seen)%list) as Hperm.
    { cbn. by rewrite Permutation_middle. }
    assert (p :: seen ⊆+ (((key, p) :: tags).*2 ++ seen)%list) as Hsub.
    { cbn. apply submseteq_skip, submseteq_inserts_l. done. }
    destruct (read_one key p seen ic mb s) as (ic' & mb' & s' & Hread & Hds' & Hdev).
    + done.
    + unfold distinct in *. cbn in Hdist |- *. apply NoDup_cons in Hdist as [Hp Hd].
      rewrite map_app in Hp, Hd. apply NoDup_cons. split; [|by apply NoDup_app in Hd as (_ & _ & ?)].
      intros Hin. apply Hp, elem_of_app. by right.
    + cbn in Hgood. apply Forall_cons in Hgood as [? [_ ?]%Forall_app]. by constructor.
    + destruct (IH (p :: seen) ic' mb' s') as (l & mb2 & s2 & Hl & Hdev2 & ic2 & Hrun & Hds2).
      * done.
      * by eapply distinct_perm.
      * by rewrite Hperm.
      * exists l, mb2, s2. split; [by rewrite Hl|]. split; [congruence|]. exists ic2. split; [|done].
        cbn [map mfold]. rewrite (bind_Ret _ _ s (ic', mb') s'); [done|].
        by rewrite (bind_Ret _ _ _ _ _ Hread).
Qed.
End Tables.

(** ** The pieces of an instance *)

Section Pieces.
Variable timestamp : Z.

Definition interface_split (x : interface) : list (list string) :=
  split_groups (if_id x) timestamp (map group_prefix (if_groups x)).

Definition pieces_of (x : interface) : list piece :=
  imap (λ i c, Piece (if_id x) i (length (interface_split x)) c) (interface_split x).

Definition chunks_by_id (interfaces : list interface) (id : string) : list (list string) :=
  match list_find (λ x, if_id x = id) interfaces with Some (_, x) => interface_split x | None => [] end.

(** Identifiers and groups as EC2 makes them. *)
Definition ec2_group (g : string) : bool :=
  startswith "sg-" g && negb (startswith "sg-" (group_prefix g)) && all_chars ascii_char g.

Definition ec2_names (x : interface) : Prop :=
  all_chars ascii_char (if_id x) = true ∧ forallb ec2_group (if_groups x) = true.

Lemma chunks_by_id_eq interfaces x :
  NoDup (map if_id interfaces) → x ∈ interfaces → chunks_by_id interfaces (if_id x) = interface_split x.
Proof.
  intros Hn Hx. unfold chunks_by_id. induction interfaces as [|y l IH]; [by apply not_elem_of_nil in Hx|].
  cbn [map] in Hn. apply NoDup_cons in Hn as [Hy Hn]. cbn [list_find]. case_decide as Hid.
  - apply elem_of_cons in Hx as [->|Hx]; [done|]. exfalso. apply Hy. rewrite Hid. by apply list_elem_of_fmap_2.
  - apply elem_of_cons in Hx as [->|Hx]; [done|]. specialize (IH Hn Hx).
    destruct (list_find _ l) as [[]|]; exact IH.
Qed.

Lemma with_prefix_back g : ec2_group g = true → with_prefix (group_prefix g) = g.
Proof.
  unfold ec2_group. intros [[Hg Hn%negb_true_iff]%andb_true_iff _]%andb_true_iff.
  unfold with_prefix. rewrite Hn. unfold group_prefix. rewrite Hg.
  unfold startswith in Hg. apply prefix_app in Hg as [r ->].
  change (String.length ("sg-" +:+ r)) with (3 + String.length r)%nat.
  replace (3 + String.length r - 3)%nat with (String.length r) by lia.
  change ("sg-" +:+ String.substring 0 (String.length r) r = "sg-" +:+ r). by rewrite substring_whole.
Qed.

Lemma restored_split x : ec2_names x → concat (map (map with_prefix) (interface_split x)) = if_groups x.
Proof.
  intros [_ Hg]. rewrite <- concat_map. unfold interface_split. rewrite split_groups_concat, map_map.
  induction (if_groups x) as [|g l IH]; [done|]. cbn [forallb map] in *.
  apply andb_true_iff in Hg as [Hg Hl]. by rewrite with_prefix_back, IH.
Qed.

Lemma pieces_of_In x p :
  p ∈ pieces_of x → pc_id p = if_id x ∧ pc_total p = length (interface_split x) ∧
    interface_split x !! pc_index p = Some (pc_chunk p).
Proof.
  unfold pieces_of. intros Hp. apply list_elem_of_lookup in Hp as [i Hi]. rewrite list_lookup_imap in Hi.
  destruct (interface_split x !! i) as [c|] eqn:E; [|done]. by injection Hi as <-.
Qed.

Lemma split_ascii x c : ec2_names x → c ∈ interface_split x → forallb (all_chars ascii_char) c = true.
Proof.
  intros [_ Hg] Hc. apply forallb_forall. intros sg Hsg.
  assert (In sg (concat (interface_split x))) as Hin.
  { apply in_concat. exists c. split; [by apply list_elem_of_In|done]. }
  unfold interface_split in Hin. rewrite split_groups_concat in Hin.
  apply in_map_iff in Hin as (g & <- & Hin). apply group_prefix_ascii.
  apply (proj1 (forallb_forall _ _) Hg) in Hin. unfold ec2_group in Hin. bool_hyps. done.
Qed.

Lemma pieces_distinct interfaces :
  NoDup (map if_id interfaces) → distinct (concat (map pieces_of interfaces)).
Proof.
  unfold distinct. induction interfaces as [|x l IH]; intros Hn; [constructor|].
  cbn [map] in Hn. apply NoDup_cons in Hn as [Hx Hn]. cbn [map concat]. rewrite map_app.
  apply NoDup_app. split_and!; [| |by apply IH].
  - apply NoDup_alt. intros i j [id n] Hi Hj. unfold pieces_of in Hi, Hj.
    rewrite list_lookup_fmap, list_lookup_imap in Hi, Hj.
    destruct (interface_split x !! i), (interface_split x !! j); try done. cbn in Hi, Hj. congruence.
  - intros [id n] H1 H2. apply list_elem_of_fmap in H1 as (p & [= -> _] & Hp). apply pieces_of_In in Hp as (Hp & _).
    apply list_elem_of_fmap in H2 as (q & [= Hq _] & Hin). apply Hx. rewrite <- Hp, Hq.
    apply list_elem_of_In, in_concat in Hin as (ps & (y & <- & Hy)%in_map_iff & Hin).
    apply list_elem_of_In, pieces_of_In in Hin as (-> & _). apply list_elem_of_In, in_map_iff. by exists y.
Qed.

Lemma pieces_good interfaces :
  NoDup (map if_id interfaces) → Forall ec2_names interfaces →
  Forall (good_piece (chunks_by_id interfaces)) (concat (map pieces_of interfaces)).
Proof.
  intros Hn Hnames. apply Forall_forall. intros p Hp.
  apply list_elem_of_In, in_concat in Hp as (ps & (x & <- & Hx)%in_map_iff & Hp).
  apply list_elem_of_In in Hx, Hp. apply pieces_of_In in Hp as (Hid & Htotal & Hchunk).
  pose proof (proj1 (Forall_forall _ _) Hnames _ Hx) as Hnx.
  unfold good_piece. rewrite Hid, chunks_by_id_eq by done. split_and!; [done..|].
  split; [rewrite Hid; apply Hnx|]. by eapply split_ascii, list_elem_of_lookup_2.
Qed.

Lemma pieces_count interfaces x :
  NoDup (map if_id interfaces) → x ∈ interfaces →
  length (of_interface (if_id x) (concat (map pieces_of interfaces))) = length (interface_split x).
Proof.
  unfold of_interface. induction interfaces as [|y l IH]; intros Hn Hx; [by apply not_elem_of_nil in Hx|].
  cbn [map] in Hn. apply NoDup_cons in Hn as [Hy Hn]. cbn [map concat]. rewrite filter_app, length_app.
  assert (∀ z, Forall (λ p, pc_id p = if_id z) (pieces_of z)) as Hids.
  { intros z. apply Forall_forall. intros p Hp. by apply pieces_of_In in Hp as (-> & _). }
  assert (length (pieces_of y) = length (interface_split y)) as Hlen by apply length_imap.
  apply elem_of_cons in Hx as [->|Hx].
  - rewrite filter_all by apply Hids. rewrite Hlen, filter_none; [cbn; lia|].
    apply Forall_forall. intros p Hp Hid. apply Hy. rewrite <- Hid.
    apply list_elem_of_In, in_concat in Hp as (ps & (z & <- & Hz)%in_map_iff & Hp).
    apply list_elem_of_In, pieces_of_In in Hp as (-> & _). apply list_elem_of_In, in_map_iff. by exists z.
  - rewrite filter_none; [by apply IH|]. eapply Forall_impl; [apply Hids|]. cbn. intros p -> Hid.
    apply Hy. rewrite Hid. by apply list_elem_of_fmap_2.
Qed.
End Pieces.

(** Backups are read back: when the pieces of the groups of some interfaces are in the
    tags, in whatever order the tags are listed, the groups that are read from them are
    those of each interface. *)
Lemma backups_read_back {D} `{Sessions D} timestamp interfaces tags (s : st D) :
  timestamp ≠ 0%Z → NoDup (map if_id interfaces) → Forall ec2_names interfaces →
  tags.*2 ≡ₚ concat (map (pieces_of timestamp) interfaces) →
  ∃ found s', read_backups (str_of_Z timestamp) (map (piece_tag timestamp) tags) s = (Ret found, s') ∧
    s_dev s' = s_dev s ∧ ∀ x, x ∈ interfaces → if_groups x ≠ [] → vdict_get (JStr (if_id x)) found = Some (if_groups x).
Proof.
  intros Ht Hn Hnames Hperm. set (chunks := chunks_by_id timestamp interfaces).
  destruct (read_all chunks timestamp Ht tags [] [] [] s) as (l & mb & s' & Hl & Hdev & ic & Hrun & Hds).
  - apply described_nil.
  - rewrite app_nil_r. eapply distinct_perm; [symmetry; exact Hperm|]. by apply pieces_distinct.
  - rewrite app_nil_r, Hperm. by apply pieces_good.
  - exists mb, s'. split; [unfold read_backups; by rewrite (bind_Ret _ _ _ _ _ Hrun)|]. split; [done|].
    intros x Hx Hne. rewrite (ds_done _ _ _ _ Hds).
    + unfold groups_by, chunks. rewrite chunks_by_id_eq by done. f_equal. apply restored_split.
      by apply (proj1 (Forall_forall _ _) Hnames).
    + unfold chunks. rewrite chunks_by_id_eq by done. intros Hnil. apply Hne.
      rewrite <- (restored_split timestamp x), Hnil by (by apply (proj1 (Forall_forall _ _) Hnames)). done.
    + rewrite app_nil_r in Hl. unfold chunks. rewrite chunks_by_id_eq by done.
      rewrite <- (pieces_count timestamp interfaces x) by done. unfold of_interface. by rewrite Hl, Hperm.
Qed.

(** The keys of the tags that are read back. *)
Lemma matching_keys_eq {D} `{Sessions D} timestamp tags (s : st D) :
  Forall piece_ascii tags.*2 →
  matching_keys (str_of_Z timestamp) (map (piece_tag timestamp) tags) s = (Ret tags.*1, s).
Proof.
  intros Hascii. unfold matching_keys.
  assert (∀ acc, mfold (λ keys tag,
    try_except
      (value ← member "Value" (tg_value tag);
       backup_data ← loads value;
       t ← json_get_or backup_data "t" JNull;
       if decide (json_text t = str_of_Z timestamp) then
         key ← member "Key" (tg_key tag); mret (keys ++ [key])%list
       else mret keys)
      (λ e, match e with ValueError _ | KeyError _ => Some (mret keys) | _ => None end)) acc
    (map (piece_tag timestamp) tags) s = (Ret (acc ++ tags.*1)%list, s)) as Hfold; [|apply (Hfold [])].
  induction tags as [|[key p] tags IH]; intros acc; cbn [map mfold]; [by rewrite app_nil_r|].
  cbn in Hascii. apply Forall_cons in Hascii as [[Hid Hc] Hascii].
  pose proof (json_roundtrip (λ x, x) _ (backup_plain (pc_id p) (pc_chunk p) (pc_index p) (pc_total p) timestamp Hid Hc))
    as Hload.
  rewrite (bind_Ret _ _ s (acc ++ [key])%list s).
  - rewrite IH by done. cbn. by rewrite <- app_assoc.
  - unfold try_except. cbn [piece_tag tg_value tg_key fst snd member].
    rewrite (bind_Ret _ _ s (backup_text (backup_of (pc_id p) (pc_chunk p) (pc_index p) (pc_total p) timestamp)) s) by done.
    rewrite (bind_Ret _ _ s (backup_of (pc_id p) (pc_chunk p) (pc_index p) (pc_total p) timestamp) s)
      by (unfold loads, backup_text; by rewrite Hload).
    rewrite (bind_Ret _ _ s (JInt timestamp) s) by done.
    change (json_text (JInt timestamp)) with (str_of_Z timestamp). by rewrite decide_True.
Qed.

Lemma backup_tag_fits_witness :
  split_groups "eni-1" 1700000000 (map group_prefix ["sg-0a"; "sg-0b"]) !! 0%nat = Some ["0a"; "0b"] ∧
  (py_len (backup_text (backup_of "eni-1" ["0a"; "0b"] 0
     (length (split_groups "eni-1" 1700000000 (map group_prefix ["sg-0a"; "sg-0b"]))) 1700000000)) ≤
   253 + String.length (str_of_Z (Z.of_nat (length (split_groups "eni-1" 1700000000 (map group_prefix ["sg-0a"; "sg-0b"]))))))%nat.
Proof.
  split; [vm_compute; reflexivity|].
  apply (backup_tag_fits "eni-1" 1700000000 ["sg-0a"; "sg-0b"] 0 ["0a"; "0b"]); vm_compute; first [reflexivity|lia].
Defined.
