(* ===== verification/VpcRestoreSpec.v ===== *)
(** * Fencing and unfencing by fence_aws_vpc_net

    Against an account of EC2 that keeps what it is told, taking security groups off the
    interfaces of an instance and restoring them from the tags gives every interface the
    groups it had, and leaves no tag behind. *)

From S2P Require Import Prelude PyStr OptionDefs Effects Fail Host Input Process Login Metadata Action TextFacts.
From S2P Require Import Json JsonSpec Console Globals Http Sessions Ibmz Aws VpcNet VpcSpec.

Local Open Scope string_scope.

(** ** Accounts *)

Lemma endswith_cons c t : t ≠ "" → endswith "*" (String c t) = endswith "*" t.
Proof. destruct t as [|d t]; [done|]. intros _. unfold endswith. cbn. by rewrite Nat.sub_0_r. Qed.

Lemma endswith_app a b : b ≠ "" → endswith "*" (a +:+ b) = endswith "*" b.
Proof.
  intros Hb. induction a as [|c a IH]; [done|]. change (String c a +:+ b) with (String c (a +:+ b)).
  rewrite endswith_cons; [done|]. by destruct a, b.
Qed.

Lemma str_of_nat_digits n : all_digits (str_of_Z (Z.of_nat n)) = true ∧ str_of_Z (Z.of_nat n) ≠ "".
Proof.
  unfold str_of_Z. rewrite (proj2 (Z.ltb_ge _ _)) by lia.
  destruct (nonneg_digits (Z.of_nat n)) as [Hd Hs]; [lia|]. split; [done|].
  destruct Hs as [->|(c & t & -> & _)]; done.
Qed.

(** A number is no star. *)
Lemma endswith_number a n : endswith "*" (a +:+ str_of_Z (Z.of_nat n)) = false.
Proof.
  destruct (str_of_nat_digits n) as [Hd Hne]. rewrite endswith_app by done.
  induction (str_of_Z (Z.of_nat n)) as [|c s IH]; [done|]. apply andb_true_iff in Hd as [Hc Hd].
  destruct s as [|d s]; [|by rewrite endswith_cons; [apply IH|]].
  clear -Hc. by destruct c as [[] [] [] [] [] [] [] []].
Qed.

Lemma map_singles {A B} (f : A → B) l : map f l = concat (map (λ x, [f x]) l).
Proof. induction l as [|x l IH]; [done|]. cbn. by rewrite IH. Qed.

#[export] Instance interface_eq_dec : EqDecision interface.
Proof. solve_decision. Defined.

(** What an instance has: its interfaces, and its tags with their values. *)
Record account := Account { ac_nics : list interface; ac_tags : list (string * string) }.

Definition tag_of (kv : string * string) : ec2_tag := Tag (Some kv.1) (Some kv.2).
Definition nic_answer (x : interface) : ec2_nic := Nic (Some (if_id x)) (Some (map Some (if_groups x))).

(** A filter for keys: a star stands for any text. *)
Definition key_matches (pattern key : string) : bool :=
  if endswith "*" pattern then startswith (drop_last pattern) key else bool_decide (key = pattern).

Definition set_nic (y : interface) (nics : list interface) : list interface :=
  map (λ z, if decide (if_id z = if_id y) then y else z) nics.

(** The documented behaviour of the calls for one instance. *)
Class Ec2Account {D} `{Ec2 D} (instance : string) (view : D → account) : Prop := {
  ea_describe d : ∃ state vpc, describe_instances instance d =
    (inr (Some [Some [Instance_ (Some (Some state)) (Some vpc) (Some (map nic_answer (ac_nics (view d))))]]), d);
  ea_tags pattern d : ∃ l, describe_tags instance pattern d = (inr (Some (map tag_of l)), d) ∧
    l ≡ₚ filter (λ kv, key_matches pattern kv.1 = true) (ac_tags (view d));
  ea_create k v d : ∃ d', create_tag instance k v d = (None, d') ∧ ac_nics (view d') = ac_nics (view d) ∧
    ac_tags (view d') ≡ₚ (k, v) :: filter (λ kv, kv.1 ≠ k) (ac_tags (view d));
  ea_delete ks d : ∃ d', delete_tags instance ks d = (None, d') ∧ ac_nics (view d') = ac_nics (view d) ∧
    ac_tags (view d') ≡ₚ filter (λ kv, kv.1 ∉ ks) (ac_tags (view d));
  ea_modify id groups d : id ∈ map if_id (ac_nics (view d)) →
    ∃ d', modify_network_interface_attribute id groups d = (None, d') ∧
      ac_nics (view d') = set_nic (Interface id groups) (ac_nics (view d)) ∧
      ac_tags (view d') = ac_tags (view d)
}.

Section Account.
Context {D : Type} `{Sessions D, !Ec2 D} {inst : string} {view : D → account} `{!Ec2Account inst view}.
Implicit Types s : st D.

Definition nics s : list interface := ac_nics (view (s_dev s)).
Definition tags s : list (string * string) := ac_tags (view (s_dev s)).

(** ** Reading *)

Lemma read_nic x s : nic_of (nic_answer x) s = (Ret x, s).
Proof.
  unfold nic_of. cbn [nic_answer nic_id nic_groups member].
  rewrite (bind_Ret _ _ s (if_id x) s) by done. rewrite (bind_Ret _ _ s (map Some (if_groups x)) s) by done.
  assert (∀ (l acc : list string), mfold (λ l g, id ← member "GroupId" g; mret (l ++ [id])%list) acc (map Some l) s = (Ret (acc ++ l)%list, s))
    as Hfold.
  { induction l as [|g l IH]; intros acc; cbn [map mfold]; [by rewrite app_nil_r|].
    rewrite (bind_Ret _ _ s (acc ++ [g])%list s) by done. by rewrite IH, <- app_assoc. }
  rewrite (bind_Ret _ _ _ _ _ (Hfold _ [])). by destruct x.
Qed.

Lemma read_nics_eq l s : read_nics (map nic_answer l) s = (Ret l, s).
Proof.
  unfold read_nics.
  assert (∀ acc, mfold (λ interfaces x,
    try_except (i ← nic_of x; mret (interfaces ++ [i])%list)
      (λ e, match e with
            | KeyError _ => Some (log ERROR ("Malformed interface data: " +:+ exn_str e) ;; mret interfaces)
            | _ => None
            end)) acc (map nic_answer l) s = (Ret (acc ++ l)%list, s)) as Hfold; [|apply (Hfold [])].
  induction l as [|x l IH]; intros acc; cbn [map mfold]; [by rewrite app_nil_r|].
  rewrite (bind_Ret _ _ s (acc ++ [x])%list s); [by rewrite IH, <- app_assoc|].
  unfold try_except. by rewrite (bind_Ret _ _ _ _ _ (read_nic x s)).
Qed.

Lemma details_eq s : ∃ state vpc, get_instance_details inst s = (Ret (state, vpc, nics s), s).
Proof.
  destruct (ea_describe (view := view) (s_dev s)) as (state & vpc & Hd). exists state, vpc.
  unfold get_instance_details, except_Exception, try_except, boto_call, mbind, M_bind. rewrite Hd.
  assert (set_dev (s_dev s) s = s) as -> by (by destruct s).
  cbn -[read_nics map]. by rewrite read_nics_eq.
Qed.

Lemma tags_where_eq pattern s : ∃ l, tags_where inst pattern s = (Ret (map tag_of l), s) ∧
  l ≡ₚ filter (λ kv, key_matches pattern kv.1 = true) (tags s).
Proof.
  destruct (ea_tags (view := view) pattern (s_dev s)) as (l & Hd & Hl). exists l. split; [|done].
  unfold tags_where, boto_call, mbind, M_bind. rewrite Hd. by destruct s.
Qed.

(** ** Writing the backups *)

Definition backup_prefix : string := "Original_SG_Backup_" +:+ inst.

Definition piece_key (timestamp : Z) (idx index : nat) : string :=
  "Original_SG_Backup_" +:+ inst +:+ "_" +:+ str_of_Z timestamp +:+ "_" +:+
  str_of_Z (Z.of_nat idx) +:+ "_" +:+ str_of_Z (Z.of_nat index).

Definition piece_kv (timestamp : Z) (kp : string * piece) : string * string :=
  (kp.1, backup_text (backup_of (pc_id kp.2) (pc_chunk kp.2) (pc_index kp.2) (pc_total kp.2) timestamp)).

Lemma create_chunk_eq timestamp idx p s :
  ∃ s', create_chunk inst (pc_id p) timestamp idx (pc_total p) (pc_index p) (pc_chunk p) s = (Ret tt, s') ∧
    nics s' = nics s ∧
    tags s' ≡ₚ piece_kv timestamp (piece_key timestamp idx (pc_index p), p) ::
      filter (λ kv, kv.1 ≠ piece_key timestamp idx (pc_index p)) (tags s).
Proof.
  set (k := piece_key timestamp idx (pc_index p)). set (kv := piece_kv timestamp (k, p)).
  destruct (ea_create (view := view) k kv.2 (s_dev s)) as (d' & Hd & Hnics & Htags).
  set (s1 := set_dev d' s).
  destruct (tags_where_eq k s1) as (l & Hl & Hperm).
  assert (key_matches k k = true ∧ ∀ k', key_matches k k' = bool_decide (k' = k)) as [Hkk Hk].
  { assert (endswith "*" k = false) as Hend.
    { unfold k, piece_key. rewrite !str_app_assoc. apply endswith_number. }
    unfold key_matches. rewrite Hend. split; [by apply bool_decide_true|done]. }
  assert (l = [kv]) as ->.
  { apply Permutation_singleton_r. rewrite Hperm. change (tags s1) with (ac_tags (view d')). rewrite Htags.
    rewrite filter_cons, decide_True by done. rewrite filter_none; [done|].
    apply Forall_forall. intros x Hx Hm. apply list_elem_of_filter in Hx as [Hx _]. rewrite Hk in Hm.
    by apply bool_decide_eq_true in Hm. }
  eexists. split; [|split].
  - unfold create_chunk. fold (piece_key timestamp idx (pc_index p)). fold k.
    unfold mbind at 1, M_bind at 1. unfold boto_do at 1. change (backup_text _) with kv.2. rewrite Hd. fold s1.
    rewrite (bind_Ret _ _ _ _ _ Hl). cbn [map tag_of tg_value member fst snd].
    rewrite (bind_Ret _ _ s1 kv.2 s1) by done. rewrite bool_decide_true by done. reflexivity.
  - exact Hnics.
  - exact Htags.
Qed.

(** [m] writes the tags [l], whose keys are new, and changes nothing else. *)
Definition writes (m : M D unit) (l : list (string * string)) : Prop :=
  ∀ s, NoDup l.*1 → (∀ k, k ∈ l.*1 → k ∉ (tags s).*1) →
  ∃ s', m s = (Ret tt, s') ∧ nics s' = nics s ∧ tags s' ≡ₚ (l ++ tags s)%list.

Lemma writes_nothing m : (∀ s, ∃ s', m s = (Ret tt, s') ∧ s_dev s' = s_dev s) → writes m [].
Proof.
  intros Hm s _ _. destruct (Hm s) as (s' & Hrun & Hdev). exists s'. unfold nics, tags. by rewrite Hdev.
Qed.

Lemma writes_bind m m' l l' : writes m l → writes m' l' → writes (m ;; m') (l ++ l').
Proof.
  intros Hm Hm' s Hn Hnew. rewrite fmap_app in Hn, Hnew. apply NoDup_app in Hn as (Hl & Hdis & Hl').
  destruct (Hm s) as (s1 & Hrun & Hnics & Htags); [done|intros k Hk; apply Hnew, elem_of_app; by left|].
  destruct (Hm' s1) as (s2 & Hrun2 & Hnics2 & Htags2); [done| |].
  - intros k Hk. rewrite Htags, fmap_app, elem_of_app. intros [Hin|Hin]; [by apply (Hdis k)|].
    by apply (Hnew k); [apply elem_of_app; right|].
  - exists s2. split_and!; [by rewrite (bind_Ret _ _ _ _ _ Hrun)|congruence|].
    rewrite Htags2, Htags, !app_assoc. by rewrite (Permutation_app_comm l' l).
Qed.

Lemma writes_mfor {A} (l : list A) f g : (∀ x, x ∈ l → writes (f x) (g x)) → writes (mfor l f) (concat (map g l)).
Proof.
  induction l as [|x l IH]; intros Hf; [apply writes_nothing; intros s; by exists s|].
  apply writes_bind; [apply Hf; by left|]. apply IH. intros y Hy. apply Hf. by right.
Qed.

Lemma writes_piece timestamp idx p :
  writes (create_chunk inst (pc_id p) timestamp idx (pc_total p) (pc_index p) (pc_chunk p))
    [piece_kv timestamp (piece_key timestamp idx (pc_index p), p)].
Proof.
  intros s _ Hnew. destruct (create_chunk_eq timestamp idx p s) as (s' & Hrun & Hnics & Htags).
  exists s'. split_and!; [done..|]. rewrite Htags, filter_all; [done|].
  apply Forall_forall. intros kv Hkv Hk. eapply Hnew; [by left|]. cbn. rewrite <- Hk. by apply list_elem_of_fmap_2.
Qed.

Lemma chunks_of_eq id timestamp l s :
  ∃ s', chunks_of id timestamp l s = (Ret (split_groups id timestamp l), s') ∧ s_dev s' = s_dev s.
Proof.
  unfold chunks_of, split_groups.
  assert (∀ acc s, ∃ s', mfold (λ acc sg,
    mwhen (unusual id timestamp acc sg) (log WARNING ("Security group ID " +:+ sg +:+ " is unusually long")) ;;
    mret (add_group id timestamp acc sg)) acc l s = (Ret (foldl (add_group id timestamp) acc l), s') ∧ s_dev s' = s_dev s)
    as Hfold.
  { induction l as [|sg l IH]; intros acc s0; [by exists s0|]. cbn [mfold foldl].
    destruct (unusual _ _ _ _); cbn [mwhen].
    - edestruct IH as (s' & Hrun & Hdev). exists s'. split; [exact Hrun|exact Hdev].
    - apply IH. }
  destruct (Hfold ([], []) s) as (s' & Hrun & Hdev). exists s'. split; [|done].
  by rewrite (bind_Ret _ _ _ _ _ Hrun).
Qed.

Definition numbered (timestamp : Z) (ix : nat * interface) : list (string * piece) :=
  map (λ p, (piece_key timestamp ix.1 (pc_index p), p)) (pieces_of timestamp ix.2).

Lemma pieces_of_zip timestamp x :
  pieces_of timestamp x =
    map (λ ic, Piece (if_id x) ic.1 (length (interface_split timestamp x)) ic.2)
      (zip (seq 0 (length (interface_split timestamp x))) (interface_split timestamp x)).
Proof.
  apply list_eq. intros i. unfold pieces_of. rewrite list_lookup_imap, list_lookup_fmap, lookup_zip_with.
  destruct (interface_split timestamp x !! i) as [c|] eqn:E; cbn.
  - rewrite lookup_seq_lt by (by eapply lookup_lt_Some). done.
  - by destruct (seq _ _ !! i).
Qed.

Lemma writes_interface timestamp idx x :
  writes (backup_interface inst timestamp idx x) (map (piece_kv timestamp) (numbered timestamp (idx, x))).
Proof.
  intros s Hn Hnew. unfold backup_interface.
  destruct (chunks_of_eq (if_id x) timestamp (map group_prefix (if_groups x)) s) as (s1 & Hrun & Hdev).
  fold (interface_split timestamp x) in Hrun.
  assert (writes (mfor (zip (seq 0 (length (interface_split timestamp x))) (interface_split timestamp x))
    (λ '(chunk_idx, sg_chunk), create_chunk inst (if_id x) timestamp idx (length (interface_split timestamp x)) chunk_idx sg_chunk))
    (map (piece_kv timestamp) (numbered timestamp (idx, x)))) as Hw.
  { unfold numbered. cbn [fst snd]. rewrite pieces_of_zip, !map_map.
    rewrite map_singles. apply writes_mfor. intros [i c] _.
    apply (writes_piece timestamp idx (Piece (if_id x) i (length (interface_split timestamp x)) c)). }
  destruct (Hw s1) as (s2 & Hrun2 & Hnics & Htags); [done|unfold tags; by rewrite Hdev|].
  exists s2. split_and!; [by rewrite (bind_Ret _ _ _ _ _ Hrun)|by unfold nics in *; rewrite Hnics, Hdev|].
  unfold tags in *. by rewrite Htags, Hdev.
Qed.

Definition instance_pieces (timestamp : Z) (interfaces : list interface) : list (string * piece) :=
  concat (map (numbered timestamp) (zip (seq 1 (length interfaces)) interfaces)).

Lemma instance_pieces_snd timestamp interfaces :
  (instance_pieces timestamp interfaces).*2 = concat (map (pieces_of timestamp) interfaces).
Proof.
  unfold instance_pieces. generalize 1%nat. induction interfaces as [|x l IH]; intros k; [done|].
  cbn [length seq zip zip_with map concat]. rewrite fmap_app, IH. f_equal.
  unfold numbered. cbn [fst snd]. induction (pieces_of timestamp x) as [|p ps IHp]; [done|]. cbn. by rewrite IHp.
Qed.

Lemma piece_key_inj timestamp i j i' j' :
  piece_key timestamp i j = piece_key timestamp i' j' → (i, j) = (i', j').
Proof.
  unfold piece_key. rewrite !str_app_assoc. intros Hk.
  assert (∀ a b c, a +:+ b = a +:+ c → b = c) as Hinj.
  { induction a as [|d a IH]; [done|]. intros b c [= ?]. by apply IH. }
  rewrite <- !str_app_assoc in Hk. repeat apply Hinj in Hk.
  assert (∀ n m, digits_of (str_of_Z (Z.of_nat n) +:+ "_" +:+ str_of_Z (Z.of_nat m)) =
    (str_of_Z (Z.of_nat n), "_" +:+ str_of_Z (Z.of_nat m))) as Hdigits.
  { intros n m. apply digits_of_all; [apply str_of_nat_digits|done]. }
  apply (f_equal digits_of) in Hk. rewrite !Hdigits in Hk. injection Hk as Hi Hj.
  apply str_of_Z_inj in Hi, Hj. f_equal; lia.
Qed.

Lemma instance_keys_distinct timestamp interfaces : NoDup (instance_pieces timestamp interfaces).*1.
Proof.
  unfold instance_pieces.
  assert (∀ k, NoDup (concat (map (numbered timestamp) (zip (seq k (length interfaces)) interfaces))).*1 ∧
    ∀ key, key ∈ (concat (map (numbered timestamp) (zip (seq k (length interfaces)) interfaces))).*1 →
      ∃ i j, (k ≤ i)%nat ∧ key = piece_key timestamp i j) as Hkeys; [|apply Hkeys].
  induction interfaces as [|x l IH]; intros k; [split; [constructor|by intros key ?%not_elem_of_nil]|].
  cbn [length seq zip zip_with map concat]. rewrite fmap_app. destruct (IH (S k)) as [Hn Hk].
  assert (∀ key, key ∈ (numbered timestamp (k, x)).*1 → ∃ j, key = piece_key timestamp k j) as Hx.
  { intros key Hkey. apply list_elem_of_fmap in Hkey as (kp & -> & Hin). unfold numbered in Hin.
    apply list_elem_of_fmap in Hin as (p & -> & _). by eexists. }
  split.
  - apply NoDup_app. split_and!; [| |done].
    + apply NoDup_alt. intros i j key Hi Hj. unfold numbered, pieces_of in Hi, Hj. cbn [fst snd] in Hi, Hj.
      rewrite !list_lookup_fmap, list_lookup_imap in Hi, Hj.
      destruct (interface_split timestamp x !! i), (interface_split timestamp x !! j); try done.
      assert (piece_key timestamp k i = piece_key timestamp k j) as Hij by (cbn -[piece_key] in Hi, Hj; congruence).
      by apply piece_key_inj in Hij as [= ->].
    + intros key Hkey Hin. destruct (Hx key Hkey) as (j & ->). destruct (Hk _ Hin) as (i' & j' & Hle & Heq).
      apply piece_key_inj in Heq as [= <- _]. lia.
  - intros key [Hkey|Hkey]%elem_of_app.
    + destruct (Hx key Hkey) as (j & ->). by exists k, j.
    + destruct (Hk _ Hkey) as (i & j & Hle & ->). exists i, j. split; [lia|done].
Qed.

(** No tag looks like a backup. *)
Definition no_backups (l : list (string * string)) : Prop :=
  Forall (λ kv, key_matches (backup_keys inst) kv.1 = false) l.

Lemma drop_last_star a : drop_last (a +:+ "*") = a.
Proof.
  induction a as [|c a IH]; [done|]. change (String c a +:+ "*") with (String c (a +:+ "*")).
  cbn [drop_last]. rewrite IH. by destruct a.
Qed.

Lemma key_matches_backup k : key_matches (backup_keys inst) k = startswith backup_prefix k.
Proof.
  unfold key_matches, backup_keys. rewrite str_app_assoc, endswith_app by done.
  change (endswith "*" "*") with true. cbv iota. by rewrite drop_last_star.
Qed.

Lemma piece_key_backup timestamp i j : key_matches (backup_keys inst) (piece_key timestamp i j) = true.
Proof.
  rewrite key_matches_backup. unfold piece_key, backup_prefix. rewrite str_app_assoc. apply prefix_of_app.
Qed.

Lemma numbered_key timestamp interfaces kp :
  kp ∈ instance_pieces timestamp interfaces → key_matches (backup_keys inst) kp.1 = true.
Proof.
  intros Hin. unfold instance_pieces in Hin.
  apply list_elem_of_In, in_concat in Hin as (l & (ix & <- & _)%in_map_iff & Hin).
  apply in_map_iff in Hin as (p & <- & _). apply piece_key_backup.
Qed.

Lemma create_backup_eq timestamp interfaces s :
  no_backups (tags s) →
  ∃ s', create_backup_tag inst interfaces timestamp s = (Ret tt, s') ∧ nics s' = nics s ∧
    tags s' ≡ₚ (map (piece_kv timestamp) (instance_pieces timestamp interfaces) ++ tags s)%list.
Proof.
  intros Hno.
  assert (writes (mfor (zip (seq 1 (length interfaces)) interfaces)
    (λ '(idx, x), backup_interface inst timestamp idx x))
    (map (piece_kv timestamp) (instance_pieces timestamp interfaces))) as Hw.
  { unfold instance_pieces. rewrite concat_map, map_map. apply writes_mfor. intros [idx x] _. apply writes_interface. }
  assert ((map (piece_kv timestamp) (instance_pieces timestamp interfaces)).*1 = (instance_pieces timestamp interfaces).*1) as Hkeys.
  { change (λ x, x.1) with (@fst string string). unfold fmap, list_fmap. apply map_map. }
  destruct (Hw s) as (s' & Hrun & Hnics & Htags).
  - rewrite Hkeys. apply instance_keys_distinct.
  - intros k Hk Hin. rewrite Hkeys in Hk. apply list_elem_of_fmap in Hk as (kp & -> & Hk).
    apply numbered_key in Hk. apply list_elem_of_fmap in Hin as (kv & Heq & Hin).
    apply (proj1 (Forall_forall _ _) Hno) in Hin. congruence.
  - exists s'. split_and!; [|done|done]. unfold create_backup_tag, logged, except_Exception, try_except. by rewrite Hrun.
Qed.

Lemma set_lastfence_eq timestamp s :
  ∃ s', set_lastfence_tag inst timestamp s = (Ret tt, s') ∧ nics s' = nics s ∧
    tags s' ≡ₚ ("lastfence", str_of_Z timestamp) :: filter (λ kv, kv.1 ≠ "lastfence") (tags s).
Proof.
  destruct (ea_create (view := view) "lastfence" (str_of_Z timestamp) (s_dev s)) as (d' & Hd & Hnics & Htags).
  eexists. split.
  - unfold set_lastfence_tag, except_Exception, try_except, mbind, M_bind, boto_do. rewrite Hd. reflexivity.
  - split; [exact Hnics|exact Htags].
Qed.

(** ** Changing the groups *)

Lemma set_nic_middle y x a b :
  NoDup (map if_id (a ++ x :: b)) → if_id y = if_id x → set_nic y (a ++ x :: b) = (a ++ y :: b)%list.
Proof.
  intros Hn Hid. unfold set_nic. rewrite map_app in Hn |- *. cbn [map] in Hn |- *. rewrite decide_True by done.
  assert (∀ l, if_id x ∉ map if_id l → map (λ z, if decide (if_id z = if_id y) then y else z) l = l) as Hsame.
  { induction l as [|z l IH]; intros Hx; [done|]. cbn [map] in Hx |- *. apply not_elem_of_cons in Hx as [Hz Hl].
    rewrite decide_False by congruence. by rewrite IH. }
  apply NoDup_app in Hn as (_ & Hdis & Hb). apply NoDup_cons in Hb as [Hxb _].
  rewrite !Hsame; [done|done|]. intros Hxa. by apply (Hdis _ Hxa); left.
Qed.

Definition changes (g : interface → interface) (x : interface) : bool := negb (bool_decide (g x = x)).

(** A loop over the interfaces that gives each of them what [g] says. *)
Definition sets (l : list interface) (f : bool → interface → M D bool) (g : interface → interface) : Prop :=
  ∀ b x s, x ∈ l → x ∈ nics s → NoDup (map if_id (nics s)) →
  ∃ s', f b x s = (Ret (b || changes g x), s') ∧ nics s' = set_nic (g x) (nics s) ∧ tags s' = tags s.

Lemma sets_all f g l s :
  (∀ x, if_id (g x) = if_id x) → sets l f g → NoDup (map if_id l) → nics s = l →
  ∃ s', mfold f false l s = (Ret (existsb (changes g) l), s') ∧ nics s' = map g l ∧ tags s' = tags s.
Proof.
  intros Hid Hsets.
  assert (∀ pre rest b s0, (∀ x, x ∈ rest → x ∈ l) → NoDup (map if_id (pre ++ rest)) → nics s0 = (map g pre ++ rest)%list →
    ∃ s', mfold f b rest s0 = (Ret (b || existsb (changes g) rest), s') ∧ nics s' = map g (pre ++ rest) ∧ tags s' = tags s0)
    as Hloop.
  { intros pre rest. revert pre. induction rest as [|x rest IH]; intros pre b s0 Hl Hn Hnics.
    - exists s0. cbn [mfold existsb]. rewrite orb_false_r. split_and!; [done| |done]. rewrite Hnics. by rewrite !app_nil_r.
    - assert (map if_id (map g pre ++ x :: rest) = map if_id (pre ++ x :: rest)) as Hids.
      { rewrite !map_app, map_map. f_equal. apply map_ext. apply Hid. }
      destruct (Hsets b x s0) as (s1 & Hrun & Hnics1 & Htags1).
      + apply Hl. by left.
      + rewrite Hnics. apply elem_of_app. right. by left.
      + by rewrite Hnics, Hids.
      + destruct (IH (pre ++ [x])%list (b || changes g x) s1) as (s2 & Hrun2 & Hnics2 & Htags2).
        * intros y Hy. apply Hl. by right.
        * by rewrite <- app_assoc.
        * rewrite Hnics1, Hnics, set_nic_middle by (done || by rewrite Hids). rewrite map_app, <- app_assoc. done.
        * exists s2. cbn [mfold existsb]. rewrite (bind_Ret _ _ _ _ _ Hrun), Hrun2, orb_assoc. rewrite <- app_assoc in Hnics2.
          split_and!; [done|done|congruence]. }
  intros Hn Hnics. by apply (Hloop [] l false s).
Qed.

Lemma set_nic_self x l : NoDup (map if_id l) → x ∈ l → set_nic x l = l.
Proof. intros Hn (a & b & ->)%list_elem_of_split. by apply set_nic_middle. Qed.

(** The call that changes the groups of an interface. *)
Lemma modify_nic x groups s :
  x ∈ nics s → ∃ d', modify_network_interface_attribute (if_id x) groups (s_dev s) = (None, d') ∧
    ac_nics (view d') = set_nic (Interface (if_id x) groups) (nics s) ∧ ac_tags (view d') = tags s.
Proof. intros Hx. apply ea_modify. by apply list_elem_of_fmap_2. Qed.

Lemma modify_run m h x groups s :
  x ∈ nics s →
  ∃ s', (log INFO m ;; try_except (boto_do (modify_network_interface_attribute (if_id x) groups) ;; mret true) h) s =
    (Ret true, s') ∧ nics s' = set_nic (Interface (if_id x) groups) (nics s) ∧ tags s' = tags s.
Proof.
  intros Hx. destruct (modify_nic x groups s Hx) as (d' & Hd & Hnics & Htags). eexists. split.
  - unfold mbind, M_bind, log, modify, try_except, boto_do. cbn [s_dev add_event]. rewrite Hd. reflexivity.
  - split; [exact Hnics|exact Htags].
Qed.

(** What fencing makes of an interface. *)
Definition fenced_nic (keep_only : bool) (sg_list : list string) (x : interface) : interface :=
  let groups := updated_groups keep_only sg_list (if_groups x) in
  if negb keep_only && bool_decide (groups = []) then x else Interface (if_id x) groups.

Lemma fenced_nic_id keep_only sg_list x : if_id (fenced_nic keep_only sg_list x) = if_id x.
Proof. unfold fenced_nic. by destruct (_ && _). Qed.

Lemma modify_sets keep_only sg_list l : sets l (modify_interface keep_only sg_list) (fenced_nic keep_only sg_list).
Proof.
  intros b x s _ Hx Hn. unfold modify_interface, changes, fenced_nic.
  set (groups := updated_groups keep_only sg_list (if_groups x)).
  destruct (negb keep_only && bool_decide (groups = [])).
  { eexists. rewrite bool_decide_true, orb_false_r by done. split; [reflexivity|]. by rewrite set_nic_self. }
  case_decide as Hg.
  { assert (Interface (if_id x) groups = x) as -> by (destruct x; cbn in *; by rewrite Hg).
    eexists. rewrite bool_decide_true, orb_false_r by done. split; [reflexivity|]. by rewrite set_nic_self. }
  rewrite bool_decide_false, orb_true_r by (destruct x; cbn in *; congruence). by apply modify_run.
Qed.

(** ** Fencing *)

(** The tags after fencing. *)
Definition fenced_tags (timestamp : Z) (interfaces : list interface) (l : list (string * string)) : list (string * string) :=
  ("lastfence", str_of_Z timestamp) ::
  map (piece_kv timestamp) (instance_pieces timestamp interfaces) ++ filter (λ kv, kv.1 ≠ "lastfence") l.

Lemma backup_not_lastfence : key_matches (backup_keys inst) "lastfence" = false.
Proof. by rewrite key_matches_backup. Qed.

Lemma write_tags_eq timestamp interfaces s :
  no_backups (tags s) →
  ∃ s', unless_ignored "create backup"
      (create_backup_tag inst interfaces timestamp ;;
       unless_ignored "set lastfence" (set_lastfence_tag inst timestamp)) s = (Ret tt, s') ∧
    nics s' = nics s ∧ tags s' ≡ₚ fenced_tags timestamp interfaces (tags s).
Proof.
  intros Hno. destruct (create_backup_eq timestamp interfaces s Hno) as (s1 & Hrun1 & Hnics1 & Htags1).
  destruct (set_lastfence_eq timestamp s1) as (s2 & Hrun2 & Hnics2 & Htags2).
  exists s2. split_and!; [|congruence|].
  - unfold unless_ignored, except_Exception, try_except, mbind, M_bind. by rewrite Hrun1, Hrun2.
  - rewrite Htags2, Htags1. unfold fenced_tags. rewrite filter_app. do 2 f_equiv.
    rewrite filter_all; [done|]. apply Forall_forall. intros kv Hkv Hk.
    apply list_elem_of_fmap in Hkv as (kp & -> & Hkp). apply numbered_key in Hkp.
    cbn in Hk. rewrite Hk, backup_not_lastfence in Hkp. done.
Qed.

Lemma fence_eq timestamp sg_list keep_only s :
  no_backups (tags s) → NoDup (map if_id (nics s)) → existsb (changes (fenced_nic keep_only sg_list)) (nics s) = true →
  ∃ s', modify_security_groups inst sg_list timestamp keep_only false s = (Ret tt, s') ∧
    nics s' = map (fenced_nic keep_only sg_list) (nics s) ∧ tags s' ≡ₚ fenced_tags timestamp (nics s) (tags s).
Proof.
  intros Hno Hn Hsome. destruct (details_eq s) as (state & vpc & Hdetails).
  destruct (write_tags_eq timestamp (nics s) s Hno) as (s1 & Hrun1 & Hnics1 & Htags1).
  destruct (sets_all _ _ (nics s) s1 (fenced_nic_id keep_only sg_list) (modify_sets keep_only sg_list (nics s)) Hn Hnics1)
    as (s2 & Hrun2 & Hnics2 & Htags2).
  eexists. split.
  - unfold modify_security_groups, logged, except_Exception, try_except.
    rewrite (bind_Ret _ _ _ _ _ Hdetails). cbv beta iota. rewrite (bind_Ret _ _ _ _ _ Hrun1).
    rewrite (bind_Ret _ _ _ _ _ Hrun2), Hsome. cbn [negb mwhen]. rewrite (bind_Ret _ _ s2 tt s2) by done.
    rewrite sleep_eq by done. reflexivity.
  - split; [exact Hnics2|]. change (tags s2 ≡ₚ fenced_tags timestamp (nics s) (tags s)). by rewrite Htags2.
Qed.

(** ** Restoring *)

Definition restored_nic (found : found_groups) (x : interface) : interface :=
  match vdict_get (JStr (if_id x)) found with Some groups => Interface (if_id x) groups | None => x end.

Lemma restored_nic_id found x : if_id (restored_nic found x) = if_id x.
Proof. unfold restored_nic. by destruct (vdict_get _ _). Qed.

Lemma restore_sets found l : sets l (restore_interface found) (restored_nic found).
Proof.
  intros b x s _ Hx Hn. unfold restore_interface, changes, restored_nic.
  destruct (vdict_get (JStr (if_id x)) found) as [groups|].
  - case_decide as Hg.
    + assert (Interface (if_id x) groups = x) as -> by (destruct x; cbn in *; by rewrite Hg).
      eexists. rewrite bool_decide_true, orb_false_r by done. split; [reflexivity|]. by rewrite set_nic_self.
    + rewrite bool_decide_false, orb_true_r by (destruct x; cbn in *; congruence). by apply modify_run.
  - eexists. rewrite bool_decide_true, orb_false_r by done. split; [reflexivity|]. by rewrite set_nic_self.
Qed.

(** The tags that restoring reads and deletes. *)
Lemma read_tags_eq timestamp interfaces l s :
  no_backups l → tags s ≡ₚ fenced_tags timestamp interfaces l →
  tags_where inst "lastfence" s = (Ret [Tag (Some "lastfence") (Some (str_of_Z timestamp))], s) ∧
  ∃ kps, kps ≡ₚ instance_pieces timestamp interfaces ∧
    tags_where inst (backup_keys inst) s = (Ret (map (piece_tag timestamp) kps), s).
Proof.
  intros Hno Htags. split.
  - destruct (tags_where_eq "lastfence" s) as (lf & Hlf & Hperm). rewrite Hlf.
    assert (lf = [("lastfence", str_of_Z timestamp)]) as ->; [|done].
    apply Permutation_singleton_r. rewrite Hperm, Htags. unfold fenced_tags.
    rewrite filter_cons, decide_True by done. rewrite filter_none; [done|].
    apply Forall_forall. intros kv [Hkv|Hkv]%elem_of_app Hm; cbn in Hm; apply bool_decide_eq_true in Hm.
    + apply list_elem_of_fmap in Hkv as (kp & -> & Hkp). apply numbered_key in Hkp. cbn in Hm.
      by rewrite Hm, backup_not_lastfence in Hkp.
    + by apply list_elem_of_filter in Hkv as [? _].
  - destruct (tags_where_eq (backup_keys inst) s) as (lb & Hlb & Hperm).
    assert (lb ≡ₚ map (piece_kv timestamp) (instance_pieces timestamp interfaces)) as Hlb'.
    { rewrite Hperm, Htags. unfold fenced_tags. rewrite filter_cons, decide_False by (cbn [fst]; by rewrite backup_not_lastfence).
      rewrite filter_app, filter_all, filter_none; [by rewrite app_nil_r| |].
      - apply Forall_forall. intros kv [_ Hkv]%list_elem_of_filter.
        apply (proj1 (Forall_forall _ _) Hno) in Hkv. by rewrite Hkv.
      - apply Forall_forall. intros kv Hkv. apply list_elem_of_fmap in Hkv as (kp & -> & Hkp).
        by apply numbered_key in Hkp. }
    apply Permutation_map_inv in Hlb' as (kps & -> & Hkps). exists kps. split; [by symmetry|].
    rewrite Hlb, map_map. done.
Qed.

Lemma pieces_ascii_all timestamp interfaces :
  NoDup (map if_id interfaces) → Forall ec2_names interfaces →
  Forall piece_ascii (instance_pieces timestamp interfaces).*2.
Proof.
  intros Hn Hnames. rewrite instance_pieces_snd. eapply Forall_impl; [by apply (pieces_good timestamp)|].
  by intros p (_ & _ & ?).
Qed.

(** The tags that are deleted in the end. *)
Lemma delete_eq timestamp interfaces l kps s :
  no_backups l → tags s ≡ₚ fenced_tags timestamp interfaces l → kps ≡ₚ instance_pieces timestamp interfaces →
  ∃ d', delete_tags inst ("lastfence" :: kps.*1) (s_dev s) = (None, d') ∧ ac_nics (view d') = nics s ∧
    ac_tags (view d') ≡ₚ filter (λ kv, kv.1 ≠ "lastfence") l.
Proof.
  intros Hno Htags Hkps.
  destruct (ea_delete (view := view) ("lastfence" :: kps.*1) (s_dev s)) as (d' & Hd & Hnics & Hperm).
  exists d'. split_and!; [done|done|]. rewrite Hperm. change (ac_tags (view (s_dev s))) with (tags s). rewrite Htags.
  unfold fenced_tags. rewrite filter_cons, decide_False by (intros Hin; apply Hin; by left).
  rewrite filter_app, filter_none, app_nil_l.
  - rewrite filter_all; [done|]. apply Forall_forall. intros kv [Hlf Hkv]%list_elem_of_filter.
    apply (proj1 (Forall_forall _ _) Hno) in Hkv. intros [Hin|Hin]%elem_of_cons; [done|].
    apply list_elem_of_fmap in Hin as (kp & Heq & Hkp). rewrite Hkps in Hkp. apply numbered_key in Hkp. congruence.
  - apply Forall_forall. intros kv Hkv Hn. apply Hn, elem_of_cons. right.
    apply list_elem_of_fmap in Hkv as (kp & -> & Hkp). apply list_elem_of_fmap. exists kp. by rewrite Hkps.
Qed.

(** What the tags are found to say of the interfaces. *)
Definition found_all (found : found_groups) (interfaces : list interface) : Prop :=
  ∀ x, x ∈ interfaces → vdict_get (JStr (if_id x)) found = Some (if_groups x).

Section Found.
Variables (keep_only : bool) (sg_list : list string) (interfaces : list interface) (found : found_groups).
Hypothesis Hfound : found_all found interfaces.

Lemma restored_back : map (restored_nic found) (map (fenced_nic keep_only sg_list) interfaces) = interfaces.
Proof using Hfound.
  rewrite map_map. rewrite <- (map_id interfaces) at 2. apply map_ext_in. intros x Hx%list_elem_of_In.
  unfold restored_nic. rewrite fenced_nic_id, Hfound by done. by destruct x.
Qed.

Lemma restored_changes :
  existsb (changes (fenced_nic keep_only sg_list)) interfaces = true →
  existsb (changes (restored_nic found)) (map (fenced_nic keep_only sg_list) interfaces) = true.
Proof using Hfound.
  intros (x & Hx & Hc)%existsb_exists. apply existsb_exists. exists (fenced_nic keep_only sg_list x).
  split; [by apply in_map|]. unfold changes in *. apply negb_true_iff, bool_decide_eq_false in Hc.
  apply negb_true_iff, bool_decide_eq_false. unfold restored_nic. apply list_elem_of_In in Hx.
  rewrite fenced_nic_id, Hfound by done. intros Heq. apply Hc. rewrite <- Heq. by destruct x.
Qed.

Lemma found_nonempty : interfaces ≠ [] → length found ≠ 0%nat.
Proof using Hfound.
  destruct interfaces as [|x l]; [done|]. intros _ Hlen. specialize (Hfound x ltac:(by left)).
  by destruct found.
Qed.
End Found.

(** The last part, once the tags are read. *)
Lemma restore_tail timestamp interfaces l kps found s :
  Forall piece_ascii kps.*2 → kps ≠ [] → no_backups l → kps ≡ₚ instance_pieces timestamp interfaces →
  tags s ≡ₚ fenced_tags timestamp interfaces l →
  NoDup (map if_id (nics s)) → existsb (changes (restored_nic found)) (nics s) = true →
  ∃ s', ('(_, _, current_interfaces) ← get_instance_details inst;
     changed_any ← mfold (restore_interface found) false current_interfaces;
     mwhen (negb changed_any)
       (log ERROR "No security groups were restored. All interfaces skipped." ;; sys_exit EC_GENERIC_ERROR) ;;
     sleep 5 ;;
     try_except
       (keys ← matching_keys (str_of_Z timestamp) (map (piece_tag timestamp) kps);
        mwhen (negb (bool_decide (keys = [])))
          (boto_do (delete_tags inst ("lastfence" :: keys)) ;;
           log INFO ("Removed matching backup tags " +:+ strs keys +:+ " and lastfence tag from instance " +:+ inst)))
       (λ e, if of_class "ClientError" e
             then Some (log WARNING ("Failed to remove tags: " +:+ exn_str e)) else None)) s = (Ret tt, s') ∧
    nics s' = map (restored_nic found) (nics s) ∧ tags s' ≡ₚ filter (λ kv, kv.1 ≠ "lastfence") l.
Proof.
  intros Hascii Hne Hno Hkps Htags Hn Hchanged. destruct (details_eq s) as (state & vpc & Hdetails).
  destruct (sets_all _ _ (nics s) s (restored_nic_id found) (restore_sets found (nics s)) Hn eq_refl)
    as (s2 & Hrun2 & Hnics2 & Htags2).
  set (s3 := set_clock (s_clock s2 + 5 * USEC)%Z (add_event (EvSleep (5 * USEC)) s2)).
  destruct (delete_eq timestamp interfaces l kps s3) as (d' & Hd & Hnics3 & Htags3); [done| |done|].
  { change (tags s3) with (tags s2). by rewrite Htags2. }
  eexists. split; [|split].
  - rewrite (bind_Ret _ _ _ _ _ Hdetails). cbv beta iota. rewrite (bind_Ret _ _ _ _ _ Hrun2), Hchanged.
    cbn [negb mwhen]. rewrite (bind_Ret _ _ s2 tt s2) by done. rewrite (bind_Ret _ _ _ _ _ (sleep_eq 5 s2 ltac:(done))).
    unfold try_except. rewrite (bind_Ret _ _ _ _ _ (matching_keys_eq timestamp kps s3 Hascii)).
    rewrite bool_decide_false by (by destruct kps). cbn [negb mwhen].
    unfold mbind, M_bind, boto_do. fold s3. rewrite Hd. reflexivity.
  - change (ac_nics (view d') = map (restored_nic found) (nics s)). by rewrite Hnics3.
  - exact Htags3.
Qed.

Lemma pieces_nonempty timestamp interfaces :
  interfaces ≠ [] → Forall (λ x, if_groups x ≠ []) interfaces → instance_pieces timestamp interfaces ≠ [].
Proof.
  intros Hne Hg Hnil. destruct interfaces as [|x l]; [done|]. apply Forall_cons in Hg as [Hx _].
  pose proof (instance_pieces_snd timestamp (x :: l)) as Hs. rewrite Hnil in Hs. cbn in Hs.
  symmetry in Hs. apply app_eq_nil in Hs as [Hs _].
  assert (interface_split timestamp x = []) as Hsplit.
  { apply length_zero_iff_nil. rewrite <- (length_imap (λ i c, Piece (if_id x) i (length (interface_split timestamp x)) c)).
    by fold (pieces_of timestamp x); rewrite Hs. }
  pose proof (split_groups_concat (if_id x) timestamp (map group_prefix (if_groups x))) as Hc.
  unfold interface_split in Hsplit. rewrite Hsplit in Hc. by destruct (if_groups x).
Qed.

Lemma restore_eq timestamp keep_only sg_list interfaces l s :
  timestamp ≠ 0%Z → NoDup (map if_id interfaces) → Forall ec2_names interfaces →
  Forall (λ x, if_groups x ≠ []) interfaces → no_backups l →
  nics s = map (fenced_nic keep_only sg_list) interfaces → tags s ≡ₚ fenced_tags timestamp interfaces l →
  existsb (changes (fenced_nic keep_only sg_list)) interfaces = true →
  ∃ s', restore_security_groups inst s = (Ret tt, s') ∧ nics s' = interfaces ∧
    tags s' ≡ₚ filter (λ kv, kv.1 ≠ "lastfence") l.
Proof.
  intros Ht Hn Hnames Hne Hno Hnics Htags Hsome.
  destruct (read_tags_eq timestamp interfaces l s Hno Htags) as [Hlf (kps & Hkps & Hlb)].
  destruct (backups_read_back timestamp interfaces kps s Ht Hn Hnames) as (found & s1 & Hread & Hdev1 & Hfound).
  { by rewrite Hkps, instance_pieces_snd. }
  assert (found_all found interfaces) as Hall.
  { intros x Hx. apply Hfound; [done|]. by apply (proj1 (Forall_forall _ _) Hne). }
  assert (nics s1 = nics s ∧ tags s1 = tags s) as [Hnics1 Htags1] by (unfold nics, tags; by rewrite Hdev1).
  assert (interfaces ≠ []) as Hnonempty by (by intros ->).
  assert (kps ≠ []) as Hkne.
  { intros ->. apply Permutation_nil in Hkps. by apply (pieces_nonempty timestamp interfaces). }
  destruct (restore_tail timestamp interfaces l kps found s1) as (s' & Hrun & Hnics' & Htags').
  - rewrite Hkps. by apply pieces_ascii_all.
  - done.
  - done.
  - done.
  - by rewrite Htags1.
  - rewrite Hnics1, Hnics, map_map. erewrite map_ext; [exact Hn|]. apply fenced_nic_id.
  - rewrite Hnics1, Hnics. by apply restored_changes.
  - exists s'. split_and!; [|by rewrite Hnics', Hnics1, Hnics, restored_back|done].
    unfold restore_security_groups, logged, except_Exception. unfold try_except at 1.
    rewrite (bind_Ret _ _ _ _ _ Hlf). cbv beta iota. rewrite (bind_Ret _ _ s (str_of_Z timestamp) s) by done.
    rewrite (bind_Ret _ _ _ _ _ Hlb). rewrite length_map, bool_decide_false by (by destruct kps).
    cbn [mwhen]. rewrite (bind_Ret _ _ s tt s) by done. rewrite (bind_Ret _ _ _ _ _ Hread).
    rewrite bool_decide_false by (by apply (found_nonempty interfaces found Hall)).
    cbn [mwhen]. rewrite (bind_Ret _ _ s1 tt s1) by done. by rewrite Hrun.
Qed.

(** C7. Unfencing undoes fencing: against an account that keeps what it is told, with no
    backups among the tags of the instance and some interface that fencing changes, taking
    the groups off (or all others, inverted) and then restoring from the tags gives every
    interface the groups it had, and leaves the other tags alone. *)
Theorem restore_undoes_fence timestamp sg_list keep_only s :
  timestamp ≠ 0%Z → NoDup (map if_id (nics s)) → Forall ec2_names (nics s) →
  Forall (λ x, if_groups x ≠ []) (nics s) → no_backups (tags s) →
  existsb (changes (fenced_nic keep_only sg_list)) (nics s) = true →
  ∃ s1 s2,
    modify_security_groups inst sg_list timestamp keep_only false s = (Ret tt, s1) ∧
    nics s1 = map (fenced_nic keep_only sg_list) (nics s) ∧
    restore_security_groups inst s1 = (Ret tt, s2) ∧
    nics s2 = nics s ∧ tags s2 ≡ₚ filter (λ kv, kv.1 ≠ "lastfence") (tags s).
Proof.
  intros Ht Hn Hnames Hne Hno Hsome.
  destruct (fence_eq timestamp sg_list keep_only s Hno Hn Hsome) as (s1 & Hrun1 & Hnics1 & Htags1).
  destruct (restore_eq timestamp keep_only sg_list (nics s) (tags s) s1) as (s2 & Hrun2 & Hnics2 & Htags2); try done.
  by exists s1, s2.
Qed.
End Account.

(** ** An account *)

#[local] Instance account_ec2 : Ec2 account := {|
  boto_resource _ _ _ a := (None, a);
  boto_version := "1.0";
  list_instances _ a := (([], None), a);
  filter_stop _ _ a := (None, a);
  filter_start _ a := (None, a);
  describe_instances _ a :=
    (inr (Some [Some [Instance_ (Some (Some "running")) (Some "vpc-1") (Some (map nic_answer (ac_nics a)))]]), a);
  describe_network_interfaces id a := (inr (Some (map nic_answer (filter (λ x, if_id x = id) (ac_nics a)))), a);
  describe_tags _ pattern a := (inr (Some (map tag_of (filter (λ kv, key_matches pattern kv.1 = true) (ac_tags a)))), a);
  create_tag _ k v a := (None, Account (ac_nics a) ((k, v) :: filter (λ kv, kv.1 ≠ k) (ac_tags a)));
  delete_tags _ ks a := (None, Account (ac_nics a) (filter (λ kv, kv.1 ∉ ks) (ac_tags a)));
  modify_network_interface_attribute id groups a :=
    if decide (id ∈ map if_id (ac_nics a))
    then (None, Account (set_nic (Interface id groups) (ac_nics a)) (ac_tags a))
    else (Some (BotoClientError "InvalidNetworkInterfaceID.NotFound"), a);
  stop_instances _ a := (None, a)
|}.

#[local] Instance account_sessions : Sessions account := {|
  ses_request _ _ a := (inl (ConnectionError "Network is unreachable"), a);
  load_cert_chain _ _ _ := None;
  uuid1 a := ("", a);
  float_literal x := x
|}.

#[local] Instance account_keeps : Ec2Account "i-1" (λ a, a).
Proof.
  split.
  - intros d. by eexists _, _.
  - intros pattern d. by eexists.
  - intros k v d. by eexists.
  - intros ks d. by eexists.
  - intros id groups d Hid. eexists. cbn [modify_network_interface_attribute account_ec2]. by rewrite decide_True.
Qed.

Definition account_start : st account :=
  St ∅ ∅ [] 0 (Account [Interface "eni-1" ["sg-0a"; "sg-0b"]; Interface "eni-2" ["sg-0b"; "sg-0c"]]
    [("Name", "node-1"); ("lastfence", "17")]).

Lemma restore_undoes_fence_witness :
  ∃ s1 s2,
    modify_security_groups "i-1" ["sg-0b"] 1700000000 false false account_start = (Ret tt, s1) ∧
    ac_nics (s_dev s1) = [Interface "eni-1" ["sg-0a"]; Interface "eni-2" ["sg-0c"]] ∧
    restore_security_groups "i-1" s1 = (Ret tt, s2) ∧
    ac_nics (s_dev s2) = [Interface "eni-1" ["sg-0a"; "sg-0b"]; Interface "eni-2" ["sg-0b"; "sg-0c"]] ∧
    ac_tags (s_dev s2) ≡ₚ [("Name", "node-1")].
Proof.
  apply (restore_undoes_fence (inst := "i-1") (view := λ a, a) 1700000000 ["sg-0b"] false account_start).
  - done.
  - closed_dec.
  - repeat constructor.
  - repeat constructor; discriminate.
  - repeat constructor.
  - reflexivity.
Defined.

(** An interface that would be left without groups keeps them; the tags alone say that the
    instance is fenced. *)
Definition partial_start : st account :=
  St (list_to_map [("--secg", VStr "sg-0b")]) ∅ [] 0
    (Account [Interface "eni-1" ["sg-0a"; "sg-0b"]; Interface "eni-2" ["sg-0b"]] []).

Lemma partial_fence_is_off :
  let '(fenced, s1) := modify_security_groups "i-1" ["sg-0b"] 1700000000 false false partial_start in
  fenced = Ret tt ∧
  ac_nics (s_dev s1) = [Interface "eni-1" ["sg-0a"]; Interface "eni-2" ["sg-0b"]] ∧
  (check_sg_modifications "i-1" s1).1 = Ret false ∧
  (is_instance_fenced "i-1" s1).1 = Ret true.
Proof. vm_compute. by split_and!. Qed.
