(* ===== verification/Gce.v ===== *)
(** * The agent fence_gce

    [agents/gce/fence_gce.py]: requests to the Compute Engine API with retries, operations
    that are waited for, zones that are looked up. The library googleapiclient is a class:
    a request has an address, and executing it gives an answer in JSON or an exception. The
    map from plugs to zones, which the agent keeps in [options], is its state (Globals.v). *)

From S2P Require Import Prelude PyStr PyRe OptionDefs Effects Fail Host Input Process CheckInput.
From S2P Require Import Login Metadata Action Console Ipmilan MenuAgents SnmpAgents TableAgents Json Globals Http.
From S2P Require Import WebAgents Sessions Ibmz.

Local Open Scope string_scope.

(** ** The library *)

(** The requests that the agent makes. *)
Inductive gce_call :=
| InstancesList (project zone filter : string) (maxResults : Z)
| InstancesGet (project zone instance : string)
| InstancesChange (change project zone instance : string)   (* stop, start, reset *)
| InstancesAggregated (project filter : string)
| OperationsList (project zone filter : string) (maxResults : Z)
| OperationsGet (project zone operation : string)
| NextPage (previous : gce_call) (previous_response : json).

Record api_request := ApiRequest { ar_call : gce_call; ar_uri : string; ar_agent : option string }.

Inductive stackdriver_result := StackdriverReady | StackdriverMissing | StackdriverFailed (msg : string).

Class Gce (D : Type) := {
  gce_uri : gce_call → string;
  gce_execute : api_request → D → (string + json) * D;
  (** [list_next]: whether another page follows. *)
  gce_next : gce_call → json → bool;
  (** Credentials, from a file of a service account or the default ones, and [build] with
      them and a proxy: whether the error is one of TLS, and its message. *)
  gce_credentials : option string → D → option (bool * string) * D;
  gce_build : option (string * Z) → D → option (bool * string) * D;
  (** [re.match] and [re.sub] for patterns that are given as text: the number of groups,
      if the text matches; the error of a pattern. *)
  re_match_text : string → string → (string + option nat);
  re_sub_text : string → string → string → (string + string);
  (** A GET request without proxies *)
  url_open : string → list (string * string) → D → (string + string) * D;
  stackdriver : string → D → stackdriver_result * D
}.

Definition gce_globals : Type := list (string * string).

Section Library.
Context {D : Type} `{Gce D}.

Definition api (c : gce_call) : api_request := ApiRequest c (gce_uri c) None.

Definition execute (r : api_request) : M (gce_globals * D) json := λ s,
  let '(g, d) := s_dev s in
  match gce_execute r d with
  | (inl msg, d) => (Raise (OtherError msg), set_dev (g, d) s)
  | (inr v, d) => (Ret v, set_dev (g, d) s)
  end.

(** The error of a step of connecting *)
Definition connecting (f : D → option (bool * string) * D) : M (gce_globals * D) unit := λ s,
  let '(g, d) := s_dev s in
  match f d with
  | (None, d) => (Ret tt, set_dev (g, d) s)
  | (Some (tls, msg), d) =>
      (Raise (if (tls : bool) then CustomError "SSLError" msg else OtherError msg), set_dev (g, d) s)
  end.

Definition stackdriver_client (plug : string) : M (gce_globals * D) stackdriver_result := λ s,
  let '(g, d) := s_dev s in
  let '(r, d) := stackdriver plug d in (Ret r, set_dev (g, d) s).

Definition list_next (r : api_request) (response : json) : option api_request :=
  if gce_next (ar_call r) response then Some (api (NextPage (ar_call r) response)) else None.

(** A text for a pattern or an address; others are a TypeError. *)
Definition pattern_text (v : json) : M (gce_globals * D) string :=
  match v with
  | JStr s => mret s
  | _ => raise (TypeError "first argument must be string or compiled pattern")
  end.

Definition match_text (pattern text : string) : M (gce_globals * D) (option nat) :=
  match re_match_text pattern text with inl msg => raise (OtherError msg) | inr r => mret r end.

Definition sub_text (pattern replacement text : string) : M (gce_globals * D) string :=
  match re_sub_text pattern replacement text with inl msg => raise (OtherError msg) | inr r => mret r end.
End Library.

(** ** Constants *)

Definition gce_VERSION : string := "1.0.5".

Definition ACTION_IDS : list (string * Z) :=
  [("on", 1); ("off", 2); ("reboot", 3); ("status", 4); ("list", 5); ("list-status", 6);
   ("monitor", 7); ("metadata", 8); ("manpage", 9); ("validate-all", 10)]%Z.

Definition USER_AGENT (version image : string) (action : Z) : string :=
  "sap-core-eng/fencegce/" +:+ version +:+ "/" +:+ image +:+ "/ACTION/" +:+ str_of_Z action.

Definition METADATA_SERVER : string := "http://metadata.google.internal/computeMetadata/v1/".
Definition METADATA_HEADERS : list (string * string) := [("Metadata-Flavor", "Google")].

Definition INSTANCE_LINK (project zone instance : string) : string :=
  "https://www.googleapis.com/compute/v1/projects/" +:+ project +:+ "/zones/" +:+ zone +:+
  "/instances/" +:+ instance.

Definition RE_GOOGLEAPIS : re := Seqs [Lit "https://"; Many Any; Any; Lit "googleapis"; Any; Lit "com"].

(** The replacement for bare metal. *)
Definition bare_metal_replacement : json :=
  let group (n : string) := str1 BS +:+ n in
  JDict [("matchlength", JInt 4);
    ("match", JStr "https://compute.googleapis.com/compute/v1/projects/(.*)/zones/(.*)/instances/(.*)/reset(.*)");
    ("replace", JStr ("https://baremetalsolution.googleapis.com/v1/projects/" +:+ group "1" +:+ "/locations/" +:+
                      group "2" +:+ "/instances/" +:+ group "3" +:+ ":resetInstance" +:+ group "4"))].

(** ** Requests *)

Section Requests.
Context {D : Type} `{Host D, Gce D}.
(** [FENCE_GCE_URI_REPLACEMENTS] of the environment *)
Variable replacements : option string.

Definition run_on_fail : M (gce_globals * D) unit :=
  given ← opt_has "--runonfail";
  mwhen given (command ← opt_str "--runonfail"; run_command command None None None ;; mret tt).

Definition fail_fence_agent {A} (message : string) : M (gce_globals * D) A :=
  run_on_fail ;; fail_usage message true ;; unassigned "result".

Definition raise_fence_agent {A} (message : string) : M (gce_globals * D) A :=
  run_on_fail ;; raise (OtherError message).

Definition shown_value (v : json) : string := json_str (λ x, x) v.

(** The replacements of the environment come first. *)
Definition uri_replacements : M (gce_globals * D) (list json) :=
  l ← match replacements with
      | None => mret []
      | Some text =>
          log DEBUG "FENCE_GCE_URI_REPLACEMENTS environment variable exists" ;;
          try_except
            (v ← loads text;
             match v with
             | JList l => mret l
             | _ => log WARNING "FENCE_GCE_URI_REPLACEMENTS exists, but is not a JSON List" ;; mret []
             end)
            (λ e, match e with
                  | ValueError _ => Some
                      (log WARNING "FENCE_GCE_URI_REPLACEMENTS exists but is not valid JSON" ;; mret [])
                  | _ => None
                  end)
      end;
  bare ← opt_has "--baremetalsolution";
  mret (if (bare : bool) then l ++ [bare_metal_replacement] else l)%list.

(** The address after the first replacement that applies; the request may be [None]. *)
Fixpoint replaced_uri (l : list json) (request_uri : option string) : M (gce_globals * D) (option string) :=
  match l with
  | [] => mret request_uri
  | uri_replacement :: l =>
      has_length ← json_in "matchlength" uri_replacement;
      has_match ← (if negb has_length then mret false else json_in "match" uri_replacement);
      complete ← (if negb has_match then mret false else json_in "replace" uri_replacement);
      if negb complete then
        log WARNING ("FENCE_GCE_URI_REPLACEMENTS missing matchlength, match, or replace in " +:+
                     shown_value uri_replacement) ;;
        replaced_uri l request_uri
      else
        v ← json_item uri_replacement "match";
        uri ← match request_uri with
              | Some uri => mret uri
              | None => raise (AttributeError "'NoneType' object has no attribute 'uri'")
              end;
        pattern ← pattern_text v;
        m ← match_text pattern uri;
        matchlength ← json_item uri_replacement "matchlength";
        match m with
        | None => replaced_uri l request_uri
        | Some groups =>
            if negb (same_key_value (JInt (Z.of_nat groups)) matchlength) then replaced_uri l request_uri
            else
              w ← json_item uri_replacement "replace";
              replacement ← pattern_text w;
              replaced ← sub_text pattern replacement uri;
              match re_match RE_GOOGLEAPIS replaced with
              | None =>
                  log WARNING ("FENCE_GCE_URI_REPLACEMENTS replace is not targeting googleapis.com, ignoring it: " +:+
                               replaced) ;;
                  replaced_uri l request_uri
              | Some _ => log DEBUG ("Replacing googleapis uri " +:+ uri +:+ " with " +:+ replaced) ;; mret (Some replaced)
              end
        end
  end.

Definition replace_api_uri (http_request : api_request) : M (gce_globals * D) api_request :=
  l ← uri_replacements;
  uri ← replaced_uri l (Some (ar_uri http_request));
  mret (ApiRequest (ar_call http_request) (default (ar_uri http_request) uri) (ar_agent http_request)).

Definition replace_next_uri (http_request : option api_request) : M (gce_globals * D) (option api_request) :=
  match http_request with
  | Some r => r ← replace_api_uri r; mret (Some r)
  | None => l ← uri_replacements; replaced_uri l None ;; mret None
  end.

(** An option that is a number, if it is given and not empty or zero. *)
Definition number_or (k : string) (d : Z) : M (gce_globals * D) Z :=
  v ← opt_find k;
  match v with
  | Some v => if truthy v then as_int v else mret d
  | None => mret d
  end.

(** The tries that are left, with the pauses between them. *)
Fixpoint api_tries (left : nat) (retry retry_sleep : Z) (current_err : option exn) (r : api_request)
    : M (gce_globals * D) json :=
  match left with
  | O => raise (default (TypeError "exceptions must derive from BaseException") current_err)
  | S k =>
      mwhen (0 <? retry)%Z (sleep retry_sleep) ;;
      x ← except_Exception (v ← execute r; mret (inl v))
            (λ err,
               log WARNING ("Could not execute api call to: " +:+ ar_uri r +:+ ", retry: " +:+ str_of_Z retry +:+
                            ", err: " +:+ exn_str err) ;;
               mret (inr err));
      match x with
      | inl v => mret v
      | inr err => api_tries k (retry + 1) retry_sleep (Some err) r
      end
  end.

Definition retry_api_execute (http_request : api_request) : M (gce_globals * D) json :=
  r ← replace_api_uri http_request;
  v ← opt_get "--action";
  image ← opt_show "image";
  let action := match v with VStr a => default 0%Z (dict_get a ACTION_IDS) | _ => 0%Z end in
  let user_agent_header := USER_AGENT gce_VERSION image action in
  log DEBUG ("User agent set as " +:+ user_agent_header) ;;
  retries ← number_or "--retries" 3;
  retry_sleep ← number_or "--retrysleep" 5;
  api_tries (Z.to_nat (retries + 1)) 0 retry_sleep None (ApiRequest (ar_call r) (ar_uri r) (Some user_agent_header)).

Definition gce_translate_status (instance_status : json) : string :=
  if text_is "RUNNING" instance_status then "on"
  else if text_is "TERMINATED" instance_status then "off"
  else "unknown".

(** [zone.split("/")[-1]] *)
Definition gce_last_part (v : json) : M (gce_globals * D) string :=
  match v with
  | JStr s => mret (default "" (last (split_go "/" s 0)))
  | _ => raise (AttributeError ("'" +:+ json_type v +:+ "' object has no attribute 'split'"))
  end.

(** [v.values()] *)
Definition json_values (v : json) : M (gce_globals * D) (list json) :=
  match v with
  | JDict d => mret (map snd d)
  | _ => raise (AttributeError ("'" +:+ json_type v +:+ "' object has no attribute 'values'"))
  end.

(** The zone of the first instance with the name, among those of a page. *)
Fixpoint zone_among (instance : string) (instances : list json) : M (gce_globals * D) (option string) :=
  match instances with
  | [] => mret None
  | inst :: instances =>
      name ← json_item inst "name";
      if text_is instance name then
        zone ← json_item inst "zone"; z ← gce_last_part zone; mret (Some z)
      else zone_among instance instances
  end.

Fixpoint zone_in (instance : string) (zones : list json) : M (gce_globals * D) (option string) :=
  match zones with
  | [] => mret None
  | zone :: zones =>
      v ← json_get_or zone "instances" (JList []);
      instances ← json_iter v;
      found ← zone_among instance instances;
      match found with
      | Some z => mret (Some z)
      | None => zone_in instance zones
      end
  end.

Fixpoint zone_pages (fuel : nat) (instance : string) (request : option api_request) : M (gce_globals * D) string :=
  match fuel with
  | O => out_of_fuel
  | S k =>
      match request with
      | None => raise_fence_agent ("Unable to find instance " +:+ instance)
      | Some r =>
          response ← execute r;
          v ← json_get_or response "items" (JDict []);
          zones ← json_values v;
          found ← zone_in instance zones;
          match found with
          | Some zone => mret zone
          | None => next ← replace_next_uri (list_next r response); zone_pages k instance next
          end
      end
  end.

Definition get_zone (fuel : nat) (instance : string) : M (gce_globals * D) string :=
  log DEBUG "get_zone" ;;
  project ← opt_show "--project";
  r ← replace_api_uri (api (InstancesAggregated project ("name=" +:+ dq +:+ instance +:+ dq)));
  zone_pages fuel instance (Some r).

(** [options["--plugzonemap"][instance]] *)
Definition zone_of (instance : string) : M (gce_globals * D) string :=
  zones ← globals;
  match dict_get instance zones with Some z => mret z | None => raise (KeyError instance) end.
End Requests.

(** ** The callbacks *)

Section Callbacks.
Context {D : Type} `{Host D, Gce D}.
Variable replacements : option string.
#[local] Abbreviation retry_api_execute := (retry_api_execute replacements).

Definition gce_outlet (os : outlets) (instance : json) : M (gce_globals * D) outlets :=
  id ← json_item instance "id";
  key ← json_key id;
  name ← json_item instance "name";
  status ← json_item instance "status";
  mret (dict_insert key (shown_value name, Some (gce_translate_status status)) os).

(** The pages of one request. *)
Fixpoint gce_pages (fuel : nat) (request : option api_request) (os : outlets) : M (gce_globals * D) outlets :=
  match fuel with
  | O => out_of_fuel
  | S k =>
      match request with
      | None => mret os
      | Some r =>
          instanceList ← retry_api_execute r;
          there ← json_in "items" instanceList;
          if negb there then mret os
          else
            v ← json_item instanceList "items";
            items ← json_iter v;
            os ← mfold gce_outlet os items;
            gce_pages k (list_next r instanceList) os
      end
  end.

(** A request is made for every zone, and only the last one is executed. *)
Definition gce_get_nodes_list (fuel : nat) : M (gce_globals * D) outlets :=
  v ← opt_find "--plug";
  plug ← as_str (default (VStr "") v);
  v ← opt_find "--zone";
  zones ← as_str (default (VStr "") v);
  let filter := if decide (plug = "") then "" else "name=" +:+ plug in
  action ← opt_find "--action";
  let max_results := if decide (action = Some (VStr "monitor")) then 1%Z else 500%Z in
  zones ← (if decide (zones = "") then zone_of plug else mret zones);
  except_Exception
    (request ← mfold (λ _ zone, project ← opt_show "--project"; mret (Some (api (InstancesList project zone filter max_results))))
                 None (split_go "," zones 0);
     gce_pages fuel request [])
    (λ err, fail_fence_agent ("Failed: get_nodes_list: " +:+ exn_str err)).

Definition get_instance_power_status (instance zone : string) : M (gce_globals * D) string :=
  except_Exception
    (project ← opt_show "--project";
     v ← retry_api_execute (api (InstancesGet project zone instance));
     status ← json_item v "status";
     mret (gce_translate_status status))
    (λ err, fail_fence_agent ("Failed: get_instance_power_status: " +:+ exn_str err)).

(** On bare metal the answer is the opposite of what is asked for. *)
Definition gce_get_power_status : M (gce_globals * D) pyval :=
  log DEBUG "get_power_status" ;;
  bare ← opt_has "--baremetalsolution";
  action ← opt_find "--action";
  if (bare : bool) then mret (VStr (if decide (action = Some (VStr "on")) then "off" else "on"))
  else
    instance ← opt_str "--plug";
    zone ← zone_of instance;
    instance_status ← get_instance_power_status instance zone;
    mret (if decide (Some (VStr instance_status) = action) then default VNone action else VStr instance_status).

Definition check_for_existing_operation (instance zone operation_type : string) : M (gce_globals * D) (option json) :=
  log DEBUG "check_for_existing_operation" ;;
  bare ← opt_has "--baremetalsolution";
  if (bare : bool) then mret None
  else
    project ← opt_show "--project";
    let query_filter := "(targetLink = " +:+ dq +:+ INSTANCE_LINK project zone instance +:+ dq +:+
                        ") AND (operationType = " +:+ dq +:+ operation_type +:+ dq +:+
                        ") AND (status = " +:+ dq +:+ "RUNNING" +:+ dq +:+ ")" in
    result ← retry_api_execute (api (OperationsList project zone query_filter 1));
    there ← json_in "items" result;
    items ← (if (there : bool) then json_item result "items" else mret JNull);
    if json_truthy items then
      log INFO ("Existing " +:+ operation_type +:+ " operation found") ;;
      operation ← json_nth items 0;
      mret (Some operation)
    else mret None.

(** [wait_time > int(options[k])], if the option is given *)
Definition over (k : string) (wait_time : Z) : M (gce_globals * D) bool :=
  given ← opt_has k;
  if (given : bool) then n ← opt_int k; mret (n <? wait_time)%Z else mret false.

(** Polls, a second apart. *)
Fixpoint wait_polls (fuel : nat) (project zone : string) (name : string) (wait_time : Z)
    : M (gce_globals * D) bool :=
  match fuel with
  | O => out_of_fuel
  | S k =>
      result ← retry_api_execute (api (OperationsGet project zone name));
      status ← json_item result "status";
      if text_is "DONE" status then
        failed ← json_in "error" result;
        mwhen failed (error ← json_item result "error"; raise_fence_agent (shown_value error)) ;;
        mret true
      else
        error ← over "--errortimeout" wait_time;
        mwhen error (raise_fence_agent "Operation did not complete before the timeout.") ;;
        warn ← over "--warntimeout" wait_time;
        if (warn : bool) then
          log WARNING "Operation did not complete before the timeout." ;;
          given ← opt_has "--runonwarn";
          mwhen given (command ← opt_str "--runonwarn"; run_command command None None None ;; mret tt) ;;
          mret false
        else sleep 1 ;; wait_polls k project zone name (wait_time + 1)
  end.

Definition wait_for_operation (fuel : nat) (zone : string) (operation : json) : M (gce_globals * D) bool :=
  there ← json_in "name" operation;
  if negb there then
    log WARNING "Cannot wait for operation to complete, the requested operation will continue asynchronously" ;;
    mret false
  else
    project ← opt_show "--project";
    name ← json_item operation "name";
    wait_polls fuel project zone (shown_value name) 0.

(** The operation that runs already, or a new one; [None] when the agent is not to wait
    for one that runs. *)
Definition operation_for (change instance zone : string) : M (gce_globals * D) (option json) :=
  operation ← check_for_existing_operation instance zone change;
  let running := default JNull operation in
  early ← opt_has "--earlyexit";
  if json_truthy running && early then mret None
  else if json_truthy running then mret (Some running)
  else
    project ← opt_show "--project";
    v ← retry_api_execute (api (InstancesChange change project zone instance));
    mret (Some v).

Definition set_instance_power_status (fuel : nat) (instance zone : string) (action : pyval) : M (gce_globals * D) unit :=
  log INFO ("Setting power status of " +:+ instance +:+ " in zone " +:+ zone) ;;
  opt_get "--project" ;;
  except_Exception
    (if decide (action = VStr "off") then
       log INFO ("Issuing poweroff of " +:+ instance +:+ " in zone " +:+ zone) ;;
       operation ← operation_for "stop" instance zone;
       match operation with
       | None => mret tt
       | Some operation =>
           log INFO "Poweroff command completed, waiting for the operation to complete" ;;
           complete ← wait_for_operation fuel zone operation;
           mwhen complete (log INFO ("Poweroff of " +:+ instance +:+ " in zone " +:+ zone +:+ " complete"))
       end
     else if decide (action = VStr "on") then
       log INFO ("Issuing poweron of " +:+ instance +:+ " in zone " +:+ zone) ;;
       operation ← operation_for "start" instance zone;
       match operation with
       | None => mret tt
       | Some operation =>
           complete ← wait_for_operation fuel zone operation;
           mwhen complete (log INFO ("Poweron of " +:+ instance +:+ " in zone " +:+ zone +:+ " complete"))
       end
     else mret tt)
    (λ err, fail_fence_agent ("Failed: set_instance_power_status: " +:+ exn_str err)).

Definition gce_set_power_status (fuel : nat) : M (gce_globals * D) unit :=
  log DEBUG "set_power_status" ;;
  instance ← opt_str "--plug";
  zone ← zone_of instance;
  action ← opt_get "--action";
  set_instance_power_status fuel instance zone action.

Definition power_cycle_instance (fuel : nat) (instance zone : string) : M (gce_globals * D) bool :=
  log INFO ("Issuing reset of " +:+ instance +:+ " in zone " +:+ zone) ;;
  opt_get "--project" ;;
  except_Exception
    (operation ← operation_for "reset" instance zone;
     match operation with
     | None => mret true
     | Some operation =>
         log INFO "Reset command sent, waiting for the operation to complete" ;;
         complete ← wait_for_operation fuel zone operation;
         mwhen complete (log INFO ("Reset of " +:+ instance +:+ " in zone " +:+ zone +:+ " complete")) ;;
         mret true
     end)
    (λ err, log ERROR "Failed: power_cycle" ;; raise err).

Definition gce_power_cycle (fuel : nat) : M (gce_globals * D) bool :=
  log DEBUG "power_cycle" ;;
  instance ← opt_str "--plug";
  zone ← zone_of instance;
  power_cycle_instance fuel instance zone.

(** ** The program *)

(** A request to the metadata server; the time it may take is left out. *)
Definition get_metadata (metadata_key : string) : M (gce_globals * D) string := λ s,
  let '(g, d) := s_dev s in
  let s := add_event (EvLog DEBUG "get_metadata") s in
  match url_open (METADATA_SERVER +:+ metadata_key +:+ "?") METADATA_HEADERS d with
  | (inl msg, d) => (Raise (OSError msg), set_dev (g, d) s)
  | (inr text, d) => (Ret text, set_dev (g, d) s)
  end.

Definition stackdriver_handler : M (gce_globals * D) unit :=
  logging ← opt_find "--stackdriver-logging";
  plug ← opt_find "--plug";
  match logging, plug with
  | Some _, Some (VStr plug) =>
      mwhen (bool_decide (plug ≠ ""))
        (r ← stackdriver_client plug;
         match r with
         | StackdriverReady => logging_setup "google.cloud.logging"
         | StackdriverMissing =>
             log ERROR "Couldn't import google.cloud.logging, disabling Stackdriver-logging support"
         | StackdriverFailed msg => raise (OtherError msg)
         end)
  | _, _ => mret tt
  end.

(** [socket.setdefaulttimeout(options["--apitimeout"])] takes numbers only. *)
Definition socket_timeout : M (gce_globals * D) unit :=
  v ← opt_find "--apitimeout";
  match v with
  | Some v =>
      mwhen (truthy v)
        match v with
        | VInt n => mwhen (n <? 0)%Z (raise (ValueError "Timeout value out of range"))
        | _ => raise (TypeError "'str' object cannot be interpreted as an integer")
        end
  | None => mret tt
  end.

Definition text_given (k : string) : M (gce_globals * D) (option string) :=
  v ← opt_find k;
  mret (match v with Some (VStr x) => if decide (x = "") then None else Some x | _ => None end).

Definition gce_connect : M (gce_globals * D) unit :=
  except_Exception
    (serviceaccount ← text_given "--serviceaccount";
     match serviceaccount with
     | Some _ => log DEBUG "using credentials from service account" ;; connecting (gce_credentials serviceaccount)
     | None => connecting (gce_credentials None) ;; log DEBUG "using application default credentials"
     end ;;
     host ← text_given "--proxyhost";
     port ← text_given "--proxyport";
     proxy ← match host, port return M (gce_globals * D) (option (string * Z)) with
             | Some h, Some p => n ← as_int (VStr p); mret (Some (h, n))
             | _, _ => mret None
             end;
     connecting (gce_build proxy))
    (λ err, fail_fence_agent
       ("Failed: Create GCE compute v1 connection: " +:+ exn_str err +:+
        match err with
        | CustomError _ _ => nl +:+ nl +:+ "This might be caused by old versions of httplib2."
        | _ => ""
        end)).

Definition find_project : M (gce_globals * D) unit :=
  v ← opt_find "--project";
  mwhen (negb (truthy (default VNone v)))
    (except_Exception (project ← get_metadata "project/project-id"; opt_set "--project" (VStr project))
       (λ err, fail_fence_agent
          ("Failed retrieving GCE project. Please provide --project option: " +:+ exn_str err))).

(** [image[image.rindex('/')+1:]] *)
Definition find_image : M (gce_globals * D) unit :=
  except_Exception
    (image ← get_metadata "instance/image";
     match split_go "/" image 0 with
     | [] | [_] => raise (ValueError "substring not found")
     | parts => opt_set "image" (VStr (default "" (last parts)))
     end)
    (λ _, opt_set "image" (VStr "unknown")).

(** The zone of a plug: the only one given, the one in its place, or what the service
    says. *)
Definition map_plug (fuel : nat) (zones : list string) (ip : nat * string) : M (gce_globals * D) unit :=
  let '(i, instance) := ip in
  let assign zone := (m ← globals; set_globals (dict_insert instance zone m)) in
  match zones, zones !! i with
  | [zone], _ => assign zone
  | _, Some zone => assign zone
  | _, None =>
      except_Exception (zone ← get_zone replacements fuel instance; assign zone)
        (λ err, fail_fence_agent ("Failed retrieving GCE zone. Please provide --zone option: " +:+ exn_str err))
  end.

Definition map_plugs (fuel : nat) : M (gce_globals * D) unit :=
  v ← opt_find "--zone";
  zones ← match v with Some v => s ← as_str v; mret (split_go "," s 0) | None => mret [] end;
  set_globals [] ;;
  v ← opt_find "--plug";
  match v with
  | None => mret tt
  | Some v =>
      s ← as_str v;
      let plugs := split_go "," s 0 in
      mfor (zip (seq 0 (length plugs)) plugs) (map_plug fuel zones)
  end.
End Callbacks.

(** ** Options and documentation *)

Definition gce_opts : list (string * optdef) := [
  ("zone", opt [Getopt ":";
     Longopt "zone";
     Help "--zone=[name]                  Zone, e.g. us-central1-b";
     Shortdesc "Zone.";
     Required "0";
     Order 2]);
  ("project", opt [Getopt ":";
     Longopt "project";
     Help "--project=[name]               Project ID";
     Shortdesc "Project ID.";
     Required "0";
     Order 3]);
  ("stackdriver-logging", opt [Getopt "";
     Longopt "stackdriver-logging";
     Help "--stackdriver-logging          Enable Logging to Stackdriver";
     Shortdesc "Stackdriver-logging support.";
     Longdesc "If enabled IP failover logs will be posted to stackdriver logging.";
     Required "0";
     Order 4]);
  ("baremetalsolution", opt [Getopt "";
     Longopt "baremetalsolution";
     Help "--baremetalsolution            Enable on bare metal";
     Shortdesc "If enabled this is a bare metal offering from google.";
     Required "0";
     Order 5]);
  ("apitimeout", opt [Getopt ":";
     Type_ "second";
     Longopt "apitimeout";
     Help "--apitimeout=[seconds]         Timeout to use for API calls";
     Shortdesc "Timeout in seconds to use for API calls, default is 60.";
     Required "0";
     Default (VInt 60);
     Order 6]);
  ("retries", opt [Getopt ":";
     Type_ "integer";
     Longopt "retries";
     Help "--retries=[retries]            Number of retries on failure for API calls";
     Shortdesc "Number of retries on failure for API calls, default is 3.";
     Required "0";
     Default (VInt 3);
     Order 7]);
  ("retrysleep", opt [Getopt ":";
     Type_ "second";
     Longopt "retrysleep";
     Help "--retrysleep=[seconds]         Time to sleep between API retries";
     Shortdesc "Time to sleep in seconds between API retries, default is 5.";
     Required "0";
     Default (VInt 5);
     Order 8]);
  ("serviceaccount", opt [Getopt ":";
     Longopt "serviceaccount";
     Help "--serviceaccount=[filename]    Service account json file location e.g. serviceaccount=/somedir/service_account.json";
     Shortdesc "Service Account to use for authentication to the google cloud APIs.";
     Required "0";
     Order 9]);
  ("plugzonemap", opt [Getopt ":";
     Longopt "plugzonemap";
     Help "--plugzonemap=[plugzonemap]    Comma separated zone map when fencing multiple plugs";
     Shortdesc "Comma separated zone map when fencing multiple plugs.";
     Required "0";
     Order 10]);
  ("proxyhost", opt [Getopt ":";
     Longopt "proxyhost";
     Help "--proxyhost=[proxy_host]       The proxy host to use, if one is needed to access the internet (Example: 10.122.0.33)";
     Shortdesc "If a proxy is used for internet access, the proxy host should be specified.";
     Required "0";
     Order 11]);
  ("proxyport", opt [Getopt ":";
     Type_ "integer";
     Longopt "proxyport";
     Help "--proxyport=[proxy_port]       The proxy port to use, if one is needed to access the internet (Example: 3127)";
     Shortdesc "If a proxy is used for internet access, the proxy port should be specified.";
     Required "0";
     Order 12]);
  ("earlyexit", opt [Getopt "";
     Longopt "earlyexit";
     Help "--earlyexit                    Return early if reset is already in progress";
     Shortdesc "If an existing reset operation is detected, the fence agent will return before the operation completes with a 0 return code.";
     Required "0";
     Order 13]);
  ("warntimeout", opt [Getopt ":";
     Type_ "second";
     Longopt "warntimeout";
     Help "--warntimeout=[warn_timeout]   Timeout seconds before logging a warning and returning a 0 status code";
     Shortdesc "If the operation is not completed within the timeout, the cluster operations are allowed to continue.";
     Required "0";
     Order 14]);
  ("errortimeout", opt [Getopt ":";
     Type_ "second";
     Longopt "errortimeout";
     Help "--errortimeout=[error_timeout] Timeout seconds before failing and returning a non-zero status code";
     Shortdesc "If the operation is not completed within the timeout, cluster is notified of the operation failure.";
     Required "0";
     Order 15]);
  ("runonwarn", opt [Getopt ":";
     Longopt "runonwarn";
     Help "--runonwarn=[run_on_warn]      If a timeout occurs and warning is generated, run the supplied command";
     Shortdesc "If a timeout would occur while running the agent, then the supplied command is run.";
     Required "0";
     Order 16]);
  ("runonfail", opt [Getopt ":";
     Longopt "runonfail";
     Help "--runonfail=[run_on_fail]      If a failure occurs, run the supplied command";
     Shortdesc "If a failure would occur while running the agent, then the supplied command is run.";
     Required "0";
     Order 17])
].

Definition gce_docs : docs := Docs
  ("fence_gce is a Power Fencing agent for GCE (Google Cloud Engine). It uses the googleapiclient library to connect to GCE." +:+ nl +:+ "googleapiclient can be configured with Google SDK CLI or by executing 'gcloud auth application-default login'." +:+ nl +:+ "For instructions see: https://cloud.google.com/compute/docs/tutorials/python-guide")
  ("Fence agent for GCE (Google Cloud Engine)") (Some ("http://cloud.google.com")) [] None.

Definition gce_device_opt : list string :=
  ["port"; "no_password"; "zone"; "project"; "stackdriver-logging"; "method"; "baremetalsolution";
   "apitimeout"; "retries"; "retrysleep"; "serviceaccount"; "plugzonemap"; "proxyhost"; "proxyport";
   "earlyexit"; "warntimeout"; "errortimeout"; "runonwarn"; "runonfail"].

Definition fence_gce_main {D} `{Host D, Gce D} (fuel : nat) (time_start : Z) (inv : invocation)
    (set_order : list string → list string) : M (gce_globals * D) unit :=
  let replacements := inv_env inv !! "FENCE_GCE_URI_REPLACEMENTS" in
  add_options gce_opts ;;
  allopt_set "power_timeout" (Default (VStr "60")) ;;
  allopt_set "method" (Default (VStr "cycle")) ;;
  allopt_set "method" (Help "-m, --method=[method]          Method to fence (onoff|cycle) (Default: cycle)") ;;
  checked_options inv gce_device_opt ;;
  show_docs (inv_prog inv) set_order (Some gce_docs) ;;
  run_delay time_start 0 0 ;;
  logging_setup "googleapiclient" ;;
  stackdriver_handler ;;
  socket_timeout ;;
  gce_connect ;;
  find_project ;;
  find_image ;;
  bare ← opt_has "--baremetalsolution";
  mwhen bare (opt_set "--zone" (VStr "none")) ;;
  map_plugs replacements fuel ;;
  result ← fence_action fuel (Some (gce_set_power_status replacements fuel))
             (Some (gce_get_power_status replacements)) (Some (gce_get_nodes_list replacements fuel))
             (Some (gce_power_cycle replacements fuel)) None;
  sys_exit result.
