(* ===== verification/Nova.v ===== *)
(** * OpenStack compute: fence_compute and fence_evacuate

    [agents/compute/fence_compute.py] and [agents/evacuate/fence_evacuate.py]: the state of
    the service nova-compute of a host, forcing it down and up, evacuating the instances of
    a host. novaclient and keystoneclient are a class; an exception of theirs has a class
    and a message. *)

From S2P Require Import Prelude PyStr OptionDefs Effects Fail Host Input Process CheckInput.
From S2P Require Import Login Metadata Action Console Ipmilan MenuAgents SnmpAgents TableAgents Json Globals Http.
From S2P Require Import ServiceAgents RequestsAgents Sessions Ibmz.

Local Open Scope string_scope.

(** ** The libraries *)

Definition nova_error : Type := string * string.

Record nova_service := NovaService {
  sv_host : string;
  sv_binary : string;
  sv_state : string;
  sv_status : string
}.

(** [sr_image] is [None] when the image has no [get]. *)
Record nova_server := NovaServer {
  sr_id : option string;
  sr_flavor : option string;
  sr_image : option (option string);
  sr_text : string;
  sr_dict : string
}.

Inductive nova_image :=
| ImageMetadata (id : string) (tag : option string)
| ImageTags (id : string) (tags : list string)
| ImagePlain.

(** What [Client] is called with: with positional arguments before OSP 11. *)
Record client_call := ClientCall {
  cc_version : string;
  cc_positional : bool;
  cc_insecure : option bool;
  cc_region_name : pyval;
  cc_endpoint_type : pyval;
  cc_http_log_debug : bool;
  cc_keystone : list (string * pyval);
  cc_verify : bool
}.

Inductive client_result :=
| ClientReady
| ClientNotMade (e : nova_error)           (* the constructor raises *)
| ClientNotAcceptable (msg : string)       (* [hypervisors.list()] raises *)
| ClientFailed (e : nova_error).

Class Nova (D : Type) := {
  nova_installed : bool;
  client_varargs : bool;
  available_versions : pyval → D → (nova_error + list string) * D;
  version_match : string → string → bool;
  make_client : client_call → D → client_result * D;
  services_list : option string → D → (nova_error + list nova_service) * D;
  services_force_down : string → bool → D → option nova_error * D;
  services_enable : string → D → option nova_error * D;
  services_disable : string → D → option nova_error * D;
  servers_list : string → D → (nova_error + list nova_server) * D;
  servers_evacuate : string → bool → D → (nova_error + option (Z * string)) * D;
  flavors_list : D → (nova_error + list string) * D;
  flavor_tag : string → D → (nova_error + option string) * D;
  (** [images.list] or, since OSP 12, [glance.list]; none of them is no image. *)
  images_list : D → (nova_error + list nova_image) * D
}.

Section Calls.
Context {D : Type}.

Definition nova_exn (e : nova_error) : exn := CustomError e.1 e.2.

Definition nova_call {A} (f : D → (nova_error + A) * D) : M D A := λ s,
  match f (s_dev s) with
  | (inl e, d) => (Raise (nova_exn e), set_dev d s)
  | (inr a, d) => (Ret a, set_dev d s)
  end.

Definition nova_do (f : D → option nova_error * D) : M D unit := λ s,
  match f (s_dev s) with
  | (Some e, d) => (Raise (nova_exn e), set_dev d s)
  | (None, d) => (Ret tt, set_dev d s)
  end.

(** [e.__class__.__name__] *)
Definition exn_class (e : exn) : string :=
  match e with
  | CustomError cls _ => cls
  | KeyError _ => "KeyError"
  | ValueError _ => "ValueError"
  | TypeError _ => "TypeError"
  | IndexError => "IndexError"
  | AttributeError _ => "AttributeError"
  | OSError _ => "OSError"
  | _ => "Exception"
  end.
End Calls.

(** ** The connection *)

Section Connect.
Context {D : Type} `{Nova D}.

Definition keystone_options : M D (list (string * pyval)) :=
  auth_url ← opt_get "--auth-url";
  versions ← nova_call (available_versions auth_url);
  first ← list_item versions 0;
  let keystone_version := String.substring 1 (String.length first - 1) first in
  auth_url ← opt_get "--auth-url";
  username ← opt_get "--username";
  password ← opt_get "--password";
  let kwargs := [("auth_url", auth_url); ("username", username); ("password", password)] in
  if version_match (D := D) "2" keystone_version then
    tenant ← opt_get "--tenant-name"; mret (kwargs ++ [("tenant_name", tenant)])%list
  else if version_match (D := D) "3" keystone_version then
    project ← opt_get "--tenant-name";
    user_domain ← opt_get "--user-domain";
    project_domain ← opt_get "--project-domain";
    mret (kwargs ++ [("project_name", project); ("user_domain_name", user_domain);
                     ("project_domain_name", project_domain)])%list
  else mret kwargs.

(** The versions that are left to try; the result says whether one is supported. *)
Fixpoint try_versions (kwargs : list (string * pyval)) (versions : list string) : M D bool :=
  match versions with
  | [] => log WARNING ("Couldn't obtain a supported connection to nova, tried: " +:+ strs ["2.11"; "2"] +:+ nl) ;;
          mret false
  | version :: versions =>
      insecure ← opt_has "--insecure";
      region_name ← opt_get "--region-name";
      endpoint_type ← opt_get "--endpoint-type";
      verbose ← opt_has "--verbose";
      let positional := client_varargs (D := D) in
      r ← nova_call (λ d, let '(r, d) := make_client
            (ClientCall version positional (if positional then Some insecure else None) region_name endpoint_type
               verbose kwargs (negb insecure)) d in (inr r, d));
      match r with
      | ClientReady => mret true
      | ClientNotMade e => raise (nova_exn e)
      | ClientNotAcceptable msg => log WARNING msg ;; try_versions kwargs versions
      | ClientFailed e =>
          log WARNING ("Nova connection failed. " +:+ e.1 +:+ ": " +:+ e.2) ;; try_versions kwargs versions
      end
  end.

Definition create_nova_connection : M D bool :=
  mwhen (negb (nova_installed (D := D))) (fail_usage "Nova not found or not accessible" true) ;;
  kwargs ← keystone_options;
  try_versions kwargs ["2.11"; "2"].

(** The options [--compute-domain] sets and removes. *)
Definition compute_domain : M D unit :=
  v ← opt_find "--compute-domain";
  match v with
  | Some v => mwhen (truthy v) (opt_set "--domain" v ;; opt_del "--domain")
  | None => mret tt
  end.

Definition short_host (host : string) : string := default "" (head (split_go "." host 0)).

Definition nova_plugs_list (connection : bool) : M D outlets :=
  if connection then
    services ← nova_call (services_list None);
    mret (foldl (λ os service,
      dict_insert (short_host (sv_host service)) ("", None)
        (dict_insert (sv_host service) ("", None) os)) [] services)
  else mret [].

(** The state of one service of the host *)
Definition service_status (service : nova_service) : M D string :=
  if decide (sv_state service = "up" ∧ sv_status service = "enabled") then mret "on"
  else if decide (sv_state service = "down" ∧ sv_status service = "disabled") then mret "off"
  else if decide (sv_state service = "down") then mret "failed"
  else if decide (sv_state service = "up") then mret "running"
  else
    plug ← opt_show "--plug";
    log WARNING ("Unknown status detected from nova for " +:+ plug +:+ ": " +:+ sv_state service +:+ ", " +:+
                 sv_status service) ;;
    mret (sv_state service +:+ " " +:+ sv_status service).

(** The first service of the host. The name of the handler does not exist: any exception
    is replaced. *)
Definition host_status (connection : bool) (seen : nova_service → M D unit) : M D string :=
  action ← opt_str "--action";
  log DEBUG ("get action: " +:+ action) ;;
  if connection then
    try_except
      (plug ← opt_str "--plug";
       services ← nova_call (services_list (Some plug));
       match services with
       | [] => mret "unknown"
       | service :: _ => seen service ;; service_status service
       end)
      (λ _, Some (raise (AttributeError "module 'requests' has no attribute 'exception'")))
  else mret "unknown".
End Connect.

(** ** fence_compute *)

Section Compute.
Context {D : Type} `{Host D, Nova D}.

(** The variable [override_status] stays empty: the function that is to set it has one of
    its own. *)
Definition compute_get_power_status (connection : bool) : M D string :=
  status ← host_status connection (λ service,
    plug ← opt_show "--plug";
    log DEBUG ("Status of " +:+ sv_binary service +:+ " on " +:+ plug +:+ " is " +:+ sv_state service +:+ ", " +:+
               sv_status service));
  plug ← opt_show "--plug";
  log DEBUG ("Final status of " +:+ plug +:+ " is " +:+ status) ;;
  mret status.

Definition get_power_status_simple (connection : bool) : M D pyval :=
  status ← compute_get_power_status connection;
  mret (VStr (if decide (status = "off") then status else "on")).

Definition set_attrd_status (host status : string) : M D unit :=
  log DEBUG ("Setting fencing status for " +:+ host +:+ " to " +:+ status) ;;
  run_command ("attrd_updater -p -n evacuate -Q -N " +:+ host +:+ " -U " +:+ status) None None None ;;
  mret tt.

Definition get_attrd_status (host : string) : M D string :=
  r ← run_command ("attrd_updater -p -n evacuate -Q -N " +:+ host) None None None;
  let fields := split_go dq r.1.2 0 in
  if decide (6 < length fields)%nat then list_item fields 5
  else
    log DEBUG ("Got " +:+ str_of_Z r.1.1 +:+ ": o:" +:+ r.1.2 +:+ " e:" +:+ r.2 +:+ " n:" +:+
               str_of_Z (Z.of_nat (length fields))) ;;
    mret "".

(** Until the evacuation is over *)
Fixpoint wait_evacuated (fuel : nat) : M D unit :=
  match fuel with
  | O => out_of_fuel
  | S k =>
      plug ← opt_str "--plug";
      current ← get_attrd_status plug;
      if bool_decide (current ∈ ["no"; ""]) then
        log INFO ("Evacuation complete for: " +:+ plug +:+ " '" +:+ current +:+ "'")
      else
        log INFO ("Waiting for " +:+ plug +:+ " to complete evacuations: " +:+ current) ;;
        sleep 2 ;;
        wait_evacuated k
  end.

Definition set_power_status_on (fuel : nat) (connection : bool) : M D unit :=
  wait_evacuated fuel ;;
  status ← compute_get_power_status connection;
  if bool_decide (status ∈ ["off"; "running"; "failed"]) then
    except_Exception
      (plug ← opt_str "--plug";
       log INFO ("Forcing nova-compute back up on " +:+ plug) ;;
       nova_do (services_force_down plug false) ;;
       log INFO ("Forced nova-compute back up on " +:+ plug))
      (λ e, log WARNING ("Exception from attempt to force host back up via nova API: " +:+ exn_class e +:+ ": " +:+
                         exn_str e)) ;;
    plug ← opt_str "--plug";
    log INFO ("Enabling nova-compute on " +:+ plug) ;;
    nova_do (services_enable plug)
  else mwhen (negb (bool_decide (status = "on"))) (opt_set "--power-timeout" (VStr "0")).

(** Until nova says that the service is off *)
Fixpoint wait_off (fuel : nat) (connection : bool) : M D unit :=
  match fuel with
  | O => out_of_fuel
  | S k =>
      status ← compute_get_power_status connection;
      if decide (status = "off") then mret tt
      else
        plug ← opt_show "--plug";
        log DEBUG ("Waiting for nova to update its internal state for " +:+ plug) ;;
        sleep 1 ;;
        wait_off k connection
  end.

Definition set_power_status_off (fuel : nat) (connection : bool) : M D unit :=
  status ← compute_get_power_status connection;
  if decide (status = "off") then mret tt
  else
    except_Exception
      (plug ← opt_str "--plug";
       nova_do (services_force_down plug true) ;;
       nova_do (services_disable plug))
      (λ e,
         log ERROR ("Exception from attempt to force host down via nova API: " +:+ exn_class e +:+ ": " +:+ exn_str e) ;;
         wait_off fuel connection) ;;
    plug ← opt_str "--plug";
    set_attrd_status plug "yes".

(** With a connection the program ends here. *)
Definition compute_set_power_status (fuel : nat) (connection : bool) : M D unit :=
  action ← opt_str "--action";
  log DEBUG ("set action: " +:+ action) ;;
  if negb connection then mret tt
  else
    (if bool_decide (action ∈ ["off"; "reboot"]) then set_power_status_off fuel connection
     else set_power_status_on fuel connection) ;;
    action ← opt_str "--action";
    log DEBUG ("set action passed: " +:+ action) ;;
    sys_exit 0.

(** The domains of the hosts, each with the host it was last found at, and the domain that
    was found last. *)
Definition domain_of (acc : list (string * string) * option string) (service : nova_service)
    : M D (list (string * string) * option string) :=
  let '(domains, last_domain) := acc in
  let shorthost := short_host (sv_host service) in
  let calculated := if decide (shorthost = sv_host service) then ""
                    else replace (shorthost +:+ ".") "" (sv_host service) in
  if decide (last_domain = Some calculated) then
    log DEBUG ("Calculated the same domain from: " +:+ sv_host service) ;; mret acc
  else
    domain ← opt_find "--domain";
    match domain with
    | Some v =>
        mwhen (negb (bool_decide (v = VStr calculated)))
          (log WARNING ("Supplied domain '" +:+ py_str v +:+ "' does not match the one calculated from: " +:+
                        sv_host service))
    | None => mret tt
    end ;;
    mret (dict_insert calculated (sv_host service) domains, Some calculated).

Definition fix_domain (connection : bool) : M D (option string) :=
  '(domains, last_domain) ←
    (if connection then
       services ← nova_call (services_list None); mfold domain_of ([], None) services
     else mret ([], None));
  given ← opt_find "--domain";
  match domains, given with
  | [], None => log ERROR "Could not calculate the domain names used by compute nodes in nova"
  | [_], None => opt_set "--domain" (VStr (default "" last_domain))
  | [(_, host)], Some domain =>
      mwhen (negb (bool_decide (Some domain = VStr <$> last_domain)))
        (log ERROR ("Overriding supplied domain '" +:+ py_str domain +:+
                    "' as it does not match the one calculated from: " +:+ host) ;;
         opt_set "--domain" (VStr (default "" last_domain)))
  | _ :: _ :: _, _ =>
      domain ← opt_show "--domain";
      log ERROR ("The supplied domain '" +:+ domain +:+ "' did not match any used inside nova: " +:+
                 text_dict_repr domains) ;;
      sys_exit 1
  | [], Some _ => mret tt
  end ;;
  mret last_domain.

Definition fix_plug_name (connection : bool) : M D unit :=
  action ← opt_get "--action";
  given ← opt_has "--plug";
  if bool_decide (action = VStr "list") || negb given then mret tt
  else
    calculated ← fix_domain connection;
    domain ← opt_find "--domain";
    match calculated, domain with
    | Some calculated, Some domain =>
        plug ← opt_str "--plug";
        let short_plug := short_host plug in
        log DEBUG ("Checking target '" +:+ plug +:+ "' against calculated domain '" +:+ calculated +:+ "'") ;;
        domain ← as_str domain;
        if decide (domain = "") then opt_set "--plug" (VStr short_plug)
        else if endswith domain plug then mret tt
        else opt_set "--plug" (VStr (short_plug +:+ "." +:+ domain))
    | _, _ => mret tt
    end.

(** The status is read so many times, a second apart. *)
Fixpoint poll_status (left : nat) (get_power_fn : M D pyval) : M D bool :=
  match left with
  | O => mret false
  | S k =>
      status ← get_power_fn;
      action ← opt_get "--action";
      if decide (status = action) then mret true else sleep 1 ;; poll_status k get_power_fn
  end.

Fixpoint compute_set_multi (left : nat) (set_power_fn : M D unit) (get_power_fn : M D pyval) : M D bool :=
  match left with
  | O => mret false
  | S k =>
      set_power_fn ;;
      power_wait ← opt_int "--power-wait";
      sleep power_wait ;;
      power_timeout ← opt_int "--power-timeout";
      reached ← poll_status (Z.to_nat power_timeout) get_power_fn;
      if (reached : bool) then mret true else compute_set_multi k set_power_fn get_power_fn
  end.

Definition compute_action (fuel : nat) (connection : bool) : M D Z :=
  let set := compute_set_power_status fuel connection in
  let get := get_power_status_simple connection in
  action ← opt_get "--action";
  if bool_decide (action ∈ [VStr "off"; VStr "on"]) then
    retry_on ← opt_int "--retry-on";
    reached ← compute_set_multi (Z.to_nat (1 + retry_on)) set get;
    action ← opt_str "--action";
    log DEBUG ("Result for " +:+ action +:+ ": " +:+ (if (reached : bool) then "False" else "True")) ;;
    mret (if (reached : bool) then 0%Z else 1%Z)
  else
    result ← (if decide (action = VStr "monitor") then mret 0%Z
              else fence_action fuel (Some set) (Some get) (Some (nova_plugs_list connection)) None None);
    action ← opt_str "--action";
    log DEBUG ("Result for " +:+ action +:+ ": " +:+ str_of_Z result) ;;
    mret result.
End Compute.

(** ** fence_evacuate *)

Section Evacuate.
Context {D : Type} `{Nova D}.

Definition EVACUABLE_TAG : string := "evacuable".
Definition TRUE_TAGS : list string := ["true"].

Definition true_tag (tag : option string) : bool :=
  match tag with Some t => py_in (lower (strip t)) TRUE_TAGS | None => false end.

Definition evacuate_get_power_status (connection : bool) : M D string :=
  host_status connection (λ service,
    log DEBUG ("Status of " +:+ sv_binary service +:+ " is " +:+ sv_state service +:+ ", " +:+ sv_status service)).

(** The answer to one evacuation: accepted, and a reason. *)
Definition server_evacuate (server : string) (on_shared_storage : bool) : M D (bool * string) :=
  except_Exception
    (log DEBUG ("Resurrecting instance: " +:+ server) ;;
     response ← nova_call (servers_evacuate server on_shared_storage);
     mret match response with
          | None => (false, "No response while evacuating instance")
          | Some (status_code, reason) => (bool_decide (status_code = 200%Z), reason)
          end)
    (λ e, mret (false, "Error while evacuating instance: " +:+ exn_str e)).

(** A text for [+]; [None] is a TypeError. *)
Definition given_text (o : option string) : M D string :=
  match o with
  | Some s => mret s
  | None => raise (TypeError ("can only concatenate str (not " +:+ dq +:+ "NoneType" +:+ dq +:+ ") to str"))
  end.

Definition is_server_evacuable (evac_flavors evac_images : list string) (server : nova_server) : M D bool :=
  flavor ← given_text (sr_flavor server);
  let reason := "flavor " +:+ flavor in
  if py_in flavor evac_flavors then mret true
  else
    match sr_image server with
    | Some id =>
        if match id with Some i => py_in i evac_images | None => false end then mret true
        else
          image ← given_text id;
          log DEBUG ("Instance is not evacuable: no match for " +:+ reason +:+ " and image " +:+ image) ;;
          mret false
    | None => log DEBUG ("Instance is not evacuable: no match for " +:+ reason) ;; mret false
    end.

Definition get_evacuable_flavors : M D (list string) :=
  flavors ← nova_call flavors_list;
  mfold (λ result flavor,
    tag ← nova_call (flavor_tag flavor);
    mret (if true_tag tag then result ++ [flavor] else result)%list) [] flavors.

Definition get_evacuable_images : M D (list string) :=
  images ← nova_call images_list;
  mret (omap (λ image,
    match image with
    | ImageMetadata id tag => if true_tag tag then Some id else None
    | ImageTags id tags => if py_in EVACUABLE_TAG tags then Some id else None
    | ImagePlain => None
    end) images).

Definition servers_repr (l : list nova_server) : string := "[" +:+ join ", " (map sr_text l) +:+ "]".

(** The servers that are to go *)
Definition evacuables (images flavors : list string) (servers : list nova_server) : M D (list nova_server) :=
  filtering ← opt_get "--instance-filtering";
  if decide (filtering = VStr "False") then log DEBUG "Not evacuating anything" ;; mret []
  else
    match flavors, images with
    | [], [] => log DEBUG "Evacuating all images and flavors" ;; mret servers
    | _, _ =>
        log DEBUG ("Filtering images and flavors: " +:+ strs flavors +:+ " " +:+ strs images) ;;
        log DEBUG ("Checking " +:+ servers_repr servers) ;;
        l ← mfold (λ l server,
              ok ← is_server_evacuable flavors images server; mret (if (ok : bool) then l ++ [server] else l)%list)
              [] servers;
        log DEBUG ("Evacuating " +:+ servers_repr l) ;;
        mret l
    end.

Definition evacuate_server (on_shared_storage : bool) (result : bool) (server : nova_server) : M D bool :=
  log DEBUG ("Processing " +:+ sr_text server) ;;
  match sr_id server with
  | None => log ERROR ("Could not evacuate instance: " +:+ sr_dict server) ;; mret result
  | Some id =>
      '(accepted, reason) ← server_evacuate id on_shared_storage;
      plug ← opt_show "--plug";
      if (accepted : bool) then
        log DEBUG ("Evacuated " +:+ id +:+ " from " +:+ plug +:+ ": " +:+ reason) ;; mret result
      else
        log ERROR ("Evacuation of " +:+ id +:+ " on " +:+ plug +:+ " failed: " +:+ reason) ;; mret false
  end.

Definition host_evacuate : M D bool :=
  images ← get_evacuable_images;
  flavors ← get_evacuable_flavors;
  plug ← opt_str "--plug";
  servers ← nova_call (servers_list plug);
  l ← evacuables images flavors servers;
  no_shared_storage ← opt_get "--no-shared-storage";
  mfold (evacuate_server (bool_decide (no_shared_storage = VStr "False"))) true l.

(** For off the call lacks an argument. *)
Definition evacuate_set_power_status (connection : bool) : M D unit :=
  action ← opt_str "--action";
  log DEBUG ("set action: " +:+ action) ;;
  if negb connection then mret tt
  else
    mwhen (bool_decide (action = "off"))
      (raise (TypeError "_host_evacuate() missing 1 required positional argument: 'options'")) ;;
    sys_exit 0.

Definition evacuate_plug (connection : bool) : M D unit :=
  status ← evacuate_get_power_status connection;
  plug ← opt_show "--plug";
  mwhen (negb (bool_decide (status = "off")))
    (log ERROR ("Cannot resurrect instances from " +:+ plug +:+ " in state '" +:+ status +:+ "'") ;; sys_exit 1) ;;
  ok ← host_evacuate;
  mwhen (negb ok) (log ERROR ("Resurrection of instances from " +:+ plug +:+ " failed") ;; sys_exit 1) ;;
  log INFO ("Resurrection of instances from " +:+ plug +:+ " complete") ;;
  sys_exit 0.
End Evacuate.

(** ** Options and the programs *)

Definition compute_opts : list (string * optdef) := [
  ("endpoint_type", opt [Getopt "e:";
     Longopt "endpoint-type";
     Help "-e, --endpoint-type=[endpoint] Nova Endpoint type (publicURL, internalURL, adminURL)";
     Required "0";
     Shortdesc "Nova Endpoint type";
     Default (VStr "internalURL");
     Order 1]);
  ("tenant_name", opt [Getopt "t:";
     Longopt "tenant-name";
     Help "-t, --tenant-name=[name]       Keystone v2 Tenant or v3 Project Name";
     Required "0";
     Shortdesc "Keystone Admin Tenant or v3 Project";
     Default (VStr "");
     Order 1]);
  ("user-domain", opt [Getopt "u:";
     Longopt "user-domain";
     Help "-u, --user-domain=[name]       Keystone v3 User Domain";
     Required "0";
     Shortdesc "Keystone v3 User Domain";
     Default (VStr "Default");
     Order 2]);
  ("project-domain", opt [Getopt "P:";
     Longopt "project-domain";
     Help "-P, --project-domain=[name]    Keystone v3 Project Domain";
     Required "0";
     Shortdesc "Keystone v3 Project Domain";
     Default (VStr "Default");
     Order 2]);
  ("auth_url", opt [Getopt "k:";
     Longopt "auth-url";
     Help "-k, --auth-url=[url]           Keystone Admin Auth URL";
     Required "0";
     Shortdesc "Keystone Admin Auth URL";
     Default (VStr "");
     Order 1]);
  ("region_name", opt [Getopt ":";
     Longopt "region-name";
     Help "--region-name=[region]         Region Name";
     Required "0";
     Shortdesc "Region Name";
     Default (VStr "");
     Order 1]);
  ("insecure", opt [Getopt "";
     Longopt "insecure";
     Help ("--insecure                     Explicitly allow agent to perform " +:+ dq +:+ "insecure" +:+ dq +:+ " TLS (https) requests");
     Required "0";
     Shortdesc "Allow Insecure TLS Requests";
     Order 2]);
  ("domain", opt [Getopt "d:";
     Longopt "domain";
     Help "-d, --domain=[string]          DNS domain in which hosts live, useful when the cluster uses short names and nova uses FQDN";
     Required "0";
     Shortdesc "DNS domain in which hosts live";
     Order 5]);
  ("record_only", opt [Getopt "r:";
     Longopt "record-only";
     Help "--record-only                  Record the target as needing evacuation but as yet do not intiate it";
     Required "0";
     Shortdesc "Only record the target as needing evacuation";
     Default (VStr "False");
     Order 5]);
  ("instance_filtering", opt [Getopt "";
     Longopt "instance-filtering";
     Help "--instance-filtering           Allow instances created from images and flavors with evacuable=true to be evacuated (or all if no images/flavors have been tagged)";
     Required "0";
     Shortdesc "Allow instances to be evacuated";
     Default (VStr "True");
     Order 5]);
  ("no_shared_storage", opt [Getopt "";
     Longopt "no-shared-storage";
     Help "--no-shared-storage            Disable functionality for shared storage";
     Required "0";
     Shortdesc "Disable functionality for dealing with shared storage";
     Default (VStr "False");
     Order 5]);
  ("compute-domain", opt [Getopt ":";
     Longopt "compute-domain";
     Help "--compute-domain=[string]      Replaced by --domain";
     Required "0";
     Shortdesc "Replaced by domain";
     Order 6])
].

Definition evacuate_opts : list (string * optdef) := [
  ("endpoint_type", opt [Getopt "e:";
     Longopt "endpoint-type";
     Help "-e, --endpoint-type=[endpoint] Nova Endpoint type (publicURL, internalURL, adminURL)";
     Required "0";
     Shortdesc "Nova Endpoint type";
     Default (VStr "internalURL");
     Order 1]);
  ("tenant_name", opt [Getopt "t:";
     Longopt "tenant-name";
     Help "-t, --tenant-name=[name]       Keystone v2 Tenant or v3 Project Name";
     Required "0";
     Shortdesc "Keystone Admin Tenant or v3 Project";
     Default (VStr "");
     Order 1]);
  ("user-domain", opt [Getopt "u:";
     Longopt "user-domain";
     Help "-u, --user-domain=[name]       Keystone v3 User Domain";
     Required "0";
     Shortdesc "Keystone v3 User Domain";
     Default (VStr "Default");
     Order 2]);
  ("project-domain", opt [Getopt "P:";
     Longopt "project-domain";
     Help "-P, --project-domain=[name]    Keystone v3 Project Domain";
     Required "0";
     Shortdesc "Keystone v3 Project Domain";
     Default (VStr "Default");
     Order 2]);
  ("auth_url", opt [Getopt "k:";
     Longopt "auth-url";
     Help "-k, --auth-url=[url]                   Keystone Admin Auth URL";
     Required "0";
     Shortdesc "Keystone Admin Auth URL";
     Default (VStr "");
     Order 1]);
  ("region_name", opt [Getopt ":";
     Longopt "region-name";
     Help "--region-name=[region]                 Region Name";
     Required "0";
     Shortdesc "Region Name";
     Default (VStr "");
     Order 1]);
  ("insecure", opt [Getopt "";
     Longopt "insecure";
     Help ("--insecure                                     Explicitly allow agent to perform " +:+ dq +:+ "insecure" +:+ dq +:+ " TLS (https) requests");
     Required "0";
     Shortdesc "Allow Insecure TLS Requests";
     Order 2]);
  ("domain", opt [Getopt "d:";
     Longopt "domain";
     Help "-d, --domain=[string]                  DNS domain in which hosts live, useful when the cluster uses short names and nova uses FQDN";
     Required "0";
     Shortdesc "DNS domain in which hosts live";
     Order 5]);
  ("instance_filtering", opt [Getopt "";
     Longopt "instance-filtering";
     Help "--instance-filtering                   Allow instances created from images and flavors with evacuable=true to be evacuated (or all if no images/flavors have been tagged)";
     Required "0";
     Shortdesc "Allow instances to be evacuated";
     Default (VStr "True");
     Order 5]);
  ("no_shared_storage", opt [Getopt "";
     Longopt "no-shared-storage";
     Help "--no-shared-storage            Disable functionality for shared storage";
     Required "0";
     Shortdesc "Disable functionality for dealing with shared storage";
     Default (VStr "False");
     Order 5]);
  ("compute-domain", opt [Getopt ":";
     Longopt "compute-domain";
     Help "--compute-domain=[string]      Replaced by --domain";
     Required "0";
     Shortdesc "Replaced by domain";
     Order 6])
].

Definition compute_docs : docs := Docs
  "Used to tell Nova that compute nodes are down and to reschedule flagged instances"
  "Fence agent for the automatic resurrection of OpenStack compute instances" (Some "") [] None.

Definition evacuate_docs : docs := Docs "Used to reschedule flagged instances"
  "Fence agent for the automatic resurrection of OpenStack compute instances" (Some "") [] None.

Definition compute_device_opt : list string :=
  ["login"; "passwd"; "tenant_name"; "auth_url"; "fabric_fencing"; "no_login"; "no_password"; "port";
   "domain"; "compute-domain"; "project-domain"; "user-domain"; "no_shared_storage"; "endpoint_type";
   "record_only"; "instance_filtering"; "insecure"; "region_name"].

Definition evacuate_device_opt : list string :=
  ["login"; "passwd"; "tenant_name"; "auth_url"; "no_login"; "no_password"; "port"; "domain";
   "compute-domain"; "project-domain"; "user-domain"; "no_shared_storage"; "endpoint_type";
   "instance_filtering"; "insecure"; "region_name"].

Section Main.
Context {D : Type} `{Host D, Nova D}.

(** The warnings of urllib3 are left out. *)
Definition fence_compute_main (fuel : nat) (time_start : Z) (inv : invocation)
    (set_order : list string → list string) : M D unit :=
  add_options compute_opts ;;
  allopt_set "shell_timeout" (Default (VStr "180")) ;;
  checked_options inv compute_device_opt ;;
  show_docs (inv_prog inv) set_order (Some compute_docs) ;;
  record_only ← opt_get "--record-only";
  mwhen (bool_decide (record_only ∈ [VStr "2"; VStr "Disabled"; VStr "disabled"])) (sys_exit 0) ;;
  run_delay time_start 0 0 ;;
  compute_domain ;;
  action ← opt_str "--action";
  log DEBUG ("Running " +:+ action) ;;
  connection ← create_nova_connection;
  mwhen (bool_decide (action ∈ ["off"; "on"; "reboot"; "status"])) (fix_plug_name connection) ;;
  action ← opt_get "--action";
  mwhen (bool_decide (action = VStr "reboot")) (opt_set "--action" (VStr "off")) ;;
  result ← compute_action fuel connection;
  sys_exit result.

Definition fence_evacuate_main (fuel : nat) (time_start : Z) (inv : invocation)
    (set_order : list string → list string) : M D unit :=
  add_options evacuate_opts ;;
  allopt_set "shell_timeout" (Default (VStr "180")) ;;
  checked_options inv evacuate_device_opt ;;
  show_docs (inv_prog inv) set_order (Some evacuate_docs) ;;
  run_delay time_start 0 0 ;;
  compute_domain ;;
  connection ← create_nova_connection;
  action ← opt_show "--action";
  mwhen (bool_decide (action = "on"))
    (log ERROR ("Action " +:+ action +:+ " is not supported by this agent") ;; sys_exit 1) ;;
  mwhen (bool_decide (action ∈ ["off"; "reboot"])) (evacuate_plug connection) ;;
  result ← fence_action fuel (Some (evacuate_set_power_status connection))
             (Some (status ← evacuate_get_power_status connection; mret (VStr status)))
             (Some (nova_plugs_list connection)) None None;
  sys_exit result.
End Main.
