(* ===== verification/Azure.v ===== *)
(** * Azure: the library and fence_azure_arm

    [lib/azure_fence.py.py] and [agents/azure_arm/fence_azure_arm.py]: resource ids, the
    subnet that fences, moving the interfaces of a machine into it and back, credentials and
    clients, and the agent. The packages of Azure are a class. *)

From S2P Require Import Prelude PyStr PyRe OptionDefs Effects Fail Host Input Process CheckInput.
From S2P Require Import Login Metadata Action SnmpAgents Console Ipmilan MenuAgents TableAgents Json Globals Http.
From S2P Require Import WebAgents Sessions Ibmz Nova.

Local Open Scope string_scope.

Definition FENCE_SUBNET_NAME : string := "fence-subnet".
Definition FENCE_INBOUND_RULE_NAME : string := "FENCE_DENY_ALL_INBOUND".
Definition FENCE_INBOUND_RULE_DIRECTION : string := "Inbound".
Definition FENCE_OUTBOUND_RULE_NAME : string := "FENCE_DENY_ALL_OUTBOUND".
Definition FENCE_OUTBOUND_RULE_DIRECTION : string := "Outbound".
Definition FENCE_STATE_OFF : string := "off".
Definition FENCE_STATE_ON : string := "on".
Definition FENCE_TAG_SUBNET_ID : string := "FENCE_TAG_SUBNET_ID".
Definition FENCE_TAG_IP_TYPE : string := "FENCE_TAG_IP_TYPE".
Definition FENCE_TAG_IP : string := "FENCE_TAG_IP".
Definition IP_TYPE_DYNAMIC : string := "Dynamic".
Definition MAX_RETRY : nat := 10.
Definition RETRY_WAIT : Z := 5.
Definition NETWORK_MGMT_CLIENT_API_VERSION : string := "2021-05-01".
Definition AZURE_RHEL8_COMPUTE_VERSION : string := "27.2.0".
Definition AZURE_COMPUTE_VERSION_5 : string := "5.0.0".

(** ** The objects of the packages *)

(** An exception: its class and its message. *)
Definition azure_error : Type := string * string.

Record azure_subnet := AzSubnet {
  sn_id : string;
  sn_name : string;
  sn_security_group : option string      (* the id of its network security group *)
}.

Record ip_config := IpConfig {
  ic_name : string;
  ic_subnet : azure_subnet;
  ic_method : string;                    (* private_ip_allocation_method *)
  ic_address : option string             (* private_ip_address *)
}.

Definition nic_tags : Type := list (string * option string).

Record azure_nic := AzNic {
  az_nic_id : string;
  az_tags : option nic_tags;
  az_configs : list ip_config
}.

Record security_rule := SecurityRule {
  ru_access : string; ru_direction : string; ru_source_port : string; ru_destination_port : string;
  ru_protocol : string; ru_destination : string; ru_source : string; ru_provisioning : string;
  ru_priority : Z; ru_name : string
}.

(** [vm_nics] are the ids of its interfaces, [vm_statuses] the codes of its instance view. *)
Record azure_vm := AzVm { vm_nics : list string; vm_statuses : list string }.

Inductive credentials :=
| ManagedIdentity (authority : string)
| MsiAuthentication (cloud : string)
| ClientSecret (client_id client_secret tenant_id : pyval) (authority : string)
| ServicePrincipal (client_id secret tenant : pyval) (cloud : string).

(** Where a cloud is found; [ce_cloud] names an environment of the old package. *)
Record cloud_environment := CloudEnv {
  ce_resource_manager : string;
  ce_credential_scopes : list string;
  ce_authority_hosts : string;
  ce_cloud : option string
}.

Record client_args := ClientArgs {
  ca_credentials : credentials;
  ca_subscription : pyval;
  ca_base_url : string;
  ca_profile : option (string * list string);   (* profile and scopes, in new packages *)
  ca_api_version : string
}.

Inductive client_kind := ComputeClient | NetworkClient.

Class Azure (D : Type) := {
  (** The version of azure.mgmt.compute, when it has one. *)
  az_version : option string;
  (** The packages azure.mgmt.compute, azure.mgmt.network, azure.identity, azure.profiles
      and msrestazure *)
  has_compute : bool;
  has_network : bool;
  has_identity : bool;
  has_profiles : bool;
  has_msrestazure : bool;
  az_vm_list : string → D → option azure_error * D;
  (** The names that the listing hands out one by one, up to an error. *)
  az_vm_items : string → D → (list string * option azure_error) * D;
  (** [true] for the call that returns at once (begin_...). *)
  az_power_off : bool → string → string → bool → D → option azure_error * D;
  az_start : bool → string → string → D → option azure_error * D;
  (** [true] for the call with keywords. *)
  az_vm : bool → string → string → D → (azure_error + azure_vm) * D;
  az_nic : option string → option string → D → (azure_error + azure_nic) * D;
  az_vnet : option string → option string → D → (azure_error + list azure_subnet) * D;
  az_security_group : option string → option string → D → (azure_error + list security_rule) * D;
  az_update_nic : option string → option string → azure_nic → D → option azure_error * D;
  (** The document of the metadata service, when it can be read. *)
  az_metadata : D → option json * D;
  (** The status and the text of a GET, or the message of an exception. *)
  az_get : string → D → (string + Z * string) * D;
  authority_host : string → string;              (* AzureAuthorityHosts *)
  (** The directory, resource manager and resource id of a cloud of msrestazure. *)
  old_cloud : string → string * string * string;
  stack_cloud : pyval → D → (azure_error + (string * string * string)) * D;
  compute_api_version : azure_error + string;
  default_api_version : string;
  az_client : client_kind → client_args → D → option azure_error * D;
  show_subnet : azure_subnet → string;
  az_float : string → string
}.

Section Calls.
Context {D : Type}.

Definition azure_exn (e : azure_error) : exn :=
  if decide (e.1 = "TypeError") then TypeError e.2 else CustomError e.1 e.2.

Definition azure_call {A} (f : D → (azure_error + A) * D) : M D A := λ s,
  match f (s_dev s) with
  | (inl e, d) => (Raise (azure_exn e), set_dev d s)
  | (inr a, d) => (Ret a, set_dev d s)
  end.

Definition azure_do (f : D → option azure_error * D) : M D unit := λ s,
  match f (s_dev s) with
  | (Some e, d) => (Raise (azure_exn e), set_dev d s)
  | (None, d) => (Ret tt, set_dev d s)
  end.

Definition import_error {A} (package : string) : M D A :=
  raise (CustomError "ImportError" ("No module named '" +:+ package +:+ "'")).

(** [fail_usage(message)] where a value is expected *)
Definition usage_fails {A} (message : string) : M D A := fail_usage message true ;; unassigned "result".

(** [%s] of a text that may be [None] *)
Definition show_opt (x : option string) : string := default "None" x.
End Calls.

(** ** Resource ids *)

Record azure_resource := AzResource {
  rs_id : string;
  rs_subscription : option string;
  rs_group : option string;              (* ResourceGroupName *)
  rs_name : option string;               (* ResourceName *)
  rs_sub : list (string * string)        (* type and name of the SubResources *)
}.

Definition not_slash : re := Many (Chr (λ c, negb (bool_decide (c = "/"%char)))).

(** A subscription and a resource group, a provider with a name, and pairs of a type and a name *)
Definition resource_re : re :=
  Seqs [Group 1 (Seqs [Lit "/subscriptions/"; Group 2 not_slash; Lit "/resourceGroups/"; Group 3 not_slash]);
        Opt (Group 4 (Seqs [Lit "/providers/"; Group 5 (Seqs [not_slash; Lit "/"; not_slash]); Lit "/";
                            Group 6 not_slash]));
        Group 7 (Many (Group 8 (Seqs [Lit "/"; Group 9 not_slash; Lit "/"; Group 10 not_slash])))].

(** The splits after the first, two by two *)
Fixpoint sub_resources (splits : list string) : list (string * string) :=
  match splits with
  | t :: n :: rest => (t, n) :: sub_resources rest
  | _ => []
  end.

(** The groups of the match: 10, those that take no part are [None]. *)
Definition resource_groups (m : rematch) (i : nat) : option string :=
  if decide (i = 0)%nat then Some (m_text m) else group_lookup i (m_groups m).

Definition resource_of (id : string) (m : rematch) : azure_resource :=
  AzResource id (resource_groups m 2) (resource_groups m 3) (resource_groups m 6)
    match resource_groups m 7 with
    | None | Some "" => []
    | Some x => sub_resources (tail (split_go "/" x 0))
    end.

Definition parse_resource (id : string) : option azure_resource := resource_of id <$> re_match resource_re id.

(** What the function writes about a match *)
Definition log_resource {D} (id : string) (m : rematch) : M D unit :=
  log DEBUG ("{get_azure_resource} found 10 matches for " +:+ id) ;;
  mfor (seq 0 10) (λ i,
    log DEBUG ("{get_azure_resource} group " +:+ str_of_Z (Z.of_nat i) +:+ ": " +:+ show_opt (resource_groups m i))) ;;
  let r := resource_of id m in
  log DEBUG ("{get_azure_resource} resource group " +:+ show_opt (rs_group r)) ;;
  log DEBUG ("{get_azure_resource} resource name " +:+ show_opt (rs_name r)) ;;
  match resource_groups m 7 with
  | None | Some "" => mret tt
  | Some x =>
      log DEBUG ("{get_azure_resource} splitting subtypes '" +:+ x +:+ "' (" +:+
                 str_of_Z (Z.of_nat (length (split_go "/" x 0))) +:+ ")") ;;
      mfor (rs_sub r) (λ tn,
        log DEBUG ("{get_azure_resource} creating subresource with type " +:+ tn.1 +:+ " and name " +:+ tn.2))
  end.

Definition get_azure_resource {D} (id : string) : M D azure_resource :=
  match re_match resource_re id with
  | None => usage_fails ("{get_azure_resource} cannot parse resource id " +:+ id)
  | Some m => log_resource id m ;; mret (resource_of id m)
  end.

(** ** Versions *)

(** [tuple(map(int, v.split(".")))] *)
Definition azure_dep_versions {D} (v : string) : M D (list Z) :=
  mfold (λ l x, n ← as_int (VStr x); mret (l ++ [n])%list) [] (split_go "." v 0).

(** [a <= b] of tuples *)
Fixpoint tuple_le (a b : list Z) : bool :=
  match a, b with
  | [], _ => true
  | _ :: _, [] => false
  | x :: a, y :: b => if (x =? y)%Z then tuple_le a b else (x <? y)%Z
  end.

Section Azure.
Context {D : Type} `{Azure D}.

(** ** Machines *)

(** The version of the package, or 0.0.0 *)
Definition compute_version : M D (list Z) := azure_dep_versions (default "0.0.0" az_version).

Definition is_version_5 : M D bool :=
  v ← compute_version; w ← azure_dep_versions AZURE_COMPUTE_VERSION_5; mret (bool_decide (v = w)).

Definition get_vm_list (rgName : string) : M D unit := azure_do (az_vm_list rgName).

Definition do_vm_power_off (rgName vmName : string) (skipShutdown : bool) : M D unit :=
  old ← is_version_5;
  if (old : bool) then
    log DEBUG "{do_vm_power_off} azure.mgtm.compute version is to old to use 'begin_power_off' use 'power_off' function" ;;
    azure_do (az_power_off false rgName vmName skipShutdown)
  else azure_do (az_power_off true rgName vmName skipShutdown).

Definition do_vm_start (rgName vmName : string) : M D unit :=
  old ← is_version_5;
  if (old : bool) then
    log DEBUG "{do_vm_start} azure.mgtm.compute version is to old to use 'begin_start' use 'start' function" ;;
    azure_do (az_start false rgName vmName)
  else azure_do (az_start true rgName vmName).

Definition get_vm_resource (rgName vmName : string) : M D azure_vm :=
  v ← compute_version;
  w ← azure_dep_versions AZURE_RHEL8_COMPUTE_VERSION;
  azure_call (az_vm (negb (tuple_le v w)) rgName vmName).

(** ** The subnet that fences *)

Fixpoint get_subnet (vnet : list azure_subnet) (subnetName : string) : M D (option azure_subnet) :=
  match vnet with
  | [] => mret None
  | avSubnet :: vnet =>
      log DEBUG ("{get_subnet} searching subnet " +:+ subnetName +:+ " testing subnet " +:+ sn_name avSubnet) ;;
      if decide (lower (sn_name avSubnet) = lower subnetName) then
        log DEBUG ("{get_subnet} subnet found " +:+ show_subnet avSubnet) ;; mret (Some avSubnet)
      else get_subnet vnet subnetName
  end.

Definition get_fence_subnet_for_config (ipConfig : ip_config) : M D (option azure_subnet) :=
  subnetResource ← get_azure_resource (sn_id (ic_subnet ipConfig));
  log DEBUG ("{get_fence_subnet_for_config} testing virtual network " +:+ show_opt (rs_name subnetResource) +:+
             " in resource group " +:+ show_opt (rs_group subnetResource) +:+ " for a fence subnet") ;;
  vnet ← azure_call (az_vnet (rs_group subnetResource) (rs_name subnetResource));
  get_subnet vnet FENCE_SUBNET_NAME.

(** A rule that denies everything in a direction *)
Definition denies_all (ruleName direction : string) (rule : security_rule) : bool :=
  bool_decide (ru_access rule = "Deny") && bool_decide (ru_direction rule = direction) &&
  bool_decide (ru_source_port rule = "*") && bool_decide (ru_destination_port rule = "*") &&
  bool_decide (ru_protocol rule = "*") && bool_decide (ru_destination rule = "*") &&
  bool_decide (ru_source rule = "*") && bool_decide (ru_provisioning rule = "Succeeded") &&
  (ru_priority rule =? 100)%Z && bool_decide (ru_name rule = ruleName).

Fixpoint find_rule (ruleName direction : string) (rules : list security_rule) : M D bool :=
  match rules with
  | [] => mret false
  | rule :: rules =>
      log INFO ("{get_rule_for_nsg} Testing a " +:+ ru_direction rule +:+ " securiy rule " +:+ ru_name rule) ;;
      if denies_all ruleName direction rule then
        log INFO ("{get_rule_for_nsg} " +:+ direction +:+ " rule found") ;; mret true
      else find_rule ruleName direction rules
  end.

(** Whether there is such a rule; a group that was read is always set. *)
Definition get_rule_for_nsg (nsg : list security_rule) (ruleName direction : string) : M D bool :=
  log INFO ("{get_rule_for_nsg} Looking for security rule " +:+ ruleName +:+ " with direction " +:+ direction) ;;
  find_rule ruleName direction nsg.

Definition get_inbound_rule_for_nsg (nsg : list security_rule) : M D bool :=
  get_rule_for_nsg nsg FENCE_INBOUND_RULE_NAME FENCE_INBOUND_RULE_DIRECTION.
Definition get_outbound_rule_for_nsg (nsg : list security_rule) : M D bool :=
  get_rule_for_nsg nsg FENCE_OUTBOUND_RULE_NAME FENCE_OUTBOUND_RULE_DIRECTION.

Definition test_fence_subnet (fenceSubnet : option azure_subnet) (nic : azure_nic) : M D bool :=
  log INFO "{test_fence_subnet}" ;;
  match fenceSubnet with
  | None =>
      log INFO ("{test_fence_subnet} No fence subnet found for virtual network of network interface " +:+ az_nic_id nic) ;;
      mret false
  | Some subnet =>
      match sn_security_group subnet with
      | None =>
          log INFO ("{test_fence_subnet} Fence subnet " +:+ sn_id subnet +:+ " has not network security group") ;;
          mret false
      | Some group =>
          nsgResource ← get_azure_resource group;
          let name := show_opt (rs_name nsgResource) in
          log INFO ("{test_fence_subnet} Getting network security group " +:+ name +:+ " in resource group " +:+
                    show_opt (rs_group nsgResource)) ;;
          nsg ← azure_call (az_security_group (rs_group nsgResource) (rs_name nsgResource));
          inboundRule ← get_inbound_rule_for_nsg nsg;
          outboundRule ← get_outbound_rule_for_nsg nsg;
          let missing (what : string) :=
            log INFO ("{test_fence_subnet} Network Securiy Group " +:+ name +:+ " of fence subnet " +:+ sn_id subnet +:+
                      " has no " +:+ what +:+ " security rule that blocks all traffic") ;; mret false in
          if negb outboundRule then missing "outbound"
          else if negb inboundRule then missing "inbound"
          else mret true
      end
  end.

(** ** The state of the network *)

(** Is the configuration in a subnet that fences? *)
Definition config_fenced (nic : azure_nic) (ipConfig : ip_config) : M D bool :=
  log INFO ("{get_network_state} Testing ip configuration " +:+ ic_name ipConfig) ;;
  fenceSubnet ← get_fence_subnet_for_config ipConfig;
  testOk ← test_fence_subnet fenceSubnet nic;
  match fenceSubnet with
  | Some subnet =>
      if negb testOk then mret false
      else if decide (lower (sn_id subnet) = lower (sn_id (ic_subnet ipConfig))) then mret true
      else
        log INFO ("{get_network_state} IP configuration " +:+ ic_name ipConfig +:+ " is not in fence subnet (ip subnet: " +:+
                  lower (sn_id (ic_subnet ipConfig)) +:+ ", fence subnet: " +:+ lower (sn_id subnet) +:+ ")") ;;
        mret false
  | None => mret false
  end.

Definition read_nic_of (nicRef : string) : M D (azure_resource * azure_nic) :=
  nicresource ← get_azure_resource nicRef;
  nic ← azure_call (az_nic (rs_group nicresource) (rs_name nicresource));
  mret (nicresource, nic).

Definition nic_fenced (allNICOK : bool) (nicRef : string) : M D bool :=
  '(_, nic) ← read_nic_of nicRef;
  mfold (λ ok ipConfig, b ← config_fenced nic ipConfig; mret (ok && b)) allNICOK (az_configs nic).

Definition get_network_state (rgName vmName : string) : M D string :=
  except_Exception
    (vm ← get_vm_resource rgName vmName;
     allNICOK ← mfold nic_fenced true (vm_nics vm);
     if (allNICOK : bool) then
       log INFO "{get_network_state} All IP configurations of all network interfaces are in the fence subnet. Declaring VM as off" ;;
       mret FENCE_STATE_OFF
     else mret FENCE_STATE_ON)
    (λ e, usage_fails ("{get_network_state} Failed: " +:+ exn_str e)).

(** ** Moving the interfaces of a machine *)

Definition tag_name (tag : string) (ipConfig : ip_config) : string := tag +:+ "_" +:+ ic_name ipConfig.

(** [not nic.tags] *)
Definition no_tags (tags : option nic_tags) : bool := match tags with None | Some [] => true | _ => false end.

(** A configuration goes into the subnet that fences; its tags say where it was. *)
Definition block_config (nic : azure_nic) (tags : option nic_tags) (ipConfig : ip_config)
    : M D (option nic_tags * ip_config) :=
  fenceSubnet ← get_fence_subnet_for_config ipConfig;
  testOk ← test_fence_subnet fenceSubnet nic;
  if negb testOk then
    usage_fails ("{set_network_state} Network interface id " +:+ az_nic_id nic +:+
                 " does not have a network security group.")
  else
    log INFO ("{set_network_state} Changing subnet of ip config of nic " +:+ az_nic_id nic) ;;
    match fenceSubnet, tags with
    | Some subnet, Some l =>
        let l := dict_insert (tag_name FENCE_TAG_SUBNET_ID ipConfig) (Some (sn_id (ic_subnet ipConfig))) l in
        let l := dict_insert (tag_name FENCE_TAG_IP_TYPE ipConfig) (Some (ic_method ipConfig)) l in
        let l := dict_insert (tag_name FENCE_TAG_IP ipConfig) (ic_address ipConfig) l in
        mret (Some l, IpConfig (ic_name ipConfig) subnet IP_TYPE_DYNAMIC (ic_address ipConfig))
    | _, _ => raise (TypeError "'NoneType' object does not support item assignment")
    end.

(** [tags.pop(k)] *)
Definition pop_tag (k : string) (tags : nic_tags) : M D (option string * nic_tags) :=
  match dict_get k tags with
  | Some v => mret (v, filter (λ kv, kv.1 ≠ k) tags)
  | None => raise (KeyError k)
  end.

Definition tag_given (x : option string) : bool := match x with None | Some "" => false | Some _ => true end.

(** It goes back to where its tags say, and loses them. *)
Definition unblock_config (tags : option nic_tags) (ipConfig : ip_config) : M D (option nic_tags * ip_config) :=
  if no_tags tags then
    usage_fails ("{set_network_state} IP configuration " +:+ ic_name ipConfig +:+
                 " is missing the required resource tags (empty)")
  else
    '(subnetId, l) ← pop_tag (tag_name FENCE_TAG_SUBNET_ID ipConfig) (default [] tags);
    '(ipType, l) ← pop_tag (tag_name FENCE_TAG_IP_TYPE ipConfig) l;
    '(ipAddress, l) ← pop_tag (tag_name FENCE_TAG_IP ipConfig) l;
    let shown := "subnetId: " +:+ show_opt subnetId +:+ ", ipType: " +:+ show_opt ipType +:+ ", ipAddress: " +:+
                 show_opt ipAddress +:+ ")" in
    if tag_given subnetId && tag_given ipType &&
       (tag_given ipAddress || bool_decide (lower (default "" ipType) = lower IP_TYPE_DYNAMIC)) then
      log INFO ("{set_network_state} tags found (" +:+ shown) ;;
      subnetResource ← get_azure_resource (default "" subnetId);
      vnet ← azure_call (az_vnet (rs_group subnetResource) (rs_name subnetResource));
      log INFO ("{set_network_state} looking for subnet " +:+ str_of_Z (Z.of_nat (length (rs_sub subnetResource)))) ;;
      sub ← list_item (rs_sub subnetResource) 0;
      oldSubnet ← get_subnet vnet sub.2;
      match oldSubnet with
      | None => usage_fails ("{set_network_state} subnet " +:+ default "" subnetId +:+ " not found")
      | Some subnet =>
          mret (Some l, IpConfig (ic_name ipConfig) subnet (default "" ipType)
                          (if tag_given ipAddress then ipAddress else ic_address ipConfig))
      end
    else
      usage_fails ("{set_network_state} IP configuration " +:+ ic_name ipConfig +:+
                   " is missing the required resource tags(" +:+ shown).

Definition change_config (operation : string) (nic : azure_nic) (acc : option nic_tags * list ip_config)
    (ipConfig : ip_config) : M D (option nic_tags * list ip_config) :=
  let '(tags, done) := acc in
  '(tags, c) ←
    (if decide (operation = "block") then block_config nic tags ipConfig
     else if decide (operation = "unblock") then unblock_config tags ipConfig
     else mret (tags, ipConfig));
  mret (tags, (done ++ [c])%list).

(** One attempt on an interface: read, changed, and written back as a whole. *)
Definition move_nic (operation nicRef : string) : M D unit :=
  '(nicresource, nic) ← read_nic_of nicRef;
  let tags := if no_tags (az_tags nic) && bool_decide (operation = "block") then Some [] else az_tags nic in
  log INFO "{set_network_state} Searching for tags required to unfence this virtual machine" ;;
  '(tags, configs) ← mfold (change_config operation nic) (tags, []) (az_configs nic);
  log INFO ("{set_network_state} updating nic " +:+ az_nic_id nic) ;;
  azure_do (az_update_nic (rs_group nicresource) (rs_name nicresource) (AzNic (az_nic_id nic) tags configs)).

(** The attempts that are left, by their numbers. A CloudError is tried again after a while;
    its comparison in lower case is never true. Any other exception ends the attempts. *)
Fixpoint move_attempts (operation nicRef : string) (attempts : list nat) : M D unit :=
  match attempts with
  | [] => mret tt
  | attempt :: attempts =>
      try_except (move_nic operation nicRef)
        (λ e,
           match e with
           | CustomError "CloudError" cex =>
               Some (log ERROR ("{set_network_state} CloudError in attempt " +:+ str_of_Z (Z.of_nat attempt) +:+ " '" +:+
                                cex +:+ "'") ;;
                     sleep RETRY_WAIT ;;
                     move_attempts operation nicRef attempts)
           | SystemExit _ => None
           | _ => Some (log ERROR ("{set_network_state} Exception of type " +:+ exn_class e +:+ ": " +:+ exn_str e))
           end)
  end.

Definition set_network_state (rgName vmName operation : string) : M D unit :=
  mwhen (negb has_msrestazure) (import_error "msrestazure") ;;
  log INFO ("{set_network_state} Setting state " +:+ operation +:+ " for  " +:+ vmName +:+ " in resource group " +:+
            rgName) ;;
  vm ← get_vm_resource rgName vmName;
  mfor (vm_nics vm) (λ nicRef, move_attempts operation nicRef (seq 0 MAX_RETRY)).

(** ** Configuration *)

(** A value of the metadata service; any error is [None]. *)
Definition get_from_metadata (parameter : string) : M D pyval :=
  try_except
    (doc ← (λ s, let '(x, d) := az_metadata (s_dev s) in (Ret x, set_dev d s));
     match doc with
     | None => raise (OtherError "")
     | Some v =>
         log DEBUG ("metadata: " +:+ json_str az_float v) ;;
         compute ← json_item v "compute";
         x ← json_item compute parameter;
         mret (VStr (json_str az_float x))
     end)
    (λ _, Some (log WARNING "Not able to use metadata service. Am I running in Azure?" ;; mret VNone)).

Record azure_configuration := AzureConfig {
  cf_group : pyval;
  cf_vm : pyval;
  cf_subscription : pyval;
  cf_cloud : pyval;
  cf_metadata_endpoint : pyval;
  cf_msi : bool;
  cf_tenant : pyval;
  cf_application : pyval;
  cf_key : pyval
}.

(** [options.get(k)] *)
Definition opt_or_none (k : string) : M D pyval := v ← opt_find k; mret (default VNone v).

Definition or_metadata (v : pyval) (what parameter : string) : M D pyval :=
  if truthy v then mret v
  else log INFO (what +:+ " not provided. Using metadata service") ;; get_from_metadata parameter.

Definition get_azure_config : M D azure_configuration :=
  group ← opt_or_none "--resourceGroup";
  vm ← opt_or_none "--plug";
  subscription ← opt_or_none "--subscriptionId";
  cloud ← opt_or_none "--cloud";
  endpoint ← opt_or_none "--metadata-endpoint";
  msi ← opt_has "--msi";
  tenant ← opt_or_none "--tenantId";
  application ← opt_or_none "--username";
  key ← opt_or_none "--password";
  group ← or_metadata group "resourceGroup" "resourceGroupName";
  subscription ← or_metadata subscription "subscriptionId" "subscriptionId";
  mret (AzureConfig group vm subscription cloud endpoint msi tenant application key).

(** ** Clouds *)

(** Any error, and any status but 200, is a TypeError: the message takes two values and is
    given one. *)
Definition get_cloud_from_arm_metadata_endpoint (arm_endpoint : pyval) : M D cloud_environment :=
  except_Exception
    (endpoint ← concat_str arm_endpoint;
     r ← (λ s, let '(x, d) := az_get (endpoint +:+ "/metadata/endpoints?api-version=2015-01-01") (s_dev s) in
               (Ret x, set_dev d s));
     match r with
     | inl msg => raise (OtherError msg)
     | inr (status_code, text) =>
         if decide (status_code = 200%Z) then
           metadata ← loads text;
           graph ← json_get_or metadata "graphEndpoint" JNull;
           scope ← json_concat graph;
           authentication ← json_item metadata "authentication";
           login ← json_get_or authentication "loginEndpoint" JNull;
           match login with
           | JStr host => mret (CloudEnv endpoint [scope +:+ "/.default"] (replace "https://" "" host) None)
           | _ => raise (AttributeError ("'" +:+ json_type login +:+ "' object has no attribute 'replace'"))
           end
         else raise (TypeError "not enough arguments for format string")
     end)
    (λ _, raise (TypeError "not enough arguments for format string")).

Definition get_azure_arm_endpoints (cloudName authority : string) : option cloud_environment :=
  let environment manager scope := Some (CloudEnv manager [scope] authority None) in
  if decide (cloudName = "AZURE_CHINA_CLOUD") then
    environment "https://management.chinacloudapi.cn/" "https://management.chinacloudapi.cn/.default"
  else if decide (cloudName = "AZURE_US_GOV_CLOUD") then
    environment "https://management.usgovcloudapi.net/" "https://management.core.usgovcloudapi.net/.default"
  else if decide (cloudName = "AZURE_PUBLIC_CLOUD") then
    environment "https://management.azure.com/" "https://management.azure.com/.default"
  else None.

(** [config.Cloud], which is public when it is not given. *)
Definition cloud_of (config : azure_configuration) : M D string :=
  match cf_cloud config with VNone => mret "public" | v => x ← as_str v; mret (lower x) end.

Definition subscript_none {A} (v : option A) : M D A :=
  match v with Some a => mret a | None => raise (TypeError "'NoneType' object is not subscriptable") end.

(** An environment of msrestazure: the directory, the resource manager and the resource id *)
Definition old_environment (cloud : string) (endpoints : string * string * string) : cloud_environment :=
  let '(directory, manager, resource_id) := endpoints in
  CloudEnv manager [resource_id +:+ "/.default"] (replace "http://" "" directory) (Some cloud).

Definition get_azure_cloud_environment (config : azure_configuration) : M D cloud_environment :=
  cloud ← cloud_of config;
  if has_identity then
    if decide (cloud = "stack") then get_cloud_from_arm_metadata_endpoint (cf_metadata_endpoint config)
    else
      subscript_none
        (if decide (cloud = "china") then get_azure_arm_endpoints "AZURE_CHINA_CLOUD" (authority_host "AZURE_CHINA")
         else if decide (cloud = "usgov") then
           get_azure_arm_endpoints "AZURE_US_GOV_CLOUD" (authority_host "AZURE_GOVERNMENT")
         else get_azure_arm_endpoints "AZURE_PUBLIC_CLOUD" (authority_host "AZURE_PUBLIC_CLOUD"))
  else if bool_decide (cloud ∈ ["public"; "china"; "germany"; "usgov"; "stack"]) then
    mwhen (negb has_msrestazure) (import_error "msrestazure") ;;
    if decide (cloud = "stack") then
      endpoints ← azure_call (stack_cloud (cf_metadata_endpoint config));
      mret (old_environment cloud endpoints)
    else mret (old_environment cloud (old_cloud cloud))
  else unassigned "cloud_environment".

Definition get_azure_credentials (config : azure_configuration) : M D credentials :=
  environment ← get_azure_cloud_environment config;
  let cloud := default "" (ce_cloud environment) in
  if cf_msi config then
    if has_identity then mret (ManagedIdentity (ce_authority_hosts environment))
    else mwhen (negb has_msrestazure) (import_error "msrestazure") ;; mret (MsiAuthentication cloud)
  else if has_identity then
    mret (ClientSecret (cf_application config) (cf_key config) (cf_tenant config) (ce_authority_hosts environment))
  else mret (ServicePrincipal (cf_application config) (cf_key config) (cf_tenant config) cloud).

(** ** Clients *)

Definition check_endpoint (cloud : string) (config : azure_configuration) : M D unit :=
  mwhen (bool_decide (cloud = "stack") && negb (truthy (cf_metadata_endpoint config)))
    (fail_usage "metadata-endpoint not specified" true).

(** The profile of the installed package *)
Definition client_profile (cloud : string) : M D string :=
  mwhen (negb has_profiles) (import_error "azure.profiles") ;;
  mret (if decide (cloud = "stack") then "v2020_09_01_hybrid" else "default").

(** With the arguments of new packages, and without them when they are a TypeError. *)
Definition open_client (kind : client_kind) (profile : M D string) (environment : cloud_environment)
    (credentials : credentials) (config : azure_configuration) (api_version : string) : M D unit :=
  let args profile := ClientArgs credentials (cf_subscription config) (ce_resource_manager environment) profile api_version in
  try_except
    (client_profile ← profile;
     azure_do (az_client kind (args (Some (client_profile, ce_credential_scopes environment)))))
    (λ e, match e with TypeError _ => Some (azure_do (az_client kind (args None))) | _ => None end).

Definition get_azure_compute_client (config : azure_configuration) : M D unit :=
  mwhen (negb has_compute) (import_error "azure.mgmt.compute") ;;
  environment ← get_azure_cloud_environment config;
  credentials ← get_azure_credentials config;
  api_version ←
    (match compute_api_version with
     | inr v => mret v
     | inl e =>
         log DEBUG ("{get_azure_compute_client} Failed to get the latest profile: " +:+ e.2 +:+
                    " using the default api version " +:+ default_api_version) ;;
         mret default_api_version
     end);
  log DEBUG ("{get_azure_compute_client} use virtual_machine api version: " +:+ api_version) ;;
  cloud ← cloud_of config;
  check_endpoint cloud config ;;
  open_client ComputeClient (client_profile cloud) environment credentials config api_version.

Definition get_azure_network_client (config : azure_configuration) : M D unit :=
  mwhen (negb has_network) (import_error "azure.mgmt.network") ;;
  environment ← get_azure_cloud_environment config;
  credentials ← get_azure_credentials config;
  cloud ← cloud_of config;
  check_endpoint cloud config ;;
  profile ← client_profile cloud;
  open_client NetworkClient (mret profile) environment credentials config NETWORK_MGMT_CLIENT_API_VERSION.
End Azure.

(** ** fence_azure_arm *)

Section Arm.
Context {D : Type} `{Host D, Azure D}.

(** Names as the listing hands them out; [after] is what is done with each. *)
Definition for_vms {B} (rgName : string) (after : B → string → M D B) (b : B) : M D B :=
  '(names, failure) ← (λ s, let '(x, d) := az_vm_items rgName (s_dev s) in (Ret x, set_dev d s));
  b ← mfold after b names;
  match failure with None => mret b | Some e => raise (azure_exn e) end.

Definition azure_get_nodes_list : M D outlets :=
  rgName ← opt_show "--resourceGroup";
  get_vm_list rgName ;;
  except_Exception (for_vms rgName (λ result name, mret (dict_insert name ("", None) result)) [])
    (λ e, usage_fails ("Failed: " +:+ exn_str e)).

Definition vmstate : list (string * string) := [("running", "on"); ("deallocated", "off"); ("stopped", "off")].

(** The part after PowerState/ of the first such status *)
Fixpoint power_state (statuses : list string) : M D string :=
  match statuses with
  | [] => mret "unknown"
  | code :: statuses =>
      if startswith "PowerState" code then list_item (split_go "/" code 0) 1 else power_state statuses
  end.

Definition azure_get_power_status : M D string :=
  vmName ← opt_get "--plug";
  vmName ← concat_str vmName;
  log INFO ("getting power status for VM " +:+ vmName) ;;
  rgName ← opt_show "--resourceGroup";
  network ← opt_has "--network-fencing";
  netState ← (if (network : bool) then
                netState ← get_network_state rgName vmName;
                log INFO ("Found network state of VM: " +:+ netState) ;; mret netState
              else mret FENCE_STATE_ON);
  quickly ← (if (network : bool) then
               action ← opt_get "--action"; mret (bool_decide (action = VStr "off") && bool_decide (netState = "off"))
             else mret false);
  if (quickly : bool) then log INFO ("Network fenced for " +:+ vmName) ;; mret netState
  else
    vmStatus ← except_Exception (get_vm_resource rgName vmName) (λ e, usage_fails ("Failed: " +:+ exn_str e));
    powerState ← power_state (vm_statuses vmStatus);
    let vmState := default "unknown" (dict_get powerState vmstate) in
    log INFO ("Found power state of VM: " +:+ vmState +:+ " (" +:+ powerState +:+ ")") ;;
    if network && bool_decide (netState = "off") then mret "off"
    else
      action ← opt_get "--action";
      mret (if negb (bool_decide (action = VStr "on")) && negb (bool_decide (vmState = "off")) then "on"
            else if decide (vmState = "on") then "on" else "off").

Definition azure_set_power_status : M D unit :=
  plug ← opt_get "--plug";
  vmName ← concat_str plug;
  action ← opt_get "--action";
  action ← concat_str action;
  log INFO ("setting power status for VM " +:+ vmName +:+ " to " +:+ action) ;;
  rgName ← opt_get "--resourceGroup";
  network ← opt_has "--network-fencing";
  mwhen network
    (if decide (action = "off") then
       log INFO ("Fencing network for " +:+ vmName) ;; set_network_state (py_str rgName) vmName "block"
     else if decide (action = "on") then
       log INFO ("Unfencing network for " +:+ vmName) ;; set_network_state (py_str rgName) vmName "unblock"
     else mret tt) ;;
  if decide (action = "off") then
    rgName ← concat_str rgName;
    log INFO ("Poweroff " +:+ vmName +:+ " in resource group " +:+ rgName) ;;
    do_vm_power_off rgName vmName true
  else if decide (action = "on") then
    rgName ← concat_str rgName;
    log INFO ("Starting " +:+ vmName +:+ " in resource group " +:+ rgName) ;;
    do_vm_start rgName vmName
  else mret tt.

(** One machine of the group: unfenced when its network is fenced and it is off. *)
Definition unfence_vm (rgName : string) (_ : unit) (vmName : string) : M D unit :=
  state ← get_network_state rgName vmName;
  mwhen (bool_decide (state = "off"))
    (log INFO ("Found fenced node " +:+ vmName) ;;
     network ← opt_has "--network-fencing";
     mwhen network (opt_del "--network-fencing") ;;
     opt_set "--plug" (VStr vmName) ;;
     status ← azure_get_power_status;
     mwhen (bool_decide (status = "off"))
       (log INFO ("Unfencing " +:+ vmName) ;;
        opt_set "--network-fencing" (VStr "") ;;
        opt_set "--action" (VStr "on") ;;
        azure_set_power_status ;;
        opt_set "--action" (VStr "monitor"))).

Definition check_unfence : M D unit :=
  rgName ← opt_show "--resourceGroup";
  except_Exception (get_vm_list rgName) (λ e, usage_fails ("Failed: " +:+ exn_str e)) ;;
  for_vms rgName (unfence_vm rgName) tt.
Definition azure_opts : list (string * optdef) := [
  ("resourceGroup", opt [Getopt ":";
     Longopt "resourceGroup";
     Help "--resourceGroup=[name]         Name of the resource group";
     Shortdesc "Name of resource group. Metadata service is used if the value is not provided.";
     Required "0";
     Order 2]);
  ("tenantId", opt [Getopt ":";
     Longopt "tenantId";
     Help "--tenantId=[name]              Id of the Azure Active Directory tenant";
     Shortdesc "Id of Azure Active Directory tenant.";
     Required "0";
     Order 3]);
  ("subscriptionId", opt [Getopt ":";
     Longopt "subscriptionId";
     Help "--subscriptionId=[name]        Id of the Azure subscription";
     Shortdesc "Id of the Azure subscription. Metadata service is used if the value is not provided.";
     Required "0";
     Order 4]);
  ("network-fencing", opt [Getopt "";
     Longopt "network-fencing";
     Help ("--network-fencing              Use network fencing. See NOTE-section of" +:+ nl +:+ "                                  metadata for required Subnet/Network Security" +:+ nl +:+ "                                  Group configuration.");
     Shortdesc "Use network fencing. See NOTE-section for configuration.";
     Required "0";
     Order 5]);
  ("msi", opt [Getopt "";
     Longopt "msi";
     Help ("--msi                          Use Managed Service Identity instead of" +:+ nl +:+ "                                  username and password. If specified," +:+ nl +:+ "                                  parameters tenantId, login and passwd are not" +:+ nl +:+ "                                  allowed.");
     Shortdesc "Determines if Managed Service Identity should be used.";
     Required "0";
     Order 6]);
  ("cloud", opt [Getopt ":";
     Longopt "cloud";
     Help ("--cloud=[name]                 Name of the cloud you want to use. Supported" +:+ nl +:+ "                                  values are china, germany, usgov, or stack. Do" +:+ nl +:+ "                                  not use this parameter if you want to use" +:+ nl +:+ "                                  public Azure.");
     Shortdesc "Name of the cloud you want to use.";
     Required "0";
     Order 7]);
  ("metadata-endpoint", opt [Getopt ":";
     Longopt "metadata-endpoint";
     Help "--metadata-endpoint=[URL]      URL to metadata endpoint (used when cloud=stack).";
     Shortdesc "URL to metadata endpoint (used when cloud=stack).";
     Required "0";
     Order 8])
].


Definition azure_docs : docs := Docs
  ("fence_azure_arm is a Power Fencing agent for Azure Resource Manager. It uses Azure SDK for Python to connect to Azure." +:+ nl +:+ ".P" +:+ nl +:+ "For instructions to setup credentials see: https://docs.microsoft.com/en-us/azure/azure-resource-manager/resource-group-create-service-principal-portal" +:+ nl +:+ ".P" +:+ nl +:+ "Username and password are application ID and authentication key from " +:+ dq +:+ "App registrations" +:+ dq +:+ "." +:+ nl +:+ ".P" +:+ nl +:+ "NOTE: NETWORK FENCING" +:+ nl +:+ ".br" +:+ nl +:+ "Network fencing requires an additional Subnet named " +:+ dq +:+ "fence-subnet" +:+ dq +:+ " for the Virtual Network using a Network Security Group with the following rules:" +:+ nl +:+ ".br" +:+ nl +:+ "+-----------+-----+-------------------------+------+------+-----+-----+--------+" +:+ nl +:+ ".br" +:+ nl +:+ "| DIRECTION | PRI | NAME                    | PORT | PROT | SRC | DST | ACTION |" +:+ nl +:+ ".br" +:+ nl +:+ "+-----------+-----+-------------------------+------+------+-----+-----+--------+" +:+ nl +:+ ".br" +:+ nl +:+ "| Inbound   | 100 | FENCE_DENY_ALL_INBOUND  | Any  | Any  | Any | Any | Deny   |" +:+ nl +:+ ".br" +:+ nl +:+ "| Outbound  | 100 | FENCE_DENY_ALL_OUTBOUND | Any  | Any  | Any | Any | Deny   |" +:+ nl +:+ ".br" +:+ nl +:+ "+-----------+-----+-------------------------+------+------+-----+-----+--------+" +:+ nl +:+ ".P" +:+ nl +:+ "When using network fencing the reboot-action will cause a quick-return once the network has been fenced (instead of waiting for the off-action to succeed). It will check the status during the monitor-action, and request power-on when the shutdown operation is complete.")
  ("Fence agent for Azure Resource Manager") (Some ("http://www.microsoft.com")) [] None.


Definition azure_device_opt : list string :=
  ["login"; "no_login"; "no_password"; "passwd"; "port"; "resourceGroup"; "tenantId"; "subscriptionId";
   "network-fencing"; "msi"; "cloud"; "metadata-endpoint"].

(** [re.sub(r"^, ", r"", text)] *)
Definition without_comma (text : string) : string :=
  if startswith ", " text then String.substring 2 (String.length text - 2) text else text.

Definition azure_clients : M D unit :=
  try_except
    (config ← get_azure_config;
     opt_set "--resourceGroup" (cf_group config) ;;
     get_azure_compute_client config ;;
     network ← opt_has "--network-fencing";
     mwhen network (get_azure_network_client config))
    (λ e,
       match e with
       | CustomError "ImportError" _ =>
           Some (fail_usage "Azure Resource Manager Python SDK not found or not accessible" true)
       | SystemExit _ => None
       | _ => Some (fail_usage ("Failed: " +:+ without_comma (exn_str e)) true)
       end).

(** Off returns once the network is fenced; monitor unfences machines that are off. *)
Definition network_fencing_action : M D unit :=
  network ← opt_has "--network-fencing";
  mwhen network
    (action ← opt_get "--action";
     if decide (action = VStr "reboot") then opt_set "--action" (VStr "off")
     else mwhen (bool_decide (action = VStr "monitor")) check_unfence).

Definition fence_azure_arm_main (fuel : nat) (time_start : Z) (inv : invocation)
    (set_order : list string → list string) : M D unit :=
  add_options azure_opts ;;
  allopt_set "power_timeout" (Default (VStr "150")) ;;
  allopt_set "login" (Help "-l, --username=[appid]         Application ID") ;;
  allopt_set "passwd" (Help "-p, --password=[authkey]       Authentication key") ;;
  checked_options inv azure_device_opt ;;
  show_docs (inv_prog inv) set_order (Some azure_docs) ;;
  run_delay time_start 0 0 ;;
  azure_clients ;;
  network_fencing_action ;;
  result ← fence_action fuel (Some azure_set_power_status)
             (Some (status ← azure_get_power_status; mret (VStr status))) (Some azure_get_nodes_list) None None;
  sys_exit result.
End Arm.
