(* ===== verification/Zvm.v ===== *)
(** * fence_zvmip

    [agents/zvm/fence_zvmip.py]: the packets of the systems management interface of z/VM,
    names of images in an answer, and the power of a guest. Sockets are a class; bytes on
    the wire are the characters of a [string]. *)

From S2P Require Import Prelude PyStr OptionDefs Effects Fail Host Input Process CheckInput.
From S2P Require Import Login Metadata Action SnmpAgents Console MenuAgents TableAgents Json Http.

Local Open Scope string_scope.

Definition INT4 : Z := 4.

(** An error of a socket: is it a timeout, and its message. *)
Definition socket_failure : Type := bool * string.

(** With [None] a plain socket; with TLS, whether the certificate is verified, and the name
    of the server. *)
Definition tls_mode : Type := option (bool * pyval).

Class Smapi (D : Type) := {
  (** The addresses for a host, a port and a protocol, or the message of a gaierror. *)
  sm_getaddrinfo : pyval → pyval → string → D → (string + list string) * D;
  (** To an address, with a timeout in microseconds. *)
  sm_connect : tls_mode → string → option Z → D → option socket_failure * D;
  sm_send : string → D → option socket_failure * D;
  (** At most so many bytes; [true] waits for all of them. *)
  sm_recv : bool → Z → D → (socket_failure + string) * D;
  sm_close : D → D;
  (** [float(s)] in microseconds; [None] is its ValueError. *)
  sm_float : string → option Z;
  (** [str(sys.exc_info())] of a struct.error with this message *)
  sm_exc_info : string → string
}.

(** ** Bytes *)

Section Struct.
Context {D : Type}.

Definition struct_error {A} (msg : string) : M D A := raise (CustomError "struct.error" msg).

(** The four bytes of a number, the highest first *)
Definition int_bytes (n : Z) : string :=
  String (chr (n / 16777216 mod 256)) (String (chr (n / 65536 mod 256))
    (String (chr (n / 256 mod 256)) (str1 (chr (n mod 256))))).

(** [struct.pack("!i", n)] *)
Definition pack_int (n : Z) : M D string :=
  if ((-2147483648 <=? n) && (n <=? 2147483647))%Z then mret (int_bytes n)
  else struct_error "'i' format requires -2147483648 <= number <= 2147483647".

(** A number of four bytes in two's complement *)
Definition signed (n : Z) : Z := if (n <? 2147483648)%Z then n else (n - 4294967296)%Z.

(** [struct.unpack("!i...i", b)] *)
Fixpoint int_fields (b : string) : option (list Z) :=
  match b with
  | "" => Some []
  | String a (String c (String d (String e b))) =>
      match int_fields b with
      | Some l => Some (signed (((ord a * 256 + ord c) * 256 + ord d) * 256 + ord e) :: l)
      | None => None
      end
  | _ => None
  end.

Definition unpack_ints (n : nat) (b : string) : M D (list Z) :=
  match int_fields b with
  | Some l =>
      if decide (length l = n) then mret l
      else struct_error ("unpack requires a buffer of " +:+ str_of_Z (4 * Z.of_nat n) +:+ " bytes")
  | None => struct_error ("unpack requires a buffer of " +:+ str_of_Z (4 * Z.of_nat n) +:+ " bytes")
  end.

Definition unpack_int (b : string) : M D Z := l ← unpack_ints 1 b; mret (default 0%Z (head l)).

(** [n] bytes of [b], with zeros when it is shorter *)
Definition zero_padded (n : nat) (b : string) : string :=
  String.substring 0 n b +:+ repeat_str (str1 (chr 0)) (n - String.length b).

Definition is_surrogate (n : Z) : bool := ((55296 <=? n) && (n <? 57344))%Z.

(** [s.encode("UTF-8")]: text that is no Unicode is an error. *)
Definition encode_utf8 (s : string) : M D string :=
  if existsb is_surrogate (code_points s) then
    raise (ValueError "'utf-8' codec can't encode character: surrogates not allowed")
  else mret s.

(** [b.decode("UTF-8")], as the numbers of its characters *)
Definition decode_utf8 (b : string) : M D (list Z) :=
  let l := code_points b in
  if existsb is_surrogate l || negb (bool_decide (join "" (map utf8_encode l) = b)) ||
     existsb (λ n, 1114111 <? n)%Z l then
    raise (ValueError "'utf-8' codec can't decode byte")
  else mret l.

Definition text_of (l : list Z) : string := join "" (map utf8_encode l).

(** The text is as long as its characters say, not its bytes. *)
Definition smapi_pack_string (s : string) : M D string :=
  bytes ← encode_utf8 s;
  n ← pack_int (Z.of_nat (py_len s));
  mret (n +:+ zero_padded (py_len s) bytes).

Definition prepare_smapi_command (smapi_function : string) (additional_args : list string) : M D string :=
  username ← opt_str "--username";
  password ← opt_str "--password";
  let packet_size :=
    foldl (λ n arg, n + (INT4 + Z.of_nat (py_len arg)))%Z
      (3 * INT4 + Z.of_nat (py_len smapi_function) + Z.of_nat (py_len username) + Z.of_nat (py_len password))%Z
      additional_args in
  command ← pack_int packet_size;
  mfold (λ command arg, packed ← smapi_pack_string arg; mret (command +:+ packed)) command
    (smapi_function :: username :: password :: additional_args).

(** ** Names in an answer *)

Definition slice (l : list Z) (a b : Z) : list Z := take (Z.to_nat (b - a)) (drop (Z.to_nat a) l).

(** A field of the format that says its length in bytes *)
Definition unpack_text (n : Z) (l : list Z) : M D string :=
  if (n <? 0)%Z then struct_error "bad char in struct format"
  else
    let bytes := text_of l in
    if decide (Z.of_nat (String.length bytes) = n) then l ← decode_utf8 bytes; mret (text_of l)
    else struct_error ("unpack requires a buffer of " +:+ str_of_Z n +:+ " bytes").

(** Adding to a set *)
Definition set_add (x : string) (l : list string) : list string := if decide (x ∈ l) then l else (l ++ [x])%list.

(** The names from [parsed_len] on; every round reads a length at least. *)
Fixpoint parse_images (fuel : nat) (data : list Z) (array_len parsed_len : Z) (images : list string)
    : M D (list string) :=
  match fuel with
  | O => out_of_fuel
  | S k =>
      if (parsed_len <? array_len)%Z then
        string_len ← unpack_int (text_of (slice data parsed_len (parsed_len + INT4)));
        let parsed_len := (parsed_len + INT4)%Z in
        image_name ← unpack_text string_len (slice data parsed_len (parsed_len + string_len));
        parse_images k data array_len (parsed_len + string_len) (set_add image_name images)
      else mret images
  end.
End Struct.

(** ** Sockets *)

Section Sockets.
Context {D : Type} `{Smapi D}.

Definition socket_exn (e : socket_failure) : exn := if e.1 then SocketTimeout e.2 else OSError e.2.

Definition socket_do (f : D → option socket_failure * D) : M D unit := λ s,
  match f (s_dev s) with
  | (Some e, d) => (Raise (socket_exn e), set_dev d s)
  | (None, d) => (Ret tt, set_dev d s)
  end.

Definition recv_flags (waitall : bool) (n : Z) : M D string := λ s,
  match sm_recv waitall n (s_dev s) with
  | (inl e, d) => (Raise (socket_exn e), set_dev d s)
  | (inr b, d) => (Ret b, set_dev d s)
  end.

Definition recv : Z → M D string := recv_flags false.

Definition close : M D unit := modify (λ s, set_dev (sm_close (s_dev s)) s).

(** The first address of the host *)
Definition smapi_address : M D string :=
  v6 ← opt_has "--inet6-only";
  v4 ← opt_has "--inet4-only";
  let protocol := if v6 : bool then "AF_INET6" else if v4 : bool then "AF_INET" else "0" in
  ip ← opt_get "--ip";
  port ← opt_get "--ipport";
  r ← (λ s, let '(x, d) := sm_getaddrinfo ip port protocol (s_dev s) in (Ret x, set_dev d s));
  match r with
  | inl _ => fails EC_LOGIN_DENIED
  | inr l => list_item l 0
  end.

(** [float(options["--shell-timeout"]) or None] *)
Definition zvm_timeout : M D (option Z) :=
  v ← opt_get "--shell-timeout";
  t ← (match v with
       | VInt n => mret (n * USEC)%Z
       | VStr x =>
           match sm_float x with
           | Some t => mret t
           | None => raise (ValueError ("could not convert string to float: " +:+ py_repr x))
           end
       | _ => raise (TypeError "float() argument must be a string or a real number")
       end);
  if (t <? 0)%Z then raise (ValueError "Timeout value out of range")
  else mret (if (t =? 0)%Z then None else Some t).

Definition open_socket : M D unit :=
  addr ← smapi_address;
  secure ← opt_has "--ssl-secure";
  insecure ← opt_has "--ssl-insecure";
  tls ← (if (secure : bool) || insecure then ip ← opt_get "--ip"; mret (Some (negb insecure, ip)) else mret None);
  timeout ← zvm_timeout;
  r ← (λ s, let '(x, d) := sm_connect tls addr timeout (s_dev s) in (Ret x, set_dev d s));
  match r with
  | None => mret tt
  | Some e => log DEBUG e.2 ;; fail EC_LOGIN_DENIED true
  end.

(** ** Requests *)

(** The rest of an answer, in pieces that are texts each *)
Fixpoint read_array (fuel : nat) (waitall : bool) (array_len : Z) (data : list Z) : M D (list Z) :=
  match fuel with
  | O => out_of_fuel
  | S k =>
      bytes ← recv_flags waitall 1024;
      read_data ← decode_utf8 bytes;
      let data := (data ++ read_data)%list in
      if decide (array_len = Z.of_nat (length data)) then mret data
      else if decide (read_data = []) then
        log ERROR "Failed: Not enough data read from socket" ;; fails EC_TIMED_OUT
      else read_array k waitall array_len data
  end.

(** The length of the output, the request, and the codes *)
Definition read_header : M D (list Z) :=
  request_id ← recv INT4;
  _ ← unpack_int request_id;
  b ← recv (INT4 * 4);
  unpack_ints 4 b.

Definition header_field (n : nat) (l : list Z) : Z := nth n l 0%Z.

Definition not_smapi : M D unit :=
  ip ← opt_show "--ip";
  port ← opt_show "--ipport";
  ssl ← opt_has "--ssl";
  fail_usage ("Failed: Unable to connect to " +:+ ip +:+ " port: " +:+ port +:+ " SSL: " +:+
              (if ssl : bool then "True" else "False") +:+ " " +:+ nl) true.

Definition get_list_of_images (fuel : nat) (command : string) (data_as_plug : option string)
    : M D (Z * Z * list string) :=
  open_socket ;;
  packet ← prepare_smapi_command command match data_as_plug with Some x => [x] | None => [] end;
  socket_do (sm_send packet) ;;
  header ← try_except read_header
    (λ e, match e with
          | CustomError "struct.error" msg =>
              Some (log DEBUG (sm_exc_info msg) ;; not_smapi ;; unassigned "output_len")
          | _ => None
          end);
  images ←
    (if (3 * INT4 <? header_field 0 header)%Z then
       secure ← opt_has "--ssl-secure";
       insecure ← opt_has "--ssl-insecure";
       b ← recv INT4;
       array_len ← unpack_int b;
       data ← read_array fuel (negb secure && negb insecure) array_len [];
       parse_images (S (length data)) data array_len 0 []
     else mret []);
  close ;;
  mret (header_field 2 header, header_field 3 header, images).

(** ** Power *)

Definition codes (what : string) (return_code reason_code : Z) : string :=
  what +:+ " (" +:+ str_of_Z return_code +:+ "," +:+ str_of_Z reason_code +:+ ")".

Definition zvm_get_power_status (fuel : nat) (set_order : list string → list string) : M D (pyval + outlets) :=
  original ← opt_find "--original-action";
  if decide (original = Some (VStr "monitor")) then
    '(return_code, reason_code, _) ← get_list_of_images fuel "Check_Authentication" None;
    log DEBUG (codes "Check_Authenticate" return_code reason_code) ;;
    if decide (return_code = 0%Z) then mret (inr []) else fails EC_LOGIN_DENIED
  else
    action ← opt_get "--action";
    mwhen (bool_decide (action = VStr "list")) (opt_set "--plug" (VStr "*")) ;;
    plug ← opt_str "--plug";
    '(return_code, reason_code, images_active) ← get_list_of_images fuel "Image_Status_Query" (Some plug);
    log DEBUG (codes "Image_Status_Query results are" return_code reason_code) ;;
    action ← opt_get "--action";
    if negb (bool_decide (action = VStr "list")) then
      mret (inl (VStr (if ((return_code =? 0) && (reason_code =? 0))%Z then "on"
                       else if ((return_code =? 0) && (reason_code =? 12))%Z then "off" else "unknown")))
    else
      username ← opt_str "--username";
      '(return_code, reason_code, images_defined) ← get_list_of_images fuel "Image_Name_Query_DM" (Some username);
      log DEBUG (codes "Image_Name_Query_DM results are" return_code reason_code) ;;
      mret (inr (map (λ i, (i, ("", Some (if decide (i ∈ images_active) then "on" else "off"))))
                     (set_order images_defined))).

Definition zvm_set_power_status : M D unit :=
  open_socket ;;
  action ← opt_get "--action";
  packet ←
    (if decide (action = VStr "on") then plug ← opt_str "--plug"; prepare_smapi_command "Image_Activate" [plug]
     else if decide (action = VStr "off") then
       plug ← opt_str "--plug"; prepare_smapi_command "Image_Deactivate" [plug; "IMMED"]
     else raise (TypeError "a bytes-like object is required, not 'NoneType'"));
  socket_do (sm_send packet) ;;
  header ← read_header;
  log DEBUG (codes "Image_(De)Activate results are" (header_field 2 header) (header_field 3 header)) ;;
  close.
End Sockets.

Definition zvm_opts : list (string * optdef) := [
  ("disable_ssl", opt [Getopt "";
     Longopt "disable-ssl";
     Help "--disable-ssl                  Don't use SSL connection";
     Required "0";
     Shortdesc "Don't use SSL";
     Order 2])
].

Definition zvm_docs : docs := Docs
  ("fence_zvmip is a Power Fencing agent for z/VM SMAPI service via TCP/IP." +:+ nl +:+ nl +:+ "The z/VM SMAPI service must be configured so that the virtual machine running" +:+ nl +:+ "the agent can connect to the service, access the system's directory manager," +:+ nl +:+ "and shortly thereafter run image_deactivate and image_activate. This involves" +:+ nl +:+ "updating the VSMWORK1 NAMELIST and VSMWORK1 AUTHLIST VMSYS:VSMWORK1 files." +:+ nl +:+ nl +:+ "The NAMELIST entry assigns all the required functions to one nick and should" +:+ nl +:+ "look similar to this:" +:+ nl +:+ nl +:+ ":nick.ZVM_FENCE" +:+ nl +:+ ".br" +:+ nl +:+ ":list." +:+ nl +:+ ".br" +:+ nl +:+ "IMAGE_ACTIVATE" +:+ nl +:+ ".br" +:+ nl +:+ "IMAGE_DEACTIVATE" +:+ nl +:+ ".br" +:+ nl +:+ "IMAGE_STATUS_QUERY" +:+ nl +:+ ".br" +:+ nl +:+ "CHECK_AUTHENTICATION" +:+ nl +:+ ".br" +:+ nl +:+ "IMAGE_NAME_QUERY_DM" +:+ nl +:+ nl +:+ nl +:+ "The AUTHLIST entry authorizes the user to perform all the functions associated" +:+ nl +:+ "with the nick, and should look similar to this:" +:+ nl +:+ nl +:+ "Column 1                   Column 66                Column 131" +:+ nl +:+ nl +:+ "|                          |                        |" +:+ nl +:+ ".br" +:+ nl +:+ "V                          V                        V" +:+ nl +:+ nl +:+ "XXXXXXXX                   ALL                      ZVM_FENCE" +:+ nl +:+ nl +:+ "where XXXXXXXX is the name of the user in the authuser field of the request." +:+ nl +:+ nl +:+ "Refer to the official z/VM documentation for complete instructions and" +:+ nl +:+ "reference materials." +:+ nl)
  ("Fence agent for use with z/VM Virtual Machines") (Some ("http://www.ibm.com")) [] None.


(** ** The agent *)

Definition zvm_device_opt : list string :=
  ["ipaddr"; "login"; "passwd"; "port"; "method"; "missing_as_off"; "inet4_only"; "inet6_only"; "ssl"; "disable_ssl"].

Section Main.
Context {D : Type} `{Host D, Smapi D}.

(** TLS is switched off by removing the options. *)
Definition no_tls : M D unit :=
  disabled ← opt_has "--disable-ssl";
  off ← (if disabled : bool then mret true else v ← opt_get "--ssl"; mret (bool_decide (v = VStr "0")));
  mwhen off
    (mfor ["--ssl"; "--ssl-secure"; "--ssl-insecure"] (λ k, present ← opt_has k; mwhen present (opt_del k))).

(** [len(options.get("--plug", "")) > 8] *)
Definition image_name_fits : M D unit :=
  plug ← opt_find "--plug";
  name ← as_str (default (VStr "") plug);
  mwhen (8 <? Z.of_nat (py_len name))%Z
    (fail_usage "Failed: Name of image can not be longer than 8 characters" true).

Definition fence_zvmip_main (fuel : nat) (time_start : Z) (inv : invocation)
    (set_order : list string → list string) : M D unit :=
  add_options zvm_opts ;;
  allopt_set "ssl" (Help "-z, --ssl                      Use SSL connection with verifying certificate (Default)") ;;
  allopt_set "ipport" (Default (VStr "44444")) ;;
  allopt_set "shell_timeout" (Default (VStr "5")) ;;
  allopt_set "missing_as_off" (Default (VStr "1")) ;;
  allopt_set "ssl" (Default (VStr "1")) ;;
  '(avail_opt, opt) ← process_input inv zvm_device_opt;
  check_input (inv_env inv) avail_opt opt true ;;
  no_tls ;;
  image_name_fits ;;
  action ← opt_get "--action";
  mwhen (bool_decide (action = VStr "validate-all")) (sys_exit EC_OK) ;;
  show_docs (inv_prog inv) set_order (Some zvm_docs) ;;
  run_delay time_start 0 0 ;;
  result ← fence_action fuel (Some zvm_set_power_status) (Some (as_status (zvm_get_power_status fuel set_order)))
             (Some (as_outlets (zvm_get_power_status fuel set_order))) None None;
  sys_exit result.
End Main.
