(* ===== verification/CloudAgents.v ===== *)
(** * Agents of clouds

    [agents/openstack/fence_openstack.py], [agents/aliyun/fence_aliyun.py],
    [agents/kubevirt/fence_kubevirt.py] and [agents/ovh/fence_ovh.py]. The client library of
    each is a class; an exception of a library has a class and a message. *)

From S2P Require Import Prelude PyStr OptionDefs Effects Fail Host Input Process CheckInput.
From S2P Require Import Login Metadata Action SnmpAgents Console MenuAgents TableAgents Json Globals Http.
From S2P Require Import WebAgents Sessions Ibmz Nova Azure.

Local Open Scope string_scope.

(** * OpenStack *)

Record openstack_server := OsServer { os_id : string; os_name : string; os_status : string }.

(** How to log in: the plugin with its options, or the password of the old library. *)
Inductive keystone_auth :=
| KeystonePlugin (plugin : json) (options : list (string * json))
| KeystonePassword (options : list (string * json)).

Class Openstack (D : Type) := {
  os_novaclient : bool;
  os_keystoneauth : bool;
  os_keystoneclient : bool;
  os_yaml : bool;
  os_expanduser : string → string;
  (** The value in a file of YAML: the message of an error of the file, or none for a
      YAMLError. *)
  os_load_yaml : string → D → (string + option json) * D;
  (** The output of a command of the shell, or the message of an exception. *)
  os_shell_output : string → D → (string + string) * D;
  os_session : keystone_auth → json → json → D → option nova_error * D;
  os_client : json → D → option nova_error * D;
  os_version : D → (nova_error + string) * D;
  os_list : option pyval → option Z → D → (nova_error + option (list openstack_server)) * D;
  os_get : pyval → D → (nova_error + option openstack_server) * D;
  os_start : string → D → option nova_error * D;
  os_stop : string → D → option nova_error * D;
  os_reboot : string → string → D → option nova_error * D
}.

(** A value of the options *)
Definition json_of_pyval (v : pyval) : json :=
  match v with
  | VNone => JNull
  | VStr x => JStr x
  | VInt n => JInt n
  | VList l => JList (map JStr l)
  end.

Definition json_of_text (x : option string) : json := match x with Some t => JStr t | None => JNull end.

Section Openstack.
Context {D : Type} `{Openstack D}.

Definition os_translate_status (instance_status : string) : string :=
  if decide (instance_status = "ACTIVE") then "on"
  else if decide (instance_status = "SHUTOFF") then "off"
  else "unknown".

Definition running_on : M D unit :=
  action ← opt_show "--action";
  plug ← opt_show "--plug";
  log INFO ("Running " +:+ action +:+ " action on " +:+ plug).

Definition os_item (result : outlets) (item : openstack_server) : outlets :=
  dict_insert (os_id item) (os_name item, Some (os_translate_status (os_status item))) result.

Definition os_get_nodes_list : M D outlets :=
  original ← opt_find "--original-action";
  action ← opt_find "--action";
  log INFO ("Running " +:+ py_str (default (default VNone action) original) +:+ " action") ;;
  plug ← opt_find "--plug";
  let max_results := if decide (original = Some (VStr "monitor")) then Some 1%Z else None in
  except_Exception
    (response ← nova_call (os_list plug max_results);
     mret match response with None => [] | Some l => foldl os_item [] l end)
    (λ e, log ERROR ("Failed to retrieve node list: " +:+ exn_str e) ;; mret []).

(** The server of [--plug]; the program ends when there is none and [--plug] is not empty. *)
Definition os_server (attribute : string) : M D openstack_server :=
  running_on ;;
  plug ← opt_get "--plug";
  server ← try_except (nova_call (os_get plug))
    (λ e, match e with
          | CustomError "NotFound" msg => Some (fail_usage ("Failed: Not Found: " +:+ msg) true ;; mret None)
          | _ => None
          end);
  match server with
  | Some server => mret server
  | None =>
      fail_usage "Server %s not found" (truthy plug) ;;
      raise (AttributeError ("'NoneType' object has no attribute '" +:+ attribute +:+ "'"))
  end.

Definition os_get_power_status : M D string :=
  server ← os_server "status";
  let status := os_translate_status (os_status server) in
  log INFO ("get_power_status: " +:+ status +:+ " (state: " +:+ os_status server +:+ ")") ;;
  mret status.

(** One command; a Conflict ends the program with its message. *)
Definition os_command (doing called : string) (command : string → D → option nova_error * D)
    (server : openstack_server) : M D unit :=
  log INFO (doing +:+ " instance " +:+ os_name server) ;;
  try_except (nova_do (command (os_id server)))
    (λ e, match e with CustomError "Conflict" msg => Some (fail_usage msg true) | _ => None end) ;;
  log INFO ("Called " +:+ called +:+ " API call for " +:+ os_id server).

Definition os_set_power_status : M D unit :=
  server ← os_server "name";
  action ← opt_get "--action";
  mwhen (bool_decide (action = VStr "on")) (os_command "Starting" "start" os_start server) ;;
  mwhen (bool_decide (action = VStr "off")) (os_command "Stopping" "stop" os_stop server) ;;
  mwhen (bool_decide (action = VStr "reboot"))
    (os_command "Rebooting" "reboot hard" (λ id, os_reboot id "HARD") server).

(** ** Login *)

Definition keystone_arguments (username password projectname auth_url user_domain_name project_domain_name : json)
    : list (string * json) :=
  [("auth_url", auth_url); ("username", username); ("password", password); ("project_name", projectname);
   ("user_domain_name", user_domain_name); ("project_domain_name", project_domain_name)].

Definition ca_verify (ssl_insecure : bool) (cacert : json) : json :=
  if ssl_insecure then JBool false else if json_truthy cacert then cacert else JBool true.

(** The version is only asked for to see whether the session works. The names of the
    exceptions are only bound with the new library. *)
Definition nova_version : M D unit :=
  apiversion ← try_except (v ← nova_call os_version; mret (Some v))
    (λ e,
       Some (if os_keystoneauth then
               match e with
               | CustomError "DiscoveryFailure" msg =>
                   fail_usage ("Failed: Discovery Failure: " +:+ msg) true ;; mret None
               | CustomError "Unauthorized" msg => fail_usage ("Failed: Unauthorized: " +:+ msg) true ;; mret None
               | _ => log ERROR (exn_str e) ;; mret None
               end
             else unassigned "DiscoveryFailure"));
  log DEBUG ("Nova version: " +:+ show_opt apiversion).

Definition nova_login (arguments : list (string * json)) (ssl_insecure : bool) (cacert apitimeout auth_plugin : json)
    (auth_options : json) : M D unit :=
  mwhen (negb os_keystoneauth && negb os_keystoneclient)
    (fail_usage "Failed: Keystone client not found or not accessible" true) ;;
  auth ←
    (if os_keystoneauth then
       match auth_options with
       | JNull => mret (KeystonePlugin auth_plugin arguments)
       | JDict l => mret (KeystonePlugin auth_plugin l)
       | _ => raise (TypeError "argument after ** must be a mapping")
       end
     else
       mwhen (negb (same_key_value auth_plugin (JStr "password")))
         (fail_usage "Failed: Keystone auth plugins require keystoneauth1" true) ;;
       mret (KeystonePassword (arguments ++ [("cacert", cacert)])%list));
  nova_do (os_session auth (ca_verify ssl_insecure cacert) apitimeout) ;;
  mwhen (negb os_novaclient) (raise (OtherError "name 'client' is not defined")) ;;
  nova_do (os_client apitimeout) ;;
  nova_version.
End Openstack.

(** ** Where the credentials are *)

Section Credentials.
Context {D : Type} `{Host D, Openstack D}.

Definition get_cloud : M D json :=
  mwhen (negb os_yaml) (import_error "yaml") ;;
  let user := os_expanduser "~/.config/openstack/clouds.yaml" in
  in_home ← host_test h_exists user;
  let clouds_yaml := if in_home : bool then user else "/etc/openstack/clouds.yaml" in
  present ← host_test h_exists clouds_yaml;
  mwhen (negb present)
    (fail_usage "Failed: ~/.config/openstack/clouds.yaml and /etc/openstack/clouds.yaml does not exist" true) ;;
  r ← (λ s, let '(x, d) := os_load_yaml clouds_yaml (s_dev s) in (Ret x, set_dev d s));
  clouds ←
    (match r with
     | inl msg => raise (OSError msg)
     | inr None => fail_usage ("Failed: Unable to read: " +:+ clouds_yaml) true ;; unassigned "clouds"
     | inr (Some v) => mret v
     end);
  all ← json_get_or clouds "clouds" JNull;
  name ← opt_show "--cloud";
  cloud ← json_get_or all name JNull;
  if json_truthy cloud then mret cloud
  else fail_usage ("Cloud: " +:+ name +:+ " not found.") true ;; unassigned "cloud".

(** [line.partition('=')[::2]] *)
Definition partition_line (line : string) : string * string := default (line, "") (split1 "="%char line).

Definition env_update (env : list (string * string)) (line : string) : M D (list (string * string)) :=
  let '(name, value) := partition_line line in
  if decide (name = "") then raise (OSError "[Errno 22] Invalid argument")
  else mret (dict_insert name value env).

(** The environment that a file for the shell leaves *)
Definition source_env (env_file : string) : M D (list (string * string)) :=
  r ← (λ s, let '(x, d) := os_shell_output (". " +:+ env_file +:+ " && env -0") (s_dev s) in (Ret x, set_dev d s));
  match r with
  | inl msg => raise (OtherError msg)
  | inr output =>
      mfold env_update []
        (filter (λ line, strip line ≠ "") (split_go (str1 (ascii_of_N 0)) output 0))
  end.

Record openstack_login := OsLogin {
  ol_arguments : list (string * json);
  ol_plugin : json;
  ol_options : json;
  ol_insecure : bool;
  ol_cacert : json
}.

Definition ssl_options : M D (bool * json) :=
  insecure ← opt_has "--ssl-insecure"; cacert ← opt_get "--cacert"; mret (insecure, json_of_pyval cacert).

(** From clouds.yaml. [verify] is written over the options: a truth value as [--ssl-insecure],
    whatever it is, and anything else as [--cacert]. *)
Definition cloud_login : M D openstack_login :=
  cloud ← get_cloud;
  plugin ← opt_get "--auth-plugin";
  plugin ←
    (if decide (plugin = VStr "password") then
       auth_type ← json_get_or cloud "auth_type" JNull;
       mret (if json_truthy auth_type then auth_type else JStr "password")
     else mret (json_of_pyval plugin));
  auth ← json_get_or cloud "auth" JNull;
  let options := if same_key_value plugin (JStr "password") then JNull else auth in
  username ← json_get_or auth "username" JNull;
  password ← json_get_or auth "password" JNull;
  projectname ← json_get_or auth "project_name" JNull;
  auth_url ← json_get_or auth "auth_url" JNull;
  user_domain_name ← json_get_or auth "user_domain_name" JNull;
  project_domain_name ← json_get_or auth "project_domain_name" JNull;
  caverify ← json_get_or cloud "verify" JNull;
  let arguments := keystone_arguments username password projectname auth_url user_domain_name project_domain_name in
  if same_key_value caverify (JBool true) || same_key_value caverify (JBool false) then
    opt_set "--ssl-insecure" (VInt (if json_truthy caverify then 1 else 0)) ;;
    '(insecure, cacert) ← ssl_options;
    mret (OsLogin arguments plugin options insecure cacert)
  else
    insecure ← opt_has "--ssl-insecure";
    mret (OsLogin arguments plugin options insecure caverify).

Definition no_auth_url {A} : M D A :=
  fail_usage "Failed: You have to set the Keystone service endpoint for authorization" true ;; unassigned "auth_url".

Definition openrc_login : M D openstack_login :=
  openrc ← opt_str "--openrc";
  present ← host_test h_exists (os_expanduser openrc);
  mwhen (negb present) (fail_usage ("Failed: " +:+ openrc +:+ " does not exist") true) ;;
  env ← source_env openrc;
  let get k := json_of_text (dict_get k env) in
  auth_url ← (match dict_get "OS_AUTH_URL" env with Some x => mret (JStr x) | None => no_auth_url end);
  plugin ← opt_get "--auth-plugin";
  '(insecure, cacert) ← ssl_options;
  mret (OsLogin (keystone_arguments (get "OS_USERNAME") (get "OS_PASSWORD") (get "OS_PROJECT_NAME") auth_url
                   (get "OS_USER_DOMAIN_NAME") (get "OS_PROJECT_DOMAIN_NAME"))
          (json_of_pyval plugin) JNull insecure cacert).

Definition option_login : M D openstack_login :=
  username ← opt_get "--username";
  password ← opt_get "--password";
  projectname ← opt_get "--project-name";
  auth_url ← opt_find "--auth-url";
  auth_url ← (match auth_url with Some v => mret v | None => no_auth_url end);
  user_domain_name ← opt_get "--user-domain-name";
  project_domain_name ← opt_get "--project-domain-name";
  plugin ← opt_get "--auth-plugin";
  '(insecure, cacert) ← ssl_options;
  mret (OsLogin (keystone_arguments (json_of_pyval username) (json_of_pyval password) (json_of_pyval projectname)
                   (json_of_pyval auth_url) (json_of_pyval user_domain_name) (json_of_pyval project_domain_name))
          (json_of_pyval plugin) JNull insecure cacert).

Definition option_given (k : string) : M D bool := v ← opt_find k; mret (truthy (default VNone v)).

Definition openstack_credentials : M D openstack_login :=
  cloud ← option_given "--cloud";
  openrc ← option_given "--openrc";
  if cloud : bool then cloud_login else if openrc : bool then openrc_login else option_login.
End Credentials.

Definition openstack_opts : list (string * optdef) := [
  ("auth-url", opt [Getopt ":";
     Longopt "auth-url";
     Help "--auth-url=[authurl]           Keystone Auth URL";
     Required "0";
     Shortdesc "Keystone Auth URL";
     Order 2]);
  ("project-name", opt [Getopt ":";
     Longopt "project-name";
     Help "--project-name=[project]       Tenant Or Project Name";
     Required "0";
     Shortdesc "Keystone Project";
     Default (VStr "admin");
     Order 3]);
  ("user-domain-name", opt [Getopt ":";
     Longopt "user-domain-name";
     Help "--user-domain-name=[domain]    Keystone User Domain Name";
     Required "0";
     Shortdesc "Keystone User Domain Name";
     Default (VStr "Default");
     Order 4]);
  ("project-domain-name", opt [Getopt ":";
     Longopt "project-domain-name";
     Help "--project-domain-name=[domain] Keystone Project Domain Name";
     Required "0";
     Shortdesc "Keystone Project Domain Name";
     Default (VStr "Default");
     Order 5]);
  ("cloud", opt [Getopt ":";
     Longopt "cloud";
     Help "--cloud=[cloud]              Openstack cloud (from ~/.config/openstack/clouds.yaml or /etc/openstack/clouds.yaml).";
     Required "0";
     Shortdesc "Cloud from clouds.yaml";
     Order 6]);
  ("openrc", opt [Getopt ":";
     Longopt "openrc";
     Help "--openrc=[openrc]              Path to the openrc config file";
     Required "0";
     Shortdesc "openrc config file";
     Order 7]);
  ("uuid", opt [Getopt ":";
     Longopt "uuid";
     Help "--uuid=[uuid]                  Replaced by -n, --plug";
     Required "0";
     Shortdesc "Replaced by port/-n/--plug";
     Order 8]);
  ("cacert", opt [Getopt ":";
     Longopt "cacert";
     Help "--cacert=[cacert]              Path to the PEM file with trusted authority certificates (override global CA trust)";
     Required "0";
     Shortdesc "SSL X.509 certificates file";
     Default (VStr "");
     Order 9]);
  ("apitimeout", opt [Getopt ":";
     Type_ "second";
     Longopt "apitimeout";
     Help "--apitimeout=[seconds]         Timeout to use for API calls";
     Shortdesc "Timeout in seconds to use for API calls, default is 60.";
     Required "0";
     Default (VInt 60);
     Order 10]);
  ("auth-plugin", opt [Getopt ":";
     Longopt "auth-plugin";
     Help "--auth-plugin=[plugin]         Keystone auth plugin";
     Required "0";
     Shortdesc "Keystone auth plugin";
     Default (VStr "password");
     Order 11])
].

Definition openstack_docs : docs := Docs
  ("fence_openstack is a Power Fencing agent which can be used with machines controlled by the Openstack's Nova service. This agent calls the python-novaclient and it is mandatory to be installed ")
  ("Fence agent for OpenStack's Nova service") (Some ("https://wiki.openstack.org/wiki/Nova")) [] None.


Definition openstack_device_opt : list string :=
  ["login"; "no_login"; "passwd"; "no_password"; "auth-url"; "project-name"; "user-domain-name";
   "project-domain-name"; "auth-plugin"; "cloud"; "openrc"; "port"; "no_port"; "uuid"; "ssl_insecure"; "cacert";
   "apitimeout"].

Section OpenstackMain.
Context {D : Type} `{Host D, Openstack D}.

(** [--uuid] is [--plug]; without both, actions on a machine end here. *)
Definition uuid_option : M D unit :=
  uuid ← opt_find "--uuid";
  match uuid with
  | Some v => opt_set "--plug" v ;; opt_del "--uuid"
  | None =>
      help ← opt_has "--help";
      if help : bool then mret tt
      else
        action ← opt_get "--action";
        plug ← opt_has "--plug";
        mwhen (bool_decide (action ∈ map VStr ["off"; "on"; "reboot"; "status"; "validate-all"]) && negb plug)
          (fail_usage "Failed: You have to enter plug number or machine identification"
             (negb (bool_decide (action = VStr "validate-all"))))
  end.

Definition fence_openstack_main (fuel : nat) (time_start : Z) (inv : invocation)
    (set_order : list string → list string) : M D unit :=
  add_options openstack_opts ;;
  allopt_set "port" (Required "0") ;;
  allopt_set "port" (Help "-n, --plug=[UUID]              UUID of the node to be fenced") ;;
  allopt_set "port" (Shortdesc "UUID of the node to be fenced.") ;;
  allopt_set "power_timeout" (Default (VStr "60")) ;;
  checked_options inv openstack_device_opt ;;
  uuid_option ;;
  show_docs (inv_prog inv) set_order (Some openstack_docs) ;;
  run_delay time_start 0 0 ;;
  login ← openstack_credentials;
  apitimeout ← opt_get "--apitimeout";
  except_Exception
    (nova_login (ol_arguments login) (ol_insecure login) (ol_cacert login) (json_of_pyval apitimeout)
       (ol_plugin login) (ol_options login))
    (λ e, fail_usage ("Failed: Unable to connect to Nova: " +:+ exn_str e) true) ;;
  result ← fence_action fuel (Some os_set_power_status)
             (Some (status ← os_get_power_status; mret (VStr status))) (Some os_get_nodes_list) None None;
  sys_exit result.
End OpenstackMain.

(** * Alibaba Cloud *)

(** The class of a request, its setters with their values, and a filter. *)
Record ali_request := AliRequest {
  rq_class : string;
  rq_set : list (string * string);
  rq_filter : option (string * string)
}.

Inductive ali_credentials :=
| AccessKey (access_key secret_key : string)
| RamRole (role : string).

Class Aliyun (D : Type) := {
  ali_core : bool;                       (* aliyunsdkcore is installed *)
  ali_ecs : bool;                        (* aliyunsdkecs is installed *)
  ali_expanduser : string → string;
  (** A value of a section of a file, or the message of an exception. *)
  ali_config : string → string → string → D → (string + string) * D;
  ali_client : ali_credentials → string → D → option string * D;
  ali_modify_point : string → string → D → option string * D;
  ali_action_name : ali_request → string;
  ali_do_action : ali_request → D → (string + string) * D;
  ali_float : string → string
}.

Section Aliyun.
Context {D : Type} `{Aliyun D}.

(** Without [--region] there is no connection. *)
Definition _send_request (conn : bool) (request : ali_request) : M D json :=
  log DEBUG ("send request action: " +:+ ali_action_name request) ;;
  r ← (if conn then λ s, let '(x, d) := ali_do_action request (s_dev s) in (Ret x, set_dev d s)
       else mret (inl "'NoneType' object has no attribute 'do_action_with_exception'"));
  match r with
  | inl e => usage_fails ("Failed: send request failed: Error: " +:+ e)
  | inr response_str =>
      response_detail ← loads response_str;
      log DEBUG ("reponse: " +:+ json_str ali_float response_detail) ;;
      mret response_detail
  end.

(** A class of the package aliyunsdkecs *)
Definition ali_make (class : string) (set : list (string * string)) : M D ali_request :=
  if ali_ecs then mret (AliRequest class set None)
  else raise (OtherError ("name '" +:+ class +:+ "' is not defined")).

Definition start_instance (conn : bool) (instance_id : string) : M D unit :=
  log DEBUG ("start instance " +:+ instance_id) ;;
  request ← ali_make "StartInstanceRequest" [("InstanceId", instance_id)];
  _send_request conn request ;; mret tt.

Definition stop_instance_ (conn : bool) (instance_id : string) : M D unit :=
  log DEBUG ("stop instance " +:+ instance_id) ;;
  request ← ali_make "StopInstanceRequest" [("InstanceId", instance_id); ("ForceStop", "true")];
  _send_request conn request ;; mret tt.

Definition reboot_instance (conn : bool) (instance_id : string) : M D unit :=
  log DEBUG ("reboot instance " +:+ instance_id) ;;
  request ← ali_make "RebootInstanceRequest" [("InstanceId", instance_id); ("ForceStop", "true")];
  _send_request conn request ;; mret tt.

(** The instances of a response *)
Definition ali_instances (response : json) : M D (list json) :=
  match response with
  | JNull => mret []
  | _ =>
      instances ← json_get_or response "Instances" JNull;
      l ← json_get_or instances "Instance" JNull;
      json_iter l
  end.

(** The status of the last instance *)
Definition ali_get_status (conn : bool) (instance_id : string) : M D json :=
  log DEBUG ("get instance " +:+ instance_id +:+ " status") ;;
  request ← ali_make "DescribeInstancesRequest" [("InstanceIds", json_dumps ali_float (JList [JStr instance_id]))];
  response ← _send_request conn request;
  l ← ali_instances response;
  mfold (λ _ item, json_get_or item "Status" JNull) JNull l.

Definition ali_filter (text : string) : M D (string * string) :=
  let parts := split_go "=" text 0 in
  key ← list_item parts 0;
  value ← list_item parts 1;
  mret (strip key, strip value).

Definition ali_outlet (result : outlets) (item : json) : M D outlets :=
  instance_id ← json_get_or item "InstanceId" JNull;
  instance_name ← json_get_or item "InstanceName" JNull;
  key ← json_key instance_id;
  mret (dict_insert key (json_str ali_float instance_name, None) result).

Definition show_outlets (result : outlets) : string :=
  "{" +:+ join ", " (map (λ kv, py_repr kv.1 +:+ ": (" +:+ py_repr kv.2.1 +:+ ", None)") result) +:+ "}".

Definition ali_get_nodes_list (conn : bool) : M D outlets :=
  log DEBUG "start to get nodes list" ;;
  request ← ali_make "DescribeInstancesRequest" [("PageSize", "100")];
  filter ← opt_find "--filter";
  request ←
    (match filter with
     | None => mret request
     | Some v => text ← as_str v; f ← ali_filter text; mret (AliRequest (rq_class request) (rq_set request) (Some f))
     end);
  response ← _send_request conn request;
  l ← ali_instances response;
  result ← mfold ali_outlet [] l;
  log DEBUG ("get nodes list: " +:+ show_outlets result) ;;
  mret result.

Definition ali_get_power_status (conn : bool) : M D string :=
  plug ← opt_show "--plug";
  log DEBUG ("start to get power(" +:+ plug +:+ ") status") ;;
  state ← ali_get_status conn plug;
  let status := match state with JStr "Running" => "on" | JStr "Stopped" => "off" | _ => "unknown" end in
  log DEBUG ("the power(" +:+ plug +:+ ") status is " +:+ status) ;;
  mret status.

Definition ali_set_power_status (conn : bool) : M D unit :=
  plug ← opt_show "--plug";
  action ← opt_get "--action";
  log INFO ("start to set power(" +:+ plug +:+ ") status to " +:+ py_str action) ;;
  if decide (action = VStr "off") then stop_instance_ conn plug
  else if decide (action = VStr "on") then start_instance conn plug
  else if decide (action = VStr "reboot") then reboot_instance conn plug
  else mret tt.

(** [client.AcsClient(...)]: the message of an exception is a problem of its own. *)
Definition acs_client (credentials : ali_credentials) (region : string) : M D unit :=
  mwhen (negb ali_core) (raise (OtherError "name 'client' is not defined")) ;;
  r ← (λ s, let '(x, d) := ali_client credentials region (s_dev s) in (Ret x, set_dev d s));
  match r with None => mret tt | Some e => raise (OtherError e) end.

Definition file_credential (path profile key : string) : M D string :=
  r ← (λ s, let '(x, d) := ali_config path profile key (s_dev s) in (Ret x, set_dev d s));
  match r with inl e => raise (OtherError e) | inr v => mret v end.

(** The keys, a role, or a file with a profile *)
Definition ali_login (region : string) : M D unit :=
  access_key ← opt_find "--access-key";
  secret_key ← opt_find "--secret-key";
  ram_role ← opt_find "--ram-role";
  credentials_file ← opt_find "--credentials-file";
  profile ← opt_find "--credentials-file-profile";
  match access_key, secret_key, ram_role, credentials_file, profile with
  | Some a, Some b, _, _, _ => acs_client (AccessKey (py_str a) (py_str b)) region
  | _, _, Some role, _, _ =>
      mwhen (negb ali_core) (raise (OtherError "name 'EcsRamRoleCredential' is not defined")) ;;
      acs_client (RamRole (py_str role)) region
  | _, _, _, Some file, Some profile =>
      except_Exception
        (let path := ali_expanduser (py_str file) in
         a ← file_credential path (py_str profile) "aliyun_access_key_id";
         b ← file_credential path (py_str profile) "aliyun_access_key_secret";
         acs_client (AccessKey a b) region)
        (λ e, fail_usage ("Failed: failed to read credentials file: " +:+ exn_str e) true)
  | _, _, _, _, _ =>
      fail_usage "Failed: User credentials are not set. Please set the Access Key and the Secret Key, or configure the RAM role." true
  end.

(** Is there a connection? *)
Definition ali_connect : M D bool :=
  region ← opt_find "--region";
  match region with
  | None => mret false
  | Some v =>
      let region := py_str v in
      ali_login region ;;
      let endpoint := "ecs." +:+ region +:+ ".aliyuncs.com" in
      except_Exception
        (mwhen (negb ali_core) (raise (OtherError "name 'region_provider' is not defined")) ;;
         r ← (λ s, let '(x, d) := ali_modify_point region endpoint (s_dev s) in (Ret x, set_dev d s));
         match r with None => mret tt | Some e => raise (OtherError e) end)
        (λ e, log WARNING ("Failed: failed to modify endpoint to '" +:+ endpoint +:+ "': " +:+ exn_str e)) ;;
      mret true
  end.
End Aliyun.

Definition aliyun_opts : list (string * optdef) := [
  ("region", opt [Getopt "r:";
     Longopt "region";
     Help "-r, --region=[name]            Region, e.g. cn-hangzhou";
     Shortdesc "Region.";
     Required "0";
     Order 2]);
  ("access_key", opt [Getopt "a:";
     Longopt "access-key";
     Help "-a, --access-key=[name]        Access Key";
     Shortdesc "Access Key.";
     Required "0";
     Order 3]);
  ("secret_key", opt [Getopt "s:";
     Longopt "secret-key";
     Help "-s, --secret-key=[name]        Secret Key";
     Shortdesc "Secret Key.";
     Required "0";
     Order 4]);
  ("ram_role", opt [Getopt ":";
     Longopt "ram-role";
     Help "--ram-role=[name]              Ram Role";
     Shortdesc "Ram Role.";
     Required "0";
     Order 5]);
  ("credentials_file", opt [Getopt ":";
     Longopt "credentials-file";
     Help "--credentials-file=[path]            Path to aliyun-cli credentials file";
     Shortdesc "Path to credentials file";
     Required "0";
     Order 6]);
  ("credentials_file_profile", opt [Getopt ":";
     Longopt "credentials-file-profile";
     Help "--credentials-file-profile=[profile] Credentials file profile";
     Shortdesc "Credentials file profile";
     Required "0";
     Default (VStr "default");
     Order 7]);
  ("filter", opt [Getopt ":";
     Longopt "filter";
     Help ("--filter=[key=value]           Filter (e.g. InstanceIds=[" +:+ dq +:+ "i-XXYYZZAA1" +:+ dq +:+ "," +:+ dq +:+ "i-XXYYZZAA2" +:+ dq +:+ "]");
     Shortdesc "Filter for list-action.";
     Required "0";
     Order 8])
].

Definition aliyun_docs : docs := Docs
  ("fence_aliyun is a Power Fencing agent for Aliyun.")
  ("Fence agent for Aliyun (Aliyun Web Services)") (Some ("http://www.aliyun.com")) [] None.


(** What the agent says when it is loaded without a package *)
Definition missing_package {D} (package pip : string) : M D unit :=
  log WARNING ("The '" +:+ package +:+ "' module has been not installed or is unavailable, try to execute the command 'pip install " +:+
               pip +:+ " --upgrade' to solve. error: No module named '" +:+ package +:+ "'").

Definition fence_aliyun_main {D} `{Host D, Aliyun D} (fuel : nat) (time_start : Z) (inv : invocation)
    (set_order : list string → list string) : M D unit :=
  mwhen (negb ali_core) (missing_package "aliyunsdkcore" "aliyun-python-sdk-core") ;;
  mwhen (negb ali_ecs) (missing_package "aliyunsdkecs" "aliyun-python-sdk-ecs") ;;
  add_options aliyun_opts ;;
  allopt_set "power_timeout" (Default (VStr "60")) ;;
  checked_options inv
    ["port"; "no_password"; "region"; "access_key"; "secret_key"; "ram_role"; "credentials_file";
     "credentials_file_profile"; "filter"] ;;
  show_docs (inv_prog inv) set_order (Some aliyun_docs) ;;
  run_delay time_start 0 0 ;;
  conn ← ali_connect;
  result ← fence_action fuel (Some (ali_set_power_status conn))
             (Some (status ← ali_get_power_status conn; mret (VStr status))) (Some (ali_get_nodes_list conn)) None None;
  sys_exit result.

(** * KubeVirt *)

(** An exception: its status when it is an ApiException, its class and its message. *)
Record kube_error := KubeError { ke_status : option Z; ke_class : string; ke_message : string }.

Class Kube (D : Type) := {
  (** The name ApiException is bound. *)
  kube_exceptions : bool;
  kube_config : bool;                    (* kubernetes.config *)
  kube_dynamic : bool;                   (* openshift.dynamic *)
  (** The namespace of the active context *)
  kube_namespace : D → (kube_error + string) * D;
  (** A client for a file *)
  kube_client : pyval → D → option kube_error * D;
  (** The api of a version and a kind *)
  kube_resource : pyval → string → D → option kube_error * D;
  (** The names of the machines of a namespace *)
  kube_list : pyval → string → string → D → (kube_error + list string) * D;
  (** The phase of an instance *)
  kube_phase : pyval → string → pyval → string → D → (kube_error + string) * D;
  kube_machine : pyval → string → pyval → string → D → option kube_error * D;
  (** A request: method, path, headers and the grace period of the body *)
  kube_request : string → string → list (string * string) → option Z → D → option kube_error * D
}.

Section Kube.
Context {D : Type} `{Kube D}.

(** An ApiException has its status in its class. *)
Definition api_class (status : Z) : string := "ApiException " +:+ str_of_Z status.

Definition kube_exn (e : kube_error) : exn :=
  CustomError match ke_status e with Some n => api_class n | None => ke_class e end (ke_message e).

Definition is_api_exception (e : exn) : bool :=
  match e with CustomError cls _ => startswith "ApiException " cls | _ => false end.

Definition not_found (e : exn) : bool := match e with CustomError cls _ => bool_decide (cls = api_class 404) | _ => false end.

Definition kube_call {A} (f : D → (kube_error + A) * D) : M D (kube_error + A) := λ s,
  let '(x, d) := f (s_dev s) in (Ret x, set_dev d s).

Definition kube_get {A} (f : D → (kube_error + A) * D) : M D A :=
  r ← kube_call f; match r with inl e => raise (kube_exn e) | inr a => mret a end.

Definition kube_do (f : D → option kube_error * D) : M D unit :=
  r ← (λ s, let '(x, d) := f (s_dev s) in (Ret x, set_dev d s));
  match r with Some e => raise (kube_exn e) | None => mret tt end.

Definition _get_namespace : M D string :=
  mwhen (negb kube_config) (import_error "kubernetes") ;;
  ns ← opt_or_none "--namespace";
  match ns with
  | VNone => kube_get kube_namespace
  | v => mret (py_str v)
  end.

(** [conn.resources.get(...)]; without the packages there is no connection. *)
Definition resource (conn : bool) (apiversion : pyval) (kind : string) : M D unit :=
  if conn then kube_do (kube_resource apiversion kind)
  else raise (AttributeError "'NoneType' object has no attribute 'resources'").

Definition kube_get_nodes_list (conn : bool) : M D outlets :=
  log DEBUG "Starting list/monitor operation" ;;
  except_Exception
    (apiversion ← opt_or_none "--apiversion";
     namespace ← _get_namespace;
     resource conn apiversion "VirtualMachine" ;;
     l ← kube_get (kube_list apiversion "VirtualMachine" namespace);
     mret (foldl (λ result name, dict_insert name ("", None) result) [] l))
    (λ e, log ERROR ("Exception when calling VirtualMachine list: " +:+ exn_str e) ;; mret []).

Definition kube_translate_status (instance_status : string) : string :=
  if decide (instance_status = "Running") then "on" else "unknown".

(** No instance: the machine is off when it is there. *)
Definition kube_stopped (conn : bool) (apiversion : pyval) (namespace : string) (name : pyval) : M D string :=
  try_except
    (resource conn apiversion "VirtualMachine" ;;
     kube_do (kube_machine apiversion "VirtualMachine" name namespace) ;;
     mret "off")
    (λ e,
       if is_api_exception e then
         Some (log ERROR ("VM " +:+ py_str name +:+ " doesn't exist") ;; fails EC_FETCH_VM_UUID)
       else None).

(** The phase of the instance, or an exception and the namespace when that was read *)
Definition instance_phase (conn : bool) (apiversion name : pyval) : M D (string + option string * exn) :=
  except_Exception
    (namespace ← _get_namespace;
     except_Exception
       (resource conn apiversion "VirtualMachineInstance" ;;
        phase ← kube_get (kube_phase apiversion "VirtualMachineInstance" name namespace);
        mret (inl phase))
       (λ e, mret (inr (Some namespace, e))))
    (λ e, mret (inr (None, e))).

Definition kube_get_power_status (conn : bool) : M D string :=
  log DEBUG "Starting get status operation" ;;
  apiversion ← opt_or_none "--apiversion";
  name ← opt_or_none "--plug";
  r ← instance_phase conn apiversion name;
  match r with
  | inl phase => mret (kube_translate_status phase)
  | inr (namespace, e) =>
      mwhen (negb kube_exceptions) (raise (OtherError "name 'ApiException' is not defined")) ;;
      if not_found e then
        match namespace with
        | Some namespace => kube_stopped conn apiversion namespace name
        | None => unassigned "namespace"
        end
      else if is_api_exception e then
        log ERROR ("Failed to get power status, with API Exception: " +:+ exn_str e) ;; fails EC_STATUS
      else log ERROR ("Failed to get power status, with Exception: " +:+ exn_str e) ;; fails EC_STATUS
  end.

Definition virtctl_vm_action (conn : bool) (action namespace : string) (name apiversion : pyval) : M D unit :=
  let path := "/apis/subresources." +:+ py_str apiversion +:+ "/namespaces/" +:+ namespace +:+ "/virtualmachines/" +:+
              py_str name +:+ "/" +:+ action in
  if conn then
    kube_do (kube_request "put" path [("accept", "*/*")] (if decide (action = "stop") then Some 0%Z else None))
  else raise (AttributeError "'NoneType' object has no attribute 'request'").

Definition kube_set_power_status (conn : bool) : M D unit :=
  log DEBUG "Starting set status operation" ;;
  except_Exception
    (apiversion ← opt_or_none "--apiversion";
     namespace ← _get_namespace;
     name ← opt_or_none "--plug";
     action ← opt_get "--action";
     virtctl_vm_action conn (if decide (action = VStr "on") then "start" else "stop") namespace name apiversion)
    (λ e, log ERROR ("Failed to set power status, with Exception: " +:+ exn_str e) ;; fail EC_STATUS true).

(** Is there a connection? *)
Definition kube_connect : M D bool :=
  if kube_config && kube_dynamic then
    kubeconfig ← opt_or_none "--kubeconfig";
    kube_do (kube_client kubeconfig) ;;
    mret true
  else
    log ERROR "Couldn't import kubernetes.config or openshift.dynamic.DynamicClient - not found or not accessible" ;;
    mret false.
End Kube.

Definition kubevirt_opts : list (string * optdef) := [
  ("namespace", opt [Getopt ":";
     Longopt "namespace";
     Help "--namespace=[namespace]        Namespace of the KubeVirt machine";
     Shortdesc "Namespace of the KubeVirt machine.";
     Required "0";
     Order 2]);
  ("kubeconfig", opt [Getopt ":";
     Longopt "kubeconfig";
     Help "--kubeconfig=[kubeconfig]      Kubeconfig file path";
     Shortdesc "Kubeconfig file path";
     Required "0";
     Order 4]);
  ("apiversion", opt [Getopt ":";
     Longopt "apiversion";
     Help "--apiversion=[apiversion]      Version of the KubeVirt API";
     Shortdesc "Version of the KubeVirt API.";
     Required "0";
     Default (VStr "kubevirt.io/v1");
     Order 5])
].

Definition kubevirt_docs : docs := Docs
  ("fence_kubevirt is a Power Fencing agent for KubeVirt.")
  ("Fence agent for KubeVirt") (Some ("https://kubevirt.io/")) [] None.


Definition fence_kubevirt_main {D} `{Host D, Kube D} (fuel : nat) (time_start : Z) (inv : invocation)
    (set_order : list string → list string) : M D unit :=
  mwhen (negb kube_exceptions)
    (log ERROR "Couldn't import kubernetes.client.exceptions.ApiException or kubernetes.client.rest.ApiException - not found or not accessible") ;;
  add_options kubevirt_opts ;;
  allopt_set "power_timeout" (Default (VStr "40")) ;;
  checked_options inv ["port"; "namespace"; "kubeconfig"; "ssl_insecure"; "no_password"; "apiversion"] ;;
  show_docs (inv_prog inv) set_order (Some kubevirt_docs) ;;
  run_delay time_start 0 0 ;;
  conn ← kube_connect;
  result ← fence_action fuel (Some (kube_set_power_status conn))
             (Some (status ← kube_get_power_status conn; mret (VStr status))) (Some (kube_get_nodes_list conn)) None None;
  sys_exit result.

(** * OVH *)

Definition OVH_RESCUE_PRO_NETBOOT_ID : string := "28".
Definition OVH_HARD_DISK_NETBOOT_ID : string := "1".
Definition STATUS_HARD_DISK_SLEEP : Z := 240.
Definition STATUS_RESCUE_PRO_SLEEP : Z := 150.

Class Ovh (D : Type) := {
  ov_mkdtemp : D → (string + string) * D;
  ov_rmtree : string → D → option string * D;
  (** A client for a description of the service, with what is imported and for what *)
  ov_client : string → string → string → D → option string * D;
  ov_login : pyval → pyval → string → Z → D → (string + string) * D;
  (** A method of the service with its arguments *)
  ov_service : string → list pyval → D → option string * D;
  (** [conn.logout(session)] *)
  ov_logout : pyval → D → option string * D;
  (** Start and end of the last reboot *)
  ov_reboot_status : pyval → pyval → D → (string + string * string) * D;
  (** [strptime] and [strftime] of the format of the service, in microseconds *)
  ov_strptime : string → option Z;
  ov_strftime : Z → string
}.

Section Ovh.
Context {D : Type} `{Ovh D}.

Definition suds_call {A} (f : D → (string + A) * D) : M D A := λ s,
  match f (s_dev s) with
  | (inl e, d) => (Raise (OtherError e), set_dev d s)
  | (inr a, d) => (Ret a, set_dev d s)
  end.

Definition suds_do (f : D → option string * D) : M D unit := λ s,
  match f (s_dev s) with
  | (Some e, d) => (Raise (OtherError e), set_dev d s)
  | (None, d) => (Ret tt, set_dev d s)
  end.

Definition netboot_reboot (mode : string) : M D unit :=
  session ← opt_get "session";
  plug ← opt_get "--plug";
  email ← opt_get "--email";
  suds_do (ov_service "dedicatedNetbootModifyById" [session; plug; VStr mode; VStr ""; email]) ;;
  suds_do (ov_service "dedicatedHardRebootDo"
             [session; plug; VStr "Fencing initiated by cluster"; VStr ""; VStr "en"]) ;;
  suds_do (ov_logout session).

Definition parse_time (text : string) : M D Z :=
  match ov_strptime text with
  | Some t => mret t
  | None => raise (ValueError ("time data " +:+ py_repr text +:+ " does not match format '%Y-%m-%d %H:%M:%S'"))
  end.

Definition reboot_time : M D (Z * Z) :=
  session ← opt_get "session";
  plug ← opt_get "--plug";
  '(start, stop) ← suds_call (ov_reboot_status session plug);
  tmpstart ← parse_time start;
  tmpend ← parse_time stop;
  mret (tmpstart, tmpend).

(** The session of the service; the directory is removed at the end. *)
Definition ovh_soap_login (tmp_dir : string) : M D unit :=
  session ← except_Exception
    (suds_do (ov_client "https://www.ovh.com/soapi/soapi-re-1.59.wsdl" "http://schemas.xmlsoap.org/soap/encoding/"
                "http://soapi.ovh.com/manager") ;;
     username ← opt_get "--username";
     password ← opt_get "--password";
     suds_call (ov_login username password "en" 0))
    (λ e, log ERROR ("Failed: " +:+ exn_str e) ;; fails EC_LOGIN_DENIED);
  opt_set "session" (VStr session).

Definition ovh_logout : M D unit :=
  except_Exception (session ← opt_get "session"; suds_do (ov_service "logout" [session])) (λ _, mret tt).

(** The reboot was seen: it started before the wait was over and ends after it. *)
Definition ovh_verified (after : Z) (reboot : Z * Z) : bool := ((reboot.1 <? after) && (after <? reboot.2))%Z.

(** The actions other than monitor *)
Definition ovh_reboot : M D Z :=
  before_netboot_reboot ← time;
  action ← opt_get "--action";
  (if decide (action = VStr "off") then netboot_reboot OVH_RESCUE_PRO_NETBOOT_ID ;; sleep STATUS_RESCUE_PRO_SLEEP
   else mwhen (bool_decide (action = VStr "on") || bool_decide (action = VStr "reboot"))
          (netboot_reboot OVH_HARD_DISK_NETBOOT_ID ;; sleep STATUS_HARD_DISK_SLEEP)) ;;
  after_netboot_reboot ← time;
  reboot_t ← reboot_time;
  log DEBUG ("reboot_start_end.start: " +:+ ov_strftime reboot_t.1 +:+ nl) ;;
  log DEBUG ("before_netboot_reboot: " +:+ ov_strftime before_netboot_reboot +:+ nl) ;;
  log DEBUG ("reboot_start_end.end: " +:+ ov_strftime reboot_t.2 +:+ nl) ;;
  log DEBUG ("after_netboot_reboot: " +:+ ov_strftime after_netboot_reboot +:+ nl) ;;
  if ovh_verified after_netboot_reboot reboot_t then log DEBUG ("Netboot reboot went OK." +:+ nl) ;; mret 0%Z
  else log DEBUG ("ERROR: Netboot reboot wasn't OK." +:+ nl) ;; mret 1%Z.

(** From the login to the exit *)
Definition ovh_run (tmp_dir : string) : M D unit :=
  ovh_soap_login tmp_dir ;;
  action ← opt_get "--action";
  mwhen (bool_decide (action = VStr "monitor")) (ovh_logout ;; sys_exit EC_OK) ;;
  result ← ovh_reboot;
  ovh_logout ;;
  sys_exit result.

Definition ovh_refused : M D unit :=
  action ← opt_get "--action";
  mwhen (bool_decide (action = VStr "list")) (fail_usage "Action 'list' is not supported in this fence agent" true) ;;
  mwhen (bool_decide (action = VStr "list-status"))
    (fail_usage "Action 'list-status' is not supported in this fence agent" true) ;;
  email ← opt_has "--email";
  mwhen (negb email) (fail_usage "You have to enter e-mail address which is notified by fence agent" true) ;;
  mwhen (bool_decide (action = VStr "validate-all")) (sys_exit EC_OK).

(** Names end in .ovh.net. *)
Definition ovh_domain : M D unit :=
  action ← opt_get "--action";
  if decide (action = VStr "monitor") then mret tt
  else
    plug ← opt_str "--plug";
    mwhen (negb (endswith ".ovh.net" plug)) (opt_set "--plug" (VStr (plug +:+ ".ovh.net"))).
End Ovh.

Definition ovh_opts : list (string * optdef) := [
  ("email", opt [Getopt "Z:";
     Longopt "email";
     Help "-Z, --email=[email]          email for reboot message: admin@domain.com";
     Required "1";
     Shortdesc "Reboot email";
     Order 1])
].

Definition ovh_docs : docs := Docs
  ("fence_ovh is a Power Fencing agent which can be used within OVH datecentre. Poweroff is simulated with a reboot into rescue-pro mode.")
  ("Fence agent for OVH") (Some ("http://www.ovh.net")) [] None.


Definition fence_ovh_main {D} `{Host D, Ovh D} (time_start : Z) (inv : invocation)
    (set_order : list string → list string) : M D unit :=
  add_options ovh_opts ;;
  '(avail_opt, opt) ← process_input inv ["login"; "passwd"; "port"; "email"; "no_status"; "web"];
  check_input (inv_env inv) avail_opt opt true ;;
  show_docs (inv_prog inv) set_order (Some ovh_docs) ;;
  ovh_refused ;;
  ovh_domain ;;
  run_delay time_start 0 0 ;;
  tmp_dir ← suds_call ov_mkdtemp;
  finally (ovh_run tmp_dir) (suds_do (ov_rmtree tmp_dir)).
