(* ===== verification/Xen.v ===== *)
(** * XenAPI: the library and fence_xenapi

    [lib/XenAPI.py.py] and [agents/xenapi/fence_xenapi.py]: the session over XML-RPC, which
    logs in again when it has become invalid, and the power of virtual machines. The proxy
    of XML-RPC is a class; its values are those of JSON. *)

From S2P Require Import Prelude PyStr OptionDefs Effects Fail Host Input Process CheckInput.
From S2P Require Import Login Metadata Action SnmpAgents Console MenuAgents TableAgents Json Globals Http.
From S2P Require Import Sessions Ibmz.

Local Open Scope string_scope.

Class Xmlrpc (D : Type) := {
  (** A proxy for an address, or the message of an exception *)
  xr_open : string → D → option string * D;
  (** A method with its parameters: a value, or an exception with its class and its text *)
  xr_call : string → list json → D → (string * string + json) * D;
  (** The class of the catalog of messages *)
  xr_catalog : string;
  xr_float : string → string
}.

(** A session: the handle that the server gave, and how it was logged in last. *)
Record xen_session := XenSession {
  xs_session : json;
  xs_login : option (string * list json)
}.

Definition no_xen_session : xen_session := XenSession JNull None.

(** ** Results *)

Section Results.
Context {D : Type} `{Xmlrpc D}.

(** [xmlrpclib.Fault(code, message)] *)
Definition fault {A} (code : Z) (message : string) : M D A :=
  raise (CustomError "Fault" ("<Fault " +:+ str_of_Z code +:+ ": " +:+ py_repr message +:+ ">")).

(** [int(v)] *)
Definition json_int (v : json) : M D Z :=
  match v with
  | JStr x => as_int (VStr x)
  | _ =>
      match decimal_of v with
      | Some (n, e) => mret (if (e <? 0)%Z then Z.quot n (10 ^ (- e)) else n * 10 ^ e)%Z
      | None =>
          raise (TypeError ("int() argument must be a string, a bytes-like object or a real number, not '" +:+
                            json_type v +:+ "'"))
      end
  end.

(** One less, for the handle of the session that the caller does not see *)
Definition one_less (v : json) : M D json := n ← json_int v; mret (JStr (str_of_Z (n - 1))).

(** The details that a [Failure] keeps *)
Definition failure_details (details : json) : M D json :=
  except_Exception
    (first ← json_nth details 0;
     if same_key_value first (JStr "MESSAGE_PARAMETER_COUNT_MISMATCH") then
       given ← json_nth details 2;
       given ← one_less given;
       wanted ← json_nth details 3;
       wanted ← one_less wanted;
       match details with
       | JList l => mret (JList (<[3%nat := wanted]> (<[2%nat := given]> l)))
       | _ => raise (TypeError ("'" +:+ json_type details +:+ "' object does not support item assignment"))
       end
     else mret details)
    (λ exn, mret (JList [JStr "INTERNAL_ERROR"; JStr ("Client-side: " +:+ exn_str exn)])).

(** The text of the exception holds its details. *)
Definition failure {A} (details : json) : M D A :=
  details ← failure_details details; raise (CustomError "Failure" (json_str xr_float details)).

(** [str(exn)]: a [Failure] looks for a translation, which the catalogs of Python 3 do not
    have, and says so. *)
Definition xen_str (e : exn) : M D string :=
  match e with
  | CustomError "Failure" details =>
      log ERROR ("'" +:+ xr_catalog +:+ "' object has no attribute 'ugettext'" +:+ nl) ;;
      mret ("Xen-API failure: " +:+ details)
  | _ => mret (exn_str e)
  end.

(** The value of a result; [None] when the session has become invalid. A result of another
    kind is put behind a text, which is a TypeError unless it is a text. *)
Definition _parse_result (result : json) : M D (option json) :=
  match result with
  | JDict d =>
      match dict_get "Status" d with
      | None => raise (TypeError ("can only concatenate str (not " +:+ dq +:+ "dict" +:+ dq +:+ ") to str"))
      | Some status =>
          if same_key_value status (JStr "Success") then
            match dict_get "Value" d with
            | Some value => mret (Some value)
            | None => fault 500 "Missing Value in response from server"
            end
          else
            match dict_get "ErrorDescription" d with
            | Some description =>
                first ← json_nth description 0;
                if same_key_value first (JStr "SESSION_INVALID") then mret None else failure description
            | None => fault 500 "Missing ErrorDescription in response from server"
            end
      end
  | JStr x => fault 500 ("Missing Status in response from server" +:+ x)
  | _ => raise (TypeError ("can only concatenate str (not " +:+ dq +:+ json_type result +:+ dq +:+ ") to str"))
  end.

Definition xml_rpc (methodname : string) (params : list json) : M D json := λ s,
  match xr_call methodname params (s_dev s) with
  | (inl (cls, msg), d) => (Raise (CustomError cls msg), set_dev d s)
  | (inr v, d) => (Ret v, set_dev d s)
  end.
End Results.

#[export] Instance lift_xmlrpc {G D} `{Xmlrpc D} : Xmlrpc (G * D) := {|
  xr_open uri := lift_op (xr_open uri);
  xr_call methodname params := lift_op (xr_call methodname params);
  xr_catalog := xr_catalog (D := D);
  xr_float := xr_float (D := D)
|}.

(** ** Sessions *)

Section Session.
Context {D : Type} `{Xmlrpc D}.

Definition _login (method : string) (params : list json) : M (xen_session * D) unit :=
  answer ← xml_rpc ("session." +:+ method) params;
  result ← _parse_result answer;
  match result with
  | None => fault 500 "Received SESSION_INVALID when logging in"
  | Some handle => set_globals (XenSession handle (Some (method, params)))
  end.

(** The tries that are left; between them the session logs in as it did last. *)
Fixpoint session_tries (tries : nat) (methodname : string) (params : list json) : M (xen_session * D) json :=
  match tries with
  | O => fault 500 "Tried 3 times to get a valid session, but failed"
  | S k =>
      x ← globals;
      answer ← xml_rpc methodname (xs_session x :: params);
      result ← _parse_result answer;
      match result with
      | Some v => mret v
      | None =>
          match xs_login x with
          | Some (method, login_params) => _login method login_params
          | None => fault 401 "You must log in"
          end ;;
          session_tries k methodname params
      end
  end.

Definition xenapi_request (methodname : string) (params : list json) : M (xen_session * D) json :=
  if startswith "login" methodname then _login methodname params ;; mret JNull
  else session_tries 3 methodname params.

(** ** fence_xenapi *)

Definition EC_BAD_SESSION : Z := 1.

Definition is_verbose : M (xen_session * D) bool := opt_has "--verbose".

Definition xen_print (v : string) : M (xen_session * D) unit := py_print v.

(** The machine of [--uuid], or the only one with the name of [--plug] *)
Definition return_vm_reference : M (xen_session * D) json :=
  verbose ← is_verbose;
  uuid ← opt_find "--uuid";
  match uuid with
  | Some v =>
      uuid ← as_str v;
      let uuid := lower uuid in
      try_except (xenapi_request "VM.get_by_uuid" [JStr uuid])
        (λ e,
           if is_Exception e then
             Some (mwhen verbose (py_print ("No VM's found with a UUID of " +:+ dq +:+ uuid +:+ dq)) ;; raise e)
           else None)
  | None =>
      plug ← opt_find "--plug";
      match plug with
      | Some v =>
          let vm_name := py_str v in
          vm_arr ← xenapi_request "VM.get_by_name_label" [JStr vm_name];
          l ← json_iter vm_arr;
          match l with
          | [vm] => mret vm
          | [] =>
              mwhen verbose (py_print ("No VM's found with a name of " +:+ dq +:+ vm_name +:+ dq)) ;;
              raise (OtherError "NAME_INVALID")
          | _ =>
              mwhen verbose
                (py_print ("Multiple VM's have the name " +:+ dq +:+ vm_name +:+ dq +:+ ", use UUID instead")) ;;
              raise (OtherError "MULTIPLE_VMS_FOUND")
          end
      | None => raise (OtherError "VM_LOGIC_ERROR")
      end
  end.

(** Neither a template nor a control domain *)
Definition is_machine (record : json) : M (xen_session * D) bool :=
  template ← json_item record "is_a_template";
  if json_truthy template then mret false
  else control ← json_item record "is_control_domain"; mret (negb (json_truthy control)).

Definition xen_show (v : json) : string := json_str (xr_float (D := D)) v.

(** [print("UUID:", ...)] *)
Definition print_record (uuid name status : json) : M (xen_session * D) unit :=
  py_print ("UUID: " +:+ xen_show uuid +:+ " NAME: " +:+ xen_show name +:+ " POWER STATUS: " +:+ xen_show status).

(** [except Exception as exn: print(str(exn))] *)
Definition printing {A} (m : M (xen_session * D) A) (after : M (xen_session * D) A) : M (xen_session * D) A :=
  except_Exception m (λ e, text ← xen_str e; py_print text ;; after).

Definition xen_get_power_fn : M (xen_session * D) string :=
  verbose ← is_verbose;
  printing
    (vm ← return_vm_reference;
     record ← xenapi_request "VM.get_record" [vm];
     machine ← is_machine record;
     if (machine : bool) then
       status ← json_item record "power_state";
       mwhen verbose
         (uuid ← json_item record "uuid"; name ← json_item record "name_label"; print_record uuid name status) ;;
       mret (if same_key_value status (JStr "Halted") then "off" else "on")
     else mret "Error")
    (mret "Error").

(** Exceptions are printed, and the caller does not see them. *)
Definition xen_set_power_fn : M (xen_session * D) unit :=
  printing
    (vm ← return_vm_reference;
     record ← xenapi_request "VM.get_record" [vm];
     machine ← is_machine record;
     mwhen machine
       (action ← opt_get "--action";
        if decide (action = VStr "on") then
          xenapi_request "VM.start" [vm; JBool false; JBool true] ;; mret tt
        else if decide (action = VStr "off") then xenapi_request "VM.hard_shutdown" [vm] ;; mret tt
        else if decide (action = VStr "reboot") then xenapi_request "VM.hard_reboot" [vm] ;; mret tt
        else mret tt))
    (mret tt).

(** One machine of the listing *)
Definition xen_outlet (verbose : bool) (vm : json) (result : outlets) : M (xen_session * D) outlets :=
  record ← xenapi_request "VM.get_record" [vm];
  machine ← is_machine record;
  if (machine : bool) then
    name ← json_item record "name_label";
    uuid ← json_item record "uuid";
    status ← json_item record "power_state";
    key ← json_key uuid;
    mwhen verbose (print_record uuid name status) ;;
    mret (dict_insert key (xen_show name, Some (xen_show status)) result)
  else mret result.

(** The machines that are left: an exception is printed and ends the listing. *)
Fixpoint xen_outlets (verbose : bool) (vms : list json) (result : outlets) : M (xen_session * D) outlets :=
  match vms with
  | [] => mret result
  | vm :: vms =>
      r ← printing (result ← xen_outlet verbose vm result; mret (Some result)) (mret None);
      match r with Some result => xen_outlets verbose vms result | None => mret result end
  end.

Definition xen_get_outlet_list : M (xen_session * D) outlets :=
  verbose ← is_verbose;
  vms ← printing (vms ← xenapi_request "VM.get_all" []; json_iter vms) (mret []);
  xen_outlets verbose vms [].

Definition connect_and_login : M (xen_session * D) unit :=
  url ← opt_str "--session-url";
  username ← opt_show "--username";
  password ← opt_show "--password";
  printing
    (r ← (λ s, let '(x, d) := xr_open url (s_dev s) in (Ret x, set_dev d s));
     match r with Some msg => raise (OSError msg) | None => mret tt end ;;
     set_globals no_xen_session ;;
     xenapi_request "login_with_password" [JStr username; JStr password] ;; mret tt)
    (sys_exit EC_BAD_SESSION).
End Session.

Definition xenapi_docs : docs := Docs
  ("fence_xenapi is a Power Fencing agent used on Citrix XenServer hosts. It uses the XenAPI, supplied by Citrix, to establish an XML-RPC session to a XenServer host. Once the session is established, further XML-RPC commands are issued in order to switch on, switch off, restart and query the status of virtual machines running on the host.")
  ("Fence agent for Citrix XenServer over XenAPI") (Some ("http://www.xenproject.org")) [] None.

Definition fence_xenapi_main {D} `{Host D, Xmlrpc D} (fuel : nat) (time_start : Z) (inv : invocation)
    (set_order : list string → list string) : M (xen_session * D) unit :=
  checked_options inv ["login"; "passwd"; "port"; "no_login"; "no_password"; "session_url"; "web"] ;;
  show_docs (inv_prog inv) set_order (Some xenapi_docs) ;;
  run_delay time_start 0 0 ;;
  connect_and_login ;;
  result ← fence_action fuel (Some xen_set_power_fn) (Some (status ← xen_get_power_fn; mret (VStr status)))
             (Some xen_get_outlet_list) None None;
  sys_exit result.
