(* ===== verification/XmlAgents.v ===== *)
(** * Agents on XML

    [agents/vmware_soap/fence_vmware_soap.py], [agents/vmware_vcloud/fence_vmware_vcloud.py],
    [agents/amt_ws/fence_amt_ws.py] and [agents/ilo/fence_ilo.py]. suds, pywsman, the
    transfers of pycurl and the parser of XML are classes. *)

From S2P Require Import Prelude PyStr PyRe OptionDefs Effects Fail Host Input Process CheckInput.
From S2P Require Import Login Metadata Action SnmpAgents Console Ipmilan MenuAgents TableAgents Json Globals Http.
From S2P Require Import ConsoleAgents WebAgents Sessions Ibmz.
From Stdlib Require Import QArith_base.

Local Open Scope string_scope.

(** ** XML *)

Inductive xml := Elem (tag : string) (attrib : list (string * string)) (text : option string) (children : list xml).

Class XmlParser := {
  (** [ElementTree.fromstring(text)], or the message of its ParseError *)
  xml_fromstring : string → string + xml;
  (** What Python prints for an element *)
  xml_show : xml → string
}.

Definition xml_tag (e : xml) : string := let 'Elem tag _ _ _ := e in tag.
Definition xml_attrib (e : xml) : list (string * string) := let 'Elem _ attrib _ _ := e in attrib.
Definition xml_text (e : xml) : option string := let 'Elem _ _ text _ := e in text.
Definition xml_children (e : xml) : list xml := let 'Elem _ _ _ children := e in children.

(** [e.iter()]: the element and all below it *)
Fixpoint xml_iter (e : xml) : list xml :=
  match e with Elem _ _ _ children => e :: concat (map xml_iter children) end.

Definition xml_iter_tag (tag : string) (e : xml) : list xml := List.filter (λ x, bool_decide (xml_tag x = tag)) (xml_iter e).

(** [e.find('.//tag')] *)
Definition find_below (tag : string) (e : xml) : option xml :=
  List.find (λ x, bool_decide (xml_tag x = tag)) (tail (xml_iter e)).

Definition attribute {D} (k : string) (e : xml) : M D string :=
  match dict_get k (xml_attrib e) with Some v => mret v | None => raise (KeyError k) end.

Definition parse_xml {D} `{XmlParser} (text : string) : M D xml :=
  match xml_fromstring text with inr e => mret e | inl msg => raise (CustomError "ParseError" msg) end.

(** * fence_vmware_vcloud *)

(** A transfer: the message of an error, or the status, the body and the headers; either
    text may not be UTF-8. *)
Class Vcloud (D : Type) := {
  vc_perform : curl_settings → D → (string + Z * (string + string) * (string + string)) * D;
  vc_close : D → D
}.

Definition vcloud_state : list (string * string) :=
  [("POWERED_ON", "on"); ("POWERED_OFF", "off"); ("SUSPENDED", "off")].

Section Vcloud.
Context {D : Type} `{XmlParser, Vcloud D}.

Fixpoint header_lines (lines : list string) (headers : list (string * string)) : list (string * string) :=
  match lines with
  | [] => headers
  | header_line :: lines =>
      match split1 ":"%char header_line with
      | None => headers
      | Some (name, value) => header_lines lines (dict_insert (lower (strip name)) (strip value) headers)
      end
  end.

(** The headers after the first line, up to a line without a colon *)
Definition parse_headers (data : string) : list (string * string) :=
  header_lines (tail (split_go (str1 CR +:+ nl) data 0)) [].

Definition method_settings (method : string) : list (string * pyval) :=
  if decide (method = "GET") then [("POST", VInt 0)]
  else if decide (method = "POST") then [("POSTFIELDS", VStr "")]
  else if decide (method = "DELETE") then [("CUSTOMREQUEST", VStr "DELETE")]
  else [].

(** The transfer with what was set on the handle *)
Definition vc_transfer : M (curl * D) (Z * string * string) :=
  c ← globals;
  r ← (λ s, let '(x, d) := vc_perform (c_settings c) (s_dev s).2 in (Ret x, set_dev ((s_dev s).1, d) s));
  match r with
  | inl msg => raise (PycurlError msg)
  | inr (rc, body, headers) =>
      result ← (match body with inr x => mret x | inl msg => raise (ValueError msg) end);
      headers ← (match headers with inr x => mret x | inl msg => raise (ValueError msg) end);
      mret (rc, result, headers)
  end.

(** The element of the answer, if it has a body, and its headers. An error whose element has
    children ends in a TypeError. *)
Definition vc_send_command (command method : string) : M (curl * D) (option xml * list (string * string)) :=
  base ← get_base_url;
  let url := base +:+ command in
  ascii_url ← encode_ascii url;
  setopt "URL" (VStr ascii_url) ;;
  setopts (method_settings method) ;;
  '(rc, body, data) ← vc_transfer;
  let headers := parse_headers data in
  result ← (if decide (body = "") then mret None else e ← parse_xml body; mret (Some e));
  mwhen (negb (bool_decide (rc ∈ [200; 202; 204]%Z)))
    (match result with
     | Some (Elem _ _ _ (_ :: _)) => raise (TypeError "element indices must be integers")
     | _ => raise (OtherError ("Remote returned " +:+ str_of_Z rc +:+ " for request to " +:+ url))
     end) ;;
  log DEBUG ("url: " +:+ url) ;;
  log DEBUG ("method: " +:+ method) ;;
  log DEBUG ("response code: " +:+ str_of_Z rc) ;;
  log DEBUG ("result: " +:+ match result with Some e => xml_show e | None => "" end +:+ nl) ;;
  mret (result, headers).

(** An element is needed; a text has no attributes. *)
Definition element (what : string) (result : option xml) : M (curl * D) xml :=
  match result with
  | Some e => mret e
  | None => raise (AttributeError ("'str' object has no attribute '" +:+ what +:+ "'"))
  end.

(** The text after the first [sep] *)
Fixpoint after_text (sep s : string) : option string :=
  if startswith sep s then Some (String.substring (String.length sep) (String.length s - String.length sep) s)
  else match s with "" => None | String _ t => after_text sep t end.

(** [VM.attrib['href'].split('/vm-', 1)[1]] *)
Definition vm_id (e : xml) : M (curl * D) string :=
  href ← attribute "href" e;
  match after_text "/vm-" href with Some id => mret id | None => raise IndexError end.

Definition vcloud_get_power_status : M (curl * D) pyval :=
  plug ← opt_show "--plug";
  '(result, _) ← except_Exception (vc_send_command ("vApp/vm-" +:+ plug) "GET")
    (λ e, log DEBUG ("Failed: " +:+ exn_str e) ;; fails EC_STATUS);
  VM ← element "attrib" result;
  id ← vm_id VM;
  opt_set "id" (VStr id) ;;
  status ← attribute "status" VM;
  mret (if decide (status = "3") then VStr "off"
        else if decide (status = "4") then VStr "on"
        else if decide (status = "8") then VStr "off"
        else VInt EC_STATUS).

Definition vcloud_actions : list (string * string) :=
  [("on", "powerOn"); ("off", "powerOff"); ("shutdown", "shutdown"); ("suspend", "suspend"); ("reset", "reset")].

Definition vcloud_set_power_status : M (curl * D) unit :=
  option ← opt_show "--action";
  action ← (match dict_get option vcloud_actions with Some x => mret x | None => raise (KeyError option) end);
  plug ← opt_show "--plug";
  except_Exception
    (vc_send_command ("vApp/vm-" +:+ plug +:+ "/power/action/" +:+ action) "POST" ;; mret tt)
    (λ e, log DEBUG ("Failed: " +:+ exn_str e) ;; fail EC_STATUS true).

Definition vcloud_outlet (outlets : outlets) (VM : xml) : M (curl * D) Action.outlets :=
  href ← attribute "href" VM;
  if contains "/vApp/" href then
    uuid ← vm_id VM;
    container ← attribute "containerName" VM;
    name ← attribute "name" VM;
    status ← attribute "status" VM;
    state ← (match dict_get status vcloud_state with Some x => mret x | None => raise (KeyError status) end);
    mret (dict_insert ("[" +:+ uuid +:+ "] " +:+ container +:+ "\" +:+ name) (status, Some state) outlets)
  else mret outlets.

Definition vcloud_get_list : M (curl * D) outlets :=
  '(result, _) ← vc_send_command "vms/query" "GET";
  VMs ← element "iter" result;
  mfold vcloud_outlet [] (xml_iter_tag "{http://www.vmware.com/vcloud/v1.5}VMRecord" VMs).

Definition vcloud_accept : string := "Accept: application/*+xml;version=1.5".

Definition vcloud_connect : M (curl * D) unit :=
  secure ← opt_has "--ssl-secure";
  insecure ← opt_has "--ssl-insecure";
  ip ← opt_str "--ip";
  port ← opt_show "--ipport";
  path ← opt_str "--api-path";
  set_base_url ((if secure || insecure : bool then "https:" else "http:") +:+ "//" +:+ ip +:+ ":" +:+ port +:+ path +:+ "/") ;;
  setopt "HTTPHEADER" (VList [vcloud_accept]) ;;
  setopt "HTTPAUTH" (VStr "HTTPAUTH_BASIC") ;;
  username ← opt_str "--username";
  password ← opt_str "--password";
  setopt "USERPWD" (VStr (username +:+ ":" +:+ password)) ;;
  timeout ← opt_int "--shell-timeout";
  setopt "TIMEOUT" (VInt timeout) ;;
  tls ← ssl_settings;
  setopts tls ;;
  '(_, headers) ← except_Exception (vc_send_command "sessions" "POST")
    (λ e, log DEBUG ("Failed: " +:+ exn_str e) ;; fails EC_LOGIN_DENIED);
  token ← (match dict_get "x-vcloud-authorization" headers with
           | Some x => mret x
           | None => raise (KeyError "x-vcloud-authorization")
           end);
  setopt "HTTPHEADER" (VList [vcloud_accept; "x-vcloud-authorization: " +:+ token]).

Definition vcloud_disconnect : M (curl * D) unit :=
  vc_send_command "session" "DELETE" ;;
  modify (λ s, set_dev ((s_dev s).1, vc_close (s_dev s).2) s).
End Vcloud.

Definition vcloud_opts : list (string * optdef) := [
  ("api_path", opt [Getopt ":";
     Longopt "api-path";
     Help "--api-path=[path]              The path part of the API URL";
     Default (VStr "/api");
     Required "0";
     Shortdesc "The path part of the API URL";
     Order 2])
].

Definition vcloud_docs : docs := Docs
  ("fence_vmware_vcloud is a Power Fencing agent which can be used with VMware vCloud Director API to fence virtual machines.")
  ("Fence agent for VMware vCloud Director API") (Some ("https://www.vmware.com")) [] None.

Definition fence_vmware_vcloud_main {D} `{Host D, XmlParser, Vcloud D} (fuel : nat) (time_start : Z) (inv : invocation)
    (set_order : list string → list string) : M (curl * D) unit :=
  add_options vcloud_opts ;;
  allopt_set "shell_timeout" (Default (VStr "5")) ;;
  allopt_set "power_wait" (Default (VStr "1")) ;;
  checked_options inv ["ipaddr"; "api_path"; "login"; "passwd"; "ssl"; "notls"; "web"; "port"] ;;
  show_docs (inv_prog inv) set_order (Some vcloud_docs) ;;
  run_delay time_start 0 0 ;;
  vcloud_connect ;;
  finally
    (result ← fence_action fuel (Some vcloud_set_power_status) (Some vcloud_get_power_status)
                (Some vcloud_get_list) None None;
     sys_exit result)
    vcloud_disconnect.

(** * fence_vmware_soap *)

(** An exception: its class and its text *)
Definition vim_error : Type := string * string.

(** The values of the objects of a service *)
Record vim_content := VimContent {
  vm_session_manager : string;
  vm_view_manager : string;
  vm_root_folder : string;
  vm_property_collector : string;
  vm_search_index : string
}.

Record vim_object := VimObject { vo_obj : string; vo_props : list (string * string) }.
Record vim_page := VimPage { vp_objects : list vim_object; vp_token : option string }.

(** The view with its traversal, and the properties of machines that are asked for *)
Record filter_spec := FilterSpec {
  fs_view : string;
  fs_traversal : string * string * string;     (* name, path and type *)
  fs_type : string;
  fs_paths : list string
}.

Class Vim (D : Type) := {
  vim_mkdtemp : D → (string + string) * D;
  vim_rmtree : string → D → option string * D;
  (** Address of the description, location, verification and timeout *)
  vim_client : string → string → bool → Z → D → option vim_error * D;
  vim_retrieve_content : D → (vim_error + vim_content) * D;
  vim_login : string → pyval → pyval → D → option vim_error * D;
  vim_view : string → string → D → (vim_error + string) * D;
  vim_retrieve : string → filter_spec → D → (vim_error + vim_page) * D;
  vim_continue : string → string → D → (vim_error + vim_page) * D;
  vim_find_path : string → string → D → (vim_error + option string) * D;
  vim_find_uuid : string → pyval → D → (vim_error + option string) * D;
  (** PowerOnVM_Task or PowerOffVM_Task *)
  vim_power : string → string → D → option vim_error * D;
  vim_logout : string → D → option vim_error * D
}.

Definition vim_exn (e : vim_error) : exn := CustomError e.1 e.2.

(** The global has the content once the login is done. *)
Section Vim.
Context {D : Type} `{Vim D}.
Definition vim_call {A} (f : D → (vim_error + A) * D) : M (option vim_content * D) A := λ s,
  match f (s_dev s).2 with
  | (inl e, d) => (Raise (vim_exn e), set_dev ((s_dev s).1, d) s)
  | (inr a, d) => (Ret a, set_dev ((s_dev s).1, d) s)
  end.

Definition vim_do (f : D → option vim_error * D) : M (option vim_content * D) unit := λ s,
  match f (s_dev s).2 with
  | (Some e, d) => (Raise (vim_exn e), set_dev ((s_dev s).1, d) s)
  | (None, d) => (Ret tt, set_dev ((s_dev s).1, d) s)
  end.

Definition service_content : M (option vim_content * D) vim_content :=
  c ← globals; match c with Some c => mret c | None => raise (KeyError "ServiceContent") end.

(** Address and verification *)
Definition soap_url : M (option vim_content * D) (string * bool) :=
  secure ← opt_has "--ssl-secure";
  insecure ← opt_has "--ssl-insecure";
  ip ← opt_str "--ip";
  port ← opt_show "--ipport";
  let '(scheme, verify) := if secure || insecure : bool then ("https://", negb insecure) else ("http://", false) in
  mret (scheme +:+ ip +:+ ":" +:+ port +:+ "/sdk", verify).

Definition soap_login : M (option vim_content * D) unit :=
  '(url, verify) ← soap_url;
  content ← try_except
    (timeout ← opt_int "--login-timeout";
     vim_do (vim_client (url +:+ "/vimService.wsdl") url verify (if (timeout =? 0)%Z then 15 else timeout)) ;;
     content ← vim_call vim_retrieve_content;
     username ← opt_get "--username";
     password ← opt_get "--password";
     vim_do (vim_login (vm_session_manager content) username password) ;;
     mret content)
    (λ e,
       match e with
       | CustomError "SSLError" ex =>
           Some (fail_usage ("Server side certificate verification failed: " +:+ ex) true ;; unassigned "ServiceContent")
       | SystemExit _ => None
       | _ => Some (log ERROR ("Server side certificate verification failed: " +:+ exn_str e) ;; fails EC_LOGIN_DENIED)
       end);
  set_globals (Some content).

(** Machines by name, states by uuid, uuids by object *)
Definition vim_tables : Type := outlets * list (string * string) * list (string * string).

Definition prop {A} (k : string) (info : list (string * A)) : M (option vim_content * D) A :=
  match dict_get k info with Some v => mret v | None => raise (KeyError k) end.

(** An object without a uuid is left out. *)
Definition process_object (t : vim_tables) (m : vim_object) : M (option vim_content * D) vim_tables :=
  let info := foldl (λ info i, dict_insert i.1 i.2 info) [] (vo_props m) in
  match dict_get "config.uuid" info with
  | None => mret t
  | Some config =>
      let '(machines, uuid, mappingToUUID) := t in
      state ← prop "summary.runtime.powerState" info;
      name ← prop "name" info;
      mret (dict_insert name (config, Some state) machines, dict_insert config state uuid,
            dict_insert (vo_obj m) config mappingToUUID)
  end.

Definition process_results (results : vim_page) : M (option vim_content * D) vim_tables := mfold process_object ([], [], []) (vp_objects results).

Definition dict_update {A} (d e : list (string * A)) : list (string * A) := foldl (λ d kv, dict_insert kv.1 kv.2 d) d e.

Definition update_tables (a b : vim_tables) : vim_tables :=
  (dict_update a.1.1 b.1.1, dict_update a.1.2 b.1.2, dict_update a.2 b.2).

Definition failed_call {A} (e : exn) : M (option vim_content * D) A := log ERROR ("Failed: " +:+ exn_str e) ;; fails EC_STATUS.

(** More pages while there is a token, and until the machine of [--uuid] is there *)
Fixpoint more_pages (fuel : nat) (collector : string) (raw_machines : vim_page) (t : vim_tables) : M (option vim_content * D) vim_tables :=
  match fuel with
  | O => out_of_fuel
  | S k =>
      match vp_token raw_machines with
      | None => mret t
      | Some token =>
          raw_machines ← except_Exception (vim_call (vim_continue collector token)) failed_call;
          more ← process_results raw_machines;
          let t := update_tables t more in
          uuid ← opt_find "--uuid";
          match uuid with
          | Some v =>
              if bool_decide (is_Some (dict_get (py_str v) t.1.2)) then mret t else more_pages k collector raw_machines t
          | None => more_pages k collector raw_machines t
          end
      end
  end.

(** All machines of the view of the root folder *)
Definition soap_machines (fuel : nat) (content : vim_content) : M (option vim_content * D) vim_tables :=
  view ← vim_call (vim_view (vm_view_manager content) (vm_root_folder content));
  let spec := FilterSpec view ("traverseEntities", "view", "ContainerView") "VirtualMachine"
                ["name"; "summary.runtime.powerState"; "config.uuid"] in
  raw_machines ← except_Exception (vim_call (vim_retrieve (vm_property_collector content) spec)) failed_call;
  t ← process_results raw_machines;
  more_pages fuel (vm_property_collector content) raw_machines t.

(** The uuid of [--plug]: a path of the inventory, or a name *)
Definition find_uuid (content : vim_content) (t : vim_tables) : M (option vim_content * D) unit :=
  plug ← opt_str "--plug";
  if startswith "/" plug then
    vm ← vim_call (vim_find_path (vm_search_index content) plug);
    match vm with
    | None => fail EC_STATUS true
    | Some value =>
        match dict_get value t.2 with
        | Some uuid => opt_set "--uuid" (VStr uuid)
        | None => fail EC_STATUS true
        end
    end
  else
    match dict_get plug t.1.1 with
    | Some (uuid, _) => opt_set "--uuid" (VStr uuid)
    | None => fail EC_STATUS true
    end.

Definition soap_get_power_status (fuel : nat) : M (option vim_content * D) (pyval + outlets) :=
  content ← service_content;
  t ← soap_machines fuel content;
  listing ← listing_action;
  if (listing : bool) then mret (inr t.1.1)
  else
    has_uuid ← opt_has "--uuid";
    mwhen (negb has_uuid) (find_uuid content t) ;;
    uuid ← opt_show "--uuid";
    match dict_get uuid t.1.2 with
    | Some state => mret (inl (VStr (if decide (state = "poweredOn") then "on" else "off")))
    | None => fails EC_STATUS
    end.

Definition soap_set_power_status : M (option vim_content * D) unit :=
  content ← service_content;
  uuid ← opt_get "--uuid";
  vm ← vim_call (vim_find_uuid (vm_search_index content) uuid);
  machine ← (match vm with Some x => mret x | None => raise (AttributeError "'NoneType' object has no attribute 'value'") end);
  action ← opt_get "--action";
  let on := bool_decide (action = VStr "on") in
  try_except (vim_do (vim_power (if on then "PowerOnVM_Task" else "PowerOffVM_Task") machine))
    (λ e,
       match e with
       | CustomError "WebFault" ex =>
           Some (if contains "Permission to perform this operation was denied" ex then fail EC_INVALID_PRIVILEGES true
                 else fail (if on then EC_WAITING_ON else EC_WAITING_OFF) true)
       | _ => None
       end).

Definition soap_logout : M (option vim_content * D) unit :=
  except_Exception (content ← service_content; vim_do (vim_logout (vm_session_manager content))) (λ _, mret tt).
End Vim.

Definition soap_docs : docs := Docs
  ("fence_vmware_soap is a Power Fencing agent which can be used with the virtual machines managed by VMWare products that have SOAP API v4.1+. " +:+ nl +:+ ".P" +:+ nl +:+ "Name of virtual machine (-n / port) has to be used in inventory path format (e.g. /datacenter/vm/Discovered virtual machine/myMachine). In the cases when name of yours VM is unique you can use it instead. Alternatively you can always use UUID to access virtual machine.")
  ("Fence agent for VMWare over SOAP API") (Some ("http://www.vmware.com")) [] None.

(** The directory for temporary files is removed before the logout. *)
Definition fence_vmware_soap_main {D} `{Host D, Vim D} (fuel : nat) (time_start : Z) (inv : invocation)
    (set_order : list string → list string) : M (option vim_content * D) unit :=
  finally
    (checked_options inv ["ipaddr"; "login"; "passwd"; "web"; "ssl"; "notls"; "port"] ;;
     show_docs (inv_prog inv) set_order (Some soap_docs) ;;
     logging_setup "level INFO" ;;
     run_delay time_start 0 0 ;;
     r ← (λ s, let '(x, d) := vim_mkdtemp (s_dev s).2 in (Ret x, set_dev ((s_dev s).1, d) s));
     tmp_dir ← (match r with inr dir => mret dir | inl msg => raise (OSError msg) end);
     finally
       (soap_login ;;
        result ← fence_action fuel (Some soap_set_power_status) (Some (as_status (soap_get_power_status fuel)))
                   (Some (as_outlets (soap_get_power_status fuel))) None None;
        sys_exit result)
       (modify (λ s, set_dev ((s_dev s).1, (vim_rmtree tmp_dir (s_dev s).2).2) s)))
    soap_logout.

(** * fence_amt_ws *)

Definition POWER_ON : string := "2".
Definition POWER_OFF : string := "8".
Definition POWER_CYCLE : string := "10".
Definition RET_SUCCESS : string := "0".

Definition CIM_PowerManagementService : string := "http://schemas.dmtf.org/wbem/wscim/1/cim-schema/2/CIM_PowerManagementService".
Definition CIM_ComputerSystem : string := "http://schemas.dmtf.org/wbem/wscim/1/cim-schema/2/CIM_ComputerSystem".
Definition CIM_AssociatedPowerManagementService : string :=
  "http://schemas.dmtf.org/wbem/wscim/1/cim-schema/2/CIM_AssociatedPowerManagementService".
Definition CIM_BootConfigSetting : string := "http://schemas.dmtf.org/wbem/wscim/1/cim-schema/2/CIM_BootConfigSetting".
Definition CIM_BootSourceSetting : string := "http://schemas.dmtf.org/wbem/wscim/1/cim-schema/2/CIM_BootSourceSetting".

(** A node that is built: name space, name, text, attributes and children *)
Inductive wsnode := WsNode (ns name : string) (text : option string) (attrs : list (string * string * string)) (children : list wsnode).

Record ws_client := WsClient { ws_host : pyval; ws_port : Z; ws_password : pyval }.

Class Wsman (D : Type) := {
  ws_installed : bool;
  (** The text of the root of the answer, if there is one: of a resource, or of a method
      with selectors and a document *)
  ws_get : ws_client → string → D → option string * D;
  ws_invoke : ws_client → list (string * string) → string → string → wsnode → D → option string * D
}.

Section Wsman.
Context {D : Type} `{XmlParser, Wsman D}.

Definition xml_find (doc : option string) (namespace item : string) : M D (option xml) :=
  match doc with
  | None => mret None
  | Some text => tree ← parse_xml text; mret (find_below ("{" +:+ namespace +:+ "}" +:+ item) tree)
  end.

(** [xml_find(...).text] *)
Definition found_text (e : option xml) : M D (option string) :=
  match e with
  | Some e => mret (xml_text e)
  | None => raise (AttributeError "'NoneType' object has no attribute 'text'")
  end.

Definition ws_addressing : string := "http://schemas.xmlsoap.org/ws/2004/08/addressing".
Definition ws_anonymous : string := "http://schemas.xmlsoap.org/ws/2004/08/addressing/role/anonymous".
Definition ws_wsman : string := "http://schemas.dmtf.org/wbem/wsman/1/wsman.xsd".

(** A reference to a resource, with its selectors *)
Definition ws_reference (namespace name resource : string) (selectors : list wsnode) : wsnode :=
  WsNode namespace name None []
    [WsNode ws_addressing "Address" (Some ws_anonymous) [] [];
     WsNode ws_addressing "ReferenceParameters" None []
       [WsNode ws_wsman "ResourceURI" (Some resource) [] [];
        WsNode ws_wsman "SelectorSet" None [] selectors]].

Definition ws_selector (name value : string) : wsnode := WsNode ws_wsman "Selector" (Some value) [(ws_wsman, "Name", name)] [].

Definition _generate_power_action_input (action : string) : wsnode :=
  let namespace := CIM_PowerManagementService in
  WsNode namespace "RequestPowerStateChange_INPUT" None []
    [WsNode namespace "PowerState" (Some action) [] [];
     ws_reference namespace "ManagedElement" CIM_ComputerSystem [ws_selector "Name" "ManagedSystem"]].

Definition ws_connect : M D ws_client :=
  mwhen (negb ws_installed) (raise (OtherError "name 'pywsman' is not defined")) ;;
  ip ← opt_get "--ip";
  port ← opt_int "--ipport";
  password ← opt_get "--password";
  mret (WsClient ip port password).

Definition no_power_state {A} : M D A :=
  ip ← opt_show "--ip";
  port ← opt_show "--ipport";
  log ERROR ("Failed to get power state for: " +:+ ip +:+ " port:" +:+ port) ;; fails EC_STATUS.

Definition ws_get_power_status : M D string :=
  client ← ws_connect;
  let namespace := CIM_AssociatedPowerManagementService in
  doc ← (λ s, let '(x, d) := ws_get client namespace (s_dev s) in (Ret x, set_dev d s));
  fault ← xml_find doc "http://www.w3.org/2003/05/soap-envelope" "Fault";
  mwhen (bool_decide (is_Some (xml_tag <$> fault))) no_power_state ;;
  power_state ← try_except (e ← xml_find doc namespace "PowerState"; found_text e)
    (λ e, match e with AttributeError _ => Some no_power_state | _ => None end);
  if decide (power_state = Some POWER_ON) then mret "on"
  else if decide (power_state = Some POWER_OFF) then mret "off"
  else fails EC_STATUS.

(** A method and the check of what it returned *)
Definition ws_invoke_method (client : ws_client) (selectors : list (string * string)) (resource method : string)
    (doc : wsnode) (failed : M D unit) : M D unit :=
  client_doc ← (λ s, let '(x, d) := ws_invoke client selectors resource method doc (s_dev s) in (Ret x, set_dev d s));
  e ← xml_find client_doc resource "ReturnValue";
  return_value ← found_text e;
  mwhen (negb (bool_decide (return_value = Some RET_SUCCESS))) (failed ;; fail EC_STATUS true).

Definition boot_device (boot : string) : option string :=
  if decide (boot = "PXE") then Some "Intel(r) AMT: Force PXE Boot"
  else if decide (boot ∈ ["HD"; "HDSAFE"]) then Some "Intel(r) AMT: Force Hard-drive Boot"
  else if decide (boot = "CD") then Some "Intel(r) AMT: Force CD/DVD Boot"
  else if decide (boot = "DIAG") then Some "Intel(r) AMT: Force Diagnostic Boot"
  else None.

Definition boot_order_input (boot device : string) : wsnode :=
  let namespace := CIM_BootConfigSetting in
  WsNode namespace "ChangeBootOrder_INPUT" None []
    [ws_reference namespace "Source" CIM_BootSourceSetting
       (ws_selector "InstanceID" device ::
        (if decide (boot = "hdsafe") then [ws_selector "UseSafeMode" "True"] else []))].

Definition set_boot_order (client : ws_client) : M D unit :=
  boot ← opt_show "--boot-option";
  match boot_device boot with
  | None => log ERROR ("Boot device: " +:+ boot +:+ " not supported.")
  | Some device =>
      ws_invoke_method client [("InstanceID", "Intel(r) AMT: Boot Configuration 0")] CIM_BootConfigSetting
        "ChangeBootOrder" (boot_order_input boot device)
        (ip ← opt_show "--ip"; log ERROR ("Failed to set boot device to: " +:+ boot +:+ " for: " +:+ ip))
  end.

Definition target_state (action : string) : option string :=
  dict_get action [("on", POWER_ON); ("off", POWER_OFF); ("reboot", POWER_CYCLE)].

Definition ws_set_power_status : M D unit :=
  client ← ws_connect;
  action ← opt_show "--action";
  boot ← opt_has "--boot-option";
  mwhen (bool_decide (is_Some (target_state action)) && boot) (set_boot_order client) ;;
  target ← (match target_state action with Some x => mret x | None => unassigned "target_state" end);
  ws_invoke_method client [("Name", "Intel(r) AMT Power Management Service")] CIM_PowerManagementService
    "RequestPowerStateChange" (_generate_power_action_input target)
    (ip ← opt_show "--ip"; log ERROR ("Failed to set power state: " +:+ action +:+ " for: " +:+ ip)).

(** The status is [None], so that the cycle has always worked. *)
Definition ws_reboot_cycle : M D bool := ws_set_power_status ;; mret true.
End Wsman.

Definition amt_ws_opts : list (string * optdef) := [
  ("boot_option", opt [Getopt "b:";
     Longopt "boot-option";
     Help ("-b, --boot-option=[option]     Change the default boot behavior of the" +:+ nl +:+ "                                  machine. (pxe|hd|hdsafe|cd|diag)");
     Required "0";
     Shortdesc "Change the default boot behavior of the machine.";
     Choices ["pxe"; "hd"; "hdsafe"; "cd"; "diag"];
     Order 1])
].

Definition amt_ws_docs : docs := Docs
  ("fence_amt_ws is a Power Fencing agent which can be used with Intel AMT (WS). This agent requires the pywsman Python library which is included in OpenWSMAN. (http://openwsman.github.io/).")
  ("Fence agent for AMT (WS)") (Some ("http://www.intel.com/")) [] None.

Definition fence_amt_ws_main {D} `{Host D, XmlParser, Wsman D} (fuel : nat) (time_start : Z) (inv : invocation)
    (set_order : list string → list string) : M D unit :=
  add_options amt_ws_opts ;;
  allopt_set "ipport" (Default (VStr "16992")) ;;
  checked_options inv ["ipaddr"; "no_login"; "passwd"; "boot_option"; "no_port"; "method"] ;;
  show_docs (inv_prog inv) set_order (Some amt_ws_docs) ;;
  run_delay time_start 0 0 ;;
  result ← fence_action fuel (Some ws_set_power_status) (Some (status ← ws_get_power_status; mret (VStr status)))
             None (Some ws_reboot_cycle) None;
  sys_exit result.

(** * fence_ilo *)

(** A version: a number, or the text that the user gave. *)
Inductive version := VersionText (s : string) | VersionNumber (q : Q).

(** What the agent keeps in the options that is no text *)
Record ilo_state := IloState {
  il_ribcl : option version;
  il_fw_version : option Q;
  il_fw_processor : option string
}.

(** [float(s)]; [None] is its ValueError. *)
Class Floats := { float_of : string → option Q }.

Section Ilo.
Context {D : Type} `{Terminal D, Floats}.
Variable time_start : Z.

(** [quoteattr(s)] *)
Definition quoteattr (s : string) : string :=
  let s := replace ">" "&gt;" (replace "<" "&lt;" (replace "&" "&amp;" s)) in
  let s := replace tab "&#9;" (replace (str1 CR) "&#13;" (replace nl "&#10;" s)) in
  if contains dq s then
    if contains "'" s then dq +:+ replace dq "&quot;" s +:+ dq else "'" +:+ s +:+ "'"
  else dq +:+ s +:+ dq.

Definition crlf : string := str1 CR +:+ nl.

Definition ilo_login_text : M (ilo_state * D) unit :=
  username ← opt_str "--username";
  password ← opt_str "--password";
  send ("<LOGIN USER_LOGIN = " +:+ quoteattr username +:+ " PASSWORD = " +:+ quoteattr password +:+ ">" +:+ crlf).

Definition quoted_group : re := Seqs [Lit dq; Group 1 (ManyLazy Any); Lit dq].

Definition hpilo_get_power_status : M (ilo_state * D) string :=
  ilo_login_text ;;
  send ("<SERVER_INFO MODE = " +:+ dq +:+ "read" +:+ dq +:+ "><GET_HOST_POWER_STATUS/>" +:+ crlf) ;;
  send ("</SERVER_INFO></LOGIN>" +:+ crlf) ;;
  found ← expect_one (PText ("HOST_POWER=" +:+ dq +:+ "(.*?)" +:+ dq)) "--power-timeout";
  status ← search_group (Seq (Lit "HOST_POWER=") quoted_group) 1 found;
  mret (strip (lower status)).

(** [v < x] and [v >= x] for a number [x]; a text is a TypeError. *)
Definition version_below (comparison : string) (v : version) (x : Q) : M (ilo_state * D) bool :=
  match v with
  | VersionNumber q => mret (negb (Qle_bool x q))
  | VersionText _ => raise (TypeError ("'" +:+ comparison +:+ "' not supported between instances of 'str' and a number"))
  end.

Definition ribcl_version : M (ilo_state * D) version :=
  g ← globals;
  match il_ribcl g with Some v => mret v | None => x ← opt_str "--ribcl-version"; mret (VersionText x) end.

(** The value of a constant of the source *)
Definition constant (x : string) : M (ilo_state * D) Q :=
  match float_of x with Some q => mret q | None => raise (ValueError x) end.

Definition press_button (processor : option string) (fw_version : option Q) : M (ilo_state * D) unit :=
  if decide (processor = Some "iLO2") then
    limit ← constant "1.29";
    version ← (match fw_version with Some q => mret q | None => raise (KeyError "fw_version") end);
    if negb (Qle_bool version limit) then send ("<HOLD_PWR_BTN TOGGLE=" +:+ dq +:+ "yes" +:+ dq +:+ " />" +:+ crlf)
    else send ("<HOLD_PWR_BTN />" +:+ crlf)
  else
    limit ← constant "2.21";
    version ← ribcl_version;
    old ← version_below "<" version limit;
    if (old : bool) then
      action ← opt_str "--action"; send ("<SET_HOST_POWER HOST_POWER = " +:+ dq +:+ action +:+ dq +:+ " />" +:+ crlf)
    else
      action ← opt_get "--action";
      send ((if decide (action = VStr "off") then "<HOLD_PWR_BTN/>" else "<PRESS_PWR_BTN/>") +:+ crlf).

Definition hpilo_set_power_status : M (ilo_state * D) unit :=
  ilo_login_text ;;
  send ("<SERVER_INFO MODE = " +:+ dq +:+ "write" +:+ dq +:+ ">") ;;
  g ← globals;
  press_button (il_fw_processor g) (il_fw_version g) ;;
  send ("</SERVER_INFO></LOGIN>" +:+ crlf).

(** [except pexpect.TIMEOUT] and [except pexpect.EOF], the first where a value is expected *)
Definition ilo_greeting : M (ilo_state * D) string :=
  send ("<?xml version=" +:+ dq +:+ "1.0" +:+ dq +:+ "?>" +:+ crlf) ;;
  t ← login_timeout;
  r ← log_expect [PText "</RIBCL>"; PText "<END_RIBCL/>"] t;
  mret r.1.2.

Definition denied_on (timeout eof : option (M (ilo_state * D) string)) (m : M (ilo_state * D) string)
    : M (ilo_state * D) string :=
  try_except m (λ e, match e with PexpectTIMEOUT _ => timeout | PexpectEOF _ => eof | _ => None end).

(** The greeting of the device; when the connection ends, once more with TLS 1.0. *)
Definition ilo_open (re_login : re) : M (ilo_state * D) string :=
  fence_login time_start re_login ;;
  denied_on (Some (fails EC_LOGIN_DENIED))
    (Some
       (tls ← opt_has "--tls1.0";
        mwhen tls (fail EC_LOGIN_DENIED true) ;;
        opt_set "--tls1.0" (VStr "1") ;;
        conn_close ;;
        fence_login time_start re_login ;;
        denied_on (Some (fails EC_LOGIN_DENIED)) (Some (fails EC_LOGIN_DENIED)) ilo_greeting))
    ilo_greeting.

Definition float_text (x : string) : M (ilo_state * D) Q :=
  match float_of x with
  | Some q => mret q
  | None => raise (ValueError ("could not convert string to float: " +:+ py_repr x))
  end.

Definition ribcl_re : re := Seq (LitI "<RIBCL VERSION=") quoted_group.
Definition field_re (name : string) : re := Seqs [LitI name; Many Space; Lit "="; Many Space; quoted_group].

(** Version and processor of the firmware *)
Definition read_firmware : M (ilo_state * D) unit :=
  send ("<RIB_INFO MODE=" +:+ dq +:+ "read" +:+ dq +:+ "><GET_FW_VERSION />" +:+ crlf) ;;
  send ("</RIB_INFO>" +:+ crlf) ;;
  t ← shell_timeout;
  log_expect [PText "<GET_FW_VERSION\s*\n"] t ;;
  t ← shell_timeout;
  r ← log_expect [PText "/>"] t;
  version ← search_group (field_re "FIRMWARE_VERSION") 1 r.1.2;
  number ← float_text version;
  g ← globals;
  set_globals (IloState (il_ribcl g) (Some number) (il_fw_processor g)) ;;
  processor ← search_group (field_re "MANAGEMENT_PROCESSOR") 1 r.1.2;
  g ← globals;
  set_globals (IloState (il_ribcl g) (il_fw_version g) (Some processor)).

(** The version of the protocol, the login and the firmware *)
Definition ilo_session (greeting : string) : M (ilo_state * D) unit :=
  try_except
    (version ← search_group ribcl_re 1 greeting;
     forced ← opt_has "--ribcl-version";
     mwhen (negb forced)
       (number ← float_text version; g ← globals;
        set_globals (IloState (Some (VersionNumber number)) (il_fw_version g) (il_fw_processor g))) ;;
     version ← ribcl_version;
     old ← version_below ">=" version 2;
     send ("<RIBCL VERSION=" +:+ dq +:+ (if (old : bool) then "1.2" else "2.0") +:+ dq +:+ ">" +:+ crlf) ;;
     ilo_login_text ;;
     mwhen (negb old) read_firmware ;;
     send ("</LOGIN>" +:+ crlf))
    (λ e, match e with PexpectTIMEOUT _ | PexpectEOF _ => Some (fail EC_LOGIN_DENIED true) | _ => None end).
End Ilo.

Definition ilo_opts : list (string * optdef) := [
  ("ribcl", opt [Getopt "r:";
     Longopt "ribcl-version";
     Help "-r, --ribcl-version=[version]  Force ribcl version to use";
     Required "0";
     Shortdesc "Force ribcl version to use";
     Order 1])
].

Definition ilo_docs (prog : string) : docs := Docs
  (basename prog +:+ " is a Power Fencing agent used for HP servers with the Integrated Light Out (iLO) PCI card.The agent opens an SSL connection to the iLO card. Once the SSL connection is established, the agent is able to communicate with the iLO card through an XML stream.")
  ("Fence agent for HP iLO") (Some ("http://www.hp.com")) [("fence_ilo2", "Fence agent for HP iLO2")] (Some "fence_ilo").

Definition fence_ilo_main {D} `{Host D, Terminal D, Floats} (fuel : nat) (time_start : Z) (inv : invocation)
    (set_order : list string → list string) : M (ilo_state * D) unit :=
  add_options ilo_opts ;;
  allopt_set "login_timeout" (Default (VStr "10")) ;;
  allopt_set "retry_on" (Default (VStr "3")) ;;
  allopt_set "ssl" (Default (VStr "1")) ;;
  checked_options inv ["ipaddr"; "login"; "passwd"; "ssl"; "notls"; "tls1.0"; "ribcl"] ;;
  show_docs (inv_prog inv) set_order (Some (ilo_docs (inv_prog inv))) ;;
  greeting ← ilo_open time_start default_re_login;
  ilo_session greeting ;;
  result ← fence_action fuel (Some hpilo_set_power_status) (Some (status ← hpilo_get_power_status; mret (VStr status)))
             None None None;
  sys_exit result.
