(* ===== verification/CloudSpec.v ===== *)
(** * Clouds

    Moving the interfaces of a machine of Azure into the subnet that fences and back, and when
    its network counts as off; the action off of fence_compute ends with success only when
    nova has confirmed it. *)

From S2P Require Import Prelude PyStr PyRe OptionDefs Effects Fail Host Input Process Login.
From S2P Require Import Metadata Action Globals Json Http WebAgents Judgments Sessions.
From S2P Require Import Ibmz Nova Azure.

Local Open Scope string_scope.
Local Open Scope list_scope.

(** ** Steps of the device

    [steps d m a d']: from any state with the device [d], [m] returns [a] and leaves [d']. *)

Definition steps {D A} (d : D) (m : M D A) (a : A) (d' : D) : Prop :=
  ∀ s, s_dev s = d → ∃ s', m s = (Ret a, s') ∧ s_dev s' = d'.

Section Steps.
Context {D : Type}.
Implicit Types d : D.

Lemma steps_mret {A} d (a : A) : steps d (mret a) a d.
Proof. intros s Hs. by exists s. Qed.

Lemma steps_log d l msg : steps d (log l msg) tt d.
Proof. intros s Hs. by eexists. Qed.

Lemma steps_bind {A B} d d1 d2 (m : M D A) (f : A → M D B) a b :
  steps d m a d1 → steps d1 (f a) b d2 → steps d (m ≫= f) b d2.
Proof.
  intros Hm Hf s Hs. destruct (Hm s Hs) as (s1 & Hm1 & Hs1). destruct (Hf s1 Hs1) as (s2 & Hf2 & Hs2).
  exists s2. split; [|done]. by rewrite (bind_Ret _ _ _ _ _ Hm1).
Qed.

Lemma steps_log_bind {A} d d' l msg (m : M D A) a : steps d m a d' → steps d (log l msg ;; m) a d'.
Proof. intros Hm. exact (steps_bind d d d' _ _ tt a (steps_log d l msg) Hm). Qed.

Lemma steps_mfor_same {A} d (l : list A) f : (∀ x, steps d (f x) tt d) → steps d (mfor l f) tt d.
Proof. intros Hf. induction l as [|x l IH]; [apply steps_mret|]. exact (steps_bind d d d _ _ tt tt (Hf x) IH). Qed.

(** The accumulator and the device go through [acc], one value per prefix of the list. *)
Lemma steps_mfold {A B} d (f : B → A → M D B) (g : B → A → B) l b :
  (∀ b x, x ∈ l → steps d (f b x) (g b x) d) → steps d (mfold f b l) (foldl g b l) d.
Proof.
  revert b. induction l as [|x l IH]; intros b Hf; [apply steps_mret|]. cbn [mfold foldl].
  eapply steps_bind; [apply Hf; left|]. apply IH. intros b' y Hy. apply Hf. by right.
Qed.

Lemma steps_when d d' (b : bool) (m : M D unit) :
  (b = true → steps d m tt d') → (b = false → d = d') → steps d (mwhen b m) tt d'.
Proof. destruct b; [by auto|]. intros _ Hd. rewrite <- Hd by done. apply steps_mret. Qed.

Lemma steps_try {A} d d' (m : M D A) h a : steps d m a d' → steps d (try_except m h) a d'.
Proof.
  intros Hm s Hs. destruct (Hm s Hs) as (s1 & Hm1 & Hs1). exists s1. split; [|done]. unfold try_except.
  by rewrite Hm1.
Qed.

Lemma steps_call {A} d d' (f : D → (azure_error + A) * D) a : f d = (inr a, d') → steps d (azure_call f) a d'.
Proof. intros Hf s <-. unfold azure_call. rewrite Hf. by eexists. Qed.

Lemma steps_do d d' (f : D → option azure_error * D) : f d = (None, d') → steps d (azure_do f) tt d'.
Proof. intros Hf s <-. unfold azure_do. rewrite Hf. by eexists. Qed.
End Steps.

(** ** Ids and subnets *)

Definition resource_key (id : string) : option (option string * option string) :=
  match parse_resource id with Some r => Some (rs_group r, rs_name r) | None => None end.

Definition subnet_called (name : string) (l : list azure_subnet) : option azure_subnet :=
  List.find (λ x, bool_decide (lower (sn_name x) = lower name)) l.

Section Reading.
Context {D : Type} `{Azure D}.

Lemma steps_resource (d : D) id r : parse_resource id = Some r → steps d (get_azure_resource id) r d.
Proof.
  unfold parse_resource, get_azure_resource. intros Hr. destruct (re_match resource_re id) as [m|] eqn:Hm; [|done].
  injection Hr as <-. eapply steps_bind; [|apply steps_mret]. unfold log_resource.
  apply steps_log_bind. eapply steps_bind; [apply steps_mfor_same; intros; apply steps_log|].
  do 2 apply steps_log_bind. destruct (resource_groups m 7) as [[|c x]|]; try apply steps_mret.
  apply steps_log_bind, steps_mfor_same. intros. apply steps_log.
Qed.

Lemma steps_subnet (d : D) name l : steps d (get_subnet l name) (subnet_called name l) d.
Proof.
  induction l as [|x l IH]; cbn [get_subnet subnet_called List.find]; [apply steps_mret|]. apply steps_log_bind.
  destruct (decide _) as [Hx|Hx]; [rewrite bool_decide_true by done|rewrite bool_decide_false by done; apply IH].
  apply steps_log_bind, steps_mret.
Qed.

Lemma steps_rule (d : D) nsg name direction :
  steps d (get_rule_for_nsg nsg name direction) (existsb (denies_all name direction) nsg) d.
Proof.
  apply steps_log_bind. induction nsg as [|x l IH]; cbn [find_rule existsb]; [apply steps_mret|]. apply steps_log_bind.
  destruct (denies_all name direction x); [apply steps_log_bind, steps_mret|apply IH].
Qed.
End Reading.

(** ** Networks *)

(** What the service may change in a configuration: a dynamic address. *)
Definition settled_config (c c' : ip_config) : Prop :=
  ic_name c' = ic_name c ∧ ic_subnet c' = ic_subnet c ∧ ic_method c' = ic_method c ∧
  (lower (ic_method c) ≠ lower IP_TYPE_DYNAMIC → ic_address c' = ic_address c).

Definition settles (nic nic' : azure_nic) : Prop :=
  az_nic_id nic' = az_nic_id nic ∧ az_tags nic' = az_tags nic ∧
  Forall2 settled_config (az_configs nic) (az_configs nic').

(** The documented behaviour of the calls: machines, virtual networks and groups stay, and an
    interface is kept as it was told, but for dynamic addresses. *)
Class AzureNetwork {D} `{Azure D} (machine : string → string → azure_vm)
    (vnet : option string → option string → list azure_subnet)
    (nsg : option string → option string → list security_rule)
    (view : D → option string * option string → option azure_nic) : Prop := {
  an_packages : has_msrestazure = true;
  an_version : ∃ l, ∀ s : st D, compute_version s = (Ret l, s);
  an_vm keywords rg name d : az_vm keywords rg name d = (inr (machine rg name), d);
  an_vnet rg name d : az_vnet rg name d = (inr (vnet rg name), d);
  an_nsg rg name d : az_security_group rg name d = (inr (nsg rg name), d);
  an_nic rg name d :
    match view d (rg, name) with
    | Some nic => az_nic rg name d = (inr nic, d)
    | None => ∃ e, az_nic rg name d = (inl e, d)
    end;
  an_update rg name nic d : ∃ d' nic', az_update_nic rg name nic d = (None, d') ∧ settles nic nic' ∧
    ∀ k, view d' k = if decide (k = (rg, name)) then Some nic' else view d k
}.

Section Network.
Context {D : Type} `{Azure D} {machine : string → string → azure_vm}.
Context {vnet : option string → option string → list azure_subnet}.
Context {nsg : option string → option string → list security_rule}.
Context {view : D → option string * option string → option azure_nic}.
Context `{!AzureNetwork machine vnet nsg view}.
Implicit Types (d : D) (c : ip_config) (nic : azure_nic).

(** The subnets of the virtual network that an id is in *)
Definition vnet_at (id : string) : option (list azure_subnet) :=
  match resource_key id with Some (rg, name) => Some (vnet rg name) | None => None end.

Definition fence_subnet_of c : option azure_subnet :=
  match vnet_at (sn_id (ic_subnet c)) with Some l => subnet_called FENCE_SUBNET_NAME l | None => None end.

(** A subnet whose group denies all in both directions *)
Definition closed_subnet (x : azure_subnet) : Prop :=
  ∃ group rg name, sn_security_group x = Some group ∧ resource_key group = Some (rg, name) ∧
    existsb (denies_all FENCE_INBOUND_RULE_NAME FENCE_INBOUND_RULE_DIRECTION) (nsg rg name) = true ∧
    existsb (denies_all FENCE_OUTBOUND_RULE_NAME FENCE_OUTBOUND_RULE_DIRECTION) (nsg rg name) = true.

Definition nic_at d (ref : string) : option azure_nic :=
  match resource_key ref with Some k => view d k | None => None end.

(** A configuration that is cut off *)
Definition cut_off c : Prop :=
  ∃ f, fence_subnet_of c = Some f ∧ closed_subnet f ∧ lower (sn_id f) = lower (sn_id (ic_subnet c)).

Lemma resource_key_inv id k : resource_key id = Some k → ∃ r, parse_resource id = Some r ∧ k = (rs_group r, rs_name r).
Proof. unfold resource_key. destruct (parse_resource id) as [r|]; [|done]. intros [= <-]. by exists r. Qed.

Lemma steps_nic d ref nic : nic_at d ref = Some nic → ∃ r, resource_key ref = Some (rs_group r, rs_name r) ∧
  steps d (read_nic_of ref) (r, nic) d.
Proof.
  unfold nic_at. destruct (resource_key ref) as [k|] eqn:Hk; [|done].
  apply resource_key_inv in Hk as (r & Hr & ->). intros Hn. exists r. split; [done|].
  eapply steps_bind; [by apply steps_resource|]. pose proof (an_nic (rs_group r) (rs_name r) d) as Hl. rewrite Hn in Hl.
  eapply steps_bind; [by apply steps_call|apply steps_mret].
Qed.

Lemma steps_vm d rg name : steps d (get_vm_resource rg name) (machine rg name) d.
Proof.
  destruct an_version as [l Hl]. eapply steps_bind; [intros s Hs; exists s; by rewrite Hl|].
  eapply steps_bind; [intros s Hs; by exists s|]. apply steps_call, an_vm.
Qed.

Lemma steps_fence_subnet d c f : fence_subnet_of c = Some f → steps d (get_fence_subnet_for_config c) (Some f) d.
Proof.
  unfold fence_subnet_of, vnet_at. destruct (resource_key _) as [k|] eqn:Hk; [|done].
  apply resource_key_inv in Hk as (r & Hr & ->). intros Hf.
  eapply steps_bind; [by apply steps_resource|]. apply steps_log_bind.
  eapply steps_bind; [apply steps_call, an_vnet|]. rewrite <- Hf. apply steps_subnet.
Qed.

Lemma steps_test d f nic : closed_subnet f → steps d (test_fence_subnet (Some f) nic) true d.
Proof.
  intros (group & rg & name & Hg & Hk & Hin & Hout). apply resource_key_inv in Hk as (r & Hr & [= -> ->]).
  unfold test_fence_subnet. rewrite Hg. apply steps_log_bind. eapply steps_bind; [by apply steps_resource|].
  apply steps_log_bind. eapply steps_bind; [apply steps_call, an_nsg|].
  eapply steps_bind; [apply steps_rule|]. eapply steps_bind; [apply steps_rule|]. rewrite Hin, Hout. apply steps_mret.
Qed.

(** ** The state of the network *)

Lemma steps_cut_off d nic c : cut_off c → steps d (config_fenced nic c) true d.
Proof.
  intros (f & Hf & Hcl & Hid). apply steps_log_bind. eapply steps_bind; [by apply steps_fence_subnet|].
  eapply steps_bind; [by apply steps_test|]. cbn [negb]. rewrite decide_True by done. apply steps_mret.
Qed.

Lemma steps_state_off d rg name :
  (∀ ref, ref ∈ vm_nics (machine rg name) → ∃ nic, nic_at d ref = Some nic ∧ Forall cut_off (az_configs nic)) →
  steps d (get_network_state rg name) FENCE_STATE_OFF d.
Proof.
  intros Hall. apply steps_try. eapply steps_bind; [apply steps_vm|].
  eapply (steps_bind _ d _ _ _ true); [|apply steps_log_bind, steps_mret].
  induction (vm_nics (machine rg name)) as [|ref refs IH]; [apply steps_mret|]. cbn [mfold].
  destruct (Hall ref) as (nic & Hn & Hc); [left|]. destruct (steps_nic _ _ _ Hn) as (r & _ & Hr).
  eapply (steps_bind _ d _ _ _ true); [|apply IH; intros ref' Hin; apply Hall; by right].
  unfold nic_fenced. eapply steps_bind; [exact Hr|]. cbn beta iota. clear Hall IH Hn Hr.
  induction (az_configs nic) as [|c l IH]; [apply steps_mret|]. apply Forall_cons in Hc as [Hc Hl].
  cbn [mfold]. eapply (steps_bind _ d _ _ _ true); [|by apply IH].
  eapply steps_bind; [by apply steps_cut_off|apply steps_mret].
Qed.

(** ** Moving the configurations of an interface *)

Definition tag_keys c : list string :=
  [tag_name FENCE_TAG_SUBNET_ID c; tag_name FENCE_TAG_IP_TYPE c; tag_name FENCE_TAG_IP c].

Definition tag_entries c : nic_tags :=
  [(tag_name FENCE_TAG_SUBNET_ID c, Some (sn_id (ic_subnet c)));
   (tag_name FENCE_TAG_IP_TYPE c, Some (ic_method c)); (tag_name FENCE_TAG_IP c, ic_address c)].

Definition all_entries (cs : list ip_config) : nic_tags := concat (map tag_entries cs).

(** The subnet that fences is there, closed, and in the same network; the subnet of the
    configuration can be found again; its method, and its address when that is fixed, are given. *)
Definition fenceable c : Prop :=
  (∃ f, fence_subnet_of c = Some f ∧ closed_subnet f ∧ vnet_at (sn_id f) = vnet_at (sn_id (ic_subnet c))) ∧
  (∃ r t name rest, parse_resource (sn_id (ic_subnet c)) = Some r ∧ rs_sub r = (t, name) :: rest ∧
     subnet_called name (vnet (rs_group r) (rs_name r)) = Some (ic_subnet c)) ∧
  ic_method c ≠ "" ∧ (tag_given (ic_address c) = true ∨ lower (ic_method c) = lower IP_TYPE_DYNAMIC).

(** The tags that fencing writes are new and distinct. *)
Definition ready nic : Prop :=
  Forall fenceable (az_configs nic) ∧
  NoDup ((default [] (az_tags nic)).*1 ++ concat (map tag_keys (az_configs nic))).

Definition fenced_of c : ip_config :=
  match fence_subnet_of c with
  | Some f => IpConfig (ic_name c) f IP_TYPE_DYNAMIC (ic_address c)
  | None => c
  end.

Definition fenced_nic nic : azure_nic :=
  AzNic (az_nic_id nic) (Some (default [] (az_tags nic) ++ all_entries (az_configs nic)))
    (map fenced_of (az_configs nic)).

Lemma block_config_steps d nic l c : fenceable c → NoDup (l.*1 ++ tag_keys c) →
  steps d (block_config nic (Some l) c) (Some (l ++ tag_entries c), fenced_of c) d.
Proof.
  intros ((f & Hf & Hcl & _) & _) Hn. unfold block_config, fenced_of.
  eapply steps_bind; [by apply steps_fence_subnet|]. eapply steps_bind; [by apply steps_test|].
  cbn [negb]. apply steps_log_bind. rewrite Hf. cbn beta iota.
  apply NoDup_app in Hn as (_ & Hdis & Hk). unfold tag_keys in *.
  apply NoDup_cons in Hk as [Hk1 Hk]. apply NoDup_cons in Hk as [Hk2 _].
  rewrite (dict_insert_fresh _ _ l) by (intros Hi; apply (Hdis _ Hi); left).
  rewrite (dict_insert_fresh (tag_name FENCE_TAG_IP_TYPE c)).
  - rewrite dict_insert_fresh; [rewrite <- !app_assoc; apply steps_mret|].
    rewrite !fmap_app. cbn. intros [[Hi|Hi%list_elem_of_singleton]%elem_of_app|Hi%list_elem_of_singleton]%elem_of_app.
    + apply (Hdis _ Hi). do 2 right. left.
    + apply Hk1. rewrite <- Hi. right. left.
    + apply Hk2. rewrite <- Hi. left.
  - rewrite fmap_app. cbn. intros [Hi|Hi%list_elem_of_singleton]%elem_of_app.
    + apply (Hdis _ Hi). right. left.
    + apply Hk1. rewrite <- Hi. left.
Qed.

Lemma entries_keys cs : (all_entries cs).*1 = concat (map tag_keys cs).
Proof. induction cs as [|c cs IH]; [done|]. unfold all_entries in *. cbn. by rewrite IH. Qed.

Lemma block_configs_steps d nic l cs0 cs :
  Forall fenceable cs → NoDup (l.*1 ++ concat (map tag_keys cs)) →
  steps d (mfold (change_config "block" nic) (Some l, cs0) cs)
    (Some (l ++ all_entries cs), cs0 ++ map fenced_of cs) d.
Proof.
  revert l cs0. induction cs as [|c cs IH]; intros l cs0 Hf Hn; cbn [mfold].
  { unfold all_entries. cbn. rewrite !app_nil_r. apply steps_mret. }
  apply Forall_cons in Hf as [Hc Hf]. cbn [map concat] in Hn.
  eapply steps_bind.
  - unfold change_config. eapply steps_bind; [rewrite decide_True by done; apply block_config_steps; [done|]|apply steps_mret].
    rewrite app_assoc in Hn. by apply NoDup_app in Hn as [Hn _].
  - cbn beta iota. unfold all_entries. cbn [map concat].
    replace (cs0 ++ fenced_of c :: map fenced_of cs) with ((cs0 ++ [fenced_of c]) ++ map fenced_of cs)
      by by rewrite <- app_assoc.
    rewrite app_assoc. apply IH; [done|]. rewrite fmap_app, <- app_assoc. exact Hn.
Qed.

(** ** Back *)

Definition back c c' : ip_config :=
  IpConfig (ic_name c') (ic_subnet c) (ic_method c) (if tag_given (ic_address c) then ic_address c else ic_address c').

Lemma pop_fresh k v l l' (s : st D) : k ∉ l.*1 → k ∉ l'.*1 → pop_tag k (l ++ (k, v) :: l') s = (Ret (v, l ++ l'), s).
Proof.
  intros Hl Hl'. unfold pop_tag, nic_tags.
  assert (∀ q, k ∉ q.*1 → filter (λ kv : string * option string, kv.1 ≠ k) q = q) as Hfilter.
  { induction q as [|[k1 v1] q IH]; [done|]. rewrite fmap_cons. intros [Hne Hq]%not_elem_of_cons.
    rewrite filter_cons_True by (cbn in *; congruence). by rewrite IH. }
  assert (dict_get k (l ++ (k, v) :: l') = Some v) as ->.
  { clear Hfilter. induction l as [|[k1 v1] l IH]; cbn; [by rewrite decide_True|].
    apply not_elem_of_cons in Hl as [Hne Hl]. rewrite decide_False by done. by apply IH. }
  rewrite filter_app, filter_cons_False by (intros Hne; by apply Hne). by rewrite !Hfilter.
Qed.

Lemma parsed_given id r : parse_resource id = Some r → tag_given (Some id) = true.
Proof. by destruct id. Qed.

Lemma unblock_config_steps d l rest c c' : fenceable c → ic_name c' = ic_name c →
  NoDup (l.*1 ++ tag_keys c ++ rest.*1) →
  steps d (unblock_config (Some (l ++ tag_entries c ++ rest)) c') (Some (l ++ rest), back c c') d.
Proof.
  intros (_ & (r & t & name & sub & Hr & Hsub & Hcall) & Hm & Ha) Hname Hn. unfold unblock_config.
  assert (∀ tag, tag_name tag c' = tag_name tag c) as Htag by (intros; unfold tag_name; by rewrite Hname).
  rewrite !Htag. clear Htag.
  assert (no_tags (Some (l ++ tag_entries c ++ rest)) = false) as -> by (by destruct l).
  apply NoDup_app in Hn as (_ & Hdis & Hn). cbn in Hn, Hdis.
  apply NoDup_cons in Hn as [Hk1 Hn]. apply NoDup_cons in Hn as [Hk2 Hn]. apply NoDup_cons in Hn as [Hk3 Hn].
  assert (tag_name FENCE_TAG_SUBNET_ID c ∉ l.*1) as Hl1 by (intros Hi; apply (Hdis _ Hi); left).
  assert (tag_name FENCE_TAG_IP_TYPE c ∉ l.*1) as Hl2 by (intros Hi; apply (Hdis _ Hi); right; left).
  assert (tag_name FENCE_TAG_IP c ∉ l.*1) as Hl3 by (intros Hi; apply (Hdis _ Hi); do 2 right; left).
  cbn [default tag_entries app].
  eapply steps_bind; [intros s Hs; exists s; split; [by apply pop_fresh|done]|]. cbn beta iota.
  eapply steps_bind.
  { intros s Hs. exists s. split; [|done]. apply pop_fresh; [done|].
    intros Hi. apply Hk2. by right. }
  cbn beta iota. eapply steps_bind; [intros s Hs; exists s; split; [by apply pop_fresh|done]|]. cbn beta iota.
  rewrite (parsed_given _ _ Hr). cbn [default id].
  assert (tag_given (Some (ic_method c)) = true) as -> by (by destruct (ic_method c)).
  replace (_ && _ && _) with true
    by (destruct Ha as [->|Ha]; [done|rewrite (bool_decide_true _ Ha); by destruct (tag_given (ic_address c))]).
  apply steps_log_bind. eapply steps_bind; [by apply steps_resource|].
  eapply steps_bind; [apply steps_call, an_vnet|]. apply steps_log_bind.
  eapply (steps_bind _ d _ _ _ (t, name)); [rewrite Hsub; intros s Hs; by exists s|].
  eapply steps_bind; [apply steps_subnet|]. cbn [snd]. rewrite Hcall. apply steps_mret.
Qed.

Lemma unblock_configs_steps d nic l cs0 cs cs' :
  Forall fenceable cs → Forall2 (λ c c', ic_name c' = ic_name c) cs cs' → NoDup (l.*1 ++ concat (map tag_keys cs)) →
  steps d (mfold (change_config "unblock" nic) (Some (l ++ all_entries cs), cs0) cs')
    (Some l, cs0 ++ zip_with back cs cs') d.
Proof.
  intros Hf Hcs. revert cs0 Hf. induction Hcs as [|c c' cs cs' Hc Hcs IH]; intros cs0 Hf Hn; cbn [mfold].
  { unfold all_entries. cbn. rewrite !app_nil_r. apply steps_mret. }
  apply Forall_cons in Hf as [Hcf Hf]. cbn [map concat] in Hn. unfold all_entries. cbn [map concat zip_with].
  eapply steps_bind.
  - unfold change_config. eapply steps_bind;
      [rewrite decide_False, decide_True by done; apply unblock_config_steps; [done..|]|apply steps_mret].
    fold (all_entries cs). by rewrite entries_keys.
  - cbn beta iota. replace (cs0 ++ back c c' :: zip_with back cs cs') with ((cs0 ++ [back c c']) ++ zip_with back cs cs')
      by by rewrite <- app_assoc.
    apply IH; [done|].
    apply NoDup_app in Hn as (Hl & Hdis & Hn). apply NoDup_app in Hn as (_ & _ & Hn).
    apply NoDup_app. split_and!; [done| |done]. intros k Hk Hi. apply (Hdis k Hk). apply elem_of_app. by right.
Qed.

(** ** Interfaces and machines *)

(** What fencing and unfencing leaves: everything, but for an address that is not given or
    dynamic. *)
Definition restored_config c c' : Prop :=
  ic_name c' = ic_name c ∧ ic_subnet c' = ic_subnet c ∧ ic_method c' = ic_method c ∧
  (lower (ic_method c) ≠ lower IP_TYPE_DYNAMIC → ic_address c' = ic_address c).

Definition restored nic nic' : Prop :=
  az_nic_id nic' = az_nic_id nic ∧ default [] (az_tags nic') = default [] (az_tags nic) ∧
  Forall2 restored_config (az_configs nic) (az_configs nic').

Lemma update_steps d k rg name nic : k = (rg, name) → ∃ d' nic', settles nic nic' ∧
  steps d (azure_do (az_update_nic rg name nic)) tt d' ∧
  ∀ k', view d' k' = if decide (k' = k) then Some nic' else view d k'.
Proof.
  intros ->. destruct (an_update rg name nic d) as (d' & nic' & Hu & Hn & Hv). exists d', nic'.
  split_and!; [done|by apply steps_do|done].
Qed.

Lemma block_steps d ref nic : nic_at d ref = Some nic → ready nic → ∃ d' nic' k,
  steps d (move_nic "block" ref) tt d' ∧ settles (fenced_nic nic) nic' ∧ resource_key ref = Some k ∧
  ∀ k', view d' k' = if decide (k' = k) then Some nic' else view d k'.
Proof.
  intros Hn [Hf Hk]. destruct (steps_nic _ _ _ Hn) as (r & Hr & Hread).
  destruct (update_steps d _ (rs_group r) (rs_name r) (fenced_nic nic) eq_refl) as (d' & nic' & Hs & Hu & Hv).
  exists d', nic', (rs_group r, rs_name r). split_and!; [|done..].
  eapply steps_bind; [exact Hread|]. cbn beta iota. apply steps_log_bind.
  replace (if _ && _ then Some [] else az_tags nic) with (Some (default [] (az_tags nic)))
    by (by destruct (az_tags nic) as [[|]|]).
  eapply steps_bind; [by apply block_configs_steps|]. apply steps_log_bind. exact Hu.
Qed.

Lemma unblock_steps d ref nic nic' : nic_at d ref = Some nic' → ready nic → settles (fenced_nic nic) nic' →
  ∃ d' nic'' k, steps d (move_nic "unblock" ref) tt d' ∧ restored nic nic'' ∧ resource_key ref = Some k ∧
  ∀ k', view d' k' = if decide (k' = k) then Some nic'' else view d k'.
Proof.
  intros Hn [Hf Hk] (Hid & Htags & Hcs). destruct (steps_nic _ _ _ Hn) as (r & Hr & Hread).
  cbn [fenced_nic az_nic_id az_tags az_configs] in Hid, Htags, Hcs. rewrite Forall2_fmap_l in Hcs.
  assert (∀ c, ic_name (fenced_of c) = ic_name c) as Hname by (intros c; unfold fenced_of; by destruct (fence_subnet_of c)).
  assert (Forall2 (λ c c', ic_name c' = ic_name c) (az_configs nic) (az_configs nic')) as Hnames.
  { eapply Forall2_impl; [exact Hcs|]. intros c c' (Hc & _). by rewrite Hc, Hname. }
  destruct (update_steps d _ (rs_group r) (rs_name r)
    (AzNic (az_nic_id nic') (Some (default [] (az_tags nic))) (zip_with back (az_configs nic) (az_configs nic'))) eq_refl)
    as (d' & nic'' & (Hid2 & Htags2 & Hcs2) & Hu & Hv).
  exists d', nic'', (rs_group r, rs_name r). split_and!; [| |done..].
  - eapply steps_bind; [exact Hread|]. cbn beta iota. apply steps_log_bind.
    replace (bool_decide ("unblock" = "block")) with false by done. rewrite andb_false_r, Htags.
    eapply steps_bind; [by apply unblock_configs_steps|]. apply steps_log_bind. exact Hu.
  - cbn [az_nic_id az_tags az_configs] in *. split_and!; [congruence|by rewrite Htags2|].
    clear -Hcs2 Hf Hnames. revert Hcs2. generalize (az_configs nic''). revert Hf.
    induction Hnames as [|c c' cs cs' Hc Hcs IH]; intros Hf q Hq; cbn [zip_with] in Hq.
    { by apply Forall2_nil_inv_l in Hq as ->. }
    apply Forall2_cons_inv_l in Hq as (c2 & q2 & (Hq1 & Hq2 & Hq3 & Hq4) & Hq & ->).
    apply Forall_cons in Hf as [(_ & _ & _ & Ha) Hf]. constructor; [|by apply IH].
    cbn [back ic_name ic_subnet ic_method ic_address] in *. split_and!; [congruence|done|done|].
    intros Hm. rewrite Hq4 by done. destruct Ha as [->|Ha]; [done|by destruct Hm].
Qed.

(** What the steps of one interface do to it, the loop over interfaces does to all of them. *)
Lemma moves_steps operation (P R : string → azure_nic → Prop) refs d :
  (∀ d ref nic, nic_at d ref = Some nic → P ref nic → ∃ d' nic' k,
     steps d (move_nic operation ref) tt d' ∧ R ref nic' ∧ resource_key ref = Some k ∧
     ∀ k', view d' k' = if decide (k' = k) then Some nic' else view d k') →
  NoDup (map resource_key refs) →
  (∀ ref, ref ∈ refs → ∃ nic, nic_at d ref = Some nic ∧ P ref nic) →
  ∃ d', steps d (mfor refs (λ ref, move_attempts operation ref (seq 0 MAX_RETRY))) tt d' ∧
    (∀ ref, ref ∈ refs → ∃ nic', nic_at d' ref = Some nic' ∧ R ref nic') ∧
    ∀ k, Some k ∉ map resource_key refs → view d' k = view d k.
Proof.
  intros Hmove. revert d. induction refs as [|ref refs IH]; intros d Hn Hall.
  { exists d. split_and!; [apply steps_mret|by intros ref ?%elem_of_nil|done]. }
  apply NoDup_cons in Hn as [Hnew Hn]. destruct (Hall ref) as (nic & Hnic & HP); [left|].
  destruct (Hmove d ref nic Hnic HP) as (d1 & nic1 & k & Hs1 & HR1 & Hk & Hv1).
  assert (∀ k', Some k' ≠ resource_key ref → view d1 k' = view d k') as Hsame.
  { intros k' Hk'. rewrite Hv1, decide_False; [done|]. intros ->. by destruct Hk'. }
  assert (∀ ref', ref' ∈ refs → resource_key ref' ≠ resource_key ref) as Hother.
  { intros ref' Hin Heq. apply Hnew. rewrite <- Heq. by apply list_elem_of_fmap_2. }
  destruct (IH d1) as (d' & Hs & HR & Hrest); [done| |].
  { intros ref' Hin. destruct (Hall ref') as (nic' & Hnic' & HP'); [by right|]. exists nic'. split; [|done].
    specialize (Hother ref' Hin). unfold nic_at in *. destruct (resource_key ref') as [k'|]; [|done]. by rewrite Hsame. }
  exists d'. split_and!.
  - cbn [mfor]. eapply steps_bind; [by apply steps_try|exact Hs].
  - intros ref' [->|Hin]%elem_of_cons; [|by apply HR]. exists nic1. split; [|done].
    unfold nic_at in *. rewrite Hk in *. rewrite Hrest by done. by rewrite Hv1, decide_True.
  - intros k' [Hk1 Hk2]%not_elem_of_cons. by rewrite Hrest, Hsame.
Qed.

Lemma set_network_steps d d' rg name operation :
  steps d (mfor (vm_nics (machine rg name)) (λ ref, move_attempts operation ref (seq 0 MAX_RETRY))) tt d' →
  steps d (set_network_state rg name operation) tt d'.
Proof.
  intros Hs. unfold set_network_state. rewrite an_packages. cbn [negb mwhen].
  eapply steps_bind; [apply steps_mret|]. apply steps_log_bind. eapply steps_bind; [apply steps_vm|exact Hs].
Qed.

Lemma settled_cut_off c c' : fenceable c → settled_config (fenced_of c) c' → cut_off c'.
Proof.
  intros ((f & Hf & Hcl & Hv) & _) (_ & Hs & _). unfold fenced_of in Hs. rewrite Hf in Hs. cbn in Hs.
  exists f. rewrite Hs. split_and!; [|done..]. unfold fence_subnet_of in *. by rewrite Hs, Hv.
Qed.

(** C8. Against a network of Azure that keeps what it is told, blocking a machine whose
    interfaces can be fenced succeeds and makes the state of its network off; unblocking it
    then gives every configuration of its interfaces its subnet, its method and its address
    (unless that is dynamic) and every interface its tags, and no other interface changes. *)
Theorem unblock_undoes_block rg name s :
  NoDup (map resource_key (vm_nics (machine rg name))) →
  (∀ ref, ref ∈ vm_nics (machine rg name) → ∃ nic, nic_at (s_dev s) ref = Some nic ∧ ready nic) →
  ∃ s1 s2 s3,
    set_network_state rg name "block" s = (Ret tt, s1) ∧
    get_network_state rg name s1 = (Ret "off", s2) ∧
    set_network_state rg name "unblock" s2 = (Ret tt, s3) ∧
    (∀ ref nic, ref ∈ vm_nics (machine rg name) → nic_at (s_dev s) ref = Some nic →
       ∃ nic', nic_at (s_dev s3) ref = Some nic' ∧ restored nic nic') ∧
    ∀ k, Some k ∉ map resource_key (vm_nics (machine rg name)) → view (s_dev s3) k = view (s_dev s) k.
Proof.
  intros Hn Hall.
  set (P0 := λ ref nic, nic_at (s_dev s) ref = Some nic ∧ ready nic).
  set (P1 := λ ref nic', ∃ nic, P0 ref nic ∧ settles (fenced_nic nic) nic').
  set (P2 := λ ref nic'', ∃ nic, P0 ref nic ∧ restored nic nic'').
  destruct (moves_steps "block" P0 P1 (vm_nics (machine rg name)) (s_dev s)) as (d1 & Hs1 & HR1 & Hk1); [|done| |].
  { intros d ref nic Hnic [Hat Hr]. destruct (block_steps _ _ _ Hnic Hr) as (d' & nic' & k & Hs & Hset & Hkv).
    exists d', nic', k. split_and!; [done| |apply Hkv..]. by exists nic. }
  { intros ref Hin. destruct (Hall ref Hin) as (nic & Hat & Hr). by exists nic. }
  destruct (moves_steps "unblock" P1 P2 (vm_nics (machine rg name)) d1) as (d2 & Hs2 & HR2 & Hk2); [|done..|].
  { intros d ref nic' Hnic (nic & [Hat Hr] & Hset).
    destruct (unblock_steps _ _ _ _ Hnic Hr Hset) as (d' & nic'' & k & Hs & Hres & Hkv).
    exists d', nic'', k. split_and!; [done| |apply Hkv..]. by exists nic. }
  assert (steps d1 (get_network_state rg name) FENCE_STATE_OFF d1) as Hoff.
  { apply steps_state_off. intros ref Hin. destruct (HR1 ref Hin) as (nic' & Hat & nic & [_ [Hf _]] & _ & _ & Hcs).
    exists nic'. split; [done|]. cbn [fenced_nic az_configs] in Hcs. rewrite Forall2_fmap_l in Hcs.
    clear -Hf Hcs. induction Hcs as [|c c' cs cs' Hc Hcs IH]; [done|].
    apply Forall_cons in Hf as [Hcf Hf]. constructor; [by eapply settled_cut_off|by apply IH]. }
  destruct (set_network_steps _ _ _ _ _ Hs1 s eq_refl) as (s1 & Hr1 & <-).
  destruct (Hoff s1 eq_refl) as (s2 & Hr2 & Hd2). rewrite <- Hd2 in Hs2.
  destruct (set_network_steps _ _ _ _ _ Hs2 s2 eq_refl) as (s3 & Hr3 & <-).
  exists s1, s2, s3. split_and!; [done..| |].
  - intros ref nic Hin Hat. destruct (HR2 ref Hin) as (nic' & Hat' & nic0 & [Hat0 _] & Hres).
    exists nic'. split; [done|]. rewrite Hat in Hat0. by injection Hat0 as <-.
  - intros k Hk. by rewrite Hk2, Hk1.
Qed.
End Network.

(** ** Off is fenced *)

Section Off.
Context {D : Type} `{Azure D} {machine : string → string → azure_vm}.
Context {vnet : option string → option string → list azure_subnet}.
Context {nsg : option string → option string → list security_rule}.
Context {view : D → option string * option string → option azure_nic}.
Context `{!AzureNetwork machine vnet nsg view}.
Implicit Types (d : D) (c : ip_config) (nic : azure_nic).

(** [yields d m Q]: from a state with the device [d], [m] leaves it, and returns only what has [Q]. *)
Definition yields {A} d (m : M D A) (Q : A → Prop) : Prop :=
  triple (λ s, s_dev s = d) m (λ a s, Q a ∧ s_dev s = d) (λ _ _, True).

Lemma yields_steps {A} d (m : M D A) a : steps d m a d → yields d m (λ a', a' = a).
Proof. intros Hm s Hs. destruct (Hm s Hs) as (s' & Hr & Hs'). by rewrite Hr. Qed.

Lemma yields_mret {A} d (a : A) (Q : A → Prop) : Q a → yields d (mret a) Q.
Proof. intros HQ s Hs. by split. Qed.

Lemma yields_raise {A} d e (Q : A → Prop) : yields d (raise e) Q.
Proof. by intros s Hs. Qed.

Lemma yields_bind {A B} d (m : M D A) (f : A → M D B) Q R :
  yields d m R → (∀ a, R a → yields d (f a) Q) → yields d (m ≫= f) Q.
Proof. intros Hm Hf. eapply triple_bind; [exact Hm|]. intros a s [Ha Hs]. by apply Hf. Qed.

Lemma yields_log d l msg {A} (m : M D A) Q : yields d m Q → yields d (log l msg ;; m) Q.
Proof. intros Hm. eapply yields_bind; [apply yields_steps, steps_log|]. by intros a _. Qed.

Lemma yields_usage {A} d msg (Q : A → Prop) : yields d (usage_fails msg) Q.
Proof. intros s Hs. unfold usage_fails, fail_usage. by destruct (bool_decide _). Qed.

(** An id that the service knows was read as it is. *)
Lemma yields_resource d id : yields d (get_azure_resource id) (λ r, resource_key id = Some (rs_group r, rs_name r)).
Proof.
  unfold resource_key. destruct (parse_resource id) as [r|] eqn:Hr.
  - eapply triple_post; [|apply yields_steps, steps_resource, Hr]. by intros a s [-> Hs].
  - unfold parse_resource in Hr. unfold get_azure_resource. destruct (re_match resource_re id); [done|].
    apply yields_usage.
Qed.

Lemma yields_nic d ref : yields d (read_nic_of ref) (λ x, nic_at (view := view) d ref = Some x.2).
Proof.
  eapply yields_bind; [apply yields_resource|]. intros r Hr. unfold nic_at. rewrite Hr.
  pose proof (an_nic (rs_group r) (rs_name r) d) as Hl. destruct (view d _) as [nic|].
  - eapply yields_bind; [by apply yields_steps, steps_call|]. intros nic' ->. by apply yields_mret.
  - destruct Hl as [e He]. intros s <-. unfold mbind, M_bind, azure_call. by rewrite He.
Qed.

Lemma yields_test d nic f :
  yields d (test_fence_subnet f nic) (λ b, b = true → ∃ x, f = Some x ∧ closed_subnet (nsg := nsg) x).
Proof.
  apply yields_log. destruct f as [x|]; [|by apply yields_log, yields_mret].
  destruct (sn_security_group x) as [group|] eqn:Hg; [|by apply yields_log, yields_mret].
  eapply yields_bind; [apply yields_resource|]. intros r Hr. apply yields_log.
  eapply yields_bind; [apply yields_steps, steps_call, an_nsg|]. intros rules ->.
  eapply yields_bind; [apply yields_steps, steps_rule|]. intros inbound Hin.
  eapply yields_bind; [apply yields_steps, steps_rule|]. intros outbound Hout.
  destruct outbound; cbn [negb]; [|by apply yields_log, yields_mret].
  destruct inbound; cbn [negb]; [|by apply yields_log, yields_mret].
  apply yields_mret. intros _. exists x. split; [done|]. by exists group, (rs_group r), (rs_name r).
Qed.

Lemma yields_config d nic c :
  yields d (config_fenced nic c) (λ b, b = true → cut_off (vnet := vnet) (nsg := nsg) c).
Proof.
  apply yields_log. unfold get_fence_subnet_for_config.
  eapply (yields_bind _ _ _ _ (λ f, f = fence_subnet_of (vnet := vnet) c)).
  - eapply yields_bind; [apply yields_resource|]. intros r Hr. apply yields_log.
    eapply yields_bind; [apply yields_steps, steps_call, an_vnet|]. intros l ->.
    unfold fence_subnet_of, vnet_at. rewrite Hr. apply yields_steps, steps_subnet.
  - intros f Hf. eapply yields_bind; [apply yields_test|]. intros ok Hok.
    destruct f as [x|]; [|by apply yields_mret]. destruct ok; cbn [negb]; [|by apply yields_mret].
    destruct (decide _) as [Hid|Hid]; [|by apply yields_log, yields_mret]. apply yields_mret. intros _.
    destruct Hok as (y & [= <-] & Hcl); [done|]. by exists x.
Qed.

(** A fold that stays true only as long as the elements have [P]. *)
Lemma yields_all {A} d (f : bool → A → M D bool) (P : A → Prop) l ok :
  (∀ ok x, yields d (f ok x) (λ b, b = true → ok = true ∧ P x)) →
  yields d (mfold f ok l) (λ b, b = true → ok = true ∧ Forall P l).
Proof.
  intros Hf. revert ok. induction l as [|x l IH]; intros ok; cbn [mfold]; [by apply yields_mret|].
  eapply yields_bind; [apply Hf|]. intros b Hb. eapply triple_post; [|apply IH].
  intros b' s [Hb' Hs]. split; [|done]. intros Ht. destruct (Hb' Ht) as [Ht' Hl]. destruct (Hb Ht') as [Ho Hx].
  split; [done|]. by constructor.
Qed.

(** C9. The state of the network of a machine of Azure is off only when every configuration of
    every interface of the machine is in the subnet that fences of its virtual network, whose
    group denies all in both directions; whatever else is wrong is on or ends the program. *)
Theorem off_is_cut_off rg name s s' :
  get_network_state rg name s = (Ret "off", s') →
  ∀ ref, ref ∈ vm_nics (machine rg name) →
    ∃ nic, nic_at (view := view) (s_dev s) ref = Some nic ∧
      Forall (cut_off (vnet := vnet) (nsg := nsg)) (az_configs nic).
Proof.
  intros Hrun.
  assert (yields (s_dev s) (get_network_state rg name) (λ r, r = "off" →
    Forall (λ ref, ∃ nic, nic_at (view := view) (s_dev s) ref = Some nic ∧
      Forall (cut_off (vnet := vnet) (nsg := nsg)) (az_configs nic)) (vm_nics (machine rg name)))) as Hy.
  { apply (triple_try _ _ _ _ (λ _ _, True)).
    - eapply yields_bind; [apply yields_steps, steps_vm|]. intros vm ->.
      eapply yields_bind.
      + apply (yields_all _ _ (λ ref, ∃ nic, nic_at (view := view) (s_dev s) ref = Some nic ∧
          Forall (cut_off (vnet := vnet) (nsg := nsg)) (az_configs nic))). intros ok ref. eapply yields_bind; [apply yields_nic|]. intros [r nic] Hn. cbn [snd] in Hn.
        eapply triple_post; [|apply yields_all].
        * intros b t [Hb Ht]. split; [|done]. intros Hbt. destruct (Hb Hbt) as [Hok Hcs].
          split; [exact Hok|]. by exists nic.
        * intros b c. eapply yields_bind; [apply yields_config|]. intros b' Hb'. apply yields_mret.
          intros [Ht Hc]%andb_true_iff. by auto.
      + intros ok Hok. destruct ok; [|by apply yields_mret]. apply yields_log, yields_mret. intros _. by apply Hok.
    - intros e. destruct (is_Exception e); [|done]. by intros s0 _. }
  specialize (Hy s eq_refl). rewrite Hrun in Hy. destruct Hy as [Hy _]. specialize (Hy eq_refl).
  by apply Forall_forall.
Qed.
End Off.

(** ** A network *)

Definition net : Type := list ((option string * option string) * azure_nic).

Fixpoint net_get (k : option string * option string) (d : net) : option azure_nic :=
  match d with
  | [] => None
  | (k', nic) :: d => if decide (k = k') then Some nic else net_get k d
  end.

Definition net_base : string := "/subscriptions/s/resourceGroups/g/providers/Microsoft.Network/".
Definition net_nic_ref : string := net_base +:+ "networkInterfaces/nic1".
Definition net_default : azure_subnet := AzSubnet (net_base +:+ "virtualNetworks/v/subnets/default") "default" None.
Definition net_fence : azure_subnet :=
  AzSubnet (net_base +:+ "virtualNetworks/v/subnets/fence-subnet") "fence-subnet"
    (Some (net_base +:+ "networkSecurityGroups/closed")).
Definition net_rule (name direction : string) : security_rule :=
  SecurityRule "Deny" direction "*" "*" "*" "*" "*" "Succeeded" 100 name.

Definition net_machine (_ _ : string) : azure_vm := AzVm [net_nic_ref] ["PowerState/running"].
Definition net_vnet (_ _ : option string) : list azure_subnet := [net_default; net_fence].
Definition net_nsg (_ _ : option string) : list security_rule :=
  [net_rule FENCE_INBOUND_RULE_NAME "Inbound"; net_rule FENCE_OUTBOUND_RULE_NAME "Outbound"].

#[local] Instance net_azure : Azure net := {|
  az_version := Some "30.1.0";
  has_compute := true; has_network := true; has_identity := true; has_profiles := true; has_msrestazure := true;
  az_vm_list _ d := (None, d);
  az_vm_items _ d := (["vm1"], None, d);
  az_power_off _ _ _ _ d := (None, d);
  az_start _ _ _ d := (None, d);
  az_vm _ rg name d := (inr (net_machine rg name), d);
  az_nic rg name d :=
    (match net_get (rg, name) d with Some nic => inr nic | None => inl ("CloudError", "not found") end, d);
  az_vnet rg name d := (inr (net_vnet rg name), d);
  az_security_group rg name d := (inr (net_nsg rg name), d);
  az_update_nic rg name nic d := (None, ((rg, name), nic) :: d);
  az_metadata d := (None, d);
  az_get _ d := (inl "Network is unreachable", d);
  authority_host x := x;
  old_cloud x := (x, x, x);
  stack_cloud _ d := (inl ("Exception", "Network is unreachable"), d);
  compute_api_version := inr "2023-03-01";
  default_api_version := "2023-03-01";
  az_client _ _ d := (None, d);
  show_subnet x := sn_id x;
  az_float x := x
|}.

#[local] Instance net_network : AzureNetwork net_machine net_vnet net_nsg (λ (d : net) k, net_get k d).
Proof.
  split; [done| |done..| |].
  - by exists [30; 1; 0]%Z.
  - intros rg name d. cbn. destruct (net_get _ d); [done|by eexists].
  - intros rg name nic d. eexists _, nic. split_and!; [done| |].
    + split_and!; [done..|]. by apply Forall_Forall2_diag, Forall_true.
    + intros k. cbn. done.
Qed.

Definition net_start : st net :=
  St ∅ ∅ [] 0
    [((Some "g", Some "nic1"), AzNic net_nic_ref (Some [("owner", Some "ops")])
        [IpConfig "ipconfig1" net_default "Static" (Some "10.0.0.5")])].

Lemma net_ready : ready (vnet := net_vnet) (nsg := net_nsg)
  (AzNic net_nic_ref (Some [("owner", Some "ops")]) [IpConfig "ipconfig1" net_default "Static" (Some "10.0.0.5")]).
Proof.
  split; [|closed_dec]. constructor; [|done]. split_and!.
  - exists net_fence. split_and!; [by vm_compute| |by vm_compute].
    exists (net_base +:+ "networkSecurityGroups/closed"), (Some "g"), (Some "closed"). split_and!; by vm_compute.
  - eexists _, _, _, _. split_and!; [vm_compute; reflexivity|reflexivity|by vm_compute].
  - done.
  - by left.
Qed.

Lemma unblock_undoes_block_witness :
  ∃ s1 s2 s3,
    set_network_state "g" "vm1" "block" net_start = (Ret tt, s1) ∧
    get_network_state "g" "vm1" s1 = (Ret "off", s2) ∧
    set_network_state "g" "vm1" "unblock" s2 = (Ret tt, s3) ∧
    ∃ nic, net_get (Some "g", Some "nic1") (s_dev s3) = Some nic ∧
      restored (AzNic net_nic_ref (Some [("owner", Some "ops")])
                  [IpConfig "ipconfig1" net_default "Static" (Some "10.0.0.5")]) nic.
Proof.
  assert (resource_key net_nic_ref = Some (Some "g", Some "nic1")) as Hk by (vm_compute; reflexivity).
  destruct (unblock_undoes_block (machine := net_machine) (view := λ (d : net) k, net_get k d) "g" "vm1" net_start)
    as (s1 & s2 & s3 & H1 & H2 & H3 & Hres & _).
  - apply NoDup_singleton.
  - intros ref ->%list_elem_of_singleton. eexists. split; [unfold nic_at; rewrite Hk; reflexivity|apply net_ready].
  - exists s1, s2, s3. split_and!; [done..|].
    destruct (Hres net_nic_ref _ (list_elem_of_here _ _) ltac:(unfold nic_at; rewrite Hk; reflexivity)) as (nic & Hn & Hr).
    exists nic. split; [|done]. unfold nic_at in Hn. by rewrite Hk in Hn.
Defined.

Definition net_fenced : st net :=
  St ∅ ∅ [] 0 [((Some "g", Some "nic1"), AzNic net_nic_ref None [IpConfig "ipconfig1" net_fence "Dynamic" None])].

Lemma off_is_cut_off_witness :
  (get_network_state "g" "vm1" net_fenced).1 = Ret "off" ∧
  ∃ nic, nic_at (view := λ (d : net) k, net_get k d) (s_dev net_fenced) net_nic_ref = Some nic ∧
    Forall (cut_off (vnet := net_vnet) (nsg := net_nsg)) (az_configs nic).
Proof.
  assert ((get_network_state "g" "vm1" net_fenced).1 = Ret "off") as Hoff by (vm_compute; reflexivity).
  split; [exact Hoff|].
  apply (off_is_cut_off (machine := net_machine) (view := λ (d : net) k, net_get k d) "g" "vm1" net_fenced
           (get_network_state "g" "vm1" net_fenced).2); [|by left].
  rewrite <- Hoff. apply surjective_pairing.
Defined.

(** Fencing twice writes the subnet that fences over the one the tags remember: unfencing
    leaves the configuration where it is. *)
Lemma second_block_strands :
  let twice := set_network_state "g" "vm1" "block" ;; set_network_state "g" "vm1" "block" ;;
               set_network_state "g" "vm1" "unblock" in
  let '(r, s) := twice net_start in
  r = Ret tt ∧ net_get (Some "g", Some "nic1") (s_dev s) =
    Some (AzNic net_nic_ref (Some [("owner", Some "ops")])
            [IpConfig "ipconfig1" net_fence "Dynamic" (Some "10.0.0.5")]).
Proof. vm_compute. by split. Qed.

(** * What "off" of fence_compute means

    [fenced h d]: nova takes the host [h] for down and disabled, so that its instances may be
    started elsewhere. Against a service for which that is what the answer down and disabled
    shows, and what forcing a host down and disabling it achieves, the program ends with
    success only when the host is fenced. *)

Class NovaFences {D} `{Host D, Nova D} (fenced : string → D → Prop) : Prop := {
  nf_listed h d sv l d' :
    services_list (Some h) d = (inr (sv :: l), d') → sv_state sv = "down" → sv_status sv = "disabled" →
    fenced h d';
  nf_disabled h d d1 d2 :
    services_force_down h true d = (None, d1) → services_disable h d1 = (None, d2) → fenced h d2;
  nf_spawn h env argv d : fenced h d → fenced h (h_spawn env argv d).2
}.

Section Fences.
Context {D : Type} `{Host D, Nova D} {fenced : string → D → Prop} `{!NovaFences fenced}.
Variable plug : string.
Implicit Types s : st D.

(** The plug and the action of the run *)
Definition off_run s : Prop :=
  s_opts s !! "--plug" = Some (VStr plug) ∧ s_opts s !! "--action" = Some (VStr "off").
Definition is_fenced s : Prop := fenced plug (s_dev s).

(** The program ends with 0 only when the host is fenced. *)
Definition exits_fenced (e : exn) s : Prop := e = SystemExit 0 → is_fenced s.
Definition no_exit (e : exn) s : Prop := off_run s ∧ is_Exception e = true.

Lemma steady_off_run : steady off_run.
Proof. apply (steady_opts (λ o, o !! "--plug" = Some (VStr plug) ∧ o !! "--action" = Some (VStr "off"))). Qed.

Lemma spaced_not_off a b : a +:+ " " +:+ b ≠ "off".
Proof. destruct a as [|? [|? [|? [|? ?]]]]; cbn; intros E; simplify_eq. Qed.

#[local] Hint Resolve steady_off_run : fence.

(** One quiet step at the head of a run *)
Ltac quietly := apply triple_quiet_bind;
  [auto with fence nocore|unfold opt_show; quiet_tac|
   let He := fresh "He" in let Hs := fresh "Hs" in
   intros ? ? He Hs; first [exact Hs | by split | intros ->; discriminate He]|intros ?].

(** ** The status *)

(** A service that counts as off is down and disabled. *)
Lemma service_status_off (P : st D → Prop) sv : steady P →
  triple P (service_status sv)
    (λ r s, P s ∧ (r = "off" → sv_state sv = "down" ∧ sv_status sv = "disabled")) (λ _, P).
Proof.
  intros HP. unfold service_status. repeat case_decide; try (apply triple_mret; intros s Hs; by split).
  do 2 quietly. apply triple_mret. intros s Hs. split; [done|]. intros Hoff. by apply spaced_not_off in Hoff.
Qed.

Definition status_post (connection : bool) (r : string) s : Prop :=
  off_run s ∧ (r = "off" → connection = true ∧ is_fenced s).

Lemma host_status_off connection seen :
  (∀ sv, quiet (seen sv)) → triple off_run (host_status connection seen) (status_post connection) no_exit.
Proof.
  intros Hseen. unfold host_status. do 2 quietly.
  destruct connection; [|apply triple_mret; intros s Hs; split; [done|discriminate]].
  apply triple_try with (R := λ _, off_run); [|intros e; by apply triple_raise].
  intros s Hs. rewrite (bind_Ret _ _ _ _ _ (opt_str_eq _ _ _ (proj1 Hs))).
  unfold nova_call, mbind at 1, M_bind at 1.
  destruct (services_list (Some plug) (s_dev s)) as [[e|[|sv l]] d] eqn:El; [done|split; [done|discriminate]|].
  assert (triple (λ s1, off_run s1 ∧ s_dev s1 = d) (seen sv ;; service_status sv) (status_post true) (λ _, off_run))
    as Ht; [|exact (Ht (set_dev d s) (conj Hs eq_refl))].
  assert (steady (λ s1, off_run s1 ∧ s_dev s1 = d)) as HP.
  { apply steady_and; [exact steady_off_run|]. apply (steady_dev (λ d', d' = d)). }
  apply triple_quiet_bind; [exact HP|apply Hseen|by intros ? ? _ []|]. intros _.
  eapply triple_post; [|apply triple_weaken with (E' := λ _ s1, off_run s1 ∧ s_dev s1 = d);
    [by intros ? ? []|apply (service_status_off _ _ HP)]].
  intros r s1 [[Ho Hd] Hoff]. split; [done|]. intros [Hdown Hdis]%Hoff. split; [done|].
  unfold is_fenced. rewrite Hd. by eapply nf_listed.
Qed.

Lemma compute_status_off connection :
  triple off_run (compute_get_power_status connection) (status_post connection) no_exit.
Proof.
  unfold compute_get_power_status. apply triple_bind with (R := status_post connection).
  { apply host_status_off. intros sv. unfold opt_show. quiet_tac. }
  intros r. assert (steady (status_post connection r)) as HP.
  { unfold status_post, is_fenced. intros s s' Ho Hd. unfold off_run. by rewrite Ho, Hd. }
  do 2 (apply triple_quiet_bind; [exact HP|unfold opt_show; quiet_tac|by intros ? ? ? []|intros ?]).
  by apply triple_mret.
Qed.

(** ** Switching off *)

Definition off_and_fenced s : Prop := off_run s ∧ is_fenced s.

Lemma steady_off_and_fenced : steady off_and_fenced.
Proof. apply steady_and; [exact steady_off_run|apply (steady_dev (fenced plug))]. Qed.

#[local] Hint Resolve steady_off_and_fenced : fence.

(** An exception that a handler is to see *)
Definition nova_failed (e : exn) s : Prop := off_run s ∧ is_Exception e = true.

Lemma wait_off_fences fuel connection :
  triple off_run (wait_off fuel connection) (λ _, off_and_fenced) no_exit.
Proof.
  induction fuel as [|fuel IH]; [by intros s|]. cbn [wait_off].
  eapply triple_bind; [apply compute_status_off|]. intros status. case_decide as Hoff.
  - apply triple_mret. intros s [Hs Hf]. split; [done|]. by apply Hf.
  - apply triple_pre with (P' := off_run); [by intros s []|]. do 3 quietly. apply IH.
Qed.

(** Both requests to nova were accepted, or one of them raised an exception. *)
Lemma force_down_fences :
  triple off_run
    (p ← opt_str "--plug";
     nova_do (services_force_down p true) ;;
     nova_do (services_disable p)) (λ _, off_and_fenced) no_exit.
Proof.
  intros s Hs. rewrite (bind_Ret _ _ _ _ _ (opt_str_eq _ _ _ (proj1 Hs))).
  unfold nova_do, mbind, M_bind.
  destruct (services_force_down plug true (s_dev s)) as [[e|] d1] eqn:E1; [by split|].
  cbn [s_dev set_dev].
  destruct (services_disable plug d1) as [[e|] d2] eqn:E2; [by split|]. split; [done|].
  by apply (nf_disabled _ _ _ _ E1 E2).
Qed.

(** A command leaves the host fenced. *)
Definition stays_fenced (s s' : st D) : Prop :=
  s_opts s' = s_opts s ∧ (is_fenced s → is_fenced s').

#[local] Instance stays_fenced_preorder : PreOrder stays_fenced.
Proof. split; [by split|]. intros ??? [H1 H2] [H3 H4]. split; [by rewrite H3|auto]. Qed.

Lemma modify_stays_fenced f :
  (∀ s, s_opts (f s) = s_opts s ∧ s_dev (f s) = s_dev s) → keeps stays_fenced (modify f).
Proof. intros Hf s. destruct (Hf s) as [Ho Hd]. unfold stays_fenced, is_fenced. cbn. by rewrite Ho, Hd. Qed.

Lemma log_stays_fenced l msg : keeps stays_fenced (log l msg).
Proof. by apply modify_stays_fenced. Qed.

Lemma popen_stays_fenced env command : keeps stays_fenced (popen env command).
Proof.
  unfold popen. destruct (shlex_split command) as [[|a l]|e]; [by intros s..| |by intros s].
  intros s. pose proof (nf_spawn plug env (a :: l) (s_dev s)) as Hf.
  destruct (h_spawn _ _ _). by split.
Qed.

Lemma join_process_stays_fenced p t : keeps stays_fenced (join_process p t).
Proof.
  unfold join_process. destruct (p_duration p), (match t with None => None | Some _ => _ end);
    try case_match; keeps_tac; by apply modify_stays_fenced.
Qed.

#[local] Hint Resolve log_stays_fenced popen_stays_fenced join_process_stays_fenced : fence.

Lemma run_command_stays_fenced command timeout env log_command :
  keeps stays_fenced (run_command command timeout env log_command).
Proof.
  unfold run_command, effective_timeout, as_microseconds, stop_unless_retry, log_result, start_process,
    fail_usage, fail, sys_exit.
  keeps_tac.
Qed.

Lemma set_attrd_fences host status :
  triple off_and_fenced (set_attrd_status host status) (λ _, off_and_fenced) exits_fenced.
Proof.
  apply triple_keeps with (R := stays_fenced).
  - unfold set_attrd_status. apply keeps_bind; [exact _|apply log_stays_fenced|]. intros _.
    apply keeps_bind; [exact _|apply run_command_stays_fenced|]. intros _. apply keeps_mret; exact _.
  - intros s s' [Hs Hf] [Ho Hk]. split; [|auto]. unfold off_run. by rewrite Ho.
  - by intros e s [_ Hf] _.
Qed.

Lemma set_power_status_off_fences fuel connection :
  triple off_run (set_power_status_off fuel connection) (λ _, off_and_fenced) exits_fenced.
Proof.
  unfold set_power_status_off. eapply triple_bind.
  { eapply triple_weaken; [|apply compute_status_off]. intros e s [_ He] ->. discriminate He. }
  intros status. case_decide as Hoff.
  { apply triple_mret. intros s [Hs Hf]. split; [done|]. by apply Hf. }
  apply triple_pre with (P' := off_run); [by intros s []|].
  apply triple_bind with (R := λ _, off_and_fenced); [|intros _; quietly; apply set_attrd_fences].
  unfold except_Exception. eapply triple_try; [apply force_down_fences|]. intros e.
  destruct (is_Exception e) eqn:He; [|by intros s [_ ?]; congruence].
  apply triple_pre with (P' := off_run); [by intros s []|]. quietly.
  eapply triple_weaken; [|apply wait_off_fences]. intros e' s [_ He'] ->. discriminate He'.
Qed.

(** With a connection the callback ends the program. *)
Lemma compute_set_power_fences fuel connection :
  triple off_run (compute_set_power_status fuel connection)
    (λ _ s, off_run s ∧ connection = false) exits_fenced.
Proof.
  intros s Hs. unfold compute_set_power_status.
  rewrite (bind_Ret _ _ _ _ _ (opt_str_eq _ _ _ (proj2 Hs))).
  revert s Hs. quietly.
  destruct connection; cbn [negb]; [|apply triple_mret; by split].
  rewrite bool_decide_true by closed_dec.
  eapply triple_bind; [apply set_power_status_off_fences|]. intros ?. do 2 quietly.
  apply triple_raise. by intros s [_ Hf] _.
Qed.

(** Without a connection the host never counts as off. *)
Lemma poll_status_never left :
  triple off_run (poll_status left (get_power_status_simple false)) (λ b s, off_run s ∧ b = false) exits_fenced.
Proof.
  induction left as [|left IH]; [by apply triple_mret|]. cbn [poll_status].
  apply triple_bind with (R := λ r s, off_run s ∧ r = VStr "on").
  { unfold get_power_status_simple. eapply triple_bind.
    { eapply triple_weaken; [|apply compute_status_off]. intros e s [_ He] ->. discriminate He. }
    intros status. apply triple_mret. intros s [Hs Hf]. split; [done|].
    case_decide as Hoff; [|done]. by destruct (Hf Hoff). }
  intros r s [Hs ->]. rewrite (bind_Ret _ _ _ _ _ (opt_get_eq _ _ _ (proj2 Hs))).
  rewrite decide_False by done. revert s Hs. quietly. exact IH.
Qed.

Lemma compute_set_multi_fences fuel connection left :
  triple off_run
    (compute_set_multi left (compute_set_power_status fuel connection) (get_power_status_simple connection))
    (λ b s, off_run s ∧ b = false) exits_fenced.
Proof.
  induction left as [|left IH]; [by apply triple_mret|]. cbn [compute_set_multi].
  eapply triple_bind; [apply compute_set_power_fences|]. intros ?.
  destruct connection; [by intros s []|]. apply triple_pre with (P' := off_run); [by intros s []|].
  do 3 quietly. eapply triple_bind; [apply poll_status_never|]. intros [|]; [by intros s []|].
  apply triple_pre with (P' := off_run); [by intros s []|]. exact IH.
Qed.

(** C10. fence_compute reports a fenced host only when nova has it down and disabled: when the
    action off ends with success, by its result or by the end of the program inside the
    callback, the service of the host was listed as down and disabled, or nova accepted that
    it is forced down and disabled. *)
Theorem compute_off_fences fuel connection s :
  s_opts s !! "--plug" = Some (VStr plug) → s_opts s !! "--action" = Some (VStr "off") →
  (compute_action fuel connection s).1 = Ret 0%Z ∨ (compute_action fuel connection s).1 = Raise (SystemExit 0) →
  fenced plug (s_dev (compute_action fuel connection s).2).
Proof.
  intros Hp Ha Hok.
  assert (triple off_run (compute_action fuel connection) (λ n _, n = 1%Z) exits_fenced) as Ht.
  { intros s1 Hs. unfold compute_action. rewrite (bind_Ret _ _ _ _ _ (opt_get_eq _ _ _ (proj2 Hs))).
    rewrite bool_decide_true by closed_dec. revert s1 Hs. quietly.
    eapply triple_bind; [apply compute_set_multi_fences|]. intros [|]; [by intros s1 []|].
    apply triple_pre with (P' := off_run); [by intros s1 []|]. do 2 quietly. by apply triple_mret. }
  specialize (Ht s (conj Hp Ha)). destruct (compute_action fuel connection s) as [[n|e|] s']; cbn in *.
  - destruct Hok as [[= ->]|[=]]. discriminate Ht.
  - destruct Hok as [[=]|[= ->]]. by apply Ht.
  - by destruct Hok.
Qed.
End Fences.

(** ** An example: a nova that keeps which hosts are forced down and which are disabled *)

Record cluster := Cluster { forced : list string; disabled : list string }.

Definition state_of (h : string) (c : cluster) : nova_service :=
  NovaService h "nova-compute" (if decide (h ∈ forced c) then "down" else "up")
    (if decide (h ∈ disabled c) then "disabled" else "enabled").

#[local] Instance cluster_nova : Nova (cluster * Mem.host) := {|
  nova_installed := true;
  client_varargs := false;
  available_versions _ d := (inr ["v3"], d);
  version_match a b := bool_decide (a = b);
  make_client _ d := (ClientReady, d);
  services_list h d := (inr match h with Some h => [state_of h d.1] | None => [] end, d);
  services_force_down h b d :=
    (None, (Cluster (if b : bool then h :: forced d.1 else filter (.≠ h) (forced d.1)) (disabled d.1), d.2));
  services_enable h d := (None, (Cluster (forced d.1) (filter (.≠ h) (disabled d.1)), d.2));
  services_disable h d := (None, (Cluster (forced d.1) (h :: disabled d.1), d.2));
  servers_list _ d := (inr [], d);
  servers_evacuate _ _ d := (inr None, d);
  flavors_list d := (inr [], d);
  flavor_tag _ d := (inr None, d);
  images_list d := (inr [], d)
|}.

Definition down_and_disabled (h : string) (d : cluster * Mem.host) : Prop :=
  h ∈ forced d.1 ∧ h ∈ disabled d.1.

#[local] Existing Instance Mem.mem_host.

#[local] Instance cluster_fences : NovaFences down_and_disabled.
Proof.
  split.
  - intros h d sv l d' E Hdown Hdis. cbn in E. simplify_eq. cbn in Hdown, Hdis. split; [by destruct (decide (h ∈ forced _))|by destruct (decide (h ∈ disabled _))].
  - intros h d d1 d2 E1 E2. cbn in E1, E2. simplify_eq. split; cbn; set_solver.
  - intros h env argv d Hd. exact Hd.
Qed.

Definition compute_start : st (cluster * Mem.host) :=
  St (list_to_map [("--action", VStr "off"); ("--plug", VStr "node-1"); ("--retry-on", VStr "1");
                   ("--power-timeout", VStr "60"); ("--power-wait", VStr "0")]) ∅ [] 0
    (Cluster [] ["node-7"], Mem.MkHost ∅ "" (Some (Proc (Some 1000%Z) 0 "" "" "" ""))).

Lemma compute_off_fences_witness :
  (compute_action 5 true compute_start).1 = Raise (SystemExit 0) ∧
  down_and_disabled "node-1" (s_dev (compute_action 5 true compute_start).2) ∧
  "node-7" ∉ forced (s_dev (compute_action 5 true compute_start).2).1.
Proof.
  assert ((compute_action 5 true compute_start).1 = Raise (SystemExit 0)) as Hr by (vm_compute; reflexivity).
  split; [exact Hr|]. split; [|vm_compute; by intros [?|]%elem_of_cons; set_solver].
  apply (compute_off_fences "node-1" 5 true compute_start); [vm_compute; reflexivity..|by right].
Defined.
